(* ===== verification/_CoqProject ===== *)
-Q . S2P
Prelude.v
Float64.v
Db.v
Text.v
Responses.v
Partitions.v
AlertState.v
AlertEvaluation.v
AlertHealth.v
Dictionary.v
Catalog.v
MetricMath.v
Capability.v
ControlPlane.v
Samples.v
CollectState.v
Scheduler.v
PlatformHealth.v
TriggerSnapshot.v
Notify.v
Evaluator.v
EvaluatorInv.v
Credentials.v
CredentialsInv.v
CollectService.v
CollectServiceInv.v
AlertRuleQueries.v
AlertRules.v
AlertRulesInv.v
Agent.v
AgentInv.v
AcceptanceReport.v
Preflight.v
WindowQueries.v
MaintenanceAdmin.v
MaintenanceAdminInv.v
AuthQueries.v
Auth.v
AuthInv.v
UsersInv.v
AdminLocks.v
PolicyQueries.v
PolicyAdmin.v
PolicyAdminInv.v
DispositionQueries.v
Dispositions.v
DispositionsInv.v
InstanceList.v
InstanceQueries.v
InstanceHealth.v
InstanceAdmin.v
InstanceAdminInv.v
InstanceSafety.v
InstanceHealthInv.v
ChannelQueries.v
Channels.v
ChannelsInv.v
ChannelsSaved.v
FailuresInv.v
MetricSeries.v
MetricSeriesInv.v
CollectionTasks.v
