(* ===== verification/Prelude.v ===== *)
(** * dbs-monitor: a verification of its core

    The program monitors PostgreSQL servers. A collection service asks every
    monitored instance for samples on a schedule and stores them in the platform
    database; an evaluator aggregates the samples of each alert rule and steps an
    alert state machine; firing and recovery put notifications in a queue, which a
    dispatcher delivers over SMTP and webhooks outside maintenance windows; and a
    health store sums up the state of the platform itself. Users administer all of
    it over an HTTP API, and agents on monitored hosts report to it. This library
    models these parts as executable definitions translated from the Go sources
    under [src/internal] and proves what makes them correct.

    ** The files

    - [Prelude]: machine integers ([int64], [int32]), [time.Time] and
      [time.Duration] as nanoseconds, [timestamptz] (truncated to microseconds),
      binary64 numbers ([float64], SpecFloat), errors and results, string order,
      [sort.SliceStable] ([sort_by]) and lemmas on lists. [Float64]: order and sign
      of binary64 operations.
    - [Db]: the platform database ([db/db.go]). A computation is a state monad over
      the tables that consumes one [fate] per statement (it runs, it fails, or it
      takes effect and the acknowledgement is lost); [InTx] is the transaction.
      A fault carries the proof that it is not [pgx.ErrNoRows], so theorems that
      quantify over fates need no hypothesis on them. Classes [Propagates] and
      [Keeps] and the triples [triple] are how the clients' proofs talk about every
      possible fault. [Text]: decimal integers and base64, with their round trips.
    - [Partitions]: [metric/partitions.go], the partitions of the sample table.
    - [AlertState], [AlertEvaluation], [AlertHealth]: [alerting/state.go],
      [alerting/evaluation.go] and [alerting/health.go].
    - [Dictionary], [Catalog]: [metric/dictionary.go] with the SQL of the tasks,
      [metric/catalog.go], [dbengine/engine.go], and the metric resolution of
      [ListEvaluationTargets].
    - [MetricMath]: [metric/rate.go] and [metric/aggregate.go].
    - [Capability], [ControlPlane]: [metric/capability.go] with
      [capability/probe.go], and [metric/control_plane.go] with [metric/enums.go].
    - [Samples], [CollectState], [Scheduler]: [collect/]. [Samples] decodes what a
      monitored server answered; [CollectState] has the collection tables and every
      operation of [state.go] that writes them; [Scheduler] is the dispatcher, the
      due times and the event loop of [scheduler.go] and [service.go].
    - [PlatformHealth]: [platformhealth/health.go].
    - [TriggerSnapshot]: the sessions kept when an alert fires
      ([alerting/trigger_snapshot.go], [evaluator/trigger_snapshot.go]).
    - [Notify]: [notify/]: messages, maintenance windows, the delivery queue with
      its statements, the dispatcher and the repeats.
    - [Evaluator], [EvaluatorInv]: [evaluator/service.go] with its statements of
      [alerting/queries.sql.go] and [alerting/performance_event.go], on top of
      [AlertState], [AlertEvaluation], [TriggerSnapshot] and [Notify]; the second
      file has the invariant of the alert tables and the refinement of [Step].
    - [Credentials], [CredentialsInv]: [instance/credentials.go], the rotation and
      start-up check of [cmd/monitor-server], and the snapshot file of
      [notify/snapshot.go]. The cipher is the class [Crypto], whose laws are those
      of authenticated encryption; the second file has the proofs.
    - [CollectService], [CollectServiceInv]: [collect/service.go], the connections to
      monitored servers, the execution of a task and of one pass, the monitors and
      the tick of the event loop, on top of [Samples], [Capability], [CollectState],
      [Scheduler] and [PlatformHealth].
    - [AlertRuleQueries], [AlertRules], [AlertRulesInv]: the statements that
      administer alert rules ([alerting/queries.sql.go]), the built-in rules and
      templates ([alerting/builtins.go]) with their seeding
      ([migrations/alerting_seed.go]), and the handlers of [httpapi/alert_rules.go]
      with their validation; they write the tables that [Evaluator] reads.
    - [Responses]: the answers of the HTTP API and the steps its handlers share.
    - [Agent], [AgentInv]: [agent/report.go], the agent with its buffer, and the
      handler of its reports in [httpapi/handler.go].
    - [AcceptanceReport]: the verdict of [acceptancereport/evaluate.go] and the scan
      of [cmd/acceptance-report]. [Preflight]: [platformdb/preflight.go].
    - [AuthQueries], [Auth], [AuthInv], [UsersInv], [AdminLocks]: the middleware,
      sessions and users of [httpapi/handler.go] and [httpapi/users.go] with their
      statements and [platformevent/event.go]; the last file interleaves concurrent
      requests at their row locks.
    - [WindowQueries], [MaintenanceAdmin], [MaintenanceAdminInv]:
      [httpapi/maintenance_window.go]. [PolicyQueries], [PolicyAdmin],
      [PolicyAdminInv]: [httpapi/notification_policies.go]. Both write the tables
      [Notify] reads.
    - [DispositionQueries], [Dispositions], [DispositionsInv]:
      [httpapi/alert_dispositions.go], on the tables of [Evaluator].
    - [InstanceList]: [httpapi/instance_list.go] and [httpapi/fleet_overview.go].
    - [InstanceQueries], [InstanceHealth], [InstanceHealthInv], [InstanceAdmin],
      [InstanceAdminInv], [InstanceSafety]: the instance statements of
      [instance/queries.sql.go], [httpapi/instance_health.go], and the handlers of
      instances, agents' tokens and the pause ([httpapi/handler.go],
      [onboarding.go], [collection_pause.go]). [InstanceTables] joins the tables of
      [Evaluator], [Auth] and [Credentials], so that [platform_step] can interleave
      the handlers with evaluator passes, key rotations, reports and collections.
    - [ChannelQueries], [Channels], [ChannelsInv], [ChannelsSaved], [FailuresInv]:
      [httpapi/notifications.go] and [cmd/monitor-server/notifications.go], on the
      tables of [Credentials] and [Notify]: the administration of channels, the
      channels made of them, the notices of the platform's own failures and the view
      of failing channels. [Book] is the abstract state that the handlers refine.
    - [MetricSeries], [MetricSeriesInv]: [httpapi/metric_series.go],
      [metric_step.go] and [metric_database_dimension.go] with the reasons of
      [handler.go] why there are no points, on the tables of [CollectState] and the
      aggregation of [MetricMath]. [CollectionTasks]: the states of the tasks and
      the change of an interval, on the tables that [Scheduler] reads.

    Definitions carry the names of the sources. Parts of a Go function that are
    loops or blocks have a definition of their own with a lower-case name and a
    comment; a method becomes a function of its receiver, and a receiver or package
    is spelled into the name where Go names clash ([ValidateThresholds],
    [StoreSource]).

    ** What the theorems show

    - Alerts: the reachable snapshots of the state machine are well formed; an alert
      fires or recovers only after the configured number of consecutive evaluations,
      and does so exactly then; missing data suspends and resumes it; the events
      emitted describe the transition; the aggregate of a window is that of exactly
      its points; the health of an instance is that of its worst counted alert.
    - Evaluator: whatever faults occur, one evaluation of a rule on an instance
      leaves the stored state either as it was or as the abstract machine [Step]
      prescribes, together with its event, performance event and notifications; and
      a whole pass keeps the invariant that ties states, events and alerts.
    - Credentials: decryption inverts encryption under any ring that has the key;
      a rotation interrupted at any statement, with any outcome of each, leaves
      every stored secret readable with the ring on disk, and the snapshot of the
      channels either the old one or an exact copy of the tables.
    - Collection: in every reachable state of the scheduler, under any faults, runs
      in flight stay within the limits and are accounted for; accrual catches up in
      one pass; refresh schedules the active targets and nothing else. Operations
      on the collection tables take effect completely or not at all, a success
      stores every sample (repairing partitions when needed), and the watermark
      moves only when every task met its last due time.
    - Collection service: whatever a monitored server answers and whatever faults,
      deadlines and concurrent writers do, the writes of a task are those of its
      protocol, the open connections are the cached ones, and a task of a paused or
      removed instance leaves nothing behind.
    - Alert rules: validation accepts exactly the valid rules, and an accepted
      ordering rule never triggers and recovers on the same value; under any faults
      the history of a rule is complete and immutable, built-in rules stay
      protected, and what is stored can always be evaluated.
    - Samples: counter rates are never negative, baselines of other instances are
      untouched, decoded samples are the declared ones, and series aggregate by
      time. Partitions cover what is written and expire exactly what is old.
    - Capabilities and catalogue: a task runs only with its capabilities known
      present; probes are stored completely or not at all; the SQL resolution of a
      metric agrees with the Go one on catalogues whose slots are not shared with an
      engine-agnostic metric, and differs from it on one that shares them.
    - Notifications: under any interleaving of dispatchers, faults and expired
      locks a delivery's attempts are recorded once each, at most three, and its
      status is their outcome; nothing is sent during maintenance; claims are
      exclusive for their lock; repeats respect the policy's interval; one dispatch
      settles a delivery on a server without faults.
    - Trigger snapshots keep whole blocking chains, and the walk that finds them
      ends. Platform health is the worst of its sources, levels have hysteresis, and
      sample writes stop exactly at the emergency level.
    - Access: the middleware lets exactly those call an operation who may; changes
      need an administrator; under any faults, and under any interleaving of
      concurrent changes at their locks, an enabled platform administrator remains;
      changes of credentials end sessions.
    - Agents: a report stores only the agent's own recent values, and once a report
      is acknowledged nothing recent of an outage is lost.
    - Windows and policies: a listed window is active exactly when notifications are
      suppressed, and what is over never changes; a saved policy is what the
      dispatcher computes with, and references stay intact.
    - Dispositions: every answer is the right one, and the history of an alert is a
      chain that accounts for its present disposition.
    - Instances: pages of the list partition it, the overview's numbers are those of
      the list, and list and detail agree (but for the flag of the maintenance
      window). A removed instance stays removed and its alerts closed whatever the
      platform does; a stored connection was tested, and its version tells when it
      changed; tokens of agents take effect exactly; a paused instance keeps its
      alerts.
    - Channels: whatever fails, a request on a channel leaves what a book of
      channels in plain text prescribes, exactly the valid requests are carried out
      on a server without faults, notices of the platform's own failures go to the
      enabled channels as saved, and the view of failing channels is exact.
    - Metric series: the points of a series account for exactly its samples of the
      range, every metric that is asked for has points or a reason, and the batch
      endpoint answers what the endpoint of one instance does. A changed interval of
      a task reaches the scheduler and touches no other task.

    ** Bounds and fuel

    Loops that are not structural take fuel, and a theorem or lemma shows that the
    fuel given is enough: [backoff_loop] (64 doublings reach the cap of sixty
    seconds), [accrue_fuel] (one step per missed interval), [ensure_fuel] (one step
    per second of the range, and a partition spans at least a second),
    [related_fuel] (one step per pid pushed on the walk). [dispatch_all] follows the
    readings of the clock it is given. Go integers are kept at
    their width where arithmetic could leave it; instants are unbounded integers.

    ** Parameters

    What a monitored server answers, the rows and errors of a probe, the channels
    that carry a message and the text PostgreSQL gives a number are arguments; so are
    the clock, the dialer, the answers and the concurrent writers of the collection
    service (the record [Outside]), the JSON encoding of a rule ([marshal],
    [seed_snapshot]), what the operating system tells an agent ([Host]), the
    primitives of the libraries ([Sum256], bcrypt's [Generate] and [Compare],
    [ParseAddress], [ParseURL], [ToLower]), how a configured channel sends ([Send]),
    the dialled server of the connection test ([Dial],
    [ServerVersionNum]), the average of a bucket of samples ([avg]) and random tokens
    and ids. Handlers run one at a time, but
    for [AdminLocks]. A statement of the generated query files is modelled by its
    effect on the tables it names, with the constraints of the schema that it can
    violate. A handler's panic is answered as an error.

    ** Not modelled, and why

    The generated client and the generated wrappers that decode requests and encode
    answers, the web client, SMTP, HTTP and TLS, process wiring, configuration files
    and the diagnostic archive: they are network, file and process I/O around the
    modelled parts. The handlers of alert observations, sessions and performance events, the rankings of storage and statements in the overview, the retention of old rows
    and the statements only they run are left out: their work is the SQL that ranks,
    joins and deletes rows. *)
From Stdlib Require Export ZArith SpecFloat.
From stdpp Require Export base list gmap strings sorting.

Open Scope Z_scope.

(** * Proof automation shared by the components *)

Create HintDb monitor.

(** Splits every [if] and [match] on a boolean or option test in the goal. *)
Ltac split_tests :=
  repeat match goal with
         | |- context [if ?b then _ else _] => destruct b eqn:?
         | |- context [match ?o with Some _ => _ | None => _ end] => destruct o eqn:?
         end.

(** The same, in the hypothesis [H]. *)
Ltac split_tests_in H :=
  repeat match type of H with
         | context [if ?b then _ else _] => destruct b eqn:?
         | context [match ?o with Some _ => _ | None => _ end] => destruct o eqn:?
         end.

(** Turns boolean comparisons in the context into propositions. *)
Ltac bool_to_prop :=
  repeat match goal with
         | H : _ && _ = true |- _ => apply andb_true_iff in H; destruct H
         | H : _ || _ = false |- _ => apply orb_false_iff in H; destruct H
         | H : negb _ = true |- _ => apply negb_true_iff in H
         | H : negb _ = false |- _ => apply negb_false_iff in H
         | H : (_ <? _) = true |- _ => apply Z.ltb_lt in H
         | H : (_ <? _) = false |- _ => apply Z.ltb_ge in H
         | H : (_ <=? _) = true |- _ => apply Z.leb_le in H
         | H : (_ <=? _) = false |- _ => apply Z.leb_gt in H
         | H : (_ =? _) = true |- _ => apply Z.eqb_eq in H
         | H : (_ =? _) = false |- _ => apply Z.eqb_neq in H
         | H : bool_decide _ = true |- _ => apply bool_decide_eq_true in H
         | H : bool_decide _ = false |- _ => apply bool_decide_eq_false in H
         end.

(** * Machine integers *)

(** Go's [int] and [int64] (64 bits) and [int32], as [Z] with the wrap-around
    of the language written out. *)
Definition int64 (z : Z) : Z := (z + 2 ^ 63) mod 2 ^ 64 - 2 ^ 63.
Definition int32 (z : Z) : Z := (z + 2 ^ 31) mod 2 ^ 32 - 2 ^ 31.
Definition uint64 (z : Z) : Z := z mod 2 ^ 64.

Definition in_int64 (z : Z) : Prop := - 2 ^ 63 <= z < 2 ^ 63.
Definition in_int32 (z : Z) : Prop := - 2 ^ 31 <= z < 2 ^ 31.

Lemma int64_id z : in_int64 z -> int64 z = z.
Proof. unfold in_int64, int64. intros ?. rewrite Z.mod_small; lia. Qed.

Lemma int32_id z : in_int32 z -> int32 z = z.
Proof. unfold in_int32, int32. intros ?. rewrite Z.mod_small; lia. Qed.

Lemma int64_range z : in_int64 (int64 z).
Proof. unfold in_int64, int64. pose proof (Z.mod_pos_bound (z + 2 ^ 63) (2 ^ 64)). lia. Qed.

(** [x++] on an [int]. *)
Definition incr (z : Z) : Z := int64 (z + 1).

Lemma incr_id z : 0 <= z < 2 ^ 63 - 1 -> incr z = z + 1.
Proof. intros ?. unfold incr. rewrite int64_id; unfold in_int64; lia. Qed.

(** * Time *)

(** [time.Time] in UTC: nanoseconds since the Unix epoch. [time.Duration]: a
    64-bit count of nanoseconds. *)
Abbreviation Time := Z (only parsing).
Abbreviation Duration := Z (only parsing).

Definition Nanosecond : Duration := 1.
Definition Microsecond : Duration := 1000.
Definition Millisecond : Duration := 1000000.
Definition Second : Duration := 1000000000.
Definition Minute : Duration := 60 * Second.
Definition Hour : Duration := 60 * Minute.

(** [time.Time{}]: January 1, year 1, 00:00:00 UTC. *)
Definition ZeroTime : Time := -62135596800 * Second.

Definition IsZero (t : Time) : bool := t =? ZeroTime.
Definition After (t u : Time) : bool := u <? t.
Definition Before (t u : Time) : bool := t <? u.
Definition TimeAdd (t : Time) (d : Duration) : Time := t + d.

(** [t.Sub(u)] saturates at the ends of [Duration]. *)
Definition TimeSub (t u : Time) : Duration :=
  Z.max (- 2 ^ 63) (Z.min (2 ^ 63 - 1) (t - u)).

Lemma TimeSub_exact t u : in_int64 (t - u) -> TimeSub t u = t - u.
Proof. unfold in_int64, TimeSub. lia. Qed.

(** [t.Unix()]: whole seconds, rounded towards minus infinity. *)
Definition Unix (t : Time) : Z := t / Second.

(** A [timestamptz] column stores microseconds: writing a [time.Time] drops the
    rest of its nanoseconds. *)
Definition timestamptz (t : Time) : Time := t / 1000 * 1000.

Lemma timestamptz_mono t u : t <= u -> timestamptz t <= timestamptz u.
Proof. intros ?. unfold timestamptz. pose proof (Z.div_le_mono t u 1000). lia. Qed.

Lemma timestamptz_le t : timestamptz t <= t.
Proof. unfold timestamptz. pose proof (Z.div_mod t 1000). pose proof (Z.mod_pos_bound t 1000). lia. Qed.

Lemma timestamptz_lt t : t < timestamptz t + 1000.
Proof. unfold timestamptz. pose proof (Z.div_mod t 1000). pose proof (Z.mod_pos_bound t 1000). lia. Qed.

Lemma timestamptz_idemp t : timestamptz (timestamptz t) = timestamptz t.
Proof. unfold timestamptz. by rewrite Z.div_mul by lia. Qed.

#[export] Hint Resolve timestamptz_mono timestamptz_le : monitor.

(** * Floating point *)

(** [float64] is IEEE-754 binary64: the Standard Library's executable
    specification at precision 53 and maximal exponent 1024. *)
Abbreviation float64 := spec_float (only parsing).

Definition f64_add : float64 -> float64 -> float64 := SFadd 53 1024.
Definition f64_sub : float64 -> float64 -> float64 := SFsub 53 1024.
Definition f64_mul : float64 -> float64 -> float64 := SFmul 53 1024.
Definition f64_div : float64 -> float64 -> float64 := SFdiv 53 1024.

(** [float64(i)] of an integer: the nearest binary64 number, ties to even. *)
Definition f64_of_Z (z : Z) : float64 := binary_normalize 53 1024 z 0 false.

(** [int64(f)] of a finite number: truncation towards zero. *)
Definition Z_of_f64 (f : float64) : Z :=
  match f with
  | S754_finite s m e =>
      let magnitude := if 0 <=? e then Z.pos m * 2 ^ e else Z.pos m / 2 ^ (- e) in
      int64 (if s then - magnitude else magnitude)
  | _ => 0
  end.

Declare Scope f64_scope.
Delimit Scope f64_scope with f64.
Bind Scope f64_scope with spec_float.
Infix "+" := f64_add : f64_scope.
Infix "-" := f64_sub : f64_scope.
Infix "*" := f64_mul : f64_scope.
Infix "/" := f64_div : f64_scope.
Infix "<?" := SFltb : f64_scope.
Infix "<=?" := SFleb : f64_scope.
Infix "=?" := SFeqb : f64_scope.
Notation "x >? y" := (SFltb y x) (only parsing) : f64_scope.
Notation "x >=? y" := (SFleb y x) (only parsing) : f64_scope.

Definition IsNaN (f : float64) : bool := match f with S754_nan => true | _ => false end.
Definition IsInf (f : float64) : bool := match f with S754_infinity _ => true | _ => false end.
Definition is_finite (f : float64) : bool := negb (IsNaN f) && negb (IsInf f).

#[export] Instance spec_float_eq_dec : EqDecision spec_float.
Proof. solve_decision. Defined.

(** [time.Duration.Seconds]: whole seconds plus the fraction, as the standard
    library computes it. *)
Definition Seconds (d : Duration) : float64 :=
  (f64_of_Z (Z.quot d Second) + f64_of_Z (Z.rem d Second) / f64_of_Z 1000000000)%f64.

(** The IEEE comparison is a strict order on the numbers that compare. *)
Section FloatOrder.

(** A rank that orders floats as [SFcompare] does: the sign class, then the
    exponent, then the mantissa. *)
Definition f64_rank (f : float64) : Z * Z * Z :=
  match f with
  | S754_nan => (0, 0, 0)
  | S754_infinity true => (-2, 0, 0)
  | S754_finite true m e => (-1, - e, - Z.pos m)
  | S754_zero _ => (0, 0, 0)
  | S754_finite false m e => (1, e, Z.pos m)
  | S754_infinity false => (2, 0, 0)
  end.

Definition rank_lt (a b : Z * Z * Z) : Prop :=
  let '(a1, a2, a3) := a in
  let '(b1, b2, b3) := b in
  a1 < b1 \/ (a1 = b1 /\ (a2 < b2 \/ (a2 = b2 /\ a3 < b3))).

Lemma rank_lt_trans a b c : rank_lt a b -> rank_lt b c -> rank_lt a c.
Proof. destruct a as [[??]?], b as [[??]?], c as [[??]?]; simpl; lia. Qed.

Lemma SFltb_rank x y :
  SFltb x y = true <-> IsNaN x = false /\ IsNaN y = false /\ rank_lt (f64_rank x) (f64_rank y).
Proof.
  unfold SFltb, SFcompare.
  destruct x as [[]|[]| |[] m1 e1], y as [[]|[]| |[] m2 e2]; simpl;
    try (split; intros; [try discriminate; repeat split; lia | intuition (discriminate || lia)]).
  - change (PosDef.Pos.compare_cont Eq m1 m2) with (Pos.compare m1 m2).
    destruct (Z.compare_spec e1 e2), (Pos.compare_spec m1 m2); simpl; split;
      intros; intuition (discriminate || lia).
  - change (PosDef.Pos.compare_cont Eq m1 m2) with (Pos.compare m1 m2).
    destruct (Z.compare_spec e1 e2), (Pos.compare_spec m1 m2); simpl; split;
      intros; intuition (discriminate || lia).
Qed.

Lemma SFltb_trans x y z : SFltb x y = true -> SFltb y z = true -> SFltb x z = true.
Proof.
  rewrite !SFltb_rank. intros (?&?&?) (?&?&?). split_and!; eauto using rank_lt_trans.
Qed.

Lemma SFltb_irrefl x : SFltb x x = false.
Proof.
  apply not_true_iff_false. rewrite SFltb_rank. intros (_&_&H).
  destruct (f64_rank x) as [[??]?]; simpl in H; lia.
Qed.

Lemma SFltb_asym x y : SFltb x y = true -> SFltb y x = false.
Proof.
  intros H. apply not_true_iff_false. intros H'.
  pose proof (SFltb_trans _ _ _ H H') as Hxx. by rewrite SFltb_irrefl in Hxx.
Qed.

Lemma SFleb_rank x y :
  SFleb x y = true <->
  IsNaN x = false /\ IsNaN y = false /\ (rank_lt (f64_rank x) (f64_rank y) \/ f64_rank x = f64_rank y).
Proof.
  unfold SFleb, SFcompare.
  destruct x as [[]|[]| |[] m1 e1], y as [[]|[]| |[] m2 e2]; simpl;
    try change (PosDef.Pos.compare_cont Eq m1 m2) with (Pos.compare m1 m2);
    try (destruct (Z.compare_spec e1 e2), (Pos.compare_spec m1 m2); simpl; subst);
    split; try discriminate; try (intros _; split_and!; auto; left; lia);
    intros (Hx&Hy&[Hlt|Heq]); try first [discriminate | lia | done | injection Heq; lia]; auto.
Qed.

Lemma SFleb_trans x y z : SFleb x y = true -> SFleb y z = true -> SFleb x z = true.
Proof.
  rewrite !SFleb_rank. intros (?&?&Hxy) (?&?&Hyz). split_and!; [done..|].
  destruct Hxy as [|Hxy], Hyz as [|Hyz]; rewrite ?Hxy, <-?Hyz; eauto using rank_lt_trans.
Qed.

Lemma SFltb_leb x y : SFltb x y = true -> SFleb x y = true.
Proof. rewrite SFltb_rank, SFleb_rank. intros (?&?&?). auto. Qed.

Lemma SFltb_leb_trans x y z : SFltb x y = true -> SFleb y z = true -> SFltb x z = true.
Proof.
  rewrite !SFltb_rank, SFleb_rank. intros (?&?&?) (?&?&[?|Hyz]); split_and!; try done;
    [eauto using rank_lt_trans | by rewrite <-Hyz].
Qed.

Lemma SFleb_ltb_trans x y z : SFleb x y = true -> SFltb y z = true -> SFltb x z = true.
Proof.
  rewrite !SFltb_rank, SFleb_rank. intros (?&?&[?|Hxy]) (?&?&?); split_and!; try done;
    [eauto using rank_lt_trans | by rewrite Hxy].
Qed.

(** On numbers that are not NaN the comparison is total. *)
Lemma SFltb_false_leb x y : IsNaN x = false -> IsNaN y = false -> SFltb x y = false -> SFleb y x = true.
Proof.
  intros Hx Hy H. rewrite SFleb_rank. split_and!; try done.
  apply not_true_iff_false in H. rewrite SFltb_rank in H.
  destruct (f64_rank x) as [[a1 a2] a3], (f64_rank y) as [[b1 b2] b3]; simpl in *.
  destruct (Z.lt_trichotomy a1 b1) as [?|[->|?]]; [tauto| |tauto].
  destruct (Z.lt_trichotomy a2 b2) as [?|[->|?]]; [tauto| |tauto].
  destruct (Z.lt_trichotomy a3 b3) as [?|[->|?]]; [tauto|by right|tauto].
Qed.

End FloatOrder.

#[export] Hint Resolve SFltb_trans SFleb_trans SFltb_leb SFltb_leb_trans SFleb_ltb_trans : monitor.

(** * Errors and fallible code *)

(** The column is NULL, the pointer nil. *)
Definition absent {A} (o : option A) : bool := match o with None => true | Some _ => false end.

(** Go [error] values: [pgx.ErrNoRows], a [*pgconn.PgError] with its SQLSTATE, a
    [net.Error], [io.EOF] and [io.ErrUnexpectedEOF], [errors.New], an error type of
    the program with its code, and an error wrapped by [fmt.Errorf] with its [%w]. *)
Inductive error : Type :=
  | ErrNoRows
  | ErrPg (code : string)
  | ErrNet
  | ErrEOF
  | ErrNew (message : string)
  | ErrCode (code : string)
  | Errorf (message : string) (inner : error).

#[export] Instance error_eq_dec : EqDecision error.
Proof. solve_decision. Defined.

(** [errors.Is(err, pgx.ErrNoRows)]: unwraps [%w]. *)
Fixpoint is_no_rows (e : error) : bool :=
  match e with
  | ErrNoRows => true
  | Errorf _ inner => is_no_rows inner
  | _ => false
  end.

(** [errors.As(err, &pgError)] *)
Fixpoint pg_error (e : error) : option string :=
  match e with ErrPg code => Some code | Errorf _ inner => pg_error inner | _ => None end.

Inductive result (A : Type) : Type :=
  | Ok (a : A)
  | Err (e : error).
Arguments Ok {A} a.
Arguments Err {A} e.

#[export] Instance result_ret : MRet result := fun A a => Ok a.
#[export] Instance result_bind : MBind result := fun A B f m =>
  match m with Ok a => f a | Err e => Err e end.

(** * Strings *)

(** Go compares strings byte by byte. *)
Definition string_ltb (s t : string) : bool :=
  match String.compare s t with Lt => true | _ => false end.

Definition HasPrefix (s prefix : string) : bool := String.prefix prefix s.

Lemma ascii_compare_trans a b c :
  Ascii.compare a b = Lt -> Ascii.compare b c = Lt -> Ascii.compare a c = Lt.
Proof. unfold Ascii.compare. rewrite !N.compare_lt_iff. lia. Qed.

Lemma ascii_compare_refl a : Ascii.compare a a = Eq.
Proof. unfold Ascii.compare. apply N.compare_refl. Qed.

Lemma ascii_compare_eq a b : Ascii.compare a b = Eq -> a = b.
Proof.
  unfold Ascii.compare. rewrite N.compare_eq_iff. intros H.
  by rewrite <-(Ascii.ascii_N_embedding a), <-(Ascii.ascii_N_embedding b), H.
Qed.

Lemma string_compare_refl s : String.compare s s = Eq.
Proof. induction s; simpl; [done|]. by rewrite ascii_compare_refl. Qed.

Lemma string_ltb_irrefl s : string_ltb s s = false.
Proof. unfold string_ltb. by rewrite string_compare_refl. Qed.

Lemma string_ltb_trans s t u : string_ltb s t = true -> string_ltb t u = true -> string_ltb s u = true.
Proof.
  unfold string_ltb. revert t u.
  induction s as [|a s IH]; intros [|b t] [|c u]; simpl; try done.
  intros H1 H2.
  destruct (Ascii.compare a b) eqn:Hab; try done; destruct (Ascii.compare b c) eqn:Hbc; try done.
  - apply ascii_compare_eq in Hab, Hbc; subst. rewrite ascii_compare_refl. eauto.
  - apply ascii_compare_eq in Hab; subst. by rewrite Hbc.
  - apply ascii_compare_eq in Hbc; subst. by rewrite Hab.
  - by rewrite (ascii_compare_trans _ _ _ Hab Hbc).
Qed.

Lemma string_ltb_total s t : string_ltb s t = false -> string_ltb t s = false -> s = t.
Proof.
  unfold string_ltb. rewrite (String.compare_antisym t s).
  destruct (String.compare s t) eqn:E; simpl; try done.
  intros _ _. by apply String.compare_eq_iff.
Qed.

#[export] Hint Resolve string_ltb_trans string_ltb_total string_ltb_irrefl : monitor.

(** * Sorting *)

(** [sort.SliceStable] with the [less] function of the call. [sort.Slice] gives
    the same list when [less] is a strict total order on the elements, which is
    how the sources use it ([sort_by_unique]). *)
Section Sort.
Context {A : Type} (less : A -> A -> bool).

Fixpoint insert_by (x : A) (l : list A) : list A :=
  match l with
  | [] => [x]
  | y :: l' => if less y x then y :: insert_by x l' else x :: l
  end.

Fixpoint sort_by (l : list A) : list A :=
  match l with
  | [] => []
  | x :: l' => insert_by x (sort_by l')
  end.

Lemma insert_by_perm x l : insert_by x l ≡ₚ x :: l.
Proof.
  induction l as [|y l IH]; simpl; [done|].
  destruct (less y x); [|done]. rewrite IH. apply Permutation_swap.
Qed.

Lemma sort_by_perm l : sort_by l ≡ₚ l.
Proof. induction l as [|x l IH]; simpl; [done|]. by rewrite insert_by_perm, IH. Qed.

Lemma elem_of_sort_by x l : x ∈ sort_by l <-> x ∈ l.
Proof. by rewrite sort_by_perm. Qed.

Lemma length_sort_by l : length (sort_by l) = length l.
Proof. by rewrite sort_by_perm. Qed.

(** A list is in order when no later element is [less] than an earlier one. *)
Definition in_order (l : list A) : Prop := StronglySorted (fun x y => less y x = false) l.

Hypothesis less_trans : forall x y z, less x y = true -> less y z = true -> less x z = true.
Hypothesis less_irrefl : forall x, less x x = false.
Hypothesis less_total :
  forall x y z, less y x = false -> less z y = false -> less z x = false.

Lemma insert_by_in_order x l : in_order l -> in_order (insert_by x l).
Proof using less_total less_trans less_irrefl.
  induction 1 as [|y l Hl IH Hy]; simpl; [repeat constructor|].
  destruct (less y x) eqn:Hyx.
  - constructor; [done|]. rewrite Forall_forall in *. intros z.
    rewrite insert_by_perm, elem_of_cons. intros [->|Hz]; [|auto].
    apply not_true_iff_false. intros Hxy.
    pose proof (less_trans _ _ _ Hyx Hxy) as H. by rewrite less_irrefl in H.
  - constructor; [by constructor|]. constructor; [done|].
    rewrite Forall_forall in *. eauto.
Qed.

Lemma sort_by_in_order l : in_order (sort_by l).
Proof using less_total less_trans less_irrefl.
  induction l; simpl; [constructor|]. by apply insert_by_in_order.
Qed.

(** With a total order on distinct elements there is one sorted arrangement, so
    a stable and an unstable sort agree. *)
Lemma in_order_unique l1 l2 :
  (forall x y, x ∈ l1 -> y ∈ l1 -> less x y = false -> less y x = false -> x = y) ->
  in_order l1 -> in_order l2 -> l1 ≡ₚ l2 -> l1 = l2.
Proof.
  intros Htot H1. revert l2 Htot.
  induction H1 as [|x l1 Hl1 IH Hx]; intros l2 Htot H2 Hp.
  { by apply Permutation_nil_l in Hp. }
  destruct H2 as [|y l2 Hl2 Hy].
  { symmetry in Hp. by apply Permutation_nil_l in Hp. }
  rewrite Forall_forall in Hx, Hy.
  assert (x = y) as ->.
  { assert (y ∈ x :: l1) as Hyin by (rewrite Hp; left).
    assert (x ∈ y :: l2) as Hxin by (rewrite <-Hp; left).
    apply elem_of_cons in Hyin as [->|Hyin]; [done|].
    apply elem_of_cons in Hxin as [->|Hxin]; [done|].
    apply Htot; [left|by right| |]; auto. }
  f_equal. apply IH; try done.
  - intros a b Ha Hb. apply Htot; by right.
  - by apply Permutation_cons_inv in Hp.
Qed.

End Sort.

(** * Filters *)

Lemma filter_none {A} (P : A -> Prop) `{!forall x, Decision (P x)} (l : list A) :
  (forall y, y ∈ l -> ~ P y) -> filter P l = [].
Proof.
  induction l as [|x l IH]; intros Hn; [done|].
  rewrite filter_cons_False by (apply Hn; left). apply IH. intros y Hy. apply Hn. by right.
Qed.

Lemma filter_all {A} (P : A -> Prop) `{!forall x, Decision (P x)} (l : list A) : (forall x, x ∈ l -> P x) -> filter P l = l.
Proof.
  induction l as [|x l IH]; [done|]. intros Hall. rewrite filter_cons_True by (apply Hall; left). f_equal. apply IH. intros y Hy. apply Hall. by right.
Qed.

Lemma filter_ext_elem {A} (P Q : A -> Prop) `{!forall x, Decision (P x)} `{!forall x, Decision (Q x)} (l : list A) :
  (forall x, x ∈ l -> P x <-> Q x) -> filter P l = filter Q l.
Proof.
  induction l as [|x l IH]; intros Hpq; [done|]. rewrite !filter_cons.
  rewrite IH by (intros; apply Hpq; by right). specialize (Hpq x ltac:(left)).
  destruct (decide (P x)), (decide (Q x)); tauto.
Qed.

Lemma filter_unique {A} (P : A -> Prop) `{!forall x, Decision (P x)} (l : list A) x :
  NoDup l -> x ∈ l -> P x -> (forall y, y ∈ l -> P y -> y = x) -> filter P l = [x].
Proof.
  induction l as [|y l IH]; [by intros _ ?%elem_of_nil|].
  intros [Hni Hnd]%NoDup_cons Hx HP Huniq. rewrite filter_cons.
  destruct (decide (P y)) as [Hy|Hy].
  - assert (y = x) as -> by (apply Huniq; [left|done]). f_equal.
    apply filter_none. intros z Hz Hz'.
    assert (z = x) as -> by (apply Huniq; [by right|done]). done.
  - apply elem_of_cons in Hx as [->|Hx]; [done|]. apply IH; auto.
    intros z Hz. apply Huniq. by right.
Qed.

(** * Keys of lists *)

Lemma strictly_sorted {A} (key : A -> Z) l :
  NoDup (key <$> l) -> StronglySorted (fun x y => (key y <? key x) = false) l ->
  StronglySorted (fun x y => key x < key y) l.
Proof.
  intros Hnd Hs. induction Hs as [|x l Hs IH Hx]; constructor.
  - apply IH. by apply NoDup_cons in Hnd as [_ ?].
  - apply NoDup_cons in Hnd as [Hni _]. rewrite Forall_forall in *. intros y Hy.
    specialize (Hx y Hy). simpl in Hx. apply Z.ltb_ge in Hx.
    assert (key x <> key y) by (intros E; apply Hni; rewrite E; by apply list_elem_of_fmap_2). lia.
Qed.

(** Filtering and mapping entries by a function that keeps their key keeps the
    keys distinct. *)
Lemma NoDup_omap_key {A B K} (f : A -> option B) (ka : A -> K) (kb : B -> K) l :
  (forall a b, f a = Some b -> kb b = ka a) -> NoDup (ka <$> l) -> NoDup (kb <$> omap f l).
Proof.
  intros Hf. induction l as [|a l IH]; simpl; [constructor|].
  intros [Hni Hnd]%NoDup_cons. destruct (f a) as [b|] eqn:E; simpl; [|auto].
  constructor; [|auto]. rewrite (Hf a b E), list_elem_of_fmap. intros (b'&Hk&Hb').
  apply list_elem_of_omap in Hb' as (a'&Ha'&E'). apply Hni.
  rewrite Hk, (Hf a' b' E'). by apply list_elem_of_fmap_2.
Qed.
