(* ===== verification/Float64.v ===== *)
(** Signs of binary64 arithmetic: rounding keeps the sign of the exact result, so
    differences of ordered numbers, sums, products and quotients of numbers that
    are not negative are not negative. These are the facts the rate and
    aggregation theorems rest on. *)

From S2P Require Import Prelude.

(** A float that does not compare below zero: NaN and both zeros included. *)
Definition nonneg (f : float64) : bool := negb (f <? S754_zero false)%f64.

(** The sign bit is clear. *)
Definition unsigned (f : float64) : bool :=
  match f with
  | S754_zero s | S754_infinity s | S754_finite s _ _ => negb s
  | S754_nan => true
  end.

(** The value is a float64: its mantissa and exponent are in canonical form. *)
Definition valid_float64 (f : float64) : Prop := valid_binary 53 1024 f = true.

Lemma nonneg_cases f :
  nonneg f = match f with S754_infinity true | S754_finite true _ _ => false | _ => true end.
Proof. by destruct f as [[]|[]| |[]]. Qed.

Lemma unsigned_nonneg f : unsigned f = true -> nonneg f = true.
Proof. by destruct f as [[]|[]| |[]]. Qed.

(** A rounded result has the sign it was rounded with. *)
Lemma round_aux_unsigned m e l : unsigned (binary_round_aux 53 1024 false m e l) = true.
Proof. unfold binary_round_aux. by repeat case_match. Qed.

Lemma normalize_unsigned z e : 0 <= z -> unsigned (binary_normalize 53 1024 z e false) = true.
Proof.
  intros. destruct z as [|p|p]; [done| |lia].
  unfold binary_normalize, binary_round. case_match. apply round_aux_unsigned.
Qed.

Lemma f64_of_Z_unsigned z : 0 <= z -> unsigned (f64_of_Z z) = true.
Proof. apply normalize_unsigned. Qed.

Lemma f64_add_unsigned x y : unsigned x = true -> unsigned y = true -> unsigned (x + y)%f64 = true.
Proof.
  destruct x as [[]|[]| |[] mx ex], y as [[]|[]| |[] my ey]; try done.
  intros _ _. unfold f64_add, SFadd. apply normalize_unsigned. unfold cond_Zopp. lia.
Qed.

Lemma f64_div_unsigned x y : unsigned x = true -> unsigned y = true -> unsigned (x / y)%f64 = true.
Proof.
  destruct x as [[]|[]| |[] mx ex], y as [[]|[]| |[] my ey]; try done.
  intros _ _. unfold f64_div, SFdiv. repeat case_match. apply round_aux_unsigned.
Qed.

Lemma f64_mul_unsigned x y : unsigned x = true -> unsigned y = true -> unsigned (x * y)%f64 = true.
Proof.
  destruct x as [[]|[]| |[] mx ex], y as [[]|[]| |[] my ey]; try done.
  intros _ _. apply round_aux_unsigned.
Qed.

(** A number that is not negative and not a negative zero has a clear sign. *)
Lemma f64_add_nonneg x y : nonneg x = true -> nonneg y = true -> nonneg (x + y)%f64 = true.
Proof.
  rewrite !nonneg_cases.
  destruct x as [[]|[]| |[] mx ex], y as [[]|[]| |[] my ey]; try done.
  intros _ _. rewrite <-nonneg_cases. apply unsigned_nonneg.
  unfold f64_add, SFadd. apply normalize_unsigned. unfold cond_Zopp. lia.
Qed.

Lemma f64_div_nonneg x y : nonneg x = true -> unsigned y = true -> nonneg (x / y)%f64 = true.
Proof.
  rewrite nonneg_cases.
  destruct x as [[]|[]| |[] mx ex], y as [[]|[]| |[] my ey]; try done.
  intros _ _. apply unsigned_nonneg. unfold f64_div, SFdiv. repeat case_match. apply round_aux_unsigned.
Qed.

Lemma f64_mul_nonneg x y : nonneg x = true -> unsigned y = true -> nonneg (x * y)%f64 = true.
Proof.
  rewrite nonneg_cases.
  destruct x as [[]|[]| |[] mx ex], y as [[]|[]| |[] my ey]; try done.
  intros _ _. apply unsigned_nonneg, round_aux_unsigned.
Qed.

Lemma positive_unsigned x : (f64_of_Z 0 <? x)%f64 = true -> unsigned x = true.
Proof. by destruct x as [[]|[]| |[]]. Qed.

Lemma Seconds_unsigned d : 0 <= d -> unsigned (Seconds d) = true.
Proof.
  intros Hd. unfold Seconds. apply f64_add_unsigned.
  - apply f64_of_Z_unsigned, Z.quot_pos; unfold Second; lia.
  - apply f64_div_unsigned; apply f64_of_Z_unsigned; [|lia].
    pose proof (Z.rem_bound_pos d Second). unfold Second in *. lia.
Qed.

(** * Differences *)

Lemma digits2_pos_size m : digits2_pos m = Pos.size m.
Proof. induction m; simpl; congruence. Qed.

Lemma digits2_bounds m : 2 ^ (Z.pos (digits2_pos m) - 1) <= Z.pos m < 2 ^ Z.pos (digits2_pos m).
Proof.
  rewrite digits2_pos_size. pose proof (Pos.size_gt m) as H1. pose proof (Pos.size_le m) as H2.
  apply Pos2Z.pos_le_pos in H2. apply Pos2Z.pos_lt_pos in H1. rewrite Pos2Z.inj_pow in H1, H2.
  split; [|lia].
  assert (2 ^ Z.pos (Pos.size m) = 2 * 2 ^ (Z.pos (Pos.size m) - 1)) as E
    by (rewrite <-Z.pow_succ_r by lia; f_equal; lia).
  lia.
Qed.

Lemma bounded_mantissa m e :
  bounded 53 1024 m e = true -> -1074 <= e /\ Z.pos m < 2 ^ 53 /\ (-1074 < e -> 2 ^ 52 <= Z.pos m).
Proof.
  unfold bounded, canonical_mantissa, fexp, emin. rewrite andb_true_iff, Z.eqb_eq.
  intros [He _]. pose proof (digits2_bounds m) as [Hlo Hhi].
  remember (Z.pos (digits2_pos m)) as d eqn:Hd. assert (1 <= d) by lia.
  split_and!; [lia| |].
  - eapply Z.lt_le_trans; [exact Hhi|]. apply Z.pow_le_mono_r; lia.
  - intros Hlt. assert (d = 53) as -> by lia. exact Hlo.
Qed.

Lemma pos_iter_xO m d : Z.pos (Pos.iter xO m d) = Z.pos m * 2 ^ Z.pos d.
Proof.
  induction d as [|d IH] using Pos.peano_ind; [simpl; lia|].
  rewrite Pos.iter_succ, Pos2Z.inj_succ, Z.pow_succ_r, Pos2Z.inj_xO, IH by lia. lia.
Qed.

Lemma shl_align_value m e e' : e' <= e -> Z.pos (fst (shl_align m e e')) = Z.pos m * 2 ^ (e - e').
Proof.
  intros He. unfold shl_align. destruct (e' - e) as [|d|d] eqn:E; simpl; try lia.
  - replace (e - e') with 0 by lia. lia.
  - change (PosDef.Pos.iter xO m d) with (Pos.iter xO m d). rewrite pos_iter_xO.
    do 2 f_equal. lia.
Qed.

(** The lexicographic comparison of canonical numbers agrees with their values. *)
Lemma canonical_compare m1 e1 m2 e2 :
  bounded 53 1024 m1 e1 = true -> bounded 53 1024 m2 e2 = true ->
  e1 < e2 \/ e1 = e2 /\ Z.pos m1 <= Z.pos m2 ->
  Z.pos m1 * 2 ^ (e1 - Z.min e1 e2) <= Z.pos m2 * 2 ^ (e2 - Z.min e1 e2).
Proof.
  intros (Hlo1&Hm1&_)%bounded_mantissa (Hlo2&_&Hm2)%bounded_mantissa [Hlt|[-> Hle]].
  - rewrite Z.min_l by lia. rewrite Z.sub_diag, Z.mul_1_r.
    assert (2 ^ 52 <= Z.pos m2) by (apply Hm2; lia).
    assert (2 ^ 1 <= 2 ^ (e2 - e1)) by (apply Z.pow_le_mono_r; lia). nia.
  - apply Z.mul_le_mono_nonneg_r; [apply Z.pow_nonneg; lia|lia].
Qed.

Lemma f64_sub_nonneg x y :
  valid_float64 x -> valid_float64 y -> (x <? y)%f64 = false -> nonneg (x - y)%f64 = true.
Proof.
  unfold valid_float64. intros Hx Hy Hlt. rewrite nonneg_cases.
  destruct x as [[]|[]| |[] mx ex], y as [[]|[]| |[] my ey]; try done; simpl in Hx, Hy;
    rewrite <-nonneg_cases; apply unsigned_nonneg; unfold f64_sub, SFsub;
    apply normalize_unsigned; unfold cond_Zopp.
  - assert (rank_lt (f64_rank (S754_finite true mx ex)) (f64_rank (S754_finite true my ey)) -> False) as Hn.
    { intros H. apply not_true_iff_false in Hlt. apply Hlt. by apply SFltb_rank. }
    simpl in Hn. rewrite !shl_align_value by lia.
    pose proof (canonical_compare mx ex my ey Hx Hy ltac:(lia)). lia.
  - lia.
  - assert (rank_lt (f64_rank (S754_finite false mx ex)) (f64_rank (S754_finite false my ey)) -> False) as Hn.
    { intros H. apply not_true_iff_false in Hlt. apply Hlt. by apply SFltb_rank. }
    simpl in Hn. rewrite !shl_align_value by lia.
    pose proof (canonical_compare my ey mx ex Hy Hx ltac:(lia)).
    rewrite (Z.min_comm ey ex) in *. lia.
Qed.

#[export] Hint Resolve unsigned_nonneg f64_of_Z_unsigned f64_add_unsigned f64_div_unsigned
  f64_mul_unsigned f64_add_nonneg f64_div_nonneg Seconds_unsigned f64_sub_nonneg : monitor.
