(* ===== verification/Db.v ===== *)
(** The platform database as the code uses it ([internal/db/db.go]): statements
    that may fail, autocommit, and [Pool.InTx]. *)

From S2P Require Import Prelude.

(** The error of a failing call; [pgx.ErrNoRows] is the answer of a query that runs. *)
Record fault : Type := MkFault {
  fault_error :> error;
  fault_real : is_no_rows fault_error = false;
}.

(** What becomes of a statement sent to the server: it runs, it fails without
    effect, or it takes effect and its acknowledgement is lost. *)
Inductive fate : Type :=
  | Runs
  | Fails (e : fault)
  | LostAck (e : fault).

(** Code that talks to a database with tables [T]. It consumes the fates of the
    statements it issues, one per statement; the empty list is a server on which
    everything runs. *)
Definition DB (T A : Type) : Type := list fate -> T -> result A * T * list fate.

Section Monad.
Context {T : Type}.

#[export] Instance DB_ret : MRet (DB T) := fun A a fs t => (Ok a, t, fs).
#[export] Instance DB_bind : MBind (DB T) := fun A B k m fs t =>
  match m fs t with
  | (Ok a, t', fs') => k a fs' t'
  | (Err e, t', fs') => (Err e, t', fs')
  end.

(** [return err] *)
Definition fail {A} (e : error) : DB T A := fun fs t => (Err e, t, fs).

(** [result, err := m()] with the error kept as a value. *)
Definition attempt {A} (m : DB T A) : DB T (result A) := fun fs t =>
  let '(r, t', fs') := m fs t in (Ok r, t', fs').

(** [fmt.Errorf(message, err)] around a failing call. *)
Definition wrap {A} (message : string) (m : DB T A) : DB T A := fun fs t =>
  match m fs t with
  | (Err e, t', fs') => (Err (Errorf message e), t', fs')
  | ok => ok
  end.

Definition next_fate (fs : list fate) : fate * list fate :=
  match fs with [] => (Runs, []) | f :: rest => (f, rest) end.

(** One statement: [effect] is what it does to the tables and what it returns,
    or the error the server raises for it. *)
Definition statement {A} (effect : T -> result (A * T)) : DB T A := fun fs t =>
  let '(f, fs') := next_fate fs in
  match f with
  | Fails e => (Err e, t, fs')
  | Runs => match effect t with Ok (a, t') => (Ok a, t', fs') | Err e => (Err e, t, fs') end
  | LostAck e => match effect t with Ok (_, t') => (Err e, t', fs') | Err e' => (Err e', t, fs') end
  end.

(** A query that changes nothing, and a statement that returns nothing. *)
Definition query {A} (f : T -> A) : DB T A := statement (fun t => Ok (f t, t)).
Definition exec (f : T -> T) : DB T unit := statement (fun t => Ok (tt, f t)).

(** [Pool.InTx]: begin; on an error of the body, roll back; else commit. *)
Definition InTx {A} (body : DB T A) : DB T A := fun fs t =>
  let '(f, fs1) := next_fate fs in
  match f with
  | Fails e | LostAck e => (Err e, t, fs1)
  | Runs =>
      match body fs1 t with
      | (Err e, _, fs2) => (Err e, t, fs2)
      | (Ok a, t', fs2) =>
          let '(c, fs3) := next_fate fs2 in
          match c with
          | Runs => (Ok a, t', fs3)
          | Fails e => (Err e, t, fs3)
          | LostAck e => (Err e, t', fs3)
          end
      end
  end.

(** [for _, item := range items { if err := f(item); err != nil { return err } }] *)
Fixpoint for_each {I} (f : I -> DB T unit) (items : list I) : DB T unit :=
  match items with
  | [] => mret tt
  | item :: rest => f item ≫= fun _ => for_each f rest
  end.

(** The run on a server without faults. *)
Definition plain {A} (m : DB T A) (t : T) : result A * T := (m [] t).1.

(** Code that never turns an error into a success: whatever the faults, when it
    succeeds it has done what it does without faults. *)
Class Propagates {A} (m : DB T A) : Prop :=
  propagates : forall fs t a t' fs', m fs t = (Ok a, t', fs') -> m [] t = (Ok a, t', []).

#[export] Instance ret_propagates {A} (a : A) : Propagates (mret a : DB T A).
Proof. intros fs t a' t' fs' H. unfold mret, DB_ret in *. congruence. Qed.

#[export] Instance fail_propagates {A} (e : error) : Propagates (fail e : DB T A).
Proof. intros fs t a' t' fs' H. unfold fail in H. congruence. Qed.

#[export] Instance bind_propagates {A B} (m : DB T A) (k : A -> DB T B) :
  Propagates m -> (forall a, Propagates (k a)) -> Propagates (m ≫= k).
Proof.
  intros Hm Hk fs t b t' fs' H. unfold mbind, DB_bind in *.
  destruct (m fs t) as [[[a|e] t1] fs1] eqn:E; [|congruence].
  rewrite (Hm _ _ _ _ _ E). exact (Hk _ _ _ _ _ _ H).
Qed.

#[export] Instance wrap_propagates {A} message (m : DB T A) : Propagates m -> Propagates (wrap message m).
Proof.
  intros Hm fs t a t' fs' H. unfold wrap in *.
  destruct (m fs t) as [[[a'|e] t1] fs1] eqn:E; [|congruence].
  injection H as -> -> ->. by rewrite (Hm _ _ _ _ _ E).
Qed.

#[export] Instance statement_propagates {A} (effect : T -> result (A * T)) : Propagates (statement effect).
Proof.
  intros fs t a t' fs' H. unfold statement in *. simpl.
  destruct (next_fate fs) as [[|e|e] fs1], (effect t) as [[? ?]|?]; congruence.
Qed.

#[export] Instance query_propagates {A} (f : T -> A) : Propagates (query f).
Proof. apply statement_propagates. Qed.

#[export] Instance exec_propagates (f : T -> T) : Propagates (exec f).
Proof. apply statement_propagates. Qed.

#[export] Instance for_each_propagates {I} (f : I -> DB T unit) (items : list I) :
  (forall i, Propagates (f i)) -> Propagates (for_each f items).
Proof. intros Hf. induction items as [|i items IH]; simpl; apply _. Qed.

#[export] Instance InTx_propagates {A} (body : DB T A) : Propagates body -> Propagates (InTx body).
Proof.
  intros Hb fs t a t' fs' H. unfold InTx in *. simpl.
  destruct (next_fate fs) as [[|e|e] fs1]; [|congruence..].
  destruct (body fs1 t) as [[[a'|e] t1] fs2] eqn:E; [|congruence].
  rewrite (Hb _ _ _ _ _ E). simpl. destruct (next_fate fs2) as [[|e|e] fs3]; congruence.
Qed.

(** A sequence that succeeds without faults is its parts succeeding. *)
Lemma bind_Ok_inv {A B} (m : DB T A) (k : A -> DB T B) `{!Propagates m} t b t' fs :
  (m ≫= k) [] t = (Ok b, t', fs) ->
  exists a t1, m [] t = (Ok a, t1, []) /\ k a [] t1 = (Ok b, t', fs).
Proof.
  unfold mbind, DB_bind. destruct (m [] t) as [[[a|e] t1] fs1] eqn:E; [|congruence].
  pose proof (propagates _ _ _ _ _ E) as E'. rewrite E in E'. injection E' as ->. eauto.
Qed.

(** The effect of a transaction is all or nothing, and a reported success is a
    committed one. *)
Lemma InTx_atomic {A} (body : DB T A) `{!Propagates body} fs t :
  let '(r, t', _) := InTx body fs t in
  ((exists a, plain (InTx body) t = (Ok a, t') /\ (forall a', r = Ok a' -> a' = a)) \/
   (t' = t /\ exists e, r = Err e)).
Proof.
  unfold plain. destruct (InTx body fs t) as [[r t'] fs'] eqn:E. unfold InTx in E |- *. simpl.
  destruct (next_fate fs) as [[|e|e] fs1]; [|right; naive_solver..].
  destruct (body fs1 t) as [[[a|e] t1] fs2] eqn:Eb; [|right; naive_solver].
  rewrite (propagates _ _ _ _ _ Eb).
  destruct (next_fate fs2) as [[|e|e] fs3]; simplify_eq; simpl; naive_solver.
Qed.

(** A fact about the tables that a fault-free body establishes or keeps holds
    after the transaction whatever faults it meets. *)
Lemma InTx_invariant {A} (P : T -> Prop) (body : DB T A) `{!Propagates body} fs t :
  P t -> (forall a t', plain (InTx body) t = (Ok a, t') -> P t') -> P (InTx body fs t).1.2.
Proof.
  intros Ht Hp. pose proof (InTx_atomic body fs t) as H.
  destruct (InTx body fs t) as [[r t'] fs']. simpl.
  destruct H as [(a&H&_)|[-> _]]; eauto.
Qed.

(** [InTx] on a fault-free server commits what its body does, or nothing. *)
Lemma plain_InTx {A} (body : DB T A) t :
  plain (InTx body) t =
  match body [] t with
  | (Ok a, t', fs) =>
      match next_fate fs with
      | (Runs, _) => (Ok a, t') | (Fails e, _) => (Err e, t) | (LostAck e, _) => (Err e, t')
      end
  | (Err e, _, _) => (Err e, t)
  end.
Proof.
  unfold plain, InTx. simpl. destruct (body [] t) as [[[a|e] t'] fs]; simpl; [|done].
  by destruct (next_fate fs) as [[|?|?] ?].
Qed.

(** The outcomes of a statement: an answer is that of the server without faults, and
    so is an empty one. *)
Lemma statement_cases {A} (effect : T -> result (A * T)) fs t :
  match (statement effect fs t).1 with
  | (Ok a, t') => effect t = Ok (a, t')
  | (Err e, t') => is_no_rows e = true -> effect t = Err e /\ t' = t
  end.
Proof.
  unfold statement. destruct (next_fate fs) as [[|[e He]|[e He]] fs1]; simpl in *;
    try destruct (effect t) as [[a t']|e'] eqn:E; simpl; try done; intros; congruence.
Qed.

(** The tables a computation leaves behind. *)
Definition tables_after {A} (m : DB T A) (fs : list fate) (t : T) : T := (m fs t).1.2.

(** Code that leaves the part [f] of the tables as it is, whatever happens. *)
Class Keeps {B A} (f : T -> B) (m : DB T A) : Prop :=
  keeps : forall fs t, f (tables_after m fs t) = f t.

Section Keeps.
Context {B : Type} (f : T -> B).

#[export] Instance ret_keeps {A} (a : A) : Keeps f (mret a : DB T A).
Proof. done. Qed.

#[export] Instance fail_keeps {A} (e : error) : Keeps f (fail e : DB T A).
Proof. done. Qed.

#[export] Instance bind_keeps {A C} (m : DB T A) (k : A -> DB T C) :
  Keeps f m -> (forall a, Keeps f (k a)) -> Keeps f (m ≫= k).
Proof.
  intros Hm Hk fs t. unfold tables_after, mbind, DB_bind. specialize (Hm fs t). unfold tables_after in Hm.
  destruct (m fs t) as [[[a|e] t1] fs1]; simpl in *; [|done].
  rewrite <-Hm. apply Hk.
Qed.

#[export] Instance wrap_keeps {A} message (m : DB T A) : Keeps f m -> Keeps f (wrap message m).
Proof.
  intros Hm fs t. specialize (Hm fs t). unfold tables_after, wrap in *.
  by destruct (m fs t) as [[[a|e] t1] fs1].
Qed.

#[export] Instance attempt_keeps {A} (m : DB T A) : Keeps f m -> Keeps f (attempt m).
Proof.
  intros Hm fs t. specialize (Hm fs t). unfold tables_after, attempt in *. by destruct (m fs t) as [[? t1] fs1].
Qed.

Lemma statement_keeps {A} (effect : T -> result (A * T)) :
  (forall t a t', effect t = Ok (a, t') -> f t' = f t) -> Keeps f (statement effect).
Proof.
  intros H fs t. unfold tables_after, statement. destruct (next_fate fs) as [[|e|e] fs1]; [|done|];
    destruct (effect t) as [[a t']|] eqn:E; simpl; eauto.
Qed.

#[export] Instance query_keeps {A} (g : T -> A) : Keeps f (query g).
Proof. apply statement_keeps. naive_solver. Qed.

Lemma exec_keeps (g : T -> T) : (forall t, f (g t) = f t) -> Keeps f (exec g).
Proof. intros H. apply statement_keeps. naive_solver. Qed.

#[export] Instance for_each_keeps {I} (g : I -> DB T unit) (items : list I) :
  (forall i, Keeps f (g i)) -> Keeps f (for_each g items).
Proof. intros Hg. induction items as [|i items IH]; simpl; apply _. Qed.

#[export] Instance InTx_keeps {A} (body : DB T A) : Keeps f body -> Keeps f (InTx body).
Proof.
  intros Hb fs t. unfold tables_after, InTx. destruct (next_fate fs) as [[|e|e] fs1]; [|done..].
  specialize (Hb fs1 t). unfold tables_after in Hb. destruct (body fs1 t) as [[[a|e] t1] fs2]; [|done].
  by destruct (next_fate fs2) as [[|e|e] fs3].
Qed.

End Keeps.

(** What a computation guarantees under any faults: from tables with [P] it
    returns with [Q], or fails leaving tables with [E]. *)
Definition triple {A} (P : T -> Prop) (m : DB T A) (Q : A -> T -> Prop) (E : T -> Prop) : Prop :=
  forall fs t, P t -> match (m fs t).1 with (Ok a, t') => Q a t' | (Err _, t') => E t' end.

Lemma triple_ret {A} P (a : A) Q E : (forall t, P t -> Q a t) -> triple P (mret a) Q E.
Proof. intros H fs t Ht. by apply H. Qed.

Lemma triple_fail {A} P e (Q : A -> T -> Prop) (E : T -> Prop) : (forall t, P t -> E t) -> triple P (fail e) Q E.
Proof. intros H fs t Ht. by apply H. Qed.

Lemma triple_bind {A B} P (m : DB T A) (k : A -> DB T B) R Q E :
  triple P m R E -> (forall a, triple (R a) (k a) Q E) -> triple P (m ≫= k) Q E.
Proof.
  intros Hm Hk fs t Ht. specialize (Hm fs t Ht). unfold mbind, DB_bind.
  destruct (m fs t) as [[[a|e] t1] fs1]; [|done]. exact (Hk a fs1 t1 Hm).
Qed.

Lemma triple_wrap {A} P message (m : DB T A) Q E : triple P m Q E -> triple P (wrap message m) Q E.
Proof.
  intros Hm fs t Ht. specialize (Hm fs t Ht). unfold wrap. by destruct (m fs t) as [[[a|e] t1] fs1].
Qed.

Lemma triple_attempt {A} P (m : DB T A) Q E F :
  triple P m (fun a => Q (Ok a)) F -> (forall e t, F t -> Q (Err e) t) -> triple P (attempt m) Q E.
Proof.
  intros Hm HE fs t Ht. specialize (Hm fs t Ht). unfold attempt.
  destruct (m fs t) as [[[a|e] t1] fs1]; simpl in *; auto.
Qed.

Lemma triple_statement {A} (P : T -> Prop) (effect : T -> result (A * T)) Q (E : T -> Prop) :
  (forall t, P t -> E t) ->
  (forall t a t', P t -> effect t = Ok (a, t') -> Q a t' /\ E t') -> triple P (statement effect) Q E.
Proof.
  intros HE HQ fs t Ht. unfold statement.
  destruct (next_fate fs) as [[|e|e] fs1]; [| |]; simpl; [|auto|];
    destruct (effect t) as [[a t']|] eqn:Ef; simpl; try (by apply HE); by eapply HQ.
Qed.

Lemma triple_query {A} (P : T -> Prop) (f : T -> A) Q (E : T -> Prop) :
  (forall t, P t -> E t) -> (forall t, P t -> Q (f t) t) -> triple P (query f) Q E.
Proof. intros HE HQ. apply triple_statement; [done|]. intros t a t' Ht [= <- <-]. auto. Qed.

Lemma triple_exec (P : T -> Prop) (f : T -> T) (E : T -> Prop) :
  (forall t, P t -> E t) -> (forall t, P t -> E (f t)) -> triple P (exec f) (fun _ => E) E.
Proof. intros HE HQ. apply triple_statement; [done|]. intros t a t' Ht [= <- <-]. auto. Qed.

Lemma triple_for_each_either {I} (P E : T -> Prop) (f : I -> DB T unit) items :
  (forall i, i ∈ items -> triple P (f i) (fun _ => P) E) -> triple P (for_each f items) (fun _ => P) E.
Proof.
  induction items as [|i items IH]; intros Hf; simpl; [by apply triple_ret|].
  eapply triple_bind; [apply Hf; left|]. intros []. apply IH. intros j Hj. apply Hf. by right.
Qed.

(** The invariant may speak of the items done so far. *)
Lemma triple_for_each_prefix {I} (P : list I -> T -> Prop) (E : T -> Prop) (f : I -> DB T unit) items :
  (forall done i, triple (P done) (f i) (fun _ => P (done ++ [i])) E) ->
  triple (P []) (for_each f items) (fun _ => P items) E.
Proof.
  intros Hf. change items with ([] ++ items) at 2. generalize (@nil I). induction items as [|i items IH]; intros done; simpl.
  - apply triple_ret. intros t. by rewrite app_nil_r.
  - eapply triple_bind; [apply Hf|]. intros []. specialize (IH (done ++ [i])). by rewrite <-app_assoc in IH.
Qed.

Lemma triple_for_each {I} (P : T -> Prop) (f : I -> DB T unit) items :
  (forall i, i ∈ items -> triple P (f i) (fun _ => P) P) -> triple P (for_each f items) (fun _ => P) P.
Proof. apply triple_for_each_either. Qed.

Lemma triple_weaken {A} (P P' : T -> Prop) (m : DB T A) Q Q' (E E' : T -> Prop) :
  triple P' m Q' E' -> (forall t, P t -> P' t) -> (forall a t, Q' a t -> Q a t) -> (forall t, E' t -> E t) ->
  triple P m Q E.
Proof.
  intros Hm HP HQ HE fs t Ht. specialize (Hm fs t (HP t Ht)). destruct (m fs t) as [[[a|e] t1] fs1]; simpl in *; auto.
Qed.

Lemma triple_tables {A} (P : T -> Prop) (m : DB T A) fs t :
  triple P m (fun _ => P) P -> P t -> P (tables_after m fs t).
Proof.
  intros Hm Ht. specialize (Hm fs t Ht). unfold tables_after. by destruct (m fs t) as [[[a|e] t1] fs1].
Qed.

(** From each of the tables at a time. *)
Lemma triple_at {A} (P : T -> Prop) (m : DB T A) Q E :
  (forall t, P t -> triple (fun t1 => t1 = t) m Q E) -> triple P m Q E.
Proof. intros H fs t Ht. by apply (H t Ht). Qed.

(** One statement of a body, from one state of the tables. *)
Lemma triple_eq_statement {A} (effect : T -> result (A * T)) t1 :
  triple (fun t => t = t1) (statement effect) (fun a t => effect t1 = Ok (a, t))
    (fun t => t = t1 \/ exists a, effect t1 = Ok (a, t)).
Proof. apply triple_statement; [auto|]. intros t a t' -> H. split; eauto. Qed.

Lemma step_statement {A B} (effect : T -> result (A * T)) (k : A -> DB T B) t1 Q :
  (forall a t2, effect t1 = Ok (a, t2) -> triple (fun t => t = t2) (k a) Q (fun _ => True)) ->
  triple (fun t => t = t1) (statement effect ≫= k) Q (fun _ => True).
Proof.
  intros H. apply (triple_bind _ _ _ (fun a t => effect t1 = Ok (a, t))).
  { eapply triple_weaken; [apply (triple_eq_statement effect t1)|auto|auto|auto]. }
  intros a. apply triple_at. intros t2 Ht2. by apply H.
Qed.

Lemma step_attempt {A B} (effect : T -> result (A * T)) (k : result A -> DB T B) t1 Q :
  (forall a t2, effect t1 = Ok (a, t2) -> triple (fun t => t = t2) (k (Ok a)) Q (fun _ => True)) ->
  (forall e t2, triple (fun t => t = t2) (k (Err e)) Q (fun _ => True)) ->
  triple (fun t => t = t1) (attempt (statement effect) ≫= k) Q (fun _ => True).
Proof.
  intros Hok Herr.
  apply (triple_bind _ _ _ (fun r t => match r with Ok a => effect t1 = Ok (a, t) | Err _ => True end)).
  - eapply triple_attempt; [apply (triple_eq_statement effect t1)|done].
  - intros [a|e]; apply triple_at; intros t2 Ht2; [by apply Hok|apply Herr].
Qed.

(** A statement of which the answer [pgx.ErrNoRows] is looked at. *)
Lemma triple_attempt_statement {A} (effect : T -> result (A * T)) t1 :
  triple (fun t => t = t1) (attempt (statement effect))
    (fun r t => match r with Ok a => effect t1 = Ok (a, t) | Err e => is_no_rows e = true -> effect t1 = Err e /\ t = t1 end)
    (fun _ => False).
Proof.
  intros fs t ->. pose proof (statement_cases effect fs t1) as Hc. unfold attempt.
  by destruct (statement effect fs t1) as [[[a|e] t2] fs2].
Qed.

(** Reading leaves the tables as they are, and a read that succeeds gives what it
    gives on a server without faults. *)
Lemma triple_reads {A} (m : DB T A) (t : T) `{!Propagates m, !Keeps (fun t => t) m} :
  triple (fun t1 => t1 = t) m (fun a t' => t' = t /\ m [] t = (Ok a, t, [])) (fun t' => t' = t).
Proof.
  intros fs t1 ->. pose proof (keeps fs t (f := fun t => t) (m := m)) as Hk. unfold tables_after in Hk.
  destruct (m fs t) as [[[a|e] t'] fs'] eqn:E; simpl in *; subst; [|done]. split; [done|].
  by apply (propagates (m := m)) in E.
Qed.

(** A transaction either commits what its body guarantees or changes nothing; an error
    of the commit leaves open which. *)
Lemma triple_InTx_either {A} (P : T -> Prop) (body : DB T A) Q (E : T -> Prop) :
  triple P body Q (fun _ => True) -> (forall t, P t -> E t) -> (forall a t, Q a t -> E t) -> triple P (InTx body) Q E.
Proof.
  intros Hb HP HQ fs t Ht. unfold InTx. destruct (next_fate fs) as [[|e|e] fs1]; simpl; [|auto..].
  specialize (Hb fs1 t Ht). destruct (body fs1 t) as [[[a|e] t1] fs2]; simpl in *; [|auto].
  destruct (next_fate fs2) as [[|e|e] fs3]; simpl; eauto.
Qed.

Lemma triple_InTx {A} (P : T -> Prop) (body : DB T A) Q :
  triple P body Q (fun _ => True) -> (forall a t, Q a t -> P t) -> triple P (InTx body) Q P.
Proof. intros. by apply triple_InTx_either. Qed.

End Monad.

(** Code that touches one part [S] of the tables. *)
Definition focus {T S A : Type} (get : T -> S) (set : S -> T -> T) (m : DB S A) : DB T A := fun fs t =>
  let '(r, s', fs') := m fs (get t) in (r, set s' t, fs').

#[export] Instance focus_propagates {T S A} (get : T -> S) (set : S -> T -> T) (m : DB S A) :
  Propagates m -> Propagates (focus get set m).
Proof.
  intros Hm fs t a t' fs' H. unfold focus in *.
  destruct (m fs (get t)) as [[r s'] fs1] eqn:E. injection H as -> <- <-.
  by rewrite (Hm _ _ _ _ _ E).
Qed.

Lemma focus_keeps {T S A B} (get : T -> S) (set : S -> T -> T) (m : DB S A) (f : T -> B) :
  (forall s t, f (set s t) = f t) -> Keeps f (focus get set m).
Proof.
  intros H fs t. unfold tables_after, focus. destruct (m fs (get t)) as [[r s'] fs1]. apply H.
Qed.

(** Splits the branches of code whose class instance is sought. *)
#[export] Hint Extern 1 (Keeps _ (if ?b then _ else _)) => destruct b : typeclass_instances.
#[export] Hint Extern 1 (Keeps _ (match ?o with _ => _ end)) => destruct o : typeclass_instances.
#[export] Hint Extern 2 (Keeps _ (exec _)) => (apply exec_keeps; intros; reflexivity) : typeclass_instances.
#[export] Hint Extern 0 (Propagates _) => (progress intros) : typeclass_instances.
#[export] Hint Extern 1 (Propagates (if ?b then _ else _)) => destruct b : typeclass_instances.
#[export] Hint Extern 1 (Propagates (match ?o with _ => _ end)) => destruct o : typeclass_instances.

(** Computes a run on a fault-free server. *)
Ltac run_plain :=
  unfold mbind, DB_bind, mret, DB_ret, query, exec, statement, fail, wrap, attempt; cbn [next_fate].

Lemma triple_focus {T S A} (get : T -> S) (set : S -> T -> T) (P : T -> Prop) (m : DB S A) Q (E : T -> Prop) :
  (forall t, P t -> triple (fun s => s = get t) m (fun a s => Q a (set s t)) (fun s => E (set s t))) ->
  triple P (focus get set m) Q E.
Proof.
  intros H fs t Ht. unfold focus. specialize (H t Ht fs (get t) eq_refl).
  by destruct (m fs (get t)) as [[[a|e] s] fs1].
Qed.
