(* ===== verification/Text.v ===== *)
(** Texts the program writes and reads back: decimal integers ([%d],
    [strconv.ParseInt]), standard base64 and lines. Byte slices are strings of 8-bit
    characters. *)

From Stdlib Require Import Ascii.
From stdpp Require Import pretty.
From S2P Require Import Prelude.

Definition char_code (c : ascii) : Z := Z.of_N (N_of_ascii c).
Definition char_of (z : Z) : ascii := ascii_of_N (Z.to_N z).

Lemma char_code_range c : 0 <= char_code c < 256.
Proof. unfold char_code. pose proof (N_ascii_bounded c). lia. Qed.

Lemma char_of_code c : char_of (char_code c) = c.
Proof. unfold char_of, char_code. rewrite N2Z.id. apply ascii_N_embedding. Qed.

Lemma char_of_eq z c : z = char_code c -> char_of z = c.
Proof. intros ->. apply char_of_code. Qed.

Fixpoint string_exists (f : ascii -> bool) (s : string) : bool :=
  match s with
  | EmptyString => false
  | String c rest => f c || string_exists f rest
  end.

(** ** White space *)

(** What is left after one leading white-space character of UTF-8 text: the ASCII
    ones, U+0085, U+00A0, U+1680, U+2000 to U+200A, U+2028, U+2029, U+202F, U+205F
    and U+3000. *)
Definition after_space (s : string) : option string :=
  match s with
  | EmptyString => None
  | String c rest =>
      let b := char_code c in
      if ((9 <=? b) && (b <=? 13)) || (b =? 32) then Some rest
      else
        match rest with
        | EmptyString => None
        | String c2 rest2 =>
            let b2 := char_code c2 in
            if (b =? 194) && ((b2 =? 133) || (b2 =? 160)) then Some rest2
            else
              match rest2 with
              | EmptyString => None
              | String c3 rest3 =>
                  let b3 := char_code c3 in
                  if ((b =? 225) && (b2 =? 154) && (b3 =? 128)) ||
                     ((b =? 226) && (b2 =? 128) &&
                        (((128 <=? b3) && (b3 <=? 138)) || (b3 =? 168) || (b3 =? 169) || (b3 =? 175))) ||
                     ((b =? 226) && (b2 =? 129) && (b3 =? 159)) ||
                     ((b =? 227) && (b2 =? 128) && (b3 =? 128))
                  then Some rest3 else None
              end
        end
  end.

Lemma after_space_shorter s rest : after_space s = Some rest -> (String.length rest < String.length s)%nat.
Proof.
  destruct s as [|c [|c2 [|c3 s]]]; simpl; intros H; repeat case_match; simplify_eq; simpl; lia.
Qed.

(** [strings.TrimLeftFunc] and [strings.TrimRightFunc] with white space; [fuel] is the
    length. A right trim keeps everything up to the last character that is not a
    space: [trailing] says that only spaces follow. *)
Fixpoint trim_left (fuel : nat) (s : string) : string :=
  match fuel with
  | O => s
  | S fuel => match after_space s with Some rest => trim_left fuel rest | None => s end
  end.

Definition all_space (s : string) : bool := bool_decide (trim_left (String.length s) s = EmptyString).

Fixpoint trim_right (s : string) : string :=
  match s with
  | EmptyString => EmptyString
  | String c rest => if all_space s then EmptyString else String c (trim_right rest)
  end.

(** [strings.TrimSpace] on valid UTF-8. *)
Definition TrimSpace (s : string) : string := trim_right (trim_left (String.length s) s).

Example trims_space : TrimSpace ("  a b" +:+ String (char_of 227) (String (char_of 128) (String (char_of 128) " "))) = "a b".
Proof. reflexivity. Qed.

(** [btrim(text) <> ''] *)
Fixpoint not_blank (s : string) : bool :=
  match s with
  | EmptyString => false
  | String c rest => negb (Ascii.eqb c (ascii_of_nat 32)) || not_blank rest
  end.

Lemma trim_left_stops fuel s : (String.length s <= fuel)%nat -> after_space (trim_left fuel s) = None.
Proof.
  revert s. induction fuel as [|fuel IH]; intros s Hs; simpl.
  - destruct s; simpl in *; [done|lia].
  - destruct (after_space s) as [rest|] eqn:E; [|done]. apply IH. pose proof (after_space_shorter s rest E). lia.
Qed.

(** A text that is not all white space is trimmed to one that is not blank. *)
Lemma TrimSpace_not_blank s : TrimSpace s <> EmptyString -> not_blank (TrimSpace s) = true.
Proof.
  unfold TrimSpace. pose proof (trim_left_stops (String.length s) s ltac:(lia)) as Hstop.
  destruct (trim_left _ s) as [|c rest]; [done|]. cbn [trim_right].
  assert (all_space (String c rest) = false) as ->.
  { unfold all_space. cbn [String.length trim_left]. rewrite Hstop. by rewrite bool_decide_eq_false. }
  intros _. simpl. destruct (Ascii.eqb c _) eqn:E; [|done].
  apply Ascii.eqb_eq in E as ->. simpl in Hstop. discriminate.
Qed.

(** [strings.TrimPrefix], [strings.TrimSuffix] *)
Definition TrimPrefix (s prefix : string) : string :=
  if HasPrefix s prefix then String.substring (String.length prefix) (String.length s - String.length prefix) s else s.

Definition line_feed : ascii := ascii_of_nat 10.
Definition carriage_return : ascii := ascii_of_nat 13.

(** [strings.TrimSuffix(s, "\n")] *)
Fixpoint trim_line_feed (s : string) : string :=
  match s with
  | EmptyString => EmptyString
  | String c EmptyString => if bool_decide (c = line_feed) then EmptyString else s
  | String c rest => String c (trim_line_feed rest)
  end.

Lemma trim_line_feed_app s : trim_line_feed (s +:+ String line_feed EmptyString) = s.
Proof.
  induction s as [|c s IH]; [done|]. change (String c s +:+ ?x) with (String c (s +:+ x)).
  destruct s as [|c' s]; [done|]. change (String c' s +:+ ?x) with (String c' (s +:+ x)) in *.
  cbn [trim_line_feed]. cbn [trim_line_feed] in IH. by rewrite IH.
Qed.

Lemma string_exists_app f s t : string_exists f (s +:+ t) = string_exists f s || string_exists f t.
Proof.
  induction s as [|c s IH]; [done|]. change (String c s +:+ t) with (String c (s +:+ t)). simpl.
  by rewrite IH, orb_assoc.
Qed.

(** [%q] of a text without characters to escape. *)
Definition quoted (s : string) : string := String (char_of 34) (s +:+ String (char_of 34) EmptyString).

(** [strings.Join] *)
Fixpoint Join (elems : list string) (sep : string) : string :=
  match elems with
  | [] => EmptyString
  | [s] => s
  | s :: rest => s +:+ sep +:+ Join rest sep
  end.

(** [strings.EqualFold] with an ASCII text: letters match in either case, and the long s
    (U+017F) and the Kelvin sign (U+212A) fold with [s] and [k]. *)
Definition fold_char (c : ascii) : ascii :=
  let b := char_code c in if (65 <=? b) && (b <=? 90) then char_of (b + 32) else c.

Fixpoint EqualFold (s t : string) : bool :=
  match t with
  | EmptyString => match s with EmptyString => true | _ => false end
  | String d t' =>
      match s with
      | EmptyString => false
      | String c s' =>
          if bool_decide (fold_char c = fold_char d) then EqualFold s' t'
          else
            match s' with
            | String c2 s2 =>
                if (char_code c =? 197) && (char_code c2 =? 191) && bool_decide (fold_char d = "s"%char) then EqualFold s2 t'
                else
                  match s2 with
                  | String c3 s3 =>
                      (char_code c =? 226) && (char_code c2 =? 132) && (char_code c3 =? 170) && bool_decide (fold_char d = "k"%char) &&
                      EqualFold s3 t'
                  | EmptyString => false
                  end
            | EmptyString => false
            end
      end
  end.

(** * Decimal integers *)

(** [%d] *)
Definition Itoa (z : Z) : string := pretty z.

#[export] Instance Itoa_inj : Inj (=) (=) Itoa.
Proof. apply _. Qed.

Definition digit_value (c : ascii) : option Z :=
  let code := char_code c in
  if (48 <=? code) && (code <=? 57) then Some (code - 48) else None.

Fixpoint parse_digits (value : Z) (s : string) : option Z :=
  match s with
  | EmptyString => Some value
  | String c rest => digit ← digit_value c; parse_digits (value * 10 + digit) rest
  end.

(** [strconv.ParseInt]: an optional sign, digits, and a value of [bits] bits. *)
Definition ParseInt (bits : Z) (s : string) : option Z :=
  let in_range value := if (- 2 ^ (bits - 1) <=? value) && (value <? 2 ^ (bits - 1)) then Some value else None in
  match s with
  | EmptyString => None
  | String c rest =>
      if bool_decide (c = "-"%char) then
        match rest with EmptyString => None | _ => value ← parse_digits 0 rest; in_range (- value) end
      else if bool_decide (c = "+"%char) then
        match rest with EmptyString => None | _ => value ← parse_digits 0 rest; in_range value end
      else value ← parse_digits 0 s; in_range value
  end.

Definition ParseInt32 (s : string) : option Z := ParseInt 32 s.

(** [strconv.Atoi] *)
Definition Atoi (s : string) : option Z := ParseInt 64 s.

(** [before, _, _ := strings.Cut(s, sep)] of a one-character separator. *)
Fixpoint cut_before (sep : ascii) (s : string) : string :=
  match s with
  | EmptyString => EmptyString
  | String c rest => if bool_decide (c = sep) then EmptyString else String c (cut_before sep rest)
  end.

Lemma digit_value_pretty x : (x < 10)%N -> digit_value (pretty_N_char x) = Some (Z.of_N x).
Proof.
  intros H. assert (x = 0 \/ x = 1 \/ x = 2 \/ x = 3 \/ x = 4 \/ x = 5 \/ x = 6 \/ x = 7 \/ x = 8 \/ x = 9)%N as Hx by lia.
  destruct_or! Hx; subst; reflexivity.
Qed.

Lemma parse_digits_pretty x s : parse_digits 0 (pretty_N_go x s) = parse_digits (Z.of_N x) s.
Proof.
  revert s. induction (N.lt_wf_0 x) as [x _ IH]. intros s.
  destruct (decide (x = 0)%N) as [->|Hx]; [done|]. rewrite pretty_N_go_step by lia.
  rewrite IH by (apply N.div_lt; lia). simpl. rewrite digit_value_pretty by (apply N.mod_lt; lia). simpl.
  f_equal. pose proof (N.div_mod x 10). lia.
Qed.

(** Digits are not signs. *)
Lemma pretty_N_go_head x s : (0 < x)%N -> exists c rest, pretty_N_go x s = String c rest /\ is_Some (digit_value c).
Proof.
  revert s. induction (N.lt_wf_0 x) as [x _ IH]. intros s Hx. rewrite pretty_N_go_step by done.
  destruct (decide (x `div` 10 = 0)%N) as [->|Hd].
  - eexists _, _. split; [done|]. rewrite digit_value_pretty by (apply N.mod_lt; lia). done.
  - apply IH; [apply N.div_lt; lia|]. by apply N.neq_0_lt_0.
Qed.

Lemma ParseInt32_Itoa z : 0 < z < 2 ^ 31 -> ParseInt32 (Itoa z) = Some z.
Proof.
  intros Hz. unfold Itoa, pretty, pretty_Z. destruct z as [|p|p]; [lia| |lia].
  change (pretty p) with (pretty_N_go (N.pos p) EmptyString).
  destruct (pretty_N_go_head (N.pos p) EmptyString) as (c & rest & E & [v Hv]); [done|].
  pose proof (parse_digits_pretty (N.pos p) EmptyString) as Hp. rewrite E in *. unfold ParseInt32, ParseInt.
  rewrite bool_decide_false by (intros ->; done). rewrite bool_decide_false by (intros ->; done).
  rewrite Hp. simpl parse_digits. change (mbind ?f (Some ?x)) with (f x). cbv beta.
  rewrite (proj2 (Z.leb_le _ _)), (proj2 (Z.ltb_lt _ _)) by lia. done.
Qed.

(** * Base64 *)

(** The alphabet of [base64.StdEncoding]. *)
Definition b64_char (v : Z) : ascii :=
  if v <? 26 then char_of (v + 65)
  else if v <? 52 then char_of (v - 26 + 97)
  else if v <? 62 then char_of (v - 52 + 48)
  else if v =? 62 then "+"%char else "/"%char.

Definition b64_value (c : ascii) : option Z :=
  let code := char_code c in
  if (65 <=? code) && (code <=? 90) then Some (code - 65)
  else if (97 <=? code) && (code <=? 122) then Some (code - 97 + 26)
  else if (48 <=? code) && (code <=? 57) then Some (code - 48 + 52)
  else if bool_decide (c = "+"%char) then Some 62
  else if bool_decide (c = "/"%char) then Some 63
  else None.

Definition b64_pad : ascii := "="%char.

(** [EncodeToString]: three bytes give four characters, the last group is
    padded. *)
Fixpoint b64_encode (s : string) : string :=
  match s with
  | EmptyString => EmptyString
  | String a EmptyString =>
      let n := char_code a * 16 in
      String (b64_char (n / 64)) (String (b64_char (n mod 64)) (String b64_pad (String b64_pad EmptyString)))
  | String a (String b EmptyString) =>
      let n := (char_code a * 256 + char_code b) * 4 in
      String (b64_char (n / 4096)) (String (b64_char (n / 64 mod 64)) (String (b64_char (n mod 64)) (String b64_pad EmptyString)))
  | String a (String b (String c rest)) =>
      let n := char_code a * 65536 + char_code b * 256 + char_code c in
      String (b64_char (n / 262144)) (String (b64_char (n / 4096 mod 64))
        (String (b64_char (n / 64 mod 64)) (String (b64_char (n mod 64)) (b64_encode rest))))
  end.

(** [DecodeString] of a text without line breaks: groups of four, the last one
    padded, with the bits beyond the bytes ignored. *)
Fixpoint b64_decode (s : string) : option string :=
  match s with
  | EmptyString => Some EmptyString
  | String a (String b (String c (String d rest))) =>
      va ← b64_value a;
      vb ← b64_value b;
      if bool_decide (c = b64_pad) then
        if bool_decide (d = b64_pad) && bool_decide (rest = EmptyString)
        then Some (String (char_of ((va * 64 + vb) / 16)) EmptyString) else None
      else
        vc ← b64_value c;
        if bool_decide (d = b64_pad) then
          if bool_decide (rest = EmptyString) then
            let n := ((va * 64 + vb) * 64 + vc) / 4 in
            Some (String (char_of (n / 256)) (String (char_of (n mod 256)) EmptyString))
          else None
        else
          vd ← b64_value d;
          tail ← b64_decode rest;
          let n := ((va * 64 + vb) * 64 + vc) * 64 + vd in
          Some (String (char_of (n / 65536)) (String (char_of (n / 256 mod 256)) (String (char_of (n mod 256)) tail)))
  | _ => None
  end.

Lemma b64_value_char v : 0 <= v < 64 -> b64_value (b64_char v) = Some v /\ b64_char v <> b64_pad.
Proof.
  intros Hv.
  assert (forallb (fun v => bool_decide (b64_value (b64_char v) = Some v) && negb (bool_decide (b64_char v = b64_pad)))
    (seqZ 0 64) = true) as Hall by (vm_compute; reflexivity).
  rewrite forallb_forall in Hall. specialize (Hall v). rewrite <-list_elem_of_In in Hall.
  rewrite elem_of_seqZ, andb_true_iff, negb_true_iff, bool_decide_eq_true, bool_decide_eq_false in Hall. apply Hall. lia.
Qed.

(** Induction three characters at a time. *)
Lemma string_ind3 (P : string -> Prop) :
  P EmptyString -> (forall a, P (String a EmptyString)) -> (forall a b, P (String a (String b EmptyString))) ->
  (forall a b c s, P s -> P (String a (String b (String c s)))) -> forall s, P s.
Proof.
  intros H0 H1 H2 H3. fix IH 1. intros [|a [|b [|c s]]]; [exact H0|exact (H1 a)|exact (H2 a b)|exact (H3 a b c s (IH s))].
Qed.

Ltac b64_digits :=
  repeat match goal with
         | |- context [b64_value (b64_char ?v)] =>
             rewrite (proj1 (b64_value_char v ltac:(Z.to_euclidean_division_equations; lia)))
         | |- context [bool_decide (b64_char ?v = b64_pad)] =>
             rewrite (bool_decide_false _ (proj2 (b64_value_char v ltac:(Z.to_euclidean_division_equations; lia))))
         end.

(** Decoding gives back the bytes that were encoded. *)
Lemma b64_decode_encode s : b64_decode (b64_encode s) = Some s.
Proof.
  induction s as [|a|a b|a b c s IH] using string_ind3; [done|..].
  - pose proof (char_code_range a). simpl. b64_digits. simpl.
    rewrite ?bool_decide_true by done. simpl. repeat f_equal. apply char_of_eq. Z.to_euclidean_division_equations; lia.
  - pose proof (char_code_range a). pose proof (char_code_range b). simpl. b64_digits. simpl.
    rewrite ?bool_decide_true by done. repeat f_equal; apply char_of_eq; Z.to_euclidean_division_equations; lia.
  - pose proof (char_code_range a). pose proof (char_code_range b). pose proof (char_code_range c).
    cbn [b64_encode b64_decode]. b64_digits. simpl. b64_digits. rewrite IH. simpl.
    repeat f_equal; apply char_of_eq; Z.to_euclidean_division_equations; lia.
Qed.

(** [strings.Contains] *)
Fixpoint Contains (s part : string) : bool :=
  String.prefix part s || match s with EmptyString => false | String _ rest => Contains rest part end.
