(* ===== verification/Responses.v ===== *)
(** Responses of the HTTP API and the steps its handlers share ([internal/api],
    [internal/httpapi]). *)

From S2P Require Import Prelude Db.

Record fieldError : Type := MkFieldError {
  fe_field : string;
  fe_message : string;
}.

(** [api.Error] *)
Record APIError : Type := MkAPIError {
  err_Code : string;
  err_Message : string;
  err_FieldErrors : option (list fieldError);
}.

Definition errorBody (code message : string) : APIError := MkAPIError code message None.

Definition validationErrorBody (message : string) (fieldErrors : list fieldError) : APIError :=
  MkAPIError "VALIDATION_FAILED" message (Some fieldErrors).

(** A response with its status; an error of a handler is a status 500. *)
Inductive response (A : Type) : Type :=
  | R200 (a : A)
  | R201 (a : A)
  | R202 (a : A)
  | R204
  | R400 (e : APIError)
  | R404 (e : APIError)
  | R409 (e : APIError).
Arguments R200 {A} a.
Arguments R201 {A} a.
Arguments R202 {A} a.
Arguments R204 {A}.
Arguments R400 {A} e.
Arguments R404 {A} e.
Arguments R409 {A} e.

(** * Steps of handlers *)

Fixpoint has_duplicate (ids : list string) : bool :=
  match ids with [] => false | id :: rest => bool_decide (id ∈ rest) || has_duplicate rest end.

Lemma has_duplicate_NoDup ids : has_duplicate ids = false <-> NoDup ids.
Proof.
  induction ids as [|id ids IH]; simpl; [split; [constructor|done]|].
  rewrite orb_false_iff, bool_decide_eq_false, IH, NoDup_cons. done.
Qed.

Definition lift_result {T A} (r : result A) : DB T A := match r with Ok a => mret a | Err e => fail e end.

(** [if errors.Is(err, pgx.ErrNoRows) { return 404 }; if err != nil { return err }] *)
Definition or_404 {T A B} (message : string) (m : DB T A) (k : A -> DB T (response B)) : DB T (response B) :=
  r ← attempt m;
  match r with
  | Ok a => k a
  | Err e => if is_no_rows e then mret (R404 (errorBody "NOT_FOUND" message)) else fail e
  end.

(** [for _, row := range rows { item, err := f(row); if err != nil { return err }; items = append(items, item) }] *)
Fixpoint collect_rows {T A B} (f : A -> DB T B) (rows : list A) : DB T (list B) :=
  match rows with
  | [] => mret []
  | row :: rest => item ← f row; items ← collect_rows f rest; mret (item :: items)
  end.

#[export] Instance collect_rows_propagates {T A B} (f : A -> DB T B) rows :
  (forall row, Propagates (f row)) -> Propagates (collect_rows f rows).
Proof. intros Hf. induction rows as [|row rows IH]; simpl; apply _. Qed.

#[export] Instance collect_rows_keeps {T A B C} (g : T -> C) (f : A -> DB T B) rows :
  (forall row, Keeps g (f row)) -> Keeps g (collect_rows f rows).
Proof. intros Hf. induction rows as [|row rows IH]; simpl; apply _. Qed.

(** A handler that answers [b] after a transaction, which an error of the transaction
    never leads to: the tables at the end are those its body left. *)
Lemma attempt_tx {T A B} (body : DB T A) (k : result A -> DB T B) Q fs t b t' fs' :
  (r ← attempt (InTx body); k r) fs t = (Ok b, t', fs') -> triple (fun t1 => t1 = t) body Q (fun _ => True) ->
  (forall a, Keeps (fun t => t) (k (Ok a))) -> (forall e, forall fs t t' fs', k (Err e) fs t <> (Ok b, t', fs')) ->
  exists a fs1, Q a t' /\ k (Ok a) fs1 t' = (Ok b, t', fs').
Proof.
  intros H Hbody Hk Herr. pose proof (triple_InTx_either _ body Q (fun _ => True) Hbody (fun _ _ => I) (fun _ _ _ => I) fs t eq_refl) as Htx.
  unfold mbind, DB_bind, attempt in H. destruct (InTx body fs t) as [[[a|e] t1] fs1]; simpl in Htx; [|by apply Herr in H].
  pose proof (keeps fs1 t1 (f := fun t => t) (m := k (Ok a))) as Hkeep. unfold tables_after in Hkeep. rewrite H in Hkeep.
  simpl in Hkeep. subst. eauto.
Qed.
