(* ===== verification/Partitions.v ===== *)
(** The time partitions of the sample table ([internal/metric/partitions.go]). *)

From S2P Require Import Prelude Db.

(** The two formats of a partition's name: a day ("20060102") or a second
    ("20060102_150405"), counted here from the epoch; other names are children
    of the table that this code did not create. *)
Inductive PartName : Type :=
  | DayName (day : Z)
  | SecondName (second : Z)
  | OtherName (name : string).

#[export] Instance PartName_eq_dec : EqDecision PartName.
Proof. solve_decision. Defined.

#[export] Instance PartName_countable : Countable PartName.
Proof.
  refine (inj_countable'
    (fun n => match n with DayName d => inl (inl d) | SecondName s => inl (inr s) | OtherName s => inr s end)
    (fun c => match c with inl (inl d) => DayName d | inl (inr s) => SecondName s | inr s => OtherName s end) _).
  by intros [].
Defined.

(** A row of [metric_sample]. *)
Record SampleRow : Type := MkSampleRow {
  sample_series_id : Z;
  sample_ts : Time;
  sample_value : float64;
}.

(** [metric_sample]: its partitions, each with its half-open range, and its rows. *)
Record SampleStore : Type := MkSampleStore {
  partitions : gmap PartName (Time * Time);
  sample_rows : list SampleRow;
}.

Definition Day : Duration := 24 * Hour.

Definition DefaultPartitionSpan : Duration := 24 * Hour.
Definition partitionPrebuild : Z := 7.
Definition partitionRetention : Z := 30.

Definition UnixNano (t : Time) : Z := int64 t.

(** Integer division truncates. *)
Definition partitionBoundary (value : Time) (span : Duration) : Time :=
  Z.quot (UnixNano value) span * span.

Definition partitionName (from : Time) (span : Duration) : PartName :=
  if span =? DefaultPartitionSpan then DayName (from / Day) else SecondName (from / Second).

Definition partitionTime (name : PartName) : option Time :=
  match name with
  | DayName d => Some (d * Day)
  | SecondName s => Some (s * Second)
  | OtherName _ => None
  end.

Definition in_range (range : Time * Time) (t : Time) : bool := (range.1 <=? t) && (t <? range.2).

Definition overlaps (a b : Time * Time) : bool := (a.1 <? b.2) && (b.1 <? a.2).

(** [boundary.Format(time.RFC3339)]: no fraction of a second. *)
Definition rfc3339 (t : Time) : Time := t / Second * Second.

(** [CREATE TABLE IF NOT EXISTS name PARTITION OF metric_sample FOR VALUES FROM
    ... TO ...]: nothing if the name is taken; an empty range or one that meets
    another partition's is an error. *)
Definition create_partition (name : PartName) (from to : Time) (store : SampleStore)
    : result (unit * SampleStore) :=
  match partitions store !! name with
  | Some _ => Ok (tt, store)
  | None =>
      if (to <=? from) || existsb (fun entry => overlaps (from, to) entry.2) (map_to_list (partitions store))
      then Err (ErrPg "42P17")
      else Ok (tt, MkSampleStore (<[name := (from, to)]> (partitions store)) (sample_rows store))
  end.

(** The loop of [EnsurePartitionRange] from [boundary]; [fuel] bounds its rounds. *)
Fixpoint ensure_loop (fuel : nat) (boundary end_ : Time) (span : Duration) : DB SampleStore unit :=
  match fuel with
  | O => fail (ErrNew "fuel")
  | S fuel =>
      if After boundary end_ then mret tt
      else
        let to := TimeAdd boundary span in
        wrap "create partition" (statement
          (create_partition (partitionName boundary span) (rfc3339 boundary) (rfc3339 to))) ≫= fun _ =>
        ensure_loop fuel (TimeAdd boundary span) end_ span
  end.

(** One round per span from the start to the end and one to see the end. *)
Definition ensure_fuel (start end_ : Time) : nat := Z.to_nat ((end_ - start) / Second + 2).

Definition EnsurePartitionRange (from through : Time) (span : Duration) : DB SampleStore unit :=
  if span <? Second then fail (ErrNew "partition span must be at least one second")
  else
    let start := partitionBoundary from span in
    let end_ := TimeAdd (partitionBoundary through span) (int64 (partitionPrebuild * span)) in
    ensure_loop (ensure_fuel start end_) start end_ span.

Definition EnsurePartitionsWithSpan (now : Time) (span : Duration) : DB SampleStore unit :=
  EnsurePartitionRange now now span.

Definition EnsurePartitions (now : Time) : DB SampleStore unit :=
  EnsurePartitionsWithSpan now DefaultPartitionSpan.

(** [DROP TABLE name]: the partition goes with the rows it holds. *)
Definition drop_partition (name : PartName) (store : SampleStore) : SampleStore :=
  match partitions store !! name with
  | None => store
  | Some range =>
      MkSampleStore (delete name (partitions store))
        (filter (fun row => in_range range (sample_ts row) = false) (sample_rows store))
  end.

Definition expired (cutoff : Time) (name : PartName) : bool :=
  match partitionTime name with Some date => Before date cutoff | None => false end.

Definition DropExpiredPartitionsWithSpan (now : Time) (span : Duration) : DB SampleStore unit :=
  if span <? Second then fail (ErrNew "partition span must be at least one second")
  else
    let cutoff := TimeAdd (partitionBoundary now span) (int64 (- partitionRetention * span)) in
    names ← wrap "list metric partitions" (query (fun store => map fst (map_to_list (partitions store))));
    for_each (fun name =>
      if expired cutoff name then wrap "drop partition" (exec (drop_partition name)) else mret tt) names.

Definition DropExpiredPartitions (now : Time) : DB SampleStore unit :=
  DropExpiredPartitionsWithSpan now DefaultPartitionSpan.

(** [INSERT INTO metric_sample]: a row must fall into a partition. *)
Definition covered (store : SampleStore) (ts : Time) : bool :=
  existsb (fun entry => in_range entry.2 ts) (map_to_list (partitions store)).

Definition insert_sample_row (row : SampleRow) (store : SampleStore) : result (unit * SampleStore) :=
  if covered store (sample_ts row)
  then Ok (tt, MkSampleStore (partitions store) (sample_rows store ++ [row]))
  else Err (ErrPg "23514").

Fixpoint IsMissingPartition (e : error) : bool :=
  match e with
  | ErrPg code => bool_decide (code = "23514")
  | Errorf _ inner => IsMissingPartition inner
  | _ => false
  end.

(** * Facts *)

Lemma multiple_apart span a b : (span | a) -> (span | b) -> 0 < span -> a < b -> a + span <= b.
Proof. intros [i ->] [j ->] ? ?. assert (i < j) by nia. nia. Qed.

Lemma div_apart unit span a b :
  0 < unit <= span -> (span | a) -> (span | b) -> a < b -> a / unit < b / unit.
Proof.
  intros Hu Ha Hb Hlt. pose proof (multiple_apart span a b Ha Hb ltac:(lia) Hlt).
  apply Z.lt_le_trans with (a / unit + 1); [lia|].
  rewrite <-Z.div_add by lia. apply Z.div_le_mono; lia.
Qed.

Lemma partitionName_inj span a b :
  Second <= span -> (span | a) -> (span | b) -> partitionName a span = partitionName b span -> a = b.
Proof.
  intros Hs Ha Hb. unfold partitionName.
  destruct (Z.eqb_spec span DefaultPartitionSpan) as [Heq|_]; intros [= H];
    destruct (Z.lt_trichotomy a b) as [Hlt|[->|Hlt]]; try done; exfalso.
  1,2: assert (0 < Day <= span) as Hu by (subst; by vm_compute).
  3,4: assert (0 < Second <= span) as Hu by (unfold Second in *; lia).
  all: first [pose proof (div_apart _ span a b Hu Ha Hb Hlt) | pose proof (div_apart _ span b a Hu Hb Ha Hlt)]; lia.
Qed.

Lemma rfc3339_mono a b : a <= b -> rfc3339 a <= rfc3339 b.
Proof. intros. unfold rfc3339, Second. pose proof (Z.div_le_mono a b 1000000000). lia. Qed.

Lemma rfc3339_span b span : Second <= span -> rfc3339 b < rfc3339 (b + span).
Proof.
  intros. unfold rfc3339, Second in *. pose proof (Z.div_le_mono (b + 1 * 1000000000) (b + span) 1000000000).
  rewrite Z.div_add in * by lia. lia.
Qed.

(** The range of the partition that starts at [b]. *)
Definition range_of (b : Time) (span : Duration) : Time * Time := (rfc3339 b, rfc3339 (b + span)).

(** Every partition is one that [EnsurePartitionRange] creates for this span. *)
Definition aligned (span : Duration) (store : SampleStore) : Prop :=
  map_Forall (fun name range => exists b, (span | b) /\ name = partitionName b span /\ range = range_of b span)
    (partitions store).

Lemma aligned_disjoint span a b :
  Second <= span -> (span | a) -> (span | b) -> a <> b -> overlaps (range_of a span) (range_of b span) = false.
Proof.
  intros Hs Ha Hb Hne. unfold overlaps, range_of. simpl.
  assert (0 < span) by (unfold Second in *; lia).
  destruct (Z.lt_total a b) as [Hlt|[->|Hlt]]; [|done|].
  - rewrite (proj2 (Z.ltb_ge (rfc3339 b) _)), andb_false_r; [done|]. apply rfc3339_mono.
    by apply multiple_apart.
  - rewrite (proj2 (Z.ltb_ge (rfc3339 a) _)); [done|]. apply rfc3339_mono. by apply multiple_apart.
Qed.

Lemma aligned_lookup span store b range :
  Second <= span -> aligned span store -> (span | b) ->
  partitions store !! partitionName b span = Some range -> range = range_of b span.
Proof.
  intros Hs Hal Hb H. destruct (Hal _ _ H) as (c&Hc&Hn&->).
  by rewrite (partitionName_inj span b c).
Qed.

Lemma create_partition_aligned span store b :
  Second <= span -> aligned span store -> (span | b) ->
  exists store', create_partition (partitionName b span) (rfc3339 b) (rfc3339 (b + span)) store = Ok (tt, store') /\
    aligned span store' /\ partitions store ⊆ partitions store' /\ sample_rows store' = sample_rows store /\
    partitions store' !! partitionName b span = Some (range_of b span).
Proof.
  intros Hs Hal Hb. unfold create_partition.
  destruct (partitions store !! partitionName b span) as [range|] eqn:E.
  - exists store. split_and!; try done. by rewrite E, (aligned_lookup span store b range).
  - rewrite (proj2 (Z.leb_gt _ _) (rfc3339_span b span Hs)). cbn [orb].
    destruct (existsb _ _) eqn:Ex.
    + apply existsb_exists in Ex as ([name range]&Hin&Ho).
      apply list_elem_of_In, elem_of_map_to_list in Hin. destruct (Hal _ _ Hin) as (c&Hc&->&->).
      change (rfc3339 b, rfc3339 (b + span)) with (range_of b span) in Ho.
      cbn [snd] in Ho. rewrite aligned_disjoint in Ho; try done. intros ->. congruence.
    + eexists. split; [reflexivity|]. unfold aligned. simpl. split_and!; try done.
      * apply map_Forall_insert_2; [|done]. by exists b.
      * by apply insert_subseteq.
      * by rewrite lookup_insert_eq.
Qed.

Lemma ensure_loop_aligned span end_ fuel : Second <= span -> forall b store,
  aligned span store -> (span | b) -> (1 <= fuel)%nat -> (end_ - b) / Second + 2 <= Z.of_nat fuel ->
  exists store', ensure_loop fuel b end_ span [] store = (Ok tt, store', []) /\
    aligned span store' /\ partitions store ⊆ partitions store' /\ sample_rows store' = sample_rows store /\
    forall c, (span | c) -> b <= c <= end_ -> partitions store' !! partitionName c span = Some (range_of c span).
Proof.
  intros Hs. induction fuel as [|fuel IH]; intros b store Hal Hb Hf1 Hf; [lia|]. simpl. unfold After, TimeAdd.
  destruct (Z.ltb_spec end_ b) as [Hlt|Hge].
  { exists store. split_and!; try done. lia. }
  destruct (create_partition_aligned span store b) as (s1&Hc&Hal1&Hsub1&Hr1&Hl1); try done.
  run_plain. rewrite Hc.
  assert ((end_ - (b + span)) / Second + 1 <= (end_ - b) / Second).
  { unfold Second in *. rewrite <-Z.div_add by lia. apply Z.div_le_mono; lia. }
  assert (0 <= (end_ - b) / Second) by (apply Z.div_pos; [lia|done]).
  destruct (IH (b + span) s1) as (s2&He&Hal2&Hsub2&Hr2&Hl2); try done; try lia.
  { apply Z.divide_add_r; [done|apply Z.divide_refl]. }
  exists s2. split_and!; try done; [by etrans|congruence|].
  intros c Hc' Hcb. destruct (decide (c = b)) as [->|Hne].
  - eapply lookup_weaken; eauto.
  - apply Hl2; [done|]. pose proof (multiple_apart span b c Hb Hc'). unfold Second in *. lia.
Qed.

(** Some aligned partition between two boundaries holds the instant [t]. *)
Lemma aligned_cover span b0 bend t :
  Second <= span -> (span | b0) -> (span | bend) -> rfc3339 b0 <= t < rfc3339 (bend + span) ->
  exists c, (span | c) /\ b0 <= c <= bend /\ in_range (range_of c span) t = true.
Proof.
  intros Hs Hb0 Hbend [Ht1 Ht2].
  set (u := (t / Second + 1) * Second - 1). set (c := u / span * span).
  assert (0 < span) by (unfold Second in *; lia).
  assert (span | c) as Hc by apply Z.divide_factor_r.
  assert (c <= u < c + span) as Hcu
    by (unfold c; pose proof (Z.div_mod u span); pose proof (Z.mod_pos_bound u span); lia).
  unfold in_range, range_of, rfc3339, Second in *. clearbody c. subst u. simpl.
  exists c. split_and!; [done| | |].
  - destruct (Z.le_gt_cases b0 c); [done|]. pose proof (multiple_apart span c b0 Hc Hb0).
    Z.to_euclidean_division_equations; lia.
  - destruct (Z.le_gt_cases c bend); [done|]. pose proof (multiple_apart span bend c Hbend Hc).
    Z.to_euclidean_division_equations; lia.
  - apply andb_true_iff. rewrite Z.leb_le, Z.ltb_lt. clear Ht1 Ht2 Hb0 Hbend.
    pose proof (Z.div_mod t 1000000000). pose proof (Z.mod_pos_bound t 1000000000). split.
    + pose proof (Z.div_lt_upper_bound c 1000000000 (t / 1000000000 + 1)). lia.
    + pose proof (Z.div_le_lower_bound (c + span) 1000000000 (t / 1000000000 + 1)). lia.
Qed.

Lemma covered_spec store t :
  covered store t = true <->
  exists name range, partitions store !! name = Some range /\ in_range range t = true.
Proof.
  unfold covered. rewrite existsb_exists. setoid_rewrite <-list_elem_of_In. split.
  - intros ([name range]&H%elem_of_map_to_list&?). eauto.
  - intros (name&range&H&?). exists (name, range). by rewrite elem_of_map_to_list.
Qed.

Lemma partitionBoundary_multiple t span : (span | partitionBoundary t span).
Proof. apply Z.divide_factor_r. Qed.

Lemma partitionBoundary_bounds t span :
  0 <= t < 2 ^ 63 -> 0 < span -> partitionBoundary t span <= t < partitionBoundary t span + span.
Proof.
  intros Ht Hs. unfold partitionBoundary, UnixNano. rewrite int64_id by (unfold in_int64; lia).
  rewrite Z.quot_div_nonneg by lia.
  pose proof (Z.div_mod t span). pose proof (Z.mod_pos_bound t span). lia.
Qed.

(** Dropping the expired ones among [names]. *)
Definition drop_all (cutoff : Time) (names : list PartName) (store : SampleStore) : SampleStore :=
  foldl (fun st name => if expired cutoff name then drop_partition name st else st) store names.

Lemma drop_loop cutoff names store :
  for_each (fun name => if expired cutoff name then wrap "drop partition" (exec (drop_partition name)) else mret tt)
    names [] store = (Ok tt, drop_all cutoff names store, []).
Proof.
  revert store. induction names as [|name names IH]; intros store; simpl; [done|].
  unfold mbind, DB_bind. destruct (expired cutoff name); [run_plain|]; apply IH.
Qed.

(** The row lies in a partition that is dropped. *)
Definition dropped (cutoff : Time) (names : list PartName) (store : SampleStore) (row : SampleRow) : bool :=
  existsb (fun name => expired cutoff name &&
    match partitions store !! name with Some range => in_range range (sample_ts row) | None => false end) names.

Lemma drop_partition_lookup name other store :
  partitions (drop_partition name store) !! other = if decide (other = name) then None else partitions store !! other.
Proof.
  unfold drop_partition. destruct (partitions store !! name) eqn:E; simpl; case_decide; subst; simplify_map_eq; auto.
Qed.

Lemma dropped_ext cutoff names store store' row :
  (forall name, name ∈ names -> partitions store' !! name = partitions store !! name) ->
  dropped cutoff names store' row = dropped cutoff names store row.
Proof.
  unfold dropped. induction names as [|n names IH]; intros H; simpl; [done|].
  rewrite (H n) by left. rewrite IH; [done|]. intros. apply H. by right.
Qed.

Lemma drop_one_rows cutoff n names store :
  n ∉ names -> expired cutoff n = true ->
  filter (fun row => dropped cutoff names (drop_partition n store) row = false)
    (sample_rows (drop_partition n store)) =
  filter (fun row => dropped cutoff (n :: names) store row = false) (sample_rows store).
Proof.
  intros Hn E.
  assert (forall row, dropped cutoff names (drop_partition n store) row = dropped cutoff names store row) as He.
  { intros row. apply dropped_ext. intros m Hm. rewrite drop_partition_lookup. by case_decide; subst. }
  rewrite (list_filter_iff _ (fun row => dropped cutoff names store row = false)) by (intros; by rewrite He).
  clear He. unfold drop_partition. destruct (partitions store !! n) as [range|] eqn:En; cbn [sample_rows].
  - rewrite list_filter_filter. apply list_filter_iff. intros row.
    unfold dropped. simpl. rewrite E, En, orb_false_iff. simpl. tauto.
  - apply list_filter_iff. intros row. unfold dropped. simpl. by rewrite E, En.
Qed.

Lemma drop_all_rows cutoff names store :
  NoDup names ->
  sample_rows (drop_all cutoff names store) =
    filter (fun row => dropped cutoff names store row = false) (sample_rows store) /\
  forall name, partitions (drop_all cutoff names store) !! name =
    if bool_decide (name ∈ names) && expired cutoff name then None else partitions store !! name.
Proof.
  revert store. induction names as [|n names IH]; intros store Hnd.
  { split; [|done]. simpl. by induction (sample_rows store) as [|r l IH]; rewrite ?filter_cons_True; [|congruence|]. }
  apply NoDup_cons in Hnd as [Hn Hnd]. 
  change (drop_all cutoff (n :: names) store)
    with (drop_all cutoff names (if expired cutoff n then drop_partition n store else store)).
  destruct (expired cutoff n) eqn:E.
  - destruct (IH (drop_partition n store) Hnd) as [-> Hparts]. split; [by apply drop_one_rows|].
    intros name. rewrite Hparts, drop_partition_lookup.
    destruct (decide (name = n)) as [->|Hne].
    + rewrite E, (bool_decide_eq_true_2 (n ∈ n :: names)) by left. by destruct (_ && _).
    + rewrite (bool_decide_ext (name ∈ n :: names) (name ∈ names)); [done|]. rewrite elem_of_cons. naive_solver.
  - destruct (IH store Hnd) as [-> Hparts]. split.
    + apply list_filter_iff. intros row. unfold dropped. simpl. by rewrite E.
    + intros name. rewrite Hparts. destruct (decide (name = n)) as [->|Hne].
      * by rewrite E, !andb_false_r.
      * rewrite (bool_decide_ext (name ∈ n :: names) (name ∈ names)); [done|]. rewrite elem_of_cons. naive_solver.
Qed.

(** In a store of whole-second spans a partition's name tells where it starts. *)
Lemma partitionTime_start b span :
  (Second | span) -> (span | b) -> partitionTime (partitionName b span) = Some b.
Proof.
  intros Hs Hb. unfold partitionName. destruct (Z.eqb_spec span DefaultPartitionSpan) as [->|_]; simpl; f_equal.
  - destruct Hb as [k ->]. change DefaultPartitionSpan with Day. by rewrite Z.div_mul.
  - destruct (Z.divide_trans _ _ _ Hs Hb) as [k ->]. by rewrite Z.div_mul.
Qed.

Lemma rfc3339_whole b span : (Second | span) -> (span | b) -> rfc3339 b = b.
Proof.
  intros Hs Hb. destruct (Z.divide_trans _ _ _ Hs Hb) as [k ->]. unfold rfc3339. by rewrite Z.div_mul.
Qed.

(** In an aligned store a covered instant lies in an expired partition exactly
    when it is before the cutoff. *)
Lemma dropped_aligned span cutoff store row :
  Second <= span -> (Second | span) -> (span | cutoff) -> aligned span store ->
  covered store (sample_ts row) = true ->
  dropped cutoff (map fst (map_to_list (partitions store))) store row = (sample_ts row <? cutoff).
Proof.
  intros Hle Hs Hc Hal Hcov. apply eq_true_iff_eq. unfold dropped. rewrite existsb_exists, Z.ltb_lt. split.
  - intros (name&_&H). apply andb_true_iff in H as [He H].
    destruct (partitions store !! name) as [range|] eqn:E; [|done].
    destruct (Hal _ _ E) as (b&Hb&->&->). unfold expired in He.
    rewrite (partitionTime_start b span Hs Hb) in He. unfold in_range, range_of in H. simpl in H.
    unfold Before in He. bool_to_prop.
    assert (span | b + span) as Hb' by (apply Z.divide_add_r; [done|apply Z.divide_refl]).
    rewrite (rfc3339_whole (b + span) span Hs Hb') in *.
    pose proof (multiple_apart span b cutoff Hb Hc). unfold Second in *. lia.
  - intros Hlt. apply covered_spec in Hcov as (name&range&E&H). exists name.
    split; [apply list_elem_of_In, list_elem_of_fmap; exists (name, range); by rewrite elem_of_map_to_list|].
    rewrite E, H, andb_true_r. destruct (Hal _ _ E) as (b&Hb&->&->).
    unfold expired. rewrite (partitionTime_start b span Hs Hb). unfold in_range, range_of in H. simpl in H.
    bool_to_prop. rewrite (rfc3339_whole b span Hs Hb) in *. unfold Before. apply Z.ltb_lt. lia.
Qed.

Lemma ensure_covers from through span store :
  Second <= span -> 7 * span < 2 ^ 63 -> 0 <= from <= through -> through < 2 ^ 63 -> aligned span store ->
  exists store', EnsurePartitionRange from through span [] store = (Ok tt, store', []) /\
    aligned span store' /\ partitions store ⊆ partitions store' /\ sample_rows store' = sample_rows store /\
    (forall t, rfc3339 (partitionBoundary from span) <= t < rfc3339 (partitionBoundary through span + 8 * span) ->
       covered store' t = true).
Proof.
  intros Hs Hspan Hft Ht Hal. unfold EnsurePartitionRange.
  rewrite (proj2 (Z.ltb_ge span Second) Hs).
  assert (0 < span) as Hpos by (unfold Second in *; lia).
  pose proof (partitionBoundary_bounds from span ltac:(lia) Hpos) as Hbf.
  set (b0 := partitionBoundary from span) in *.
  rewrite int64_id by (unfold in_int64, partitionPrebuild; lia). unfold TimeAdd, partitionPrebuild.
  set (bend := partitionBoundary through span + 7 * span).
  destruct (ensure_loop_aligned span bend (ensure_fuel b0 bend) Hs b0 store)
    as (s'&He&Hal'&Hsub&Hr&Hl); try done; unfold ensure_fuel in *; try apply partitionBoundary_multiple; try lia.
  { assert (b0 <= bend).
    { unfold bend. pose proof (partitionBoundary_bounds through span ltac:(lia) Hpos). lia. }
    assert (0 <= (bend - b0) / Second) by (apply Z.div_pos; [lia|done]). lia. }
  exists s'. rewrite He. split_and!; try done. intros t [Ht1 Ht2].
  destruct (aligned_cover span b0 bend t) as (c&Hc&Hcb&Hin); [done|apply partitionBoundary_multiple| | |].
  - apply Z.divide_add_r; [apply partitionBoundary_multiple|apply Z.divide_factor_r].
  - split; [done|]. by replace (bend + span) with (partitionBoundary through span + 8 * span) by (unfold bend; lia).
  - apply covered_spec. eauto.
Qed.

Lemma rfc3339_le t : rfc3339 t <= t.
Proof. unfold rfc3339, Second. pose proof (Z.div_mod t 1000000000). pose proof (Z.mod_pos_bound t 1000000000). lia. Qed.

Lemma rfc3339_gt t : t - Second < rfc3339 t.
Proof. unfold rfc3339, Second. pose proof (Z.div_mod t 1000000000). pose proof (Z.mod_pos_bound t 1000000000). lia. Qed.

(** The stored form of an instant is in the whole second the instant is in. *)
Lemma rfc3339_timestamptz b t : b <= t -> rfc3339 b <= timestamptz t.
Proof.
  intros H. apply Z.le_trans with (rfc3339 t); [by apply rfc3339_mono|]. unfold rfc3339, timestamptz, Second.
  Z.to_euclidean_division_equations. lia.
Qed.

(** * Properties *)

(** Whatever the calendar range and a span of at least a second, creating
    the partitions succeeds, keeps every existing partition and row, and leaves
    every instant from the start of the first span to seven spans past the one
    that holds [through] with a partition to be written to. *)
Theorem EnsurePartitionRange_covers (from through : Time) (span : Duration) (store : SampleStore) :
  Second <= span -> 7 * span < 2 ^ 63 -> 0 <= from <= through -> through < 2 ^ 63 -> aligned span store ->
  exists store', plain (EnsurePartitionRange from through span) store = (Ok tt, store') /\
    aligned span store' /\ partitions store ⊆ partitions store' /\ sample_rows store' = sample_rows store /\
    (forall t, from <= t < rfc3339 (partitionBoundary through span + 8 * span) -> covered store' t = true).
Proof.
  intros Hs Hspan Hft Ht Hal. destruct (ensure_covers from through span store) as (s&H&?&?&?&Hc); try done.
  exists s. unfold plain. rewrite H. split_and!; try done. intros t [Ht1 Ht2]. apply Hc. split; [|done].
  pose proof (partitionBoundary_bounds from span ltac:(lia) ltac:(unfold Second in *; lia)).
  pose proof (rfc3339_le (partitionBoundary from span)). lia.
Qed.

Lemma EnsurePartitionRange_covers_witness :
  exists store', plain (EnsurePartitionRange (10 * Second) (10 * Second) Minute) (MkSampleStore ∅ []) = (Ok tt, store') /\
    covered store' (70 * Second) = true.
Proof.
  destruct (EnsurePartitionRange_covers (10 * Second) (10 * Second) Minute (MkSampleStore ∅ []))
    as (s&H&_&_&_&Hc); [unfold Minute, Second; lia..|apply map_Forall_empty|].
  exists s. split; [exact H|]. apply Hc. split; [unfold Second; lia|by vm_compute].
Defined.

(** Dropping expired partitions succeeds and deletes exactly the samples
    older than thirty spans before the current one; every later instant stays
    as writable as it was. *)
Theorem DropExpiredPartitions_exact (now : Time) (span : Duration) (store : SampleStore) :
  Second <= span -> (Second | span) -> 30 * span < 2 ^ 63 -> 0 <= now < 2 ^ 63 -> aligned span store ->
  (forall row, row ∈ sample_rows store -> covered store (sample_ts row) = true) ->
  let cutoff := partitionBoundary now span - 30 * span in
  exists store', plain (DropExpiredPartitionsWithSpan now span) store = (Ok tt, store') /\
    sample_rows store' = filter (fun row => cutoff <= sample_ts row) (sample_rows store) /\
    (forall t, cutoff <= t -> covered store' t = covered store t).
Proof.
  intros Hs Hdiv Hspan Hnow Hal Hrows cutoff. unfold plain, DropExpiredPartitionsWithSpan.
  rewrite (proj2 (Z.ltb_ge span Second) Hs).
  rewrite int64_id by (unfold in_int64, partitionRetention, Second in *; lia).
  replace (TimeAdd (partitionBoundary now span) (- partitionRetention * span)) with cutoff
    by (unfold cutoff, TimeAdd, partitionRetention; lia).
  unfold mbind at 1, DB_bind at 1, wrap at 1, query, statement at 1. cbn [next_fate].
  rewrite drop_loop. eexists. split; [reflexivity|].
  set (names := map fst (map_to_list (partitions store))).
  destruct (drop_all_rows cutoff names store (NoDup_fst_map_to_list _)) as [-> Hparts].
  assert (span | cutoff) as Hc
    by (apply Z.divide_sub_r; [apply partitionBoundary_multiple|apply Z.divide_factor_r]).
  split.
  - apply filter_ext_elem. intros row Hin.
    unfold names. rewrite (dropped_aligned span cutoff store row Hs Hdiv Hc Hal (Hrows row Hin)).
    by rewrite Z.ltb_ge.
  - intros t Ht. apply eq_true_iff_eq. rewrite !covered_spec. apply exist_proper. intros name.
    apply exist_proper. intros range. rewrite Hparts.
    destruct (bool_decide (name ∈ names) && expired cutoff name) eqn:E; [|done]. split; [naive_solver|].
    intros [Hl Hin]. exfalso. bool_to_prop.
    destruct (Hal _ _ Hl) as (b&Hb&->&->). unfold expired, Before in *.
    rewrite (partitionTime_start b span Hdiv Hb) in *. bool_to_prop.
    unfold in_range, range_of in Hin. simpl in Hin. bool_to_prop.
    assert (rfc3339 (b + span) = b + span) as Hend
      by (apply (rfc3339_whole _ span); [done|apply Z.divide_add_r; [done|apply Z.divide_refl]]).
    pose proof (multiple_apart span b cutoff Hb Hc). unfold Second in *. lia.
Qed.

Lemma DropExpiredPartitions_exact_witness :
  exists store', plain (DropExpiredPartitionsWithSpan Day Minute) (MkSampleStore ∅ []) = (Ok tt, store') /\
    sample_rows store' = [].
Proof.
  destruct (DropExpiredPartitions_exact Day Minute (MkSampleStore ∅ [])) as (s&H&Hr&_);
    [unfold Minute, Second; lia|by exists 60|unfold Day, Hour, Minute, Second; lia..|apply map_Forall_empty| |].
  - intros row Hrow. by apply elem_of_nil in Hrow.
  - exists s. split; [exact H|]. rewrite Hr. done.
Defined.
