(* ===== verification/AlertState.v ===== *)
(** The alert state machine of [internal/alerting/state.go] and the events of
    [internal/alerting/evaluation.go]: [Step] and [StepCollection] on a
    [Snapshot], the events a transition emits, the well-formedness of a
    snapshot, the abstract life cycle [Step] implements, and the counting
    arguments behind debounced firing and recovery. *)

From S2P Require Import Prelude.

(** [type State string]: the five states, and the zero value (the empty string), which marks
    an absent [StateBeforeNoData]. The column's CHECK allows nothing else. *)
Inductive State : Type :=
  | NoState
  | OK
  | PENDING
  | FIRING
  | NO_DATA
  | RECOVERED.

#[export] Instance State_eq_dec : EqDecision State.
Proof. solve_decision. Defined.

Inductive Evaluation : Type :=
  | Breaching
  | Recovering
  | Stable
  | Missing
  | MissingIgnored.

#[export] Instance Evaluation_eq_dec : EqDecision Evaluation.
Proof. solve_decision. Defined.

Record Snapshot : Type := MkSnapshot {
  snap_State : State;
  StateBeforeNoData : State;
  BreachCount : Z;
  RecoveryCount : Z;
  NoDataCount : Z;
}.

(** The zero [Snapshot] with [State: OK]. *)
Definition InitialSnapshot : Snapshot := MkSnapshot OK NoState 0 0 0.

(** [Step], branch by branch: the early returns of the [switch], then the
    [Stable], [Breaching] and recovering tails. *)
Definition Step (current : Snapshot) (evaluation : Evaluation)
    (triggerCount recoveryCount : Z) : Snapshot :=
  let '(MkSnapshot state before breach recovery nodata) := current in
  match evaluation with
  | MissingIgnored => MkSnapshot state before 0 0 0
  | Missing =>
      if bool_decide (state = RECOVERED) then current
      else
        let nodata := incr nodata in
        if (2 <=? nodata) && negb (bool_decide (state = NO_DATA))
        then MkSnapshot NO_DATA state 0 0 nodata
        else MkSnapshot state before 0 0 nodata
  | _ =>
      if bool_decide (state = NO_DATA) then MkSnapshot before NoState breach recovery 0
      else
        match evaluation with
        | Stable =>
            MkSnapshot (if bool_decide (state = PENDING) then OK else state) before 0 0 0
        | Breaching =>
            match state with
            | OK | PENDING | RECOVERED =>
                let breach := incr breach in
                MkSnapshot (if triggerCount <=? breach then FIRING else PENDING) before breach 0 0
            | _ => MkSnapshot state before breach 0 0
            end
        | _ =>
            match state with
            | PENDING => MkSnapshot OK before 0 recovery 0
            | FIRING =>
                let recovery := incr recovery in
                MkSnapshot (if recoveryCount <=? recovery then RECOVERED else state)
                  before 0 recovery 0
            | _ => MkSnapshot state before 0 recovery 0
            end
        end
  end.

Definition StepCollection (current : option Snapshot) (evaluation : Evaluation) (paused : bool)
    (triggerCount recoveryCount : Z) : option Snapshot :=
  if paused then current
  else
    let next := match current with Some snapshot => snapshot | None => InitialSnapshot end in
    Some (Step next evaluation triggerCount recoveryCount).

Inductive EventKind : Type :=
  | EventPendingStarted
  | EventFired
  | EventUpdated
  | EventRecovered
  | EventNoDataEntered
  | EventNoDataExited
  | EventFrozen
  | EventUnfrozen.

#[export] Instance EventKind_eq_dec : EqDecision EventKind.
Proof. solve_decision. Defined.

Definition StateEvents (before after : State) : list EventKind :=
  if bool_decide (before = NO_DATA) && negb (bool_decide (after = NO_DATA)) then
    EventNoDataExited :: (if bool_decide (after = RECOVERED) then [EventRecovered] else [])
  else if negb (bool_decide (before = PENDING)) && bool_decide (after = PENDING) then
    [EventPendingStarted]
  else if negb (bool_decide (before = FIRING)) && bool_decide (after = FIRING) then [EventFired]
  else if bool_decide (before = FIRING) && bool_decide (after = FIRING) then [EventUpdated]
  else if negb (bool_decide (before = RECOVERED)) && bool_decide (after = RECOVERED) then
    [EventRecovered]
  else if negb (bool_decide (before = NO_DATA)) && bool_decide (after = NO_DATA) then
    [EventNoDataEntered]
  else [].

(** * Runs *)

(** The snapshots after a sequence of evaluations under one rule. *)
Definition run (triggerCount recoveryCount : Z) (start : Snapshot) (es : list Evaluation) : Snapshot :=
  foldl (fun s e => Step s e triggerCount recoveryCount) start es.

Lemma run_snoc tc rc start es e :
  run tc rc start (es ++ [e]) = Step (run tc rc start es) e tc rc.
Proof. unfold run. by rewrite foldl_app. Qed.

Lemma run_app tc rc start es1 es2 :
  run tc rc start (es1 ++ es2) = run tc rc (run tc rc start es1) es2.
Proof. unfold run. by rewrite foldl_app. Qed.

(** * Well-formed snapshots *)

(** The state a snapshot may remember while it has no data. *)
Definition resumable (s : State) : Prop := s = OK \/ s = PENDING \/ s = FIRING.

(** [StateBeforeNoData] is set exactly in [NO_DATA], to a state the column's
    CHECK admits; counters are not negative; a state that waits on a counter has
    not reached its limit. *)
Record wf_snapshot (triggerCount recoveryCount : Z) (s : Snapshot) : Prop := {
  wf_state : snap_State s <> NoState;
  wf_before : snap_State s = NO_DATA -> resumable (StateBeforeNoData s);
  wf_no_before : snap_State s <> NO_DATA -> StateBeforeNoData s = NoState;
  wf_breach : 0 <= BreachCount s;
  wf_recovery : 0 <= RecoveryCount s;
  wf_nodata : 0 <= NoDataCount s;
  wf_no_data_zero : snap_State s = NO_DATA -> BreachCount s = 0 /\ RecoveryCount s = 0;
  wf_waiting : resumable (snap_State s) -> NoDataCount s <= 1;
  wf_pending : snap_State s <> FIRING -> BreachCount s < Z.max 1 triggerCount;
  wf_firing : snap_State s <> RECOVERED -> RecoveryCount s < Z.max 1 recoveryCount;
}.

(** The counters stay clear of the 64-bit limit: how often a rule has been
    evaluated, and the rule's own counts, are far below it. *)
Definition countable (triggerCount recoveryCount : Z) (s : Snapshot) : Prop :=
  triggerCount < 2 ^ 62 /\ recoveryCount < 2 ^ 62 /\
  BreachCount s < 2 ^ 62 /\ RecoveryCount s < 2 ^ 62 /\ NoDataCount s < 2 ^ 62.

Lemma wf_initial tc rc : wf_snapshot tc rc InitialSnapshot.
Proof. constructor; simpl; try done; unfold resumable; intros; lia. Qed.

(** Case analysis of one step: the evaluation, the tests, the states. *)
Ltac step_cases :=
  unfold Step; simpl;
  repeat (case_bool_decide || case_match); simpl in *; simplify_eq; bool_to_prop.

Lemma Step_wf tc rc s e :
  wf_snapshot tc rc s -> countable tc rc s -> wf_snapshot tc rc (Step s e tc rc).
Proof.
  destruct s as [state before breach recovery nodata].
  intros [] (?&?&?&?&?); simpl in *.
  destruct e; step_cases; rewrite ?incr_id in * by lia;
    constructor; simpl; unfold resumable in *;
    try (intuition (congruence || lia)).
  destruct state; intuition congruence.
Qed.

(** * Counters and history *)

(** The last [n] evaluations were all [e]. *)
Definition ends_with (n : Z) (e : Evaluation) (es : list Evaluation) : Prop :=
  exists prefix, es = prefix ++ replicate (Z.to_nat n) e.

Lemma ends_with_0 e es : ends_with 0 e es.
Proof. exists es. by rewrite app_nil_r. Qed.

Lemma ends_with_snoc n e es : 0 <= n -> ends_with n e es -> ends_with (n + 1) e (es ++ [e]).
Proof.
  intros Hn [prefix ->]. exists prefix.
  rewrite Z2Nat.inj_add, Nat.add_1_r, replicate_S_end, app_assoc by lia. done.
Qed.

Lemma ends_with_weaken n m e es : 0 <= m <= n -> ends_with n e es -> ends_with m e es.
Proof.
  intros Hm [prefix ->]. exists (prefix ++ replicate (Z.to_nat (n - m)) e).
  rewrite <-app_assoc, <-replicate_add. do 2 f_equal. lia.
Qed.

(** What the counters say about the evaluations seen so far. *)
Record tracks (triggerCount recoveryCount : Z) (es : list Evaluation) (s : Snapshot) : Prop := {
  tr_wf : wf_snapshot triggerCount recoveryCount s;
  tr_breach : ends_with (BreachCount s) Breaching es;
  tr_recovered : snap_State s = RECOVERED -> BreachCount s = 0;
  tr_recovery : snap_State s <> RECOVERED -> ends_with (RecoveryCount s) Recovering es;
  tr_idle : snap_State s = OK \/ snap_State s = PENDING -> RecoveryCount s = 0;
  tr_bound : BreachCount s <= Z.of_nat (length es) /\ RecoveryCount s <= Z.of_nat (length es) /\
             NoDataCount s <= Z.of_nat (length es);
}.

#[export] Hint Resolve ends_with_0 ends_with_snoc : monitor.

Lemma Step_tracks tc rc es s e :
  tc < 2 ^ 62 -> rc < 2 ^ 62 -> Z.of_nat (length es) < 2 ^ 62 ->
  tracks tc rc es s -> tracks tc rc (es ++ [e]) (Step s e tc rc).
Proof.
  intros Htc Hrc Hlen [Hwf Hb Hrec Hr Hidle Hbound].
  assert (countable tc rc s) as Hc by (unfold countable; lia).
  pose proof (Step_wf tc rc s e Hwf Hc) as Hwf'.
  destruct s as [state before breach recovery nodata], Hwf, Hc as (?&?&?&?&?); simpl in *.
  split; [done|..]; clear Hwf'; rewrite ?length_app; simpl;
    destruct e; step_cases; rewrite ?incr_id in * by lia; simpl; intros;
    rewrite ?Nat2Z.inj_add; try done; try lia; try congruence; auto with monitor;
    try (rewrite ?Hrec, ?Hidle by auto; auto with monitor; done);
    try (destruct wf_no_data_zero0 as [-> ->]; auto with monitor; done);
    try (destruct_or!; congruence).
  apply ends_with_weaken with (breach + 1); auto with monitor lia.
Qed.

Lemma run_tracks tc rc es :
  tc < 2 ^ 62 -> rc < 2 ^ 62 -> Z.of_nat (length es) < 2 ^ 62 ->
  tracks tc rc es (run tc rc InitialSnapshot es).
Proof.
  intros Htc Hrc. induction es as [|e es IH] using rev_ind; intros Hlen.
  { split; simpl; auto using wf_initial with monitor; try lia; done. }
  rewrite run_snoc. rewrite length_app in Hlen. apply Step_tracks; try done; [|apply IH]; lia.
Qed.

(** * The life cycle *)

(** The edges of the alert life cycle: what an evaluation may do to a state that
    is not suspended for missing data. *)
Inductive active_edge : State -> Evaluation -> State -> Prop :=
  | edge_wait s : s = OK \/ s = PENDING \/ s = RECOVERED -> active_edge s Breaching PENDING
  | edge_fire s : s = OK \/ s = PENDING \/ s = RECOVERED -> active_edge s Breaching FIRING
  | edge_update : active_edge FIRING Breaching FIRING
  | edge_calm s e : e = Recovering \/ e = Stable -> s <> PENDING -> active_edge s e s
  | edge_withdraw e : e = Recovering \/ e = Stable -> active_edge PENDING e OK
  | edge_recover : active_edge FIRING Recovering RECOVERED
  | edge_hold s e : e = Missing \/ e = MissingIgnored -> active_edge s e s.

(** The same for a snapshot, with suspension: missing data suspends a state that
    is not final, and the first value resumes the suspended state. *)
Inductive lifecycle : State * State -> Evaluation -> State * State -> Prop :=
  | life_active s e s' :
      s <> NO_DATA -> active_edge s e s' -> lifecycle (s, NoState) e (s', NoState)
  | life_suspend s :
      resumable s -> lifecycle (s, NoState) Missing (NO_DATA, s)
  | life_suspended s e :
      e = Missing \/ e = MissingIgnored -> lifecycle (NO_DATA, s) e (NO_DATA, s)
  | life_resume s e :
      e <> Missing -> e <> MissingIgnored -> lifecycle (NO_DATA, s) e (s, NoState).

(** What the life cycle needs of a snapshot: the part of [wf_snapshot] that does
    not depend on the counts of the rule. *)
Definition shaped (s : Snapshot) : Prop :=
  snap_State s <> NoState /\ (snap_State s = NO_DATA -> resumable (StateBeforeNoData s)) /\
  (snap_State s <> NO_DATA -> StateBeforeNoData s = NoState).

Lemma shaped_lifecycle tc rc s e :
  shaped s ->
  lifecycle (snap_State s, StateBeforeNoData s) e
    (snap_State (Step s e tc rc), StateBeforeNoData (Step s e tc rc)).
Proof.
  destruct s as [state before breach recovery nodata]. intros (Hs & Hb & Hnb); simpl in *.
  destruct (decide (state = NO_DATA)) as [->|Hn].
  - destruct e; step_cases; try done; constructor; auto; congruence.
  - rewrite (Hnb Hn). clear Hb Hnb.
    destruct e; step_cases; try (apply life_active; [done|]);
      try (constructor; unfold resumable; auto; congruence);
      try (destruct state; try done; constructor; unfold resumable; auto; congruence).
Qed.

Lemma wf_shaped tc rc s : wf_snapshot tc rc s -> shaped s.
Proof. by intros []. Qed.

Lemma Step_lifecycle tc rc s e :
  wf_snapshot tc rc s ->
  lifecycle (snap_State s, StateBeforeNoData s) e
    (snap_State (Step s e tc rc), StateBeforeNoData (Step s e tc rc)).
Proof. intros H. by eapply shaped_lifecycle, wf_shaped. Qed.

(** What the events of a transition along the life cycle say about it. *)
Definition events_describe (before after : State) : Prop :=
  (EventFired ∈ StateEvents before after <->
     after = FIRING /\ before <> FIRING /\ before <> NO_DATA) /\
  (EventRecovered ∈ StateEvents before after <-> before = FIRING /\ after = RECOVERED) /\
  (EventNoDataEntered ∈ StateEvents before after <-> before <> NO_DATA /\ after = NO_DATA) /\
  (EventNoDataExited ∈ StateEvents before after <-> before = NO_DATA /\ after <> NO_DATA) /\
  (EventUpdated ∈ StateEvents before after <-> before = FIRING /\ after = FIRING) /\
  (length (StateEvents before after) <= 1)%nat.

Lemma events_describe_or before after :
  events_describe before after \/
  after = RECOVERED /\ before <> RECOVERED /\ before <> FIRING.
Proof.
  unfold events_describe.
  destruct before, after;
    match goal with |- context [StateEvents ?a ?b] =>
      let v := eval vm_compute in (StateEvents a b) in change (StateEvents a b) with v end;
    first [ left; split_and!; rewrite ?list_elem_of_singleton, ?elem_of_nil; simpl;
            try lia; intuition congruence
          | right; split_and!; congruence ].
Qed.

Lemma Step_events tc rc s e :
  wf_snapshot tc rc s -> events_describe (snap_State s) (snap_State (Step s e tc rc)).
Proof.
  intros Hwf. destruct (events_describe_or (snap_State s) (snap_State (Step s e tc rc)))
    as [?|(Ha&Hb&Hc)]; [done|exfalso].
  pose proof (Step_lifecycle tc rc s e Hwf) as Hl. rewrite Ha in Hl.
  inversion Hl as [? ? ? Hn He| | |? ? H1 H2]; subst.
  - inversion He; congruence.
  - destruct (wf_before _ _ _ Hwf) as [Hr|[Hr|Hr]]; congruence.
Qed.

(** * Bursts of one evaluation *)

(** While the breach count is below the limit, [n] breaches add [n] to it. *)
Lemma run_breaching tc rc s n :
  (snap_State s = OK \/ snap_State s = PENDING \/ snap_State s = RECOVERED) ->
  0 <= BreachCount s -> BreachCount s + Z.of_nat n < 2 ^ 62 -> (0 < n)%nat ->
  BreachCount s + Z.of_nat n <= Z.max (BreachCount s + 1) tc ->
  run tc rc s (replicate n Breaching) =
  MkSnapshot (if tc <=? BreachCount s + Z.of_nat n then FIRING else PENDING)
    (StateBeforeNoData s) (BreachCount s + Z.of_nat n) 0 0.
Proof.
  revert s. induction n as [|n IH]; intros s Hs Hb Hlt Hn Htc; [lia|].
  change (run tc rc s (replicate (S n) Breaching))
    with (run tc rc (Step s Breaching tc rc) (replicate n Breaching)).
  destruct s as [state before breach recovery nodata]; cbn [snap_State BreachCount StateBeforeNoData] in *.
  assert (Step (MkSnapshot state before breach recovery nodata) Breaching tc rc =
          MkSnapshot (if tc <=? breach + 1 then FIRING else PENDING) before (breach + 1) 0 0) as ->.
  { destruct Hs as [->|[->| ->]]; simpl; by rewrite incr_id by lia. }
  destruct n as [|n]; [done|].
  rewrite (proj2 (Z.leb_gt tc (breach + 1))) by lia.
  rewrite IH; cbn [snap_State BreachCount StateBeforeNoData]; auto; try lia.
  by replace (breach + 1 + Z.of_nat (S n)) with (breach + Z.of_nat (S (S n))) by lia.
Qed.

Lemma run_breaching_firing tc rc s n :
  snap_State s = FIRING -> NoDataCount s = 0 -> RecoveryCount s = 0 ->
  run tc rc s (replicate n Breaching) = s.
Proof.
  intros Hs Hn Hr. induction n as [|n IH]; [done|].
  rewrite replicate_S_end, run_snoc, IH.
  destruct s; simpl in *; by subst.
Qed.

Lemma run_recovering tc rc s n :
  snap_State s = FIRING -> 0 <= RecoveryCount s ->
  RecoveryCount s + Z.of_nat n < 2 ^ 62 -> (0 < n)%nat ->
  RecoveryCount s + Z.of_nat n <= Z.max (RecoveryCount s + 1) rc ->
  run tc rc s (replicate n Recovering) =
  MkSnapshot (if rc <=? RecoveryCount s + Z.of_nat n then RECOVERED else FIRING)
    (StateBeforeNoData s) 0 (RecoveryCount s + Z.of_nat n) 0.
Proof.
  revert s. induction n as [|n IH]; intros s Hs Hb Hlt Hn Hrc; [lia|].
  change (run tc rc s (replicate (S n) Recovering))
    with (run tc rc (Step s Recovering tc rc) (replicate n Recovering)).
  destruct s as [state before breach recovery nodata];
    cbn [snap_State RecoveryCount StateBeforeNoData] in *; subst; simpl.
  rewrite incr_id by lia.
  destruct n as [|n]; [done|].
  rewrite (proj2 (Z.leb_gt rc (recovery + 1))) by lia.
  rewrite IH; cbn [snap_State RecoveryCount StateBeforeNoData]; auto; try lia.
  by replace (recovery + 1 + Z.of_nat (S n)) with (recovery + Z.of_nat (S (S n))) by lia.
Qed.

(** Two or more missing evaluations suspend a state and remember it. *)
Lemma run_missing tc rc s n :
  resumable (snap_State s) -> StateBeforeNoData s = NoState ->
  0 <= NoDataCount s <= 1 -> Z.of_nat n < 2 ^ 61 -> (2 <= n)%nat ->
  run tc rc s (replicate n Missing) =
  MkSnapshot NO_DATA (snap_State s) 0 0 (NoDataCount s + Z.of_nat n).
Proof.
  destruct s as [state before breach recovery nodata]; simpl.
  intros Hs -> Hnd. induction n as [|n IH]; intros Hlt Hn; [lia|].
  rewrite replicate_S_end, run_snoc.
  destruct (decide (n = 1)%nat) as [->|Hn1].
  - simpl. assert (nodata = 0 \/ nodata = 1) as [->| ->] by lia;
      destruct Hs as [->|[->| ->]]; reflexivity.
  - rewrite IH by lia. simpl. rewrite incr_id by lia.
    rewrite andb_false_r. f_equal; lia.
Qed.

(** * Properties *)

(** C29. Every snapshot an alert can reach is well formed: it remembers a state
    exactly while it is in [NO_DATA], that state is one to resume, its counters
    are not negative, and no counter sits at its limit in a state that still
    waits for it. *)
Theorem reachable_snapshot_wf (triggerCount recoveryCount : Z) (es : list Evaluation) :
  triggerCount < 2 ^ 62 -> recoveryCount < 2 ^ 62 -> Z.of_nat (length es) < 2 ^ 62 ->
  wf_snapshot triggerCount recoveryCount (run triggerCount recoveryCount InitialSnapshot es).
Proof. intros. by apply run_tracks. Qed.

Lemma reachable_snapshot_wf_witness :
  wf_snapshot 3 2 (run 3 2 InitialSnapshot [Breaching; Breaching; Breaching; Missing; Missing]).
Proof. apply reachable_snapshot_wf; simpl; lia. Defined.

(** C30. An alert fires only on evidence: when an evaluation moves an alert that
    was not firing and not suspended into [FIRING], the rule's last
    [triggerCount] evaluations were all breaches. *)
Theorem firing_needs_consecutive_breaches
    (triggerCount recoveryCount : Z) (es : list Evaluation) (e : Evaluation) :
  triggerCount < 2 ^ 62 -> recoveryCount < 2 ^ 62 -> Z.of_nat (length es) < 2 ^ 61 ->
  let before := run triggerCount recoveryCount InitialSnapshot es in
  let after := run triggerCount recoveryCount InitialSnapshot (es ++ [e]) in
  snap_State before <> FIRING -> snap_State before <> NO_DATA -> snap_State after = FIRING ->
  ends_with (Z.max 1 triggerCount) Breaching (es ++ [e]).
Proof.
  intros Htc Hrc Hlen before after Hf Hn Hafter.
  pose proof (run_tracks triggerCount recoveryCount (es ++ [e]) Htc Hrc) as Htr.
  rewrite length_app in Htr. specialize (Htr ltac:(simpl; lia)).
  pose proof (run_tracks triggerCount recoveryCount es Htc Hrc ltac:(lia)) as Hb.
  pose proof (tr_bound _ _ _ _ Hb) as Hbound. pose proof (wf_breach _ _ _ (tr_wf _ _ _ _ Hb)) as Hpos.
  apply ends_with_weaken with (BreachCount after); [|apply Htr].
  unfold after in *. rewrite run_snoc in *. fold before in Hafter, Hpos, Hbound |- *.
  destruct before as [state sb breach recovery nodata]; simpl in *.
  revert Hafter. destruct e; step_cases; intros; simplify_eq; rewrite ?incr_id in * by lia;
    destruct_and?; try done; lia.
Qed.

Lemma firing_needs_consecutive_breaches_witness :
  ends_with 3 Breaching [Stable; Breaching; Breaching; Breaching].
Proof.
  apply (firing_needs_consecutive_breaches 3 2 [Stable; Breaching; Breaching] Breaching);
    vm_compute; congruence.
Defined.

(** An alert recovers only on evidence: when an evaluation moves an alert
    into [RECOVERED], it was firing and the rule's last [recoveryCount]
    evaluations all met the recovery condition. *)
Theorem recovery_needs_consecutive_recoveries
    (triggerCount recoveryCount : Z) (es : list Evaluation) (e : Evaluation) :
  triggerCount < 2 ^ 62 -> recoveryCount < 2 ^ 62 -> Z.of_nat (length es) < 2 ^ 61 ->
  let before := run triggerCount recoveryCount InitialSnapshot es in
  let after := run triggerCount recoveryCount InitialSnapshot (es ++ [e]) in
  snap_State before <> RECOVERED -> snap_State after = RECOVERED ->
  snap_State before = FIRING /\ ends_with (Z.max 1 recoveryCount) Recovering (es ++ [e]).
Proof.
  intros Htc Hrc Hlen before after Hn Hafter.
  pose proof (run_tracks triggerCount recoveryCount es Htc Hrc ltac:(lia)) as Hb.
  fold before in Hb. destruct Hb as [[] _ _ Hr _ Hbound].
  unfold after in *. rewrite run_snoc in *. fold before in Hafter.
  destruct before as [state sb breach recovery nodata]; simpl in *.
  revert Hafter. destruct e; step_cases; intros; simplify_eq; try done;
    try (destruct wf_before0 as [?|[?|?]]; congruence).
  split; [done|]. apply ends_with_weaken with (recovery + 1); rewrite ?incr_id in * by lia;
    [lia|auto with monitor].
Qed.

Lemma recovery_needs_consecutive_recoveries_witness :
  snap_State (run 1 2 InitialSnapshot [Breaching; Recovering]) = FIRING /\
  ends_with 2 Recovering [Breaching; Recovering; Recovering].
Proof.
  apply (recovery_needs_consecutive_recoveries 1 2 [Breaching; Recovering] Recovering);
    vm_compute; congruence.
Defined.

(** The trigger count is exact: a quiet alert that sees nothing but breaches
    is [PENDING] until the [triggerCount]-th of them and [FIRING] from then on. *)
Theorem fires_at_trigger_count (triggerCount recoveryCount : Z) (s : Snapshot) (n : nat) :
  (snap_State s = OK \/ snap_State s = RECOVERED) -> BreachCount s = 0 ->
  triggerCount < 2 ^ 61 -> Z.of_nat n < 2 ^ 61 -> (0 < n)%nat ->
  snap_State (run triggerCount recoveryCount s (replicate n Breaching)) =
  if Z.max 1 triggerCount <=? Z.of_nat n then FIRING else PENDING.
Proof.
  intros Hs Hb Htc Hn Hpos. remember (Z.to_nat (Z.max 1 triggerCount)) as k eqn:Hk.
  destruct (Z.leb_spec (Z.max 1 triggerCount) (Z.of_nat n)).
  - replace (replicate n Breaching) with (replicate k Breaching ++ replicate (n - k) Breaching)
      by (rewrite <-replicate_add; f_equal; lia).
    rewrite run_app, (run_breaching _ _ s) by (tauto || lia). rewrite Hb.
    rewrite (proj2 (Z.leb_le triggerCount _)) by lia.
    by rewrite run_breaching_firing.
  - rewrite run_breaching by (tauto || lia). rewrite Hb. simpl.
    by rewrite (proj2 (Z.leb_gt triggerCount _)) by lia.
Qed.

Lemma fires_at_trigger_count_witness :
  snap_State (run 3 2 InitialSnapshot (replicate 2 Breaching)) = PENDING /\
  snap_State (run 3 2 InitialSnapshot (replicate 3 Breaching)) = FIRING.
Proof.
  split; [apply (fires_at_trigger_count 3 2 InitialSnapshot 2)
         |apply (fires_at_trigger_count 3 2 InitialSnapshot 3)]; simpl; auto; lia.
Defined.

(** Missing data suspends an alert and loses nothing: after two or more
    missing evaluations the alert is in [NO_DATA] whatever their number, and the
    first evaluation with a value resumes the state it was in, with every counter
    restarted. *)
Theorem no_data_resumes (triggerCount recoveryCount : Z) (s : Snapshot) (n : nat) (e : Evaluation) :
  wf_snapshot triggerCount recoveryCount s -> resumable (snap_State s) ->
  Z.of_nat n < 2 ^ 61 -> (2 <= n)%nat -> e <> Missing -> e <> MissingIgnored ->
  snap_State (run triggerCount recoveryCount s (replicate n Missing)) = NO_DATA /\
  run triggerCount recoveryCount s (replicate n Missing ++ [e]) =
  MkSnapshot (snap_State s) NoState 0 0 0.
Proof.
  intros Hwf Hs Hn Hle H1 H2.
  assert (run triggerCount recoveryCount s (replicate n Missing) =
          MkSnapshot NO_DATA (snap_State s) 0 0 (NoDataCount s + Z.of_nat n)) as Hrun.
  { destruct Hwf. apply run_missing; auto.
    apply wf_no_before0. destruct Hs as [->|[->| ->]]; done. }
  rewrite run_snoc, Hrun. split; [done|]. by destruct e.
Qed.

Lemma no_data_resumes_witness :
  run 2 2 (MkSnapshot FIRING NoState 2 0 0) [Missing; Missing; Missing; Stable] =
  MkSnapshot FIRING NoState 0 0 0.
Proof.
  refine (proj2 (no_data_resumes 2 2 (MkSnapshot FIRING NoState 2 0 0) 3 Stable _ _ _ _ _ _));
    [ constructor; simpl; unfold resumable; intros; first [lia | congruence | intuition congruence]
    | right; right; reflexivity | lia | lia | done | done ].
Defined.

(** The events of an evaluation describe its transition: [FIRED] exactly on
    entering [FIRING] from a state that is neither firing nor suspended,
    [RECOVERED] exactly on the firing-to-recovered edge, the [NO_DATA] events
    exactly on entering and leaving suspension, and never two events at once. *)
Theorem step_events_describe (triggerCount recoveryCount : Z) (es : list Evaluation) (e : Evaluation) :
  triggerCount < 2 ^ 62 -> recoveryCount < 2 ^ 62 -> Z.of_nat (length es) < 2 ^ 62 ->
  let s := run triggerCount recoveryCount InitialSnapshot es in
  events_describe (snap_State s) (snap_State (Step s e triggerCount recoveryCount)).
Proof. intros. by apply Step_events, run_tracks. Qed.

Lemma step_events_describe_witness :
  events_describe PENDING (snap_State (Step (MkSnapshot PENDING NoState 1 0 0) Breaching 2 2)).
Proof. apply (step_events_describe 2 2 [Breaching] Breaching); simpl; lia. Defined.
