(* ===== verification/AlertEvaluation.v ===== *)
(** Rule evaluation of [internal/alerting/evaluation.go]: the aggregation of a
    rule's window, the comparison operators and the three-way verdict. *)

From S2P Require Import Prelude AlertState.

Record Point : Type := MkPoint {
  Timestamp : Time;
  Value : float64;
}.


(** The loop variables of [AggregateWindow]. *)
Record Aggregate : Type := MkAggregate {
  agg_value : float64;
  latestTimestamp : Time;
  sampleCount : Z;
}.

Definition in_window (now : Time) (window : Duration) (p : Point) : bool :=
  After (Timestamp p) (TimeAdd now (- window)) && negb (After (Timestamp p) now).

(** One iteration of the loop on a point inside the window; [None] is the
    [return 0, false] of the [default] case. *)
Definition aggregate_point (aggregation : string) (a : Aggregate) (p : Point) : option Aggregate :=
  let '(MkAggregate value latest count) := a in
  let count := incr count in
  if bool_decide (aggregation = "latest") then
    if IsZero latest || After (Timestamp p) latest
    then Some (MkAggregate (Value p) (Timestamp p) count)
    else Some (MkAggregate value latest count)
  else if bool_decide (aggregation = "avg") || bool_decide (aggregation = "sum") then
    Some (MkAggregate (value + Value p)%f64 latest count)
  else if bool_decide (aggregation = "max") then
    Some (MkAggregate (if (count =? 1) || (Value p >? value)%f64 then Value p else value) latest count)
  else if bool_decide (aggregation = "min") then
    Some (MkAggregate (if (count =? 1) || (Value p <? value)%f64 then Value p else value) latest count)
  else if bool_decide (aggregation = "count") then
    Some (MkAggregate (f64_of_Z count) latest count)
  else None.

Fixpoint aggregate_loop (now : Time) (window : Duration) (aggregation : string)
    (a : Aggregate) (points : list Point) : option Aggregate :=
  match points with
  | [] => Some a
  | p :: rest =>
      if in_window now window p then
        match aggregate_point aggregation a p with
        | Some a' => aggregate_loop now window aggregation a' rest
        | None => None
        end
      else aggregate_loop now window aggregation a rest
  end.

(** The zero values of the declared variables. *)
Definition aggregate_start : Aggregate := MkAggregate (S754_zero false) ZeroTime 0.

(** [(value, true)] is [Some value], [(0, false)] is [None]. *)
Definition AggregateWindow (points : list Point) (now : Time) (window : Duration)
    (aggregation : string) : option float64 :=
  match aggregate_loop now window aggregation aggregate_start points with
  | None => None
  | Some a =>
      if sampleCount a =? 0 then None
      else if bool_decide (aggregation = "avg")
      then Some (agg_value a / f64_of_Z (sampleCount a))%f64
      else Some (agg_value a)
  end.

Definition Compare (value : float64) (operator : string) (threshold : float64) : bool :=
  if bool_decide (operator = ">") then (value >? threshold)%f64
  else if bool_decide (operator = ">=") then (value >=? threshold)%f64
  else if bool_decide (operator = "<") then (value <? threshold)%f64
  else if bool_decide (operator = "<=") then (value <=? threshold)%f64
  else if bool_decide (operator = "=") then (value =? threshold)%f64
  else if bool_decide (operator = "!=") then negb (value =? threshold)%f64
  else false.

Definition Evaluate (value : float64) (operator : string) (threshold : float64)
    (recoveryOperator : string) (recoveryThreshold : float64) : Evaluation :=
  if Compare value operator threshold then Breaching
  else if Compare value recoveryOperator recoveryThreshold then Recovering
  else Stable.

(** * The aggregation as a specification *)

(** The points of the window, in their order. *)
Definition window_points (now : Time) (window : Duration) (points : list Point) : list Point :=
  filter (fun p => in_window now window p = true) points.

(** What each aggregation means for a non-empty window. *)
Definition aggregates_to (aggregation : string) (ps : list Point) (v : float64) : Prop :=
  (aggregation = "latest" /\
     exists p, p ∈ ps /\ Value p = v /\ forall q, q ∈ ps -> After (Timestamp q) (Timestamp p) = false) \/
  (aggregation = "sum" /\ v = foldl f64_add (S754_zero false) (map Value ps)) \/
  (aggregation = "avg" /\
     v = (foldl f64_add (S754_zero false) (map Value ps) / f64_of_Z (Z.of_nat (length ps)))%f64) \/
  (aggregation = "max" /\
     (exists p, p ∈ ps /\ Value p = v) /\ forall q, q ∈ ps -> (Value q >? v)%f64 = false) \/
  (aggregation = "min" /\
     (exists p, p ∈ ps /\ Value p = v) /\ forall q, q ∈ ps -> (Value q <? v)%f64 = false) \/
  (aggregation = "count" /\ v = f64_of_Z (Z.of_nat (length ps))).

Definition known_aggregation (aggregation : string) : Prop :=
  aggregation ∈ ["latest"; "sum"; "avg"; "max"; "min"; "count"].

Fixpoint fold_points (aggregation : string) (a : Aggregate) (ps : list Point) : option Aggregate :=
  match ps with
  | [] => Some a
  | p :: rest => aggregate_point aggregation a p ≫= fun a' => fold_points aggregation a' rest
  end.

Lemma aggregate_loop_filter now window aggregation a points :
  aggregate_loop now window aggregation a points =
  fold_points aggregation a (window_points now window points).
Proof.
  revert a. unfold window_points. induction points as [|p points IH]; intros a; simpl; [done|].
  destruct (in_window now window p) eqn:E.
  - rewrite filter_cons_True by done. simpl. destruct (aggregate_point aggregation a p); simpl; auto.
  - rewrite filter_cons_False by congruence. auto.
Qed.

(** What the loop variables say about the points consumed so far. *)
Record summarises (aggregation : string) (ps : list Point) (a : Aggregate) : Prop := {
  sum_count : sampleCount a = Z.of_nat (length ps);
  sum_latest : aggregation = "latest" ->
    (ps = [] /\ latestTimestamp a = ZeroTime) \/
    exists p, p ∈ ps /\ Value p = agg_value a /\ Timestamp p = latestTimestamp a /\
      forall q, q ∈ ps -> Timestamp q <= latestTimestamp a;
  sum_add : aggregation = "avg" \/ aggregation = "sum" ->
    agg_value a = foldl f64_add (S754_zero false) (map Value ps);
  sum_max : aggregation = "max" -> ps <> [] ->
    (exists p, p ∈ ps /\ Value p = agg_value a) /\
    forall q, q ∈ ps -> SFltb (agg_value a) (Value q) = false;
  sum_min : aggregation = "min" -> ps <> [] ->
    (exists p, p ∈ ps /\ Value p = agg_value a) /\
    forall q, q ∈ ps -> SFltb (Value q) (agg_value a) = false;
  sum_counted : aggregation = "count" -> ps <> [] ->
    agg_value a = f64_of_Z (Z.of_nat (length ps));
}.

Lemma summarises_start aggregation : summarises aggregation [] aggregate_start.
Proof. split; simpl; auto; done. Qed.

(** The maximum and the minimum are one argument, for an order [gt] that is
    transitive: keeping the first value no later one beats. *)
Lemma keep_best (gt : float64 -> float64 -> bool) ps v p :
  (forall x y z, gt x y = true -> gt y z = true -> gt x z = true) ->
  (forall x, gt x x = false) ->
  (exists q, q ∈ ps /\ Value q = v) -> (forall q, q ∈ ps -> gt (Value q) v = false) ->
  let v' := if gt (Value p) v then Value p else v in
  (exists q, q ∈ ps ++ [p] /\ Value q = v') /\
  forall q, q ∈ ps ++ [p] -> gt (Value q) v' = false.
Proof.
  intros Htrans Hirr [q [Hq Hv]] Hall v'. unfold v'. destruct (gt (Value p) v) eqn:E.
  - split; [exists p; rewrite elem_of_app; split; [right; by left|done]|].
    intros r [Hr|Hr]%elem_of_app.
    + apply not_true_iff_false. intros Hgt.
      pose proof (Htrans _ _ _ Hgt E) as H. by rewrite Hall in H.
    + apply list_elem_of_singleton in Hr as ->. apply Hirr.
  - split; [exists q; rewrite elem_of_app; split; [by left|done]|].
    intros r [Hr|Hr]%elem_of_app; [auto|]. by apply list_elem_of_singleton in Hr as ->.
Qed.

Lemma keep_first (gt : float64 -> float64 -> bool) (p : Point) :
  (forall x, gt x x = false) ->
  (exists q, q ∈ [p] /\ Value q = Value p) /\ forall q, q ∈ [p] -> gt (Value q) (Value p) = false.
Proof.
  intros Hirr. split; [exists p; split; [by left|done]|].
  intros q ->%list_elem_of_singleton. apply Hirr.
Qed.

(** The loop body for each aggregation the code names. *)
Lemma aggregate_point_latest value latest count p :
  aggregate_point "latest" (MkAggregate value latest count) p =
  Some (if IsZero latest || After (Timestamp p) latest
        then MkAggregate (Value p) (Timestamp p) (incr count)
        else MkAggregate value latest (incr count)).
Proof. unfold aggregate_point; simpl. by case_match. Qed.

Lemma aggregate_point_add aggregation value latest count p :
  aggregation = "avg" \/ aggregation = "sum" ->
  aggregate_point aggregation (MkAggregate value latest count) p =
  Some (MkAggregate (value + Value p)%f64 latest (incr count)).
Proof. by intros [->| ->]. Qed.

Lemma aggregate_point_unknown aggregation a p :
  ~ known_aggregation aggregation -> aggregate_point aggregation a p = None.
Proof.
  unfold known_aggregation, aggregate_point. destruct a.
  rewrite !elem_of_cons, elem_of_nil. intros.
  rewrite !bool_decide_eq_false_2 by tauto. done.
Qed.

Lemma incr_length (ps : list Point) p :
  Z.of_nat (length ps) < 2 ^ 62 -> incr (Z.of_nat (length ps)) = Z.of_nat (length (ps ++ [p])).
Proof. intros. rewrite incr_id, length_app; simpl; lia. Qed.

Lemma length_snoc_one (ps : list Point) p :
  (Z.of_nat (length (ps ++ [p])) =? 1) = bool_decide (ps = []).
Proof.
  rewrite length_app. destruct ps; [done|].
  rewrite bool_decide_eq_false_2 by done. apply Z.eqb_neq. simpl length. lia.
Qed.

Lemma aggregate_point_summarises aggregation ps a p :
  known_aggregation aggregation -> Z.of_nat (length ps) < 2 ^ 62 -> ZeroTime <= Timestamp p ->
  summarises aggregation ps a ->
  exists a', aggregate_point aggregation a p = Some a' /\ summarises aggregation (ps ++ [p]) a'.
Proof.
  intros Hk Hlen Hts [Hc Hl Ha Hmax Hmin Hcnt].
  destruct a as [value latest count]; cbn [sampleCount agg_value latestTimestamp] in *.
  pose proof (incr_length ps p Hlen) as Hincr. rewrite <-Hc in Hincr.
  unfold known_aggregation in Hk. rewrite !elem_of_cons, elem_of_nil in Hk.
  destruct Hk as [->|[->|[->|[->|[->|[->|[]]]]]]].
  - rewrite aggregate_point_latest. eexists; split; [done|].
    split; try (intros; destruct_or?; done).
    + by case_match.
    + intros _. right. destruct (Hl eq_refl) as [[-> ->]|(q&Hq&Hv&Ht&Hle)].
      { exists p. simpl. split_and!; [by left|done..|]. intros r ->%list_elem_of_singleton. lia. }
      unfold IsZero, After. destruct (latest =? ZeroTime) eqn:E, (latest <? Timestamp p) eqn:E2;
        bool_to_prop; simpl.
      1-3: exists p; split_and!; [apply elem_of_app; right; by left|done..|];
        intros r [Hr%Hle| ->%list_elem_of_singleton]%elem_of_app; lia.
      exists q; split_and!; [apply elem_of_app; by left|done..|].
      intros r [Hr%Hle| ->%list_elem_of_singleton]%elem_of_app; lia.
  - rewrite aggregate_point_add by auto. eexists; split; [done|].
    split; simpl; try (intros; destruct_or?; done); auto.
    intros _. rewrite map_app, foldl_app, Ha by auto. done.
  - rewrite aggregate_point_add by auto. eexists; split; [done|].
    split; simpl; try (intros; destruct_or?; done); auto.
    intros _. rewrite map_app, foldl_app, Ha by auto. done.
  - eexists; split; [reflexivity|].
    split; simpl; try (intros; destruct_or?; done); auto.
    intros _ _. rewrite Hincr, length_snoc_one. destruct (decide (ps = [])) as [->|Hne].
    + apply (keep_first (fun x y => SFltb y x)), SFltb_irrefl.
    + rewrite bool_decide_eq_false_2 by done. destruct (Hmax eq_refl Hne).
      apply (keep_best (fun x y => SFltb y x)); auto using SFltb_irrefl.
      intros x y z Hxy Hyz. by apply SFltb_trans with y.
  - eexists; split; [reflexivity|].
    split; simpl; try (intros; destruct_or?; done); auto.
    intros _ _. rewrite Hincr, length_snoc_one. destruct (decide (ps = [])) as [->|Hne].
    + apply (keep_first SFltb), SFltb_irrefl.
    + rewrite bool_decide_eq_false_2 by done. destruct (Hmin eq_refl Hne).
      apply (keep_best SFltb); auto using SFltb_irrefl.
      intros x y z Hxy Hyz. by apply SFltb_trans with y.
  - eexists; split; [reflexivity|].
    split; simpl; try (intros; destruct_or?; done); auto.
    intros _ _. by rewrite Hincr.
Qed.

Lemma fold_points_summarises aggregation ps a rest :
  known_aggregation aggregation -> Z.of_nat (length (ps ++ rest)) < 2 ^ 62 ->
  Forall (fun p => ZeroTime <= Timestamp p) rest -> summarises aggregation ps a ->
  exists a', fold_points aggregation a rest = Some a' /\ summarises aggregation (ps ++ rest) a'.
Proof.
  intros Hk Hlen Hall. revert ps a Hlen. induction Hall as [|p rest Hp Hall IH]; intros ps a Hlen Hs.
  { exists a. by rewrite app_nil_r. }
  rewrite !length_app in Hlen; simpl in Hlen.
  destruct (aggregate_point_summarises aggregation ps a p) as (a1&E1&Hs1); try done; [lia|].
  destruct (IH (ps ++ [p]) a1) as (a2&E2&Hs2); [rewrite !length_app; simpl; lia|done|].
  exists a2. simpl. rewrite E1. simpl. by rewrite <-app_assoc in Hs2.
Qed.

(** * Properties *)

(** [AggregateWindow] meets its specification on every input: it gives no
    value exactly when the window [(now - window, now]] holds no point or the
    aggregation is not one of the six, and otherwise the newest value, the
    left-to-right sum, that sum divided by the count, a maximal value, a minimal
    value or the count of exactly the points in the window. *)
Theorem AggregateWindow_spec (points : list Point) (now : Time) (window : Duration)
    (aggregation : string) :
  Z.of_nat (length points) < 2 ^ 62 -> Forall (fun p => ZeroTime <= Timestamp p) points ->
  match AggregateWindow points now window aggregation with
  | None => window_points now window points = [] \/ ~ known_aggregation aggregation
  | Some v => known_aggregation aggregation /\ window_points now window points <> [] /\
              aggregates_to aggregation (window_points now window points) v
  end.
Proof.
  intros Hlen Hts. unfold AggregateWindow. rewrite aggregate_loop_filter.
  set (ps := window_points now window points).
  assert (Forall (fun p => ZeroTime <= Timestamp p) ps) as Hps
    by (apply Forall_forall; intros p Hp; apply list_elem_of_filter in Hp as [_ Hp];
        rewrite Forall_forall in Hts; auto).
  assert (length ps <= length points)%nat as Hle by apply length_filter.
  destruct (decide (known_aggregation aggregation)) as [Hk|Hk].
  - destruct (fold_points_summarises aggregation [] aggregate_start ps) as (a&->&Hs);
      auto using summarises_start; [simpl; lia|].
    destruct Hs as [Hc Hl Ha Hmax Hmin Hcnt]; simpl in *. rewrite Hc.
    destruct (Z.of_nat (length ps) =? 0) eqn:E0; bool_to_prop.
    { left. apply nil_length_inv. lia. }
    assert (ps <> []) as Hne by (intros ->; simpl in E0; lia).
    unfold aggregates_to. case_bool_decide as Havg.
    + split_and!; [done|done|]. subst. rewrite Ha by auto. tauto.
    + split_and!; [done|done|]. unfold known_aggregation in Hk.
      rewrite !elem_of_cons, elem_of_nil in Hk.
      destruct Hk as [->|[->|[->|[->|[->|[->|[]]]]]]]; try done.
      * left. split; [done|]. destruct (Hl eq_refl) as [[? _]|(p&?&?&Ht&Hmx)]; [done|].
        exists p. split_and!; [done..|]. intros q Hq%Hmx. unfold After. apply Z.ltb_ge. lia.
      * rewrite Ha by auto. tauto.
      * destruct (Hmax eq_refl Hne). tauto.
      * destruct (Hmin eq_refl Hne). tauto.
      * rewrite Hcnt by done. tauto.
  - destruct ps as [|p ps]; [by left|]. cbn [fold_points].
    rewrite aggregate_point_unknown by done. by right.
Qed.

Lemma AggregateWindow_spec_witness :
  aggregates_to "max" [MkPoint 20 (f64_of_Z 7); MkPoint 30 (f64_of_Z 5)] (f64_of_Z 7).
Proof.
  exact (proj2 (proj2 (AggregateWindow_spec
    [MkPoint 10 (f64_of_Z 9); MkPoint 20 (f64_of_Z 7); MkPoint 30 (f64_of_Z 5)] 30 20 "max"
    ltac:(simpl; lia) ltac:(repeat constructor; vm_compute; congruence)))).
Defined.
