(* ===== verification/AlertHealth.v ===== *)
(** The health of an instance, [internal/alerting/health.go]: the roll-up of its
    alerts into one status, the alert the status is attributed to, the counts
    and the flags, against a specification over the alerts that count. *)

From S2P Require Import Prelude AlertState.

Definition RecentRecoveryWindow : Duration := 24 * Hour.

Inductive HealthStatus : Type :=
  | HealthCritical
  | HealthWarning
  | HealthUnknown
  | HealthHealthy
  | HealthPaused.

(** [type Severity string]: the three severities and any other text. *)
Inductive Severity : Type :=
  | SeverityCritical
  | SeverityWarning
  | SeverityInfo
  | SeverityOther (text : string).

#[export] Instance Severity_eq_dec : EqDecision Severity.
Proof. solve_decision. Defined.

Inductive HealthAlertExclusion : Type :=
  | HealthAlertIncluded
  | HealthAlertStructurallyNotApplicable
  | HealthAlertConfigurationMissing.

#[export] Instance HealthAlertExclusion_eq_dec : EqDecision HealthAlertExclusion.
Proof. solve_decision. Defined.

Record HealthAlert : Type := MkHealthAlert {
  ha_RuleName : string;
  ha_Severity : Severity;
  ha_State : State;
  ha_FirstTriggeredAt : Time;
  ha_CurrentValue : option float64;
  ha_RecoveredAt : option Time;
  ha_Ignored : bool;
  ha_Exclusion : HealthAlertExclusion;
}.

#[export] Instance HealthAlert_eq_dec : EqDecision HealthAlert.
Proof. solve_decision. Defined.

Record HealthRollupInput : Type := MkHealthRollupInput {
  in_Paused : bool;
  in_EverCollected : bool;
  in_InMaintenance : bool;
  in_ConfigurationMissing : Z;
  in_Now : Time;
  in_Alerts : list HealthAlert;
}.

Record HealthAttribution : Type := MkHealthAttribution {
  attr_RuleName : string;
  attr_CurrentValue : option float64;
}.

Record HealthAlertCounts : Type := MkHealthAlertCounts {
  count_Critical : Z;
  count_Warning : Z;
  count_Info : Z;
}.

Record HealthFlags : Type := MkHealthFlags {
  flag_NoData : bool;
  flag_InMaintenance : bool;
  flag_RecentlyRecovered : bool;
  flag_Ignored : Z;
  flag_ConfigurationMissing : Z;
}.

Record HealthRollup : Type := MkHealthRollup {
  roll_Status : HealthStatus;
  roll_Attribution : option HealthAttribution;
  roll_Counts : HealthAlertCounts;
  roll_Flags : HealthFlags;
}.

Definition recoveredRecently (recoveredAt : option Time) (now : Time) : bool :=
  match recoveredAt with
  | None => false
  | Some at_ => negb (Before at_ (TimeAdd now (- RecentRecoveryWindow))) && negb (After at_ now)
  end.

Definition severityRank (severity : Severity) : Z :=
  match severity with
  | SeverityCritical => 3
  | SeverityWarning => 2
  | SeverityInfo => 1
  | SeverityOther _ => 0
  end.

Definition hasHigherAttributionPriority (candidate current : HealthAlert) : bool :=
  let candidateRank := severityRank (ha_Severity candidate) in
  let currentRank := severityRank (ha_Severity current) in
  if negb (candidateRank =? currentRank) then currentRank <? candidateRank
  else Before (ha_FirstTriggeredAt candidate) (ha_FirstTriggeredAt current).

(** The variables of the loop: the counts and flags of [result], and
    [attributed]. *)
Record RollupLoop : Type := MkRollupLoop {
  loop_counts : HealthAlertCounts;
  loop_flags : HealthFlags;
  loop_attributed : option HealthAlert;
}.

Definition count_severity (severity : Severity) (c : HealthAlertCounts) : HealthAlertCounts :=
  let '(MkHealthAlertCounts critical warning info) := c in
  match severity with
  | SeverityCritical => MkHealthAlertCounts (incr critical) warning info
  | SeverityWarning => MkHealthAlertCounts critical (incr warning) info
  | SeverityInfo => MkHealthAlertCounts critical warning (incr info)
  | SeverityOther _ => c
  end.

Definition rollup_alert (now : Time) (l : RollupLoop) (alert : HealthAlert) : RollupLoop :=
  let '(MkRollupLoop counts (MkHealthFlags noData maintenance recovered ignored missing) attributed) := l in
  if negb (bool_decide (ha_Exclusion alert = HealthAlertIncluded)) then l
  else if bool_decide (ha_State alert = RECOVERED) then
    if recoveredRecently (ha_RecoveredAt alert) now
    then MkRollupLoop counts (MkHealthFlags noData maintenance true ignored missing) attributed
    else l
  else if negb (bool_decide (ha_State alert = FIRING)) && negb (bool_decide (ha_State alert = NO_DATA))
  then l
  else
    let noData := if bool_decide (ha_State alert = NO_DATA) then true else noData in
    if ha_Ignored alert
    then MkRollupLoop counts (MkHealthFlags noData maintenance recovered (incr ignored) missing) attributed
    else
      MkRollupLoop (count_severity (ha_Severity alert) counts)
        (MkHealthFlags noData maintenance recovered ignored missing)
        (match attributed with
         | None => Some alert
         | Some current =>
             if hasHigherAttributionPriority alert current then Some alert else attributed
         end).

Definition rollup_start (input : HealthRollupInput) : RollupLoop :=
  MkRollupLoop (MkHealthAlertCounts 0 0 0)
    (MkHealthFlags false (in_InMaintenance input) false 0 (in_ConfigurationMissing input)) None.

Definition RollupInstanceHealth (input : HealthRollupInput) : HealthRollup :=
  let '(MkRollupLoop counts flags attributed) :=
    foldl (rollup_alert (in_Now input)) (rollup_start input) (in_Alerts input) in
  MkHealthRollup
    (if in_Paused input then HealthPaused
     else if 0 <? count_Critical counts then HealthCritical
     else if 0 <? count_Warning counts then HealthWarning
     else if negb (in_EverCollected input) then HealthUnknown
     else HealthHealthy)
    (match attributed with
     | None => None
     | Some alert => Some (MkHealthAttribution (ha_RuleName alert) (ha_CurrentValue alert))
     end)
    counts flags.

(** * Specification *)

(** The alerts that are open: included, and firing or without data. *)
Definition is_open (a : HealthAlert) : bool :=
  bool_decide (ha_Exclusion a = HealthAlertIncluded) &&
  (bool_decide (ha_State a = FIRING) || bool_decide (ha_State a = NO_DATA)).

(** The open alerts an operator has not ignored: the ones that make the status. *)
Definition counting (alerts : list HealthAlert) : list HealthAlert :=
  filter (fun a => is_open a && negb (ha_Ignored a) = true) alerts.

Definition of_severity (severity : Severity) (alerts : list HealthAlert) : list HealthAlert :=
  filter (fun a => ha_Severity a = severity) (counting alerts).

(** The alert attributed to: the first of those no counting alert outranks. *)
Definition attributed_first (alerts : list HealthAlert) (a : HealthAlert) : Prop :=
  exists l1 l2, counting alerts = l1 ++ a :: l2 /\
    Forall (fun b => hasHigherAttributionPriority a b = true) l1 /\
    Forall (fun b => hasHigherAttributionPriority b a = false) l2.

Record rollup_spec (input : HealthRollupInput) (r : HealthRollup) : Prop := {
  spec_critical : count_Critical (roll_Counts r) = Z.of_nat (length (of_severity SeverityCritical (in_Alerts input)));
  spec_warning : count_Warning (roll_Counts r) = Z.of_nat (length (of_severity SeverityWarning (in_Alerts input)));
  spec_info : count_Info (roll_Counts r) = Z.of_nat (length (of_severity SeverityInfo (in_Alerts input)));
  spec_status :
    roll_Status r =
    if in_Paused input then HealthPaused
    else if bool_decide (of_severity SeverityCritical (in_Alerts input) <> []) then HealthCritical
    else if bool_decide (of_severity SeverityWarning (in_Alerts input) <> []) then HealthWarning
    else if in_EverCollected input then HealthHealthy else HealthUnknown;
  spec_attribution :
    match roll_Attribution r with
    | None => counting (in_Alerts input) = []
    | Some attribution => exists a, attributed_first (in_Alerts input) a /\
        attribution = MkHealthAttribution (ha_RuleName a) (ha_CurrentValue a)
    end;
  spec_ignored :
    flag_Ignored (roll_Flags r) =
    Z.of_nat (length (filter (fun a => is_open a && ha_Ignored a = true) (in_Alerts input)));
  spec_no_data :
    flag_NoData (roll_Flags r) = true <->
    exists a, a ∈ in_Alerts input /\ ha_Exclusion a = HealthAlertIncluded /\ ha_State a = NO_DATA;
  spec_recovered :
    flag_RecentlyRecovered (roll_Flags r) = true <->
    exists a, a ∈ in_Alerts input /\ ha_Exclusion a = HealthAlertIncluded /\
      ha_State a = RECOVERED /\ recoveredRecently (ha_RecoveredAt a) (in_Now input) = true;
  spec_copied :
    flag_InMaintenance (roll_Flags r) = in_InMaintenance input /\
    flag_ConfigurationMissing (roll_Flags r) = in_ConfigurationMissing input;
}.

(** * The loop meets the specification *)

Lemma priority_trans a b c :
  hasHigherAttributionPriority a b = true -> hasHigherAttributionPriority c b = false ->
  hasHigherAttributionPriority a c = true.
Proof.
  unfold hasHigherAttributionPriority, Before.
  repeat case_match; bool_to_prop; rewrite ?Z.ltb_lt; lia.
Qed.

Record loop_spec (now : Time) (alerts : list HealthAlert) (l : RollupLoop) : Prop := {
  ls_critical : count_Critical (loop_counts l) = Z.of_nat (length (of_severity SeverityCritical alerts));
  ls_warning : count_Warning (loop_counts l) = Z.of_nat (length (of_severity SeverityWarning alerts));
  ls_info : count_Info (loop_counts l) = Z.of_nat (length (of_severity SeverityInfo alerts));
  ls_attributed :
    match loop_attributed l with
    | None => counting alerts = []
    | Some a => attributed_first alerts a
    end;
  ls_ignored : flag_Ignored (loop_flags l) =
    Z.of_nat (length (filter (fun a => is_open a && ha_Ignored a = true) alerts));
  ls_no_data : flag_NoData (loop_flags l) = true <->
    exists a, a ∈ alerts /\ ha_Exclusion a = HealthAlertIncluded /\ ha_State a = NO_DATA;
  ls_recovered : flag_RecentlyRecovered (loop_flags l) = true <->
    exists a, a ∈ alerts /\ ha_Exclusion a = HealthAlertIncluded /\
      ha_State a = RECOVERED /\ recoveredRecently (ha_RecoveredAt a) now = true;
}.

(** How one more alert changes the lists of the specification. *)
Lemma counting_snoc alerts a :
  counting (alerts ++ [a]) = counting alerts ++ (if is_open a && negb (ha_Ignored a) then [a] else []).
Proof. unfold counting. rewrite filter_app, filter_cons. by case_decide; case_match; try done. Qed.

Lemma of_severity_snoc severity alerts a :
  length (of_severity severity (alerts ++ [a])) =
  (length (of_severity severity alerts) +
   (if is_open a && negb (ha_Ignored a) && bool_decide (ha_Severity a = severity) then 1 else 0))%nat.
Proof.
  unfold of_severity. rewrite counting_snoc, filter_app, length_app. f_equal.
  destruct (is_open a && negb (ha_Ignored a)); simpl; [|done].
  rewrite filter_cons. case_decide; case_bool_decide; done.
Qed.

Lemma ignored_snoc alerts a :
  length (filter (fun a => is_open a && ha_Ignored a = true) (alerts ++ [a])) =
  (length (filter (fun a => is_open a && ha_Ignored a = true) alerts) +
   (if is_open a && ha_Ignored a then 1 else 0))%nat.
Proof. rewrite filter_app, length_app, filter_cons. f_equal. by case_decide; case_match. Qed.

Lemma exists_snoc (P : HealthAlert -> Prop) alerts a :
  (exists b, b ∈ alerts ++ [a] /\ P b) <-> (exists b, b ∈ alerts /\ P b) \/ P a.
Proof. set_solver. Qed.

Lemma attributed_snoc alerts a current :
  is_open a && negb (ha_Ignored a) = true -> attributed_first alerts current ->
  attributed_first (alerts ++ [a])
    (if hasHigherAttributionPriority a current then a else current).
Proof.
  intros Ha (l1&l2&Hc&H1&H2). unfold attributed_first. rewrite counting_snoc, Ha, Hc.
  destruct (hasHigherAttributionPriority a current) eqn:E.
  - exists (l1 ++ current :: l2), []. split_and!; [done| |done].
    rewrite Forall_app, Forall_cons. split_and!; [|done|].
    + apply (Forall_impl _ _ _ H1). intros b Hb. apply priority_trans with current; [done|].
      revert Hb. unfold hasHigherAttributionPriority, Before.
      repeat case_match; bool_to_prop; rewrite ?Z.ltb_lt, ?Z.ltb_ge; lia.
    + apply (Forall_impl _ _ _ H2). intros b Hb. by apply priority_trans with current.
  - exists l1, (l2 ++ [a]). split_and!; [by rewrite <-app_assoc|done|].
    by rewrite Forall_app, Forall_singleton.
Qed.

Lemma of_severity_le severity alerts : (length (of_severity severity alerts) <= length alerts)%nat.
Proof. etrans; apply length_filter. Qed.

Lemma rollup_alert_spec now alerts l a :
  Z.of_nat (length alerts) < 2 ^ 62 -> loop_spec now alerts l ->
  loop_spec now (alerts ++ [a]) (rollup_alert now l a).
Proof.
  intros Hlen [Hc Hw Hi Ha Hig Hn Hr].
  destruct l as [[critical warning info] [noData mnt recovered ignored missing] attributed]; simpl in *.
  pose proof (of_severity_le SeverityCritical alerts). pose proof (of_severity_le SeverityWarning alerts).
  pose proof (of_severity_le SeverityInfo alerts).
  assert (length (filter (fun a => is_open a && ha_Ignored a = true) alerts) <= length alerts)%nat
    by apply length_filter.
  assert (attributed_stays : is_open a && negb (ha_Ignored a) = false ->
    match attributed with None => counting (alerts ++ [a]) = []
                        | Some b => attributed_first (alerts ++ [a]) b end).
  { intros E. unfold attributed_first in *. rewrite counting_snoc, E, app_nil_r. done. }
  assert (attributed_moves : is_open a && negb (ha_Ignored a) = true ->
    match match attributed with
          | None => Some a
          | Some b => if hasHigherAttributionPriority a b then Some a else attributed end
    with None => counting (alerts ++ [a]) = [] | Some b => attributed_first (alerts ++ [a]) b end).
  { intros E. destruct attributed as [b|].
    - pose proof (attributed_snoc alerts a b E Ha) as H'.
      by destruct (hasHigherAttributionPriority a b).
    - exists [], []. by rewrite counting_snoc, E, Ha. }
  unfold rollup_alert.
  destruct a as [name sev state first value recov ign excl]; simpl.
  destruct excl; [destruct state; [..|destruct (recoveredRecently recov now) eqn:Hrec]|..].
  all: simpl; try destruct ign; try destruct sev; simpl;
    (split; simpl; rewrite ?of_severity_snoc, ?ignored_snoc, ?exists_snoc; simpl;
     rewrite ?Nat.add_0_r, ?Hc, ?Hw, ?Hi, ?Hig;
     first [ done | by apply attributed_stays | by apply attributed_moves
           | (rewrite incr_id by lia; lia)
           | (rewrite ?Hn, ?Hr, ?Hrec; intuition congruence) | idtac ]).
Qed.

Lemma rollup_loop_spec now input alerts :
  Z.of_nat (length alerts) < 2 ^ 62 ->
  loop_spec now alerts (foldl (rollup_alert now) (rollup_start input) alerts).
Proof.
  induction alerts as [|a alerts IH] using rev_ind; intros Hlen.
  { split; simpl; try done; split; intros; try done; destruct_and?; set_solver. }
  rewrite foldl_app. rewrite length_app in Hlen. simpl.
  apply rollup_alert_spec; [|apply IH]; lia.
Qed.

(** The loop copies the maintenance flag and the configuration count. *)
Lemma rollup_copies now input alerts :
  let l := foldl (rollup_alert now) (rollup_start input) alerts in
  flag_InMaintenance (loop_flags l) = in_InMaintenance input /\
  flag_ConfigurationMissing (loop_flags l) = in_ConfigurationMissing input.
Proof.
  induction alerts as [|a alerts IH] using rev_ind; [done|].
  rewrite foldl_app. revert IH. simpl.
  generalize (foldl (rollup_alert now) (rollup_start input) alerts).
  intros [counts [noData mnt recovered ignored missing] attributed]. simpl. intros IH.
  unfold rollup_alert. by repeat case_match.
Qed.

Lemma nonempty_count {A} (l : list A) `{!Decision (l <> [])} :
  (0 <? Z.of_nat (length l)) = bool_decide (l <> []).
Proof.
  destruct l; [by rewrite bool_decide_eq_false_2 by tauto|].
  rewrite bool_decide_eq_true_2 by done. apply Z.ltb_lt. simpl; lia.
Qed.

(** The roll-up of an instance's alerts is what its specification says,
    whatever the alerts: each count is the number of open, included, not ignored
    alerts of that severity; the status follows from the counts with a pause
    above everything and "never collected" below every alert; the status is
    attributed to the first alert that no counting alert outranks by severity and
    then by age; ignored alerts are only counted as ignored; the flags report
    exactly the alerts without data and the recent recoveries. *)
Theorem RollupInstanceHealth_spec (input : HealthRollupInput) :
  Z.of_nat (length (in_Alerts input)) < 2 ^ 62 -> rollup_spec input (RollupInstanceHealth input).
Proof.
  intros Hlen. pose proof (rollup_loop_spec (in_Now input) input (in_Alerts input) Hlen) as [].
  pose proof (rollup_copies (in_Now input) input (in_Alerts input)) as [].
  unfold RollupInstanceHealth.
  destruct (foldl _ _ _) as [counts flags attributed]; simpl in *.
  split; simpl; try done.
  - rewrite ls_critical0, ls_warning0, !(nonempty_count (of_severity _ _)).
    by destruct (in_Paused input), (in_EverCollected input).
  - destruct attributed; [eauto|done].
Qed.

Lemma RollupInstanceHealth_spec_witness :
  rollup_spec
    (MkHealthRollupInput false true false 0 100
      [MkHealthAlert "cpu" SeverityWarning FIRING 10 None None false HealthAlertIncluded;
       MkHealthAlert "disk" SeverityCritical NO_DATA 20 None None false HealthAlertIncluded])
    (MkHealthRollup HealthCritical (Some (MkHealthAttribution "disk" None))
      (MkHealthAlertCounts 1 1 0) (MkHealthFlags true false false 0 0)).
Proof.
  exact (RollupInstanceHealth_spec
    (MkHealthRollupInput false true false 0 100
      [MkHealthAlert "cpu" SeverityWarning FIRING 10 None None false HealthAlertIncluded;
       MkHealthAlert "disk" SeverityCritical NO_DATA 20 None None false HealthAlertIncluded])
    ltac:(simpl; lia)).
Defined.
