(* ===== verification/Dictionary.v ===== *)
(** The metric dictionary, [internal/metric/dictionary.go], with the engine and
    slot vocabulary of [internal/dbengine/engine.go] and
    [internal/metric/catalog.go]: the metrics, the collection tasks and the
    capabilities the platform knows, as the data the code declares. The functions
    over this data are in [Catalog]. *)

From S2P Require Import Prelude.

(** [type Engine string]. *)
Abbreviation Engine := string (only parsing).
Definition PostgreSQL : Engine := "POSTGRESQL".
Definition Agnostic : Engine := "AGNOSTIC".
Definition EnginePostgreSQL : Engine := PostgreSQL.
Definition EngineAgnostic : Engine := Agnostic.

Definition InstanceEngines : list Engine := [PostgreSQL].
Definition CatalogEngines : list Engine := InstanceEngines ++ [Agnostic].
Definition ValidForInstance (engine : Engine) : bool := bool_decide (engine ∈ InstanceEngines).
Definition ValidForCatalog (engine : Engine) : bool := bool_decide (engine ∈ CatalogEngines).

(** [type MetricID string] and [type SemanticSlot string]; the empty string is
    the absent value of both. *)
Abbreviation MetricID := string (only parsing).
Abbreviation SemanticSlot := string (only parsing).
Definition NoMetric : MetricID := EmptyString.
Definition NoSlot : SemanticSlot := EmptyString.

Definition MetricAvailabilityReachable : MetricID := "pg.availability.reachable".
Definition MetricProbeLatencyMS : MetricID := "pg.probe.latency_ms".
Definition MetricCollectorLastSuccessTime : MetricID := "collector.last_success_time".
Definition MetricAgentStatus : MetricID := "agent.status".
Definition MetricHostCPUUsagePercent : MetricID := "host.cpu.usage_percent".
Definition MetricHostMemoryUsagePercent : MetricID := "host.memory.usage_percent".
Definition MetricHostDiskUsagePercent : MetricID := "host.disk.usage_percent".
Definition MetricHostDiskFreeBytes : MetricID := "host.disk.free_bytes".
Definition MetricHostDiskIOPS : MetricID := "host.disk.iops".
Definition MetricHostDiskThroughputBytesPerS : MetricID := "host.disk.throughput_bytes_per_sec".
Definition MetricHostNetworkBytesPerS : MetricID := "host.network.bytes_per_sec".
Definition MetricConnectionTotal : MetricID := "pg.connection.total".
Definition MetricConnectionActive : MetricID := "pg.connection.active".
Definition MetricConnectionIdleInTransaction : MetricID := "pg.connection.idle_in_transaction".
Definition MetricConnectionMax : MetricID := "pg.connection.max".
Definition MetricConnectionSaturationPercent : MetricID := "pg.connection.saturation_percent".
Definition MetricTPS : MetricID := "pg.tps".
Definition MetricXactCommitPerS : MetricID := "pg.xact.commit_per_sec".
Definition MetricXactRollbackPerS : MetricID := "pg.xact.rollback_per_sec".
Definition MetricTuplesReadPerS : MetricID := "pg.tuples.read_per_sec".
Definition MetricTuplesWritePerS : MetricID := "pg.tuples.write_per_sec".
Definition MetricTempFilesPerS : MetricID := "pg.temp.files_per_sec".
Definition MetricTempBytesPerS : MetricID := "pg.temp.bytes_per_sec".
Definition MetricLongTransactionCount : MetricID := "pg.transaction.long_count".
Definition MetricMaxTransactionDurationSec : MetricID := "pg.transaction.max_duration_sec".
Definition MetricLockWaitingCount : MetricID := "pg.lock.waiting_count".
Definition MetricBlockedSessionCount : MetricID := "pg.session.blocked_count".
Definition MetricLongRunningQueryCount : MetricID := "pg.query.long_running_count".
Definition MetricPreparedXactsCount : MetricID := "pg.prepared_xacts.count".
Definition MetricReplicationRole : MetricID := "pg.replication.role".
Definition MetricReplicationConnectionState : MetricID := "pg.replication.connection_state".
Definition MetricReplicationReplayLagMS : MetricID := "pg.replication.replay_lag_ms".
Definition MetricReplicationWALLagBytes : MetricID := "pg.replication.wal_lag_bytes".
Definition MetricReplicationSlotRetainedWAL : MetricID := "pg.replication_slot.retained_wal_bytes".
Definition MetricCacheHitRatio : MetricID := "pg.cache.hit_ratio".
Definition MetricCacheBlockAccessPerS : MetricID := "pg.cache.block_access_per_sec".
Definition MetricDatabaseSizeBytes : MetricID := "pg.database.size_bytes".
Definition MetricDeadlockCount : MetricID := "pg.deadlock.count".

Definition SlotThroughput : SemanticSlot := "throughput".
Definition SlotConnections : SemanticSlot := "connections".
Definition SlotConnectionSaturation : SemanticSlot := "connection_saturation".
Definition SlotProbeLatency : SemanticSlot := "probe_latency".
Definition SlotRollbackRate : SemanticSlot := "rollback_rate".
Definition SlotReplicationLag : SemanticSlot := "replication_lag".
Definition SlotCacheHitRatio : SemanticSlot := "cache_hit_ratio".
Definition SlotStorageUsage : SemanticSlot := "storage_usage".
Definition SlotDeadlocks : SemanticSlot := "deadlocks".

Record SemanticSlotDeclaration : Type := MkSemanticSlotDeclaration {
  slot_ID : SemanticSlot;
  slot_DisplayName : string;
}.

Definition SemanticSlots : list SemanticSlotDeclaration := [
  MkSemanticSlotDeclaration SlotThroughput "吞吐";
  MkSemanticSlotDeclaration SlotConnections "连接数";
  MkSemanticSlotDeclaration SlotConnectionSaturation "连接饱和度";
  MkSemanticSlotDeclaration SlotProbeLatency "探针延迟";
  MkSemanticSlotDeclaration SlotRollbackRate "回滚率";
  MkSemanticSlotDeclaration SlotReplicationLag "复制延迟";
  MkSemanticSlotDeclaration SlotCacheHitRatio "缓存命中率";
  MkSemanticSlotDeclaration SlotStorageUsage "容量水位";
  MkSemanticSlotDeclaration SlotDeadlocks "死锁数"
].

(** The string enumerations of a catalogue row. *)
Definition LevelInstance : string := "INSTANCE".
Definition LevelDatabase : string := "DATABASE".
Definition AggregationNone : string := "NONE".
Definition AggregationSum : string := "SUM".
Definition AggregationWeightedAverage : string := "WEIGHTED_AVERAGE".
Definition MetricTypeGauge : string := "gauge".
Definition MetricTypeRate : string := "rate".
Definition MetricTypeState : string := "state".
Definition CalculationRaw : string := "raw".
Definition CalculationCounterDelta : string := "counter_delta".
Definition CalculationStateMapping : string := "state_mapping".
Definition ProducerServerTask : string := "server_task".
Definition ProducerAgent : string := "agent".
Definition ProducerControlPlane : string := "control_plane".
Definition AlertabilityYes : string := "yes".
Definition AlertabilityNo : string := "no".
Definition AlertabilityConditional : string := "conditional".

Record Metric : Type := MkMetric {
  metric_ID : MetricID;
  metric_DisplayName : string;
  metric_Engine : Engine;
  metric_Level : string;
  metric_Aggregation : string;
  metric_Weight : MetricID;
  metric_Slot : SemanticSlot;
  metric_Type : string;
  metric_Unit : string;
  metric_Dimensions : list string;
  metric_Calculation : string;
  metric_Standard : bool;
  metric_EnhancedCandidate : bool;
  metric_Alertability : string;
  metric_Producer : string;
}.

#[export] Instance Metric_eq_dec : EqDecision Metric.
Proof. solve_decision. Defined.

Definition Metrics : list Metric := [
  MkMetric MetricAvailabilityReachable "实例连通性" EnginePostgreSQL LevelInstance AggregationNone NoMetric NoSlot
    MetricTypeState "state" ["instance"] CalculationStateMapping true true AlertabilityYes ProducerServerTask;
  MkMetric MetricProbeLatencyMS "主动探针延迟" EnginePostgreSQL LevelInstance AggregationNone NoMetric SlotProbeLatency
    MetricTypeGauge "ms" ["instance"] CalculationRaw true true AlertabilityYes ProducerServerTask;
  MkMetric MetricCollectorLastSuccessTime "最近成功采集时间" EngineAgnostic LevelInstance AggregationNone NoMetric NoSlot
    MetricTypeState "timestamp" ["instance"; "source_type"] CalculationRaw true false AlertabilityYes ProducerControlPlane;
  MkMetric MetricAgentStatus "Agent 状态" EngineAgnostic LevelInstance AggregationNone NoMetric NoSlot
    MetricTypeState "state" ["instance"; "node"] CalculationStateMapping true false AlertabilityYes ProducerControlPlane;
  MkMetric MetricHostCPUUsagePercent "CPU 使用率" EngineAgnostic LevelInstance AggregationNone NoMetric NoSlot
    MetricTypeGauge "percent" ["instance"; "node"] CalculationRaw true true AlertabilityYes ProducerAgent;
  MkMetric MetricHostMemoryUsagePercent "内存使用率" EngineAgnostic LevelInstance AggregationNone NoMetric NoSlot
    MetricTypeGauge "percent" ["instance"; "node"] CalculationRaw true true AlertabilityYes ProducerAgent;
  MkMetric MetricHostDiskUsagePercent "磁盘使用率" EngineAgnostic LevelInstance AggregationNone NoMetric SlotStorageUsage
    MetricTypeGauge "percent" ["instance"; "node"; "mount"] CalculationRaw true true AlertabilityYes ProducerAgent;
  MkMetric MetricHostDiskFreeBytes "磁盘剩余空间" EngineAgnostic LevelInstance AggregationNone NoMetric NoSlot
    MetricTypeGauge "bytes" ["instance"; "node"; "mount"] CalculationRaw true false AlertabilityYes ProducerAgent;
  MkMetric MetricHostDiskIOPS "磁盘 IOPS" EngineAgnostic LevelInstance AggregationNone NoMetric NoSlot
    MetricTypeRate "ops/s" ["instance"; "node"; "device"] CalculationCounterDelta true true AlertabilityYes ProducerAgent;
  MkMetric MetricHostDiskThroughputBytesPerS "磁盘吞吐" EngineAgnostic LevelInstance AggregationNone NoMetric NoSlot
    MetricTypeRate "bytes/s" ["instance"; "node"; "device"] CalculationCounterDelta true true AlertabilityYes ProducerAgent;
  MkMetric MetricHostNetworkBytesPerS "网络流量" EngineAgnostic LevelInstance AggregationNone NoMetric NoSlot
    MetricTypeRate "bytes/s" ["instance"; "node"; "interface"] CalculationCounterDelta true true AlertabilityConditional ProducerAgent;
  MkMetric MetricConnectionTotal "总连接数" EnginePostgreSQL LevelInstance AggregationNone NoMetric SlotConnections
    MetricTypeGauge "count" ["instance"] CalculationRaw true true AlertabilityYes ProducerServerTask;
  MkMetric MetricConnectionActive "活跃连接数" EnginePostgreSQL LevelInstance AggregationNone NoMetric NoSlot
    MetricTypeGauge "count" ["instance"] CalculationRaw true true AlertabilityYes ProducerServerTask;
  MkMetric MetricConnectionIdleInTransaction "idle in transaction 连接数" EnginePostgreSQL LevelInstance AggregationNone NoMetric NoSlot
    MetricTypeGauge "count" ["instance"] CalculationRaw true true AlertabilityYes ProducerServerTask;
  MkMetric MetricConnectionMax "最大连接数" EnginePostgreSQL LevelInstance AggregationNone NoMetric NoSlot
    MetricTypeGauge "count" ["instance"] CalculationRaw true false AlertabilityNo ProducerServerTask;
  MkMetric MetricConnectionSaturationPercent "连接饱和度" EnginePostgreSQL LevelInstance AggregationNone NoMetric SlotConnectionSaturation
    MetricTypeGauge "percent" ["instance"] CalculationRaw true true AlertabilityYes ProducerServerTask;
  MkMetric MetricTPS "TPS" EnginePostgreSQL LevelDatabase AggregationSum NoMetric SlotThroughput
    MetricTypeRate "tx/s" ["instance"; "database"] CalculationCounterDelta true true AlertabilityYes ProducerServerTask;
  MkMetric MetricXactCommitPerS "提交速率" EnginePostgreSQL LevelDatabase AggregationSum NoMetric NoSlot
    MetricTypeRate "tx/s" ["instance"; "database"] CalculationCounterDelta true true AlertabilityConditional ProducerServerTask;
  MkMetric MetricXactRollbackPerS "回滚速率" EnginePostgreSQL LevelDatabase AggregationSum NoMetric SlotRollbackRate
    MetricTypeRate "tx/s" ["instance"; "database"] CalculationCounterDelta true true AlertabilityConditional ProducerServerTask;
  MkMetric MetricTuplesReadPerS "读行速率" EnginePostgreSQL LevelDatabase AggregationSum NoMetric NoSlot
    MetricTypeRate "rows/s" ["instance"; "database"] CalculationCounterDelta true true AlertabilityConditional ProducerServerTask;
  MkMetric MetricTuplesWritePerS "写行速率" EnginePostgreSQL LevelDatabase AggregationSum NoMetric NoSlot
    MetricTypeRate "rows/s" ["instance"; "database"] CalculationCounterDelta true true AlertabilityConditional ProducerServerTask;
  MkMetric MetricTempFilesPerS "临时文件数量速率" EnginePostgreSQL LevelDatabase AggregationSum NoMetric NoSlot
    MetricTypeRate "files/s" ["instance"; "database"] CalculationCounterDelta true true AlertabilityYes ProducerServerTask;
  MkMetric MetricTempBytesPerS "临时文件写入速率" EnginePostgreSQL LevelDatabase AggregationSum NoMetric NoSlot
    MetricTypeRate "bytes/s" ["instance"; "database"] CalculationCounterDelta true true AlertabilityYes ProducerServerTask;
  MkMetric MetricLongTransactionCount "长事务数量" EnginePostgreSQL LevelInstance AggregationNone NoMetric NoSlot
    MetricTypeGauge "count" ["instance"] CalculationRaw true true AlertabilityYes ProducerServerTask;
  MkMetric MetricMaxTransactionDurationSec "最长事务时长" EnginePostgreSQL LevelInstance AggregationNone NoMetric NoSlot
    MetricTypeGauge "seconds" ["instance"] CalculationRaw true true AlertabilityYes ProducerServerTask;
  MkMetric MetricLockWaitingCount "锁等待数量" EnginePostgreSQL LevelInstance AggregationNone NoMetric NoSlot
    MetricTypeGauge "count" ["instance"] CalculationRaw true true AlertabilityYes ProducerServerTask;
  MkMetric MetricBlockedSessionCount "被阻塞会话数" EnginePostgreSQL LevelInstance AggregationNone NoMetric NoSlot
    MetricTypeGauge "count" ["instance"] CalculationRaw true true AlertabilityYes ProducerServerTask;
  MkMetric MetricLongRunningQueryCount "长查询数量" EnginePostgreSQL LevelInstance AggregationNone NoMetric NoSlot
    MetricTypeGauge "count" ["instance"] CalculationRaw true true AlertabilityYes ProducerServerTask;
  MkMetric MetricPreparedXactsCount "2PC 数量" EnginePostgreSQL LevelDatabase AggregationSum NoMetric NoSlot
    MetricTypeGauge "count" ["instance"; "database"] CalculationRaw true false AlertabilityYes ProducerServerTask;
  MkMetric MetricReplicationRole "实例角色" EnginePostgreSQL LevelInstance AggregationNone NoMetric NoSlot
    MetricTypeState "state" ["instance"] CalculationStateMapping true false AlertabilityNo ProducerServerTask;
  MkMetric MetricReplicationConnectionState "复制连接状态" EnginePostgreSQL LevelInstance AggregationNone NoMetric NoSlot
    MetricTypeState "state" ["instance"; "replica"] CalculationStateMapping true true AlertabilityYes ProducerServerTask;
  MkMetric MetricReplicationReplayLagMS "复制回放延迟" EnginePostgreSQL LevelInstance AggregationNone NoMetric SlotReplicationLag
    MetricTypeGauge "ms" ["instance"; "replica"] CalculationRaw true true AlertabilityNo ProducerServerTask;
  MkMetric MetricReplicationWALLagBytes "WAL 延迟字节数" EnginePostgreSQL LevelInstance AggregationNone NoMetric NoSlot
    MetricTypeGauge "bytes" ["instance"; "replica"] CalculationRaw true true AlertabilityYes ProducerServerTask;
  MkMetric MetricReplicationSlotRetainedWAL "Replication slot WAL 积压" EnginePostgreSQL LevelInstance AggregationNone NoMetric NoSlot
    MetricTypeGauge "bytes" ["instance"; "slot"] CalculationRaw true true AlertabilityYes ProducerServerTask;
  MkMetric MetricCacheHitRatio "缓存命中率" EnginePostgreSQL LevelDatabase AggregationWeightedAverage MetricCacheBlockAccessPerS SlotCacheHitRatio
    MetricTypeGauge "percent" ["instance"; "database"] CalculationCounterDelta true true AlertabilityYes ProducerServerTask;
  MkMetric MetricCacheBlockAccessPerS "缓存块访问速率" EnginePostgreSQL LevelDatabase AggregationSum NoMetric NoSlot
    MetricTypeRate "blocks/s" ["instance"; "database"] CalculationCounterDelta true true AlertabilityConditional ProducerServerTask;
  MkMetric MetricDatabaseSizeBytes "数据库体积" EnginePostgreSQL LevelDatabase AggregationSum NoMetric NoSlot
    MetricTypeGauge "bytes" ["instance"; "database"] CalculationRaw true false AlertabilityYes ProducerServerTask;
  MkMetric MetricDeadlockCount "死锁速率" EnginePostgreSQL LevelDatabase AggregationSum NoMetric SlotDeadlocks
    MetricTypeRate "count/s" ["instance"; "database"] CalculationCounterDelta true true AlertabilityYes ProducerServerTask
].

Abbreviation TaskID := string (only parsing).
Definition TaskProbe : TaskID := "pg.probe".
Definition TaskStatDatabase : TaskID := "pg.stat_database".
Definition TaskStatActivity : TaskID := "pg.stat_activity".
Definition TaskReplication : TaskID := "pg.replication".
Definition TaskReplicationSlot : TaskID := "pg.replication_slot".
Definition TaskPreparedXacts : TaskID := "pg.prepared_xacts".
Definition TaskRole : TaskID := "pg.role".
Definition TaskSettings : TaskID := "pg.settings".
Definition TaskDatabaseSize : TaskID := "pg.database_size".
Definition TaskQueryStatistics : TaskID := "pg.stat_statements".

Abbreviation TaskKind := string (only parsing).
Definition TaskKindProbe : string := "probe".
Definition TaskKindSQL : string := "sql".
Definition TaskKindAgentDerived : string := "agent-derived".

Definition DimensionDatabase : string := "database".

Record MetricYield : Type := MkMetricYield {
  yield_Metric : MetricID;
  yield_Columns : list string;
  yield_Dimensions : list string;
}.

#[export] Instance MetricYield_eq_dec : EqDecision MetricYield.
Proof. solve_decision. Defined.

Abbreviation CapabilityID := string (only parsing).
Definition CapabilityRolePGMonitor : CapabilityID := "role.pg_monitor".
Definition CapabilityExtensionPGStatStatements : CapabilityID := "ext.pg_stat_statements".
Definition CapabilityTopologyHasReplication : CapabilityID := "topo.has_replication".
Definition CapabilityTopologyHasSlot : CapabilityID := "topo.has_slot".

Record Task : Type := MkTask {
  task_ID : TaskID;
  task_Kind : TaskKind;
  task_SQL : string;
  task_Requires : list CapabilityID;
  task_Interval : Duration;
  task_Yields : list MetricYield;
}.

#[export] Instance Task_eq_dec : EqDecision Task.
Proof. solve_decision. Defined.

Definition MinimumTaskInterval : Duration := 5 * Second.

(** The queries the tasks send to a monitored server; the platform never looks
    inside them. *)
Definition TaskProbe_SQL : string :=
"SELECT 1".

Definition TaskStatDatabase_SQL : string :=
"SELECT datname::text AS database,
	       COALESCE(sum(xact_commit), 0)::double precision AS xact_commit,
	       COALESCE(sum(xact_rollback), 0)::double precision AS xact_rollback,
	       COALESCE(sum(tup_returned + tup_fetched), 0)::double precision AS tuples_read,
	       COALESCE(sum(tup_inserted + tup_updated + tup_deleted), 0)::double precision AS tuples_write,
	       COALESCE(sum(temp_files), 0)::double precision AS temp_files,
	       COALESCE(sum(temp_bytes), 0)::double precision AS temp_bytes,
	       COALESCE(sum(blks_hit), 0)::double precision AS blks_hit,
	       COALESCE(sum(blks_read), 0)::double precision AS blks_read,
	       COALESCE(sum(deadlocks), 0)::double precision AS deadlocks
FROM pg_stat_database
WHERE datname IS NOT NULL AND datname NOT IN ('template0', 'template1')
GROUP BY datname
ORDER BY datname".

Definition TaskStatActivity_SQL : string :=
"WITH activity AS MATERIALIZED (
    SELECT pid,
           usename::text AS username,
           datname::text AS database_name,
           client_addr::text AS client_address,
           state::text AS state,
           query_start,
           xact_start AS transaction_started_at,
           GREATEST((EXTRACT(epoch FROM statement_timestamp() - query_start) * 1000)::bigint, 0) AS query_duration_ms,
           GREATEST((EXTRACT(epoch FROM statement_timestamp() - xact_start) * 1000)::bigint, 0) AS transaction_duration_ms,
           wait_event_type::text AS wait_event_type,
           wait_event::text AS wait_event,
           pg_blocking_pids(pid) AS blocking_pids,
           application_name IS NOT DISTINCT FROM 'dbs-monitor' AS is_monitor
    FROM pg_stat_activity
), aggregate AS (
    SELECT count(*)::double precision AS connection_total,
           count(*) FILTER (WHERE state = 'active' AND NOT is_monitor)::double precision AS connection_active,
           count(*) FILTER (WHERE state = 'idle in transaction' AND NOT is_monitor)::double precision AS connection_idle_in_transaction,
           count(*) FILTER (WHERE transaction_started_at IS NOT NULL AND statement_timestamp() - transaction_started_at > interval '5 minutes' AND NOT is_monitor)::double precision AS long_transaction_count,
           COALESCE(max(transaction_duration_ms) FILTER (WHERE transaction_started_at IS NOT NULL AND NOT is_monitor), 0)::double precision / 1000 AS max_transaction_duration_sec,
           count(*) FILTER (WHERE wait_event_type = 'Lock' AND NOT is_monitor)::double precision AS lock_waiting_count,
           count(*) FILTER (WHERE cardinality(blocking_pids) > 0 AND NOT is_monitor)::double precision AS blocked_session_count,
           count(*) FILTER (WHERE state = 'active' AND query_start IS NOT NULL AND statement_timestamp() - query_start > interval '5 seconds' AND NOT is_monitor)::double precision AS long_running_query_count,
           -- 饱和度在这里算，因为分子（连接数）本来就是这条查询数出来的：分母 max_connections
           -- 是一次 GUC 内存查表，不读表也不取锁。max_connections 本身作为配置项另有一条低频
           -- 序列（pg.settings / pg.connection.max），供界面显示分母；把分母缓存到跨任务的内存里
           -- 只会换来一份会过期的状态和重启后的一段空窗。
           count(*)::double precision * 100 / current_setting('max_connections')::double precision AS connection_saturation_percent
    FROM activity
), sessions AS (
    SELECT jsonb_build_object(
               'pid', pid, 'username', username, 'database_name', database_name,
               'client_address', client_address, 'state', state,
               'query_started_at', query_start,
               'transaction_started_at', transaction_started_at,
               'query_duration_ms', query_duration_ms,
               'transaction_duration_ms', transaction_duration_ms,
               'wait_event_type', wait_event_type, 'wait_event', wait_event,
               'blocking_pids', blocking_pids
           ) AS value
    FROM activity
    WHERE NOT is_monitor
    ORDER BY pid
    LIMIT 500
), long_queries AS (
    SELECT jsonb_build_object(
               'pid', pid, 'username', username, 'database_name', database_name,
               'client_address', client_address, 'state', state,
               'query_started_at', query_start,
               'transaction_started_at', transaction_started_at,
               'query_duration_ms', query_duration_ms,
               'transaction_duration_ms', transaction_duration_ms,
               'wait_event_type', wait_event_type, 'wait_event', wait_event,
               'blocking_pids', blocking_pids
           ) AS value
    FROM activity
    WHERE state = 'active'
      AND query_start IS NOT NULL
      AND statement_timestamp() - query_start > interval '5 seconds'
      AND NOT is_monitor
    ORDER BY query_start, pid
    LIMIT 100
)
SELECT aggregate.*,
       statement_timestamp() AS snapshot_at,
       COALESCE((SELECT jsonb_agg(value) FROM sessions), '[]'::jsonb) AS sessions,
       (SELECT count(*) FROM activity WHERE NOT is_monitor)::bigint AS session_count,
       (SELECT count(*) > 500 FROM activity WHERE NOT is_monitor) AS sessions_truncated,
       COALESCE((SELECT jsonb_agg(value) FROM long_queries), '[]'::jsonb) AS long_query_samples,
       (SELECT count(*) FROM activity WHERE state = 'active' AND query_start IS NOT NULL
            AND statement_timestamp() - query_start > interval '5 seconds' AND NOT is_monitor)::bigint AS long_query_sample_count,
       (SELECT count(*) > 100 FROM activity WHERE state = 'active' AND query_start IS NOT NULL
            AND statement_timestamp() - query_start > interval '5 seconds' AND NOT is_monitor) AS long_query_samples_truncated
FROM aggregate".

Definition TaskReplication_SQL : string :=
"SELECT
       application_name::text AS replica,
       state::text AS connection_state,
       (EXTRACT(epoch FROM replay_lag) * 1000)::double precision AS replay_lag_ms,
       pg_wal_lsn_diff(sent_lsn, replay_lsn)::double precision AS wal_lag_bytes
FROM pg_stat_replication
UNION ALL
SELECT
       COALESCE(sender_host::text, 'standby') AS replica,
       status::text AS connection_state,
       NULL::double precision AS replay_lag_ms,
       pg_wal_lsn_diff(COALESCE(latest_end_lsn, flushed_lsn), pg_last_wal_replay_lsn())::double precision AS wal_lag_bytes
FROM pg_stat_wal_receiver".

Definition TaskReplicationSlot_SQL : string :=
"SELECT slot_name::text AS slot, pg_wal_lsn_diff(pg_current_wal_lsn(), COALESCE(confirmed_flush_lsn, restart_lsn))::double precision AS retained_wal_bytes
FROM pg_replication_slots
WHERE COALESCE(confirmed_flush_lsn, restart_lsn) IS NOT NULL".

Definition TaskPreparedXacts_SQL : string :=
"SELECT database.datname::text AS database,
       count(prepared.gid)::double precision AS prepared_xacts_count
FROM pg_database AS database
LEFT JOIN pg_prepared_xacts AS prepared ON prepared.database = database.datname
WHERE database.datallowconn
GROUP BY database.datname".

Definition TaskRole_SQL : string :=
"SELECT CASE
    WHEN pg_is_in_recovery() THEN 'replica'
    WHEN EXISTS (SELECT 1 FROM pg_stat_replication) THEN 'primary'
    ELSE 'standalone'
END::text AS role".

Definition TaskSettings_SQL : string :=
"SELECT current_setting('max_connections')::double precision AS max_connections".

Definition TaskDatabaseSize_SQL : string :=
"SELECT datname::text AS database,
       pg_database_size(oid)::double precision AS size_bytes
FROM pg_database
WHERE datallowconn AND datname NOT IN ('template0', 'template1')
ORDER BY datname".

Definition TaskQueryStatistics_SQL : string :=
"SELECT queryid,
       dbid AS database_oid,
       userid AS user_oid,
       sum(calls)::bigint AS calls,
       sum(total_exec_time)::double precision AS total_exec_time_ms,
       COALESCE(left(max(query), 4096), '')::text AS query_text
FROM pg_stat_statements
GROUP BY queryid, dbid, userid
ORDER BY total_exec_time_ms DESC, queryid, dbid, userid
LIMIT 500".

Definition Tasks : list Task := [
  MkTask TaskProbe TaskKindProbe TaskProbe_SQL
    [] (5 * Second)
    [MkMetricYield MetricAvailabilityReachable ["reachable"] [];
     MkMetricYield MetricProbeLatencyMS ["latency_ms"] []];
  MkTask TaskStatDatabase TaskKindSQL TaskStatDatabase_SQL
    [CapabilityRolePGMonitor] (5 * Second)
    [MkMetricYield MetricTPS [DimensionDatabase; "xact_commit"; "xact_rollback"] [DimensionDatabase];
     MkMetricYield MetricXactCommitPerS [DimensionDatabase; "xact_commit"] [DimensionDatabase];
     MkMetricYield MetricXactRollbackPerS [DimensionDatabase; "xact_rollback"] [DimensionDatabase];
     MkMetricYield MetricTuplesReadPerS [DimensionDatabase; "tuples_read"] [DimensionDatabase];
     MkMetricYield MetricTuplesWritePerS [DimensionDatabase; "tuples_write"] [DimensionDatabase];
     MkMetricYield MetricTempFilesPerS [DimensionDatabase; "temp_files"] [DimensionDatabase];
     MkMetricYield MetricTempBytesPerS [DimensionDatabase; "temp_bytes"] [DimensionDatabase];
     MkMetricYield MetricCacheHitRatio [DimensionDatabase; "blks_hit"; "blks_read"] [DimensionDatabase];
     MkMetricYield MetricCacheBlockAccessPerS [DimensionDatabase; "blks_hit"; "blks_read"] [DimensionDatabase];
     MkMetricYield MetricDeadlockCount [DimensionDatabase; "deadlocks"] [DimensionDatabase]];
  MkTask TaskStatActivity TaskKindSQL TaskStatActivity_SQL
    [CapabilityRolePGMonitor] (5 * Second)
    [MkMetricYield MetricConnectionTotal ["connection_total"] [];
     MkMetricYield MetricConnectionActive ["connection_active"] [];
     MkMetricYield MetricConnectionIdleInTransaction ["connection_idle_in_transaction"] [];
     MkMetricYield MetricLongTransactionCount ["long_transaction_count"] [];
     MkMetricYield MetricMaxTransactionDurationSec ["max_transaction_duration_sec"] [];
     MkMetricYield MetricLockWaitingCount ["lock_waiting_count"] [];
     MkMetricYield MetricBlockedSessionCount ["blocked_session_count"] [];
     MkMetricYield MetricLongRunningQueryCount ["long_running_query_count"] [];
     MkMetricYield MetricConnectionSaturationPercent ["connection_saturation_percent"] []];
  MkTask TaskReplication TaskKindSQL TaskReplication_SQL
    [CapabilityRolePGMonitor; CapabilityTopologyHasReplication] (5 * Second)
    [MkMetricYield MetricReplicationConnectionState ["replica"; "connection_state"] ["replica"];
     MkMetricYield MetricReplicationReplayLagMS ["replica"; "replay_lag_ms"] ["replica"];
     MkMetricYield MetricReplicationWALLagBytes ["replica"; "wal_lag_bytes"] ["replica"]];
  MkTask TaskReplicationSlot TaskKindSQL TaskReplicationSlot_SQL
    [CapabilityRolePGMonitor; CapabilityTopologyHasSlot] (5 * Second)
    [MkMetricYield MetricReplicationSlotRetainedWAL ["slot"; "retained_wal_bytes"] ["slot"]];
  MkTask TaskPreparedXacts TaskKindSQL TaskPreparedXacts_SQL
    [] (5 * Minute)
    [MkMetricYield MetricPreparedXactsCount ["database"; "prepared_xacts_count"] [DimensionDatabase]];
  MkTask TaskRole TaskKindSQL TaskRole_SQL
    [] (5 * Minute)
    [MkMetricYield MetricReplicationRole ["role"] []];
  MkTask TaskSettings TaskKindSQL TaskSettings_SQL
    [] (5 * Minute)
    [MkMetricYield MetricConnectionMax ["max_connections"] []];
  MkTask TaskDatabaseSize TaskKindSQL TaskDatabaseSize_SQL
    [CapabilityRolePGMonitor] (5 * Minute)
    [MkMetricYield MetricDatabaseSizeBytes [DimensionDatabase; "size_bytes"] [DimensionDatabase]];
  MkTask TaskQueryStatistics TaskKindSQL TaskQueryStatistics_SQL
    [CapabilityExtensionPGStatStatements] (5 * Minute)
    []
].

Definition CapabilityClassFixable : string := "fixable".
Definition CapabilityClassStructural : string := "structural".

Record Capability : Type := MkCapability {
  capability_ID : CapabilityID;
  capability_Class : string;
  capability_Probe : string;
  capability_FixHint : string;
  capability_NAReason : string;
}.

Definition Capabilities : list Capability := [
  MkCapability CapabilityRolePGMonitor CapabilityClassFixable
    "SELECT pg_has_role(current_user, 'pg_monitor', 'member')"
    "将监控账号加入 pg_monitor 角色。" EmptyString;
  MkCapability CapabilityExtensionPGStatStatements CapabilityClassFixable
    "SELECT EXISTS (SELECT 1 FROM pg_extension WHERE extname = 'pg_stat_statements')"
    "预加载并安装 pg_stat_statements 扩展。" EmptyString;
  MkCapability CapabilityTopologyHasReplication CapabilityClassStructural
    "SELECT pg_is_in_recovery() OR EXISTS (SELECT 1 FROM pg_stat_replication)"
    EmptyString "本实例为主库且没有备库，复制指标不适用。";
  MkCapability CapabilityTopologyHasSlot CapabilityClassStructural
    "SELECT EXISTS (SELECT 1 FROM pg_replication_slots)"
    EmptyString "本实例没有 replication slot。"
].
