(* ===== verification/Catalog.v ===== *)
(** The functions over the metric dictionary: look-up, semantic slots and engine
    resolution ([internal/metric/catalog.go], the functions of
    [internal/metric/dictionary.go]), and the same resolution as the SQL of
    [ListEvaluationTargets] and [GetEvaluationTarget] computes it from
    [metric_catalog]. The functions take the catalogue as an argument; the code's
    own functions are these at [Metrics]. *)

From S2P Require Import Prelude Dictionary.

Section Lookup.
Context (catalog : list Metric).

Fixpoint LookupIn (catalog : list Metric) (id : MetricID) : option Metric :=
  match catalog with
  | [] => None
  | item :: rest => if bool_decide (metric_ID item = id) then Some item else LookupIn rest id
  end.

Definition Lookup (id : MetricID) : option Metric := LookupIn catalog id.

Definition UnitFor (id : MetricID) : string :=
  match Lookup id with Some item => metric_Unit item | None => "count" end.

Definition ProducerFor (id : MetricID) : string :=
  match Lookup id with Some item => metric_Producer item | None => EmptyString end.

Definition LevelFor (id : MetricID) : string :=
  match Lookup id with Some item => metric_Level item | None => LevelInstance end.

Definition AggregationFor (id : MetricID) : string :=
  match Lookup id with Some item => metric_Aggregation item | None => AggregationNone end.

Definition WeightMetricFor (id : MetricID) : option MetricID :=
  match Lookup id with
  | None => None
  | Some item =>
      if bool_decide (metric_Weight item = NoMetric) then None else Some (metric_Weight item)
  end.

Definition EngineFor (id : MetricID) : option Engine :=
  match Lookup id with None => None | Some item => Some (metric_Engine item) end.

Definition SlotFor (id : MetricID) : SemanticSlot :=
  match Lookup id with None => NoSlot | Some item => metric_Slot item end.

Definition SlotDeclared (slot : SemanticSlot) : bool :=
  existsb (fun declaration => bool_decide (slot_ID declaration = slot)) SemanticSlots.

(** The errors of the resolution functions. *)
Inductive ResolveError : Type :=
  | ErrUnknownSemanticSlot
  | ErrSlotNotApplicable
  | ErrMetricNotInCatalog
  | ErrMetricEngineMismatch.

(** The loop of [ResolveSlot]: the engine's own binding returns at once, an
    engine-agnostic one is remembered and the last one wins. *)
Fixpoint resolve_slot_loop (catalog : list Metric) (slot : SemanticSlot) (engine : Engine)
    (agnostic : MetricID) : MetricID + MetricID :=
  match catalog with
  | [] => inr agnostic
  | item :: rest =>
      if negb (bool_decide (metric_Slot item = slot)) then resolve_slot_loop rest slot engine agnostic
      else if bool_decide (metric_Engine item = engine) then inl (metric_ID item)
      else if bool_decide (metric_Engine item = EngineAgnostic)
      then resolve_slot_loop rest slot engine (metric_ID item)
      else resolve_slot_loop rest slot engine agnostic
  end.

Definition ResolveSlot (slot : SemanticSlot) (engine : Engine) : MetricID + ResolveError :=
  if negb (SlotDeclared slot) then inr ErrUnknownSemanticSlot
  else
    match resolve_slot_loop catalog slot engine NoMetric with
    | inl id => inl id
    | inr agnostic =>
        if bool_decide (agnostic = NoMetric) then inr ErrSlotNotApplicable else inl agnostic
    end.

Definition ResolveForEngine (id : MetricID) (engine : Engine) : MetricID + ResolveError :=
  match Lookup id with
  | None => inr ErrMetricNotInCatalog
  | Some item =>
      if bool_decide (metric_Engine item = EngineAgnostic) then inl (metric_ID item)
      else if negb (bool_decide (metric_Slot item = NoSlot)) then ResolveSlot (metric_Slot item) engine
      else if bool_decide (metric_Engine item = engine) then inl (metric_ID item)
      else inr ErrMetricEngineMismatch
  end.

Definition AppliesToEngine (id : MetricID) (engine : Engine) : bool :=
  match ResolveForEngine id engine with inl _ => true | inr _ => false end.

(** The lateral join [resolved] of the evaluation queries: the rows it returns
    for a rule's metric on an instance's engine. A slot is NULL in the table
    where it is empty in the dictionary. *)
Definition bound_rows (own : Metric) (engine : Engine) : list Metric :=
  if negb (bool_decide (metric_Slot own = NoSlot)) && negb (bool_decide (metric_Engine own = Agnostic))
  then filter (fun bound => metric_Slot bound = metric_Slot own /\ metric_Engine bound = engine) catalog
  else [].

Definition resolved_rows (rule_metric : MetricID) (engine : Engine) : list MetricID :=
  own ← filter (fun own => metric_ID own = rule_metric) catalog;
  match bound_rows own engine with
  | [] =>
      if bool_decide (metric_Engine own = Agnostic) || bool_decide (metric_Engine own = engine)
      then [metric_ID own] else []
  | bounds => metric_ID <$> bounds
  end.

End Lookup.

Definition hasTask (id : TaskID) : bool :=
  existsb (fun task => bool_decide (task_ID task = id)) Tasks.

(** [nil] is [true]. *)
Definition ValidateTaskInterval (id : TaskID) (interval : Duration) : bool :=
  hasTask id && negb (interval <? MinimumTaskInterval).

Fixpoint find_task (tasks : list Task) (metricID : MetricID) : option Task :=
  match tasks with
  | [] => None
  | task :: rest =>
      if existsb (fun yield => bool_decide (yield_Metric yield = metricID)) (task_Yields task)
      then Some task else find_task rest metricID
  end.

Definition TaskForMetric (metricID : MetricID) : option Task := find_task Tasks metricID.

(** * A consistent catalogue *)

(** The table's keys: metric identifiers are unique, a slot is bound once per
    engine, every slot is a declared one, every identifier is non-empty, and a
    slot that an engine-agnostic metric fills belongs to no engine. *)
Record consistent (catalog : list Metric) : Prop := {
  con_id : NoDup (map metric_ID catalog);
  con_named : Forall (fun m => metric_ID m <> NoMetric) catalog;
  con_slot : forall m1 m2, m1 ∈ catalog -> m2 ∈ catalog -> metric_Slot m1 <> NoSlot ->
    metric_Slot m1 = metric_Slot m2 -> metric_Engine m1 = metric_Engine m2 -> m1 = m2;
  con_declared : Forall (fun m => metric_Slot m <> NoSlot -> SlotDeclared (metric_Slot m) = true) catalog;
}.

Definition slots_not_shared (catalog : list Metric) : Prop :=
  forall m1 m2, m1 ∈ catalog -> m2 ∈ catalog -> metric_Slot m1 <> NoSlot ->
    metric_Slot m1 = metric_Slot m2 -> metric_Engine m1 = EngineAgnostic -> metric_Engine m2 = EngineAgnostic.

Lemma LookupIn_Some catalog id m :
  LookupIn catalog id = Some m -> m ∈ catalog /\ metric_ID m = id.
Proof.
  induction catalog as [|item catalog IH]; simpl; [done|].
  case_bool_decide; [intros; simplify_eq|]; set_solver.
Qed.

Lemma LookupIn_elem catalog m :
  NoDup (map metric_ID catalog) -> m ∈ catalog -> LookupIn catalog (metric_ID m) = Some m.
Proof.
  induction catalog as [|item catalog IH]; simpl; [by intros _ ?%elem_of_nil|].
  intros [Hni Hnd]%NoDup_cons [->|Hm]%elem_of_cons; case_bool_decide as E; try done; [|auto].
  destruct Hni. rewrite E. by apply (list_elem_of_fmap_2 metric_ID).
Qed.

Lemma LookupIn_None catalog id : LookupIn catalog id = None -> forall m, m ∈ catalog -> metric_ID m <> id.
Proof.
  induction catalog as [|item catalog IH]; simpl; [set_solver|].
  case_bool_decide; [done|]. set_solver.
Qed.

(** What the slot loop finds. *)
Lemma resolve_slot_loop_spec catalog slot engine agnostic :
  match resolve_slot_loop catalog slot engine agnostic with
  | inl id => exists m, m ∈ catalog /\ metric_Slot m = slot /\ metric_Engine m = engine /\ metric_ID m = id
  | inr id =>
      (forall m, m ∈ catalog -> metric_Slot m = slot -> metric_Engine m <> engine) /\
      ((id = agnostic /\
        forall m, m ∈ catalog -> metric_Slot m = slot -> metric_Engine m <> EngineAgnostic) \/
       exists m, m ∈ catalog /\ metric_Slot m = slot /\ metric_Engine m = EngineAgnostic /\ metric_ID m = id)
  end.
Proof.
  revert agnostic. induction catalog as [|item catalog IH]; intros agnostic; simpl.
  { split; [set_solver|left; split; set_solver]. }
  case_bool_decide as Hs; simpl.
  - case_bool_decide as He; [exists item; set_solver|].
    case_bool_decide as Ha.
    + specialize (IH (metric_ID item)). destruct (resolve_slot_loop _ _ _ _); [set_solver|].
      destruct IH as [H1 [[-> H2]|(m&?&?&?&?)]]; split; try set_solver.
    + specialize (IH agnostic). destruct (resolve_slot_loop _ _ _ _); [set_solver|].
      destruct IH as [H1 [[-> H2]|(m&?&?&?&?)]]; split; try set_solver.
  - specialize (IH agnostic). destruct (resolve_slot_loop _ _ _ _); [set_solver|].
    destruct IH as [H1 [[-> H2]|(m&?&?&?&?)]]; split; try set_solver.
Qed.

Lemma ResolveSlot_spec catalog slot engine :
  consistent catalog -> slot <> NoSlot -> SlotDeclared slot = true ->
  match ResolveSlot catalog slot engine with
  | inl id =>
      exists m, m ∈ catalog /\ metric_ID m = id /\ metric_Slot m = slot /\
        (metric_Engine m = engine \/
         metric_Engine m = EngineAgnostic /\
         forall m', m' ∈ catalog -> metric_Slot m' = slot -> metric_Engine m' <> engine)
  | inr e =>
      e = ErrSlotNotApplicable /\
      forall m, m ∈ catalog -> metric_Slot m = slot ->
        metric_Engine m <> engine /\ metric_Engine m <> EngineAgnostic
  end.
Proof.
  intros [_ Hnamed _ _] Hs Hd. unfold ResolveSlot. rewrite Hd. simpl.
  pose proof (resolve_slot_loop_spec catalog slot engine NoMetric) as H.
  destruct (resolve_slot_loop catalog slot engine NoMetric) as [id|id].
  - destruct H as (m&?&?&?&?). exists m. auto.
  - destruct H as [H1 [[-> H2]|(m&Hm&?&?&Hid)]].
    + simpl. split; [done|]. auto.
    + rewrite Forall_forall in Hnamed. pose proof (Hnamed m Hm) as Hnm.
      rewrite bool_decide_eq_false_2 by congruence. exists m. split_and!; auto.
Qed.

Lemma ResolveSlot_own catalog m :
  consistent catalog -> m ∈ catalog -> metric_Slot m <> NoSlot ->
  ResolveSlot catalog (metric_Slot m) (metric_Engine m) = inl (metric_ID m).
Proof.
  intros Hc Hm Hs.
  assert (SlotDeclared (metric_Slot m) = true) as Hd
    by (destruct Hc as [_ _ _ Hd]; rewrite Forall_forall in Hd; auto).
  pose proof (ResolveSlot_spec catalog (metric_Slot m) (metric_Engine m) Hc Hs Hd) as H.
  destruct (ResolveSlot _ _ _) as [id|e].
  - destruct H as (m'&Hm'&<-&Hs'&[He|[He Hnone]]).
    + by rewrite (con_slot _ Hc m m').
    + by destruct (Hnone m Hm).
  - destruct H as [_ H]. by destruct (H m Hm eq_refl).
Qed.

Lemma ResolveForEngine_row catalog id engine m :
  consistent catalog -> ResolveForEngine catalog id engine = inl m ->
  exists own target, own ∈ catalog /\ metric_ID own = id /\ target ∈ catalog /\ metric_ID target = m /\
    (metric_Engine target = engine \/ metric_Engine target = EngineAgnostic) /\
    metric_Slot target = metric_Slot own.
Proof.
  intros Hc. unfold ResolveForEngine, Lookup.
  destruct (LookupIn catalog id) as [own|] eqn:El; [|done].
  apply LookupIn_Some in El as [Hown Hid].
  case_bool_decide as Ha; [intros; simplify_eq; exists own, own; auto 10|].
  case_bool_decide as Hs; simpl.
  { case_bool_decide; [|done]. intros; simplify_eq. exists own, own. auto 10. }
  assert (SlotDeclared (metric_Slot own) = true) as Hd
    by (destruct Hc as [_ _ _ Hd]; rewrite Forall_forall in Hd; auto).
  intros Hr. pose proof (ResolveSlot_spec catalog _ engine Hc Hs Hd) as H. rewrite Hr in H.
  destruct H as (t&?&?&?&[?|[? _]]); exists own, t; auto 10.
Qed.

(** A resolved metric resolves to itself on the same engine. *)
Lemma ResolveForEngine_fixed catalog target engine :
  consistent catalog -> target ∈ catalog ->
  metric_Engine target = engine \/ metric_Engine target = EngineAgnostic ->
  ResolveForEngine catalog (metric_ID target) engine = inl (metric_ID target).
Proof.
  intros Hc Ht He. unfold ResolveForEngine, Lookup.
  rewrite LookupIn_elem by (done || apply Hc).
  case_bool_decide as Ha; [done|]. destruct He as [<-|?]; [|done].
  case_bool_decide as Hs; simpl; [by rewrite bool_decide_eq_true_2|].
  by apply ResolveSlot_own.
Qed.

(** Engine resolution always lands on a catalogue row the instance can
    measure: a resolved metric is a row of that engine or an engine-agnostic one,
    it fills the same semantic slot as the metric the rule was written on, and
    resolving it again on the same engine changes nothing. *)
Theorem ResolveForEngine_sound (catalog : list Metric) (id : MetricID) (engine : Engine) (m : MetricID) :
  consistent catalog -> ResolveForEngine catalog id engine = inl m ->
  (exists own target, Lookup catalog id = Some own /\ Lookup catalog m = Some target /\
     (metric_Engine target = engine \/ metric_Engine target = EngineAgnostic) /\
     metric_Slot target = metric_Slot own) /\
  ResolveForEngine catalog m engine = inl m.
Proof.
  intros Hc Hr. destruct (ResolveForEngine_row _ _ _ _ Hc Hr) as (own&t&Ho&<-&Ht&<-&He&Hs).
  split; [|by apply ResolveForEngine_fixed].
  exists own, t. unfold Lookup. rewrite !LookupIn_elem by (done || apply Hc). auto.
Qed.

(** * The dictionary is consistent *)

Lemma consistent_intro catalog :
  NoDup (map metric_ID catalog) -> Forall (fun m => metric_ID m <> NoMetric) catalog ->
  Forall (fun m1 => Forall (fun m2 => metric_Slot m1 <> NoSlot -> metric_Slot m1 = metric_Slot m2 ->
    metric_Engine m1 = metric_Engine m2 -> m1 = m2) catalog) catalog ->
  Forall (fun m => metric_Slot m <> NoSlot -> SlotDeclared (metric_Slot m) = true) catalog ->
  consistent catalog.
Proof.
  intros H1 H2 H3 H4. split; try done. intros m1 m2 Hm1 Hm2.
  rewrite Forall_forall in H3. specialize (H3 m1 Hm1). rewrite Forall_forall in H3. auto.
Qed.

Lemma Metrics_consistent : consistent Metrics.
Proof. apply consistent_intro; refine (bool_decide_unpack _ _); vm_compute; exact I. Qed.

Lemma Metrics_slots_not_shared : slots_not_shared Metrics.
Proof.
  assert (Forall (fun m1 => Forall (fun m2 => metric_Slot m1 <> NoSlot ->
    metric_Slot m1 = metric_Slot m2 -> metric_Engine m1 = EngineAgnostic ->
    metric_Engine m2 = EngineAgnostic) Metrics) Metrics) as H
    by (refine (bool_decide_unpack _ _); vm_compute; exact I).
  intros m1 m2 Hm1 Hm2. rewrite Forall_forall in H. specialize (H m1 Hm1).
  rewrite Forall_forall in H. auto.
Qed.

Lemma ResolveForEngine_sound_witness :
  ResolveForEngine Metrics MetricTPS EnginePostgreSQL = inl MetricTPS.
Proof.
  exact (proj2 (ResolveForEngine_sound Metrics MetricTPS EnginePostgreSQL MetricTPS
    Metrics_consistent eq_refl)).
Defined.

(** * The SQL resolution *)

Lemma catalog_NoDup catalog : consistent catalog -> NoDup catalog.
Proof. intros [H _ _ _]. by apply NoDup_fmap_1 in H. Qed.

Lemma own_rows catalog own :
  consistent catalog -> own ∈ catalog ->
  filter (fun m => metric_ID m = metric_ID own) catalog = [own].
Proof.
  intros Hc Ho. apply filter_unique; auto using catalog_NoDup. intros m Hm He.
  pose proof (LookupIn_elem catalog m (con_id _ Hc) Hm) as H1.
  pose proof (LookupIn_elem catalog own (con_id _ Hc) Ho) as H2. congruence.
Qed.

(** The evaluation queries resolve a rule's metric as the Go function does:
    on a consistent catalogue in which no engine's metric shares a slot with an
    engine-agnostic one, the SQL join returns one row, the metric
    [ResolveForEngine] names, or no row where [ResolveForEngine] fails, for every
    metric and every engine an instance can run. *)
Theorem sql_resolution_agrees (catalog : list Metric) (id : MetricID) (engine : Engine) :
  consistent catalog -> slots_not_shared catalog -> engine <> Agnostic ->
  resolved_rows catalog id engine =
  match ResolveForEngine catalog id engine with inl m => [m] | inr _ => [] end.
Proof.
  intros Hc Hns Hne. unfold resolved_rows, ResolveForEngine, Lookup.
  destruct (LookupIn catalog id) as [own|] eqn:El.
  2: { rewrite filter_none by (intros; by eapply LookupIn_None). done. }
  apply LookupIn_Some in El as [Ho <-]. rewrite own_rows by done. simpl. rewrite app_nil_r.
  unfold bound_rows, EngineAgnostic. case_bool_decide as Hs; simpl.
  { case_bool_decide; simpl; [done|]. by case_bool_decide. }
  case_bool_decide as Ha; simpl; [done|].
  assert (SlotDeclared (metric_Slot own) = true) as Hd
    by (destruct Hc as [_ _ _ Hd]; rewrite Forall_forall in Hd; auto).
  pose proof (ResolveSlot_spec catalog _ engine Hc Hs Hd) as Hr.
  destruct (ResolveSlot _ _ _) as [m|e].
  - destruct Hr as (t&Ht&<-&Hts&[He|[He _]]).
    + rewrite (filter_unique _ catalog t); auto using catalog_NoDup.
      intros y Hy [Hys Hye]. apply (con_slot _ Hc); congruence.
    + destruct Ha. apply (Hns t own); congruence.
  - destruct Hr as [_ Hr]. rewrite filter_none by (intros y Hy [Hys Hye]; by destruct (Hr y Hy Hys)).
    rewrite bool_decide_eq_false_2; [done|]. by destruct (Hr own Ho eq_refl).
Qed.

Lemma sql_resolution_agrees_witness :
  resolved_rows Metrics MetricDeadlockCount PostgreSQL = [MetricDeadlockCount].
Proof.
  exact (sql_resolution_agrees Metrics MetricDeadlockCount PostgreSQL
    Metrics_consistent Metrics_slots_not_shared ltac:(discriminate)).
Defined.

(** The two differ once a second engine's metric fills a slot that the host
    fills as well: [ResolveForEngine] falls back to the host metric, the query
    returns no row. *)
Definition second_engine_catalog : list Metric :=
  Metrics ++ [MkMetric "mysql.storage.usage" "storage" "MYSQL" LevelInstance AggregationNone NoMetric
    SlotStorageUsage MetricTypeGauge "percent" ["instance"] CalculationRaw true true AlertabilityYes
    ProducerServerTask].

(** The agreement of C10 needs its side condition: with a second engine
    whose metric fills the storage slot the catalogue stays consistent, yet on a
    PostgreSQL instance the Go resolution falls back to the host's disk metric
    and the SQL resolution skips the rule. *)
Theorem sql_resolution_lacks_agnostic_fallback :
  consistent second_engine_catalog /\
  ResolveForEngine second_engine_catalog "mysql.storage.usage" PostgreSQL =
    inl MetricHostDiskUsagePercent /\
  resolved_rows second_engine_catalog "mysql.storage.usage" PostgreSQL = [].
Proof.
  split_and!; [|reflexivity|reflexivity].
  apply consistent_intro; refine (bool_decide_unpack _ _); vm_compute; exact I.
Qed.
