(* ===== verification/MetricMath.v ===== *)
(** The arithmetic of metrics: counter rates ([internal/metric/rate.go]) and the
    aggregation of database-level values into one instance-level value
    ([internal/metric/aggregate.go]). *)

From S2P Require Import Prelude Float64 Dictionary.

(** * Rates *)

Inductive ResetReason : Type :=
  | ResetNone
  | ResetCounter
  | ResetInvalidInterval
  | ResetNonFinite.

#[export] Instance ResetReason_eq_dec : EqDecision ResetReason.
Proof. solve_decision. Defined.

(** [(value, true, ResetNone)] is [inl value]; [(0, false, reason)] is
    [inr reason]. *)
Definition Rate (previous current : float64) (elapsed : Duration) : float64 + ResetReason :=
  if IsNaN previous || IsNaN current || IsInf previous || IsInf current then inr ResetNonFinite
  else if elapsed <=? 0 then inr ResetInvalidInterval
  else if (current <? previous)%f64 then inr ResetCounter
  else inl ((current - previous) / Seconds elapsed)%f64.

Lemma Rate_inl previous current elapsed value :
  Rate previous current elapsed = inl value ->
  is_finite previous = true /\ is_finite current = true /\ 0 < elapsed /\
  (current <? previous)%f64 = false /\ value = ((current - previous) / Seconds elapsed)%f64.
Proof.
  unfold Rate, is_finite. intros H. repeat case_match; simplify_eq; bool_to_prop.
  split_and!; try done; by rewrite ?andb_true_iff, ?negb_true_iff.
Qed.

Lemma Rate_nonneg previous current elapsed value :
  valid_float64 previous -> valid_float64 current ->
  Rate previous current elapsed = inl value -> nonneg value = true.
Proof.
  intros Hp Hc (_&_&Hpos&Hlt&->)%Rate_inl.
  apply f64_div_nonneg; [by apply f64_sub_nonneg|apply Seconds_unsigned; lia].
Qed.

(** * Aggregation to the instance *)

Record DatabaseValue : Type := MkDatabaseValue {
  dv_DatabaseName : string;
  dv_Value : float64;
  dv_Weight : float64;
}.

Inductive AggregateError : Type :=
  | ErrNotAggregatable
  | ErrNoWeight.

Definition usable_value (v : DatabaseValue) : bool := negb (IsNaN (dv_Value v) || IsInf (dv_Value v)).

(** A weight that takes part in the average. *)
Definition usable_weight (w : float64) : bool :=
  negb (IsNaN w || IsInf w || (w <? S754_zero false)%f64).

Definition weighted_step (acc : float64 * float64) (v : DatabaseValue) : float64 * float64 :=
  let '(weighted, totalWeight) := acc in
  if usable_weight (dv_Weight v)
  then ((weighted + dv_Value v * dv_Weight v)%f64, (totalWeight + dv_Weight v)%f64)
  else acc.

Definition AggregateToInstance (aggregation : string) (values : list DatabaseValue)
    : float64 + AggregateError :=
  let usable := filter (fun v => usable_value v = true) values in
  match usable with
  | [] => inr ErrNotAggregatable
  | _ =>
      if bool_decide (aggregation = AggregationSum) then
        inl (foldl (fun total v => (total + dv_Value v)%f64) (S754_zero false) usable)
      else if bool_decide (aggregation = AggregationWeightedAverage) then
        let '(weighted, totalWeight) := foldl weighted_step (S754_zero false, S754_zero false) usable in
        if (totalWeight <=? S754_zero false)%f64 then inr ErrNoWeight
        else inl (weighted / totalWeight)%f64
      else inr ErrNotAggregatable
  end.

Record DatabasePoint : Type := MkDatabasePoint {
  dp_At : Time;
  dp_Value : float64;
  dp_Weight : float64;
}.

Record DatabaseSeries : Type := MkDatabaseSeries {
  ds_DatabaseName : string;
  ds_Points : list DatabasePoint;
}.

Record InstancePoint : Type := MkInstancePoint {
  ip_At : Time;
  ip_Value : float64;
}.

(** [byTime[at] = append(byTime[at], ...)] over all series and points. *)
Definition add_point (name : string) (byTime : gmap Time (list DatabaseValue)) (p : DatabasePoint)
    : gmap Time (list DatabaseValue) :=
  <[dp_At p := default [] (byTime !! dp_At p) ++ [MkDatabaseValue name (dp_Value p) (dp_Weight p)]]> byTime.

Definition group_by_time (series : list DatabaseSeries) : gmap Time (list DatabaseValue) :=
  foldl (fun byTime item => foldl (add_point (ds_DatabaseName item)) byTime (ds_Points item)) ∅ series.

Definition instance_point (aggregation : string) (entry : Time * list DatabaseValue)
    : option InstancePoint :=
  match AggregateToInstance aggregation entry.2 with
  | inl value => Some (MkInstancePoint entry.1 value)
  | inr _ => None
  end.

(** The map is walked in some order; the points it gives have distinct times, so
    the sort that follows leaves one possible list. *)
Definition AggregateSeriesToInstance (aggregation : string) (series : list DatabaseSeries)
    : list InstancePoint :=
  sort_by (fun left right => Before (ip_At left) (ip_At right))
    (omap (instance_point aggregation) (map_to_list (group_by_time series))).

(** * The grouping *)

(** The values of a set of series at one time, in series order. *)
Definition values_at (at_ : Time) (series : list DatabaseSeries) : list DatabaseValue :=
  item ← series;
  (fun p => MkDatabaseValue (ds_DatabaseName item) (dp_Value p) (dp_Weight p)) <$>
    filter (fun p => dp_At p = at_) (ds_Points item).

Definition nonempty_entries (byTime : gmap Time (list DatabaseValue)) : Prop :=
  map_Forall (fun _ l => l <> []) byTime.

Lemma add_point_nonempty name byTime p : nonempty_entries byTime -> nonempty_entries (add_point name byTime p).
Proof. intros H. apply map_Forall_insert_2; [|done]. by destruct (default _ _). Qed.

Lemma add_points_nonempty name points byTime :
  nonempty_entries byTime -> nonempty_entries (foldl (add_point name) byTime points).
Proof. revert byTime. induction points; simpl; auto using add_point_nonempty. Qed.

Lemma add_points_lookup name points byTime at_ :
  default [] (foldl (add_point name) byTime points !! at_) =
  default [] (byTime !! at_) ++
    ((fun p => MkDatabaseValue name (dp_Value p) (dp_Weight p)) <$> filter (fun p => dp_At p = at_) points).
Proof.
  revert byTime. induction points as [|p points IH]; intros byTime; simpl; [by rewrite app_nil_r|].
  rewrite IH. unfold add_point. rewrite filter_cons. case_decide as E.
  - rewrite E, lookup_insert_eq. simpl. by rewrite <-app_assoc.
  - by rewrite lookup_insert_ne.
Qed.

Lemma group_by_time_nonempty series : nonempty_entries (group_by_time series).
Proof.
  unfold group_by_time. generalize (map_Forall_empty (M := gmap Time) (fun _ (l : list DatabaseValue) => l <> [])).
  generalize (∅ : gmap Time (list DatabaseValue)).
  induction series as [|item series IH]; simpl; intros m Hm; [done|].
  apply IH. by apply add_points_nonempty.
Qed.

Lemma group_by_time_default series at_ :
  default [] (group_by_time series !! at_) = values_at at_ series.
Proof.
  unfold group_by_time.
  assert (forall m, default [] (foldl (fun byTime item =>
      foldl (add_point (ds_DatabaseName item)) byTime (ds_Points item)) m series !! at_) =
    default [] (m !! at_) ++ values_at at_ series) as H.
  { induction series as [|item series IH]; intros m; simpl; [by rewrite app_nil_r|].
    rewrite IH, add_points_lookup, <-app_assoc. done. }
  rewrite H, lookup_empty. done.
Qed.

Lemma group_by_time_lookup series at_ l :
  group_by_time series !! at_ = Some l <-> l = values_at at_ series /\ l <> [].
Proof.
  pose proof (group_by_time_default series at_) as Hd.
  destruct (group_by_time series !! at_) as [l'|] eqn:E; simpl in Hd.
  - pose proof (group_by_time_nonempty series at_ l' E). simpl in *. naive_solver.
  - naive_solver.
Qed.

(** * Properties *)

(** A counter rate is reported only for finite readings in order and a
    positive interval, and a reported rate is never negative; every other pair of
    readings is rejected with the reason that explains it. *)
Theorem Rate_safe (previous current : float64) (elapsed : Duration) :
  valid_float64 previous -> valid_float64 current ->
  match Rate previous current elapsed with
  | inl value =>
      is_finite previous = true /\ is_finite current = true /\ 0 < elapsed /\
      (previous <=? current)%f64 = true /\ nonneg value = true
  | inr ResetNonFinite => is_finite previous = false \/ is_finite current = false
  | inr ResetInvalidInterval => elapsed <= 0
  | inr ResetCounter => (current <? previous)%f64 = true /\ 0 < elapsed
  | inr ResetNone => False
  end.
Proof.
  intros Hp Hc. destruct (Rate previous current elapsed) as [value|reason] eqn:E.
  - pose proof (Rate_nonneg _ _ _ _ Hp Hc E). apply Rate_inl in E as (Hfp&Hfc&?&Hlt&_).
    split_and!; try done. unfold is_finite in *. bool_to_prop. by apply SFltb_false_leb.
  - unfold Rate in E. unfold is_finite. repeat case_match; simplify_eq; bool_to_prop; try lia; try done.
    repeat match goal with H : _ || _ = true |- _ => apply orb_true_iff in H as [H|H] end;
      rewrite ?andb_false_iff, ?negb_false_iff; auto.
Qed.

Lemma Rate_safe_witness :
  nonneg ((f64_of_Z 300 - f64_of_Z 100) / Seconds (5 * Second))%f64 = true.
Proof.
  exact (proj2 (proj2 (proj2 (proj2 (Rate_safe (f64_of_Z 100) (f64_of_Z 300) (5 * Second) eq_refl eq_refl))))).
Defined.

(** Aggregating a series to the instance gives one point per collection
    time, in strictly increasing time order: the points are exactly the times at
    which the databases' values aggregate, each with the aggregate of all values
    recorded at that time; a time without a usable aggregate has no point. *)
Theorem AggregateSeriesToInstance_spec (aggregation : string) (series : list DatabaseSeries) :
  StronglySorted (fun p q => ip_At p < ip_At q) (AggregateSeriesToInstance aggregation series) /\
  forall at_ value,
    MkInstancePoint at_ value ∈ AggregateSeriesToInstance aggregation series <->
    AggregateToInstance aggregation (values_at at_ series) = inl value.
Proof.
  assert (forall p, p ∈ omap (instance_point aggregation) (map_to_list (group_by_time series)) <->
            AggregateToInstance aggregation (values_at (ip_At p) series) = inl (ip_Value p)) as Helem.
  { intros [at_ value]. rewrite list_elem_of_omap. simpl. split.
    - intros ([at' l]&Hin&Hp). apply elem_of_map_to_list in Hin.
      apply group_by_time_lookup in Hin as [-> _]. unfold instance_point in Hp; simpl in Hp.
      case_match; simplify_eq. done.
    - intros Hv. exists (at_, values_at at_ series). split.
      + apply elem_of_map_to_list, group_by_time_lookup. split; [done|].
        intros Hnil. rewrite Hnil in Hv. done.
      + unfold instance_point; simpl. by rewrite Hv. }
  split.
  - unfold AggregateSeriesToInstance. apply strictly_sorted.
    + rewrite sort_by_perm. apply (NoDup_omap_key _ fst); [|apply NoDup_fst_map_to_list].
      intros [at_ l] p Hp. unfold instance_point in Hp. case_match; by simplify_eq.
    + apply sort_by_in_order; unfold Before; intros; rewrite ?Z.ltb_lt, ?Z.ltb_ge in *; lia.
  - intros at_ value. unfold AggregateSeriesToInstance. rewrite elem_of_sort_by. apply (Helem (MkInstancePoint at_ value)).
Qed.

Lemma weighted_fold l w t :
  foldl weighted_step (w, t) l =
  (foldl f64_add w (map (fun v => (dv_Value v * dv_Weight v)%f64)
     (filter (fun v => usable_weight (dv_Weight v) = true) l)),
   foldl f64_add t (map dv_Weight (filter (fun v => usable_weight (dv_Weight v) = true) l))).
Proof.
  revert w t. induction l as [|v l IH]; intros w t; simpl; [done|].
  rewrite filter_cons. destruct (usable_weight (dv_Weight v)) eqn:E.
  - rewrite decide_True by done. simpl. apply IH.
  - rewrite decide_False by congruence. apply IH.
Qed.

(** The instance-level value of a ratio is the weighted average of the
    databases with finite values, in which a database whose weight is missing,
    infinite or negative takes no part; without positive weight there is no value,
    never a zero. *)
Theorem weighted_average_spec (values : list DatabaseValue) :
  let usable := filter (fun v => usable_value v = true) values in
  let weighing := filter (fun v => usable_weight (dv_Weight v) = true) usable in
  let total := foldl f64_add (S754_zero false) (map dv_Weight weighing) in
  AggregateToInstance AggregationWeightedAverage values =
  match usable with
  | [] => inr ErrNotAggregatable
  | _ =>
      if (total <=? S754_zero false)%f64 then inr ErrNoWeight
      else inl (foldl f64_add (S754_zero false)
                  (map (fun v => (dv_Value v * dv_Weight v)%f64) weighing) / total)%f64
  end.
Proof.
  intros usable weighing total. unfold AggregateToInstance. fold usable.
  rewrite weighted_fold. fold weighing total. by destruct usable.
Qed.
