(* ===== verification/Capability.v ===== *)
(** What a monitored instance can be asked: the probe results
    ([internal/capability/probe.go]), the capability snapshot and the gate it puts
    on collection tasks ([internal/metric/capability.go]). *)

From S2P Require Import Prelude Dictionary Catalog.

(** [type CapabilityStatus string]: the four statuses and the zero value a map
    gives for an absent key, or any other text a stored snapshot may hold. *)
Inductive CapabilityStatus : Type :=
  | CapabilityPresent
  | CapabilityMissing
  | CapabilityNotApplicable
  | CapabilityUnknown
  | CapabilityOther.

#[export] Instance CapabilityStatus_eq_dec : EqDecision CapabilityStatus.
Proof. solve_decision. Defined.

Definition CapabilitySnapshotTTL : Duration := 5 * Minute.

Inductive CapabilityBlockReason : Type :=
  | CapabilityBlockCollectionFailed
  | CapabilityBlockPermissionDenied
  | CapabilityBlockExtensionMissing
  | CapabilityBlockFeatureDisabled
  | CapabilityBlockNotApplicableRole.

#[export] Instance CapabilityBlockReason_eq_dec : EqDecision CapabilityBlockReason.
Proof. solve_decision. Defined.

Abbreviation CapabilityStates := (gmap string CapabilityStatus) (only parsing).

(** [states[id]] in Go: the zero value where the key is absent. *)
Definition state_of (states : CapabilityStates) (id : CapabilityID) : CapabilityStatus :=
  default CapabilityOther (states !! id).

Definition UnknownCapabilityStates : CapabilityStates :=
  foldl (fun states capability => <[capability_ID capability := CapabilityUnknown]> states) ∅ Capabilities.

Definition known_status (status : CapabilityStatus) : bool :=
  match status with CapabilityOther => false | _ => true end.

Definition completeCapabilitySnapshot (states : CapabilityStates) : bool :=
  (Z.of_nat (size states) =? Z.of_nat (length Capabilities)) &&
  forallb (fun capability => known_status (state_of states (capability_ID capability))) Capabilities.

(** The projection's loop over the declared capabilities. *)
Definition declared_states (states : CapabilityStates) : CapabilityStates :=
  foldl (fun result capability =>
    <[capability_ID capability := state_of states (capability_ID capability)]> result) ∅ Capabilities.

Definition ProjectCapabilitySnapshot (states : CapabilityStates) (observedAt now : Time)
    : CapabilityStates :=
  if IsZero observedAt || (CapabilitySnapshotTTL <? TimeSub now observedAt) ||
     negb (completeCapabilitySnapshot states)
  then UnknownCapabilityStates
  else
    declared_states states.

Definition taskRequires (task : Task) (capabilityID : CapabilityID) : bool :=
  existsb (fun required => bool_decide (required = capabilityID)) (task_Requires task).

Definition CapabilityAffectedMetricCount (capabilityID : CapabilityID) : Z :=
  foldl (fun count task =>
    if taskRequires task capabilityID then count + Z.of_nat (length (task_Yields task)) else count)
    0 Tasks.

(** The reason one required capability blocks a task; [None] is [continue]. *)
Definition capability_block (required : CapabilityID) (status : CapabilityStatus)
    : option CapabilityBlockReason :=
  match status with
  | CapabilityPresent => None
  | CapabilityMissing =>
      if bool_decide (required = CapabilityRolePGMonitor) then Some CapabilityBlockPermissionDenied
      else if bool_decide (required = CapabilityExtensionPGStatStatements)
      then Some CapabilityBlockExtensionMissing
      else Some CapabilityBlockCollectionFailed
  | CapabilityNotApplicable =>
      if bool_decide (required = CapabilityTopologyHasReplication) ||
         bool_decide (required = CapabilityTopologyHasSlot)
      then Some CapabilityBlockNotApplicableRole
      else Some CapabilityBlockCollectionFailed
  | _ => Some CapabilityBlockCollectionFailed
  end.

Fixpoint first_block (required : list CapabilityID) (states : CapabilityStates)
    : option CapabilityBlockReason :=
  match required with
  | [] => None
  | r :: rest =>
      match capability_block r (state_of states r) with
      | None => first_block rest states
      | Some reason => Some reason
      end
  end.

Definition TaskCapabilityBlockReason (task : Task) (states : CapabilityStates)
    : option CapabilityBlockReason := first_block (task_Requires task) states.

Definition MetricCapabilityBlockReason (metricID : MetricID) (states : CapabilityStates)
    : option CapabilityBlockReason :=
  match TaskForMetric metricID with
  | None => None
  | Some task => TaskCapabilityBlockReason task states
  end.

(** * Probing *)

(** [probeResult]: [err] is [true] when the probe query failed. *)
Record probeResult : Type := MkProbeResult {
  probe_capability : Capability;
  probe_present : bool;
  probe_err : bool;
}.

Section Probe.
(** The monitored server's answer to a probe query: a boolean or an error. It is
    not under the platform's control. *)
Context (answer : string -> result bool).

(** The loop of [ProbeSnapshot]: stops at the first failing probe. *)
Fixpoint probe_loop (declarations : list Capability) : list probeResult :=
  match declarations with
  | [] => []
  | declaration :: rest =>
      match answer (capability_Probe declaration) with
      | Ok present => MkProbeResult declaration present false :: probe_loop rest
      | Err _ => [MkProbeResult declaration false true]
      end
  end.

Definition completeProbeResults (results : list probeResult) : bool :=
  bool_decide (length results = length Capabilities) &&
  forallb (fun result => negb (probe_err result)) results &&
  bool_decide (size (list_to_set (C := gset string)
     (map (fun result => capability_ID (probe_capability result)) results)) = length Capabilities).

Definition probed_status (result : probeResult) : CapabilityStatus :=
  if probe_present result then CapabilityPresent
  else if bool_decide (capability_Class (probe_capability result) = CapabilityClassFixable)
  then CapabilityMissing else CapabilityNotApplicable.

Definition snapshotFromProbeResults (results : list probeResult) : CapabilityStates * bool :=
  if negb (completeProbeResults results) then (UnknownCapabilityStates, false)
  else
    (foldl (fun states result =>
       <[capability_ID (probe_capability result) := probed_status result]> states) ∅ results, true).

Definition ProbeSnapshot : CapabilityStates * bool :=
  snapshotFromProbeResults (probe_loop Capabilities).

End Probe.

(** * Facts *)

Lemma first_block_None required states :
  first_block required states = None <-> Forall (fun r => states !! r = Some CapabilityPresent) required.
Proof.
  induction required as [|r required IH]; simpl; [by split|].
  rewrite Forall_cons, <-IH. unfold state_of.
  destruct (states !! r) as [status|] eqn:E; simpl.
  - destruct status; simpl; repeat case_bool_decide; simpl; intuition congruence.
  - intuition congruence.
Qed.

Lemma ids_in_declarations capability :
  capability ∈ Capabilities -> UnknownCapabilityStates !! capability_ID capability = Some CapabilityUnknown.
Proof.
  assert (Forall (fun c => UnknownCapabilityStates !! capability_ID c = Some CapabilityUnknown) Capabilities)
    as H by (refine (bool_decide_unpack _ _); vm_compute; exact I).
  rewrite Forall_forall in H. auto.
Qed.

Lemma required_is_declared task r :
  task ∈ Tasks -> r ∈ task_Requires task -> exists c, c ∈ Capabilities /\ capability_ID c = r.
Proof.
  assert (Forall (fun t => Forall (fun r => r ∈ map capability_ID Capabilities) (task_Requires t)) Tasks)
    as H by (refine (bool_decide_unpack _ _); vm_compute; exact I).
  rewrite Forall_forall in H. intros Ht Hr. specialize (H task Ht). rewrite Forall_forall in H.
  specialize (H r Hr). apply list_elem_of_fmap in H as (c&->&?). eauto.
Qed.

(** Without knowledge a task that requires anything is blocked. *)
Lemma unknown_blocks task r :
  task ∈ Tasks -> r ∈ task_Requires task ->
  TaskCapabilityBlockReason task UnknownCapabilityStates = Some CapabilityBlockCollectionFailed.
Proof.
  intros Ht Hr. unfold TaskCapabilityBlockReason.
  destruct (task_Requires task) as [|r0 rest] eqn:E; [by apply elem_of_nil in Hr|].
  destruct (required_is_declared task r0) as (c&Hc&<-); [done|rewrite E; left|].
  simpl. unfold state_of. by rewrite (ids_in_declarations c Hc).
Qed.

Lemma declared_states_lookup states c :
  c ∈ Capabilities -> declared_states states !! capability_ID c = Some (state_of states (capability_ID c)).
Proof.
  revert c. rewrite <-Forall_forall. unfold declared_states. repeat constructor; simpl; by simplify_map_eq.
Qed.

Lemma declared_states_present states task :
  task ∈ Tasks ->
  Forall (fun r => declared_states states !! r = Some CapabilityPresent) (task_Requires task) <->
  Forall (fun r => states !! r = Some CapabilityPresent) (task_Requires task).
Proof.
  intros Ht. rewrite !Forall_forall. apply forall_proper. intros r. apply forall_proper. intros Hr.
  destruct (required_is_declared task r Ht Hr) as (c&Hc&<-).
  rewrite (declared_states_lookup states c Hc). unfold state_of.
  destruct (states !! capability_ID c); simpl; split; congruence.
Qed.

(** The result of a probe that answers. *)
Definition answered (answer : string -> result bool) (c : Capability) : probeResult :=
  MkProbeResult c (match answer (capability_Probe c) with Ok present => present | Err _ => false end) false.

Lemma probe_loop_cases answer declarations :
  (Forall (fun c => exists present, answer (capability_Probe c) = Ok present) declarations /\
   probe_loop answer declarations = map (answered answer) declarations) \/
  (Exists (fun c => exists e, answer (capability_Probe c) = Err e) declarations /\
   forallb (fun result => negb (probe_err result)) (probe_loop answer declarations) = false).
Proof.
  induction declarations as [|c rest IH]; simpl; [by left|]. unfold answered at 1.
  destruct (answer (capability_Probe c)) as [present|e] eqn:E.
  - destruct IH as [[H ->]|[H Hf]]; [left|right; simpl]; auto. split; [constructor; eauto|done].
  - right. split; [left; eauto|done].
Qed.

Lemma answered_complete answer : completeProbeResults (map (answered answer) Capabilities) = true.
Proof.
  unfold completeProbeResults. rewrite length_map, map_map. simpl. by vm_compute.
Qed.

Lemma answered_states answer :
  let states := (snapshotFromProbeResults (map (answered answer) Capabilities)).1 in
  completeCapabilitySnapshot states = true /\
  Forall (fun c => states !! capability_ID c = Some (probed_status (answered answer c))) Capabilities.
Proof.
  unfold snapshotFromProbeResults. rewrite answered_complete. simpl. split.
  - unfold completeCapabilitySnapshot. rewrite andb_true_iff. split.
    + by rewrite !map_size_insert_None by (by simplify_map_eq).
    + unfold state_of, probed_status. simpl. simplify_map_eq. by repeat case_match.
  - repeat constructor; simpl; by simplify_map_eq.
Qed.

(** * Properties *)

(** A task runs only when every capability it requires is known to be
    present; a snapshot that is missing, older than its time to live or
    incomplete proves nothing, so it blocks every task that requires anything,
    and a fresh complete one decides as the probed states say. *)
Theorem capability_gate (task : Task) (states : CapabilityStates) (observedAt now : Time) :
  task ∈ Tasks ->
  let projected := ProjectCapabilitySnapshot states observedAt now in
  (TaskCapabilityBlockReason task projected = None <->
     task_Requires task = [] \/
     (IsZero observedAt = false /\ TimeSub now observedAt <= CapabilitySnapshotTTL /\
      completeCapabilitySnapshot states = true /\
      Forall (fun r => states !! r = Some CapabilityPresent) (task_Requires task))).
Proof.
  intros Ht projected. unfold projected, ProjectCapabilitySnapshot.
  destruct (IsZero observedAt || _ || _) eqn:E.
  - destruct (task_Requires task) as [|r rest] eqn:Er.
    + unfold TaskCapabilityBlockReason. rewrite Er. simpl. tauto.
    + rewrite (unknown_blocks task r) by (done || (rewrite Er; left)).
      rewrite !orb_true_iff, Z.ltb_lt, negb_true_iff in E. split; [done|].
      intros [?|(?&?&?&_)]; [done|]. destruct E as [[E|E]|E]; (congruence || lia).
  - rewrite !orb_false_iff, Z.ltb_ge, negb_false_iff in E. destruct E as [[E1 E2] E3].
    unfold TaskCapabilityBlockReason. rewrite first_block_None.
    rewrite (declared_states_present states task Ht).
    split; [by right|]. intros [->|(_&_&_&?)]; [constructor|done].
Qed.

Lemma capability_gate_witness :
  TaskCapabilityBlockReason
    (MkTask TaskRole TaskKindSQL TaskRole_SQL [] (5 * Minute)
       [MkMetricYield MetricReplicationRole ["role"] []])
    (ProjectCapabilitySnapshot ∅ 0 0) = None.
Proof.
  apply (capability_gate
    (MkTask TaskRole TaskKindSQL TaskRole_SQL [] (5 * Minute)
       [MkMetricYield MetricReplicationRole ["role"] []]) ∅ 0 0).
  - refine (bool_decide_unpack _ _). vm_compute. exact I.
  - by left.
Defined.

(** A probe snapshot is all or nothing: if every capability probe answers,
    the snapshot is complete and records for each capability presence, or absence
    as fixable or structural; if one probe fails, every capability is unknown and
    the snapshot says it is incomplete. *)
Theorem ProbeSnapshot_all_or_nothing (answer : string -> result bool) :
  let '(states, complete) := ProbeSnapshot answer in
  (complete = true <-> forall c, c ∈ Capabilities -> exists present, answer (capability_Probe c) = Ok present) /\
  (complete = false -> states = UnknownCapabilityStates) /\
  (complete = true -> completeCapabilitySnapshot states = true /\
     forall c present, c ∈ Capabilities -> answer (capability_Probe c) = Ok present ->
       states !! capability_ID c =
       Some (probed_status (MkProbeResult c present false))).
Proof.
  unfold ProbeSnapshot.
  destruct (probe_loop_cases answer Capabilities) as [[Hall ->]|[Herr Hf]].
  - destruct (answered_states answer) as [Hcomplete Hstates].
    destruct (snapshotFromProbeResults _) as [states complete] eqn:E. cbn [fst] in Hcomplete, Hstates.
    unfold snapshotFromProbeResults in E. rewrite answered_complete in E.
    injection E as _ <-. rewrite Forall_forall in Hall, Hstates. split_and!; [done|done|]. intros _.
    split; [done|]. intros c present Hin Ha. rewrite (Hstates c Hin). unfold answered. by rewrite Ha.
  - unfold snapshotFromProbeResults, completeProbeResults. rewrite Hf, andb_false_r. simpl.
    split_and!; [|done|done]. split; [done|]. intros H.
    apply Exists_exists in Herr as (c&Hin&e&He). destruct (H c Hin). congruence.
Qed.
