(* ===== verification/ControlPlane.v ===== *)
(** Metrics the platform derives from its own control plane
    ([internal/metric/control_plane.go]) and the numeric codes of non-numeric
    metrics ([internal/metric/enums.go]). *)

From S2P Require Import Prelude Dictionary Catalog.

Definition AgentStatusOffline : string := "offline".
Definition AgentStatusOnline : string := "online".
Definition AgentStatusNotInstalled : string := "not_installed".
Definition AgentStatusPermissionDenied : string := "permission_denied".
Definition AgentStatusError : string := "error".

Definition AgentOfflineAfter : Duration := 60 * Second.

Record ControlPlaneFacts : Type := MkControlPlaneFacts {
  CollectorLastSuccessAt : Time;
  CollectorLastErrorCode : string;
  AgentExpected : bool;
  AgentMetricsEnabled : bool;
  AgentLastReportAt : Time;
  AgentLastErrorCode : string;
}.

Record ControlPlaneProjection : Type := MkControlPlaneProjection {
  projection_ObservedAt : Time;
  projection_Value : float64;
  projection_State : string;
  projection_Labels : gmap string string;
}.

Definition nullableTime (value : option Time) : Time := default ZeroTime value.
Definition nullableText (value : option string) : string := default EmptyString value.

(** The row [ReadControlPlaneFacts] scans: two NOT NULL columns and the nullable
    columns of the two left-joined collection states. *)
Record ControlPlaneRow : Type := MkControlPlaneRow {
  row_agent_expected : bool;
  row_agent_metrics_enabled : bool;
  row_server_last_success_at : option Time;
  row_server_last_error_code : option string;
  row_agent_last_report_at : option Time;
  row_agent_last_error_code : option string;
}.

Definition ReadControlPlaneFacts (scanned : result ControlPlaneRow) : result ControlPlaneFacts :=
  match scanned with
  | Err e => Err e
  | Ok row => Ok {|
      CollectorLastSuccessAt := nullableTime (row_server_last_success_at row);
      CollectorLastErrorCode := nullableText (row_server_last_error_code row);
      AgentExpected := row_agent_expected row;
      AgentMetricsEnabled := row_agent_metrics_enabled row;
      AgentLastReportAt := nullableTime (row_agent_last_report_at row);
      AgentLastErrorCode := nullableText (row_agent_last_error_code row) |}
  end.

Definition AgentStatusAt (facts : ControlPlaneFacts) (now : Time) : string :=
  if negb (AgentExpected facts) then AgentStatusNotInstalled
  else if bool_decide (AgentLastErrorCode facts = "PERMISSION_DENIED") then AgentStatusPermissionDenied
  else if negb (bool_decide (AgentLastErrorCode facts = EmptyString)) then AgentStatusError
  else if negb (IsZero (AgentLastReportAt facts)) &&
          (TimeSub now (AgentLastReportAt facts) <=? AgentOfflineAfter)
  then AgentStatusOnline
  else AgentStatusOffline.

Definition AgentStatusEncodings : gmap string float64 :=
  list_to_map [
    (AgentStatusOffline, f64_of_Z 0);
    (AgentStatusOnline, f64_of_Z 1);
    (AgentStatusNotInstalled, f64_of_Z 2);
    (AgentStatusPermissionDenied, f64_of_Z 3);
    (AgentStatusError, f64_of_Z 4)].

Definition NonNumericMetricEncodings : gmap string (gmap string float64) :=
  list_to_map [
    (MetricAvailabilityReachable, list_to_map [("unreachable", f64_of_Z 0); ("reachable", f64_of_Z 1)]);
    (MetricReplicationRole,
      list_to_map [("standalone", f64_of_Z 0); ("primary", f64_of_Z 1); ("replica", f64_of_Z 2)]);
    (MetricReplicationConnectionState,
      list_to_map [("stopped", f64_of_Z 0); ("starting", f64_of_Z 1); ("startup", f64_of_Z 2);
                   ("catchup", f64_of_Z 3); ("streaming", f64_of_Z 4); ("backup", f64_of_Z 5);
                   ("stopping", f64_of_Z 6); ("waiting", f64_of_Z 7); ("restarting", f64_of_Z 8)]);
    (MetricAgentStatus, AgentStatusEncodings)].

(** [m[key]] on a map of floats: the zero value where the key is absent. *)
Definition code_of (encodings : gmap string float64) (state : string) : float64 :=
  default (f64_of_Z 0) (encodings !! state).

Definition ProjectControlPlaneMetric (metricID : MetricID) (facts : ControlPlaneFacts) (now : Time)
    : option ControlPlaneProjection :=
  if bool_decide (metricID = MetricCollectorLastSuccessTime) then
    if IsZero (CollectorLastSuccessAt facts) then None
    else Some {|
      projection_ObservedAt := now;
      projection_Value := f64_of_Z (Unix (CollectorLastSuccessAt facts));
      projection_State := EmptyString;
      projection_Labels := {["source_type" := "SERVER_DIRECT"]} |}
  else if bool_decide (metricID = MetricAgentStatus) then
    let state := AgentStatusAt facts now in
    Some {|
      projection_ObservedAt := now;
      projection_Value := code_of AgentStatusEncodings state;
      projection_State := state;
      projection_Labels := {["node" := "agent"]} |}
  else None.

(** * Facts *)

(** Distinct states of a metric have distinct codes. *)
Definition injective_codes (encodings : gmap string float64) : Prop :=
  NoDup (map snd (map_to_list encodings)).

Lemma injective_codes_inj encodings s1 s2 v :
  injective_codes encodings -> encodings !! s1 = Some v -> encodings !! s2 = Some v -> s1 = s2.
Proof.
  unfold injective_codes. rewrite <-!elem_of_map_to_list.
  generalize (map_to_list encodings). intros l Hnd H1 H2.
  induction l as [|[k w] l IH]; simpl in *; [by apply elem_of_nil in H1|].
  apply NoDup_cons in Hnd as [Hw Hnd].
  assert (forall s, (s, v) ∈ l -> v ∈ map snd l) as Hin
    by (intros s Hs; apply list_elem_of_fmap; by exists (s, v)).
  apply elem_of_cons in H1 as [H1|H1], H2 as [H2|H2]; simplify_eq; auto;
    exfalso; eauto.
Qed.

Lemma every_encoding_injective :
  Forall (fun entry => injective_codes entry.2) (map_to_list NonNumericMetricEncodings).
Proof. unfold injective_codes. refine (bool_decide_unpack _ _). vm_compute. exact I. Qed.

(** * Properties *)

(** The code stored for a non-numeric metric determines its state: two
    states of one metric never share a code. *)
Theorem state_code_determines_state (metricID : MetricID) (encodings : gmap string float64)
    (s1 s2 : string) (v : float64) :
  NonNumericMetricEncodings !! metricID = Some encodings ->
  encodings !! s1 = Some v -> encodings !! s2 = Some v -> s1 = s2.
Proof.
  intros H%elem_of_map_to_list. apply injective_codes_inj.
  pose proof every_encoding_injective as Hall. rewrite Forall_forall in Hall. exact (Hall _ H).
Qed.

Lemma state_code_determines_state_witness :
  code_of AgentStatusEncodings "online" = f64_of_Z 1 /\ AgentStatusOnline = "online".
Proof.
  split; [refine (bool_decide_unpack _ _); vm_compute; exact I|].
  apply (state_code_determines_state MetricAgentStatus AgentStatusEncodings AgentStatusOnline "online"
    (f64_of_Z 1)); refine (bool_decide_unpack _ _); vm_compute; exact I.
Defined.

(** The agent-status metric is always defined and its value decodes to
    exactly one state: not installed when no agent is expected, otherwise the
    reported failure, otherwise online exactly while the last report is at most
    [AgentOfflineAfter] old. *)
Theorem agent_status_projection (facts : ControlPlaneFacts) (now : Time) :
  exists projection, ProjectControlPlaneMetric MetricAgentStatus facts now = Some projection /\
  AgentStatusEncodings !! projection_State projection = Some (projection_Value projection) /\
  (projection_State projection = AgentStatusNotInstalled <-> AgentExpected facts = false) /\
  (projection_State projection = AgentStatusOnline <->
     AgentExpected facts = true /\ AgentLastErrorCode facts = EmptyString /\
     AgentLastReportAt facts <> ZeroTime /\ TimeSub now (AgentLastReportAt facts) <= AgentOfflineAfter) /\
  (AgentExpected facts = true -> AgentLastErrorCode facts <> EmptyString ->
     projection_State projection = AgentStatusPermissionDenied \/
     projection_State projection = AgentStatusError).
Proof.
  eexists. split; [reflexivity|]. cbn [projection_State projection_Value].
  unfold AgentStatusAt, IsZero.
  assert (AgentStatusNotInstalled <> AgentStatusOnline) by done.
  destruct (AgentExpected facts); cbn [negb]; [|by split_and!; [vm_compute|..]; naive_solver].
  destruct (bool_decide (AgentLastErrorCode facts = "PERMISSION_DENIED")) eqn:E1;
    [|destruct (bool_decide (AgentLastErrorCode facts = EmptyString)) eqn:E2;
      [destruct (AgentLastReportAt facts =? ZeroTime) eqn:E3;
       [|destruct (TimeSub now (AgentLastReportAt facts) <=? AgentOfflineAfter) eqn:E4]|]];
    bool_to_prop; cbn [negb andb];
    (split; [by vm_compute|]); split_and!; try (split; intros; destruct_and?); try done; try congruence; try lia;
    auto.
Qed.
