(* ===== verification/Samples.v ===== *)
(** What a collection task brings back from a monitored instance: counter rates
    per database ([internal/collect/stat_database.go]), rows decoded by the task
    dictionary ([internal/collect/task_rows.go]), session snapshots
    ([internal/collect/stat_activity.go]) and statement statistics
    ([internal/collect/query_statistics.go]). *)

From S2P Require Import Prelude Float64 Dictionary Catalog MetricMath ControlPlane.

(** [collectedSample]; a nil label map is written as an empty one. *)
Record collectedSample : Type := MkCollectedSample {
  cs_metricID : MetricID;
  cs_value : float64;
  cs_databaseName : string;
  cs_labels : gmap string string;
}.

Record statActivitySession : Type := MkStatActivitySession {
  sas_PID : Z;
  sas_Username : option string;
  sas_DatabaseName : option string;
  sas_ClientAddress : option string;
  sas_State : option string;
  sas_QueryStartedAt : option Time;
  sas_TransactionStartedAt : option Time;
  sas_QueryDurationMS : option Z;
  sas_TransactionDurationMS : option Z;
  sas_WaitEventType : option string;
  sas_WaitEvent : option string;
  sas_BlockingPIDs : list Z;
}.

Record statActivitySnapshot : Type := MkStatActivitySnapshot {
  snap_sessions : list statActivitySession;
  snap_sessionCount : Z;
  snap_sessionsTruncated : bool;
  snap_longQuerySamples : list statActivitySession;
  snap_longQuerySampleCount : Z;
  snap_longQuerySamplesTruncated : bool;
}.

Record queryStatisticsEntry : Type := MkQueryStatisticsEntry {
  qs_QueryID : Z;
  qs_DatabaseOID : Z;
  qs_UserOID : Z;
  qs_Calls : Z;
  qs_TotalExecTimeMS : float64;
  qs_NormalizedText : string;
}.

Record collectedBatch : Type := MkCollectedBatch {
  batch_samples : list collectedSample;
  batch_statActivity : option statActivitySnapshot;
  batch_queryStatistics : option (list queryStatisticsEntry);
  batch_counterReset : bool;
}.

Definition emptyBatch : collectedBatch := MkCollectedBatch [] None None false.
Definition samplesBatch (samples : list collectedSample) : collectedBatch :=
  MkCollectedBatch samples None None false.

(** * pg_stat_database *)

(** [statDatabaseCounters], an array of [statDatabaseCounterCount] floats, and
    the index each counter has. *)
Abbreviation statDatabaseCounters := (list float64) (only parsing).

Definition statDatabaseXactCommitIndex : nat := 0.
Definition statDatabaseXactRollbackIndex : nat := 1.
Definition statDatabaseTuplesReadIndex : nat := 2.
Definition statDatabaseTuplesWriteIndex : nat := 3.
Definition statDatabaseTempFilesIndex : nat := 4.
Definition statDatabaseTempBytesIndex : nat := 5.
Definition statDatabaseBlocksHitIndex : nat := 6.
Definition statDatabaseBlocksReadIndex : nat := 7.
Definition statDatabaseDeadlocksIndex : nat := 8.
Definition statDatabaseCounterCount : nat := 9.

(** Each counter with the metric its rate is published under, [NoMetric] where
    the rate only feeds a derived metric. *)
Definition statDatabaseCounterMetrics : list (nat * MetricID) := [
  (statDatabaseXactCommitIndex, MetricXactCommitPerS);
  (statDatabaseXactRollbackIndex, MetricXactRollbackPerS);
  (statDatabaseTuplesReadIndex, MetricTuplesReadPerS);
  (statDatabaseTuplesWriteIndex, MetricTuplesWritePerS);
  (statDatabaseTempFilesIndex, MetricTempFilesPerS);
  (statDatabaseTempBytesIndex, MetricTempBytesPerS);
  (statDatabaseBlocksHitIndex, NoMetric);
  (statDatabaseBlocksReadIndex, NoMetric);
  (statDatabaseDeadlocksIndex, MetricDeadlockCount)].

Record statDatabaseSnapshot : Type := MkStatDatabaseSnapshot {
  sds_observedAt : Time;
  sds_databases : gmap string statDatabaseCounters;
}.

Abbreviation statDatabaseRateState := (gmap string statDatabaseSnapshot) (only parsing).

Definition newStatDatabaseRateState : statDatabaseRateState := ∅.

(** The inner loop: the rate of every counter, or the reason of the first that
    has none. *)
Fixpoint counter_rates (before now : statDatabaseCounters) (elapsed : Duration)
    : statDatabaseCounters + ResetReason :=
  match before, now with
  | b :: before', n :: now' =>
      match Rate b n elapsed with
      | inr reason => inr reason
      | inl value =>
          match counter_rates before' now' elapsed with
          | inl rates => inl (value :: rates)
          | inr reason => inr reason
          end
      end
  | _, _ => inl []
  end.

Definition rate_at (rates : statDatabaseCounters) (index : nat) : float64 :=
  nth index rates (f64_of_Z 0).

Definition database_sample (metricID : MetricID) (name : string) (value : float64) : collectedSample :=
  MkCollectedSample metricID value name ∅.

(** The samples of one database, in the order they are appended. *)
Definition database_samples (name : string) (rates : statDatabaseCounters) : list collectedSample :=
  let access := (rate_at rates statDatabaseBlocksHitIndex + rate_at rates statDatabaseBlocksReadIndex)%f64 in
  [database_sample MetricTPS name
     (rate_at rates statDatabaseXactCommitIndex + rate_at rates statDatabaseXactRollbackIndex)%f64] ++
  map (fun entry => database_sample entry.2 name (rate_at rates entry.1))
    (filter (fun entry => entry.2 <> NoMetric) statDatabaseCounterMetrics) ++
  [database_sample MetricCacheBlockAccessPerS name access] ++
  (if (access >? f64_of_Z 0)%f64
   then [database_sample MetricCacheHitRatio name
           (rate_at rates statDatabaseBlocksHitIndex * f64_of_Z 100 / access)%f64]
   else []).

(** The loop over the databases; a counter without a rate abandons the batch. *)
Fixpoint observe_loop (names : list string) (previous current : gmap string statDatabaseCounters)
    (elapsed : Duration) (samples : list collectedSample) : collectedBatch :=
  match names with
  | [] => samplesBatch samples
  | name :: rest =>
      match counter_rates (default [] (previous !! name)) (default [] (current !! name)) elapsed with
      | inr reason => MkCollectedBatch [] None None (bool_decide (reason = ResetCounter))
      | inl rates => observe_loop rest previous current elapsed (samples ++ database_samples name rates)
      end
  end.

(** The databases of [current] that [previous] has too, sorted by name. *)
Definition common_databases (previous current : gmap string statDatabaseCounters) : list string :=
  sort_by string_ltb
    (filter (fun name => is_Some (previous !! name)) (map fst (map_to_list current))).

Definition observe (state : statDatabaseRateState) (instanceID : string) (current : statDatabaseSnapshot)
    : statDatabaseRateState * collectedBatch :=
  match state !! instanceID with
  | None => (<[instanceID := current]> state, emptyBatch)
  | Some previous =>
      if negb (After (sds_observedAt current) (sds_observedAt previous)) then (state, emptyBatch)
      else
        let elapsed := TimeSub (sds_observedAt current) (sds_observedAt previous) in
        (<[instanceID := current]> state,
         observe_loop (common_databases (sds_databases previous) (sds_databases current))
           (sds_databases previous) (sds_databases current) elapsed [])
  end.

(** * Declared tasks *)

(** A value [rows.Values] gives: SQL NULL, a string, a float, or another type. *)
Inductive cell : Type :=
  | CNull
  | CText (s : string)
  | CFloat (f : float64)
  | COther.

#[export] Instance cell_eq_dec : EqDecision cell.
Proof. solve_decision. Defined.

Fixpoint last_value_column (reversed dimensions : list string) : result string :=
  match reversed with
  | [] => Err (ErrNew "no value column is declared")
  | column :: rest =>
      if existsb (fun dimension => bool_decide (column = dimension)) dimensions
      then last_value_column rest dimensions else Ok column
  end.

(** Scans the columns from the last to the first. *)
Definition valueColumnForYield (y : MetricYield) : result string :=
  last_value_column (rev (yield_Columns y)) (yield_Dimensions y).

Definition metricValue (metricID : MetricID) (raw : cell) : result float64 :=
  match NonNumericMetricEncodings !! metricID with
  | Some encodings =>
      match raw with
      | CText state =>
          match encodings !! state with Some value => Ok value | None => Err (ErrNew "unknown state") end
      | _ => Err (ErrNew "state value has type")
      end
  | None => match raw with CFloat value => Ok value | _ => Err (ErrNew "numeric value has type") end
  end.

(** The loop over a yield's dimensions: the database name and the labels. *)
Fixpoint decode_dimensions (dimensions : list string) (row : gmap string cell)
    (databaseName : string) (labels : gmap string string) : result (string * gmap string string) :=
  match dimensions with
  | [] => Ok (databaseName, labels)
  | dimension :: rest =>
      match row !! dimension with
      | Some (CText label) =>
          if bool_decide (dimension = DimensionDatabase)
          then decode_dimensions rest row label labels
          else decode_dimensions rest row databaseName (<[dimension := label]> labels)
      | None | Some CNull => Err (ErrNew "dimension is missing")
      | Some _ => Err (ErrNew "dimension has type")
      end
  end.

(** One round of the loop over the yields; [None] is a SQL NULL. *)
Definition yield_sample (y : MetricYield) (row : gmap string cell) : result (option collectedSample) :=
  match valueColumnForYield y with
  | Err e => Err (Errorf "decode task" e)
  | Ok valueColumn =>
      match row !! valueColumn with
      | None => Err (ErrNew "column is missing")
      | Some CNull => Ok None
      | Some rawValue =>
          match decode_dimensions (yield_Dimensions y) row EmptyString ∅ with
          | Err e => Err e
          | Ok (databaseName, labels) =>
              match metricValue (yield_Metric y) rawValue with
              | Err e => Err (Errorf "decode task" e)
              | Ok value => Ok (Some (MkCollectedSample (yield_Metric y) value databaseName labels))
              end
          end
      end
  end.

Fixpoint samples_loop (yields : list MetricYield) (row : gmap string cell) : result (list collectedSample) :=
  match yields with
  | [] => Ok []
  | y :: rest =>
      match yield_sample y row with
      | Err e => Err e
      | Ok sample =>
          match samples_loop rest row with
          | Err e => Err e
          | Ok samples => Ok (match sample with Some s => s :: samples | None => samples end)
          end
      end
  end.

Definition samplesForTaskRow (task : Task) (row : gmap string cell) : result (list collectedSample) :=
  samples_loop (task_Yields task) row.

(** [collectDeclaredTask] on the rows the server answers with. *)
Fixpoint collect_rows (task : Task) (rows : list (gmap string cell)) : result (list collectedSample) :=
  match rows with
  | [] => Ok []
  | row :: rest =>
      match samplesForTaskRow task row with
      | Err e => Err e
      | Ok rowSamples =>
          match collect_rows task rest with Err e => Err e | Ok samples => Ok (rowSamples ++ samples) end
      end
  end.

Definition collectDeclaredTask (task : Task) (answer : result (list (gmap string cell))) : result collectedBatch :=
  match answer with
  | Err e => Err e
  | Ok rows => match collect_rows task rows with Err e => Err e | Ok samples => Ok (samplesBatch samples) end
  end.

(** * Sessions and statements *)

Definition longQuerySampleLimit : Z := 100.
Definition sessionSnapshotLimit : Z := 500.
Definition queryStatisticsSnapshotLimit : Z := 500.

(** [decodeStatActivitySnapshot]; the arguments that are JSON in the source are
    the outcome of [json.Unmarshal] here. *)
Definition decodeStatActivitySnapshot
    (sessionsJSON : result (list statActivitySession)) (sessionCount : Z) (sessionsTruncated : bool)
    (longQuerySamplesJSON : result (list statActivitySession)) (longQuerySampleCount : Z)
    (longQuerySamplesTruncated : bool) : result statActivitySnapshot :=
  match sessionsJSON with
  | Err e => Err (Errorf "decode session snapshot" e)
  | Ok sessions =>
      match longQuerySamplesJSON with
      | Err e => Err (Errorf "decode long query samples" e)
      | Ok longQuerySamples =>
          if (sessionSnapshotLimit <? Z.of_nat (length sessions)) ||
             (longQuerySampleLimit <? Z.of_nat (length longQuerySamples))
          then Err (ErrNew "pg_stat_activity snapshot exceeds collection limits")
          else if existsb (fun sample => bool_decide (sas_QueryStartedAt sample = None) ||
                                         bool_decide (sas_QueryDurationMS sample = None)) longQuerySamples
          then Err (ErrNew "long query sample is missing query timing")
          else Ok (MkStatActivitySnapshot sessions sessionCount sessionsTruncated
                     longQuerySamples longQuerySampleCount longQuerySamplesTruncated)
      end
  end.

(** The row loop of [collectQueryStatistics] on the rows the server sends. *)
Fixpoint collect_entries (rows entries : list queryStatisticsEntry) : result (list queryStatisticsEntry) :=
  match rows with
  | [] => Ok entries
  | row :: rest =>
      let entries := entries ++ [row] in
      if queryStatisticsSnapshotLimit <? Z.of_nat (length entries)
      then Err (ErrNew "query statistics snapshot exceeds rows")
      else collect_entries rest entries
  end.

Definition collectQueryStatistics (answer : result (list queryStatisticsEntry))
    : result (list queryStatisticsEntry) :=
  match answer with Err e => Err e | Ok rows => collect_entries rows [] end.

(** * Facts *)

Lemma counter_rates_nonneg before now elapsed rates :
  Forall valid_float64 before -> Forall valid_float64 now ->
  counter_rates before now elapsed = inl rates -> Forall (fun r => nonneg r = true) rates.
Proof.
  revert now rates. induction before as [|b before IH]; intros [|n now] rates Hb Hn; simpl;
    try (intros [= <-]; constructor).
  destruct (Rate b n elapsed) as [value|] eqn:E; [|done].
  destruct (counter_rates before now elapsed) as [rest|] eqn:Er; [|done]. intros [= <-].
  apply Forall_cons in Hb as [Hb1 Hb2], Hn as [Hn1 Hn2].
  constructor; [by apply (Rate_nonneg b n elapsed)|by apply (IH now)].
Qed.

Lemma rate_at_nonneg rates index :
  Forall (fun r => nonneg r = true) rates -> nonneg (rate_at rates index) = true.
Proof.
  intros H. unfold rate_at. destruct (Nat.lt_ge_cases index (length rates)).
  - rewrite Forall_forall in H. apply H, list_elem_of_In, nth_In. done.
  - by rewrite nth_overflow.
Qed.

Lemma database_samples_sound name rates :
  Forall (fun r => nonneg r = true) rates ->
  Forall (fun s => cs_databaseName s = name /\ nonneg (cs_value s) = true) (database_samples name rates).
Proof.
  intros H. unfold database_samples.
  apply Forall_app; split; [|apply Forall_app; split; [|apply Forall_app; split]].
  - repeat constructor. simpl. by apply f64_add_nonneg; apply rate_at_nonneg.
  - apply Forall_fmap, Forall_forall. intros entry _. simpl. split; [done|]. by apply rate_at_nonneg.
  - repeat constructor. simpl. by apply f64_add_nonneg; apply rate_at_nonneg.
  - case_match eqn:E; repeat constructor. simpl. apply f64_div_nonneg; [|by apply positive_unsigned].
    apply f64_mul_nonneg; [by apply rate_at_nonneg|done].
Qed.

(** The rates of a database between two snapshots. *)
Definition rates_between (previous current : gmap string statDatabaseCounters) (elapsed : Duration) (name : string)
    : statDatabaseCounters + ResetReason :=
  counter_rates (default [] (previous !! name)) (default [] (current !! name)) elapsed.

(** The loop either has a rate for every counter of every database and keeps
    them all, or keeps none. *)
Lemma observe_loop_cases names previous current elapsed samples :
  (exists rates, Forall2 (fun name r => rates_between previous current elapsed name = inl r) names rates /\
     observe_loop names previous current elapsed samples =
       samplesBatch (samples ++ mjoin (zip_with database_samples names rates))) \/
  (exists name reason, name ∈ names /\ rates_between previous current elapsed name = inr reason /\
     observe_loop names previous current elapsed samples =
       MkCollectedBatch [] None None (bool_decide (reason = ResetCounter))).
Proof.
  revert samples. induction names as [|name names IH]; intros samples; simpl.
  { left. exists []. split; [done|]. simpl. by rewrite app_nil_r. }
  fold (rates_between previous current elapsed name).
  destruct (rates_between previous current elapsed name) as [r|reason] eqn:E.
  - destruct (IH (samples ++ database_samples name r)) as [(rates&Hr&->)|(n&reason&Hn&Hr&->)].
    + left. exists (r :: rates). split; [by constructor|]. simpl. by rewrite <-app_assoc.
    + right. exists n, reason. split; [by right|done].
  - right. exists name, reason. split; [by left|done].
Qed.

Lemma elem_of_common_databases previous current name :
  name ∈ common_databases previous current <-> is_Some (previous !! name) /\ is_Some (current !! name).
Proof.
  unfold common_databases. rewrite elem_of_sort_by, list_elem_of_filter, list_elem_of_fmap. split.
  - intros [? ([k v]&->&H%elem_of_map_to_list)]. simpl in *. eauto.
  - intros [? [v H]]. split; [done|]. exists (name, v). by rewrite elem_of_map_to_list.
Qed.

Definition valid_snapshot (snapshot : statDatabaseSnapshot) : Prop :=
  map_Forall (fun _ counters => Forall valid_float64 counters) (sds_databases snapshot).

Lemma valid_counters snapshot name :
  valid_snapshot snapshot -> Forall valid_float64 (default [] (sds_databases snapshot !! name)).
Proof.
  intros H. destruct (sds_databases snapshot !! name) eqn:E; simpl; [exact (H _ _ E)|constructor].
Qed.

Lemma database_samples_nonempty name rates :
  exists s, s ∈ database_samples name rates /\ cs_metricID s = MetricCacheBlockAccessPerS /\ cs_databaseName s = name.
Proof.
  eexists (database_sample MetricCacheBlockAccessPerS name _). split; [|done].
  unfold database_samples. apply elem_of_app. right. apply elem_of_app. right. apply elem_of_app. left. by left.
Qed.

Lemma elem_of_database_batch names rates s :
  s ∈ mjoin (zip_with database_samples names rates) <->
  exists i name r, names !! i = Some name /\ rates !! i = Some r /\ s ∈ database_samples name r.
Proof.
  rewrite list_elem_of_join. setoid_rewrite elem_of_lookup_zip_with. naive_solver.
Qed.

Lemma observe_all_or_nothing state instanceID current previous :
  state !! instanceID = Some previous -> sds_observedAt previous < sds_observedAt current ->
  let batch := (observe state instanceID current).2 in
  let rates := rates_between (sds_databases previous) (sds_databases current)
                 (TimeSub (sds_observedAt current) (sds_observedAt previous)) in
  let names := common_databases (sds_databases previous) (sds_databases current) in
  (batch_counterReset batch = false /\
   (forall name, name ∈ names -> exists r, rates name = inl r) /\
   (forall s, s ∈ batch_samples batch <->
      exists name r, name ∈ names /\ rates name = inl r /\ s ∈ database_samples name r)) \/
  (batch_samples batch = [] /\ exists name reason, name ∈ names /\ rates name = inr reason /\
     batch_counterReset batch = bool_decide (reason = ResetCounter)).
Proof.
  intros Hp Ht batch rates names.
  assert (batch = observe_loop names (sds_databases previous) (sds_databases current)
    (TimeSub (sds_observedAt current) (sds_observedAt previous)) []) as Hbatch.
  { unfold batch, observe, After. by rewrite Hp, (proj2 (Z.ltb_lt _ _) Ht). }
  destruct (observe_loop_cases names (sds_databases previous) (sds_databases current)
    (TimeSub (sds_observedAt current) (sds_observedAt previous)) []) as [(rs&Hr&E)|(name&reason&Hn&Hr&E)];
    rewrite Hbatch, E; clear Hbatch.
  - left. split; [done|]. cbn [batch_samples samplesBatch app]. split.
    + intros name [i Hi]%list_elem_of_lookup_1. destruct (Forall2_lookup_l _ _ _ _ _ Hr Hi) as (r&_&Hrr). by exists r.
    + intros s. rewrite elem_of_database_batch. split.
      * intros (i&name&r&Hi&Hri&Hs). exists name, r. split_and!; [by eapply list_elem_of_lookup_2| |done].
        exact (Forall2_lookup_lr _ _ _ _ _ _ Hr Hi Hri).
      * intros (name&r&[i Hi]%list_elem_of_lookup_1&Hname&Hs).
        destruct (Forall2_lookup_l _ _ _ _ _ Hr Hi) as (r'&Hri&Hr'). exists i, name, r.
        unfold rates in Hname. rewrite Hr' in Hname. injection Hname as ->. done.
  - right. split; [done|]. by exists name, reason.
Qed.

Lemma decode_dimensions_database dimensions row db0 labels0 db labels :
  decode_dimensions dimensions row db0 labels0 = Ok (db, labels) ->
  (DimensionDatabase ∈ dimensions -> row !! DimensionDatabase = Some (CText db)) /\
  (DimensionDatabase ∉ dimensions -> db = db0).
Proof.
  revert db0 labels0. induction dimensions as [|d rest IH]; intros db0 labels0; simpl.
  { intros [= <- <-]. split; [by intros ?%elem_of_nil|done]. }
  destruct (row !! d) as [[|label| |]|] eqn:E; try done.
  case_bool_decide as Hd; intros H; destruct (IH _ _ H) as [H1 H2]; rewrite !elem_of_cons.
  - subst d. split; [|naive_solver]. intros _.
    destruct (decide (DimensionDatabase ∈ rest)) as [Hin|Hin]; [auto|]. by rewrite (H2 Hin).
  - split; naive_solver.
Qed.

Lemma decode_dimensions_labels dimensions row db0 labels0 db labels :
  decode_dimensions dimensions row db0 labels0 = Ok (db, labels) ->
  forall d l, labels !! d = Some l <->
    if decide (d ∈ dimensions /\ d <> DimensionDatabase)
    then row !! d = Some (CText l) else labels0 !! d = Some l.
Proof.
  revert db0 labels0. induction dimensions as [|d0 rest IH]; intros db0 labels0; cbn [decode_dimensions].
  { intros [= <- <-] d l. case_decide as Hd; [|done]. by destruct Hd as [?%elem_of_nil _]. }
  destruct (row !! d0) as [[|label| |]|] eqn:E; try done.
  case_bool_decide as Hd0; intros H d l; rewrite (IH _ _ H d l).
  - repeat case_decide; rewrite ?elem_of_cons in *; naive_solver.
  - destruct (decide (d = d0)) as [->|Hne].
    + rewrite (decide_True (P := d0 ∈ d0 :: rest /\ d0 <> DimensionDatabase)) by (split; [left|done]).
      case_decide; [done|]. rewrite lookup_insert_eq, E. naive_solver.
    + repeat case_decide; rewrite ?elem_of_cons, ?lookup_insert_ne in *; naive_solver.
Qed.

(** What a decoded sample says of the row it comes from. *)
Definition describes (y : MetricYield) (row : gmap string cell) (s : collectedSample) : Prop :=
  cs_metricID s = yield_Metric y /\
  (exists column raw, (column ∈ yield_Columns y) /\ (column ∉ yield_Dimensions y) /\
     row !! column = Some raw /\ raw <> CNull /\ metricValue (yield_Metric y) raw = Ok (cs_value s)) /\
  (DimensionDatabase ∈ yield_Dimensions y -> row !! DimensionDatabase = Some (CText (cs_databaseName s))) /\
  (DimensionDatabase ∉ yield_Dimensions y -> cs_databaseName s = EmptyString) /\
  (forall d l, cs_labels s !! d = Some l <->
     d ∈ yield_Dimensions y /\ d <> DimensionDatabase /\ row !! d = Some (CText l)).

Lemma last_value_column_spec columns dimensions column :
  last_value_column columns dimensions = Ok column -> column ∈ columns /\ column ∉ dimensions.
Proof.
  induction columns as [|c columns IH]; simpl; [done|]. destruct (existsb _ dimensions) eqn:E.
  - intros [? ?]%IH. split; [by right|done].
  - intros [= <-]. split; [left|]. intros Hin. apply not_true_iff_false in E. apply E, existsb_exists.
    exists c. split; [by apply list_elem_of_In|by apply bool_decide_eq_true].
Qed.

Lemma yield_sample_describes y row s : yield_sample y row = Ok (Some s) -> describes y row s.
Proof.
  unfold yield_sample. destruct (valueColumnForYield y) as [column|] eqn:Ec; [|done].
  apply last_value_column_spec in Ec as [Hin Hdim]. 
  apply list_elem_of_In, in_rev, list_elem_of_In in Hin.
  destruct (row !! column) as [raw|] eqn:Er; [|done].
  destruct (decide (raw = CNull)) as [->|Hnull]; [done|].
  destruct (decode_dimensions _ _ _ _) as [[db labels]|] eqn:Ed; [|by destruct raw].
  destruct (metricValue (yield_Metric y) raw) as [value|] eqn:Em; [|by destruct raw].
  intros H. assert (s = MkCollectedSample (yield_Metric y) value db labels) as -> by (destruct raw; congruence).
  destruct (decode_dimensions_database _ _ _ _ _ _ Ed) as [Hdb1 Hdb2].
  unfold describes. simpl. split_and!; try done; [by exists column, raw|].
  intros d l. rewrite (decode_dimensions_labels _ _ _ _ _ _ Ed d l), lookup_empty. case_decide; naive_solver.
Qed.

Lemma samples_loop_spec yields row samples :
  samples_loop yields row = Ok samples ->
  (forall s, s ∈ samples -> exists y, y ∈ yields /\ describes y row s) /\
  sublist (map cs_metricID samples) (map yield_Metric yields) /\
  Forall (fun y => (exists column, valueColumnForYield y = Ok column /\ row !! column = Some CNull) \/
                   exists s, s ∈ samples /\ describes y row s) yields.
Proof.
  revert samples. induction yields as [|y yields IH]; intros samples; simpl.
  { intros [= <-]. split_and!; [by intros ? ?%elem_of_nil|constructor|constructor]. }
  destruct (yield_sample y row) as [sample|] eqn:E; [|done].
  destruct (samples_loop yields row) as [rest|]; [|done]. intros [= <-].
  destruct (IH rest eq_refl) as (H1&H2&H3). destruct sample as [s|]; simpl.
  - apply yield_sample_describes in E as Hs. split_and!.
    + intros s' [->|Hin]%elem_of_cons; [exists y; split; [left|done]|].
      destruct (H1 s' Hin) as (y'&?&?). exists y'. split; [by right|done].
    + destruct Hs as [-> _]. by apply sublist_skip.
    + constructor; [right; exists s; split; [left|done]|].
      eapply Forall_impl; [exact H3|]. intros y' [?|(s'&?&?)]; [by left|right; exists s'; split; [by right|done]].
  - split_and!.
    + intros s' Hin. destruct (H1 s' Hin) as (y'&?&?). exists y'. split; [by right|done].
    + by apply sublist_cons.
    + constructor; [|exact H3]. left. unfold yield_sample in E.
      destruct (valueColumnForYield y) as [column|]; [|done]. exists column. split; [done|].
      destruct (row !! column) as [[| | |]|]; try done; exfalso; by repeat case_match.
Qed.

(** * Properties *)

(** Counter rates: a batch only holds samples of databases seen in this and
    in the previous snapshot, and no sample is negative; it covers either every
    such database or none (a counter that went back or an unusable reading
    abandons the whole batch), and the baseline of this instance, and of no
    other, moves forward exactly when the snapshot is newer. *)
Theorem observe_sound (state : statDatabaseRateState) (instanceID : string) (current : statDatabaseSnapshot) :
  map_Forall (fun _ => valid_snapshot) state -> valid_snapshot current ->
  let '(state', batch) := observe state instanceID current in
  (forall s, s ∈ batch_samples batch -> exists previous,
     state !! instanceID = Some previous /\ sds_observedAt previous < sds_observedAt current /\
     is_Some (sds_databases previous !! cs_databaseName s) /\
     is_Some (sds_databases current !! cs_databaseName s) /\ nonneg (cs_value s) = true) /\
  (batch_samples batch <> [] -> batch_counterReset batch = false /\
     forall previous name, state !! instanceID = Some previous ->
       is_Some (sds_databases previous !! name) -> is_Some (sds_databases current !! name) ->
       exists s, s ∈ batch_samples batch /\ cs_metricID s = MetricCacheBlockAccessPerS /\
         cs_databaseName s = name) /\
  state' !! instanceID = Some (match state !! instanceID with
                               | Some previous => if After (sds_observedAt current) (sds_observedAt previous)
                                                  then current else previous
                               | None => current end) /\
  (forall other, other <> instanceID -> state' !! other = state !! other).
Proof.
  intros Hstate Hcur. destruct (observe state instanceID current) as [state' batch] eqn:E.
  assert (batch = (observe state instanceID current).2) as Hb by by rewrite E.
  unfold observe in E. destruct (state !! instanceID) as [previous|] eqn:Ep.
  2:{ injection E as <- <-. split_and!; [by intros ? ?%elem_of_nil|done|by rewrite lookup_insert_eq|].
      intros. by rewrite lookup_insert_ne. }
  unfold After in *. destruct (Z.ltb_spec (sds_observedAt previous) (sds_observedAt current)) as [Hlt|Hge].
  2:{ simpl in E. injection E as <- <-. split_and!; [by intros ? ?%elem_of_nil|done|done|done]. }
  destruct (observe_all_or_nothing state instanceID current previous Ep Hlt)
    as [(Hreset&Hrates&Hsamples)|(Hempty&_)]; rewrite <-Hb in *; simpl in E; injection E as <- _; split_and!.
  all: try (intros; by rewrite ?lookup_insert_eq, ?lookup_insert_ne).
  - intros s (name&r&[Hn1 Hn2]%elem_of_common_databases&Hr&Hs)%Hsamples. exists previous.
    assert (Forall (fun r => nonneg r = true) r) as Hnn
      by (eapply counter_rates_nonneg; [..|exact Hr]; apply valid_counters; [exact (Hstate _ _ Ep)|done]).
    pose proof (database_samples_sound name r Hnn) as Hsound. rewrite Forall_forall in Hsound.
    destruct (Hsound s Hs) as [-> ?]. done.
  - intros _. split; [done|]. intros previous' name [= <-] Hn1 Hn2.
    assert (name ∈ common_databases (sds_databases previous) (sds_databases current)) as Hn
      by by apply elem_of_common_databases.
    destruct (Hrates name Hn) as [r Hr]. destruct (database_samples_nonempty name r) as (s&Hs&?&?).
    exists s. split; [|done]. apply Hsamples. eauto.
  - rewrite Hempty. by intros ? ?%elem_of_nil.
Qed.

Lemma observe_sound_witness :
  observe ∅ "a" (MkStatDatabaseSnapshot 0 ∅) = ({["a" := MkStatDatabaseSnapshot 0 ∅]}, emptyBatch) /\
  (observe {["a" := MkStatDatabaseSnapshot 0 ∅]} "a" (MkStatDatabaseSnapshot Second ∅)).1 !! "b" = None.
Proof.
  split; [done|].
  pose proof (observe_sound {["a" := MkStatDatabaseSnapshot 0 ∅]} "a" (MkStatDatabaseSnapshot Second ∅)) as H.
  destruct (observe _ _ _) as [state' batch] eqn:E. cbn [fst].
  destruct H as (_&_&_&H); [by apply map_Forall_singleton|apply map_Forall_empty|]. by rewrite H.
Defined.

(** Decoding a row by the task dictionary: every sample carries a metric the
    task declares, its declared value column, the row's database name exactly
    when the metric is declared per database, and every other dimension, and
    nothing else, as labels; metrics come in the declared order, and each
    declared metric is decoded unless its value is NULL. *)
Theorem samplesForTaskRow_sound (task : Task) (row : gmap string cell) (samples : list collectedSample) :
  samplesForTaskRow task row = Ok samples ->
  (forall s, s ∈ samples -> exists y, y ∈ task_Yields task /\ describes y row s) /\
  sublist (map cs_metricID samples) (map yield_Metric (task_Yields task)) /\
  Forall (fun y => (exists column, valueColumnForYield y = Ok column /\ row !! column = Some CNull) \/
                   exists s, s ∈ samples /\ describes y row s) (task_Yields task).
Proof. apply samples_loop_spec. Qed.

Lemma samplesForTaskRow_sound_witness :
  exists samples,
    samplesForTaskRow (MkTask TaskDatabaseSize TaskKindSQL EmptyString [] Minute
        [MkMetricYield MetricDatabaseSizeBytes [DimensionDatabase; "size"] [DimensionDatabase]])
      (<["size" := CFloat (f64_of_Z 7)]> {[DimensionDatabase := CText "app"]}) = Ok samples /\
    length samples = 1%nat /\ sublist (map cs_metricID samples) [MetricDatabaseSizeBytes].
Proof.
  eexists. split; [by vm_compute|]. split; [done|].
  apply (samplesForTaskRow_sound (MkTask TaskDatabaseSize TaskKindSQL EmptyString [] Minute
        [MkMetricYield MetricDatabaseSizeBytes [DimensionDatabase; "size"] [DimensionDatabase]])
      (<["size" := CFloat (f64_of_Z 7)]> {[DimensionDatabase := CText "app"]})). by vm_compute.
Defined.
