(* ===== verification/CollectState.v ===== *)
(** The collection tables of the platform database and the operations that write
    them ([internal/collect/state.go], the persistence of
    [internal/collect/stat_activity.go] and [query_statistics.go], the snapshot
    store of [internal/capability/probe.go], and the statements of
    [internal/instance/queries.sql.go] and [internal/metric/queries.sql.go] that
    they call). *)

From S2P Require Import Prelude Float64 Db Partitions Dictionary Catalog MetricMath Capability ControlPlane Samples.

(** * Rows *)

Inductive taskResult : Type :=
  | resultSuccess
  | resultFailed
  | resultTimedOut
  | resultSkippedBackpressure
  | resultBackoff.

#[export] Instance taskResult_eq_dec : EqDecision taskResult.
Proof. solve_decision. Defined.

Definition string_of_result (result : taskResult) : string :=
  match result with
  | resultSuccess => "SUCCESS"
  | resultFailed => "FAILED"
  | resultTimedOut => "TIMED_OUT"
  | resultSkippedBackpressure => "SKIPPED_BACKPRESSURE"
  | resultBackoff => "BACKOFF"
  end.

Definition errorCodeConnectionFailed : string := "CONNECTION_FAILED".
Definition errorCodeQueryFailed : string := "QUERY_FAILED".
Definition errorCodeTimeout : string := "TIMEOUT".
Definition errorCodeCounterReset : string := "COUNTER_RESET".
Definition errorCodePlatformDatabaseCapacityEmergency : string :=
  "PLATFORM_DATABASE_CAPACITY_EMERGENCY_WATERMARK".

(** [string(metric.CapabilityBlockReason)] *)
Definition string_of_block (reason : CapabilityBlockReason) : string :=
  match reason with
  | CapabilityBlockCollectionFailed => "COLLECTION_FAILED"
  | CapabilityBlockPermissionDenied => "PERMISSION_DENIED"
  | CapabilityBlockExtensionMissing => "EXTENSION_MISSING"
  | CapabilityBlockFeatureDisabled => "FEATURE_DISABLED"
  | CapabilityBlockNotApplicableRole => "NOT_APPLICABLE_ROLE"
  end.

(** A row [ListCollectionTargets] returns; a uuid is its text. *)
Record ListCollectionTargetsRow : Type := MkTarget {
  target_ID : string;
  target_Host : string;
  target_Port : Z;
  target_DatabaseName : option string;
  target_Username : string;
  target_PasswordCiphertext : list Z;
  target_PasswordKeyVersion : Z;
  target_CredentialVersion : Z;
}.

(** [instance_collection_task_state], without its key. *)
Record TaskState : Type := MkTaskState {
  last_due_at : option Time;
  last_started_at : option Time;
  last_finished_at : option Time;
  last_success_at : option Time;
  last_result : option taskResult;
  consecutive_failures : Z;
  next_eligible_at : option Time;
  last_error_code : option string;
  last_error_message : option string;
}.

(** A row of which only the key was given. *)
Definition newTaskState : TaskState := MkTaskState None None None None None 0 None None None.

(** [instance_collection_connection_state] *)
Record ConnectionState : Type := MkConnectionState {
  conn_consecutive_failures : Z;
  conn_next_eligible_at : option Time;
  conn_last_error_code : option string;
  conn_last_error_message : option string;
}.

(** [instance_collect_state] *)
Record CollectState : Type := MkCollectState {
  source_last_success_at : option Time;
  source_last_report_at : option Time;
  source_last_error_code : option string;
  source_last_error_message : option string;
}.

(** The unique key of [metric_series]: instance, metric, database and labels. The
    column [labels_key] is the labels' JSON text, which determines them. *)
Abbreviation SeriesKey := (string * MetricID * string * gmap string string)%type (only parsing).

(** The tables. [t_paused] is the column [collection_paused] of
    [instance_collection_config]. *)
Record Tables : Type := MkTables {
  t_instance : gmap string ListCollectionTargetsRow;
  t_paused : gmap string bool;
  t_task_config : gmap (string * TaskID) Z;
  t_task_state : gmap (string * TaskID) TaskState;
  t_connection_state : gmap string ConnectionState;
  t_collect_state : gmap (string * string) CollectState;
  t_capability : gmap string (Time * CapabilityStates);
  t_series : gmap SeriesKey (Z * Time);
  t_samples : SampleStore;
  t_long_query_snapshot : gmap (string * Time) (Z * bool);
  t_long_query_sample : gmap (string * Time * Z) statActivitySession;
  t_session_snapshot : gmap string (Time * Z * bool);
  t_session_entry : gmap (string * Z) statActivitySession;
  t_query_snapshot : gset (string * Time);
  t_query_entry : gmap (string * Time * Z * Z * Z) (Z * float64);
  t_query_text : gmap (string * Z) (string * Time);
}.

Definition on_task_state (f : gmap (string * TaskID) TaskState -> gmap (string * TaskID) TaskState) (t : Tables) : Tables :=
  MkTables t.(t_instance) t.(t_paused) t.(t_task_config) (f (t.(t_task_state))) t.(t_connection_state) t.(t_collect_state) t.(t_capability) t.(t_series) t.(t_samples) t.(t_long_query_snapshot) t.(t_long_query_sample) t.(t_session_snapshot) t.(t_session_entry) t.(t_query_snapshot) t.(t_query_entry) t.(t_query_text).

Definition on_connection_state (f : gmap string ConnectionState -> gmap string ConnectionState) (t : Tables) : Tables :=
  MkTables t.(t_instance) t.(t_paused) t.(t_task_config) t.(t_task_state) (f (t.(t_connection_state))) t.(t_collect_state) t.(t_capability) t.(t_series) t.(t_samples) t.(t_long_query_snapshot) t.(t_long_query_sample) t.(t_session_snapshot) t.(t_session_entry) t.(t_query_snapshot) t.(t_query_entry) t.(t_query_text).

Definition on_collect_state (f : gmap (string * string) CollectState -> gmap (string * string) CollectState) (t : Tables) : Tables :=
  MkTables t.(t_instance) t.(t_paused) t.(t_task_config) t.(t_task_state) t.(t_connection_state) (f (t.(t_collect_state))) t.(t_capability) t.(t_series) t.(t_samples) t.(t_long_query_snapshot) t.(t_long_query_sample) t.(t_session_snapshot) t.(t_session_entry) t.(t_query_snapshot) t.(t_query_entry) t.(t_query_text).

Definition on_capability (f : gmap string (Time * CapabilityStates) -> gmap string (Time * CapabilityStates)) (t : Tables) : Tables :=
  MkTables t.(t_instance) t.(t_paused) t.(t_task_config) t.(t_task_state) t.(t_connection_state) t.(t_collect_state) (f (t.(t_capability))) t.(t_series) t.(t_samples) t.(t_long_query_snapshot) t.(t_long_query_sample) t.(t_session_snapshot) t.(t_session_entry) t.(t_query_snapshot) t.(t_query_entry) t.(t_query_text).

Definition on_series (f : gmap SeriesKey (Z * Time) -> gmap SeriesKey (Z * Time)) (t : Tables) : Tables :=
  MkTables t.(t_instance) t.(t_paused) t.(t_task_config) t.(t_task_state) t.(t_connection_state) t.(t_collect_state) t.(t_capability) (f (t.(t_series))) t.(t_samples) t.(t_long_query_snapshot) t.(t_long_query_sample) t.(t_session_snapshot) t.(t_session_entry) t.(t_query_snapshot) t.(t_query_entry) t.(t_query_text).

Definition on_samples (f : SampleStore -> SampleStore) (t : Tables) : Tables :=
  MkTables t.(t_instance) t.(t_paused) t.(t_task_config) t.(t_task_state) t.(t_connection_state) t.(t_collect_state) t.(t_capability) t.(t_series) (f (t.(t_samples))) t.(t_long_query_snapshot) t.(t_long_query_sample) t.(t_session_snapshot) t.(t_session_entry) t.(t_query_snapshot) t.(t_query_entry) t.(t_query_text).

Definition on_long_query_snapshot (f : gmap (string * Time) (Z * bool) -> gmap (string * Time) (Z * bool)) (t : Tables) : Tables :=
  MkTables t.(t_instance) t.(t_paused) t.(t_task_config) t.(t_task_state) t.(t_connection_state) t.(t_collect_state) t.(t_capability) t.(t_series) t.(t_samples) (f (t.(t_long_query_snapshot))) t.(t_long_query_sample) t.(t_session_snapshot) t.(t_session_entry) t.(t_query_snapshot) t.(t_query_entry) t.(t_query_text).

Definition on_long_query_sample (f : gmap (string * Time * Z) statActivitySession -> gmap (string * Time * Z) statActivitySession) (t : Tables) : Tables :=
  MkTables t.(t_instance) t.(t_paused) t.(t_task_config) t.(t_task_state) t.(t_connection_state) t.(t_collect_state) t.(t_capability) t.(t_series) t.(t_samples) t.(t_long_query_snapshot) (f (t.(t_long_query_sample))) t.(t_session_snapshot) t.(t_session_entry) t.(t_query_snapshot) t.(t_query_entry) t.(t_query_text).

Definition on_session_snapshot (f : gmap string (Time * Z * bool) -> gmap string (Time * Z * bool)) (t : Tables) : Tables :=
  MkTables t.(t_instance) t.(t_paused) t.(t_task_config) t.(t_task_state) t.(t_connection_state) t.(t_collect_state) t.(t_capability) t.(t_series) t.(t_samples) t.(t_long_query_snapshot) t.(t_long_query_sample) (f (t.(t_session_snapshot))) t.(t_session_entry) t.(t_query_snapshot) t.(t_query_entry) t.(t_query_text).

Definition on_session_entry (f : gmap (string * Z) statActivitySession -> gmap (string * Z) statActivitySession) (t : Tables) : Tables :=
  MkTables t.(t_instance) t.(t_paused) t.(t_task_config) t.(t_task_state) t.(t_connection_state) t.(t_collect_state) t.(t_capability) t.(t_series) t.(t_samples) t.(t_long_query_snapshot) t.(t_long_query_sample) t.(t_session_snapshot) (f (t.(t_session_entry))) t.(t_query_snapshot) t.(t_query_entry) t.(t_query_text).

Definition on_query_snapshot (f : gset (string * Time) -> gset (string * Time)) (t : Tables) : Tables :=
  MkTables t.(t_instance) t.(t_paused) t.(t_task_config) t.(t_task_state) t.(t_connection_state) t.(t_collect_state) t.(t_capability) t.(t_series) t.(t_samples) t.(t_long_query_snapshot) t.(t_long_query_sample) t.(t_session_snapshot) t.(t_session_entry) (f (t.(t_query_snapshot))) t.(t_query_entry) t.(t_query_text).

Definition on_query_entry (f : gmap (string * Time * Z * Z * Z) (Z * float64) -> gmap (string * Time * Z * Z * Z) (Z * float64)) (t : Tables) : Tables :=
  MkTables t.(t_instance) t.(t_paused) t.(t_task_config) t.(t_task_state) t.(t_connection_state) t.(t_collect_state) t.(t_capability) t.(t_series) t.(t_samples) t.(t_long_query_snapshot) t.(t_long_query_sample) t.(t_session_snapshot) t.(t_session_entry) t.(t_query_snapshot) (f (t.(t_query_entry))) t.(t_query_text).

Definition on_query_text (f : gmap (string * Z) (string * Time) -> gmap (string * Z) (string * Time)) (t : Tables) : Tables :=
  MkTables t.(t_instance) t.(t_paused) t.(t_task_config) t.(t_task_state) t.(t_connection_state) t.(t_collect_state) t.(t_capability) t.(t_series) t.(t_samples) t.(t_long_query_snapshot) t.(t_long_query_sample) t.(t_session_snapshot) t.(t_session_entry) t.(t_query_snapshot) t.(t_query_entry) (f (t.(t_query_text))).

Definition SERVER_DIRECT : string := "SERVER_DIRECT".

(** * Scheduled runs *)

Record taskKey : Type := MkTaskKey {
  key_instanceID : string;
  key_taskID : TaskID;
}.

#[export] Instance taskKey_eq_dec : EqDecision taskKey.
Proof. solve_decision. Defined.

#[export] Instance taskKey_countable : Countable taskKey.
Proof.
  refine (inj_countable' (fun k => (key_instanceID k, key_taskID k)) (fun p => MkTaskKey p.1 p.2) _).
  by intros [].
Defined.

Record scheduledRun : Type := MkScheduledRun {
  run_key : taskKey;
  run_dueAt : Time;
  run_startedAt : Time;
  run_target : ListCollectionTargetsRow;
  run_task : Task;
  run_interval : Duration;
}.

Definition capabilitySnapshotTaskID : TaskID := "capability.snapshot".

Definition capabilitySnapshotTask : Task :=
  MkTask capabilitySnapshotTaskID TaskKindSQL EmptyString [] CapabilitySnapshotTTL [].

Definition isCapabilitySnapshotTask (task : Task) : bool :=
  bool_decide (task_ID task = capabilitySnapshotTaskID).

Definition isProbe (task : Task) : bool := bool_decide (task_Kind task = TaskKindProbe).

(** The loop of [failureBackoff], which doubles until the cap or [failures];
    [fuel] bounds the doublings. *)
Fixpoint backoff_loop (fuel : nat) (backoff : Duration) (count failures : Z) : Duration :=
  match fuel with
  | O => backoff
  | S fuel =>
      if (count <? failures) && (backoff <? 60 * Second)
      then backoff_loop fuel (int64 (backoff * 2)) (incr count) failures
      else backoff
  end.

(** A positive backoff reaches the cap of 60 seconds within 36 doublings. *)
Definition failureBackoff (kind : TaskKind) (interval : Duration) (failures : Z) : Duration :=
  if bool_decide (kind = TaskKindProbe) || (failures <=? 0) then 0
  else
    let backoff := backoff_loop 64 interval 1 failures in
    if 60 * Second <? backoff then 60 * Second else backoff.

Definition nullableTimestamp (value : Time) : option Time :=
  if IsZero value then None else Some (timestamptz value).

Definition collectionErrorMessage (code : string) : string :=
  if bool_decide (code = errorCodeConnectionFailed) then "target connection failed"
  else if bool_decide (code = errorCodeQueryFailed) then "collection query failed"
  else if bool_decide (code = errorCodeTimeout) then "collection deadline exceeded"
  else if bool_decide (code = errorCodeCounterReset) then "database statistics counters reset"
  else if bool_decide (code = errorCodePlatformDatabaseCapacityEmergency)
  then "sample writes rejected at platform database capacity emergency watermark"
  else if bool_decide (code = string_of_block CapabilityBlockPermissionDenied)
  then "required database role is missing"
  else if bool_decide (code = string_of_block CapabilityBlockExtensionMissing)
  then "required database extension is missing"
  else if bool_decide (code = string_of_block CapabilityBlockFeatureDisabled)
  then "required database feature is not enabled"
  else if bool_decide (code = string_of_block CapabilityBlockNotApplicableRole)
  then "collection task does not apply to this database role or topology"
  else if bool_decide (code = string_of_result resultSkippedBackpressure)
  then "collection skipped because scheduler capacity was unavailable"
  else if bool_decide (code = string_of_result resultBackoff)
  then "collection deferred by failure backoff"
  else "collection failed".

(** * Statements shared by the operations *)

(** [INSERT ... ON CONFLICT DO UPDATE] on one key of a table. *)
Definition upsert {K V} `{Countable K} (key : K) (insert : V) (update : V -> V) (m : gmap K V) : gmap K V :=
  <[key := match m !! key with None => insert | Some old => update old end]> m.

(** [UPDATE ... WHERE key]: nothing when the row is absent. *)
Definition update_row {K V} `{Countable K} (key : K) (update : V -> V) (m : gmap K V) : gmap K V :=
  match m !! key with None => m | Some old => <[key := update old]> m end.

(** [SELECT id FROM instance WHERE id = $1 FOR UPDATE] *)
Definition lockInstance (instanceID : string) : DB Tables unit :=
  statement (fun t => match t_instance t !! instanceID with
                      | None => Err ErrNoRows | Some _ => Ok (tt, t) end).

Definition lockInstanceAndCheckCollectionActive (instanceID : string) : DB Tables bool :=
  _ ← lockInstance instanceID;
  statement (fun t => match t_paused t !! instanceID with
                      | None => Err ErrNoRows | Some paused => Ok (negb paused, t) end).

Definition SetCollectFailure (instanceID code message : string) : DB Tables unit :=
  exec (on_collect_state (upsert (instanceID, SERVER_DIRECT)
    (MkCollectState None None (Some code) (Some message))
    (fun old => MkCollectState (source_last_success_at old) (source_last_report_at old)
                  (Some code) (Some message)))).

Definition setSourceFailure (instanceID code message : string) : DB Tables unit :=
  SetCollectFailure instanceID code message.

Definition SetCollectSuccess (instanceID : string) (at_ : Time) : DB Tables unit :=
  exec (on_collect_state (upsert (instanceID, SERVER_DIRECT)
    (MkCollectState (Some (timestamptz at_)) None None None)
    (fun old => MkCollectState (Some (timestamptz at_)) (source_last_report_at old) None None))).

Definition taskFailureCount (instanceID : string) (taskID : TaskID) : DB Tables Z :=
  query (fun t => match t_task_state t !! (instanceID, taskID) with
                  | None => 0 | Some row => consecutive_failures row end).

Definition connectionFailureCount (instanceID : string) : DB Tables Z :=
  query (fun t => match t_connection_state t !! instanceID with
                  | None => 0 | Some row => conn_consecutive_failures row end).

(** The error of writing a count to an [integer] column that must not be
    negative: the driver rejects what does not fit, the CHECK what is below 0. *)
Definition count_fault (n : Z) : option error :=
  if n <? 0 then Some (ErrPg "23514")
  else if 2 ^ 31 <=? n then Some (ErrNew "unable to encode as int4") else None.

(** A statement that writes such a count. *)
Definition exec_count (n : Z) (f : Tables -> Tables) : DB Tables unit :=
  statement (fun t => match count_fault n with None => Ok (tt, f t) | Some e => Err e end).

(** * Samples *)

(** A series number no series has. *)
Definition fresh_series (t : Tables) : Z :=
  map_fold (fun _ row highest => Z.max row.1 highest) 0 (t_series t) + 1.

(** [UpsertSeries]: the key must name a catalogued metric; [last_seen] only grows. *)
Definition UpsertSeries (key : SeriesKey) (metricID : MetricID) (lastSeen : Time) : DB Tables Z :=
  statement (fun t =>
    match Lookup Metrics metricID with
    | None => Err (ErrPg "23503")
    | Some _ =>
        let row := match t_series t !! key with
                   | None => (fresh_series t, timestamptz lastSeen)
                   | Some (id, seen) => (id, Z.max seen (timestamptz lastSeen)) end in
        Ok (row.1, on_series (fun m => <[key := row]> m) t)
    end).

Definition on_sample_store {A} (m : DB SampleStore A) : DB Tables A :=
  focus t_samples (fun store => on_samples (fun _ => store)) m.

Definition insertCollectedSample (instanceID : string) (sample : collectedSample) (observedAt : Time)
    : DB Tables unit :=
  seriesID ← UpsertSeries (instanceID, cs_metricID sample, cs_databaseName sample, cs_labels sample)
               (cs_metricID sample) observedAt;
  on_sample_store (statement (insert_sample_row
    (MkSampleRow seriesID (timestamptz observedAt) (cs_value sample)))).

Definition insertSample (instanceID : string) (metricID : MetricID) (value : float64) (observedAt : Time)
    : DB Tables unit :=
  insertCollectedSample instanceID (MkCollectedSample metricID value EmptyString ∅) observedAt.

(** The code [metric.NonNumericMetricEncodings] gives a reachability state. *)
Definition reachability (state : string) : float64 :=
  code_of (default ∅ (NonNumericMetricEncodings !! MetricAvailabilityReachable)) state.

(** * Session and statement snapshots *)

(** The constraints of a session row: durations are not negative. *)
Definition session_fault (s : statActivitySession) : option string :=
  if (0 <=? default 0 (sas_QueryDurationMS s)) && (0 <=? default 0 (sas_TransactionDurationMS s))
  then None else Some "23514".

(** Those of a long query sample: its timing is not NULL either. *)
Definition long_query_fault (s : statActivitySession) : option string :=
  match sas_QueryStartedAt s, sas_QueryDurationMS s with
  | Some _, Some _ => session_fault s
  | _, _ => Some "23502"
  end.

(** [COPY] of rows under a key: every row valid, no key twice. *)
Definition copy_rows {K V} `{Countable K} (fault : V -> option string) (rows : list (K * V)) (m : gmap K V)
    : result (gmap K V) :=
  foldl (fun acc row =>
    match acc with
    | Err e => Err e
    | Ok m =>
        match fault row.2, m !! row.1 with
        | Some code, _ => Err (ErrPg code)
        | None, Some _ => Err (ErrPg "23505")
        | None, None => Ok (<[row.1 := row.2]> m)
        end
    end) (Ok m) rows.

Definition persistLongQuerySamples (instanceID : string) (sampledAt : Time) (snapshot : statActivitySnapshot)
    : DB Tables unit :=
  _ ← exec_count (snap_longQuerySampleCount snapshot)
    (on_long_query_snapshot (<[(instanceID, timestamptz sampledAt) :=
       (snap_longQuerySampleCount snapshot, snap_longQuerySamplesTruncated snapshot)]>));
  _ ← exec (on_long_query_sample (filter (fun entry => entry.1.1 <> (instanceID, timestamptz sampledAt))));
  if bool_decide (snap_longQuerySamples snapshot = []) then mret tt
  else statement (fun t =>
    match copy_rows long_query_fault
            (map (fun s => ((instanceID, timestamptz sampledAt, sas_PID s), s)) (snap_longQuerySamples snapshot))
            (t_long_query_sample t) with
    | Err e => Err e
    | Ok m => Ok (tt, on_long_query_sample (fun _ => m) t)
    end).

(** The latest session snapshot; an older one than the stored one changes nothing. *)
Definition persistLatestSessionSnapshot (instanceID : string) (sampledAt : Time) (snapshot : statActivitySnapshot)
    : DB Tables unit :=
  accepted ← statement (fun t =>
    match count_fault (snap_sessionCount snapshot), t_session_snapshot t !! instanceID with
    | Some e, _ => Err e
    | None, Some (stored, _, _) =>
             if stored <=? timestamptz sampledAt
             then Ok (true, on_session_snapshot (<[instanceID :=
                    (timestamptz sampledAt, snap_sessionCount snapshot, snap_sessionsTruncated snapshot)]>) t)
             else Ok (false, t)
    | None, None => Ok (true, on_session_snapshot (<[instanceID :=
                    (timestamptz sampledAt, snap_sessionCount snapshot, snap_sessionsTruncated snapshot)]>) t)
         end);
  if negb (accepted : bool) then mret tt
  else
    _ ← exec (on_session_entry (filter (fun entry => entry.1.1 <> instanceID)));
    if bool_decide (snap_sessions snapshot = []) then mret tt
    else statement (fun t =>
      match copy_rows session_fault (map (fun s => ((instanceID, sas_PID s), s)) (snap_sessions snapshot))
              (t_session_entry t) with
      | Err e => Err e
      | Ok m => Ok (tt, on_session_entry (fun _ => m) t)
      end).

Definition persistStatActivitySnapshot (instanceID : string) (sampledAt : Time) (snapshot : statActivitySnapshot)
    : DB Tables unit :=
  _ ← persistLongQuerySamples instanceID sampledAt snapshot;
  persistLatestSessionSnapshot instanceID sampledAt snapshot.

(** The texts of the batch by query; an empty text is one that was not read, and
    the last one of a query wins. *)
Definition batch_texts (entries : list queryStatisticsEntry) : gmap Z string :=
  foldl (fun texts entry =>
    if bool_decide (qs_NormalizedText entry = EmptyString) then texts
    else <[qs_QueryID entry := qs_NormalizedText entry]> texts) ∅ entries.

Definition PersistNormalizedStatementTexts (instanceID : string) (sampledAt : Time) (texts : gmap Z string)
    : DB Tables unit :=
  if bool_decide (texts = ∅) then mret tt
  else exec (on_query_text (fun m =>
         map_fold (fun queryID text m => <[(instanceID, queryID) := (text, timestamptz sampledAt)]> m) m texts)).

Definition persistNormalizedStatementText (instanceID : string) (sampledAt : Time)
    (entries : list queryStatisticsEntry) : DB Tables unit :=
  PersistNormalizedStatementTexts instanceID sampledAt (batch_texts entries).

Definition persistQueryStatisticsSnapshot (instanceID : string) (sampledAt : Time)
    (entries : list queryStatisticsEntry) : DB Tables unit :=
  _ ← statement (fun t =>
    if bool_decide ((instanceID, timestamptz sampledAt) ∈ t_query_snapshot t) then Err (ErrPg "23505")
    else Ok (tt, on_query_snapshot (fun s => {[(instanceID, timestamptz sampledAt)]} ∪ s) t));
  if bool_decide (entries = []) then mret tt
  else
    _ ← statement (fun t =>
      match copy_rows (fun row => if (0 <=? row.1) && (f64_of_Z 0 <=? row.2)%f64 then None else Some "23514")
              (map (fun e => ((instanceID, timestamptz sampledAt, qs_QueryID e, qs_DatabaseOID e, qs_UserOID e),
                              (qs_Calls e, qs_TotalExecTimeMS e))) entries) (t_query_entry t) with
      | Err e => Err e
      | Ok m => Ok (tt, on_query_entry (fun _ => m) t)
      end);
    persistNormalizedStatementText instanceID sampledAt entries.

Definition statActivitySnapshotRetention : Duration := 30 * 24 * Hour.
Definition queryStatisticsSnapshotRetention : Duration := 30 * 24 * Hour.

(** The deletion cascades to the samples of the snapshot. *)
Definition DropExpiredStatActivitySnapshots (now : Time) : DB Tables unit :=
  let cutoff := timestamptz (TimeAdd now (- statActivitySnapshotRetention)) in
  exec (fun t => on_long_query_snapshot (filter (fun entry => cutoff <= entry.1.2))
                   (on_long_query_sample (filter (fun entry => cutoff <= entry.1.1.2)) t)).

Definition DropExpiredQueryStatisticsSnapshots (now : Time) : DB Tables unit :=
  let cutoff := timestamptz (TimeAdd now (- queryStatisticsSnapshotRetention)) in
  exec (fun t => on_query_snapshot (filter (fun key => cutoff <= key.2))
                   (on_query_entry (filter (fun entry => cutoff <= entry.1.1.1.1.2)) t)).

(** [capability.StoreSnapshot] *)
Definition StoreSnapshot (instanceID : string) (observedAt : Time) (states : CapabilityStates) : DB Tables unit :=
  wrap "store capability snapshot" (exec (on_capability (<[instanceID := (timestamptz observedAt, states)]>))).

Definition StoreUnknown (instanceID : string) (observedAt : Time) : DB Tables unit :=
  StoreSnapshot instanceID observedAt UnknownCapabilityStates.

(** * The operations of the collection state *)

(** The tasks the scheduler runs. *)
Definition scheduledTasks : list Task :=
  filter (fun task => task_ID task ∈ [TaskProbe; TaskStatDatabase; TaskStatActivity; TaskReplication;
    TaskReplicationSlot; TaskPreparedXacts; TaskRole; TaskSettings; TaskDatabaseSize; TaskQueryStatistics]) Tasks.

(** [INSERT ... ON CONFLICT DO NOTHING] for every scheduled task. *)
Definition ensureTaskStates (targetID : string) : DB Tables unit :=
  for_each (fun task => wrap "initialize collection task state" (statement (fun t =>
    match t_instance t !! targetID with
    | None => Err (ErrPg "23503")
    | Some _ => Ok (tt, on_task_state (upsert (targetID, task_ID task) newTaskState id) t)
    end))) scheduledTasks.

(** The transaction every record operation runs: lock the instance, and do
    nothing unless its collection is active. *)
Definition if_active {A} (instanceID : string) (inactive : A) (body : DB Tables A) : DB Tables A :=
  InTx (active ← lockInstanceAndCheckCollectionActive instanceID;
        if (active : bool) then body else mret inactive).

(** The key of the task state row of a run. *)
Definition run_row (run : scheduledRun) : string * TaskID := (target_ID (run_target run), task_ID (run_task run)).

Definition recordStarted (run : scheduledRun) : DB Tables bool :=
  wrap "record collection task start" (if_active (target_ID (run_target run)) false
    (_ ← exec (on_task_state (upsert (run_row run)
       (MkTaskState (Some (timestamptz (run_dueAt run))) (Some (timestamptz (run_startedAt run)))
          None None None 0 None None None)
       (fun old => MkTaskState (Some (timestamptz (run_dueAt run))) (Some (timestamptz (run_startedAt run)))
          (last_finished_at old) (last_success_at old) (last_result old) (consecutive_failures old)
          (next_eligible_at old) (last_error_code old) (last_error_message old))));
     mret true)).

Definition recordUnmet (now : Time) (run : scheduledRun) (result : taskResult) (nextEligible : Time)
    : DB Tables unit :=
  let code := string_of_result result in
  let message := collectionErrorMessage code in
  if_active (target_ID (run_target run)) tt
    (_ ← exec (on_task_state (upsert (run_row run)
       (MkTaskState (Some (timestamptz (run_dueAt run))) None (Some (timestamptz now)) None (Some result) 0
          (nullableTimestamp nextEligible) (Some code) (Some message))
       (fun old => MkTaskState (Some (timestamptz (run_dueAt run))) (last_started_at old)
          (Some (timestamptz now)) (last_success_at old) (Some result) (consecutive_failures old)
          (if bool_decide (result = resultBackoff) then next_eligible_at old else nullableTimestamp nextEligible)
          (Some code) (Some message))));
     setSourceFailure (target_ID (run_target run)) "COLLECTION_FAILED" message).

Definition recordCapabilityBlocked (finished : Time) (run : scheduledRun) (reason : CapabilityBlockReason)
    : DB Tables unit :=
  let code := string_of_block reason in
  let message := collectionErrorMessage code in
  if_active (target_ID (run_target run)) tt
    (_ ← exec (on_task_state (upsert (run_row run)
       (MkTaskState (Some (timestamptz (run_dueAt run))) None (Some (timestamptz finished)) None
          (Some resultFailed) 0 None (Some code) (Some message))
       (fun old => MkTaskState (Some (timestamptz (run_dueAt run))) (last_started_at old)
          (Some (timestamptz finished)) (last_success_at old) (Some resultFailed) 0 None
          (Some code) (Some message))));
     setSourceFailure (target_ID (run_target run)) code message).

(** A task whose last due time it has not yet met. *)
Definition outstanding (row : TaskState) : bool :=
  match last_due_at row, last_success_at row with
  | Some due, Some success => success <? due
  | _, _ => true
  end.

Definition rows_of (instanceID : string) (t : Tables) : list TaskState :=
  map snd (filter (fun entry => entry.1.1 = instanceID) (map_to_list (t_task_state t))).

Definition advanceCollectionWatermarkIfComplete (instanceID : string) (finished : Time) : DB Tables unit :=
  complete ← query (fun t => negb (existsb outstanding (rows_of instanceID t)));
  if negb (complete : bool) then mret tt
  else
    counterResetPending ← query (fun t =>
      existsb (fun row => bool_decide (last_error_code row = Some errorCodeCounterReset)) (rows_of instanceID t));
    if (counterResetPending : bool) then
      exec (on_collect_state (upsert (instanceID, SERVER_DIRECT)
        (MkCollectState (Some (timestamptz finished)) None None None)
        (fun old => MkCollectState (Some (timestamptz finished)) (source_last_report_at old)
                      (source_last_error_code old) (source_last_error_message old))))
    else SetCollectSuccess instanceID finished.

Definition recordCapabilityNotApplicable (finished : Time) (run : scheduledRun) (reason : CapabilityBlockReason)
    : DB Tables unit :=
  let code := string_of_block reason in
  let message := collectionErrorMessage code in
  if_active (target_ID (run_target run)) tt
    (_ ← exec (on_task_state (upsert (run_row run)
       (MkTaskState (Some (timestamptz (run_dueAt run))) None (Some (timestamptz finished))
          (Some (timestamptz finished)) (Some resultSuccess) 0 None (Some code) (Some message))
       (fun old => MkTaskState (Some (timestamptz (run_dueAt run))) (last_started_at old)
          (Some (timestamptz finished)) (Some (timestamptz finished)) (Some resultSuccess) 0 None
          (Some code) (Some message))));
     advanceCollectionWatermarkIfComplete (target_ID (run_target run)) finished).

(** The transaction [recordFailure] writes. *)
Definition failure_write (finished : Time) (run : scheduledRun) (result : taskResult) (code : string)
    (connectionFailure : bool) : DB Tables unit :=
  let id := target_ID (run_target run) in
  let message := collectionErrorMessage code in
  if_active id tt
    (stored ← taskFailureCount id (task_ID (run_task run));
     let failures := incr stored in
     let taskNextEligible :=
       if negb (isProbe (run_task run)) && negb connectionFailure
       then TimeAdd finished (failureBackoff (task_Kind (run_task run)) (run_interval run) failures)
       else ZeroTime in
     _ ← (if connectionFailure then
            storedConnection ← connectionFailureCount id;
            let connectionFailures := incr storedConnection in
            let connectionNextEligible :=
              TimeAdd finished (failureBackoff TaskKindSQL (run_interval run) connectionFailures) in
            exec_count connectionFailures (on_connection_state (<[id :=
              MkConnectionState connectionFailures (Some (timestamptz connectionNextEligible))
                (Some code) (Some message)]>))
          else mret tt);
     _ ← exec_count failures (on_task_state (upsert (run_row run)
       (MkTaskState (Some (timestamptz (run_dueAt run))) (Some (timestamptz (run_startedAt run)))
          (Some (timestamptz finished)) None (Some result) failures (nullableTimestamp taskNextEligible)
          (Some code) (Some message))
       (fun old => MkTaskState (Some (timestamptz (run_dueAt run))) (Some (timestamptz (run_startedAt run)))
          (Some (timestamptz finished)) (last_success_at old) (Some result) failures
          (nullableTimestamp taskNextEligible) (Some code) (Some message))));
     if isProbe (run_task run) then
       _ ← insertSample id MetricAvailabilityReachable (reachability "unreachable") finished;
       setSourceFailure id "DB_UNREACHABLE" message
     else setSourceFailure id "COLLECTION_FAILED" message).

(** The transaction [recordSuccess] writes. *)
Definition success_write (finished : Time) (run : scheduledRun) (batch : collectedBatch) : DB Tables unit :=
  let id := target_ID (run_target run) in
  let resetMessage := collectionErrorMessage errorCodeCounterReset in
  if_active id tt
    (_ ← for_each (fun sample => insertCollectedSample id sample finished) (batch_samples batch);
     _ ← (match batch_statActivity batch with
          | Some snapshot => persistStatActivitySnapshot id finished snapshot | None => mret tt end);
     _ ← (match batch_queryStatistics batch with
          | Some entries => persistQueryStatisticsSnapshot id finished entries | None => mret tt end);
     _ ← exec (on_task_state (update_row (run_row run) (fun old =>
       MkTaskState (Some (timestamptz (run_dueAt run))) (Some (timestamptz (run_startedAt run)))
         (Some (timestamptz finished)) (Some (timestamptz finished)) (Some resultSuccess) 0 None
         (if batch_counterReset batch then Some errorCodeCounterReset else None)
         (if batch_counterReset batch then Some resetMessage else None))));
     _ ← (if batch_counterReset batch then setSourceFailure id errorCodeCounterReset resetMessage else mret tt);
     _ ← (if isProbe (run_task run)
          then exec (on_connection_state (<[id := MkConnectionState 0 None None None]>)) else mret tt);
     advanceCollectionWatermarkIfComplete id finished).

(** [withPartitionRepair]: the outcome, and whether a partition write failure was
    published to the platform health. *)
Definition withPartitionRepair (span : Duration) (observedAt : Time) (write : DB Tables unit)
    : DB Tables (result unit * bool) :=
  first ← attempt write;
  match first with
  | Ok _ => mret (Ok tt, false)
  | Err e =>
      if negb (IsMissingPartition e) then mret (Err e, false)
      else
        repaired ← attempt (on_sample_store (EnsurePartitionsWithSpan observedAt span));
        match repaired with
        | Err e => mret (Err e, true)
        | Ok _ =>
            second ← attempt write;
            match second with Err e => mret (Err e, true) | Ok _ => mret (Ok tt, false) end
        end
  end.

Definition recordFailure (span : Duration) (finished : Time) (run : scheduledRun) (result : taskResult)
    (code : string) (connectionFailure : bool) : DB Tables (Prelude.result unit * bool) :=
  withPartitionRepair span finished (failure_write finished run result code connectionFailure).

Definition recordSuccess (span : Duration) (finished : Time) (run : scheduledRun) (batch : collectedBatch)
    : DB Tables (result unit * bool) :=
  withPartitionRepair span finished (success_write finished run batch).

Definition recordPlatformDatabaseCapacityEmergency (finished : Time) (run : scheduledRun) : DB Tables unit :=
  let code := errorCodePlatformDatabaseCapacityEmergency in
  let message := collectionErrorMessage code in
  if_active (target_ID (run_target run)) tt
    (_ ← statement (fun t =>
       match t_task_state t !! run_row run with
       | None => Ok (tt, t)
       | Some old =>
           if consecutive_failures old + 1 <? 2 ^ 31
           then Ok (tt, on_task_state (<[run_row run :=
             MkTaskState (Some (timestamptz (run_dueAt run))) (Some (timestamptz (run_startedAt run)))
               (Some (timestamptz finished)) (last_success_at old) (Some resultFailed)
               (consecutive_failures old + 1) None (Some code) (Some message)]>) t)
           else Err (ErrPg "22003")
       end);
     setSourceFailure (target_ID (run_target run)) code message).

(** When a run may start: the later of its task's and its connection's backoff. *)
Definition nextEligible (run : scheduledRun) : DB Tables Time :=
  if isProbe (run_task run) || isCapabilitySnapshotTask (run_task run) then mret ZeroTime
  else query (fun t =>
    match t_task_state t !! run_row run with
    | None => ZeroTime
    | Some task =>
        let connectionNext := t_connection_state t !! target_ID (run_target run) ≫= conn_next_eligible_at in
        match next_eligible_at task, connectionNext with
        | Some taskNext, None => taskNext
        | Some taskNext, Some connection => if After taskNext connection then taskNext else connection
        | None, Some connection => connection
        | None, None => ZeroTime
        end
    end).

Definition storeCapabilitySnapshotIfCollectionActive (instanceID : string) (observedAt : Time)
    (states : CapabilityStates) : DB Tables bool :=
  if_active instanceID false (_ ← StoreSnapshot instanceID observedAt states; mret true).

(** * The operations as one transition system *)

(** One attempt of an operation to write the tables, with the time it reads. *)
Inductive record_op : Type :=
  | OpStarted (run : scheduledRun)
  | OpUnmet (run : scheduledRun) (result : taskResult) (nextEligible : Time)
  | OpBlocked (run : scheduledRun) (reason : CapabilityBlockReason)
  | OpNotApplicable (run : scheduledRun) (reason : CapabilityBlockReason)
  | OpFailure (run : scheduledRun) (result : taskResult) (code : string) (connectionFailure : bool)
  | OpSuccess (run : scheduledRun) (batch : collectedBatch)
  | OpEmergency (run : scheduledRun)
  | OpCapability (instanceID : string) (states : CapabilityStates).

Definition op_instance (op : record_op) : string :=
  match op with
  | OpStarted run | OpUnmet run _ _ | OpBlocked run _ | OpNotApplicable run _ | OpFailure run _ _ _
  | OpSuccess run _ | OpEmergency run => target_ID (run_target run)
  | OpCapability instanceID _ => instanceID
  end.

Definition ignore {A} (m : DB Tables A) : DB Tables unit := _ ← m; mret tt.

Definition perform (now : Time) (op : record_op) : DB Tables unit :=
  match op with
  | OpStarted run => ignore (recordStarted run)
  | OpUnmet run result nextEligible => recordUnmet now run result nextEligible
  | OpBlocked run reason => recordCapabilityBlocked now run reason
  | OpNotApplicable run reason => recordCapabilityNotApplicable now run reason
  | OpFailure run result code connectionFailure => failure_write now run result code connectionFailure
  | OpSuccess run batch => success_write now run batch
  | OpEmergency run => recordPlatformDatabaseCapacityEmergency now run
  | OpCapability instanceID states => ignore (storeCapabilitySnapshotIfCollectionActive instanceID now states)
  end.

(** * Facts *)

Definition is_active (instanceID : string) (t : Tables) : Prop :=
  is_Some (t_instance t !! instanceID) /\ t_paused t !! instanceID = Some false.

#[export] Instance is_active_dec instanceID t : Decision (is_active instanceID t).
Proof. unfold is_active. apply _. Defined.

(** What the guarded body of an operation is. *)
Lemma lock_plain instanceID t :
  lockInstanceAndCheckCollectionActive instanceID [] t =
  (match t_instance t !! instanceID, t_paused t !! instanceID with
   | Some _, Some paused => Ok (negb paused) | _, _ => Err ErrNoRows end, t, []).
Proof.
  unfold lockInstanceAndCheckCollectionActive, lockInstance. run_plain.
  by destruct (t_instance t !! instanceID), (t_paused t !! instanceID).
Qed.

#[export] Instance lock_propagates instanceID : Propagates (lockInstanceAndCheckCollectionActive instanceID).
Proof. unfold lockInstanceAndCheckCollectionActive, lockInstance. apply _. Qed.

Lemma plain_if_active {A} instanceID (inactive : A) body `{!Propagates body} t :
  plain (if_active instanceID inactive body) t =
  match t_instance t !! instanceID, t_paused t !! instanceID with
  | Some _, Some true => (Ok inactive, t)
  | Some _, Some false => match plain body t with (Ok a, t') => (Ok a, t') | (Err e, _) => (Err e, t) end
  | _, _ => (Err ErrNoRows, t)
  end.
Proof.
  unfold if_active. rewrite plain_InTx. unfold mbind, DB_bind. rewrite lock_plain. unfold plain.
  destruct (t_instance t !! instanceID), (t_paused t !! instanceID) as [[]|]; simpl; try done.
  destruct (body [] t) as [[[a|e] t'] fs] eqn:E; [|done].
  pose proof (propagates _ _ _ _ _ E) as E'. rewrite E in E'. injection E' as ->. done.
Qed.

#[export] Instance if_active_propagates {A} instanceID (inactive : A) body :
  Propagates body -> Propagates (if_active instanceID inactive body).
Proof. unfold if_active. apply _. Qed.

Lemma if_active_effect {A} instanceID (inactive : A) body `{!Propagates body} fs t :
  let t' := tables_after (if_active instanceID inactive body) fs t in
  t' = t \/ (is_active instanceID t /\ exists a, body [] t = (Ok a, t', [])).
Proof.
  pose proof (InTx_atomic (active ← lockInstanceAndCheckCollectionActive instanceID;
        if (active : bool) then body else mret inactive) fs t) as H.
  fold (if_active instanceID inactive body) in H. unfold tables_after.
  destruct (if_active instanceID inactive body fs t) as [[r t'] fs']. simpl.
  destruct H as [(a&H&_)|[-> _]]; [|by left]. rewrite plain_if_active in H by done.
  unfold is_active. destruct (t_instance t !! instanceID), (t_paused t !! instanceID) as [[]|];
    simplify_eq; try by left. right. split; [by eauto|]. unfold plain in H.
  destruct (body [] t) as [[[a'|] t1] fs1] eqn:E; simplify_eq/=. exists a.
  pose proof (propagates _ _ _ _ _ E). congruence.
Qed.

Lemma ignore_after {A} (m : DB Tables A) fs t : tables_after (ignore m) fs t = tables_after m fs t.
Proof. unfold tables_after, ignore, mbind, DB_bind. by destruct (m fs t) as [[[?|?] ?] ?]. Qed.

Lemma wrap_after {A} message (m : DB Tables A) fs t : tables_after (wrap message m) fs t = tables_after m fs t.
Proof. unfold tables_after, wrap. by destruct (m fs t) as [[[?|?] ?] ?]. Qed.

(** The state of the collection itself, which samples and snapshots do not touch. *)
Definition control (t : Tables) :=
  (t_instance t, t_paused t, t_task_state t, t_connection_state t, t_collect_state t, t_capability t).

#[export] Instance insertCollectedSample_keeps instanceID sample observedAt :
  Keeps control (insertCollectedSample instanceID sample observedAt).
Proof.
  apply bind_keeps; [|intros; by apply focus_keeps].
  apply statement_keeps. intros t a t' H. case_match; [|done]. by injection H as <- <-.
Qed.

#[export] Instance persistStatActivitySnapshot_keeps instanceID sampledAt snapshot :
  Keeps control (persistStatActivitySnapshot instanceID sampledAt snapshot).
Proof.
  unfold persistStatActivitySnapshot, persistLongQuerySamples, persistLatestSessionSnapshot, exec_count.
  repeat first [apply bind_keeps; intros | case_match; try apply _ | apply _
    | apply statement_keeps; intros ? ? ? Hst; repeat case_match; simplify_eq; reflexivity].
Qed.

#[export] Instance persistQueryStatisticsSnapshot_keeps instanceID sampledAt entries :
  Keeps control (persistQueryStatisticsSnapshot instanceID sampledAt entries).
Proof.
  unfold persistQueryStatisticsSnapshot, persistNormalizedStatementText, PersistNormalizedStatementTexts.
  repeat first [apply bind_keeps; intros | case_match; try apply _ | apply _
    | apply statement_keeps; intros ? ? ? Hst; repeat case_match; simplify_eq; reflexivity].
Qed.

(** Every operation passes its errors on. *)
Ltac propagates := repeat first [apply bind_propagates; intros | apply _ | case_match; try apply _].

#[export] Instance SetCollectFailure_propagates id code message : Propagates (SetCollectFailure id code message).
Proof. unfold SetCollectFailure. apply _. Qed.

#[export] Instance setSourceFailure_propagates id code message : Propagates (setSourceFailure id code message).
Proof. unfold setSourceFailure. apply _. Qed.

#[export] Instance exec_count_propagates n f : Propagates (exec_count n f).
Proof. unfold exec_count. apply _. Qed.

#[export] Instance insertCollectedSample_propagates id sample observedAt :
  Propagates (insertCollectedSample id sample observedAt).
Proof. unfold insertCollectedSample, UpsertSeries, on_sample_store. propagates. Qed.

#[export] Instance advance_propagates id finished : Propagates (advanceCollectionWatermarkIfComplete id finished).
Proof. unfold advanceCollectionWatermarkIfComplete, SetCollectSuccess. propagates. Qed.

#[export] Instance persistStatActivitySnapshot_propagates id sampledAt snapshot :
  Propagates (persistStatActivitySnapshot id sampledAt snapshot).
Proof.
  unfold persistStatActivitySnapshot, persistLongQuerySamples, persistLatestSessionSnapshot. propagates.
Qed.

#[export] Instance persistQueryStatisticsSnapshot_propagates id sampledAt entries :
  Propagates (persistQueryStatisticsSnapshot id sampledAt entries).
Proof.
  unfold persistQueryStatisticsSnapshot, persistNormalizedStatementText, PersistNormalizedStatementTexts. propagates.
Qed.


(** The collection watermark of an instance. *)
Definition watermark (instanceID : string) (t : Tables) : option Time :=
  t_collect_state t !! (instanceID, SERVER_DIRECT) ≫= source_last_success_at.

#[export] Instance setSourceFailure_keeps_watermark id other code message :
  Keeps (watermark id) (setSourceFailure other code message).
Proof.
  apply exec_keeps. intros t. unfold watermark, on_collect_state, upsert. simpl.
  destruct (decide (id = other)) as [->|Hne]; [|by rewrite lookup_insert_ne by congruence].
  rewrite lookup_insert_eq. by destruct (t_collect_state t !! _).
Qed.

Lemma control_keeps {A} (m : DB Tables A) id : Keeps control m -> Keeps (watermark id) m.
Proof.
  intros H fs t. specialize (H fs t). unfold control in H. injection H as _ _ _ _ Hc _.
  unfold watermark. by rewrite Hc.
Qed.

#[export] Hint Extern 5 (Keeps (watermark _) _) => (apply control_keeps; apply _) : typeclass_instances.

(** Advancing the watermark writes the finishing time, and only when no task of
    the instance is outstanding. *)
Lemma advance_effect id finished t a t' :
  advanceCollectionWatermarkIfComplete id finished [] t = (Ok a, t', []) ->
  (forall other, other <> id -> watermark other t' = watermark other t) /\
  t_task_state t' = t_task_state t /\
  (watermark id t' = watermark id t \/
   (watermark id t' = Some (timestamptz finished) /\ existsb outstanding (rows_of id t) = false)).
Proof.
  unfold advanceCollectionWatermarkIfComplete, SetCollectSuccess. run_plain.
  destruct (existsb outstanding (rows_of id t)) eqn:E; simpl; [intros ?; simplify_eq; auto|].
  destruct (existsb (fun row => bool_decide _) (rows_of id t)); simpl; intros ?; simplify_eq; unfold watermark, on_collect_state, upsert; simpl;
    (split_and!; [intros; by rewrite lookup_insert_ne by congruence|done|right]);
    rewrite lookup_insert_eq; by destruct (t_collect_state t !! _).
Qed.

Lemma rows_of_ext id t t' : t_task_state t' = t_task_state t -> rows_of id t' = rows_of id t.
Proof. unfold rows_of. by intros ->. Qed.

(** The watermark after [m] followed by the advance. *)
Definition advanced (id : string) (finished : Time) (t t' : Tables) : Prop :=
  forall other, watermark other t' <> watermark other t ->
    other = id /\ watermark id t' = Some (timestamptz finished) /\
    Forall (fun row => outstanding row = false) (rows_of id t').

Lemma advance_advanced id finished t0 t a t' :
  (forall other, watermark other t = watermark other t0) ->
  advanceCollectionWatermarkIfComplete id finished [] t = (Ok a, t', []) -> advanced id finished t0 t'.
Proof.
  intros Heq (Hother&Htask&Hid)%advance_effect other Hne.
  destruct (decide (other = id)) as [->|Hneq]; [|by rewrite Hother, Heq in Hne].
  destruct Hid as [Hid|[Hid Hout]]; [by rewrite Hid, Heq in Hne|]. split_and!; try done.
  rewrite (rows_of_ext _ _ _ Htask). apply Forall_forall. intros row Hin. apply not_true_iff_false.
  intros Ho. apply not_true_iff_false in Hout. apply Hout, existsb_exists. exists row.
  by rewrite <-list_elem_of_In.
Qed.

(** Opens a fault-free sequence of steps in [H]. *)
Ltac open_steps H :=
  repeat (match type of H with mbind _ _ [] _ = _ => idtac end;
          apply bind_Ok_inv in H; [|first [apply _|propagates]];
          let a := fresh "a" in let t1 := fresh "t" in let Hs := fresh "Hstep" in
          destruct H as (a&t1&Hs&H)).

Lemma keeps_step {A B} (f : Tables -> B) (m : DB Tables A) `{!Keeps f m} t a t' fs :
  m [] t = (Ok a, t', fs) -> f t' = f t.
Proof. intros H. pose proof (keeps [] t) as Hk. unfold tables_after in Hk. by rewrite H in Hk. Qed.

Lemma success_write_watermark fs now run batch t :
  let id := target_ID (run_target run) in
  let t' := tables_after (success_write now run batch) fs t in
  t' = t \/ (is_active id t /\ advanced id now t t').
Proof.
  cbv zeta. unfold success_write.
  match goal with |- context [if_active ?i ?x ?b] => assert (Propagates b) as Hp by propagates;
    destruct (if_active_effect i x b fs t) as [->|(Hact&a&H)]; [by left|] end.
  right. split; [done|]. clear Hp. revert H.
  match goal with |- context [tables_after ?m fs t] => generalize (tables_after m fs t) end. intros t' H. open_steps H. eapply advance_advanced; [|exact H].
  intros other.
  repeat match goal with Hs : _ [] _ = (Ok _, ?t1, _) |- watermark _ ?t1 = _ =>
    rewrite (keeps_step (watermark other) _ _ _ _ _ Hs); clear Hs end.
  done.
Qed.

Lemma not_applicable_watermark fs now run reason t :
  let id := target_ID (run_target run) in
  let t' := tables_after (recordCapabilityNotApplicable now run reason) fs t in
  t' = t \/ (is_active id t /\ advanced id now t t').
Proof.
  cbv zeta. unfold recordCapabilityNotApplicable.
  match goal with |- context [if_active ?i ?x ?b] => assert (Propagates b) as Hp by propagates;
    destruct (if_active_effect i x b fs t) as [->|(Hact&a&H)]; [by left|] end.
  right. split; [done|]. clear Hp. revert H.
  match goal with |- context [tables_after ?m fs t] => generalize (tables_after m fs t) end. intros t' H. open_steps H. eapply advance_advanced; [|exact H].
  intros other. by rewrite (keeps_step (watermark other) _ _ _ _ _ Hstep).
Qed.

#[export] Instance lock_keeps {B} (f : Tables -> B) id : Keeps f (lockInstanceAndCheckCollectionActive id).
Proof.
  unfold lockInstanceAndCheckCollectionActive, lockInstance.
  apply bind_keeps; [|intros _]; apply statement_keeps; intros t a t' H; case_match; congruence.
Qed.

#[export] Instance if_active_keeps {A B} (f : Tables -> B) id (inactive : A) body :
  Keeps f body -> Keeps f (if_active id inactive body).
Proof. unfold if_active. apply _. Qed.

#[export] Instance exec_count_keeps {B} (f : Tables -> B) n g : Keeps f (exec g) -> Keeps f (exec_count n g).
Proof.
  intros H. apply statement_keeps. intros t a t' E. destruct (count_fault n); simplify_eq. exact (H [] t).
Qed.

(** The operations that never move a watermark. *)
Lemma perform_keeps_watermark now op other :
  (forall run batch, op <> OpSuccess run batch) -> (forall run reason, op <> OpNotApplicable run reason) ->
  Keeps (watermark other) (perform now op).
Proof.
  intros H1 H2. destruct op as [run|run res e|run reason|run reason|run res code conn|run batch|run|id states];
    cbn [perform]; try (by destruct (H1 run batch)); try (by destruct (H2 run reason));
    unfold ignore, recordStarted, recordUnmet, recordCapabilityBlocked, failure_write,
      recordPlatformDatabaseCapacityEmergency, storeCapabilitySnapshotIfCollectionActive, insertSample,
      taskFailureCount, connectionFailureCount, StoreSnapshot; cbv zeta; try apply _.
  apply if_active_keeps, bind_keeps; [|apply _]. apply statement_keeps. intros t a t' H.
  repeat case_match; by simplify_eq.
Qed.

(** An operation that changes the tables completely or not at all, and only for
    an instance whose collection is active. *)
Class Atomic {A} (instanceID : string) (m : DB Tables A) : Prop :=
  atomic : forall fs t, tables_after m fs t = t \/
    (is_active instanceID t /\ exists a, m [] t = (Ok a, tables_after m fs t, [])).

#[export] Instance if_active_atomic {A} instanceID (inactive : A) body :
  Propagates body -> Atomic instanceID (if_active instanceID inactive body).
Proof.
  intros Hb fs t. destruct (if_active_effect instanceID inactive body fs t) as [->|(Hact&a&H)]; [by left|].
  right. split; [done|]. exists a. destruct Hact as [[row Hrow] Hpaused].
  unfold if_active, InTx. cbn [next_fate]. unfold mbind, DB_bind. rewrite lock_plain, Hrow, Hpaused. simpl.
  by rewrite H.
Qed.

#[export] Instance ignore_atomic {A} instanceID (m : DB Tables A) : Atomic instanceID m -> Atomic instanceID (ignore m).
Proof.
  intros Hm fs t. rewrite ignore_after. destruct (Hm fs t) as [H|(Hact&a&H)]; [by left|]. right.
  split; [done|]. exists tt. unfold ignore, mbind, DB_bind. by rewrite H.
Qed.

#[export] Instance wrap_atomic {A} instanceID message (m : DB Tables A) :
  Atomic instanceID m -> Atomic instanceID (wrap message m).
Proof.
  intros Hm fs t. rewrite wrap_after. destruct (Hm fs t) as [H|(Hact&a&H)]; [by left|]. right.
  split; [done|]. exists a. unfold wrap. by rewrite H.
Qed.

Ltac open_operations :=
  unfold ignore, recordStarted, recordUnmet, recordCapabilityBlocked, recordCapabilityNotApplicable, failure_write,
    success_write, recordPlatformDatabaseCapacityEmergency, storeCapabilitySnapshotIfCollectionActive, insertSample,
    taskFailureCount, connectionFailureCount, StoreSnapshot; cbv zeta.

#[export] Instance perform_propagates now op : Propagates (perform now op).
Proof. destruct op; cbn [perform]; open_operations; propagates. Qed.

#[export] Instance perform_atomic now op : Atomic (op_instance op) (perform now op).
Proof.
  destruct op; cbn [perform op_instance]; try apply ignore_atomic; try apply wrap_atomic;
    open_operations; try apply wrap_atomic; apply if_active_atomic; propagates.
Qed.

(** ** The rows of the task states *)

(** A row says how its last run ended: after a success it counts no failure,
    defers nothing and was met when it finished. *)
Definition row_ok (row : TaskState) : Prop :=
  0 <= consecutive_failures row < 2 ^ 31 /\
  (last_result row = Some resultSuccess ->
     consecutive_failures row = 0 /\ next_eligible_at row = None /\
     last_success_at row = last_finished_at row /\ is_Some (last_finished_at row)).

Definition rows_ok (t : Tables) : Prop := map_Forall (fun _ => row_ok) (t_task_state t).

(** Results are passed to the operations as the code does. *)
Definition op_ok (op : record_op) : Prop :=
  match op with
  | OpUnmet _ result _ => result = resultSkippedBackpressure \/ result = resultBackoff
  | OpFailure _ result _ _ => result = resultFailed \/ result = resultTimedOut
  | _ => True
  end.

Lemma upsert_rows (key : string * TaskID) insert update t :
  rows_ok t -> row_ok insert -> (forall old, row_ok old -> row_ok (update old)) ->
  rows_ok (on_task_state (upsert key insert update) t).
Proof.
  unfold rows_ok. simpl. generalize (t_task_state t). intros m Hm Hi Hu. apply map_Forall_insert_2; [|done]. destruct (m !! key) eqn:E; [apply Hu, (Hm _ _ E)|done].
Qed.

Lemma update_rows (key : string * TaskID) update t :
  rows_ok t -> (forall old, row_ok old -> row_ok (update old)) -> rows_ok (on_task_state (update_row key update) t).
Proof.
  unfold rows_ok, update_row. simpl. intros Hm Hu. destruct (t_task_state t !! key) eqn:E; [|done].
  apply map_Forall_insert_2; [apply Hu, (Hm _ _ E)|done].
Qed.

Lemma exec_step (f : Tables -> Tables) t a t' fs : exec f [] t = (Ok a, t', fs) -> t' = f t.
Proof. unfold exec, statement. simpl. congruence. Qed.

Lemma exec_count_step n f t a t' fs :
  exec_count n f [] t = (Ok a, t', fs) -> t' = f t /\ 0 <= n < 2 ^ 31.
Proof.
  unfold exec_count, statement, count_fault. simpl.
  destruct (Z.ltb_spec n 0); [congruence|]. destruct (Z.leb_spec (2 ^ 31) n); [congruence|].
  intros H1. split; [congruence|lia].
Qed.

Lemma control_keeps_rows {A} (m : DB Tables A) : Keeps control m -> Keeps t_task_state m.
Proof. intros H fs t. specialize (H fs t). unfold control in H. by injection H. Qed.

#[export] Hint Extern 5 (Keeps t_task_state _) => (apply control_keeps_rows; apply _) : typeclass_instances.

#[export] Instance setSourceFailure_keeps_rows id code message : Keeps t_task_state (setSourceFailure id code message).
Proof. by apply exec_keeps. Qed.

#[export] Instance advance_keeps_rows id finished : Keeps t_task_state (advanceCollectionWatermarkIfComplete id finished).
Proof. unfold advanceCollectionWatermarkIfComplete, SetCollectSuccess. apply _. Qed.

Lemma rows_step {A} (m : DB Tables A) `{!Keeps t_task_state m} t a t' fs :
  m [] t = (Ok a, t', fs) -> rows_ok t -> rows_ok t'.
Proof. intros H. unfold rows_ok. by rewrite (keeps_step t_task_state _ _ _ _ _ H). Qed.

(** Follows a fault-free run backwards, over the steps that do not write a task
    state. *)
Ltac rows_back :=
  repeat match goal with
    | Hs : _ [] _ = (Ok _, ?t1, _) |- rows_ok ?t1 =>
        first [ apply (rows_step _ _ _ _ _ Hs); clear Hs | apply exec_step in Hs; subst t1
              | apply exec_count_step in Hs as [-> Hs] ]
    end.

Lemma perform_rows_ok now op fs t :
  op_ok op -> rows_ok t -> rows_ok (tables_after (perform now op) fs t).
Proof.
  intros Hop Hrows.
  destruct op as [run|run res e|run reason|run reason|run res code conn|run batch|run|id states];
    cbn [perform op_ok] in *; rewrite ?ignore_after; open_operations; rewrite ?wrap_after;
    match goal with |- context [if_active ?i ?x ?b] => assert (Propagates b) as Hp by propagates;
      destruct (if_active_effect i x b fs t) as [->|(Hact&a&H)]; [done|] end;
    clear Hp Hact; revert H;
    match goal with |- context [tables_after ?m fs t] => generalize (tables_after m fs t) end;
    intros t' H; open_steps H.
  - rows_back. apply upsert_rows; [done|by split|]. intros old [? ?]. by split.
  - rows_back. apply upsert_rows; [done| |intros old [? ?]]; (split; [done|]); simpl; destruct Hop as [->| ->]; done.
  - rows_back. apply upsert_rows; [done| |intros old _]; by split.
  - rows_back. apply upsert_rows; [done| |intros old _]; (split; [done|]); simpl; eauto.
  - rows_back. apply upsert_rows; [by rows_back| |intros old _]; (split; [done|]); simpl; destruct Hop as [->| ->]; done.
  - rows_back. apply update_rows; [by rows_back|]. intros old _. split; [done|]. simpl. eauto.
  - rows_back. unfold statement in Hstep. cbn [next_fate] in Hstep.
    destruct (t_task_state t !! run_row run) as [old|] eqn:E; [|by injection Hstep as _ <-].
    destruct (Z.ltb_spec (consecutive_failures old + 1) (2 ^ 31)); [|done]. injection Hstep as _ <-.
    apply map_Forall_insert_2; [|done]. destruct (Hrows _ _ E). split; [simpl; lia|done].
  - rows_back. done.
Qed.

(** ** Backoff *)

Lemma backoff_loop_closed fuel backoff count failures :
  0 < backoff -> 60 * Second <= backoff * 2 ^ Z.of_nat fuel -> count <= failures < 2 ^ 63 -> 0 <= count ->
  Z.min (60 * Second) (backoff_loop fuel backoff count failures) =
  Z.min (60 * Second) (backoff * 2 ^ (failures - count)).
Proof.
  revert backoff count. induction fuel as [|fuel IH]; intros backoff count Hb Hf Hc Hc0.
  { simpl. rewrite Z.mul_1_r in Hf. assert (1 <= 2 ^ (failures - count)) by (apply (Z.pow_le_mono_r 2 0); lia). nia. }
  cbn [backoff_loop]. destruct (Z.ltb_spec count failures) as [Hlt|Hge]; cbn [andb].
  2:{ replace failures with count by lia. by rewrite Z.sub_diag, Z.mul_1_r. }
  destruct (Z.ltb_spec backoff (60 * Second)) as [Hlt60|Hge60].
  - rewrite int64_id by (unfold in_int64, Second in *; lia). rewrite incr_id by lia.
    rewrite IH; [|lia| |lia..].
    + f_equal. replace (failures - count) with (Z.succ (failures - (count + 1))) by lia.
      rewrite Z.pow_succ_r by lia. ring.
    + rewrite Nat2Z.inj_succ, Z.pow_succ_r in Hf by lia. lia.
  - assert (1 <= 2 ^ (failures - count)) by (apply (Z.pow_le_mono_r 2 0); lia). nia.
Qed.

(** ** Writing samples *)

Definition sample_row_of (id : string) (now : Time) (s : collectedSample) (row : SampleRow) : Prop :=
  sample_ts row = timestamptz now /\ sample_value row = cs_value s.

Lemma insert_covered id now s t :
  covered (t_samples t) (timestamptz now) = true -> Lookup Metrics (cs_metricID s) <> None ->
  exists t' row, insertCollectedSample id s now [] t = (Ok tt, t', []) /\ sample_row_of id now s row /\
    partitions (t_samples t') = partitions (t_samples t) /\
    sample_rows (t_samples t') = sample_rows (t_samples t) ++ [row].
Proof.
  intros Hc Hl. unfold insertCollectedSample, UpsertSeries, on_sample_store. run_plain.
  destruct (Lookup Metrics (cs_metricID s)); [|done]. unfold focus. cbn [next_fate].
  unfold insert_sample_row. cbn [t_samples on_series sample_ts]. rewrite Hc.
  eexists _, _. split_and!; [reflexivity| |reflexivity|reflexivity]. done.
Qed.

Lemma insert_all_covered id now samples t :
  covered (t_samples t) (timestamptz now) = true ->
  Forall (fun s => Lookup Metrics (cs_metricID s) <> None) samples ->
  exists t' rows, for_each (fun s => insertCollectedSample id s now) samples [] t = (Ok tt, t', []) /\
    Forall2 (sample_row_of id now) samples rows /\
    sample_rows (t_samples t') = sample_rows (t_samples t) ++ rows.
Proof.
  revert t. induction samples as [|s samples IH]; intros t Hc Hl.
  { exists t, []. rewrite app_nil_r. by split_and!. }
  apply Forall_cons in Hl as [Hs Hl].
  destruct (insert_covered id now s t Hc Hs) as (t1&row&E1&Hrow&Hp&Hr).
  destruct (IH t1) as (t2&rows&E2&Hrows&Hr2); [|done|].
  { unfold covered. by rewrite Hp. }
  exists t2, (row :: rows). cbn [for_each]. unfold mbind, DB_bind. rewrite E1, E2.
  split_and!; [done|by constructor|]. by rewrite Hr2, Hr, <-app_assoc.
Qed.

Lemma insert_uncovered id now samples t :
  samples <> [] -> covered (t_samples t) (timestamptz now) = false ->
  Forall (fun s => Lookup Metrics (cs_metricID s) <> None) samples ->
  exists t', for_each (fun s => insertCollectedSample id s now) samples [] t = (Err (ErrPg "23514"), t', []).
Proof.
  intros Hne Hc Hl. destruct samples as [|s samples]; [done|]. apply Forall_cons in Hl as [Hs _].
  cbn [for_each]. unfold insertCollectedSample, UpsertSeries, on_sample_store. run_plain.
  destruct (Lookup Metrics (cs_metricID s)); [|done]. unfold focus. cbn [next_fate].
  unfold insert_sample_row. cbn [t_samples on_series sample_ts]. rewrite Hc. eauto.
Qed.

Lemma advance_total id finished t :
  exists t', advanceCollectionWatermarkIfComplete id finished [] t = (Ok tt, t', []) /\ t_samples t' = t_samples t.
Proof.
  unfold advanceCollectionWatermarkIfComplete, SetCollectSuccess. run_plain.
  destruct (existsb outstanding (rows_of id t)); simpl; [eauto|].
  destruct (existsb (fun row => bool_decide _) (rows_of id t)); simpl; eauto.
Qed.

(** A batch of samples for an active instance, into covered time. *)
Lemma success_write_covered now run batch t :
  is_active (target_ID (run_target run)) t ->
  batch_statActivity batch = None -> batch_queryStatistics batch = None ->
  Forall (fun s => Lookup Metrics (cs_metricID s) <> None) (batch_samples batch) ->
  (batch_samples batch <> [] -> covered (t_samples t) (timestamptz now) = true) ->
  exists t' rows, success_write now run batch [] t = (Ok tt, t', []) /\
    Forall2 (sample_row_of (target_ID (run_target run)) now) (batch_samples batch) rows /\
    sample_rows (t_samples t') = sample_rows (t_samples t) ++ rows.
Proof.
  intros [[row Hrow] Hpaused] Hstat Hquery Hl Hc.
  assert (exists t' rows, for_each (fun s => insertCollectedSample (target_ID (run_target run)) s now)
      (batch_samples batch) [] t = (Ok tt, t', []) /\
    Forall2 (sample_row_of (target_ID (run_target run)) now) (batch_samples batch) rows /\
    sample_rows (t_samples t') = sample_rows (t_samples t) ++ rows) as (t1&rows&E&Hrows&Hr).
  { destruct (batch_samples batch) as [|s samples] eqn:Eb; [exists t, []; by rewrite app_nil_r|].
    apply insert_all_covered; [by apply Hc|done]. }
  unfold success_write, if_active, InTx. cbn [next_fate]. unfold mbind at 1, DB_bind at 1.
  rewrite lock_plain, Hrow, Hpaused. cbn [negb]. rewrite Hstat, Hquery. unfold mbind, DB_bind. rewrite E.
  unfold setSourceFailure, SetCollectFailure. run_plain.
  destruct (batch_counterReset batch), (isProbe (run_task run)); cbn [next_fate];
    (match goal with |- context [advanceCollectionWatermarkIfComplete ?i ?n [] ?t2] =>
       destruct (advance_total i n t2) as (t'&->&Ht') end;
     exists t', rows; split_and!; [done..|]; by rewrite Ht').
Qed.

Lemma success_write_uncovered now run batch t :
  is_active (target_ID (run_target run)) t -> batch_samples batch <> [] ->
  Forall (fun s => Lookup Metrics (cs_metricID s) <> None) (batch_samples batch) ->
  covered (t_samples t) (timestamptz now) = false ->
  success_write now run batch [] t = (Err (ErrPg "23514"), t, []).
Proof.
  intros [[row Hrow] Hpaused] Hne Hl Hc.
  destruct (insert_uncovered (target_ID (run_target run)) now (batch_samples batch) t Hne Hc Hl) as [t1 E].
  unfold success_write, if_active, InTx. cbn [next_fate]. unfold mbind at 1, DB_bind at 1.
  rewrite lock_plain, Hrow, Hpaused. cbn [negb]. unfold mbind, DB_bind. by rewrite E.
Qed.

(** A write that fails only for want of a partition succeeds after the repair. *)
Lemma withPartitionRepair_repairs span now write t store t' :
  write [] t = (Err (ErrPg "23514"), t, []) ->
  EnsurePartitionsWithSpan now span [] (t_samples t) = (Ok tt, store, []) ->
  write [] (on_samples (fun _ => store) t) = (Ok tt, t', []) ->
  withPartitionRepair span now write [] t = (Ok (Ok tt, false), t', []).
Proof.
  intros H1 H2 H3. unfold withPartitionRepair, mbind, DB_bind, attempt at 1. rewrite H1.
  cbn [IsMissingPartition]. rewrite bool_decide_eq_true_2 by done. cbn [negb].
  unfold attempt, on_sample_store, focus. rewrite H2. by rewrite H3.
Qed.

(** * Properties *)

(** Whatever statements fail or lose their answer, an operation on the
    collection state takes effect completely or not at all, reports success only
    when it took effect, and leaves every table as it was when the instance is
    removed or its collection is paused. *)
Theorem record_op_atomic (now : Time) (op : record_op) (fs : list fate) (t : Tables) :
  let '(r, t', _) := perform now op fs t in
  (t' = t \/ plain (perform now op) t = (Ok tt, t')) /\
  (r = Ok tt -> plain (perform now op) t = (Ok tt, t')) /\
  (~ is_active (op_instance op) t -> t' = t).
Proof.
  pose proof (atomic (instanceID := op_instance op) (m := perform now op) fs t) as H. unfold tables_after in H.
  destruct (perform now op fs t) as [[r t'] fs'] eqn:E. cbn [fst snd] in H. unfold plain. split_and!.
  - destruct H as [->|(_&[]&H)]; [by left|]. right. by rewrite H.
  - intros ->. by rewrite (propagates _ _ _ _ _ E).
  - intros Hn. by destruct H as [->|[? _]].
Qed.

(** C32. The collection watermark of an instance moves only in an operation on
    that instance while its collection is active, to the time that operation
    finished, and only when every one of its tasks has met its last due time. *)
Theorem watermark_needs_every_task (now : Time) (op : record_op) (fs : list fate) (t : Tables) (instanceID : string) :
  let t' := tables_after (perform now op) fs t in
  watermark instanceID t' <> watermark instanceID t ->
  op_instance op = instanceID /\ is_active instanceID t /\
  watermark instanceID t' = Some (timestamptz now) /\
  forall taskID row, t_task_state t' !! (instanceID, taskID) = Some row ->
    exists due success, last_due_at row = Some due /\ last_success_at row = Some success /\ due <= success.
Proof.
  intros t' Hne.
  assert (t' = t \/ (is_active (op_instance op) t /\ advanced (op_instance op) now t t')) as [Heq|[Hact Hadv]].
  { destruct op; unfold t'; cbn [perform op_instance];
      try apply success_write_watermark; try apply not_applicable_watermark.
    all: right; exfalso; apply Hne; apply (perform_keeps_watermark now); done. }
  { by rewrite Heq in Hne. }
  destruct (Hadv instanceID Hne) as (->&Hw&Hrows). split_and!; try done.
  intros taskID row Hrow. rewrite Forall_forall in Hrows.
  assert (outstanding row = false) as Ho.
  { apply Hrows. unfold rows_of. apply list_elem_of_fmap. exists ((op_instance op, taskID), row). split; [done|].
    apply list_elem_of_filter. split; [done|]. by apply elem_of_map_to_list. }
  unfold outstanding in Ho. destruct (last_due_at row) as [due|], (last_success_at row) as [success|]; try done.
  exists due, success. apply Z.ltb_ge in Ho. done.
Qed.

(** Every operation keeps the task rows consistent: failure counts stay
    within their column, and a row whose last run succeeded counts no failure,
    defers nothing and was met when that run finished. *)
Theorem task_rows_stay_consistent (now : Time) (op : record_op) (fs : list fate) (t : Tables) :
  op_ok op -> rows_ok t -> rows_ok (tables_after (perform now op) fs t).
Proof. apply perform_rows_ok. Qed.

(** A monitored instance, a run of its probe and tables in which it is due. *)
Definition demo_target : ListCollectionTargetsRow := MkTarget "i" "db" 5432 None "monitor" [] 1 1.
Definition demo_task : Task := MkTask TaskProbe TaskKindProbe EmptyString [] (10 * Second) [].
Definition demo_run : scheduledRun :=
  MkScheduledRun (MkTaskKey "i" TaskProbe) (5 * Second) (6 * Second) demo_target demo_task (10 * Second).
Definition demo_tables : Tables :=
  MkTables {["i" := demo_target]} {["i" := false]} ∅ {[("i", TaskProbe) := newTaskState]} ∅ ∅ ∅ ∅
    (MkSampleStore ∅ []) ∅ ∅ ∅ ∅ ∅ ∅ ∅.

Lemma watermark_needs_every_task_witness :
  let t' := tables_after (perform (7 * Second) (OpSuccess demo_run emptyBatch)) [] demo_tables in
  watermark "i" t' = Some (7 * Second) /\ is_active "i" demo_tables.
Proof.
  assert (watermark "i" (tables_after (perform (7 * Second) (OpSuccess demo_run emptyBatch)) [] demo_tables) <>
          watermark "i" demo_tables) as Hne by (refine (bool_decide_unpack _ _); vm_compute; exact I).
  destruct (watermark_needs_every_task (7 * Second) (OpSuccess demo_run emptyBatch) [] demo_tables "i" Hne)
    as (_&Hact&Hw&_).
  split; [exact Hw|exact Hact].
Defined.

Lemma task_rows_stay_consistent_witness :
  rows_ok (tables_after (perform (7 * Second) (OpFailure demo_run resultFailed errorCodeQueryFailed true)) [] demo_tables).
Proof.
  apply (task_rows_stay_consistent (7 * Second) (OpFailure demo_run resultFailed errorCodeQueryFailed true)).
  - by left.
  - apply map_Forall_singleton. by split.
Defined.

(** The backoff after the n-th failure in a row is the task's interval
    doubled n - 1 times, capped at sixty seconds. *)
Theorem failureBackoff_closed (kind : TaskKind) (interval : Duration) (failures : Z) :
  kind <> TaskKindProbe -> 0 < interval < 2 ^ 63 -> 1 <= failures < 2 ^ 63 ->
  failureBackoff kind interval failures = Z.min (60 * Second) (interval * 2 ^ (failures - 1)).
Proof.
  intros Hk Hi Hf. unfold failureBackoff. rewrite bool_decide_eq_false_2 by done.
  rewrite (proj2 (Z.leb_gt failures 0)) by lia. cbn [orb].
  rewrite <-(backoff_loop_closed 64 interval 1 failures); [|lia|unfold Second; lia|lia..].
  destruct (Z.ltb_spec (60 * Second) (backoff_loop 64 interval 1 failures)); lia.
Qed.

Lemma failureBackoff_closed_witness : failureBackoff TaskKindSQL (10 * Second) 3 = 40 * Second.
Proof.
  rewrite (failureBackoff_closed TaskKindSQL (10 * Second) 3); [done|done|unfold Second; lia|lia].
Defined.

(** A batch is not lost for want of a partition: for an active instance and
    catalogued metrics, recording a success stores every sample at the time it
    finished, creating the missing partitions when there are none for that time. *)
Theorem recordSuccess_stores_every_sample (span : Duration) (now : Time) (run : scheduledRun)
    (batch : collectedBatch) (t : Tables) :
  Second <= span -> 7 * span < 2 ^ 63 -> 0 <= now < 2 ^ 63 -> aligned span (t_samples t) ->
  is_active (target_ID (run_target run)) t ->
  batch_statActivity batch = None -> batch_queryStatistics batch = None ->
  Forall (fun s => Lookup Metrics (cs_metricID s) <> None) (batch_samples batch) ->
  exists t' rows, plain (recordSuccess span now run batch) t = (Ok (Ok tt, false), t') /\
    Forall2 (fun s row => sample_ts row = timestamptz now /\ sample_value row = cs_value s)
      (batch_samples batch) rows /\
    sample_rows (t_samples t') = sample_rows (t_samples t) ++ rows.
Proof.
  intros Hs Hspan Hnow Hal Hact Hstat Hquery Hl. unfold plain, recordSuccess.
  destruct (decide (batch_samples batch <> [] /\ covered (t_samples t) (timestamptz now) = false)) as [[Hne Hc]|Hc].
  - destruct (ensure_covers now now span (t_samples t)) as (store&He&_&_&Hrows&Hcov); try done; try lia.
    destruct (success_write_covered now run batch (on_samples (fun _ => store) t))
      as (t'&rows&Hw&Hrow&Hr); try done.
    { intros _. apply Hcov. pose proof (partitionBoundary_bounds now span ltac:(lia) ltac:(unfold Second in *; lia)).
      split; [apply rfc3339_timestamptz; lia|]. pose proof (timestamptz_le now).
      pose proof (rfc3339_gt (partitionBoundary now span + 8 * span)). lia. }
    exists t', rows. rewrite (withPartitionRepair_repairs span now _ t store t'); try done.
    + split_and!; try done. by rewrite Hr, <-Hrows.
    + by apply success_write_uncovered.
  - destruct (success_write_covered now run batch t) as (t'&rows&Hw&Hrow&Hr); try done.
    { intros Hne. apply not_false_iff_true. intros Hf. by apply Hc. }
    exists t', rows. unfold withPartitionRepair, mbind, DB_bind, attempt. rewrite Hw. done.
Qed.

Lemma recordSuccess_stores_every_sample_witness :
  exists t', plain (recordSuccess Minute (7 * Second) demo_run
                      (samplesBatch [MkCollectedSample MetricProbeLatencyMS (f64_of_Z 3) EmptyString ∅])) demo_tables =
             (Ok (Ok tt, false), t') /\ length (sample_rows (t_samples t')) = 1%nat.
Proof.
  destruct (recordSuccess_stores_every_sample Minute (7 * Second) demo_run
    (samplesBatch [MkCollectedSample MetricProbeLatencyMS (f64_of_Z 3) EmptyString ∅]) demo_tables)
    as (t'&rows&H&Hrows&Hr); [unfold Minute, Second; lia..|apply map_Forall_empty| |done|done| |].
  - split; [exists demo_target|]; reflexivity.
  - constructor; [|constructor]. refine (bool_decide_unpack _ _). vm_compute. exact I.
  - exists t'. split; [exact H|]. rewrite Hr, length_app, <-(Forall2_length _ _ _ Hrows). done.
Defined.
