(* ===== verification/Scheduler.v ===== *)
(** The collection scheduler ([internal/collect/scheduler.go] and the scheduling
    parts of [internal/collect/service.go]): the dispatcher's admission control,
    due times, the pending runs, and the rounds that refresh, accrue, dispatch
    and complete them. *)

From S2P Require Import Prelude Db Partitions Dictionary Catalog Capability Samples CollectState.

(** * The dispatcher *)

Inductive workClass : Type :=
  | workProbe
  | workCollectionQuery
  | workCapabilitySnapshot.

#[export] Instance workClass_eq_dec : EqDecision workClass.
Proof. solve_decision. Defined.

Record work : Type := MkWork {
  work_instanceID : string;
  work_class : workClass;
}.

#[export] Instance work_eq_dec : EqDecision work.
Proof. solve_decision. Defined.

Definition capabilitySnapshotReservedSlots : Z := 4.

(** The two [map[string]bool] only ever hold [true]: they are sets. *)
Record dispatcher : Type := MkDispatcher {
  probeLimit : Z;
  queryLimit : Z;
  activeProbes : Z;
  activeQueries : Z;
  activeCollectionQueries : Z;
  capabilitySnapshotWaiting : bool;
  instanceProbe : gset string;
  instanceQuery : gset string;
}.

Definition newDispatcher (probeLimit queryLimit : Z) : dispatcher :=
  MkDispatcher probeLimit queryLimit 0 0 0 false ∅ ∅.

Definition setWaiting (waiting : bool) (d : dispatcher) : dispatcher :=
  MkDispatcher (probeLimit d) (queryLimit d) (activeProbes d) (activeQueries d) (activeCollectionQueries d)
    waiting (instanceProbe d) (instanceQuery d).

Definition admit_work (d : dispatcher) (item : work) : bool * dispatcher :=
  let id := work_instanceID item in
  if bool_decide (work_class item = workProbe) then
    if (probeLimit d <=? activeProbes d) || bool_decide (id ∈ instanceProbe d) then (false, d)
    else (true, MkDispatcher (probeLimit d) (queryLimit d) (incr (activeProbes d)) (activeQueries d)
                  (activeCollectionQueries d) (capabilitySnapshotWaiting d)
                  ({[id]} ∪ instanceProbe d) (instanceQuery d))
  else if (queryLimit d <=? activeQueries d) || bool_decide (id ∈ instanceQuery d) then (false, d)
  else
    let isCollection := bool_decide (work_class item = workCollectionQuery) in
    let reserved := Z.min capabilitySnapshotReservedSlots (queryLimit d) in
    if isCollection && capabilitySnapshotWaiting d && (queryLimit d - reserved <=? activeCollectionQueries d)
    then (false, d)
    else (true, MkDispatcher (probeLimit d) (queryLimit d) (activeProbes d) (incr (activeQueries d))
                  (if isCollection then incr (activeCollectionQueries d) else activeCollectionQueries d)
                  (capabilitySnapshotWaiting d) (instanceProbe d) ({[id]} ∪ instanceQuery d)).

(** [x--] on an [int]. *)
Definition decr (z : Z) : Z := int64 (z - 1).

Definition finish (d : dispatcher) (item : work) : dispatcher :=
  let id := work_instanceID item in
  if bool_decide (work_class item = workProbe) then
    if bool_decide (id ∈ instanceProbe d) then
      MkDispatcher (probeLimit d) (queryLimit d) (decr (activeProbes d)) (activeQueries d)
        (activeCollectionQueries d) (capabilitySnapshotWaiting d) (instanceProbe d ∖ {[id]}) (instanceQuery d)
    else d
  else if bool_decide (id ∈ instanceQuery d) then
    MkDispatcher (probeLimit d) (queryLimit d) (activeProbes d) (decr (activeQueries d))
      (if bool_decide (work_class item = workCollectionQuery) then decr (activeCollectionQueries d)
       else activeCollectionQueries d)
      (capabilitySnapshotWaiting d) (instanceProbe d) (instanceQuery d ∖ {[id]})
  else d.

(** * Due times *)

(** FNV-1a, 64 bits, as [hash/fnv] computes it. *)
Definition fnv_offset64 : Z := 14695981039346656037.
Definition fnv_prime64 : Z := 1099511628211.

Definition fnv_byte (hash : Z) (byte : Z) : Z := uint64 (Z.lxor hash byte * fnv_prime64).

Fixpoint bytes_of (s : string) : list Z :=
  match s with
  | EmptyString => []
  | String c rest => Z.of_N (Ascii.N_of_ascii c) :: bytes_of rest
  end.

Definition fnv64a (bytes : list Z) : Z := foldl fnv_byte fnv_offset64 bytes.

Definition initialPhase (instanceID : string) (taskID : TaskID) (interval : Duration) : Duration :=
  if interval <=? 0 then 0
  else int64 (fnv64a (bytes_of instanceID ++ [0] ++ bytes_of taskID) mod uint64 interval).

Definition nextDueAfter (now : Time) (phase interval : Duration) : Time :=
  let base := phase in
  if Before now base then base
  else TimeAdd base (int64 ((Z.quot (TimeSub now base) interval + 1) * interval)).

Definition initialDue (now : Time) (run : scheduledRun) : Time :=
  if isCapabilitySnapshotTask (run_task run) then now
  else nextDueAfter now (initialPhase (key_instanceID (run_key run)) (key_taskID (run_key run)) (run_interval run))
         (run_interval run).

Definition classFor (task : Task) : workClass :=
  if isCapabilitySnapshotTask task then workCapabilitySnapshot
  else if isProbe task then workProbe else workCollectionQuery.

Definition work_of (run : scheduledRun) : work := MkWork (key_instanceID (run_key run)) (classFor (run_task run)).

Definition newScheduledRun (target : ListCollectionTargetsRow) (task : Task) (configured : Duration) (dueAt : Time)
    : scheduledRun :=
  let interval := if 0 <? configured then configured else task_Interval task in
  MkScheduledRun (MkTaskKey (target_ID target) (task_ID task)) dueAt ZeroTime target task interval.

Definition taskKeyLess (left right : taskKey) : bool :=
  if bool_decide (key_instanceID left = key_instanceID right)
  then string_ltb (key_taskID left) (key_taskID right)
  else string_ltb (key_instanceID left) (key_instanceID right).

(** * Pending runs *)

Abbreviation pendingRuns := (gmap taskKey scheduledRun) (only parsing).

Definition newPendingRuns : pendingRuns := ∅.

(** The previous run of the key, if it is replaced, and the new runs. *)
Definition pending_put (pending : pendingRuns) (run : scheduledRun) : option scheduledRun * pendingRuns :=
  (pending !! run_key run, <[run_key run := run]> pending).

Definition pending_take (pending : pendingRuns) (key : taskKey) : option scheduledRun * pendingRuns :=
  (pending !! key, delete key pending).

Definition runLess (left right : scheduledRun) : bool :=
  let leftCapability := isCapabilitySnapshotTask (run_task left) in
  let rightCapability := isCapabilitySnapshotTask (run_task right) in
  if negb (Bool.eqb leftCapability rightCapability) then leftCapability
  else if negb (run_dueAt left =? run_dueAt right) then Before (run_dueAt left) (run_dueAt right)
  else taskKeyLess (run_key left) (run_key right).

Definition ordered (pending : pendingRuns) : list scheduledRun :=
  sort_by runLess (map snd (map_to_list pending)).

Definition hasCapabilitySnapshot (pending : pendingRuns) : bool :=
  existsb (fun run => isCapabilitySnapshotTask (run_task run)) (map snd (map_to_list pending)).

(** * The scheduler *)

Record scheduleEntry : Type := MkScheduleEntry {
  entry_template : scheduledRun;
  entry_nextDue : Time;
}.

Record durationSummary : Type := MkDurationSummary {
  ds_count : Z;
  ds_total : Duration;
  ds_max : Duration;
}.

Record schedulerCounts : Type := MkSchedulerCounts {
  cnt_success : Z;
  cnt_failed : Z;
  cnt_timedOut : Z;
  cnt_skipped : Z;
  cnt_backoff : Z;
  cnt_dispatchDelayCount : Z;
  cnt_dispatchDelayTotal : Duration;
  cnt_dispatchDelayMax : Duration;
  cnt_taskDurations : gmap TaskID durationSummary;
}.

Definition newSchedulerCounts : schedulerCounts := MkSchedulerCounts 0 0 0 0 0 0 0 0 ∅.

Record centralScheduler : Type := MkScheduler {
  sched_dispatcher : dispatcher;
  sched_pending : pendingRuns;
  sched_schedule : gmap taskKey scheduleEntry;
  sched_counts : schedulerCounts;
  sched_lastSummaryAt : Time;
}.

Record Config : Type := MkConfig {
  ProbeConcurrency : Z;
  QueryConcurrency : Z;
}.

Definition DefaultConfig : Config := MkConfig 32 32.

Definition Validate (config : Config) : result unit :=
  if (ProbeConcurrency config <? 1) || (50 <? ProbeConcurrency config)
  then Err (ErrNew "probe concurrency must be between 1 and 50")
  else if (QueryConcurrency config <? 1) || (50 <? QueryConcurrency config)
  then Err (ErrNew "query concurrency must be between 1 and 50")
  else Ok tt.

Definition newCentralScheduler (config : Config) (now : Time) : centralScheduler :=
  MkScheduler (newDispatcher (ProbeConcurrency config) (QueryConcurrency config)) newPendingRuns ∅
    newSchedulerCounts now.

Definition with_dispatcher (d : dispatcher) (s : centralScheduler) : centralScheduler :=
  MkScheduler d (sched_pending s) (sched_schedule s) (sched_counts s) (sched_lastSummaryAt s).
Definition with_pending (p : pendingRuns) (s : centralScheduler) : centralScheduler :=
  MkScheduler (sched_dispatcher s) p (sched_schedule s) (sched_counts s) (sched_lastSummaryAt s).
Definition with_schedule (m : gmap taskKey scheduleEntry) (s : centralScheduler) : centralScheduler :=
  MkScheduler (sched_dispatcher s) (sched_pending s) m (sched_counts s) (sched_lastSummaryAt s).
Definition with_counts (c : schedulerCounts) (s : centralScheduler) : centralScheduler :=
  MkScheduler (sched_dispatcher s) (sched_pending s) (sched_schedule s) c (sched_lastSummaryAt s).

Definition skipped (c : schedulerCounts) : schedulerCounts :=
  MkSchedulerCounts (cnt_success c) (cnt_failed c) (cnt_timedOut c) (incr (cnt_skipped c)) (cnt_backoff c)
    (cnt_dispatchDelayCount c) (cnt_dispatchDelayTotal c) (cnt_dispatchDelayMax c) (cnt_taskDurations c).
Definition backedOff (c : schedulerCounts) : schedulerCounts :=
  MkSchedulerCounts (cnt_success c) (cnt_failed c) (cnt_timedOut c) (cnt_skipped c) (incr (cnt_backoff c))
    (cnt_dispatchDelayCount c) (cnt_dispatchDelayTotal c) (cnt_dispatchDelayMax c) (cnt_taskDurations c).
Definition delayed (delay : Duration) (c : schedulerCounts) : schedulerCounts :=
  MkSchedulerCounts (cnt_success c) (cnt_failed c) (cnt_timedOut c) (cnt_skipped c) (cnt_backoff c)
    (incr (cnt_dispatchDelayCount c)) (int64 (cnt_dispatchDelayTotal c + delay))
    (if cnt_dispatchDelayMax c <? delay then delay else cnt_dispatchDelayMax c) (cnt_taskDurations c).

(** ** Accrual *)

Section Clock.
(** [service.clock.Now()], read while a run is handled. *)
Context (clock : scheduledRun -> Time).

(** A replaced run is recorded as skipped; a failure to record it is logged. *)
Definition record_skip (replaced : scheduledRun) (c : schedulerCounts) : DB Tables schedulerCounts :=
  if isCapabilitySnapshotTask (run_task replaced) then
    stored ← attempt (storeCapabilitySnapshotIfCollectionActive (target_ID (run_target replaced))
                        (clock replaced) UnknownCapabilityStates);
    mret (match stored with Ok _ => skipped c | Err _ => c end)
  else
    recorded ← attempt (recordUnmet (clock replaced) replaced resultSkippedBackpressure ZeroTime);
    mret (match recorded with Ok _ => skipped c | Err _ => c end).

(** The loop of [accrue] on one entry; [fuel] bounds its rounds. *)
Fixpoint accrue_entry (fuel : nat) (now : Time) (entry : scheduleEntry) (pending : pendingRuns)
    (c : schedulerCounts) : DB Tables (scheduleEntry * pendingRuns * schedulerCounts) :=
  match fuel with
  | O => mret (entry, pending, c)
  | S fuel =>
      if After (entry_nextDue entry) now then mret (entry, pending, c)
      else
        let template := entry_template entry in
        let run := MkScheduledRun (run_key template) (entry_nextDue entry) (run_startedAt template)
                     (run_target template) (run_task template) (run_interval template) in
        let '(replaced, pending) := pending_put pending run in
        c ← match replaced with Some replaced => record_skip replaced c | None => mret c end;
        accrue_entry fuel now
          (MkScheduleEntry template (TimeAdd (entry_nextDue entry) (run_interval template))) pending c
  end.

(** One round per interval from the entry's due time to [now], and one to see
    that the next is later. *)
Definition accrue_fuel (now : Time) (entry : scheduleEntry) : nat :=
  S (Z.to_nat ((now - entry_nextDue entry) / run_interval (entry_template entry) + 1)).

Fixpoint accrue_keys (keys : list taskKey) (now : Time) (s : centralScheduler) : DB Tables centralScheduler :=
  match keys with
  | [] => mret s
  | key :: rest =>
      match sched_schedule s !! key with
      | None => accrue_keys rest now s
      | Some entry =>
          '(entry, pending, c) ← accrue_entry (accrue_fuel now entry) now entry (sched_pending s) (sched_counts s);
          accrue_keys rest now
            (with_counts c (with_pending pending (with_schedule (<[key := entry]> (sched_schedule s)) s)))
      end
  end.

Definition accrue (now : Time) (s : centralScheduler) : DB Tables centralScheduler :=
  accrue_keys (sort_by taskKeyLess (map fst (map_to_list (sched_schedule s)))) now s.

(** ** Dispatch *)

(** One round of [dispatch]'s loop; the runs that a goroutine was started for are
    collected in order. *)
Definition dispatch_run (run : scheduledRun) (s : centralScheduler)
    : DB Tables (centralScheduler * list scheduledRun) :=
  eligible ← attempt (nextEligible run);
  match eligible with
  | Err _ => mret (s, [])
  | Ok eligible =>
      if negb (IsZero eligible) && Before (run_dueAt run) eligible then
        let s := with_pending (pending_take (sched_pending s) (run_key run)).2 s in
        recorded ← attempt (recordUnmet (clock run) run resultBackoff eligible);
        mret (match recorded with Ok _ => with_counts (backedOff (sched_counts s)) s | Err _ => s end, [])
      else
        let '(ok, d) := admit_work (sched_dispatcher s) (work_of run) in
        if negb ok then mret (s, [])
        else
          let delay := Z.max 0 (TimeSub (clock run) (run_dueAt run)) in
          let pending := (pending_take (sched_pending s) (run_key run)).2 in
          mret (with_counts (delayed delay (sched_counts s)) (with_pending pending
                  (with_dispatcher (setWaiting (hasCapabilitySnapshot pending) d) s)), [run])
  end.

Fixpoint dispatch_loop (runs : list scheduledRun) (s : centralScheduler)
    : DB Tables (centralScheduler * list scheduledRun) :=
  match runs with
  | [] => mret (s, [])
  | run :: rest =>
      '(s, launched) ← dispatch_run run s;
      '(s, more) ← dispatch_loop rest s;
      mret (s, launched ++ more)
  end.

Definition dispatch (s : centralScheduler) : DB Tables (centralScheduler * list scheduledRun) :=
  let s := with_dispatcher (setWaiting (hasCapabilitySnapshot (sched_pending s)) (sched_dispatcher s)) s in
  dispatch_loop (ordered (sched_pending s)) s.

End Clock.

(** ** Completion *)

Record executionOutcome : Type := MkOutcome {
  outcome_run : scheduledRun;
  outcome_result : taskResult;
  outcome_duration : Duration;
  outcome_err : option error;
}.

Definition count_outcome (outcome : executionOutcome) (c : schedulerCounts) : schedulerCounts :=
  let old := default (MkDurationSummary 0 0 0) (cnt_taskDurations c !! task_ID (run_task (outcome_run outcome))) in
  let new := MkDurationSummary (incr (ds_count old)) (int64 (ds_total old + outcome_duration outcome))
               (if ds_max old <? outcome_duration outcome then outcome_duration outcome else ds_max old) in
  MkSchedulerCounts
    (match outcome_result outcome with resultSuccess => incr (cnt_success c) | _ => cnt_success c end)
    (match outcome_result outcome with resultSuccess | resultTimedOut => cnt_failed c | _ => incr (cnt_failed c) end)
    (match outcome_result outcome with resultTimedOut => incr (cnt_timedOut c) | _ => cnt_timedOut c end)
    (cnt_skipped c) (cnt_backoff c) (cnt_dispatchDelayCount c) (cnt_dispatchDelayTotal c)
    (cnt_dispatchDelayMax c) (<[task_ID (run_task (outcome_run outcome)) := new]> (cnt_taskDurations c)).

Definition complete (outcome : executionOutcome) (s : centralScheduler) : centralScheduler :=
  let s := with_dispatcher (finish (sched_dispatcher s) (work_of (outcome_run outcome))) s in
  match outcome_err outcome with
  | Some _ => s
  | None => with_counts (count_outcome outcome (sched_counts s)) s
  end.

(** ** Refresh *)

(** [ListCollectionTargets]: the instances whose collection is not paused, by id. *)
Definition ListCollectionTargets : DB Tables (list ListCollectionTargetsRow) :=
  query (fun t =>
    map snd (sort_by (fun l r => string_ltb l.1 r.1)
      (filter (fun entry => t_paused t !! entry.1 = Some false) (map_to_list (t_instance t))))).

(** [ListTaskIntervals]: the configured intervals of an instance, in seconds. *)
Definition ListTaskIntervals (targetID : string) : DB Tables (list (TaskID * Z)) :=
  query (fun t => map (fun entry => (entry.1.2, entry.2))
                    (filter (fun entry => entry.1.1 = targetID) (map_to_list (t_task_config t)))).

Definition taskIntervals (targetID : string) : DB Tables (gmap TaskID Duration) :=
  rows ← wrap "list collection task intervals" (ListTaskIntervals targetID);
  mret (list_to_map (map (fun row => (row.1, int64 (row.2 * Second))) rows)).

(** The entry of a template: a new key, or for [restart] a changed interval,
    starts from its initial due time. *)
Definition refresh_entry (now : Time) (restart : bool) (template : scheduledRun) (m : gmap taskKey scheduleEntry)
    : gmap taskKey scheduleEntry :=
  let nextDue := match m !! run_key template with
                 | None => initialDue now template
                 | Some entry =>
                     if restart && negb (run_interval (entry_template entry) =? run_interval template)
                     then initialDue now template else entry_nextDue entry
                 end in
  <[run_key template := MkScheduleEntry template nextDue]> m.

(** The templates of a target: its tasks with their intervals, then its
    capability snapshot, whose interval never changes. *)
Definition target_templates (target : ListCollectionTargetsRow) (intervals : gmap TaskID Duration)
    : list (bool * scheduledRun) :=
  map (fun task => (true, newScheduledRun target task (default 0 (intervals !! task_ID task)) ZeroTime)) scheduledTasks ++
  [(false, newScheduledRun target capabilitySnapshotTask 0 ZeroTime)].

Definition refresh_target (now : Time) (templates : list (bool * scheduledRun)) (m : gmap taskKey scheduleEntry)
    : gmap taskKey scheduleEntry :=
  foldl (fun m template => refresh_entry now template.1 template.2 m) m templates.

(** The loop over the targets: the schedule as far as it got, the active keys,
    and the error that ended it. *)
Fixpoint refresh_loop (now : Time) (targets : list ListCollectionTargetsRow) (m : gmap taskKey scheduleEntry)
    (active : gset taskKey) : DB Tables (gmap taskKey scheduleEntry * gset taskKey * option error) :=
  match targets with
  | [] => mret (m, active, None)
  | target :: rest =>
      ensured ← attempt (ensureTaskStates (target_ID target));
      match ensured with
      | Err e => mret (m, active, Some e)
      | Ok _ =>
          read ← attempt (taskIntervals (target_ID target));
          match read with
          | Err e => mret (m, active, Some e)
          | Ok intervals =>
              let templates := target_templates target intervals in
              refresh_loop now rest (refresh_target now templates m)
                (list_to_set (map (fun template => run_key template.2) templates) ∪ active)
          end
      end
  end.

(** The scheduler after the round, and the error it returns. *)
Definition refresh (now : Time) (s : centralScheduler) : DB Tables (centralScheduler * option error) :=
  listed ← attempt (wrap "list collection targets" ListCollectionTargets);
  match listed with
  | Err e => mret (s, Some e)
  | Ok targets =>
      '(m, active, err) ← refresh_loop now targets (sched_schedule s) ∅;
      match err with
      | Some e => mret (with_schedule m s, Some e)
      | None =>
          mret (with_pending (filter (fun entry => entry.1 ∈ active \/ m !! entry.1 = None) (sched_pending s))
                  (with_schedule (filter (fun entry => entry.1 ∈ active) m) s), None)
      end
  end.

(** ** The rounds of [Run] *)

(** A tick: refresh, and when it succeeds accrue and dispatch. *)
Definition tick (clock : scheduledRun -> Time) (now : Time) (s : centralScheduler)
    : DB Tables (centralScheduler * list scheduledRun) :=
  '(s, err) ← refresh now s;
  match err with
  | Some _ => mret (s, [])
  | None => s ← accrue clock now s; dispatch clock s
  end.

(** A completion: account for the outcome and dispatch again. *)
Definition on_complete (clock : scheduledRun -> Time) (outcome : executionOutcome) (s : centralScheduler)
    : DB Tables (centralScheduler * list scheduledRun) :=
  dispatch clock (complete outcome s).

(** * Facts about the dispatcher *)

Definition probes (ws : list work) : list work := filter (fun w => work_class w = workProbe) ws.
Definition queries (ws : list work) : list work := filter (fun w => work_class w <> workProbe) ws.
Definition collections (ws : list work) : list work := filter (fun w => work_class w = workCollectionQuery) ws.

(** The dispatcher accounts for the work in flight: its counters are the numbers
    of running probes and queries, within the limits, and no instance runs two
    probes or two queries. *)
Record accounts (d : dispatcher) (ws : list work) : Prop := MkAccounts {
  acc_probes : activeProbes d = Z.of_nat (length (probes ws));
  acc_queries : activeQueries d = Z.of_nat (length (queries ws));
  acc_collections : activeCollectionQueries d = Z.of_nat (length (collections ws));
  acc_probe_limit : activeProbes d <= probeLimit d < 2 ^ 62;
  acc_query_limit : activeQueries d <= queryLimit d < 2 ^ 62;
  acc_probe_nodup : NoDup (map work_instanceID (probes ws));
  acc_query_nodup : NoDup (map work_instanceID (queries ws));
  acc_probe_set : forall id, id ∈ instanceProbe d <-> id ∈ map work_instanceID (probes ws);
  acc_query_set : forall id, id ∈ instanceQuery d <-> id ∈ map work_instanceID (queries ws);
}.

#[export] Instance accounts_proper d : Proper ((≡ₚ) ==> iff) (accounts d).
Proof.
  assert (forall ws1 ws2, ws1 ≡ₚ ws2 -> accounts d ws1 -> accounts d ws2) as H.
  { intros ws1 ws2 Hp [H1 H2 H3 H4 H5 H6 H7 H8 H9].
    assert (probes ws1 ≡ₚ probes ws2) as Hpr by (by apply filter_Permutation).
    assert (queries ws1 ≡ₚ queries ws2) as Hq by (by apply filter_Permutation).
    assert (collections ws1 ≡ₚ collections ws2) as Hc by (by apply filter_Permutation).
    split; try done.
    - by rewrite <-Hpr. - by rewrite <-Hq. - by rewrite <-Hc.
    - by rewrite <-Hpr. - by rewrite <-Hq.
    - intros id. by rewrite <-Hpr. - intros id. by rewrite <-Hq. }
  intros ws1 ws2 Hp. split; apply H; [done|by symmetry].
Qed.

Lemma newDispatcher_accounts probeLimit queryLimit :
  0 <= probeLimit < 2 ^ 62 -> 0 <= queryLimit < 2 ^ 62 -> accounts (newDispatcher probeLimit queryLimit) [].
Proof. intros ? ?. split; simpl; try done; try constructor; set_solver. Qed.

Lemma setWaiting_accounts d ws waiting : accounts d ws -> accounts (setWaiting waiting d) ws.
Proof. intros []. by split. Qed.

Lemma probes_cons_probe w ws : work_class w = workProbe -> probes (w :: ws) = w :: probes ws.
Proof. intros. by apply filter_cons_True. Qed.
Lemma probes_cons_query w ws : work_class w <> workProbe -> probes (w :: ws) = probes ws.
Proof. intros. by apply filter_cons_False. Qed.
Lemma queries_cons_query w ws : work_class w <> workProbe -> queries (w :: ws) = w :: queries ws.
Proof. intros. by apply filter_cons_True. Qed.
Lemma queries_cons_probe w ws : work_class w = workProbe -> queries (w :: ws) = queries ws.
Proof. intros. apply filter_cons_False. tauto. Qed.
Lemma collections_cons w ws :
  collections (w :: ws) = if bool_decide (work_class w = workCollectionQuery) then w :: collections ws else collections ws.
Proof. unfold collections. rewrite filter_cons. by case_decide; case_bool_decide. Qed.

Lemma collections_le ws : (length (collections ws) <= length (queries ws))%nat.
Proof.
  induction ws as [|w ws IH]; [done|]. rewrite collections_cons.
  destruct (decide (work_class w = workProbe)) as [E|E].
  - rewrite queries_cons_probe, bool_decide_eq_false_2 by congruence. done.
  - rewrite queries_cons_query by done. case_bool_decide; simpl; lia.
Qed.

Lemma admit_accounts d ws w d' : accounts d ws -> admit_work d w = (true, d') -> accounts d' (w :: ws).
Proof.
  intros [H1 H2 H3 H4 H5 H6 H7 H8 H9]. pose proof (collections_le ws) as Hle. unfold admit_work.
  case_bool_decide as Hclass.
  - destruct (_ || _) eqn:E; [done|]. bool_to_prop. intros [= <-].
    assert (bool_decide (work_class w = workCollectionQuery) = false) as Hnc by (apply bool_decide_eq_false; congruence).
    split; simpl; rewrite ?probes_cons_probe, ?queries_cons_probe, ?collections_cons, ?Hnc by done; simpl; try done.
    + rewrite incr_id; lia.
    + rewrite incr_id; lia.
    + constructor; [|done]. by rewrite <-H8.
    + intros id. rewrite elem_of_cons, <-H8. set_solver.
  - destruct (_ || _) eqn:E; [done|]. destruct (_ && _) eqn:E2; [done|]. clear E2. bool_to_prop. intros [= <-].
    split; simpl; rewrite ?probes_cons_query, ?queries_cons_query, ?collections_cons by done; simpl; try done.
    + rewrite incr_id; lia.
    + case_bool_decide; simpl; [rewrite incr_id; lia|done].
    + rewrite incr_id; lia.
    + constructor; [|done]. by rewrite <-H9.
    + intros id. rewrite elem_of_cons, <-H9. set_solver.
Qed.

Lemma decr_id z : 0 < z < 2 ^ 62 -> decr z = z - 1.
Proof. intros. unfold decr. rewrite int64_id; unfold in_int64; lia. Qed.

Lemma finish_accounts d ws w : accounts d (w :: ws) -> accounts (finish d w) ws.
Proof.
  intros [H1 H2 H3 H4 H5 H6 H7 H8 H9]. pose proof (collections_le (w :: ws)) as Hle. unfold finish.
  rewrite collections_cons in *. destruct (decide (work_class w = workProbe)) as [Hclass|Hclass];
    [rewrite bool_decide_eq_true_2 by done|rewrite (bool_decide_eq_false_2 (work_class w = workProbe)) by done].
  - assert (bool_decide (work_class w = workCollectionQuery) = false) as Hnc by (apply bool_decide_eq_false; congruence).
    rewrite Hnc in *. rewrite probes_cons_probe, queries_cons_probe in * by done. simpl in *.
    apply NoDup_cons in H6 as [Hn H6]. rewrite bool_decide_eq_true_2 by (rewrite H8; left).
    split; simpl; try done.
    + rewrite decr_id; lia.
    + rewrite decr_id; lia.
    + intros id. rewrite elem_of_difference, elem_of_singleton, H8, elem_of_cons. naive_solver.
  - rewrite probes_cons_query, queries_cons_query in * by done. simpl in *.
    apply NoDup_cons in H7 as [Hn H7]. rewrite bool_decide_eq_true_2 by (rewrite H9; left).
    split; simpl; try done.
    + rewrite decr_id; lia.
    + case_bool_decide; simpl in *; [rewrite decr_id; lia|done].
    + rewrite decr_id; lia.
    + intros id. rewrite elem_of_difference, elem_of_singleton, H9, elem_of_cons. naive_solver.
Qed.

Definition limits (d : dispatcher) : Z * Z := (probeLimit d, queryLimit d).

Lemma admit_limits d w : limits (admit_work d w).2 = limits d.
Proof. unfold admit_work. by repeat case_match. Qed.

Lemma finish_limits d w : limits (finish d w) = limits d.
Proof. unfold finish. by repeat case_match. Qed.

(** * Facts about the rounds *)

Lemma attempt_Ok {T A} (m : DB T A) fs t : exists r t' fs', attempt m fs t = (Ok r, t', fs').
Proof. unfold attempt. destruct (m fs t) as [[r t'] fs']. eauto. Qed.

(** One round of the dispatch loop either leaves the dispatcher alone, dropping
    the run at most (a backoff), or starts the run it was given. *)
Lemma dispatch_run_cases clock run s fs t :
  exists s' launched t' fs', dispatch_run clock run s fs t = (Ok (s', launched), t', fs') /\
    sched_schedule s' = sched_schedule s /\
    ((launched = [] /\ sched_dispatcher s' = sched_dispatcher s /\
      (sched_pending s' = sched_pending s \/ sched_pending s' = delete (run_key run) (sched_pending s))) \/
     (exists d waiting, launched = [run] /\ admit_work (sched_dispatcher s) (work_of run) = (true, d) /\
        sched_dispatcher s' = setWaiting waiting d /\ sched_pending s' = delete (run_key run) (sched_pending s))).
Proof.
  unfold dispatch_run, mbind, DB_bind.
  destruct (attempt_Ok (nextEligible run) fs t) as (r&t1&fs1&->). destruct r as [eligible|e].
  2:{ do 4 eexists. split; [reflexivity|]. split; [done|]. left. auto. }
  destruct (negb (IsZero eligible) && Before (run_dueAt run) eligible).
  - destruct (attempt_Ok (recordUnmet (clock run) run resultBackoff eligible) fs1 t1) as (r&t2&fs2&->).
    do 4 eexists. split; [reflexivity|]. destruct r; split; try done; left; auto.
  - destruct (admit_work (sched_dispatcher s) (work_of run)) as [[] d] eqn:E; simpl;
      (do 4 eexists; split; [reflexivity|]; split; [done|]); [right|left; auto]. eauto 10.
Qed.

(** What a dispatch does to the scheduler, whatever the database answers. *)
Record dispatched (runs launched : list scheduledRun) (s s' : centralScheduler) : Prop := MkDispatched {
  dp_schedule : sched_schedule s' = sched_schedule s;
  dp_pending : sched_pending s' ⊆ sched_pending s;
  dp_launched : sublist launched runs;
  dp_gone : forall run, run ∈ launched -> sched_pending s' !! run_key run = None;
  dp_limits : limits (sched_dispatcher s') = limits (sched_dispatcher s);
  dp_accounts : forall ws, accounts (sched_dispatcher s) ws ->
    accounts (sched_dispatcher s') (map work_of launched ++ ws);
}.

Lemma dispatch_loop_spec clock runs s fs t :
  exists s' launched t' fs', dispatch_loop clock runs s fs t = (Ok (s', launched), t', fs') /\
    dispatched runs launched s s'.
Proof.
  revert s fs t. induction runs as [|run runs IH]; intros s fs t; simpl.
  { do 4 eexists. split; [reflexivity|]. split; try done. by intros run ?%elem_of_nil. }
  unfold mbind, DB_bind.
  destruct (dispatch_run_cases clock run s fs t) as (s1&l1&t1&fs1&->&Hsch&Hcase).
  destruct (IH s1 fs1 t1) as (s2&l2&t2&fs2&->&[H1 H2 H3 H4 Hlim H5]).
  do 4 eexists. split; [reflexivity|].
  destruct Hcase as [(->&Hd&Hp)|(d&waiting&->&Hd&Hs&Hp)]; simpl.
  - split; try congruence.
    + etrans; [done|]. destruct Hp as [->| ->]; [done|apply delete_subseteq].
    + by apply sublist_cons.
    + done.
    + intros ws Hws. apply H5. by rewrite Hd.
  - split; try congruence.
    + etrans; [done|]. rewrite Hp. apply delete_subseteq.
    + by apply sublist_skip.
    + intros run' [->|Hin]%elem_of_cons; [|by apply H4].
      apply (lookup_weaken_None _ (sched_pending s1)); [|done]. rewrite Hp. by apply lookup_delete_eq.
    + rewrite Hlim, Hs. pose proof (admit_limits (sched_dispatcher s) (work_of run)) as Hl. by rewrite Hd in Hl.
    + intros ws Hws. simpl. rewrite Permutation_middle. apply H5. rewrite Hs.
      apply setWaiting_accounts. by apply (admit_accounts (sched_dispatcher s)).
Qed.

Lemma dispatch_spec clock s fs t :
  exists s' launched t' fs', dispatch clock s fs t = (Ok (s', launched), t', fs') /\
    dispatched (ordered (sched_pending s)) launched s s'.
Proof.
  unfold dispatch.
  set (s0 := with_dispatcher (setWaiting (hasCapabilitySnapshot (sched_pending s)) (sched_dispatcher s)) s).
  destruct (dispatch_loop_spec clock (ordered (sched_pending s0)) s0 fs t) as (s'&l&t'&fs'&E&[H1 H2 H3 H4 Hlim H5]).
  exists s', l, t', fs'. split; [done|]. split; try done. intros ws Hws. apply H5. by apply setWaiting_accounts.
Qed.

Lemma record_skip_Ok clock replaced c fs t :
  exists c' t' fs', record_skip clock replaced c fs t = (Ok c', t', fs').
Proof.
  unfold record_skip, mbind, DB_bind. destruct (isCapabilitySnapshotTask _);
    (match goal with |- context [attempt ?m] => destruct (attempt_Ok m fs t) as (r&t1&fs1&->) end); eauto.
Qed.

(** The run an entry is due for at [due]. *)
Definition due_run (template : scheduledRun) (due : Time) : scheduledRun :=
  MkScheduledRun (run_key template) due (run_startedAt template) (run_target template) (run_task template)
    (run_interval template).

(** The last due time of an entry that is not later than [now]. *)
Definition last_due (now : Time) (entry : scheduleEntry) : Time :=
  let interval := run_interval (entry_template entry) in
  entry_nextDue entry + (now - entry_nextDue entry) / interval * interval.

(** Accrual of one entry: it catches up with [now], and what is pending for its
    key is the run of the last due time. *)
Definition caught_up (now : Time) (entry : scheduleEntry) (pending : pendingRuns) : scheduleEntry * pendingRuns :=
  if After (entry_nextDue entry) now then (entry, pending)
  else (MkScheduleEntry (entry_template entry) (last_due now entry + run_interval (entry_template entry)),
        <[run_key (entry_template entry) := due_run (entry_template entry) (last_due now entry)]> pending).

Lemma accrue_entry_spec clock fuel now entry pending c fs t :
  0 < run_interval (entry_template entry) ->
  Z.max 0 ((now - entry_nextDue entry) / run_interval (entry_template entry) + 1) < Z.of_nat fuel ->
  exists c' t' fs', accrue_entry clock fuel now entry pending c fs t =
    (Ok (caught_up now entry pending, c'), t', fs').
Proof.
  intros Hi. revert entry pending c fs t Hi.
  induction fuel as [|fuel IH]; intros entry pending c fs t Hi Hf; [lia|].
  cbn [accrue_entry]. unfold caught_up, After.
  destruct (Z.ltb_spec now (entry_nextDue entry)) as [Hlt|Hge]; [eauto|].
  destruct entry as [template due]. cbn [entry_template entry_nextDue] in *. unfold pending_put.
  set (interval := run_interval template) in *.
  assert (exists c' t1 fs1, (match pending !! run_key template with
     | Some replaced => record_skip clock replaced c | None => mret c end) fs t = (Ok c', t1, fs1)) as (c1&t1&fs1&E).
  { destruct (pending !! run_key template); [apply record_skip_Ok|]. unfold mret, DB_ret. eauto. }
  cbn [run_key]. unfold mbind, DB_bind. rewrite E.
  assert ((now - (due + interval)) / interval = (now - due) / interval - 1) as Hdiv.
  { replace (now - (due + interval)) with (now - due + -1 * interval) by lia. rewrite Z.div_add by lia. lia. }
  assert (0 <= (now - due) / interval) as Hq by (apply Z.div_pos; lia).
  destruct (IH (MkScheduleEntry template (TimeAdd due interval))
    (<[run_key template := due_run template due]> pending) c1 fs1 t1) as (c'&t'&fs'&E').
  { done. }
  { unfold TimeAdd. cbn [entry_template entry_nextDue]. fold interval. rewrite Hdiv. lia. }
  exists c', t', fs'. etrans; [exact E'|]. clear E E' IH. unfold caught_up, After, last_due, TimeAdd.
  cbn [entry_template entry_nextDue]. fold interval. rewrite Hdiv.
  destruct (Z.ltb_spec now (due + interval)) as [Hlt|Hge'].
  - assert ((now - due) / interval = 0) as -> by (apply Z.div_small; lia). by rewrite Z.add_0_r.
  - rewrite insert_insert_eq.
    by replace (due + interval + ((now - due) / interval - 1) * interval)
      with (due + (now - due) / interval * interval) by ring.
Qed.

(** A scheduler whose entries and pending runs are filed under their keys, with
    positive intervals, and in which only scheduled keys are pending. *)
Record sched_wf (s : centralScheduler) : Prop := MkSchedWf {
  wf_schedule : map_Forall (fun key entry => run_key (entry_template entry) = key /\
                                             0 < run_interval (entry_template entry)) (sched_schedule s);
  wf_pending : map_Forall (fun key run => run_key run = key) (sched_pending s);
  wf_scheduled : forall key, is_Some (sched_pending s !! key) -> is_Some (sched_schedule s !! key);
}.

(** The schedule and the pending runs after accrual of [keys]. *)
Definition accrued_entry (now : Time) (keys : list taskKey) (s : centralScheduler) (key : taskKey) : option scheduleEntry :=
  if decide (key ∈ keys) then (fun entry => (caught_up now entry ∅).1) <$> sched_schedule s !! key
  else sched_schedule s !! key.

Definition accrued_run (now : Time) (keys : list taskKey) (s : centralScheduler) (key : taskKey) : option scheduledRun :=
  match sched_schedule s !! key with
  | Some entry =>
      if decide (key ∈ keys /\ entry_nextDue entry <= now)
      then Some (due_run (entry_template entry) (last_due now entry)) else sched_pending s !! key
  | None => sched_pending s !! key
  end.

Lemma caught_up_entry now entry p q : (caught_up now entry p).1 = (caught_up now entry q).1.
Proof. unfold caught_up. by case_match. Qed.

Lemma caught_up_pending now entry p :
  (caught_up now entry p).2 =
  if decide (entry_nextDue entry <= now)
  then <[run_key (entry_template entry) := due_run (entry_template entry) (last_due now entry)]> p else p.
Proof.
  unfold caught_up, After. destruct (Z.ltb_spec now (entry_nextDue entry)); case_decide; simpl; (done || lia).
Qed.

Lemma caught_up_template now entry p : entry_template (caught_up now entry p).1 = entry_template entry.
Proof. unfold caught_up. by case_match. Qed.

Lemma caught_up_wf now s key entry c :
  sched_wf s -> sched_schedule s !! key = Some entry ->
  sched_wf (with_counts c (with_pending (caught_up now entry (sched_pending s)).2
    (with_schedule (<[key := (caught_up now entry (sched_pending s)).1]> (sched_schedule s)) s))).
Proof.
  intros [H1 H2 H3] E. destruct (H1 _ _ E) as [Hkey Hi].
  split; unfold with_counts, with_pending, with_schedule; cbn [sched_schedule sched_pending].
  - apply map_Forall_insert_2; [|done]. by rewrite caught_up_template.
  - rewrite caught_up_pending. case_decide; [|done]. by apply map_Forall_insert_2.
  - intros k. rewrite caught_up_pending. destruct (decide (k = key)) as [->|Hne]; [by rewrite lookup_insert_eq|].
    rewrite lookup_insert_ne by done. case_decide; [|by apply H3].
    rewrite lookup_insert_ne by congruence. apply H3.
Qed.

Lemma accrue_keys_spec clock keys now s fs t :
  NoDup keys -> sched_wf s ->
  exists s' t' fs', accrue_keys clock keys now s fs t = (Ok s', t', fs') /\
    sched_dispatcher s' = sched_dispatcher s /\
    (forall key, sched_schedule s' !! key = accrued_entry now keys s key) /\
    (forall key, sched_pending s' !! key = accrued_run now keys s key).
Proof.
  intros Hnd. revert s fs t. induction Hnd as [|key keys Hk Hnd IH]; intros s fs t Hwf; cbn [accrue_keys].
  { exists s, t, fs. split_and!; try done. intros key. unfold accrued_run. case_match; [|done].
    case_decide as Hd; [|done]. by destruct Hd as [?%elem_of_nil _]. }
  destruct (sched_schedule s !! key) as [entry|] eqn:E.
  2:{ destruct (IH s fs t Hwf) as (s'&t'&fs'&->&Hd&Hs&Hp). exists s', t', fs'. split_and!; try done.
      - intros k. rewrite Hs. unfold accrued_entry. repeat case_decide; rewrite ?elem_of_cons in *; try done;
          destruct (decide (k = key)) as [->|]; try by rewrite E. all: naive_solver.
      - intros k. rewrite Hp. unfold accrued_run. destruct (sched_schedule s !! k) eqn:Ek; [|done].
        repeat case_decide; rewrite ?elem_of_cons in *; try done; naive_solver. }
  destruct (wf_schedule s Hwf _ _ E) as [Hkey Hi].
  destruct (accrue_entry_spec clock (accrue_fuel now entry) now entry (sched_pending s) (sched_counts s) fs t Hi)
    as (c'&t1&fs1&Ea).
  { unfold accrue_fuel. lia. }
  unfold mbind, DB_bind. rewrite Ea. rewrite (surjective_pairing (caught_up now entry (sched_pending s))).
  cbv beta iota.
  destruct (IH _ fs1 t1 (caught_up_wf now s key entry c' Hwf E)) as (s'&t'&fs'&->&Hd&Hs&Hp).
  exists s', t', fs'. split_and!; [done|done| |].
  - intros k. rewrite Hs. unfold accrued_entry, with_counts, with_pending, with_schedule. cbn [sched_schedule].
    destruct (decide (k = key)) as [->|Hne].
    + rewrite decide_False, decide_True by (done || left). rewrite lookup_insert_eq, E. simpl.
      f_equal. apply caught_up_entry.
    + rewrite lookup_insert_ne by done.
      assert (k ∈ key :: keys <-> k ∈ keys) as Hk' by (rewrite elem_of_cons; tauto).
      repeat case_decide; tauto.
  - intros k. rewrite Hp. unfold accrued_run, with_counts, with_pending, with_schedule.
    cbn [sched_schedule sched_pending]. rewrite caught_up_pending. destruct (decide (k = key)) as [->|Hne].
    + rewrite lookup_insert_eq, E, decide_False by (intros [? _]; done).
      assert (key ∈ key :: keys) as Hk' by left.
      repeat case_decide; try tauto. by rewrite Hkey, lookup_insert_eq.
    + rewrite lookup_insert_ne by done.
      assert (k ∈ key :: keys <-> k ∈ keys) as Hk' by (rewrite elem_of_cons; tauto).
      assert ((if decide (entry_nextDue entry <= now)
               then <[run_key (entry_template entry) := due_run (entry_template entry) (last_due now entry)]> (sched_pending s)
               else sched_pending s) !! k = sched_pending s !! k) as ->
        by (case_decide; [by rewrite Hkey, lookup_insert_ne|done]).
      destruct (sched_schedule s !! k) eqn:Ek.
      * repeat case_decide; tauto.
      * done.
Qed.

Lemma accrue_spec clock now s fs t :
  sched_wf s ->
  exists s' t' fs', accrue clock now s fs t = (Ok s', t', fs') /\
    sched_dispatcher s' = sched_dispatcher s /\
    (forall key, sched_schedule s' !! key = (fun entry => (caught_up now entry ∅).1) <$> sched_schedule s !! key) /\
    (forall key, sched_pending s' !! key =
       match sched_schedule s !! key with
       | Some entry => if decide (entry_nextDue entry <= now)
                       then Some (due_run (entry_template entry) (last_due now entry)) else sched_pending s !! key
       | None => None
       end).
Proof.
  intros Hwf. unfold accrue. set (keys := sort_by taskKeyLess _).
  assert (forall key, key ∈ keys <-> is_Some (sched_schedule s !! key)) as Hin.
  { intros key. unfold keys. rewrite elem_of_sort_by, list_elem_of_fmap. split.
    - intros ([k e]&->&H%elem_of_map_to_list). simpl. eauto.
    - intros [e H]. exists (key, e). by rewrite elem_of_map_to_list. }
  destruct (accrue_keys_spec clock keys now s fs t) as (s'&t'&fs'&H&Hd&Hs&Hp); [|done|].
  { unfold keys. rewrite sort_by_perm. apply NoDup_fst_map_to_list. }
  exists s', t', fs'. split_and!; [done|done| |]; intros key.
  - rewrite Hs. unfold accrued_entry. case_decide as Hk; [done|]. rewrite Hin in Hk.
    by destruct (sched_schedule s !! key); [destruct Hk; eauto|].
  - rewrite Hp. unfold accrued_run. destruct (sched_schedule s !! key) as [entry|] eqn:E.
    + repeat case_decide; try done; naive_solver.
    + destruct (sched_pending s !! key) eqn:Ep; [|done].
      destruct (wf_scheduled s Hwf key) as [? ?]; [by eexists|congruence].
Qed.

Definition schedule_wf (m : gmap taskKey scheduleEntry) : Prop :=
  map_Forall (fun key entry => run_key (entry_template entry) = key /\ 0 < run_interval (entry_template entry)) m.

(** The keys of a target: its scheduled tasks and its capability snapshot. *)
Definition target_keys (target : ListCollectionTargetsRow) : gset taskKey :=
  list_to_set (map (fun task => MkTaskKey (target_ID target) (task_ID task)) (scheduledTasks ++ [capabilitySnapshotTask])).

Lemma scheduled_intervals : Forall (fun task => 0 < task_Interval task) (scheduledTasks ++ [capabilitySnapshotTask]).
Proof. refine (bool_decide_unpack _ _). vm_compute. exact I. Qed.

Lemma newScheduledRun_interval target task configured dueAt :
  0 < task_Interval task -> 0 < run_interval (newScheduledRun target task configured dueAt).
Proof. intros H. simpl. by destruct (Z.ltb_spec 0 configured). Qed.

Lemma target_templates_keys target intervals :
  list_to_set (map (fun template => run_key template.2) (target_templates target intervals)) = target_keys target.
Proof. unfold target_templates, target_keys. by rewrite !map_app, map_map. Qed.

Lemma target_templates_intervals target intervals :
  Forall (fun template => 0 < run_interval template.2) (target_templates target intervals).
Proof.
  pose proof scheduled_intervals as H. apply Forall_app in H as [H1 H2]. apply Forall_app. split.
  - apply Forall_fmap. eapply Forall_impl; [exact H1|]. intros task Ht. by apply newScheduledRun_interval.
  - by repeat constructor.
Qed.

Lemma refresh_target_spec now templates m :
  Forall (fun template => 0 < run_interval template.2) templates -> schedule_wf m ->
  schedule_wf (refresh_target now templates m) /\
  forall key, is_Some (refresh_target now templates m !! key) <->
    key ∈ map (fun template => run_key template.2) templates \/ is_Some (m !! key).
Proof.
  intros Ht. revert m. unfold refresh_target. induction Ht as [|[restart template] templates Hi Ht IH]; intros m Hm; simpl.
  { split; [done|]. intros key. rewrite elem_of_nil. naive_solver. }
  destruct (IH (refresh_entry now restart template m)) as [Hwf Hdom].
  { apply map_Forall_insert_2; [|done]. done. }
  split; [done|]. intros key. rewrite Hdom, elem_of_cons. unfold refresh_entry.
  destruct (decide (key = run_key template)) as [->|Hne].
  - rewrite lookup_insert_eq. naive_solver.
  - rewrite lookup_insert_ne by done. naive_solver.
Qed.

Lemma refresh_loop_spec now targets m active fs t :
  schedule_wf m -> (forall key, key ∈ active -> is_Some (m !! key)) ->
  exists m' active' err t' fs', refresh_loop now targets m active fs t = (Ok (m', active', err), t', fs') /\
    schedule_wf m' /\ (forall key, is_Some (m !! key) -> is_Some (m' !! key)) /\
    (forall key, key ∈ active' -> is_Some (m' !! key)) /\
    (err = None -> forall key, key ∈ active' <-> key ∈ active \/ exists target, target ∈ targets /\ key ∈ target_keys target).
Proof.
  revert m active fs t. induction targets as [|target targets IH]; intros m active fs t Hm Ha; cbn [refresh_loop].
  { do 5 eexists. split; [reflexivity|]. split_and!; try done. intros _ key.
    setoid_rewrite elem_of_nil. naive_solver. }
  unfold mbind, DB_bind.
  destruct (attempt_Ok (ensureTaskStates (target_ID target)) fs t) as (r1&t1&fs1&->).
  destruct r1 as [u|e]; [|do 5 eexists; split; [reflexivity|]; by split_and!].
  destruct (attempt_Ok (taskIntervals (target_ID target)) fs1 t1) as (r2&t2&fs2&->).
  destruct r2 as [intervals|e]; [|do 5 eexists; split; [reflexivity|]; by split_and!].
  destruct (refresh_target_spec now (target_templates target intervals) m) as [Hwf Hdom];
    [apply target_templates_intervals|done|].
  rewrite target_templates_keys.
  assert (forall key, key ∈ target_keys target <->
    key ∈ map (fun template => run_key template.2) (target_templates target intervals)) as Hkeys.
  { intros key. rewrite <-(target_templates_keys target intervals). by rewrite elem_of_list_to_set. }
  destruct (IH (refresh_target now (target_templates target intervals) m) (target_keys target ∪ active) fs2 t2)
    as (m'&active'&err&t'&fs'&->&Hwf'&Hkeep&Hact&Hiff).
  { done. }
  { intros key [Hk|Hk]%elem_of_union; apply Hdom; [left; by apply Hkeys|right; by apply Ha]. }
  do 5 eexists. split; [reflexivity|]. split_and!; [done| |done|].
  - intros key Hk. apply Hkeep, Hdom. by right.
  - intros Herr key. rewrite (Hiff Herr key), elem_of_union. clear -key. split.
    + intros [[Hk|Hk]|(target'&Hin&Hk)]; [right; exists target|by left|right; exists target'];
        (split; [|done]); [left|by right].
    + intros [Hk|(target'&[->|Hin]%elem_of_cons&Hk)]; [by left; right|by left; left|right; eauto].
Qed.

Lemma refresh_spec now s fs t :
  sched_wf s ->
  exists s' err t' fs', refresh now s fs t = (Ok (s', err), t', fs') /\ sched_wf s' /\
    sched_dispatcher s' = sched_dispatcher s /\ sched_pending s' ⊆ sched_pending s /\
    (err = None -> exists targets, (ListCollectionTargets fs t).1.1 = Ok targets /\
      forall key, is_Some (sched_schedule s' !! key) <-> exists target, target ∈ targets /\ key ∈ target_keys target).
Proof.
  intros [H1 H2 H3]. unfold refresh, mbind, DB_bind, attempt at 1, wrap at 1.
  destruct (ListCollectionTargets fs t) as [[[targets|e] t1] fs1];
    [|do 4 eexists; split; [reflexivity|]; split_and!; [by split|done|done|done]].
  destruct (refresh_loop_spec now targets (sched_schedule s) ∅ fs1 t1)
    as (m'&active&err&t'&fs'&->&Hwf&Hkeep&Hact&Hiff); [done|by intros ? ?%elem_of_empty|].
  destruct err as [e|]; (do 4 eexists; split; [reflexivity|]).
  { split_and!; [|done|done|done]. split; simpl; eauto. }
  specialize (Hiff eq_refl). split_and!; [|done|apply map_filter_subseteq|].
  - split; unfold with_pending, with_schedule; cbn [sched_schedule sched_pending].
    + intros key entry [Hk _]%map_lookup_filter_Some. by apply Hwf.
    + intros key run [Hk _]%map_lookup_filter_Some. by apply H2.
    + intros key [run [Hk Hf]%map_lookup_filter_Some]. simpl in Hf.
      destruct Hf as [Hf|Hf].
      * destruct (Hact key Hf) as [entry He]. exists entry. by apply map_lookup_filter_Some.
      * destruct (Hkeep key) as [entry He]; [apply H3; by eexists|congruence].
  - intros _. exists targets. split; [done|]. intros key. unfold with_pending, with_schedule.
    cbn [sched_schedule]. split.
    + intros [entry [_ Hk]%map_lookup_filter_Some]. simpl in Hk. apply Hiff in Hk as [?%elem_of_empty|?]; done.
    + intros Hk. assert (key ∈ active) as Hin by (apply Hiff; by right). destruct (Hact key Hin) as [entry He].
      exists entry. by apply map_lookup_filter_Some.
Qed.

(** ** Due times *)

Lemma fnv64a_range bytes : 0 <= fnv64a bytes < 2 ^ 64.
Proof.
  unfold fnv64a. assert (0 <= fnv_offset64 < 2 ^ 64) as H by (unfold fnv_offset64; lia). revert H.
  generalize fnv_offset64. induction bytes as [|b bytes IH]; intros h Hh; simpl; [done|].
  apply IH. unfold fnv_byte, uint64. apply Z.mod_pos_bound. lia.
Qed.

Lemma initialPhase_range instanceID taskID interval :
  0 < interval < 2 ^ 63 -> 0 <= initialPhase instanceID taskID interval < interval.
Proof.
  intros Hi. unfold initialPhase. rewrite (proj2 (Z.leb_gt interval 0)) by lia.
  unfold uint64. rewrite (Z.mod_small interval) by lia.
  pose proof (Z.mod_pos_bound (fnv64a (bytes_of instanceID ++ [0] ++ bytes_of taskID)) interval ltac:(lia)).
  rewrite int64_id; unfold in_int64; lia.
Qed.

Lemma nextDueAfter_spec now phase interval :
  0 < interval < 2 ^ 62 -> 0 <= phase < interval -> 0 <= now < 2 ^ 62 ->
  now < nextDueAfter now phase interval <= now + interval /\ (interval | nextDueAfter now phase interval - phase).
Proof.
  intros Hi Hp Hn. unfold nextDueAfter, Before, TimeAdd.
  destruct (Z.ltb_spec now phase) as [Hlt|Hge].
  { split; [lia|]. rewrite Z.sub_diag. apply Z.divide_0_r. }
  rewrite TimeSub_exact by (unfold in_int64; lia). rewrite Z.quot_div_nonneg by lia.
  set (q := (now - phase) / interval).
  assert (q * interval <= now - phase < (q + 1) * interval) as Hq
    by (unfold q; pose proof (Z.div_mod (now - phase) interval); pose proof (Z.mod_pos_bound (now - phase) interval); lia).
  rewrite int64_id by (unfold in_int64; lia). split; [lia|].
  exists (q + 1). lia.
Qed.

(** ** The scheduler as a transition system *)

(** The scheduler and the runs whose goroutines have not reported back; the
    database may be in any state and fail in any way at every step. *)
Inductive sched_step (clock : scheduledRun -> Time)
    : centralScheduler * list scheduledRun -> centralScheduler * list scheduledRun -> Prop :=
  | step_tick now s inflight fs t s' launched t' fs' :
      tick clock now s fs t = (Ok (s', launched), t', fs') ->
      sched_step clock (s, inflight) (s', launched ++ inflight)
  | step_complete outcome s inflight rest fs t s' launched t' fs' :
      inflight ≡ₚ outcome_run outcome :: rest ->
      on_complete clock outcome s fs t = (Ok (s', launched), t', fs') ->
      sched_step clock (s, inflight) (s', launched ++ rest).

Definition sched_inv (config : Config) (st : centralScheduler * list scheduledRun) : Prop :=
  sched_wf st.1 /\ accounts (sched_dispatcher st.1) (map work_of st.2) /\
  limits (sched_dispatcher st.1) = (ProbeConcurrency config, QueryConcurrency config).

Lemma dispatched_inv config runs launched s s' inflight :
  sched_inv config (s, inflight) -> dispatched runs launched s s' -> sched_inv config (s', launched ++ inflight).
Proof.
  intros (Hwf&Hacc&Hlim) [H1 H2 H3 H4 H5 H6]. simpl in *. split_and!; simpl.
  - destruct Hwf as [W1 W2 W3]. split; [by rewrite H1| |].
    + intros key run Hk. apply W2. by eapply lookup_weaken.
    + intros key [run Hk]. rewrite H1. apply W3. exists run. by eapply lookup_weaken.
  - rewrite map_app. by apply H6.
  - by rewrite H5.
Qed.

Lemma accrued_wf now s s' :
  sched_wf s -> sched_dispatcher s' = sched_dispatcher s ->
  (forall key, sched_schedule s' !! key = (fun entry => (caught_up now entry ∅).1) <$> sched_schedule s !! key) ->
  (forall key, sched_pending s' !! key =
     match sched_schedule s !! key with
     | Some entry => if decide (entry_nextDue entry <= now)
                     then Some (due_run (entry_template entry) (last_due now entry)) else sched_pending s !! key
     | None => None
     end) -> sched_wf s'.
Proof.
  intros [H1 H2 H3] Hd Hs Hp. split.
  - intros key entry. rewrite Hs. intros H. apply fmap_Some in H as (e&He&->).
    rewrite caught_up_template. by apply H1.
  - intros key run. rewrite Hp. destruct (sched_schedule s !! key) as [e|] eqn:E; [|done].
    case_decide; [|apply H2]. intros [= <-]. simpl. by apply H1.
  - intros key. rewrite Hp, Hs. destruct (sched_schedule s !! key); [by eexists|by intros [? ?]].
Qed.

Lemma sched_step_inv clock config st st' :
  sched_step clock st st' -> sched_inv config st -> sched_inv config st'.
Proof.
  intros [now s inflight fs t s' launched t' fs' H|outcome s inflight rest fs t s' launched t' fs' Hp H] Hinv.
  - unfold tick, mbind, DB_bind in H. destruct Hinv as (Hwf&Hacc&Hlim). simpl in *.
    destruct (refresh_spec now s fs t Hwf) as (s1&err&t1&fs1&E1&Hwf1&Hd1&_&_). rewrite E1 in H.
    destruct err as [e|].
    + unfold mret, DB_ret in H. simplify_eq. split_and!; simpl; [done|by rewrite Hd1..].
    + destruct (accrue_spec clock now s1 fs1 t1 Hwf1) as (s2&t2&fs2&E2&Hd2&Hs2&Hp2). rewrite E2 in H.
      destruct (dispatch_spec clock s2 fs2 t2) as (s3&l&t3&fs3&E3&Hdisp). rewrite E3 in H. simplify_eq.
      eapply dispatched_inv; [|exact Hdisp]. split_and!; simpl; [by apply (accrued_wf now s1)|by rewrite Hd2, Hd1..].
  - unfold on_complete in H. destruct Hinv as (Hwf&Hacc&Hlim). simpl in *.
    destruct (dispatch_spec clock (complete outcome s) fs t) as (s3&l&t3&fs3&E3&Hdisp). rewrite E3 in H. simplify_eq.
    eapply dispatched_inv; [|exact Hdisp].
    assert (sched_dispatcher (complete outcome s) = finish (sched_dispatcher s) (work_of (outcome_run outcome)) /\
      sched_schedule (complete outcome s) = sched_schedule s /\ sched_pending (complete outcome s) = sched_pending s)
      as (Hd&Hs&Hpe) by (unfold complete; by destruct (outcome_err outcome)).
    split_and!; simpl.
    + destruct Hwf as [W1 W2 W3]. split; rewrite ?Hs, ?Hpe; done.
    + rewrite Hd. apply finish_accounts. rewrite Hp in Hacc. done.
    + by rewrite Hd, finish_limits.
Qed.

Lemma initial_inv config now : Validate config = Ok tt -> sched_inv config (newCentralScheduler config now, []).
Proof.
  unfold Validate. intros H. repeat (destruct (_ || _) eqn:? in H; [done|]). bool_to_prop.
  split_and!; simpl; [split; simpl; [apply map_Forall_empty..|by intros key [? ?]]| |done].
  apply newDispatcher_accounts; lia.
Qed.

Lemma reachable_inv clock config now st :
  Validate config = Ok tt -> rtc (sched_step clock) (newCentralScheduler config now, []) st -> sched_inv config st.
Proof.
  intros Hv H. assert (sched_inv config (newCentralScheduler config now, [])) as Hi by by apply initial_inv.
  revert Hi. induction H as [|x y z Hxy _ IH]; [done|]. intros Hx. apply IH. by eapply sched_step_inv.
Qed.

(** * Properties *)

(** C31. In every state the scheduler can reach, whatever the database answers,
    the runs in flight respect the configured concurrency: no more probes and no
    more queries than the limits, at most one probe and one query per instance,
    and the dispatcher's three counters are exactly the numbers of probes, of queries
    and of collection queries in flight, so no slot is leaked or counted twice. *)
Theorem scheduler_respects_capacity (clock : scheduledRun -> Time) (config : Config) (start : Time)
    (s : centralScheduler) (inflight : list scheduledRun) :
  Validate config = Ok tt ->
  rtc (sched_step clock) (newCentralScheduler config start, []) (s, inflight) ->
  let running := map work_of inflight in
  Z.of_nat (length (probes running)) <= ProbeConcurrency config /\
  Z.of_nat (length (queries running)) <= QueryConcurrency config /\
  NoDup (map work_instanceID (probes running)) /\ NoDup (map work_instanceID (queries running)) /\
  activeProbes (sched_dispatcher s) = Z.of_nat (length (probes running)) /\
  activeQueries (sched_dispatcher s) = Z.of_nat (length (queries running)) /\
  activeCollectionQueries (sched_dispatcher s) = Z.of_nat (length (collections running)).
Proof.
  intros Hv Hr running. destruct (reachable_inv clock config start _ Hv Hr) as (_&[]&Hlim). simpl in *.
  unfold limits in Hlim. injection Hlim as Hl1 Hl2. unfold running. split_and!; try done; lia.
Qed.

Lemma reachable_wf clock config start s inflight :
  Validate config = Ok tt -> rtc (sched_step clock) (newCentralScheduler config start, []) (s, inflight) -> sched_wf s.
Proof. intros Hv Hr. by destruct (reachable_inv clock config start _ Hv Hr) as [Hwf _]. Qed.

Lemma some_default {A} (a : A) (o : option A) : is_Some o -> o = Some (default a o).
Proof. by intros [b ->]. Qed.

(** Two instances, one slot for probes and two for queries. A first tick plans, a second
    a minute later finds most tasks due, and then a capability snapshot is over. *)
Module SchedulerDemo.
Definition config : Config := MkConfig 1 2.
Definition target (id : string) : ListCollectionTargetsRow := MkTarget id "db" 5432 None "monitor" [] 1 1.
Definition tables : Tables :=
  MkTables {["i" := target "i"; "j" := target "j"]} {["i" := false; "j" := false]} ∅ ∅ ∅ ∅ ∅ ∅ (MkSampleStore ∅ []) ∅ ∅ ∅ ∅ ∅ ∅ ∅.
Definition start : Time := 1000 * Hour.
Definition later : Time := start + Minute.
Definition clock (run : scheduledRun) : Time := later.

Definition answer (run : result (centralScheduler * list scheduledRun) * Tables * list fate) : centralScheduler * list scheduledRun :=
  match run with (Ok r, _, _) => r | _ => (newCentralScheduler config start, []) end.

Lemma round_answered run : match run with (Ok _, _, _) => true | _ => false end = true -> run = (Ok ((answer run).1, (answer run).2), run.1.2, run.2).
Proof. by destruct run as [[[[]|] ?] ?]. Qed.

Definition planned := tick clock start (newCentralScheduler config start) [] tables.
Definition due := tick clock later (answer planned).1 [] tables.
Definition inflight : list scheduledRun := (answer due).2 ++ (answer planned).2 ++ [].
Definition over : executionOutcome := MkOutcome (default demo_run (inflight !! 1%nat)) resultSuccess Second None.
Definition next := on_complete clock over (answer due).1 [] tables.
Definition afterwards : list scheduledRun := (answer next).2 ++ delete 1%nat inflight.

(** One probe and two queries run while the rest waits; when a snapshot is over, a
    collection query of its instance takes the slot. *)
Example launched :
  map (fun run => work_of run) inflight = [MkWork "j" workProbe; MkWork "i" workCapabilitySnapshot; MkWork "j" workCapabilitySnapshot] /\
  map (fun run => work_of run) (answer next).2 = [MkWork "i" workCollectionQuery].
Proof. vm_compute. auto. Qed.

Lemma planned_step : sched_step clock (newCentralScheduler config start, []) ((answer planned).1, (answer planned).2 ++ []).
Proof.
  assert (match planned with (Ok _, _, _) => true | _ => false end = true) as Hok by (vm_compute; reflexivity).
  exact (step_tick clock start _ [] [] tables _ _ _ _ (round_answered planned Hok)).
Qed.

Lemma due_step : sched_step clock ((answer planned).1, (answer planned).2 ++ []) ((answer due).1, inflight).
Proof.
  assert (match due with (Ok _, _, _) => true | _ => false end = true) as Hok by (vm_compute; reflexivity).
  exact (step_tick clock later _ _ [] tables _ _ _ _ (round_answered due Hok)).
Qed.

Lemma next_step : sched_step clock ((answer due).1, inflight) ((answer next).1, afterwards).
Proof.
  assert (match next with (Ok _, _, _) => true | _ => false end = true) as Hok by (vm_compute; reflexivity).
  assert (inflight !! 1%nat = Some (outcome_run over)) as Hover.
  { assert (bool_decide (is_Some (inflight !! 1%nat)) = true) as Hi by (vm_compute; reflexivity).
    exact (some_default _ _ (proj1 (bool_decide_eq_true _) Hi)). }
  exact (step_complete clock over _ _ _ [] tables _ _ _ _ (delete_Permutation _ _ _ Hover) (round_answered next Hok)).
Qed.

Lemma reached : rtc (sched_step clock) (newCentralScheduler config start, []) ((answer next).1, afterwards).
Proof. exact (rtc_l _ _ _ _ planned_step (rtc_l _ _ _ _ due_step (rtc_once _ _ next_step))). Qed.

Lemma planned_wf : sched_wf (answer planned).1.
Proof.
  exact (reachable_wf clock config start _ _ eq_refl (rtc_once _ _ planned_step)).
Qed.
End SchedulerDemo.

(** Three runs in flight, with both slots for queries taken. *)
Lemma scheduler_respects_capacity_witness :
  length SchedulerDemo.afterwards = 3%nat /\
  (activeProbes (sched_dispatcher (SchedulerDemo.answer SchedulerDemo.next).1), activeQueries (sched_dispatcher (SchedulerDemo.answer SchedulerDemo.next).1),
   activeCollectionQueries (sched_dispatcher (SchedulerDemo.answer SchedulerDemo.next).1)) = (1, 2, 1) /\
  Z.of_nat (length (queries (map work_of SchedulerDemo.afterwards))) <= 2 /\
  NoDup (map work_instanceID (queries (map work_of SchedulerDemo.afterwards))) /\
  activeCollectionQueries (sched_dispatcher (SchedulerDemo.answer SchedulerDemo.next).1) =
    Z.of_nat (length (collections (map work_of SchedulerDemo.afterwards))).
Proof.
  destruct (scheduler_respects_capacity SchedulerDemo.clock SchedulerDemo.config SchedulerDemo.start (SchedulerDemo.answer SchedulerDemo.next).1
    SchedulerDemo.afterwards) as (_ & Hq & _ & Hnd & _ & _ & Hc); [reflexivity|apply SchedulerDemo.reached|].
  split; [vm_compute; reflexivity|]. split; [vm_compute; reflexivity|]. split; [exact Hq|]. split; [exact Hnd|exact Hc].
Defined.

(** Finishing a piece of work returns the dispatcher to exactly the state it
    had before that work was accepted; while a capability snapshot waits, a
    collection query is accepted only if it leaves the reserved slots free of
    collection queries. *)
Theorem finish_undoes_admit (d d' : dispatcher) (w : work) (ws : list work) :
  accounts d ws -> admit_work d w = (true, d') ->
  finish d' w = d /\
  (work_class w = workCollectionQuery -> capabilitySnapshotWaiting d = true ->
     activeCollectionQueries d' <= queryLimit d - Z.min capabilitySnapshotReservedSlots (queryLimit d)).
Proof.
  intros [H1 H2 H3 H4 H5 H6 H7 H8 H9]. pose proof (collections_le ws) as Hle. unfold admit_work, finish.
  destruct (decide (work_class w = workProbe)) as [Hc|Hc];
    [rewrite bool_decide_eq_true_2 by done|rewrite bool_decide_eq_false_2 by done].
  - destruct (_ || _) eqn:E; [done|]. bool_to_prop. intros [= <-]. simpl.
    rewrite bool_decide_eq_true_2 by set_solver. split; [|congruence].
    destruct d; simpl in *. f_equal; [|set_solver]. rewrite incr_id, decr_id; lia.
  - destruct (_ || _) eqn:E; [done|]. destruct (_ && _) eqn:E2; [done|]. bool_to_prop. intros [= <-]. simpl.
    rewrite bool_decide_eq_true_2 by set_solver. split.
    + destruct d; simpl in *. f_equal; [| |set_solver].
      * rewrite incr_id, decr_id; lia.
      * case_bool_decide; [|done]. rewrite incr_id, decr_id; lia.
    + intros Hcol Hw. rewrite Hw, !bool_decide_eq_true_2 in * by done. simpl in E2. apply Z.leb_gt in E2.
      rewrite incr_id; lia.
Qed.

Lemma finish_undoes_admit_witness :
  exists d', admit_work (newDispatcher 2 2) (MkWork "i" workProbe) = (true, d') /\
    finish d' (MkWork "i" workProbe) = newDispatcher 2 2.
Proof.
  eexists. split; [reflexivity|].
  apply (finish_undoes_admit (newDispatcher 2 2) _ (MkWork "i" workProbe) []); [|reflexivity].
  apply newDispatcher_accounts; lia.
Defined.

Lemma last_due_spec now entry :
  0 < run_interval (entry_template entry) ->
  last_due now entry <= now < last_due now entry + run_interval (entry_template entry) /\
  (run_interval (entry_template entry) | last_due now entry - entry_nextDue entry).
Proof.
  intros Hi. unfold last_due. set (i := run_interval (entry_template entry)) in *.
  pose proof (Z.div_mod (now - entry_nextDue entry) i ltac:(lia)).
  pose proof (Z.mod_pos_bound (now - entry_nextDue entry) i ltac:(lia)). split; [lia|].
  exists ((now - entry_nextDue entry) / i). lia.
Qed.

(** C40. Accrual always finishes and catches up with the clock: afterwards every entry is
    next due after [now], on its own grid; one that was due is next due at most one
    interval after [now] and has exactly one pending run, the one of its latest due time;
    one that was not due yet, however far ahead, is left as it was, and so is what is
    pending for it. *)
Theorem accrue_catches_up (clock : scheduledRun -> Time) (now : Time) (s : centralScheduler) (fs : list fate) (t : Tables) :
  sched_wf s ->
  exists s' t' fs', accrue clock now s fs t = (Ok s', t', fs') /\ sched_wf s' /\
  forall key entry, sched_schedule s !! key = Some entry ->
    let interval := run_interval (entry_template entry) in
    exists entry', sched_schedule s' !! key = Some entry' /\ entry_template entry' = entry_template entry /\
      now < entry_nextDue entry' /\ (interval | entry_nextDue entry' - entry_nextDue entry) /\
      if decide (entry_nextDue entry <= now)
      then entry_nextDue entry' <= now + interval /\
           exists run, sched_pending s' !! key = Some run /\ run_key run = key /\
             run_dueAt run = entry_nextDue entry' - interval /\ run_task run = run_task (entry_template entry)
      else entry' = entry /\ sched_pending s' !! key = sched_pending s !! key.
Proof.
  intros Hwf. destruct (accrue_spec clock now s fs t Hwf) as (s'&t'&fs'&H&Hd&Hs&Hp).
  exists s', t', fs'. split_and!; [done|by apply (accrued_wf now s)|].
  intros key entry E interval. destruct (wf_schedule s Hwf _ _ E) as [Hkey Hi].
  destruct (last_due_spec now entry Hi) as [Hl Hdiv]. fold interval in Hl, Hdiv, Hi.
  exists ((caught_up now entry ∅).1). rewrite Hs, E, Hp, E. split; [done|]. split; [apply caught_up_template|].
  unfold caught_up, After. case_decide as Hdue.
  - rewrite (proj2 (Z.ltb_ge now (entry_nextDue entry))) by done. simpl. fold interval. split_and!; [lia| |lia|].
    + replace (last_due now entry + interval - entry_nextDue entry)
        with (last_due now entry - entry_nextDue entry + interval) by lia.
      apply Z.divide_add_r; [done|apply Z.divide_refl].
    + eexists. split; [done|]. simpl. split_and!; [done|lia|done].
  - rewrite (proj2 (Z.ltb_lt now (entry_nextDue entry))) by lia. simpl. split_and!; try done; [lia|].
    rewrite Z.sub_diag. apply Z.divide_0_r.
Qed.

(** The probe that was planned a minute ago, for an instance of the demonstration, and its
    latest run. *)
Definition planned_probe : option scheduleEntry := sched_schedule (SchedulerDemo.answer SchedulerDemo.planned).1 !! MkTaskKey "i" TaskProbe.

Lemma accrue_catches_up_witness :
  exists entry s' t' fs' entry' run, planned_probe = Some entry /\ entry_nextDue entry + 50 * Second < SchedulerDemo.later /\
    accrue SchedulerDemo.clock SchedulerDemo.later (SchedulerDemo.answer SchedulerDemo.planned).1 [] SchedulerDemo.tables = (Ok s', t', fs') /\
    sched_schedule s' !! MkTaskKey "i" TaskProbe = Some entry' /\
    SchedulerDemo.later < entry_nextDue entry' <= SchedulerDemo.later + run_interval (entry_template entry) /\
    sched_pending s' !! MkTaskKey "i" TaskProbe = Some run /\
    run_dueAt run = entry_nextDue entry' - run_interval (entry_template entry).
Proof.
  destruct (accrue_catches_up SchedulerDemo.clock SchedulerDemo.later (SchedulerDemo.answer SchedulerDemo.planned).1 [] SchedulerDemo.tables)
    as (s' & t' & fs' & Hrun & _ & Hentries); [apply SchedulerDemo.planned_wf|].
  assert (match planned_probe with Some entry => entry_nextDue entry + 50 * Second <? SchedulerDemo.later | None => false end = true) as Hlate
    by (vm_compute; reflexivity).
  destruct planned_probe as [entry|] eqn:Hentry; [|discriminate]. apply Z.ltb_lt in Hlate.
  pose proof (Hentries (MkTaskKey "i" TaskProbe) entry Hentry) as Hfound. clear Hentries. cbv zeta in Hfound.
  destruct Hfound as (entry' & Hentry' & _ & Hafter & _ & Hdue). rewrite decide_True in Hdue by (unfold Second in Hlate; lia).
  destruct Hdue as (Hle & run & Hpending & _ & Hat & _). exists entry, s', t', fs', entry', run. by split_and!.
Defined.

(** A refresh that succeeds leaves exactly the keys of the instances whose
    collection is not paused, one per scheduled task and one for the capability
    snapshot, and nothing pending for any other key. *)
Theorem refresh_schedules_active_targets (now : Time) (s : centralScheduler) (fs : list fate) (t : Tables) :
  sched_wf s ->
  exists s' err t' fs', refresh now s fs t = (Ok (s', err), t', fs') /\ sched_wf s' /\
  (err = None -> exists targets, (ListCollectionTargets fs t).1.1 = Ok targets /\
     (forall key, is_Some (sched_schedule s' !! key) <->
        exists target task, target ∈ targets /\ (task ∈ scheduledTasks \/ task = capabilitySnapshotTask) /\
          key = MkTaskKey (target_ID target) (task_ID task)) /\
     (forall key, is_Some (sched_pending s' !! key) -> is_Some (sched_schedule s' !! key))).
Proof.
  intros Hwf. destruct (refresh_spec now s fs t Hwf) as (s'&err&t'&fs'&H&Hwf'&_&_&Hkeys).
  exists s', err, t', fs'. split_and!; [done|done|]. intros Herr. destruct (Hkeys Herr) as (targets&Ht&Hiff).
  exists targets. split_and!; [done| |by apply wf_scheduled]. intros key. rewrite Hiff. unfold target_keys.
  setoid_rewrite elem_of_list_to_set. setoid_rewrite list_elem_of_fmap. setoid_rewrite elem_of_app.
  setoid_rewrite list_elem_of_singleton. clear. split.
  - intros (target&Hin&task&Hk&Htask). by exists target, task.
  - intros (target&task&Hin&Htask&Hk). exists target. split; [done|]. by exists task.
Qed.

Lemma refresh_schedules_active_targets_witness :
  exists s' err t' fs', refresh Second (newCentralScheduler DefaultConfig 0) [] demo_tables = (Ok (s', err), t', fs').
Proof.
  destruct (refresh_schedules_active_targets Second (newCentralScheduler DefaultConfig 0) [] demo_tables)
    as (s'&err&t'&fs'&H&_); [|by exists s', err, t', fs'].
  split; [apply map_Forall_empty..|]. intros key [? ?]. done.
Defined.

(** The first due time of a task is after [now] and at most one interval
    later, and tasks of one interval keep their instance's phase within it. *)
Theorem initialDue_within_interval (now : Time) (run : scheduledRun) :
  isCapabilitySnapshotTask (run_task run) = false -> 0 < run_interval run < 2 ^ 62 -> 0 <= now < 2 ^ 62 ->
  let phase := initialPhase (key_instanceID (run_key run)) (key_taskID (run_key run)) (run_interval run) in
  0 <= phase < run_interval run /\
  now < initialDue now run <= now + run_interval run /\ (run_interval run | initialDue now run - phase).
Proof.
  intros Hc Hi Hn phase.
  assert (0 <= phase < run_interval run) as Hp by (apply initialPhase_range; lia).
  split; [done|]. unfold initialDue. rewrite Hc. by apply nextDueAfter_spec.
Qed.

Lemma initialDue_within_interval_witness : Second < initialDue Second demo_run.
Proof.
  apply (initialDue_within_interval Second demo_run); [reflexivity|simpl; unfold Second; lia..].
Defined.
