(* ===== verification/PlatformHealth.v ===== *)
(** The platform's own health ([internal/platformhealth/health.go]): the facts of
    its sources, watermark levels with hysteresis, and the store that assembles
    them and reports changes and new failures. *)

From S2P Require Import Prelude Float64.

Inductive Status : Type :=
  | StatusOK
  | StatusDegraded
  | StatusFailed
  | StatusUnknown.

#[export] Instance Status_eq_dec : EqDecision Status.
Proof. solve_decision. Defined.

Inductive Source : Type :=
  | SourceServerProcess
  | SourcePlatformDatabase
  | SourceCollectionScheduler
  | SourcePartitionMaintenance
  | SourceTLSCertificate
  | SourceAgentIngress
  | SourceDisk
  | SourceCredentialKeyring
  | SourcePlatformDatabaseCapacity.

#[export] Instance Source_eq_dec : EqDecision Source.
Proof. solve_decision. Defined.

Definition sourceOrder : list Source := [
  SourceServerProcess; SourcePlatformDatabase; SourceCollectionScheduler; SourcePartitionMaintenance;
  SourceTLSCertificate; SourceAgentIngress; SourceDisk; SourceCredentialKeyring;
  SourcePlatformDatabaseCapacity].

Lemma sourceOrder_all (s : Source) : s ∈ sourceOrder.
Proof. destruct s; refine (bool_decide_unpack _ _); vm_compute; exact I. Qed.

Lemma sourceOrder_nodup : NoDup sourceOrder.
Proof. refine (bool_decide_unpack _ _). vm_compute. exact I. Qed.

#[export] Instance Source_finite : finite.Finite Source.
Proof. exact (@finite.Build_Finite _ _ sourceOrder sourceOrder_nodup sourceOrder_all). Defined.

#[export] Instance Source_countable : Countable Source := finite.finite_countable.

(** * Watermark levels *)

Inductive DiskLevel : Type :=
  | DiskNormal
  | DiskWarning
  | DiskCritical
  | DiskEmergency.

#[export] Instance DiskLevel_eq_dec : EqDecision DiskLevel.
Proof. solve_decision. Defined.

Record DiskThresholds : Type := MkDiskThresholds {
  Warning : float64;
  Critical : float64;
  Emergency : float64;
  Hysteresis : float64;
}.

Definition DefaultDiskThresholds : DiskThresholds :=
  MkDiskThresholds (f64_of_Z 80) (f64_of_Z 90) (f64_of_Z 95) (f64_of_Z 2).

Definition ValidateThresholds (t : DiskThresholds) : result unit :=
  if existsb (fun value => IsNaN value || IsInf value) [Warning t; Critical t; Emergency t; Hysteresis t]
  then Err (ErrNew "disk thresholds must be finite")
  else if ((Warning t <=? f64_of_Z 0) || (Warning t >=? Critical t) ||
           (Critical t >=? Emergency t) || (Emergency t >? f64_of_Z 100))%f64
  then Err (ErrNew "disk thresholds must be ordered between 0 and 100")
  else if ((Hysteresis t <? f64_of_Z 0) || (Hysteresis t >=? Warning t))%f64
  then Err (ErrNew "disk hysteresis must be non-negative and below the warning threshold")
  else Ok tt.

Definition ClassifyWatermarkLevel (usagePercent : float64) (previousLevel : DiskLevel) (t : DiskThresholds)
    : DiskLevel :=
  if (usagePercent >=? Emergency t)%f64 then DiskEmergency
  else if bool_decide (previousLevel = DiskEmergency) && (usagePercent >=? Emergency t - Hysteresis t)%f64
  then DiskEmergency
  else if (usagePercent >=? Critical t)%f64 then DiskCritical
  else if (bool_decide (previousLevel = DiskEmergency) || bool_decide (previousLevel = DiskCritical)) &&
          (usagePercent >=? Critical t - Hysteresis t)%f64
  then DiskCritical
  else if (usagePercent >=? Warning t)%f64 then DiskWarning
  else if negb (bool_decide (previousLevel = DiskNormal)) && (usagePercent >=? Warning t - Hysteresis t)%f64
  then DiskWarning
  else DiskNormal.

Definition ClassifyDiskLevel (usagePercent : float64) (previousLevel : DiskLevel) (t : DiskThresholds)
    : DiskLevel := ClassifyWatermarkLevel usagePercent previousLevel t.

(** * Source facts *)

(** [SourceSnapshot]; a nil pointer is [None]. *)
Record SourceSnapshot : Type := MkSourceSnapshot {
  ss_Source : Source;
  ss_Status : Status;
  ss_Code : string;
  ss_Version : option string;
  ss_StartedAt : option Time;
  ss_ExpiresAt : option Time;
  ss_ValidityDaysRemaining : option Z;
  ss_ProbeCapacity : option Z;
  ss_ProbeActive : option Z;
  ss_QueryCapacity : option Z;
  ss_QueryActive : option Z;
  ss_Pending : option Z;
  ss_SkippedBackpressure : option Z;
  ss_Backoff : option Z;
  ss_ConsecutiveFailures : option Z;
  ss_PrebuildDaysRemaining : option Z;
  ss_DiskLevel : option DiskLevel;
  ss_DiskUsagePercent : option float64;
  ss_DiskWarningPercent : option float64;
  ss_DiskCriticalPercent : option float64;
  ss_DiskEmergencyPercent : option float64;
  ss_DiskHysteresisPoints : option float64;
  ss_CapacityLevel : option DiskLevel;
  ss_CapacityUsedBytes : option Z;
  ss_CapacityBudgetBytes : option Z;
  ss_CapacityUsagePercent : option float64;
  ss_CapacityWarningPercent : option float64;
  ss_CapacityCriticalPercent : option float64;
  ss_CapacityEmergencyPercent : option float64;
  ss_CapacityHysteresisPoints : option float64;
}.

#[export] Instance SourceSnapshot_eq_dec : EqDecision SourceSnapshot.
Proof. solve_decision. Defined.

(** A fact of which only the three mandatory fields are given. *)
Definition fact (source : Source) (status : Status) (code : string) : SourceSnapshot :=
  MkSourceSnapshot source status code
    None None None None None None None None None None None None None None None None None None None
    None None None None None None None None.

Record SchedulerFacts : Type := MkSchedulerFacts {
  sf_ProbeCapacity : Z;
  sf_ProbeActive : Z;
  sf_QueryCapacity : Z;
  sf_QueryActive : Z;
  sf_Pending : Z;
  sf_SkippedBackpressure : Z;
  sf_Backoff : Z;
  sf_RefreshFailed : bool;
}.

Record CredentialFacts : Type := MkCredentialFacts {
  cf_Available : bool;
  cf_FailureCode : string;
}.

Record PartitionFacts : Type := MkPartitionFacts {
  pf_ConsecutiveFailures : Z;
  pf_PrebuildDaysRemaining : Z;
  pf_WriteFailed : bool;
}.

Fixpoint aggregate_loop_from (result : Status) (statuses : list Status) : Status :=
  match statuses with
  | [] => result
  | StatusFailed :: _ => StatusFailed
  | StatusUnknown :: rest => aggregate_loop_from StatusUnknown rest
  | StatusDegraded :: rest =>
      aggregate_loop_from (if bool_decide (result = StatusOK) then StatusDegraded else result) rest
  | StatusOK :: rest => aggregate_loop_from result rest
  end.

Definition AggregateStatus (statuses : list Status) : Status :=
  match statuses with [] => StatusUnknown | _ => aggregate_loop_from StatusOK statuses end.

Definition SchedulerSource (facts : SchedulerFacts) : SourceSnapshot :=
  let '(status, code) :=
    if sf_RefreshFailed facts then (StatusFailed, "SCHEDULER_REFRESH_FAILED")
    else if (0 <? sf_Pending facts) || (0 <? sf_SkippedBackpressure facts)
    then (StatusDegraded, "SCHEDULER_BACKPRESSURE")
    else (StatusOK, "SCHEDULER_RUNNING") in
  MkSourceSnapshot SourceCollectionScheduler status code
    None None None None (Some (sf_ProbeCapacity facts)) (Some (sf_ProbeActive facts))
    (Some (sf_QueryCapacity facts)) (Some (sf_QueryActive facts)) (Some (sf_Pending facts))
    (Some (sf_SkippedBackpressure facts)) (Some (sf_Backoff facts)) None None None None None None
    None None None None None None None None None None.

(** [time.Duration.Hours] *)
Definition Hours (d : Duration) : float64 :=
  (f64_of_Z (Z.quot d Hour) + f64_of_Z (Z.rem d Hour) / f64_of_Z (60 * 60 * 1000000000))%f64.

(** [int(math.Ceil(f))] of a finite number. *)
Definition int_Ceil (f : float64) : Z :=
  match f with
  | S754_finite s m e =>
      let signed := if s then Z.neg m else Z.pos m in
      int64 (if 0 <=? e then signed * 2 ^ e else - ((- signed) / 2 ^ (- e)))
  | _ => 0
  end.

Definition CertificateSource (now : Time) (expiresAt : option Time) : SourceSnapshot :=
  match expiresAt with
  | None => fact SourceTLSCertificate StatusDegraded "CERTIFICATE_UNAVAILABLE"
  | Some expires =>
      let daysRemaining := int_Ceil (Hours (TimeSub expires now) / f64_of_Z 24)%f64 in
      let daysRemaining := if daysRemaining <? 0 then 0 else daysRemaining in
      let '(status, code) :=
        if negb (Before now expires) then (StatusDegraded, "CERTIFICATE_EXPIRED")
        else if negb (After expires (TimeAdd now (30 * 24 * Hour))) then (StatusDegraded, "CERTIFICATE_EXPIRING")
        else (StatusOK, "CERTIFICATE_VALID") in
      MkSourceSnapshot SourceTLSCertificate status code
    None None (Some expires) (Some daysRemaining) None None None None None None None None None None
    None None None None None None None None None None None None None
  end.

Definition DatabaseSource (err : option error) : SourceSnapshot :=
  match err with
  | Some _ => fact SourcePlatformDatabase StatusFailed "PLATFORM_DATABASE_UNREACHABLE"
  | None => fact SourcePlatformDatabase StatusOK "PLATFORM_DATABASE_REACHABLE"
  end.

Definition CredentialSource (facts : CredentialFacts) : SourceSnapshot :=
  if negb (cf_Available facts) then fact SourceCredentialKeyring StatusUnknown "CREDENTIAL_KEYRING_UNAVAILABLE"
  else if negb (bool_decide (cf_FailureCode facts = EmptyString))
  then fact SourceCredentialKeyring StatusFailed (cf_FailureCode facts)
  else fact SourceCredentialKeyring StatusOK "CREDENTIAL_KEYRING_READY".

Definition PartitionSource (facts : PartitionFacts) : SourceSnapshot :=
  let '(status, code) :=
    if pf_WriteFailed facts then (StatusFailed, "PARTITION_WRITE_FAILED")
    else if (0 <? pf_ConsecutiveFailures facts) || (pf_PrebuildDaysRemaining facts <? 7)
    then (StatusDegraded, "PARTITION_MAINTENANCE_FAILED")
    else (StatusOK, "PARTITIONS_READY") in
  MkSourceSnapshot SourcePartitionMaintenance status code
    None None None None None None None None None None None (Some (pf_ConsecutiveFailures facts))
    (Some (pf_PrebuildDaysRemaining facts)) None None None None None None None None None None None
    None None None.

Definition DiskUnavailableSource (lastKnownLevel : DiskLevel) : SourceSnapshot :=
  MkSourceSnapshot SourceDisk StatusUnknown "DISK_USAGE_UNAVAILABLE"
    None None None None None None None None None None None None None (Some lastKnownLevel) None None
    None None None None None None None None None None None.

Definition DiskSource (usagePercent : float64) (previousLevel : DiskLevel) (t : DiskThresholds) : SourceSnapshot :=
  if IsNaN usagePercent || IsInf usagePercent || (usagePercent <? f64_of_Z 0)%f64 || (usagePercent >? f64_of_Z 100)%f64
  then DiskUnavailableSource previousLevel
  else
    let level := ClassifyDiskLevel usagePercent previousLevel t in
    let '(status, code) :=
      match level with
      | DiskNormal => (StatusOK, "DISK_NORMAL")
      | DiskWarning => (StatusDegraded, "DISK_WARNING_WATERMARK")
      | DiskCritical => (StatusDegraded, "DISK_CRITICAL_WATERMARK")
      | DiskEmergency => (StatusFailed, "DISK_EMERGENCY_WATERMARK")
      end in
    MkSourceSnapshot SourceDisk status code
    None None None None None None None None None None None None None (Some level)
    (Some usagePercent) (Some (Warning t)) (Some (Critical t)) (Some (Emergency t))
    (Some (Hysteresis t)) None None None None None None None None.

Definition PlatformDatabaseCapacityUnconfiguredSource : SourceSnapshot :=
  fact SourcePlatformDatabaseCapacity StatusUnknown "PLATFORM_DATABASE_CAPACITY_BUDGET_UNCONFIGURED".

Definition PlatformDatabaseCapacityUnavailableSource (lastKnownLevel : DiskLevel) : SourceSnapshot :=
  MkSourceSnapshot SourcePlatformDatabaseCapacity StatusUnknown "PLATFORM_DATABASE_CAPACITY_USAGE_UNAVAILABLE"
    None None None None None None None None None None None None None None None None None None None
    (Some lastKnownLevel) None None None None None None None.

Definition PlatformDatabaseCapacitySource (usedBytes budgetBytes : Z) (previousLevel : DiskLevel) (t : DiskThresholds)
    : SourceSnapshot :=
  if (usedBytes <? 0) || (budgetBytes <=? 0) then PlatformDatabaseCapacityUnavailableSource previousLevel
  else
    let usagePercent := (f64_of_Z usedBytes / f64_of_Z budgetBytes * f64_of_Z 100)%f64 in
    if IsNaN usagePercent || IsInf usagePercent || (usagePercent <? f64_of_Z 0)%f64
    then PlatformDatabaseCapacityUnavailableSource previousLevel
    else
      let level := ClassifyWatermarkLevel usagePercent previousLevel t in
      let '(status, code) :=
        match level with
        | DiskNormal => (StatusOK, "PLATFORM_DATABASE_CAPACITY_NORMAL")
        | DiskWarning => (StatusDegraded, "PLATFORM_DATABASE_CAPACITY_WARNING_WATERMARK")
        | DiskCritical => (StatusDegraded, "PLATFORM_DATABASE_CAPACITY_CRITICAL_WATERMARK")
        | DiskEmergency => (StatusFailed, "PLATFORM_DATABASE_CAPACITY_EMERGENCY_WATERMARK")
        end in
      MkSourceSnapshot SourcePlatformDatabaseCapacity status code
    None None None None None None None None None None None None None None None None None None None
    (Some level) (Some usedBytes) (Some budgetBytes) (Some usagePercent) (Some (Warning t))
    (Some (Critical t)) (Some (Emergency t)) (Some (Hysteresis t)).

(** * The store *)

Record HealthSnapshot : Type := MkHealthSnapshot {
  hs_Status : Status;
  hs_Sources : list SourceSnapshot;
  hs_AssembledAt : Time;
}.

Record Store : Type := MkStore {
  store_sources : gmap Source SourceSnapshot;
  store_snapshot : HealthSnapshot;
}.

Record FailureFact : Type := MkFailureFact {
  ff_Source : Source;
  ff_Code : string;
  ff_ObservedAt : Time;
}.

(** [store.sources[source]]: the zero value where a source was never stored,
    whose empty status no constant has; every source is stored at creation. *)
Definition source_fact (sources : gmap Source SourceSnapshot) (source : Source) : SourceSnapshot :=
  default (fact source StatusUnknown EmptyString) (sources !! source).

(** The certificate is judged again at every assembly. *)
Definition reassess (now : Time) (sources : gmap Source SourceSnapshot) : gmap Source SourceSnapshot :=
  match sources !! SourceTLSCertificate ≫= ss_ExpiresAt with
  | Some expires => <[SourceTLSCertificate := CertificateSource now (Some expires)]> sources
  | None => sources
  end.

Definition snapshot_of (now : Time) (sources : gmap Source SourceSnapshot) : HealthSnapshot :=
  let facts := map (source_fact sources) sourceOrder in
  MkHealthSnapshot (AggregateStatus (map ss_Status facts)) facts now.

(** [assemble] changes the sources and returns the snapshot that is then stored. *)
Definition assemble (now : Time) (sources : gmap Source SourceSnapshot) : Store :=
  let sources := reassess now sources in MkStore sources (snapshot_of now sources).

Definition NewStore (version : string) (startedAt : Time) : Store :=
  let sources := foldl (fun sources source =>
    <[source := fact source StatusUnknown "FACT_UNAVAILABLE"]> sources) ∅ sourceOrder in
  assemble startedAt (<[SourceServerProcess :=
  MkSourceSnapshot SourceServerProcess StatusOK "SERVER_PROCESS_RUNNING"
    (Some version) (Some startedAt) None None None None None None None None None None None None None
    None None None None None None None None None None None None]> sources).

Record sourceChange : Type := MkSourceChange {
  sc_Source : Source;
  sc_PreviousStatus : Status;
  sc_Status : Status;
  sc_Code : string;
  sc_ValidityDaysRemaining : option Z;
}.

Definition by_source (facts : list SourceSnapshot) : gmap Source SourceSnapshot :=
  foldl (fun m f => <[ss_Source f := f]> m) ∅ facts.

Definition changedSources (previous current : list SourceSnapshot) : list sourceChange :=
  omap (fun source =>
    let before := source_fact (by_source previous) (ss_Source source) in
    if bool_decide (ss_Status before = ss_Status source) && bool_decide (ss_Code before = ss_Code source) then None
    else Some (MkSourceChange (ss_Source source) (ss_Status before) (ss_Status source) (ss_Code source)
                 (ss_ValidityDaysRemaining source))) current.

(** The failures an observer is told of. *)
Definition observeNewFailures (previous current : HealthSnapshot) : list FailureFact :=
  omap (fun source =>
    if bool_decide (ss_Status source = StatusFailed) &&
       negb (bool_decide (ss_Status (source_fact (by_source (hs_Sources previous)) (ss_Source source)) = StatusFailed))
    then Some (MkFailureFact (ss_Source source) (ss_Code source) (hs_AssembledAt current))
    else None) (hs_Sources current).

(** The new store, the changes journalled and the failures observed. *)
Definition Update (now : Time) (source : SourceSnapshot) (store : Store)
    : Store * list sourceChange * list FailureFact :=
  let store' := assemble now (<[ss_Source source := source]> (store_sources store)) in
  (store', changedSources (hs_Sources (store_snapshot store)) (hs_Sources (store_snapshot store')),
   observeNewFailures (store_snapshot store) (store_snapshot store')).

Definition PublishSummary (now : Time) (store : Store) : Store * list sourceChange * list FailureFact :=
  let store' := assemble now (store_sources store) in
  (store', changedSources (hs_Sources (store_snapshot store)) (hs_Sources (store_snapshot store')),
   observeNewFailures (store_snapshot store) (store_snapshot store')).

Definition Current (store : Store) : HealthSnapshot := store_snapshot store.

Definition StoreSource (store : Store) (source : Source) : SourceSnapshot := source_fact (store_sources store) source.

Definition StoreDiskLevel (store : Store) : DiskLevel :=
  default DiskNormal (ss_DiskLevel (StoreSource store SourceDisk)).

Definition PlatformDatabaseCapacityLevel (store : Store) : DiskLevel :=
  default DiskNormal (ss_CapacityLevel (StoreSource store SourcePlatformDatabaseCapacity)).

Definition RejectSampleWrites (store : Store) : bool :=
  bool_decide (PlatformDatabaseCapacityLevel store = DiskEmergency).

Definition RejectLocalLargeWrites (store : Store) : bool := bool_decide (StoreDiskLevel store = DiskEmergency).

(** * Facts *)

(** How bad a status is: failed, then unknown, then degraded. *)
Definition status_rank (s : Status) : Z :=
  match s with StatusOK => 0 | StatusDegraded => 1 | StatusUnknown => 2 | StatusFailed => 3 end.

Definition worst_rank (statuses : list Status) : Z :=
  foldr (fun s worst => Z.max (status_rank s) worst) 0 statuses.

Lemma worst_rank_bounds statuses : 0 <= worst_rank statuses <= 3.
Proof. induction statuses as [|[] l IH]; simpl; lia. Qed.

Lemma aggregate_from_worst statuses result :
  result <> StatusFailed ->
  status_rank (aggregate_loop_from result statuses) = Z.max (status_rank result) (worst_rank statuses).
Proof.
  revert result. induction statuses as [|s statuses IH]; intros result Hr; simpl; [destruct result; simpl; lia|].
  pose proof (worst_rank_bounds statuses). destruct s; [| |destruct result; simpl; lia|].
  - rewrite IH by done. simpl. lia.
  - rewrite IH by (case_bool_decide; done). destruct result; simpl; first [lia|done].
  - rewrite IH by done. destruct result; simpl; first [lia|done].
Qed.

(** The worst status wins. *)
Lemma AggregateStatus_worst statuses :
  statuses <> [] -> status_rank (AggregateStatus statuses) = worst_rank statuses.
Proof.
  intros Hne. unfold AggregateStatus. destruct statuses as [|s rest]; [done|].
  rewrite aggregate_from_worst by done. pose proof (worst_rank_bounds (s :: rest)). simpl in *. lia.
Qed.

Lemma worst_rank_failed statuses : worst_rank statuses = 3 <-> StatusFailed ∈ statuses.
Proof.
  induction statuses as [|s l IH]; simpl; [by rewrite elem_of_nil|]. rewrite elem_of_cons, <-IH.
  pose proof (worst_rank_bounds l). destruct s; simpl; intuition (congruence || lia).
Qed.

Lemma worst_rank_ok statuses : worst_rank statuses = 0 <-> Forall (fun s => s = StatusOK) statuses.
Proof.
  induction statuses as [|s l IH]; simpl; [split; [constructor|done]|]. rewrite Forall_cons, <-IH.
  pose proof (worst_rank_bounds l). destruct s; simpl; intuition (congruence || lia).
Qed.

(** A store whose facts are filed under their source and whose snapshot was
    assembled from them. *)
Record store_wf (store : Store) : Prop := MkStoreWf {
  swf_filed : map_Forall (fun source f => ss_Source f = source) (store_sources store);
  swf_snapshot : store_snapshot store = snapshot_of (hs_AssembledAt (store_snapshot store)) (store_sources store);
}.

Lemma source_fact_filed sources source :
  map_Forall (fun source f => ss_Source f = source) sources -> ss_Source (source_fact sources source) = source.
Proof. intros H. unfold source_fact. destruct (sources !! source) eqn:E; simpl; [by apply H|done]. Qed.

Lemma CertificateSource_source now expires : ss_Source (CertificateSource now expires) = SourceTLSCertificate.
Proof. unfold CertificateSource. destruct expires; [|done]. by repeat case_match. Qed.

Lemma reassess_filed now sources :
  map_Forall (fun source f => ss_Source f = source) sources ->
  map_Forall (fun source f => ss_Source f = source) (reassess now sources).
Proof.
  intros H. unfold reassess. case_match; [|done]. apply map_Forall_insert_2; [apply CertificateSource_source|done].
Qed.

Lemma assemble_wf now sources :
  map_Forall (fun source f => ss_Source f = source) sources -> store_wf (assemble now sources).
Proof. intros H. split; [by apply reassess_filed|done]. Qed.

Lemma NewStore_wf version startedAt : store_wf (NewStore version startedAt).
Proof.
  apply assemble_wf. apply map_Forall_insert_2; [done|].
  repeat (apply map_Forall_insert_2; [done|]). apply map_Forall_empty.
Qed.

Lemma Update_wf now source store : store_wf store -> store_wf (Update now source store).1.1.
Proof. intros [H1 H2]. apply assemble_wf. by apply map_Forall_insert_2. Qed.

Lemma PublishSummary_wf now store : store_wf store -> store_wf (PublishSummary now store).1.1.
Proof. intros [H1 H2]. by apply assemble_wf. Qed.

Lemma by_source_snapshot facts f :
  NoDup (map ss_Source facts) -> f ∈ facts -> by_source facts !! ss_Source f = Some f.
Proof.
  unfold by_source. intros Hnd Hin.
  revert Hnd Hin. induction facts as [|g facts IH] using rev_ind; intros Hnd Hin; [by apply elem_of_nil in Hin|].
  rewrite foldl_app. simpl. rewrite map_app in Hnd. simpl in Hnd.
  apply NoDup_app in Hnd as (Hnd&Hdisj&_). apply elem_of_app in Hin as [Hin|Hin%list_elem_of_singleton].
  - rewrite lookup_insert_ne; [by apply IH|]. intros Heq.
    apply (Hdisj (ss_Source f)); [by apply list_elem_of_fmap_2|]. rewrite <-Heq. left.
  - subst. by rewrite lookup_insert_eq.
Qed.

Lemma snapshot_sources_nodup now sources :
  map_Forall (fun source f => ss_Source f = source) sources ->
  map ss_Source (hs_Sources (snapshot_of now sources)) = sourceOrder.
Proof.
  intros H. unfold snapshot_of. cbn [hs_Sources]. rewrite map_map.
  rewrite <-(map_id sourceOrder) at 2. apply map_ext. intros source. by apply source_fact_filed.
Qed.

(** The fact of a source, looked up in the snapshot, is the store's. *)
Lemma by_source_store store source :
  store_wf store -> source_fact (by_source (hs_Sources (store_snapshot store))) source = StoreSource store source.
Proof.
  intros [H1 H2]. rewrite H2. set (facts := hs_Sources _).
  pose proof (by_source_snapshot facts (source_fact (store_sources store) source)) as Hb.
  rewrite source_fact_filed in Hb by done. unfold source_fact at 1. rewrite Hb; [done| |].
  - unfold facts. rewrite snapshot_sources_nodup by done. apply sourceOrder_nodup.
  - unfold facts, snapshot_of. cbn [hs_Sources]. apply list_elem_of_fmap_2, sourceOrder_all.
Qed.

Lemma elem_of_snapshot store f :
  store_wf store -> f ∈ hs_Sources (store_snapshot store) <-> f = StoreSource store (ss_Source f).
Proof.
  intros [H1 H2]. rewrite H2. unfold snapshot_of. cbn [hs_Sources]. rewrite list_elem_of_fmap. split.
  - intros (source&->&_). unfold StoreSource. by rewrite source_fact_filed.
  - intros Hf. exists (ss_Source f). split; [done|apply sourceOrder_all].
Qed.

(** The failures reported between two stores. *)
Lemma observed_failures store store' failure :
  store_wf store -> store_wf store' ->
  failure ∈ observeNewFailures (store_snapshot store) (store_snapshot store') <->
  ss_Status (StoreSource store' (ff_Source failure)) = StatusFailed /\
  ss_Status (StoreSource store (ff_Source failure)) <> StatusFailed /\
  ff_Code failure = ss_Code (StoreSource store' (ff_Source failure)) /\
  ff_ObservedAt failure = hs_AssembledAt (store_snapshot store').
Proof.
  intros Hwf Hwf'. unfold observeNewFailures. rewrite list_elem_of_omap. split.
  - intros (f&Hf&H). apply elem_of_snapshot in Hf; [|done]. rewrite by_source_store in H by done.
    destruct (bool_decide _ && _) eqn:E; [|done]. injection H as <-. bool_to_prop. cbn [ff_Source ff_Code ff_ObservedAt].
    rewrite <-Hf. done.
  - intros (H1&H2&H3&H4). exists (StoreSource store' (ff_Source failure)).
    assert (ss_Source (StoreSource store' (ff_Source failure)) = ff_Source failure) as Hs
      by (apply source_fact_filed, Hwf').
    split; [by apply elem_of_snapshot; [|rewrite Hs]|]. rewrite Hs, by_source_store by done.
    rewrite bool_decide_eq_true_2, bool_decide_eq_false_2 by done. cbn. by destruct failure; simpl in *; subst.
Qed.

Lemma Update_source now f store :
  ss_Source f <> SourceTLSCertificate ->
  forall source, StoreSource (Update now f store).1.1 source =
    if decide (source = ss_Source f) then f
    else if decide (source = SourceTLSCertificate) then StoreSource (Update now f store).1.1 source
    else StoreSource store source.
Proof.
  intros Hf source. unfold Update, assemble, StoreSource, source_fact. cbn [fst snd store_sources].
  unfold reassess. repeat case_decide; subst; try done; case_match; by simplify_map_eq.
Qed.

Definition level_rank (level : DiskLevel) : Z :=
  match level with DiskNormal => 0 | DiskWarning => 1 | DiskCritical => 2 | DiskEmergency => 3 end.

(** The threshold at which a level is entered. *)
Definition threshold (t : DiskThresholds) (level : DiskLevel) : float64 :=
  match level with
  | DiskNormal => f64_of_Z 0
  | DiskWarning => Warning t
  | DiskCritical => Critical t
  | DiskEmergency => Emergency t
  end.

(** * Properties *)

(** Watermark hysteresis: repeating a reading never changes the level (no
    flapping), the level is never below what the reading alone calls for and
    above it only to hold the previous level back, a level is left only when
    usage is below its threshold less the hysteresis, and entered only at its
    threshold. *)
Theorem watermark_hysteresis (usage : float64) (previous : DiskLevel) (t : DiskThresholds) :
  let next := ClassifyWatermarkLevel usage previous t in
  let bare := ClassifyWatermarkLevel usage DiskNormal t in
  ClassifyWatermarkLevel usage next t = next /\
  level_rank bare <= level_rank next <= Z.max (level_rank previous) (level_rank bare) /\
  (level_rank next < level_rank previous ->
     (usage >=? threshold t previous - Hysteresis t)%f64 = false) /\
  (level_rank previous < level_rank next -> (usage >=? threshold t next)%f64 = true).
Proof.
  unfold ClassifyWatermarkLevel.
  destruct (Emergency t <=? usage)%f64 eqn:E1, (Emergency t - Hysteresis t <=? usage)%f64 eqn:E2,
    (Critical t <=? usage)%f64 eqn:E3, (Critical t - Hysteresis t <=? usage)%f64 eqn:E4,
    (Warning t <=? usage)%f64 eqn:E5, (Warning t - Hysteresis t <=? usage)%f64 eqn:E6;
    destruct previous; simpl; rewrite ?E1, ?E2, ?E3, ?E4, ?E5, ?E6; simpl; repeat split; try done; lia.
Qed.

(** The stores the process can have. *)
Inductive reachable_store : Store -> Prop :=
  | reachable_new version startedAt : reachable_store (NewStore version startedAt)
  | reachable_update now f store : reachable_store store -> reachable_store (Update now f store).1.1
  | reachable_publish now store : reachable_store store -> reachable_store (PublishSummary now store).1.1.

Lemma reachable_store_wf store : reachable_store store -> store_wf store.
Proof. induction 1; [apply NewStore_wf|by apply Update_wf|by apply PublishSummary_wf]. Qed.

(** In every store the process can reach, the platform's status is the worst
    of its sources' (failed, unknown, degraded), and an update tells the observer
    exactly of the sources that fail now and did not before, each with its code
    and the time of assembly. *)
Theorem platform_status_and_failures (now : Time) (f : SourceSnapshot) (store : Store) :
  reachable_store store ->
  let '(store', _, failures) := Update now f store in
  (hs_Status (Current store') = StatusFailed <-> exists source, ss_Status (StoreSource store' source) = StatusFailed) /\
  (hs_Status (Current store') = StatusOK <-> forall source, ss_Status (StoreSource store' source) = StatusOK) /\
  (forall failure, failure ∈ failures <->
     ss_Status (StoreSource store' (ff_Source failure)) = StatusFailed /\
     ss_Status (StoreSource store (ff_Source failure)) <> StatusFailed /\
     ff_Code failure = ss_Code (StoreSource store' (ff_Source failure)) /\ ff_ObservedAt failure = now).
Proof.
  intros Hr. pose proof (reachable_store_wf _ Hr) as Hwf. pose proof (Update_wf now f store Hwf) as Hwf'.
  destruct (Update now f store) as [[store' changes] failures] eqn:E. cbn [fst] in Hwf'.
  assert (failures = observeNewFailures (store_snapshot store) (store_snapshot store')) as -> by (unfold Update in E; congruence).
  assert (store' = assemble now (<[ss_Source f := f]> (store_sources store))) as Hstore' by (unfold Update in E; congruence).
  assert (hs_AssembledAt (store_snapshot store') = now) as Hat by by rewrite Hstore'.
  clear E Hstore'.
  assert (hs_Status (Current store') = AggregateStatus (map ss_Status (map (StoreSource store') sourceOrder))) as Hst
    by (unfold Current; rewrite (swf_snapshot _ Hwf'); done).
  assert (forall s, s ∈ map ss_Status (map (StoreSource store') sourceOrder) <->
    exists source, ss_Status (StoreSource store' source) = s) as Hin.
  { intros s. rewrite map_map, list_elem_of_fmap. split.
    - intros (source&->&_). eauto.
    - intros (source&<-). exists source. split; [done|apply sourceOrder_all]. }
  pose proof (AggregateStatus_worst (map ss_Status (map (StoreSource store') sourceOrder)) ltac:(done)) as Hworst.
  rewrite Hst. split_and!.
  - rewrite <-Hin, <-worst_rank_failed, <-Hworst. by destruct (AggregateStatus _).
  - trans (Forall (fun s => s = StatusOK) (map ss_Status (map (StoreSource store') sourceOrder))).
    + rewrite <-worst_rank_ok, <-Hworst. by destruct (AggregateStatus _).
    + rewrite Forall_forall. split.
      * intros H source. apply H, Hin. by exists source.
      * intros H s [source <-]%Hin. apply H.
  - intros failure. rewrite <-Hat. by apply observed_failures.
Qed.

Lemma platform_status_and_failures_witness :
  let '(store', _, failures) := Update 5 (DatabaseSource (Some ErrEOF)) (NewStore "1" 0) in
  hs_Status (Current store') = StatusFailed /\ length failures = 1%nat.
Proof.
  pose proof (platform_status_and_failures 5 (DatabaseSource (Some ErrEOF)) (NewStore "1" 0) (reachable_new "1" 0)) as H.
  assert (length (Update 5 (DatabaseSource (Some ErrEOF)) (NewStore "1" 0)).2 = 1%nat) as Hl
    by (refine (bool_decide_unpack _ _); vm_compute; exact I).
  assert (ss_Status (StoreSource (Update 5 (DatabaseSource (Some ErrEOF)) (NewStore "1" 0)).1.1 SourcePlatformDatabase)
          = StatusFailed) as Hs by (refine (bool_decide_unpack _ _); vm_compute; exact I).
  destruct (Update 5 (DatabaseSource (Some ErrEOF)) (NewStore "1" 0)) as [[store' changes] failures].
  destruct H as [H _]. split; [|exact Hl]. apply H. by exists SourcePlatformDatabase.
Defined.

(** Sample writes are rejected exactly while the last known capacity level is
    the emergency one: a reading decides by the watermark, an unavailable reading
    keeps the decision, and no other source changes it. *)
Theorem sample_write_rejection (now : Time) (store : Store) (used budget : Z) (t : DiskThresholds) (f : SourceSnapshot) :
  let level := PlatformDatabaseCapacityLevel store in
  RejectSampleWrites (Update now (PlatformDatabaseCapacityUnavailableSource level) store).1.1 = RejectSampleWrites store /\
  RejectSampleWrites (Update now (PlatformDatabaseCapacitySource used budget level t) store).1.1 =
    (if (0 <=? used) && (0 <? budget) && is_finite (f64_of_Z used / f64_of_Z budget * f64_of_Z 100)%f64 &&
        nonneg (f64_of_Z used / f64_of_Z budget * f64_of_Z 100)%f64
     then bool_decide (ClassifyWatermarkLevel (f64_of_Z used / f64_of_Z budget * f64_of_Z 100)%f64 level t = DiskEmergency)
     else RejectSampleWrites store) /\
  (ss_Source f <> SourcePlatformDatabaseCapacity -> ss_Source f <> SourceTLSCertificate ->
   RejectSampleWrites (Update now f store).1.1 = RejectSampleWrites store).
Proof.
  assert (forall g, ss_Source g = SourcePlatformDatabaseCapacity ->
    PlatformDatabaseCapacityLevel (Update now g store).1.1 = default DiskNormal (ss_CapacityLevel g)) as Hup.
  { intros g Hg. unfold PlatformDatabaseCapacityLevel. rewrite Update_source by (rewrite Hg; done).
    by rewrite decide_True. }
  intros level. unfold RejectSampleWrites. split_and!.
  - by rewrite (Hup (PlatformDatabaseCapacityUnavailableSource level)).
  - rewrite (Hup (PlatformDatabaseCapacitySource used budget level t)).
    2:{ unfold PlatformDatabaseCapacitySource. by repeat case_match. }
    unfold PlatformDatabaseCapacitySource, is_finite, nonneg. fold level.
    set (usage := (f64_of_Z used / f64_of_Z budget * f64_of_Z 100)%f64).
    change (S754_zero false) with (f64_of_Z 0).
    destruct (Z.ltb_spec used 0), (Z.leb_spec budget 0), (Z.leb_spec 0 used), (Z.ltb_spec 0 budget); try lia;
      cbn [orb andb]; try done.
    destruct (IsNaN usage), (IsInf usage), (usage <? f64_of_Z 0)%f64; try done. simpl.
    by destruct (ClassifyWatermarkLevel usage level t).
  - intros H1 H2. unfold PlatformDatabaseCapacityLevel. rewrite Update_source by done.
    rewrite decide_False by congruence. by rewrite decide_False by done.
Qed.
