(* ===== verification/TriggerSnapshot.v ===== *)
(** The session snapshot taken when an alert fires: the scope a metric calls for
    and the choice of sessions of [internal/alerting/trigger_snapshot.go], and
    the marking of direct matches of [internal/evaluator/trigger_snapshot.go].
    The blocking graph is walked breadth first; the model bounds the walk by
    [related_fuel], which [related_loop_done] shows to be enough. *)

From S2P Require Import Prelude AlertEvaluation.

Inductive TriggerSnapshotScope : Type :=
  | TriggerSnapshotLockBlocking
  | TriggerSnapshotLongTransactions
  | TriggerSnapshotIdleInTransaction
  | TriggerSnapshotActiveSessions.

#[export] Instance TriggerSnapshotScope_eq_dec : EqDecision TriggerSnapshotScope.
Proof. solve_decision. Defined.

Definition maxActiveTriggerSnapshotSessions : Z := 50.

Definition TriggerSnapshotScopeForMetric (metricID : string) : option TriggerSnapshotScope :=
  if bool_decide (metricID = "pg.connection.active") then Some TriggerSnapshotActiveSessions
  else if bool_decide (metricID = "pg.connection.idle_in_transaction") then Some TriggerSnapshotIdleInTransaction
  else if bool_decide (metricID = "pg.transaction.long_count") ||
          bool_decide (metricID = "pg.transaction.max_duration_sec") then Some TriggerSnapshotLongTransactions
  else if bool_decide (metricID = "pg.lock.waiting_count") ||
          bool_decide (metricID = "pg.session.blocked_count") then Some TriggerSnapshotLockBlocking
  else None.

Record TriggerSession : Type := MkTriggerSession {
  PID : Z;
  ts_Username : option string;
  ts_DatabaseName : option string;
  ts_ClientAddress : option string;
  ts_State : option string;
  ts_QueryStartedAt : option Time;
  ts_TransactionStartedAt : option Time;
  QueryDurationMS : option Z;
  TransactionDurationMS : option Z;
  ts_WaitEventType : option string;
  ts_WaitEvent : option string;
  BlockingPIDs : list Z;
  DirectMatch : bool;
}.

#[export] Instance TriggerSession_eq_dec : EqDecision TriggerSession.
Proof. solve_decision. Defined.

(** [session.DirectMatch = b]. *)
Definition set_DirectMatch (b : bool) (s : TriggerSession) : TriggerSession :=
  MkTriggerSession (PID s) (ts_Username s) (ts_DatabaseName s) (ts_ClientAddress s) (ts_State s)
    (ts_QueryStartedAt s) (ts_TransactionStartedAt s) (QueryDurationMS s) (TransactionDurationMS s)
    (ts_WaitEventType s) (ts_WaitEvent s) (BlockingPIDs s) b.

(** * Walking the blocking graph *)

Definition sessionsByPID (sessions : list TriggerSession) : gmap Z TriggerSession :=
  foldl (fun m s => <[PID s := s]> m) ∅ sessions.

Definition add_waiter (pid : Z) (m : gmap Z (list Z)) (blockerPID : Z) : gmap Z (list Z) :=
  <[blockerPID := default [] (m !! blockerPID) ++ [pid]]> m.

Definition waiterPIDsByBlocker (sessions : list TriggerSession) : gmap Z (list Z) :=
  foldl (fun m s => foldl (add_waiter (PID s)) m (BlockingPIDs s)) ∅ sessions.

(** The pids appended to [pendingPIDs] when [session] is visited. *)
Definition pushed (scope : TriggerSnapshotScope) (waiters : gmap Z (list Z)) (pid : Z) (session : TriggerSession) : list Z :=
  BlockingPIDs session ++
  (if bool_decide (scope <> TriggerSnapshotLockBlocking) then default [] (waiters !! pid) else []).

(** The loop of [relatedTriggerSessionPIDs]; [None] when the fuel runs out. *)
Fixpoint related_loop (fuel : nat) (scope : TriggerSnapshotScope) (byPID : gmap Z TriggerSession)
    (waiters : gmap Z (list Z)) (relatedPIDs : gset Z) (pendingPIDs : list Z) : option (gset Z) :=
  match fuel with
  | O => None
  | S fuel =>
      match pendingPIDs with
      | [] => Some relatedPIDs
      | pid :: pendingPIDs =>
          if bool_decide (pid ∈ relatedPIDs) then related_loop fuel scope byPID waiters relatedPIDs pendingPIDs
          else
            match byPID !! pid with
            | None => related_loop fuel scope byPID waiters relatedPIDs pendingPIDs
            | Some session =>
                related_loop fuel scope byPID waiters ({[pid]} ∪ relatedPIDs)
                  (pendingPIDs ++ pushed scope waiters pid session)
            end
      end
  end.

(** The pids pushed by a visit of [pid]. *)
Definition pushes (scope : TriggerSnapshotScope) (byPID : gmap Z TriggerSession) (waiters : gmap Z (list Z)) (pid : Z)
    : list Z :=
  match byPID !! pid with
  | Some session => pushed scope waiters pid session
  | None => []
  end.

(** How many pids the visits of [pids] can still push. *)
Definition push_budget (scope : TriggerSnapshotScope) (byPID : gmap Z TriggerSession) (waiters : gmap Z (list Z))
    (pids : gset Z) : nat :=
  sum_list_with (fun pid => length (pushes scope byPID waiters pid)) (elements pids).

Definition related_fuel (scope : TriggerSnapshotScope) (byPID : gmap Z TriggerSession) (waiters : gmap Z (list Z)) : nat :=
  S (S (push_budget scope byPID waiters (dom byPID))).

Definition relatedTriggerSessionPIDs (scope : TriggerSnapshotScope) (rootPID : Z) (byPID : gmap Z TriggerSession)
    (waiters : gmap Z (list Z)) : list Z :=
  match related_loop (related_fuel scope byPID waiters) scope byPID waiters ∅ [rootPID] with
  | Some relatedPIDs => sort_by Z.ltb (elements relatedPIDs)
  | None => []
  end.

(** * Choosing the sessions *)

Record sessionGroup : Type := MkSessionGroup {
  rootPID : Z;
  group_pids : list Z;
}.

Definition groupLess (a b : sessionGroup) : bool :=
  if bool_decide (length (group_pids a) <> length (group_pids b))
  then (length (group_pids b) <? length (group_pids a))%nat
  else rootPID a <? rootPID b.

(** The groups of the direct matches, in the order of the sessions. *)
Definition session_groups (scope : TriggerSnapshotScope) (sessions : list TriggerSession) : list sessionGroup :=
  let byPID := sessionsByPID sessions in
  let waiters := waiterPIDsByBlocker sessions in
  (fun s => MkSessionGroup (PID s) (relatedTriggerSessionPIDs scope (PID s) byPID waiters)) <$>
    filter (fun s => DirectMatch s = true) sessions.

Definition select_group (limit : Z) (selectedPIDs : gset Z) (candidate : sessionGroup) : gset Z :=
  let additionalSessionCount := length (filter (fun pid => pid ∉ selectedPIDs) (group_pids candidate)) in
  if limit <? Z.of_nat (size selectedPIDs + additionalSessionCount) then selectedPIDs
  else selectedPIDs ∪ list_to_set (group_pids candidate).

Definition relevant_pids (groups : list sessionGroup) : gset Z :=
  list_to_set (groups ≫= group_pids).

Definition SelectTriggerSessions (scope : TriggerSnapshotScope) (sessions : list TriggerSession) (limit : Z)
    : list TriggerSession * Z * bool :=
  if limit <=? 0 then ([], Z.of_nat (length sessions), bool_decide (sessions <> []))
  else if bool_decide (scope = TriggerSnapshotActiveSessions) then
    let limit := if maxActiveTriggerSnapshotSessions <? limit then maxActiveTriggerSnapshotSessions else limit in
    let selected := if limit <? Z.of_nat (length sessions) then take (Z.to_nat limit) sessions else sessions in
    (selected, Z.of_nat (length sessions), (length selected <? length sessions)%nat)
  else
    let groups := session_groups scope sessions in
    let relevantPIDs := relevant_pids groups in
    let selectedPIDs := foldl (select_group limit) ∅ (sort_by groupLess groups) in
    let selected := filter (fun s => PID s ∈ selectedPIDs) sessions in
    (selected, Z.of_nat (size relevantPIDs), (length selected <? size relevantPIDs)%nat).

(** * Marking the direct matches *)

Definition longTransactionMinimumDuration : Duration := 5 * Minute.

Definition is_active_state (s : TriggerSession) : bool := bool_decide (ts_State s = Some "active").

(** The order of the active sessions; a NULL duration reads as 0. *)
Definition longerRunning (a b : TriggerSession) : bool :=
  let leftDuration := default 0 (QueryDurationMS a) in
  let rightDuration := default 0 (QueryDurationMS b) in
  if bool_decide (leftDuration <> rightDuration) then rightDuration <? leftDuration else PID a <? PID b.

Definition direct_match (scope : TriggerSnapshotScope) (metricID operator : string) (threshold : float64)
    (s : TriggerSession) : bool :=
  match scope with
  | TriggerSnapshotLockBlocking => bool_decide (ts_WaitEventType s = Some "Lock") || bool_decide (BlockingPIDs s <> [])
  | TriggerSnapshotIdleInTransaction =>
      match ts_State s with Some state => HasPrefix state "idle in transaction" | None => false end
  | TriggerSnapshotLongTransactions =>
      match TransactionDurationMS s with
      | None => false
      | Some ms =>
          if bool_decide (metricID = "pg.transaction.max_duration_sec")
          then Compare (f64_of_Z ms / f64_of_Z 1000)%f64 operator threshold
          else longTransactionMinimumDuration / Millisecond <? ms
      end
  | TriggerSnapshotActiveSessions => DirectMatch s
  end.

Definition markDirectTriggerSessions (scope : TriggerSnapshotScope) (metricID operator : string) (threshold : float64)
    (sessions : list TriggerSession) : list TriggerSession :=
  if bool_decide (scope = TriggerSnapshotActiveSessions)
  then sort_by longerRunning (set_DirectMatch true <$> filter (fun s => is_active_state s = true) sessions)
  else (fun s => set_DirectMatch (direct_match scope metricID operator threshold s) s) <$> sessions.

(** * The walk finds exactly the related sessions *)

Section Walk.
Context (scope : TriggerSnapshotScope) (byPID : gmap Z TriggerSession) (waiters : gmap Z (list Z)).

(** A step of the walk: to a pid pushed by [p] that has a session. *)
Definition walk_step (p q : Z) : Prop := q ∈ pushes scope byPID waiters p /\ q ∈ dom byPID.

Lemma pushes_dom p q : q ∈ pushes scope byPID waiters p -> p ∈ dom byPID.
Proof. unfold pushes. destruct (byPID !! p) eqn:E; [|by intros ?%elem_of_nil]. intros _. by apply elem_of_dom. Qed.

Lemma push_budget_visit (related : gset Z) pid :
  pid ∈ dom byPID -> pid ∉ related ->
  push_budget scope byPID waiters (dom byPID ∖ related) =
  (length (pushes scope byPID waiters pid) + push_budget scope byPID waiters (dom byPID ∖ ({[pid]} ∪ related)))%nat.
Proof.
  intros Hd Hr. unfold push_budget.
  replace (dom byPID ∖ related) with ({[pid]} ∪ (dom byPID ∖ ({[pid]} ∪ related))).
  2:{ apply set_eq. intros x. destruct (decide (x = pid)); set_solver. }
  rewrite elements_union_singleton by set_solver. done.
Qed.

(** The invariant of the loop: what is visited or waiting is reachable, and what
    a visited session pushed is visited or waiting. *)
Record walk_inv (root : Z) (related : gset Z) (pending : list Z) : Prop := MkWalkInv {
  walk_visited : forall p, p ∈ related -> p ∈ dom byPID /\ rtc walk_step root p;
  walk_waiting : forall p, p ∈ pending -> p ∈ dom byPID -> rtc walk_step root p;
  walk_root : root ∈ dom byPID -> root ∈ related \/ root ∈ pending;
  walk_closed : forall p q, p ∈ related -> walk_step p q -> q ∈ related \/ q ∈ pending;
}.

Lemma walk_inv_skip root related pid pending :
  pid ∈ related \/ pid ∉ dom byPID -> walk_inv root related (pid :: pending) -> walk_inv root related pending.
Proof.
  intros Hp [H1 H2 H3 H4]. split.
  - done.
  - intros p ??. apply H2; [by right|done].
  - intros Hr. destruct (H3 Hr) as [?|[->|?]%elem_of_cons]; naive_solver.
  - intros p q Hpr Hs. destruct (H4 _ _ Hpr Hs) as [?|[->|?]%elem_of_cons]; [by left| |by right].
    destruct Hs as [_ Hs]. naive_solver.
Qed.

Lemma walk_inv_visit root related pid pending :
  pid ∈ dom byPID -> walk_inv root related (pid :: pending) ->
  walk_inv root ({[pid]} ∪ related) (pending ++ pushes scope byPID waiters pid).
Proof.
  intros Hd [H1 H2 H3 H4].
  assert (rtc walk_step root pid) as Hpid by (apply H2; [left|done]).
  split.
  - intros p [->%elem_of_singleton|Hp]%elem_of_union; auto.
  - intros p [Hp|Hp]%elem_of_app Hpd; [apply H2; [by right|done]|].
    eapply rtc_r; [exact Hpid|]. by split.
  - intros Hr. destruct (H3 Hr) as [?|[->|?]%elem_of_cons]; set_solver.
  - intros p q [->%elem_of_singleton|Hp]%elem_of_union Hs.
    + right. apply elem_of_app. right. apply Hs.
    + destruct (H4 _ _ Hp Hs) as [?|[->|?]%elem_of_cons]; set_solver.
Qed.

(** With one unit of fuel per waiting or still pushable pid, and one for the
    final test, the loop ends with the sessions reachable from the root. *)
Lemma related_loop_done fuel root related pending :
  walk_inv root related pending ->
  (length pending + push_budget scope byPID waiters (dom byPID ∖ related) < fuel)%nat ->
  exists final, related_loop fuel scope byPID waiters related pending = Some final /\
    forall p, p ∈ final <-> root ∈ dom byPID /\ rtc walk_step root p.
Proof.
  revert related pending. induction fuel as [|fuel IH]; intros related pending Hinv Hfuel; [lia|].
  destruct pending as [|pid pending]; simpl.
  { exists related. split; [done|]. destruct Hinv as [H1 _ H3 H4]. intros p. split.
    - intros Hp. destruct (H1 p Hp) as [Hd Hr]. split; [|done].
      apply rtc_inv in Hr as [->|(y & [Hy _] & _)]; [done|]. by eapply pushes_dom.
    - intros [Hroot Hr]. revert p Hr. apply rtc_ind_r; [|intros p q _ Hs IHr].
      + by destruct (H3 Hroot) as [?|?%elem_of_nil].
      + by destruct (H4 _ _ IHr Hs) as [?|?%elem_of_nil]. }
  simpl in Hfuel. case_bool_decide as Hvis.
  { apply IH; [|lia]. eapply walk_inv_skip; [by left|done]. }
  destruct (byPID !! pid) as [session|] eqn:Hs.
  - assert (pid ∈ dom byPID) as Hd by (by apply elem_of_dom).
    assert (pushed scope waiters pid session = pushes scope byPID waiters pid) as Hpush
      by (unfold pushes; by rewrite Hs).
    rewrite Hpush. apply IH; [by apply walk_inv_visit|].
    rewrite (push_budget_visit related pid) in Hfuel by done. rewrite length_app. lia.
  - apply IH; [|lia]. eapply walk_inv_skip; [|done]. right. by apply not_elem_of_dom.
Qed.

Lemma Zltb_in_order (l : list Z) : in_order Z.ltb (sort_by Z.ltb l).
Proof. apply sort_by_in_order; intros; rewrite ?Z.ltb_lt, ?Z.ltb_ge in *; lia. Qed.

Lemma relatedTriggerSessionPIDs_walk root p :
  root ∈ dom byPID ->
  p ∈ relatedTriggerSessionPIDs scope root byPID waiters <-> rtc walk_step root p.
Proof.
  intros Hroot. unfold relatedTriggerSessionPIDs.
  destruct (related_loop_done (related_fuel scope byPID waiters) root ∅ [root]) as (final & -> & Hf).
  - split; set_solver.
  - unfold related_fuel. rewrite difference_empty_L. simpl. lia.
  - rewrite elem_of_sort_by, elem_of_elements, Hf. naive_solver.
Qed.

Lemma relatedTriggerSessionPIDs_NoDup root : NoDup (relatedTriggerSessionPIDs scope root byPID waiters).
Proof.
  unfold relatedTriggerSessionPIDs. destruct (related_loop _ _ _ _ _ _); [|constructor].
  rewrite sort_by_perm. apply NoDup_elements.
Qed.
End Walk.

(** * The graph in terms of the sessions *)

(** [p] and [q] are sessions, and [p] waits for [q] or, outside the lock scope,
    [q] waits for [p]. *)
Definition blocking_link (scope : TriggerSnapshotScope) (sessions : list TriggerSession) (p q : Z) : Prop :=
  exists s t, s ∈ sessions /\ t ∈ sessions /\ PID s = p /\ PID t = q /\
    (q ∈ BlockingPIDs s \/ scope <> TriggerSnapshotLockBlocking /\ p ∈ BlockingPIDs t).

(** [pid] is connected to [root] through sessions that wait for each other. *)
Definition related (scope : TriggerSnapshotScope) (sessions : list TriggerSession) (root pid : Z) : Prop :=
  rtc (blocking_link scope sessions) root pid.

Lemma sessionsByPID_snoc l s : sessionsByPID (l ++ [s]) = <[PID s := s]> (sessionsByPID l).
Proof. unfold sessionsByPID. by rewrite foldl_snoc. Qed.

Lemma sessionsByPID_dom l p : p ∈ dom (sessionsByPID l) <-> exists s, s ∈ l /\ PID s = p.
Proof.
  induction l as [|s l IH] using rev_ind.
  { unfold sessionsByPID; simpl. rewrite dom_empty. set_solver. }
  rewrite sessionsByPID_snoc, dom_insert, elem_of_union, elem_of_singleton, IH.
  setoid_rewrite elem_of_app. setoid_rewrite list_elem_of_singleton. naive_solver.
Qed.

Lemma sessionsByPID_lookup l p s :
  NoDup (PID <$> l) -> sessionsByPID l !! p = Some s <-> s ∈ l /\ PID s = p.
Proof.
  intros Hnd. induction l as [|t l IH] using rev_ind.
  { unfold sessionsByPID; simpl. rewrite lookup_empty. set_solver. }
  rewrite fmap_app in Hnd. apply NoDup_app in Hnd as (Hnd & Hdis & _).
  rewrite sessionsByPID_snoc, lookup_insert_Some, (IH Hnd).
  rewrite elem_of_app, list_elem_of_singleton. split.
  - naive_solver.
  - intros [[Hin| ->] <-]; [|by left]. right. split; [|done]. intros Heq.
    apply (Hdis (PID s)); [by apply list_elem_of_fmap_2|]. simpl. rewrite Heq. left.
Qed.

Lemma add_waiter_foldl pid bs m b q :
  q ∈ default [] (foldl (add_waiter pid) m bs !! b) <-> q ∈ default [] (m !! b) \/ q = pid /\ b ∈ bs.
Proof.
  revert m. induction bs as [|c bs IH]; intros m; simpl; [set_solver|].
  rewrite IH. unfold add_waiter. destruct (decide (c = b)) as [->|Hne].
  - rewrite lookup_insert_eq. simpl. rewrite elem_of_app, list_elem_of_singleton. set_solver.
  - rewrite lookup_insert_ne by done. set_solver.
Qed.

Lemma waiterPIDsByBlocker_elem l b q :
  q ∈ default [] (waiterPIDsByBlocker l !! b) <-> exists t, t ∈ l /\ PID t = q /\ b ∈ BlockingPIDs t.
Proof.
  unfold waiterPIDsByBlocker. induction l as [|s l IH] using rev_ind; [set_solver|].
  rewrite foldl_snoc, add_waiter_foldl, IH.
  setoid_rewrite elem_of_app. setoid_rewrite list_elem_of_singleton. naive_solver.
Qed.

Lemma walk_step_link scope l p q :
  NoDup (PID <$> l) ->
  walk_step scope (sessionsByPID l) (waiterPIDsByBlocker l) p q <-> blocking_link scope l p q.
Proof.
  intros Hnd. unfold walk_step, pushes, blocking_link, pushed. rewrite sessionsByPID_dom.
  split.
  - intros [Hpush (t & Ht & <-)]. destruct (sessionsByPID l !! p) as [s|] eqn:Hs; [|by apply elem_of_nil in Hpush].
    apply sessionsByPID_lookup in Hs as [Hs <-]; [|done].
    apply elem_of_app in Hpush as [Hb|Hw]; [exists s, t; naive_solver|].
    case_bool_decide as Hscope; [|by apply elem_of_nil in Hw].
    apply waiterPIDsByBlocker_elem in Hw as (t' & Ht' & Heq & Hb). exists s, t'. naive_solver.
  - intros (s & t & Hs & Ht & <- & <- & Hlink). split; [|by exists t].
    assert (sessionsByPID l !! PID s = Some s) as -> by (by apply sessionsByPID_lookup).
    apply elem_of_app. destruct Hlink as [Hb|[Hscope Hb]]; [by left|right].
    rewrite bool_decide_true by done. apply waiterPIDsByBlocker_elem. by exists t.
Qed.

Lemma related_pids_spec scope l s p :
  NoDup (PID <$> l) -> s ∈ l ->
  p ∈ relatedTriggerSessionPIDs scope (PID s) (sessionsByPID l) (waiterPIDsByBlocker l) <-> related scope l (PID s) p.
Proof.
  intros Hnd Hs. rewrite relatedTriggerSessionPIDs_walk by (apply sessionsByPID_dom; eauto).
  split; apply rtc_subrel; intros ??; by apply walk_step_link.
Qed.

Lemma related_session scope l s p :
  s ∈ l -> related scope l (PID s) p -> exists t, t ∈ l /\ PID t = p.
Proof.
  intros Hs Hr. apply rtc_inv_r in Hr as [<-|(y & _ & (_ & t & _ & Ht & _ & <- & _))]; eauto.
Qed.

(** * The greedy choice of groups *)

Lemma select_group_size (selected : gset Z) (pids : list Z) :
  NoDup pids ->
  size (selected ∪ list_to_set pids) = (size selected + length (filter (fun pid => pid ∉ selected) pids))%nat.
Proof.
  intros Hnd. rewrite size_union_alt. f_equal.
  rewrite <-(size_list_to_set (C := gset Z)) by (by apply NoDup_filter).
  f_equal. apply set_eq. intros p. rewrite elem_of_difference, !elem_of_list_to_set, list_elem_of_filter. naive_solver.
Qed.

(** What the choice keeps true of the groups it has looked at: the limit holds,
    a chosen pid belongs to a group chosen as a whole, and a group that is not
    contained in the choice does not fit beside it. *)
Record choice_inv (limit : Z) (groups : list sessionGroup) (selected : gset Z) : Prop := MkChoiceInv {
  choice_limit : Z.of_nat (size selected) <= limit;
  choice_whole : forall p, p ∈ selected ->
    exists g, g ∈ groups /\ p ∈ group_pids g /\ list_to_set (group_pids g) ⊆ selected;
  choice_maximal : forall g, g ∈ groups ->
    list_to_set (group_pids g) ⊆ selected \/ limit < Z.of_nat (size (selected ∪ list_to_set (group_pids g)));
}.

Lemma choice_inv_step limit groups selected g :
  NoDup (group_pids g) -> choice_inv limit groups selected ->
  choice_inv limit (groups ++ [g]) (select_group limit selected g).
Proof.
  intros Hnd [H1 H2 H3]. unfold select_group. rewrite <-select_group_size by done.
  destruct (Z.ltb_spec limit (Z.of_nat (size (selected ∪ list_to_set (group_pids g))))) as [Hlt|Hle].
  - split; [done| |].
    + intros p Hp. destruct (H2 p Hp) as (h & Hh & ?). exists h. split; [|done]. apply elem_of_app. by left.
    + intros h [Hh| ->%list_elem_of_singleton]%elem_of_app; [by apply H3|by right].
  - split; [done| |].
    + intros p [Hp|Hp%elem_of_list_to_set]%elem_of_union.
      * destruct (H2 p Hp) as (h & Hh & Hph & Hsub). exists h. split_and!; [apply elem_of_app; by left|done|set_solver].
      * exists g. split_and!; [apply elem_of_app; right; left|done|set_solver].
    + intros h [Hh| ->%list_elem_of_singleton]%elem_of_app; [|left; set_solver].
      destruct (H3 h Hh) as [Hsub|Hbig]; [left; set_solver|right].
      eapply Z.lt_le_trans; [exact Hbig|]. apply inj_le, subseteq_size. set_solver.
Qed.

Lemma choice_inv_all limit groups :
  0 <= limit -> (forall g, g ∈ groups -> NoDup (group_pids g)) ->
  choice_inv limit groups (foldl (select_group limit) ∅ groups).
Proof.
  intros Hl. induction groups as [|g groups IH] using rev_ind; intros Hnd.
  - split; [done|set_solver|by intros g ?%elem_of_nil].
  - rewrite foldl_snoc. apply choice_inv_step; [|apply IH; intros h ?]; apply Hnd; set_solver.
Qed.

Lemma choice_inv_perm limit groups groups' selected :
  groups ≡ₚ groups' -> choice_inv limit groups selected -> choice_inv limit groups' selected.
Proof.
  intros Hp [H1 H2 H3]. split; [done| |].
  - intros p Hin. destruct (H2 p Hin) as (g & Hg & ?). exists g. by rewrite <-Hp.
  - intros g. rewrite <-Hp. apply H3.
Qed.

(** When everything relevant fits, everything is chosen. *)
Lemma choice_inv_fits limit groups selected g :
  choice_inv limit groups selected -> Z.of_nat (size (relevant_pids groups)) <= limit ->
  g ∈ groups -> list_to_set (group_pids g) ⊆ selected.
Proof.
  intros [H1 H2 H3] Hfit Hg. destruct (H3 g Hg) as [|Hbig]; [done|]. exfalso.
  assert (selected ∪ list_to_set (group_pids g) ⊆ relevant_pids groups) as Hsub%subseteq_size; [|lia].
  unfold relevant_pids. intros p. rewrite elem_of_union, !elem_of_list_to_set, list_elem_of_bind.
  intros [Hp|Hp]; [|by exists g]. destruct (H2 p Hp) as (h & Hh & Hph & _). by exists h.
Qed.

(** The sessions of a set of pids that all have a session. *)
Lemma sessions_of_pids (l : list TriggerSession) (X : gset Z) :
  NoDup (PID <$> l) -> (forall p, p ∈ X -> exists s, s ∈ l /\ PID s = p) ->
  length (filter (fun s => PID s ∈ X) l) = size X.
Proof.
  intros Hnd HX. rewrite <-(length_fmap PID).
  rewrite <-(size_list_to_set (C := gset Z)).
  - f_equal. apply set_eq. intros p. rewrite elem_of_list_to_set, list_elem_of_fmap.
    setoid_rewrite list_elem_of_filter. split; [naive_solver|].
    intros Hp. destruct (HX p Hp) as (s & Hs & <-). naive_solver.
  - eapply sublist_NoDup; [exact Hnd|]. apply fmap_sublist, sublist_filter.
Qed.

Section Selection.
Context (scope : TriggerSnapshotScope) (sessions : list TriggerSession).
Hypothesis pids_distinct : NoDup (PID <$> sessions).

Lemma session_groups_elem g :
  g ∈ session_groups scope sessions <->
  exists s, s ∈ sessions /\ DirectMatch s = true /\
    g = MkSessionGroup (PID s) (relatedTriggerSessionPIDs scope (PID s) (sessionsByPID sessions) (waiterPIDsByBlocker sessions)).
Proof.
  unfold session_groups. rewrite list_elem_of_fmap. setoid_rewrite list_elem_of_filter. naive_solver.
Qed.

Lemma session_groups_NoDup g : g ∈ session_groups scope sessions -> NoDup (group_pids g).
Proof. intros (s & _ & _ & ->)%session_groups_elem. apply relatedTriggerSessionPIDs_NoDup. Qed.

Lemma relevant_pids_spec p :
  p ∈ relevant_pids (session_groups scope sessions) <->
  exists s, s ∈ sessions /\ DirectMatch s = true /\ related scope sessions (PID s) p.
Proof using pids_distinct.
  unfold relevant_pids. rewrite elem_of_list_to_set, list_elem_of_bind. split.
  - intros (g & Hp & (s & Hs & Hd & ->)%session_groups_elem). exists s. split_and!; [done..|].
    by apply related_pids_spec.
  - intros (s & Hs & Hd & Hr). eexists. split; [|apply session_groups_elem; by exists s].
    by apply related_pids_spec.
Qed.

Lemma relevant_pids_sessions p :
  p ∈ relevant_pids (session_groups scope sessions) -> exists s, s ∈ sessions /\ PID s = p.
Proof using pids_distinct. intros (s & Hs & _ & Hr)%relevant_pids_spec. by eapply related_session. Qed.

Lemma selected_choice limit :
  0 <= limit ->
  choice_inv limit (session_groups scope sessions)
    (foldl (select_group limit) ∅ (sort_by groupLess (session_groups scope sessions))).
Proof.
  intros Hl. eapply choice_inv_perm; [apply (sort_by_perm groupLess)|].
  apply choice_inv_all; [done|]. intros g. rewrite elem_of_sort_by. apply session_groups_NoDup.
Qed.

Context (limit : Z) (chosen : gset Z).
Hypothesis chosen_inv : choice_inv limit (session_groups scope sessions) chosen.

Lemma choice_relevant : chosen ⊆ relevant_pids (session_groups scope sessions).
Proof using chosen_inv.
  destruct chosen_inv as [_ H2 _]. intros p Hp. destruct (H2 p Hp) as (g & Hg & Hpg & _).
  unfold relevant_pids. rewrite elem_of_list_to_set, list_elem_of_bind. by exists g.
Qed.

Lemma chosen_count : length (filter (fun s => PID s ∈ chosen) sessions) = size chosen.
Proof using pids_distinct chosen_inv.
  apply sessions_of_pids; [done|]. intros p Hp. by apply relevant_pids_sessions, choice_relevant.
Qed.

Lemma chosen_whole s :
  s ∈ filter (fun s => PID s ∈ chosen) sessions ->
  exists root, root ∈ sessions /\ DirectMatch root = true /\ related scope sessions (PID root) (PID s) /\
    forall t, t ∈ sessions -> related scope sessions (PID root) (PID t) ->
              t ∈ filter (fun s => PID s ∈ chosen) sessions.
Proof using pids_distinct chosen_inv.
  intros [Hs Hin]%list_elem_of_filter.
  destruct (choice_whole _ _ _ chosen_inv _ Hs) as (g & (root & Hr & Hd & ->)%session_groups_elem & Hp & Hsub).
  exists root. split_and!; [done..|by apply related_pids_spec|].
  intros t Ht Hrel. apply list_elem_of_filter. split; [|done].
  apply Hsub, elem_of_list_to_set. by apply related_pids_spec.
Qed.

Lemma chosen_maximal root :
  root ∈ sessions -> DirectMatch root = true ->
  (forall t, t ∈ sessions -> related scope sessions (PID root) (PID t) ->
             t ∈ filter (fun s => PID s ∈ chosen) sessions) \/
  exists both : gset Z, limit < Z.of_nat (size both) /\
    forall p, p ∈ both <-> p ∈ PID <$> filter (fun s => PID s ∈ chosen) sessions \/ related scope sessions (PID root) p.
Proof using pids_distinct chosen_inv.
  intros Hr Hd.
  assert (exists g, g ∈ session_groups scope sessions /\
    forall p, p ∈ group_pids g <-> related scope sessions (PID root) p) as (g & Hg & Hrel).
  { eexists. split; [by apply session_groups_elem; exists root|]. intros p. by apply related_pids_spec. }
  destruct (choice_maximal _ _ _ chosen_inv g Hg) as [Hsub|Hbig]; [left|right].
  - intros t Ht Hrt. apply list_elem_of_filter. split; [|done]. apply Hsub, elem_of_list_to_set. by apply Hrel.
  - eexists. split; [exact Hbig|]. intros p. rewrite elem_of_union, elem_of_list_to_set, Hrel.
    rewrite list_elem_of_fmap. setoid_rewrite list_elem_of_filter. split; [|naive_solver].
    intros [Hp|Hp]; [left|by right]. destruct (relevant_pids_sessions p) as (s & Hs & <-); [|naive_solver].
    by apply choice_relevant.
Qed.

Lemma chosen_all :
  (size chosen <? size (relevant_pids (session_groups scope sessions)))%nat = false <->
  relevant_pids (session_groups scope sessions) ⊆ chosen.
Proof using chosen_inv.
  clear pids_distinct. rewrite Nat.ltb_ge. split; [|by apply subseteq_size].
  intros Hsz p Hp. apply dec_stable. intros Hnp.
  assert ({[p]} ∪ chosen ⊆ relevant_pids (session_groups scope sessions)) as Hle%subseteq_size.
  { intros q [->%elem_of_singleton|Hq]%elem_of_union; [done|by apply choice_relevant]. }
  rewrite size_union, size_singleton in Hle by set_solver. lia.
Qed.

Lemma chosen_fits :
  Z.of_nat (size (relevant_pids (session_groups scope sessions))) <= limit ->
  relevant_pids (session_groups scope sessions) ⊆ chosen.
Proof using chosen_inv.
  intros Hfit p. unfold relevant_pids at 1. rewrite elem_of_list_to_set, list_elem_of_bind.
  intros (g & Hp & Hg). eapply choice_inv_fits; [done..|]. by apply elem_of_list_to_set.
Qed.
End Selection.

(** * Properties *)

(** The sessions related to some direct match. *)
Definition relevant (scope : TriggerSnapshotScope) (sessions : list TriggerSession) (p : Z) : Prop :=
  exists root, root ∈ sessions /\ DirectMatch root = true /\ related scope sessions (PID root) p.

(** C39. A trigger snapshot outside the active-session scope takes whole blocking
    chains: at most [limit] sessions, each with every session related to one of
    the direct matches, in the order they were read; a chain is left out only
    when it does not fit beside the ones taken. The reported count is that of the
    sessions related to a direct match, the snapshot is marked truncated exactly
    when one of them is missing, and nothing is missing when they fit. *)
Theorem SelectTriggerSessions_whole_chains (scope : TriggerSnapshotScope) (sessions : list TriggerSession) (limit : Z) :
  NoDup (PID <$> sessions) -> 0 < limit -> scope <> TriggerSnapshotActiveSessions ->
  let '(selected, originalMatchCount, truncated) := SelectTriggerSessions scope sessions limit in
  sublist selected sessions /\ Z.of_nat (length selected) <= limit /\
  (forall s, s ∈ selected -> exists root, root ∈ sessions /\ DirectMatch root = true /\
     related scope sessions (PID root) (PID s) /\
     forall t, t ∈ sessions -> related scope sessions (PID root) (PID t) -> t ∈ selected) /\
  (forall root, root ∈ sessions -> DirectMatch root = true ->
     (forall t, t ∈ sessions -> related scope sessions (PID root) (PID t) -> t ∈ selected) \/
     exists both : gset Z, limit < Z.of_nat (size both) /\
       forall p, p ∈ both <-> p ∈ PID <$> selected \/ related scope sessions (PID root) p) /\
  (exists all : gset Z, originalMatchCount = Z.of_nat (size all) /\ forall p, p ∈ all <-> relevant scope sessions p) /\
  (truncated = false <-> forall s, s ∈ sessions -> relevant scope sessions (PID s) -> s ∈ selected) /\
  (originalMatchCount <= limit -> truncated = false).
Proof.
  intros Hnd Hl Hscope. unfold SelectTriggerSessions.
  destruct (Z.leb_spec limit 0); [lia|]. rewrite bool_decide_false by done.
  set (chosen := foldl (select_group limit) ∅ _).
  pose proof (selected_choice scope sessions limit ltac:(lia)) as Hinv. fold chosen in Hinv.
  pose proof (relevant_pids_spec scope sessions Hnd) as Hrel.
  pose proof (chosen_fits scope sessions limit chosen Hinv) as Hfits.
  pose proof (chosen_all scope sessions limit chosen Hinv) as Hall.
  rewrite (chosen_count scope sessions Hnd limit chosen Hinv). split_and!.
  - apply sublist_filter.
  - apply Hinv.
  - by apply (chosen_whole scope sessions Hnd limit).
  - by apply chosen_maximal.
  - eexists. by split.
  - rewrite Hall. split.
    + intros Hsub s Hs Hr. apply list_elem_of_filter. split; [|done]. by apply Hsub, Hrel.
    + intros Hsel p Hp. destruct (relevant_pids_sessions scope sessions Hnd p Hp) as (s & Hs & <-).
      apply Hrel in Hp. by apply (Hsel s Hs) in Hp as [? _]%list_elem_of_filter.
  - intros Hfit. by apply Hall, Hfits.
Qed.

(** Four sessions: 12 waits for 11, which waits for 10; 20 is alone. *)
Definition demo_session (pid : Z) (blockers : list Z) (direct : bool) : TriggerSession :=
  MkTriggerSession pid None None None (Some "active") None None (Some (pid * 10)) None None None blockers direct.

Definition demo_sessions : list TriggerSession :=
  [demo_session 10 [] false; demo_session 11 [10] true; demo_session 12 [11] true; demo_session 20 [99] true].

Lemma SelectTriggerSessions_whole_chains_witness :
  let '(selected, originalMatchCount, truncated) := SelectTriggerSessions TriggerSnapshotLockBlocking demo_sessions 3 in
  PID <$> selected = [10; 11; 12] /\ originalMatchCount = 4 /\ truncated = true /\
  Z.of_nat (length selected) <= 3.
Proof.
  pose proof (SelectTriggerSessions_whole_chains TriggerSnapshotLockBlocking demo_sessions 3) as H.
  replace (SelectTriggerSessions TriggerSnapshotLockBlocking demo_sessions 3) with (take 3 demo_sessions, 4, true) in *
    by (vm_compute; reflexivity).
  destruct H as (_ & H & _); [|lia|done|].
  - apply (bool_decide_unpack _). vm_compute. done.
  - split_and!; [reflexivity|reflexivity|reflexivity|exact H].
Defined.

(** The walk of the blocking graph always ends and finds, in ascending order
    and without repetition, exactly the sessions connected to its root: along
    "waits for" in the lock scope, in both directions otherwise, cycles and
    blockers without a session included. *)
Theorem relatedTriggerSessionPIDs_exact (scope : TriggerSnapshotScope) (sessions : list TriggerSession) (root : TriggerSession) :
  NoDup (PID <$> sessions) -> root ∈ sessions ->
  let pids := relatedTriggerSessionPIDs scope (PID root) (sessionsByPID sessions) (waiterPIDsByBlocker sessions) in
  StronglySorted Z.lt pids /\ forall p, p ∈ pids <-> related scope sessions (PID root) p.
Proof.
  intros Hnd Hroot pids. split; [|intros p; by apply related_pids_spec].
  pose proof (relatedTriggerSessionPIDs_NoDup scope (sessionsByPID sessions) (waiterPIDsByBlocker sessions) (PID root)) as H.
  apply (strictly_sorted id); [by rewrite list_fmap_id|].
  unfold pids, relatedTriggerSessionPIDs. destruct (related_loop _ _ _ _ _ _); [apply Zltb_in_order|constructor].
Qed.

Lemma relatedTriggerSessionPIDs_exact_witness :
  relatedTriggerSessionPIDs TriggerSnapshotLongTransactions 10 (sessionsByPID demo_sessions)
    (waiterPIDsByBlocker demo_sessions) = [10; 11; 12] /\
  related TriggerSnapshotLongTransactions demo_sessions 10 12.
Proof.
  split; [vm_compute; reflexivity|].
  apply (relatedTriggerSessionPIDs_exact TriggerSnapshotLongTransactions demo_sessions (demo_session 10 [] false)).
  - apply (bool_decide_unpack _). vm_compute. done.
  - left.
  - apply (bool_decide_unpack _). vm_compute. done.
Defined.

(** How long the query of a session has been running, a missing duration as 0. *)
Definition running (s : TriggerSession) : Z := default 0 (QueryDurationMS s).

Lemma longerRunning_spec a b : longerRunning a b = true <-> running b < running a \/ running a = running b /\ PID a < PID b.
Proof.
  unfold longerRunning, running. case_bool_decide; rewrite Z.ltb_lt; lia.
Qed.

Lemma longerRunning_in_order l : in_order longerRunning (sort_by longerRunning l).
Proof.
  apply sort_by_in_order.
  - intros x y z. rewrite !longerRunning_spec. lia.
  - intros x. apply not_true_iff_false. rewrite longerRunning_spec. lia.
  - intros x y z. rewrite <-!not_true_iff_false, !longerRunning_spec. lia.
Qed.

(** A snapshot of active sessions keeps the longest running ones: it holds
    only active sessions, as many as the limit of the service and the cap of
    fifty allow, and a session left out has not run longer than any session kept;
    the count and the truncation mark refer to all active sessions. *)
Theorem active_snapshot_keeps_longest (metricID operator : string) (threshold : float64) (sessions : list TriggerSession)
    (limit : Z) :
  0 < limit ->
  let active := filter (fun s => is_active_state s = true) sessions in
  let '(selected, originalMatchCount, truncated) :=
    SelectTriggerSessions TriggerSnapshotActiveSessions
      (markDirectTriggerSessions TriggerSnapshotActiveSessions metricID operator threshold sessions) limit in
  originalMatchCount = Z.of_nat (length active) /\
  Z.of_nat (length selected) = Z.min originalMatchCount (Z.min limit maxActiveTriggerSnapshotSessions) /\
  truncated = (Z.of_nat (length selected) <? originalMatchCount) /\
  (forall s, s ∈ selected -> exists t, t ∈ active /\ s = set_DirectMatch true t) /\
  (forall t, t ∈ active -> set_DirectMatch true t ∈ selected \/
     forall s, s ∈ selected -> running t < running s \/ running t = running s /\ PID s <= PID t).
Proof.
  intros Hl active. unfold SelectTriggerSessions, markDirectTriggerSessions.
  destruct (Z.leb_spec limit 0); [lia|]. rewrite !bool_decide_true by done. fold active.
  set (marked := sort_by longerRunning (set_DirectMatch true <$> active)).
  assert (length marked = length active) as Hlen by (unfold marked; by rewrite length_sort_by, length_fmap).
  set (cap := if maxActiveTriggerSnapshotSessions <? limit then maxActiveTriggerSnapshotSessions else limit).
  assert (cap = Z.min limit maxActiveTriggerSnapshotSessions) as Hcap.
  { unfold cap. destruct (Z.ltb_spec maxActiveTriggerSnapshotSessions limit); lia. }
  assert (0 < cap) by (rewrite Hcap; unfold maxActiveTriggerSnapshotSessions; lia).
  assert (forall s, s ∈ marked <-> exists t, t ∈ active /\ s = set_DirectMatch true t) as Hmem.
  { intros s. unfold marked. rewrite elem_of_sort_by, list_elem_of_fmap. naive_solver. }
  assert (exists k, (if cap <? Z.of_nat (length marked) then take (Z.to_nat cap) marked else marked) = take k marked /\
                    Z.of_nat (k `min` length marked) = Z.min (Z.of_nat (length marked)) cap) as (k & -> & Hk).
  { destruct (Z.ltb_spec cap (Z.of_nat (length marked))).
    - exists (Z.to_nat cap). split; [done|lia].
    - exists (length marked). split; [by rewrite firstn_all|lia]. }
  rewrite length_take, Hlen in *. split_and!; [done|lia| | |].
  - destruct (Nat.ltb_spec (k `min` length active) (length active)),
      (Z.ltb_spec (Z.of_nat (k `min` length active)) (Z.of_nat (length active))); lia.
  - intros s Hs. apply Hmem. rewrite <-(take_drop k). apply elem_of_app. by left.
  - intros t Ht. assert (set_DirectMatch true t ∈ take k marked ++ drop k marked) as Hin.
    { rewrite take_drop. apply Hmem. by exists t. }
    apply elem_of_app in Hin as [?|Hdrop]; [by left|right]. intros s Hs.
    pose proof (longerRunning_in_order (set_DirectMatch true <$> active)) as Hord. fold marked in Hord.
    unfold in_order in Hord. rewrite <-(take_drop k marked) in Hord.
    apply StronglySorted_app in Hord as (Hord & _ & _).
    specialize (Hord _ _ Hs Hdrop). simpl in Hord.
    apply not_true_iff_false in Hord. rewrite longerRunning_spec in Hord.
    unfold running in *. simpl in Hord. lia.
Qed.

Lemma active_snapshot_keeps_longest_witness :
  let '(selected, originalMatchCount, truncated) :=
    SelectTriggerSessions TriggerSnapshotActiveSessions
      (markDirectTriggerSessions TriggerSnapshotActiveSessions "pg.connection.active" ">" (f64_of_Z 3) demo_sessions) 2 in
  PID <$> selected = [20; 12] /\ originalMatchCount = 4 /\ truncated = (Z.of_nat (length selected) <? originalMatchCount).
Proof.
  pose proof (active_snapshot_keeps_longest "pg.connection.active" ">" (f64_of_Z 3) demo_sessions 2 eq_refl) as H.
  cbv zeta in H. destruct (SelectTriggerSessions _ _ _) as [[selected count] truncated] eqn:E in H |- *.
  vm_compute in E. injection E as <- <- Ht. destruct H as (_ & _ & H & _).
  split_and!; [reflexivity|reflexivity|exact H].
Defined.
