(* ===== verification/Notify.v ===== *)
(** Notifications ([internal/notify]): messages and retries ([message.go],
    [repeat.go]), maintenance windows ([maintenance.go]), the delivery queue and
    its dispatcher ([dispatcher.go]) with the statements of [queries.sql.go]
    they run, over the alert and notification tables. Channels are arguments: a
    channel maps a message to nothing or to the text of its error. *)

From S2P Require Import Prelude Db Text AlertState.

(** * Messages *)

Inductive EventType : Type :=
  | EventFiring
  | EventRecovery
  | EventRepeat
  | EventTest
  | EventPlatformUnavailable.

#[export] Instance EventType_eq_dec : EqDecision EventType.
Proof. solve_decision. Defined.

Definition MaxAttempts : Z := 3.

Record Message : Type := MkMessage {
  msg_EventType : EventType;
  msg_To : string;
  msg_Subject : string;
  msg_Body : string;
}.

Record AlertPayload : Type := MkAlertPayload {
  pl_AlertInstanceID : string;
  pl_RuleName : string;
  pl_InstanceName : string;
  pl_MetricID : string;
  pl_Severity : string;
  pl_CurrentValue : string;
}.

Record SuppressionFacts : Type := MkSuppressionFacts {
  Maintenance : bool;
  Acknowledged : bool;
  Paused : bool;
}.

Definition ShouldDeliver (event : EventType) (facts : SuppressionFacts) : bool :=
  if Maintenance facts || Paused facts then false
  else bool_decide (event <> EventRepeat) || negb (Acknowledged facts).

Definition newline : string := String (Ascii.ascii_of_nat 10) EmptyString.

Definition FormatAlertMessage (event : EventType) (payload : AlertPayload) : option Message :=
  let format label :=
    Some (MkMessage event EmptyString ("[DBS Monitor] " +:+ label +:+ "：" +:+ pl_RuleName payload)
      (label +:+ newline +:+ newline +:+
       "规则：" +:+ pl_RuleName payload +:+ newline +:+
       "实例：" +:+ pl_InstanceName payload +:+ newline +:+
       "指标：" +:+ pl_MetricID payload +:+ newline +:+
       "级别：" +:+ pl_Severity payload +:+ newline +:+
       "当前值：" +:+ pl_CurrentValue payload +:+ newline +:+
       "告警实例：" +:+ pl_AlertInstanceID payload +:+ newline)) in
  match event with
  | EventFiring => format "告警触发"
  | EventRecovery => format "告警恢复"
  | EventRepeat => format "告警仍在持续"
  | _ => None
  end.

Definition FormatTestMessage : Message :=
  MkMessage EventTest EmptyString "[DBS Monitor] 渠道测试通知" ("这是一条 DBS Monitor 渠道测试通知。" +:+ newline).

Definition RetryDelay (failureCount : Z) (retryBackoffCap : Duration) : Duration :=
  if failureCount <=? 0 then 0
  else
    let delay := int64 (Z.shiftl Second (failureCount - 1)) in
    if retryBackoffCap <? delay then retryBackoffCap else delay.

Definition NotificationDue (event : EventType) (lastNotification : option Time) (repeatInterval : Duration)
    (disposition : string) (now : Time) : bool :=
  match event with
  | EventFiring | EventRecovery => true
  | EventRepeat =>
      match lastNotification with
      | None => false
      | Some last =>
          if bool_decide (disposition = "ACKED") then false else negb (Before now (TimeAdd last repeatInterval))
      end
  | _ => false
  end.

(** * JSON columns *)

(** The value of a field of a [jsonb] object; other values than strings and null
    carry their text. *)
Inductive json : Type :=
  | JString (s : string)
  | JNull
  | JOther (text : string).

Abbreviation jsonb := (gmap string json) (only parsing).

(** [object->>key] *)
Definition json_text (object : jsonb) (key : string) : option string :=
  match object !! key with
  | Some (JString s) => Some s
  | Some (JOther text) => Some text
  | _ => None
  end.

(** [json.Unmarshal] into a string field: absent and null leave it empty, a
    value that is not a string is an error. *)
Definition json_field (object : jsonb) (key : string) : option string :=
  match object !! key with
  | Some (JString s) => Some s
  | Some (JOther _) => None
  | _ => Some EmptyString
  end.

Definition encode_payload (p : AlertPayload) : jsonb :=
  list_to_map [("alert_instance_id", JString (pl_AlertInstanceID p)); ("rule_name", JString (pl_RuleName p));
    ("instance_name", JString (pl_InstanceName p)); ("metric_id", JString (pl_MetricID p));
    ("severity", JString (pl_Severity p)); ("current_value", JString (pl_CurrentValue p))].

Definition decode_payload (object : jsonb) : option AlertPayload :=
  id ← json_field object "alert_instance_id";
  rule ← json_field object "rule_name";
  instance ← json_field object "instance_name";
  metric ← json_field object "metric_id";
  severity ← json_field object "severity";
  value ← json_field object "current_value";
  Some (MkAlertPayload id rule instance metric severity value).

(** * Rows *)

(** [alert_instance], without the columns that describe a user's disposition
    beyond [disposition] itself. *)
Record AlertInstance : Type := MkAlertInstance {
  ai_InstanceID : string;
  ai_MetricID : string;
  ai_Status : State;
  ai_BreachCount : Z;
  ai_RecoveryCount : Z;
  ai_NoDataCount : Z;
  ai_StateBeforeNoData : option State;
  ai_Unavailability : option string;
  ai_UpdatedAt : Time;
  ai_ID : string;
  ai_RuleID : string;
  ai_RuleVersion : Z;
  ai_Severity : string;
  ai_CurrentValue : option float64;
  ai_RuleSnapshot : jsonb;
  ai_MetricDimensionKey : string;
  ai_FirstTriggeredAt : option Time;
  ai_FirstRuleVersion : option Z;
  ai_FirstRuleSnapshot : option jsonb;
  ai_RecoveredAt : option Time;
  ai_Disposition : string;
  ai_InMaintenance : bool;
  ai_MaintenanceWindowID : option string;
}.

Definition alter_InMaintenance (f : bool -> bool) (t : AlertInstance) : AlertInstance :=
  MkAlertInstance t.(ai_InstanceID) t.(ai_MetricID) t.(ai_Status) t.(ai_BreachCount) t.(ai_RecoveryCount) t.(ai_NoDataCount) t.(ai_StateBeforeNoData) t.(ai_Unavailability) t.(ai_UpdatedAt) t.(ai_ID) t.(ai_RuleID) t.(ai_RuleVersion) t.(ai_Severity) t.(ai_CurrentValue) t.(ai_RuleSnapshot) t.(ai_MetricDimensionKey) t.(ai_FirstTriggeredAt) t.(ai_FirstRuleVersion) t.(ai_FirstRuleSnapshot) t.(ai_RecoveredAt) t.(ai_Disposition) (f (t.(ai_InMaintenance))) t.(ai_MaintenanceWindowID).

Definition alter_MaintenanceWindowID (f : option string -> option string) (t : AlertInstance) : AlertInstance :=
  MkAlertInstance t.(ai_InstanceID) t.(ai_MetricID) t.(ai_Status) t.(ai_BreachCount) t.(ai_RecoveryCount) t.(ai_NoDataCount) t.(ai_StateBeforeNoData) t.(ai_Unavailability) t.(ai_UpdatedAt) t.(ai_ID) t.(ai_RuleID) t.(ai_RuleVersion) t.(ai_Severity) t.(ai_CurrentValue) t.(ai_RuleSnapshot) t.(ai_MetricDimensionKey) t.(ai_FirstTriggeredAt) t.(ai_FirstRuleVersion) t.(ai_FirstRuleSnapshot) t.(ai_RecoveredAt) t.(ai_Disposition) t.(ai_InMaintenance) (f (t.(ai_MaintenanceWindowID))).

(** [alert_event], without its identity column and the columns of user actions. *)
Record AlertEvent : Type := MkAlertEvent {
  ev_AlertInstanceID : string;
  ev_RuleID : string;
  ev_RuleVersion : Z;
  ev_Kind : string;
  ev_FromState : State;
  ev_ToState : State;
  ev_CurrentValue : option float64;
  ev_Unavailability : option string;
  ev_RuleSnapshot : jsonb;
  ev_EvaluatedAt : Time;
  ev_TriggerSnapshotID : option string;
  ev_InMaintenance : bool;
  ev_MaintenanceWindowID : option string;
}.

(** [alert_rule], keyed by its id, without the columns of its attribution. *)
Record AlertRule : Type := MkAlertRule {
  rule_Name : string;
  rule_MetricID : string;
  rule_Aggregation : string;
  rule_Operator : string;
  rule_Threshold : float64;
  rule_RecoveryOperator : string;
  rule_RecoveryThreshold : float64;
  rule_WindowSeconds : Z;
  rule_ConsecutiveCount : Z;
  rule_RecoveryConsecutiveCount : Z;
  rule_Severity : string;
  rule_NoDataPolicy : string;
  rule_Version : Z;
  rule_Enabled : bool;
  rule_DeletedAt : option Time;
  rule_Scope : string;
  rule_EvaluationIntervalSeconds : Z;
  rule_NotificationPolicyID : option string;
}.

(** [notification_policy], keyed by its id: the columns that decide what is sent. *)
Record NotificationPolicy : Type := MkNotificationPolicy {
  IsDefault : bool;
  SeverityFilter : list string;
  NotifyOnFire : bool;
  NotifyOnRecovery : bool;
  RepeatInterval : Z;
}.

Record NotificationPolicyChannel : Type := MkNotificationPolicyChannel {
  pc_PolicyID : string;
  pc_Channel : string;
  pc_ChannelTargetID : option string;
}.

(** [maintenance_window], without reason and attribution. *)
Record MaintenanceWindow : Type := MkMaintenanceWindow {
  mw_ID : string;
  mw_StartsAt : Time;
  mw_EndsAt : Time;
  mw_DeletedAt : option Time;
}.

Inductive DeliveryStatus : Type :=
  | DeliveryPending
  | DeliverySent
  | DeliveryFailed.

#[export] Instance DeliveryStatus_eq_dec : EqDecision DeliveryStatus.
Proof. solve_decision. Defined.

Record NotificationDelivery : Type := MkNotificationDelivery {
  nd_ID : string;
  nd_AlertInstanceID : option string;
  nd_EventType : EventType;
  nd_Channel : string;
  nd_Target : string;
  nd_TemplateID : option string;
  nd_Payload : jsonb;
  nd_Status : DeliveryStatus;
  nd_AttemptCount : Z;
  nd_NextAttemptAt : Time;
  nd_LockedUntil : option Time;
  nd_CreatedAt : Time;
  nd_CompletedAt : option Time;
  nd_ChannelTargetID : option string;
}.

Definition alter_LockedUntil (f : option Time -> option Time) (t : NotificationDelivery) : NotificationDelivery :=
  MkNotificationDelivery t.(nd_ID) t.(nd_AlertInstanceID) t.(nd_EventType) t.(nd_Channel) t.(nd_Target) t.(nd_TemplateID) t.(nd_Payload) t.(nd_Status) t.(nd_AttemptCount) t.(nd_NextAttemptAt) (f (t.(nd_LockedUntil))) t.(nd_CreatedAt) t.(nd_CompletedAt) t.(nd_ChannelTargetID).

Record NotificationAttempt : Type := MkNotificationAttempt {
  na_NotificationID : string;
  na_AttemptedAt : Time;
  na_Sent : bool;
  na_FailureReason : option string;
  na_RetryCount : Z;
}.

(** The tables, with the rows of [smtp_channel] and [webhook_target] as
    (enabled, recipient) and (enabled, url). [n_issued] are the uuids handed out
    by [gen_random_uuid], which are never used twice, and [n_outbox] are the
    messages handed to channels, with the channel's key. *)
Record NotifyTables : Type := MkNotifyTables {
  n_alert : gmap string AlertInstance;
  n_event : list AlertEvent;
  n_rule : gmap string AlertRule;
  n_identity : gmap string string;
  n_policy : gmap string NotificationPolicy;
  n_policy_channel : list NotificationPolicyChannel;
  n_policy_contact : list (string * string);
  n_policy_contact_group : list (string * string);
  n_group_member : list (string * string);
  n_contact_email : gmap string string;
  n_smtp : option (bool * string);
  n_webhook : gmap string (bool * string);
  n_window : list MaintenanceWindow;
  n_window_instance : list (string * string);
  n_delivery : gmap string NotificationDelivery;
  n_attempt : list NotificationAttempt;
  n_issued : gset string;
  n_outbox : list (string * Message);
}.

Definition alter_alert (f : gmap string AlertInstance -> gmap string AlertInstance) (t : NotifyTables) : NotifyTables :=
  MkNotifyTables (f (t.(n_alert))) t.(n_event) t.(n_rule) t.(n_identity) t.(n_policy) t.(n_policy_channel) t.(n_policy_contact) t.(n_policy_contact_group) t.(n_group_member) t.(n_contact_email) t.(n_smtp) t.(n_webhook) t.(n_window) t.(n_window_instance) t.(n_delivery) t.(n_attempt) t.(n_issued) t.(n_outbox).

Definition alter_event (f : list AlertEvent -> list AlertEvent) (t : NotifyTables) : NotifyTables :=
  MkNotifyTables t.(n_alert) (f (t.(n_event))) t.(n_rule) t.(n_identity) t.(n_policy) t.(n_policy_channel) t.(n_policy_contact) t.(n_policy_contact_group) t.(n_group_member) t.(n_contact_email) t.(n_smtp) t.(n_webhook) t.(n_window) t.(n_window_instance) t.(n_delivery) t.(n_attempt) t.(n_issued) t.(n_outbox).

Definition alter_delivery (f : gmap string NotificationDelivery -> gmap string NotificationDelivery) (t : NotifyTables) : NotifyTables :=
  MkNotifyTables t.(n_alert) t.(n_event) t.(n_rule) t.(n_identity) t.(n_policy) t.(n_policy_channel) t.(n_policy_contact) t.(n_policy_contact_group) t.(n_group_member) t.(n_contact_email) t.(n_smtp) t.(n_webhook) t.(n_window) t.(n_window_instance) (f (t.(n_delivery))) t.(n_attempt) t.(n_issued) t.(n_outbox).

Definition alter_attempt (f : list NotificationAttempt -> list NotificationAttempt) (t : NotifyTables) : NotifyTables :=
  MkNotifyTables t.(n_alert) t.(n_event) t.(n_rule) t.(n_identity) t.(n_policy) t.(n_policy_channel) t.(n_policy_contact) t.(n_policy_contact_group) t.(n_group_member) t.(n_contact_email) t.(n_smtp) t.(n_webhook) t.(n_window) t.(n_window_instance) t.(n_delivery) (f (t.(n_attempt))) t.(n_issued) t.(n_outbox).

Definition alter_issued (f : gset string -> gset string) (t : NotifyTables) : NotifyTables :=
  MkNotifyTables t.(n_alert) t.(n_event) t.(n_rule) t.(n_identity) t.(n_policy) t.(n_policy_channel) t.(n_policy_contact) t.(n_policy_contact_group) t.(n_group_member) t.(n_contact_email) t.(n_smtp) t.(n_webhook) t.(n_window) t.(n_window_instance) t.(n_delivery) t.(n_attempt) (f (t.(n_issued))) t.(n_outbox).

Definition alter_outbox (f : list (string * Message) -> list (string * Message)) (t : NotifyTables) : NotifyTables :=
  MkNotifyTables t.(n_alert) t.(n_event) t.(n_rule) t.(n_identity) t.(n_policy) t.(n_policy_channel) t.(n_policy_contact) t.(n_policy_contact_group) t.(n_group_member) t.(n_contact_email) t.(n_smtp) t.(n_webhook) t.(n_window) t.(n_window_instance) t.(n_delivery) t.(n_attempt) t.(n_issued) (f (t.(n_outbox))).

(** * Maintenance windows *)

Record MaintenanceWindowScope : Type := MkMaintenanceWindowScope {
  scope_ID : string;
  scope_InstanceIDs : list string;
  scope_StartsAt : Time;
  scope_EndsAt : Time;
  scope_Deleted : bool;
}.

Definition containsInstance (instanceIDs : list string) (instanceID : string) : bool :=
  bool_decide (instanceID ∈ instanceIDs).

(** The window of the loop applies to the instance at the time. *)
Definition window_applies (instanceID : string) (at_ : Time) (window : MaintenanceWindowScope) : bool :=
  negb (scope_Deleted window || Before at_ (scope_StartsAt window) || negb (Before at_ (scope_EndsAt window)) ||
        negb (containsInstance (scope_InstanceIDs window) instanceID)).

(** One iteration; [None] is [found = false]. *)
Definition window_step (instanceID : string) (at_ : Time) (active : option MaintenanceWindowScope)
    (window : MaintenanceWindowScope) : option MaintenanceWindowScope :=
  if negb (window_applies instanceID at_ window) then active
  else
    match active with
    | None => Some window
    | Some a =>
        if Before (scope_EndsAt window) (scope_EndsAt a) ||
           (bool_decide (scope_EndsAt window = scope_EndsAt a) && string_ltb (scope_ID window) (scope_ID a))
        then Some window else active
    end.

Definition ActiveMaintenanceWindow (instanceID : string) (at_ : Time) (windows : list MaintenanceWindowScope)
    : option MaintenanceWindowScope :=
  foldl (window_step instanceID at_) None windows.

Definition MaintenanceWindowScopes (instanceID : string) (rows : list MaintenanceWindow) : list MaintenanceWindowScope :=
  (fun row => MkMaintenanceWindowScope (mw_ID row) [instanceID] (mw_StartsAt row) (mw_EndsAt row)
                (bool_decide (is_Some (mw_DeletedAt row)))) <$> rows.

Definition windowLess (a b : MaintenanceWindow) : bool :=
  (mw_EndsAt a <? mw_EndsAt b) || (bool_decide (mw_EndsAt a = mw_EndsAt b) && string_ltb (mw_ID a) (mw_ID b)).

Definition ListMaintenanceWindowsForInstance (instanceID : string) (t : NotifyTables) : list MaintenanceWindow :=
  sort_by windowLess
    (filter (fun row => (mw_ID row, instanceID) ∈ n_window_instance t /\ mw_DeletedAt row = None) (n_window t)).

(** The window in force for an instance, as [FindActiveMaintenanceWindow] finds
    it in the tables. *)
Definition active_window (instanceID : string) (at_ : Time) (t : NotifyTables) : option MaintenanceWindowScope :=
  ActiveMaintenanceWindow instanceID at_
    (MaintenanceWindowScopes instanceID (ListMaintenanceWindowsForInstance instanceID t)).

Definition FindActiveMaintenanceWindow (instanceID : string) (at_ : Time) : DB NotifyTables (option string * bool) :=
  maintenanceWindows ← query (ListMaintenanceWindowsForInstance instanceID);
  match ActiveMaintenanceWindow instanceID at_ (MaintenanceWindowScopes instanceID maintenanceWindows) with
  | None => mret (None, false)
  | Some window => mret (Some (scope_ID window), true)
  end.

(** * The delivery queue *)

Definition delivery_due (at_ : Time) (d : NotificationDelivery) : bool :=
  bool_decide (nd_Status d = DeliveryPending) && (nd_NextAttemptAt d <=? at_) &&
  match nd_LockedUntil d with None => true | Some until => until <=? at_ end.

Definition deliveryLess (a b : NotificationDelivery) : bool :=
  (nd_NextAttemptAt a <? nd_NextAttemptAt b) ||
  (bool_decide (nd_NextAttemptAt a = nd_NextAttemptAt b) &&
   ((nd_CreatedAt a <? nd_CreatedAt b) ||
    (bool_decide (nd_CreatedAt a = nd_CreatedAt b) && string_ltb (nd_ID a) (nd_ID b)))).

Definition claim_lock : Duration := 30 * Second.

Definition ClaimDueNotification (claimedAt : Time) : DB NotifyTables NotificationDelivery :=
  let at_ := timestamptz claimedAt in
  statement (fun t =>
    match sort_by deliveryLess (filter (fun d => delivery_due at_ d = true) ((map_to_list (n_delivery t)).*2)) with
    | [] => Err ErrNoRows
    | d :: _ =>
        let d' := alter_LockedUntil (fun _ => Some (at_ + claim_lock)) d in
        Ok (d', alter_delivery <[nd_ID d := d']> t)
    end).

Definition GetNotificationAlertInstance (id : string) : DB NotifyTables (string * string) :=
  statement (fun t =>
    match (d ← n_delivery t !! id; alertID ← nd_AlertInstanceID d; n_alert t !! alertID) with
    | None => Err ErrNoRows
    | Some alert => Ok ((ai_ID alert, ai_InstanceID alert), t)
    end).

(** A delivery is deleted with its attempts ([ON DELETE CASCADE]). *)
Definition remove_delivery (id : string) (t : NotifyTables) : NotifyTables :=
  alter_attempt (filter (fun a => na_NotificationID a <> id)) (alter_delivery (delete id) t).

Definition is_pending (t : NotifyTables) (id : string) : bool :=
  match n_delivery t !! id with
  | Some d => bool_decide (nd_Status d = DeliveryPending)
  | None => false
  end.

Definition DeletePendingNotification (id : string) : DB NotifyTables unit :=
  exec (fun t => if is_pending t id then remove_delivery id t else t).

(** The event copied from the row of an alert. *)
Definition alert_event_of (alert : AlertInstance) (kind : string) (at_ : Time) (inMaintenance : bool)
    (window : option string) : AlertEvent :=
  MkAlertEvent (ai_ID alert) (ai_RuleID alert) (ai_RuleVersion alert) kind (ai_Status alert) (ai_Status alert)
    (ai_CurrentValue alert) (ai_Unavailability alert) (ai_RuleSnapshot alert) at_ None inMaintenance window.

(** [UPDATE alert_instance ... SET in_maintenance = true] and the event inserted
    from the updated row. *)
Definition mark_suppressed (alertID : string) (window : option string) (at_ : Time) (t : NotifyTables) : NotifyTables :=
  match n_alert t !! alertID with
  | None => t
  | Some alert =>
      let alert' := alter_MaintenanceWindowID (fun _ => window) (alter_InMaintenance (fun _ => true) alert) in
      alter_event (fun events => events ++ [alert_event_of alert' "MAINTENANCE_SUPPRESSED" at_ true window])
        (alter_alert <[alertID := alert']> t)
  end.

Definition RecordMaintenanceSuppressed (alertID : string) (window : option string) (evaluatedAt : Time)
    : DB NotifyTables unit :=
  exec (mark_suppressed alertID window (timestamptz evaluatedAt)).

Definition SuppressNotificationForMaintenance (id : string) (window : option string) (evaluatedAt : Time)
    : DB NotifyTables unit :=
  exec (fun t =>
    match n_delivery t !! id with
    | Some d =>
        if bool_decide (nd_Status d = DeliveryPending) then
          match nd_AlertInstanceID d with
          | Some alertID => mark_suppressed alertID window (timestamptz evaluatedAt) (remove_delivery id t)
          | None => remove_delivery id t
          end
        else t
    | None => t
    end).

(** The INSERT into [notification_attempt] under its constraints: the checks on
    [retry_count] and [failure_reason], the reference to the delivery and the
    uniqueness of [(notification_id, retry_count)]. *)
Definition insert_attempt (a : NotificationAttempt) (t : NotifyTables) : result NotifyTables :=
  if negb ((0 <=? na_RetryCount a) && (na_RetryCount a <=? 2)) then Err (ErrPg "23514")
  else if negb (match na_FailureReason a with Some reason => not_blank reason | None => true end)
  then Err (ErrPg "23514")
  else if bool_decide (n_delivery t !! na_NotificationID a = None) then Err (ErrPg "23503")
  else if bool_decide (Exists (fun b => (na_NotificationID b, na_RetryCount b) =
                                       (na_NotificationID a, na_RetryCount a)) (n_attempt t))
  then Err (ErrPg "23505")
  else Ok (alter_attempt (fun attempts => attempts ++ [a]) t).

(** [UPDATE notification_delivery ... WHERE id = $1 AND status = 'PENDING'] and,
    when [event] names a kind, the event of the delivery's alert. *)
Definition complete_delivery (id : string) (update : NotificationDelivery -> NotificationDelivery)
    (event : option string) (at_ : Time) (t : NotifyTables) : NotifyTables :=
  match n_delivery t !! id with
  | Some d =>
      if bool_decide (nd_Status d = DeliveryPending) then
        let t' := alter_delivery <[id := update d]> t in
        match (kind ← event; alertID ← nd_AlertInstanceID d; alert ← n_alert t !! alertID; Some (kind, alert)) with
        | Some (kind, alert) =>
            alter_event (fun events => events ++ [alert_event_of alert kind at_ false None]) t'
        | None => t'
        end
      else t
  | None => t
  end.

(** The new values of the updated columns. *)
Definition set_outcome (status : DeliveryStatus) (attempts : Z) (next : Time) (completed : option Time)
    (d : NotificationDelivery) : NotificationDelivery :=
  MkNotificationDelivery (nd_ID d) (nd_AlertInstanceID d) (nd_EventType d) (nd_Channel d) (nd_Target d)
    (nd_TemplateID d) (nd_Payload d) status attempts next None (nd_CreatedAt d) completed (nd_ChannelTargetID d).

Definition RecordNotificationFailure (notificationID : string) (evaluatedAt : Time) (failureReason : string)
    (retryCount : Z) (terminal : bool) (nextAttemptAt : Time) : DB NotifyTables unit :=
  let at_ := timestamptz evaluatedAt in
  statement (fun t =>
    t' ← insert_attempt (MkNotificationAttempt notificationID at_ false (Some failureReason) retryCount) t;
    Ok (tt, complete_delivery notificationID
              (set_outcome (if terminal then DeliveryFailed else DeliveryPending) (retryCount + 1)
                 (timestamptz nextAttemptAt) (if terminal then Some at_ else None))
              (if terminal then Some "NOTIFICATION_FAILED" else None) at_ t')).

Definition RecordNotificationSent (notificationID : string) (evaluatedAt : Time) (retryCount : Z) : DB NotifyTables unit :=
  let at_ := timestamptz evaluatedAt in
  statement (fun t =>
    t' ← insert_attempt (MkNotificationAttempt notificationID at_ true None retryCount) t;
    Ok (tt, complete_delivery notificationID
              (fun d => set_outcome DeliverySent (retryCount + 1) (nd_NextAttemptAt d) (Some at_) d)
              (Some "NOTIFICATION_SENT") at_ t')).

(** * Enqueuing *)

(** The policy that applies to an event of an alert ([selected_policy]), with its
    id. *)
Definition default_policy (t : NotifyTables) : option string :=
  head ((filter (fun p => IsDefault p.2 = true) (map_to_list (n_policy t))).*1).

Definition policy_of_alert (t : NotifyTables) (alert : AlertInstance) : option (string * NotificationPolicy) :=
  rule ← n_rule t !! ai_RuleID alert;
  policyID ← (match rule_NotificationPolicyID rule with Some id => Some id | None => default_policy t end);
  policy ← n_policy t !! policyID;
  if bool_decide (ai_Severity alert ∈ SeverityFilter policy) then Some (policyID, policy) else None.

Definition policy_wants (policy : NotificationPolicy) (event : EventType) : bool :=
  match event with
  | EventFiring => NotifyOnFire policy
  | EventRecovery => NotifyOnRecovery policy
  | EventRepeat => true
  | _ => false
  end.

Definition selected_policy (t : NotifyTables) (alertID : string) (event : EventType) : option string :=
  alert ← n_alert t !! alertID;
  '(policyID, policy) ← policy_of_alert t alert;
  if policy_wants policy event then Some policyID else None.

Definition has_channel (t : NotifyTables) (policyID channel : string) : bool :=
  bool_decide (Exists (fun c => pc_PolicyID c = policyID /\ pc_Channel c = channel) (n_policy_channel t)).

(** The second components of the pairs with first component [key]. *)
Definition members (pairs : list (string * string)) (key : string) : list string :=
  (filter (fun p => p.1 = key) pairs).*2.

Lemma elem_of_members (pairs : list (string * string)) key x : x ∈ members pairs key <-> (key, x) ∈ pairs.
Proof.
  unfold members. rewrite list_elem_of_fmap. setoid_rewrite list_elem_of_filter. split.
  - intros ([k y] & -> & <- & H). done.
  - intros H. by exists (key, x).
Qed.

Lemma members_app l l' key : members (l ++ l') key = members l key ++ members l' key.
Proof. unfold members. by rewrite filter_app, fmap_app. Qed.

Lemma members_other (pairs : list (string * string)) id key :
  key <> id -> members (filter (fun entry => entry.1 <> id) pairs) key = members pairs key.
Proof.
  intros Hne. unfold members. rewrite list_filter_filter. f_equal. apply list_filter_iff. intros [k x]. simpl. naive_solver.
Qed.

Lemma members_cleared (pairs : list (string * string)) id : members (filter (fun entry => entry.1 <> id) pairs) id = [].
Proof.
  unfold members. rewrite list_filter_filter, filter_none; [done|]. intros [k x] _. simpl. naive_solver.
Qed.

Definition smtp_recipients (t : NotifyTables) (policyID : string) : list string :=
  if has_channel t policyID "SMTP" then
    let direct := members (n_policy_contact t) policyID in
    let grouped := members (n_policy_contact_group t) policyID ≫= members (n_group_member t) in
    remove_dups (omap (fun contact => n_contact_email t !! contact) (direct ++ grouped))
  else [].

(** The rows of [destination]: channel, target id and target. *)
Definition destinations (t : NotifyTables) (policyID : string) : list (string * option string * string) :=
  (match n_smtp t with
   | Some (true, recipient) =>
       let recipients := smtp_recipients t policyID in
       (fun target => ("SMTP", None, target)) <$>
         (if bool_decide (recipients = []) then (if has_channel t policyID "SMTP" then [recipient] else [])
          else recipients)
   | _ => []
   end) ++
  omap (fun c =>
    if bool_decide (pc_PolicyID c = policyID /\ pc_Channel c = "WEBHOOK") then
      id ← pc_ChannelTargetID c;
      '(enabled, url) ← n_webhook t !! id;
      if (enabled : bool) then Some ("WEBHOOK", Some id, url) else None
    else None) (n_policy_channel t).

(** The INSERT of one row, with a new uuid. *)
Definition insert_delivery (alertID : string) (event : EventType) (template : option string) (payload : jsonb)
    (at_ : Time) (acc : list string * NotifyTables) (destination : string * option string * string)
    : list string * NotifyTables :=
  let '(ids, t) := acc in
  let '(channel, targetID, target) := destination in
  let id := fresh (n_issued t) in
  (ids ++ [id],
   alter_issued (fun issued => {[id]} ∪ issued)
     (alter_delivery <[id := MkNotificationDelivery id (Some alertID) event channel target template payload
                               DeliveryPending 0 at_ None at_ None targetID]> t)).

Definition EnqueueAlertNotifications (alertID : string) (event : EventType) (template : option string) (payload : jsonb)
    (nextAttemptAt : Time) : DB NotifyTables (list string) :=
  statement (fun t =>
    match selected_policy t alertID event with
    | None => Ok ([], t)
    | Some policyID =>
        Ok (foldl (insert_delivery alertID event template payload (timestamptz nextAttemptAt)) ([], t)
              (destinations t policyID))
    end).

(** * Repeats *)

Record ListRepeatCandidatesRow : Type := MkRepeatCandidate {
  rc_AlertInstanceID : string;
  rc_InstanceID : string;
  rc_Disposition : string;
  rc_RepeatInterval : Z;
  rc_LastNotificationAt : Time;
  rc_Payload : jsonb;
}.

(** The times of the firing and repeat deliveries of an alert, and of its
    suppressed notifications. *)
Definition announced_at (t : NotifyTables) (alertID : string) : list Time :=
  (nd_CreatedAt <$> filter (fun d => nd_AlertInstanceID d = Some alertID /\
                                     (nd_EventType d = EventFiring \/ nd_EventType d = EventRepeat))
                      ((map_to_list (n_delivery t)).*2)) ++
  (ev_EvaluatedAt <$> filter (fun e => ev_AlertInstanceID e = alertID /\ ev_Kind e = "MAINTENANCE_SUPPRESSED") (n_event t)).

Definition has_pending (t : NotifyTables) (alertID : string) : bool :=
  bool_decide (Exists (fun d => nd_AlertInstanceID d = Some alertID /\ nd_Status d = DeliveryPending)
                 ((map_to_list (n_delivery t)).*2)).

Section Repeats.
(** [double precision::text] *)
Context (float8_text : float64 -> string).

Definition repeat_candidate (t : NotifyTables) (alert : AlertInstance) : option ListRepeatCandidatesRow :=
  rule ← n_rule t !! ai_RuleID alert;
  name ← n_identity t !! ai_InstanceID alert;
  '(_, policy) ← policy_of_alert t alert;
  first ← ai_FirstTriggeredAt alert;
  if bool_decide (ai_Status alert = FIRING) && bool_decide (announced_at t (ai_ID alert) <> []) &&
     negb (has_pending t (ai_ID alert)) then
    Some (MkRepeatCandidate (ai_ID alert) (ai_InstanceID alert) (ai_Disposition alert) (RepeatInterval policy)
      (foldr Z.max first (announced_at t (ai_ID alert)))
      (encode_payload (MkAlertPayload (ai_ID alert) (default (rule_Name rule) (json_text (ai_RuleSnapshot alert) "name"))
        name (ai_MetricID alert) (ai_Severity alert)
        (match ai_CurrentValue alert with Some value => float8_text value | None => EmptyString end))))
  else None.

Definition ListRepeatCandidates (t : NotifyTables) : list ListRepeatCandidatesRow :=
  omap (repeat_candidate t)
    (sort_by (fun a b => string_ltb (ai_ID a) (ai_ID b)) ((map_to_list (n_alert t)).*2)).

(** The body of the loop of [EnqueueDueRepeats] for a candidate whose repeat is
    due: the number of deliveries it leaves enqueued. *)
Definition enqueue_repeat (now : Time) (candidate : ListRepeatCandidatesRow) : DB NotifyTables Z :=
  '(maintenanceWindowID, inMaintenance) ← wrap "match repeat maintenance window"
    (FindActiveMaintenanceWindow (rc_InstanceID candidate) now);
  notificationIDs ← wrap "enqueue repeat notification"
    (EnqueueAlertNotifications (rc_AlertInstanceID candidate) EventRepeat (Some "builtin.notification.repeat.v1")
       (rc_Payload candidate) now);
  if negb (ShouldDeliver EventRepeat (MkSuppressionFacts inMaintenance false false)) &&
     bool_decide (notificationIDs <> [])
  then
    _ ← for_each (fun id => wrap "discard maintenance-suppressed repeat" (DeletePendingNotification id)) notificationIDs;
    _ ← wrap "record repeat maintenance suppression"
          (RecordMaintenanceSuppressed (rc_AlertInstanceID candidate) maintenanceWindowID now);
    mret 0
  else mret (Z.of_nat (length notificationIDs)).

Definition repeat_due (now : Time) (candidate : ListRepeatCandidatesRow) : bool :=
  NotificationDue EventRepeat (Some (rc_LastNotificationAt candidate)) (rc_RepeatInterval candidate * Second)
    (rc_Disposition candidate) now.

Fixpoint repeat_loop (now : Time) (candidates : list ListRepeatCandidatesRow) (enqueued : Z) : DB NotifyTables Z :=
  match candidates with
  | [] => mret enqueued
  | candidate :: rest =>
      if negb (repeat_due now candidate) then repeat_loop now rest enqueued
      else n ← enqueue_repeat now candidate; repeat_loop now rest (enqueued + n)
  end.

Definition EnqueueDueRepeats (now : Time) : DB NotifyTables Z :=
  candidates ← wrap "list repeat candidates" (query ListRepeatCandidates);
  repeat_loop now candidates 0.
End Repeats.

(** * Dispatching *)

Definition SMTPChannelKey : string := "SMTP".

(** [%x] of the bytes of a uuid is its text without the dashes; the bytes of a
    NULL uuid are zero. *)
Fixpoint without_dashes (s : string) : string :=
  match s with
  | EmptyString => EmptyString
  | String c rest => if Ascii.eqb c (Ascii.ascii_of_nat 45) then without_dashes rest else String c (without_dashes rest)
  end.

Definition WebhookChannelKey (targetID : option string) : string :=
  "WEBHOOK:" +:+ match targetID with
                 | Some id => without_dashes id
                 | None => "00000000000000000000000000000000"
                 end.

(** [Channel.Send]: nothing, or the text of the error. *)
Definition Channel : Type := Message -> option string.

(** The text of an error is the message the code puts before the underlying
    cause. *)
Definition messageForDelivery (delivery : NotificationDelivery) : Message + string :=
  if bool_decide (nd_EventType delivery = EventTest) then
    inl (MkMessage EventTest (nd_Target delivery) (msg_Subject FormatTestMessage) (msg_Body FormatTestMessage))
  else
    match decode_payload (nd_Payload delivery) with
    | None => inr "decode notification payload"
    | Some payload =>
        match FormatAlertMessage (nd_EventType delivery) payload with
        | None => inr "unsupported notification event"
        | Some message =>
            inl (MkMessage (msg_EventType message) (nd_Target delivery) (msg_Subject message) (msg_Body message))
        end
    end.

Definition channel_key (delivery : NotificationDelivery) : string :=
  if bool_decide (nd_Channel delivery = "WEBHOOK") then WebhookChannelKey (nd_ChannelTargetID delivery)
  else SMTPChannelKey.

(** The message is handed to the channel of the delivery: the error of the
    delivery, if any. *)
Definition send (channelsByKey : gmap string Channel) (delivery : NotificationDelivery)
    : DB NotifyTables (option string) := fun fs t =>
  match messageForDelivery delivery with
  | inr message => (Ok (Some message), t, fs)
  | inl message =>
      match channelsByKey !! channel_key delivery with
      | None => (Ok (Some ("notification channel " +:+ nd_Channel delivery +:+ " is unavailable")), t, fs)
      | Some channel =>
          (Ok (channel message), alter_outbox (fun outbox => outbox ++ [(channel_key delivery, message)]) t, fs)
      end
  end.

(** The end of [DispatchOne]: the message is sent and the attempt recorded. *)
Definition send_and_record (retryBackoffCap : Duration) (now : Time) (channelsByKey : gmap string Channel)
    (delivery : NotificationDelivery) : DB NotifyTables bool :=
  deliveryErr ← send channelsByKey delivery;
  match deliveryErr with
  | None =>
      _ ← wrap "record notification success" (RecordNotificationSent (nd_ID delivery) now (nd_AttemptCount delivery));
      mret true
  | Some reason =>
      let failureCount := nd_AttemptCount delivery + 1 in
      let terminal := MaxAttempts <=? failureCount in
      let nextAttemptAt := if terminal then now else TimeAdd now (RetryDelay failureCount retryBackoffCap) in
      _ ← wrap "record notification failure"
            (RecordNotificationFailure (nd_ID delivery) now reason (nd_AttemptCount delivery) terminal nextAttemptAt);
      mret true
  end.

(** [DispatchOne] after the claim. *)
Definition deliver (retryBackoffCap : Duration) (now : Time) (channelsByKey : gmap string Channel)
    (delivery : NotificationDelivery) : DB NotifyTables bool :=
  alert ← attempt (GetNotificationAlertInstance (nd_ID delivery));
  match alert with
  | Ok (_, instanceID) =>
      '(maintenanceWindowID, inMaintenance) ← wrap "match delivery maintenance window"
        (FindActiveMaintenanceWindow instanceID now);
      if negb (ShouldDeliver (nd_EventType delivery) (MkSuppressionFacts inMaintenance false false)) then
        _ ← wrap "suppress claimed notification for maintenance"
              (SuppressNotificationForMaintenance (nd_ID delivery) maintenanceWindowID now);
        mret true
      else send_and_record retryBackoffCap now channelsByKey delivery
  | Err e =>
      if is_no_rows e then send_and_record retryBackoffCap now channelsByKey delivery
      else fail (Errorf "read notification alert instance" e)
  end.

Definition DispatchOne (retryBackoffCap : Duration) (now : Time) (channelsByKey : gmap string Channel)
    : DB NotifyTables bool :=
  claimed ← attempt (ClaimDueNotification now);
  match claimed with
  | Err e => if is_no_rows e then mret false else fail (Errorf "claim notification" e)
  | Ok delivery => deliver retryBackoffCap now channelsByKey delivery
  end.

(** * The accounts of the queue *)

(** The attempts recorded for a delivery, in order: retry count and success. *)
Definition attempt_log (t : NotifyTables) (id : string) : list (Z * bool) :=
  (fun a => (na_RetryCount a, na_Sent a)) <$> filter (fun a => na_NotificationID a = id) (n_attempt t).

(** [n] failed attempts, with their retry counts. *)
Definition failures (n : nat) : list (Z * bool) := (fun i => (Z.of_nat i, false)) <$> seq 0 n.

(** What the row of a delivery says of its attempts. *)
Definition delivery_ok (t : NotifyTables) (id : string) (d : NotificationDelivery) : Prop :=
  nd_ID d = id /\
  match nd_Status d with
  | DeliveryPending => exists n, (n < 3)%nat /\ nd_AttemptCount d = Z.of_nat n /\ attempt_log t id = failures n
  | DeliveryFailed => nd_AttemptCount d = 3 /\ attempt_log t id = failures 3
  | DeliverySent => exists n, (n < 3)%nat /\ nd_AttemptCount d = Z.of_nat n + 1 /\
                              attempt_log t id = failures n ++ [(Z.of_nat n, true)]
  end.

(** The invariant of the queue, with the rows returned by claims so far: a
    claimed row is never ahead of the table, and level with it only while the
    delivery is pending. *)
Record queue_inv (claims : list NotificationDelivery) (t : NotifyTables) : Prop := MkQueueInv {
  queue_rows : forall id d, n_delivery t !! id = Some d -> delivery_ok t id d;
  queue_issued : forall id d, n_delivery t !! id = Some d -> id ∈ n_issued t;
  queue_attempts : forall a, a ∈ n_attempt t -> is_Some (n_delivery t !! na_NotificationID a);
  queue_claims : forall c, c ∈ claims -> nd_ID c ∈ n_issued t /\ 0 <= nd_AttemptCount c;
  queue_stale : forall c d, c ∈ claims -> n_delivery t !! nd_ID c = Some d ->
    nd_AttemptCount c < nd_AttemptCount d \/
    nd_AttemptCount c = nd_AttemptCount d /\ nd_Status d = DeliveryPending;
}.

(** The invariant only reads the queue, the attempts and the uuids. *)
Lemma queue_inv_ext claims t t' :
  n_delivery t' = n_delivery t -> n_attempt t' = n_attempt t -> n_issued t' = n_issued t ->
  queue_inv claims t -> queue_inv claims t'.
Proof.
  intros H1 H2 H3 [Hr Hi Ha Hc Hs]. split; rewrite ?H1, ?H2, ?H3; try done.
  intros id d Hd. destruct (Hr id d Hd) as [Hid Hst]. split; [done|].
  unfold attempt_log in *. by rewrite H2.
Qed.

(** Deleting deliveries with their attempts. *)
Lemma queue_inv_filter claims t t' (keep : string -> Prop) `{!forall id, Decision (keep id)} :
  n_delivery t' = filter (fun p => keep p.1) (n_delivery t) ->
  n_attempt t' = filter (fun a => keep (na_NotificationID a)) (n_attempt t) ->
  n_issued t' = n_issued t -> queue_inv claims t -> queue_inv claims t'.
Proof.
  intros H1 H2 H3 [Hr Hi Ha Hc Hs]. split; rewrite ?H1, ?H2, ?H3.
  - intros id d [Hd Hk]%map_lookup_filter_Some. simpl in Hk. destruct (Hr id d Hd) as [Hid Hst]. split; [done|].
    unfold attempt_log in *. rewrite H2, list_filter_filter.
    erewrite (filter_ext_elem _ (fun a => na_NotificationID a = id)); [exact Hst|].
    intros a _. split; [by intros [??]|]. intros <-. by split.
  - intros id d [Hd _]%map_lookup_filter_Some. eauto.
  - intros a [Hk Hin]%list_elem_of_filter. destruct (Ha a Hin) as [d Hd]. exists d. by apply map_lookup_filter_Some.
  - done.
  - intros c d Hin [Hd _]%map_lookup_filter_Some. eauto.
Qed.

Lemma remove_delivery_inv claims id t : queue_inv claims t -> queue_inv claims (remove_delivery id t).
Proof.
  apply (queue_inv_filter claims t _ (fun i => i <> id)); try done. simpl.
  apply map_eq. intros i. destruct (decide (i = id)) as [->|Hne].
  - rewrite lookup_delete_eq. symmetry. apply map_lookup_filter_None. right. intros ? _. simpl. naive_solver.
  - rewrite lookup_delete_ne by done. destruct (n_delivery t !! i) as [d|] eqn:E.
    + symmetry. by apply map_lookup_filter_Some.
    + symmetry. apply map_lookup_filter_None. by left.
Qed.

(** Changing columns of a row that the invariant does not read. *)
Lemma relock_inv claims t id d d' :
  n_delivery t !! id = Some d -> nd_ID d' = nd_ID d -> nd_Status d' = nd_Status d ->
  nd_AttemptCount d' = nd_AttemptCount d -> queue_inv claims t -> queue_inv claims (alter_delivery <[id := d']> t).
Proof.
  intros Hd E1 E2 E3 [Hr Hi Ha Hc Hs]. split; simpl.
  - intros i e [[<- <-]|[Hne He]]%lookup_insert_Some.
    + destruct (Hr _ _ Hd) as [Hid Hst]. unfold delivery_ok, attempt_log in *. simpl. by rewrite E1, E2, E3.
    + exact (Hr i e He).
  - intros i e [[<- <-]|[Hne He]]%lookup_insert_Some; eauto.
  - intros a Hin. destruct (decide (na_NotificationID a = id)) as [->|Hne].
    + rewrite lookup_insert_eq. eauto.
    + rewrite lookup_insert_ne by done. eauto.
  - done.
  - intros c e Hin [[Hc1 <-]|[Hne He]]%lookup_insert_Some; [|eauto].
    rewrite E2, E3. apply (Hs c); [done|by rewrite <-Hc1].
Qed.

Lemma failures_elem n r : 0 <= r < Z.of_nat n -> (r, false) ∈ failures n.
Proof.
  intros Hr. unfold failures. apply list_elem_of_fmap. exists (Z.to_nat r). rewrite Z2Nat.id by lia.
  split; [done|]. apply elem_of_seq. lia.
Qed.

Lemma failures_S n : failures (S n) = failures n ++ [(Z.of_nat n, false)].
Proof. unfold failures. by rewrite seq_S, fmap_app. Qed.

(** Every retry count below the count of the row has been recorded. *)
Lemma delivery_ok_covers t id d r :
  delivery_ok t id d -> 0 <= r < nd_AttemptCount d ->
  exists a, a ∈ n_attempt t /\ na_NotificationID a = id /\ na_RetryCount a = r.
Proof.
  intros [_ Hst] Hr.
  assert (exists b, (r, b) ∈ attempt_log t id) as (b & Hb).
  { destruct (nd_Status d).
    - destruct Hst as (n & Hn & Hc & ->). exists false. apply failures_elem. lia.
    - destruct Hst as (n & Hn & Hc & ->). destruct (decide (r = Z.of_nat n)) as [->|Hne].
      + exists true. apply elem_of_app. right. left.
      + exists false. apply elem_of_app. left. apply failures_elem. lia.
    - destruct Hst as [Hc ->]. exists false. apply failures_elem. lia. }
  unfold attempt_log in Hb. apply list_elem_of_fmap in Hb as (a & Ha & [Hid Hin]%list_elem_of_filter).
  exists a. naive_solver.
Qed.

Lemma insert_attempt_Ok a t t' :
  insert_attempt a t = Ok t' ->
  t' = alter_attempt (fun attempts => attempts ++ [a]) t /\ 0 <= na_RetryCount a <= 2 /\
  is_Some (n_delivery t !! na_NotificationID a) /\
  (forall b, b ∈ n_attempt t -> na_NotificationID b = na_NotificationID a -> na_RetryCount b <> na_RetryCount a).
Proof.
  unfold insert_attempt. intros H.
  destruct (Z.leb_spec 0 (na_RetryCount a)), (Z.leb_spec (na_RetryCount a) 2); simpl in H; try done.
  destruct (match na_FailureReason a with Some _ => _ | None => _ end); simpl in H; [|done].
  case_bool_decide as Hd; [done|]. case_bool_decide as He; [done|]. injection H as <-.
  split_and!; [done|lia..|by apply not_eq_None_Some|].
  intros b Hb Eid Er. apply He, Exists_exists. exists b. split; [done|]. by rewrite Eid, Er.
Qed.

Lemma complete_delivery_fields id update event at_ t d :
  n_delivery t !! id = Some d -> nd_Status d = DeliveryPending ->
  n_delivery (complete_delivery id update event at_ t) = <[id := update d]> (n_delivery t) /\
  n_attempt (complete_delivery id update event at_ t) = n_attempt t /\
  n_issued (complete_delivery id update event at_ t) = n_issued t.
Proof.
  intros Hd Hs. unfold complete_delivery. rewrite Hd, bool_decide_true by done.
  destruct (event ≫= _) as [[kind alert]|]; done.
Qed.

(** The row of a delivery whose attempt is recorded from a claim. *)
Definition outcome_of (a : NotificationAttempt) : DeliveryStatus :=
  if na_Sent a then DeliverySent else if MaxAttempts <=? na_RetryCount a + 1 then DeliveryFailed else DeliveryPending.

Lemma record_inv claims t c a t' update event at_ :
  queue_inv claims t -> c ∈ claims ->
  na_NotificationID a = nd_ID c -> na_RetryCount a = nd_AttemptCount c ->
  insert_attempt a t = Ok t' ->
  (forall d, nd_ID (update d) = nd_ID d /\ nd_AttemptCount (update d) = na_RetryCount a + 1 /\
             nd_Status (update d) = outcome_of a) ->
  queue_inv claims (complete_delivery (nd_ID c) update event at_ t').
Proof.
  intros Hinv Hc Hid Hr (-> & Hrange & [d Hd] & Hnew)%insert_attempt_Ok Hup.
  pose proof Hinv as [Hrows Hiss Hatt Hcl Hst]. rewrite Hid in Hd.
  assert (nd_AttemptCount c = nd_AttemptCount d /\ nd_Status d = DeliveryPending) as [Hac Hpend].
  { destruct (Hst c d Hc Hd) as [Hlt|]; [|done]. exfalso.
    destruct (delivery_ok_covers t (nd_ID c) d (nd_AttemptCount c)) as (b & Hb & Hbid & Hbr); [by apply Hrows| |].
    - destruct (Hcl c Hc). lia.
    - apply (Hnew b Hb); congruence. }
  destruct (complete_delivery_fields (nd_ID c) update event at_
    (alter_attempt (fun attempts => attempts ++ [a]) t) d Hd Hpend) as (E1 & E2 & E3).
  simpl in E1, E2, E3. destruct (Hup d) as (U1 & U2 & U3).
  split; rewrite ?E1, ?E2, ?E3.
  - intros i e [[<- <-]|[Hne He]]%lookup_insert_Some.
    + destruct (Hrows _ _ Hd) as [Hi Hlog]. rewrite Hpend in Hlog. destruct Hlog as (n & Hn & Hcount & Hlog).
      assert (attempt_log (complete_delivery (nd_ID c) update event at_
        (alter_attempt (fun attempts => attempts ++ [a]) t)) (nd_ID c) = failures n ++ [(Z.of_nat n, na_Sent a)]) as Hlog'.
      { unfold attempt_log in *. rewrite E2, filter_app, fmap_app, Hlog.
        rewrite filter_cons_True by done. rewrite filter_nil. simpl. by rewrite Hr, Hac, Hcount. }
      unfold delivery_ok. rewrite U1, U2, U3, Hlog'. split; [done|]. unfold outcome_of, MaxAttempts.
      destruct (na_Sent a); [exists n; split_and!; [lia|lia|done]|].
      rewrite <-failures_S. destruct (Z.leb_spec 3 (na_RetryCount a + 1)).
      * replace n with 2%nat by lia. split; [lia|done].
      * exists (S n). split_and!; [lia|lia|done].
    + destruct (Hrows i e He) as [Hi Hlog]. split; [done|]. unfold attempt_log in *.
      rewrite E2, filter_app, (filter_cons_False _ a) by congruence. by rewrite filter_nil, app_nil_r.
  - intros i e [[<- <-]|[Hne He]]%lookup_insert_Some; eauto.
  - intros b [Hb| ->%list_elem_of_singleton]%elem_of_app.
    + apply Hatt in Hb as [e He]. apply lookup_insert_is_Some. destruct (decide (nd_ID c = na_NotificationID b)); eauto.
    + rewrite Hid, lookup_insert_eq. eauto.
  - done.
  - intros c' e Hc' [[Heq <-]|[Hne He]]%lookup_insert_Some; [|eauto].
    left. rewrite U2, Hr, Hac. rewrite Heq in Hd. destruct (Hst c' d Hc' Hd) as [|[? _]]; lia.
Qed.

Lemma delivery_rows_elem (t : NotifyTables) d : d ∈ (map_to_list (n_delivery t)).*2 <-> exists id, n_delivery t !! id = Some d.
Proof.
  rewrite list_elem_of_fmap. split.
  - intros ([id e] & -> & He%elem_of_map_to_list). by exists id.
  - intros [id Hid]. exists (id, d). split; [done|]. by apply elem_of_map_to_list.
Qed.

(** Keeps the invariant whatever becomes of its statements. *)
Definition keeps_queue {A} (claims : list NotificationDelivery) (m : DB NotifyTables A) : Prop :=
  triple (queue_inv claims) m (fun _ => queue_inv claims) (queue_inv claims).

Lemma ClaimDueNotification_queue claims now :
  triple (queue_inv claims) (ClaimDueNotification now) (fun d => queue_inv (d :: claims)) (queue_inv claims).
Proof.
  apply triple_statement; [done|]. intros t d' t' Hinv Heff.
  destruct (sort_by _ _) as [|d rest] eqn:Hs; [done|]. injection Heff as <- <-.
  assert (d ∈ sort_by deliveryLess (filter (fun d => delivery_due (timestamptz now) d = true)
    ((map_to_list (n_delivery t)).*2))) as Hd by (rewrite Hs; left).
  apply elem_of_sort_by, list_elem_of_filter in Hd as [Hdue [id Hid]%delivery_rows_elem].
  destruct (queue_rows _ _ Hinv id d Hid) as [Hd Hlog]. rewrite <-Hd in Hid.
  assert (nd_Status d = DeliveryPending) as Hp.
  { unfold delivery_due in Hdue. by case_bool_decide. }
  assert (queue_inv claims (alter_delivery <[nd_ID d := alter_LockedUntil (fun _ => Some (timestamptz now + claim_lock)) d]> t))
    as Hinv' by (by eapply relock_inv).
  split; [|done]. destruct Hinv' as [Hr Hi Ha Hc Hst]. split; try done.
  - intros c [->|Hin]%elem_of_cons; [|by apply Hc]. simpl. split; [by eapply (queue_issued _ _ Hinv)|].
    rewrite Hp in Hlog. destruct Hlog as (n & _ & -> & _). lia.
  - intros c e [->|Hin]%elem_of_cons He; [|by eapply Hst]. simpl in He.
    rewrite lookup_insert_eq in He. injection He as <-. right. by split.
Qed.

Lemma statement_keeps_queue {A} claims (effect : NotifyTables -> result (A * NotifyTables)) :
  (forall t a t', queue_inv claims t -> effect t = Ok (a, t') -> queue_inv claims t') ->
  keeps_queue claims (statement effect).
Proof. intros H. apply triple_statement; [done|]. intros t a t' Hi He. split; eauto. Qed.

Lemma mark_suppressed_inv claims alertID window at_ t :
  queue_inv claims t -> queue_inv claims (mark_suppressed alertID window at_ t).
Proof. apply queue_inv_ext; unfold mark_suppressed; by destruct (n_alert t !! alertID). Qed.

Lemma DeletePendingNotification_queue claims id : keeps_queue claims (DeletePendingNotification id).
Proof.
  apply statement_keeps_queue. intros t a t' Hi [= <- <-].
  destruct (is_pending t id); [by apply remove_delivery_inv|done].
Qed.

Lemma RecordMaintenanceSuppressed_queue claims alertID window at_ :
  keeps_queue claims (RecordMaintenanceSuppressed alertID window at_).
Proof. apply statement_keeps_queue. intros t a t' Hi [= <- <-]. by apply mark_suppressed_inv. Qed.

Lemma SuppressNotification_queue claims id window at_ :
  keeps_queue claims (SuppressNotificationForMaintenance id window at_).
Proof.
  apply statement_keeps_queue. intros t a t' Hi [= <- <-].
  destruct (n_delivery t !! id) as [d|]; [|done]. case_bool_decide; [|done].
  destruct (nd_AlertInstanceID d); [apply mark_suppressed_inv|]; by apply remove_delivery_inv.
Qed.

Lemma RecordNotificationSent_queue claims c at_ :
  c ∈ claims -> keeps_queue claims (RecordNotificationSent (nd_ID c) at_ (nd_AttemptCount c)).
Proof.
  intros Hc. apply statement_keeps_queue. intros t a t' Hi He.
  destruct (insert_attempt _ t) as [t1|] eqn:Hins; [|done]. injection He as <- <-.
  eapply record_inv; [done|exact Hc| | |exact Hins|]; done.
Qed.

Lemma RecordNotificationFailure_queue claims c at_ reason next :
  c ∈ claims ->
  keeps_queue claims (RecordNotificationFailure (nd_ID c) at_ reason (nd_AttemptCount c)
    (MaxAttempts <=? nd_AttemptCount c + 1) next).
Proof.
  intros Hc. apply statement_keeps_queue. intros t a t' Hi He.
  destruct (insert_attempt _ t) as [t1|] eqn:Hins; [|done]. injection He as <- <-.
  eapply record_inv; [done|exact Hc| | |exact Hins|]; done.
Qed.

Lemma insert_delivery_inv claims alertID event template payload at_ acc destination :
  queue_inv claims acc.2 -> queue_inv claims (insert_delivery alertID event template payload at_ acc destination).2.
Proof.
  destruct acc as [ids t], destination as [[channel targetID] target]. simpl. intros [Hr Hi Ha Hc Hst].
  set (id := fresh (n_issued t)). assert (id ∉ n_issued t) as Hfresh by apply is_fresh.
  assert (n_delivery t !! id = None) as Hnone.
  { destruct (n_delivery t !! id) eqn:E; [|done]. by apply Hi in E. }
  split; simpl.
  - intros i e [[<- <-]|[Hne He]]%lookup_insert_Some; [|by apply Hr].
    split; [done|]. simpl. exists 0%nat. split_and!; [lia|done|].
    unfold attempt_log. simpl. rewrite filter_none; [done|]. intros a Hin Heq.
    apply Ha in Hin as [e He]. rewrite Heq in He. congruence.
  - intros i e [[<- <-]|[Hne He]]%lookup_insert_Some; [set_solver|]. apply Hi in He. set_solver.
  - intros a Hin. apply Ha in Hin as [e He]. apply lookup_insert_is_Some.
    destruct (decide (id = na_NotificationID a)); eauto.
  - intros c Hin. destruct (Hc c Hin). split; [set_solver|done].
  - intros c e Hin [[Heq <-]|[Hne He]]%lookup_insert_Some; [|by eapply Hst].
    destruct (Hc c Hin) as [Hiss _]. congruence.
Qed.

Lemma EnqueueAlertNotifications_queue claims alertID event template payload at_ :
  keeps_queue claims (EnqueueAlertNotifications alertID event template payload at_).
Proof.
  apply statement_keeps_queue. intros t ids t' Hi He. destruct (selected_policy t alertID event); [|by injection He as <- <-].
  injection He as He.
  assert (forall ds acc, queue_inv claims acc.2 ->
    queue_inv claims (foldl (insert_delivery alertID event template payload (timestamptz at_)) acc ds).2) as Hfold.
  { induction ds as [|d ds IH]; intros acc Hacc; [done|]. by apply IH, insert_delivery_inv. }
  specialize (Hfold (destinations t s) ([], t) Hi). by rewrite He in Hfold.
Qed.

Create HintDb queue.

Lemma keeps_queue_bind {A B} claims (m : DB NotifyTables A) (k : A -> DB NotifyTables B) :
  keeps_queue claims m -> (forall a, keeps_queue claims (k a)) -> keeps_queue claims (m ≫= k).
Proof. intros Hm Hk. eapply triple_bind; [exact Hm|exact Hk]. Qed.

Lemma keeps_queue_ret {A} claims (a : A) : keeps_queue claims (mret a).
Proof. by apply triple_ret. Qed.

Lemma keeps_queue_fail {A} claims e : keeps_queue (A := A) claims (fail e).
Proof. by apply triple_fail. Qed.

Lemma keeps_queue_wrap {A} claims message (m : DB NotifyTables A) : keeps_queue claims m -> keeps_queue claims (wrap message m).
Proof. apply triple_wrap. Qed.

Lemma keeps_queue_attempt {A} claims (m : DB NotifyTables A) : keeps_queue claims m -> keeps_queue claims (attempt m).
Proof. intros Hm. by eapply triple_attempt. Qed.

Lemma keeps_queue_query {A} claims (f : NotifyTables -> A) : keeps_queue claims (query f).
Proof. by apply triple_query. Qed.

Lemma GetNotificationAlertInstance_queue claims id : keeps_queue claims (GetNotificationAlertInstance id).
Proof. apply statement_keeps_queue. intros t a t' Hi He. destruct (_ ≫= _); naive_solver. Qed.

Lemma send_queue claims channels d : keeps_queue claims (send channels d).
Proof.
  intros fs t Hi. unfold send. destruct (messageForDelivery d); [|exact Hi].
  destruct (channels !! channel_key d); [|exact Hi]. simpl. by apply (queue_inv_ext _ t).
Qed.

#[export] Hint Resolve keeps_queue_bind keeps_queue_ret keeps_queue_fail keeps_queue_wrap keeps_queue_attempt
  keeps_queue_query GetNotificationAlertInstance_queue send_queue DeletePendingNotification_queue
  RecordMaintenanceSuppressed_queue SuppressNotification_queue RecordNotificationSent_queue
  RecordNotificationFailure_queue EnqueueAlertNotifications_queue : queue.
#[export] Hint Extern 1 (keeps_queue _ (if ?b then _ else _)) => destruct b : queue.
#[export] Hint Extern 1 (keeps_queue _ (match ?x with _ => _ end)) => destruct x : queue.

Lemma FindActiveMaintenanceWindow_queue claims instanceID at_ :
  keeps_queue claims (FindActiveMaintenanceWindow instanceID at_).
Proof. unfold FindActiveMaintenanceWindow. auto 8 with queue. Qed.

Lemma for_each_queue {I} claims (f : I -> DB NotifyTables unit) items :
  (forall i, keeps_queue claims (f i)) -> keeps_queue claims (for_each f items).
Proof. intros Hf. apply triple_for_each. intros i _. apply Hf. Qed.

#[export] Hint Resolve FindActiveMaintenanceWindow_queue for_each_queue : queue.

Lemma send_and_record_queue claims cap now channels c :
  c ∈ claims -> keeps_queue claims (send_and_record cap now channels c).
Proof. intros Hc. unfold send_and_record. auto 10 with queue. Qed.

#[export] Hint Resolve send_and_record_queue : queue.

Lemma deliver_queue claims cap now channels c : c ∈ claims -> keeps_queue claims (deliver cap now channels c).
Proof. intros Hc. unfold deliver. auto 20 with queue. Qed.

(** A claimed row can be forgotten. *)
Lemma queue_inv_forget c claims t : queue_inv (c :: claims) t -> queue_inv claims t.
Proof. intros [Hr Hi Ha Hc Hst]. split; try done; intros; [apply Hc|eapply Hst]; try done; by right. Qed.

Lemma DispatchOne_queue claims cap now channels : keeps_queue claims (DispatchOne cap now channels).
Proof.
  unfold DispatchOne. eapply triple_bind.
  - apply (triple_attempt _ _ (fun r => match r with Ok d => queue_inv (d :: claims) | Err _ => queue_inv claims end)
      _ (queue_inv claims)); [apply ClaimDueNotification_queue|done].
  - intros [d|e].
    + apply (triple_weaken _ (queue_inv (d :: claims)) _ _ (fun _ => queue_inv (d :: claims)) _ (queue_inv (d :: claims)));
        [apply deliver_queue; left|done|intros ? ?|intros ?]; apply queue_inv_forget.
    + destruct (is_no_rows e); [by apply triple_ret|by apply triple_fail].
Qed.

Lemma EnqueueDueRepeats_queue claims float8_text now : keeps_queue claims (EnqueueDueRepeats float8_text now).
Proof.
  unfold EnqueueDueRepeats. apply keeps_queue_bind; [auto with queue|]. intros candidates.
  generalize 0. induction candidates as [|c rest IH]; intros n; simpl; [auto with queue|].
  destruct (negb _); [apply IH|]. apply keeps_queue_bind; [|auto]. unfold enqueue_repeat. auto 20 with queue.
Qed.

(** The life of the queue: any number of dispatchers claim and deliver, at any
    times and with any faults, also long after a claim's lock has expired;
    notifications are enqueued and discarded; and the rest of the program changes
    the other tables and deletes deliveries with their alerts. *)
Inductive queue_step : NotifyTables * list NotificationDelivery -> NotifyTables * list NotificationDelivery -> Prop :=
  | step_claim now fs t claims :
      queue_step (t, claims)
        (tables_after (ClaimDueNotification now) fs t,
         match (ClaimDueNotification now fs t).1.1 with Ok d => d :: claims | Err _ => claims end)
  | step_deliver cap now channels c fs t claims :
      c ∈ claims -> queue_step (t, claims) (tables_after (deliver cap now channels c) fs t, claims)
  | step_dispatch cap now channels fs t claims :
      queue_step (t, claims) (tables_after (DispatchOne cap now channels) fs t, claims)
  | step_enqueue alertID event template payload at_ fs t claims :
      queue_step (t, claims) (tables_after (EnqueueAlertNotifications alertID event template payload at_) fs t, claims)
  | step_repeats float8_text now fs t claims :
      queue_step (t, claims) (tables_after (EnqueueDueRepeats float8_text now) fs t, claims)
  | step_discard id fs t claims :
      queue_step (t, claims) (tables_after (DeletePendingNotification id) fs t, claims)
  | step_other (keep : gset string) t t' claims :
      n_delivery t' = filter (fun p => p.1 ∈ keep) (n_delivery t) ->
      n_attempt t' = filter (fun a => na_NotificationID a ∈ keep) (n_attempt t) ->
      n_issued t' = n_issued t -> queue_step (t, claims) (t', claims).

Lemma queue_step_inv s s' : queue_step s s' -> queue_inv s.2 s.1 -> queue_inv s'.2 s'.1.
Proof.
  destruct 1 as [now fs t claims|cap now channels c fs t claims Hc|cap now channels fs t claims|
    alertID event template payload at_ fs t claims|float8_text now fs t claims|id fs t claims|keep t t' claims E1 E2 E3];
    simpl; intros Hi.
  - pose proof (ClaimDueNotification_queue claims now fs t Hi) as H. unfold tables_after.
    by destruct (ClaimDueNotification now fs t) as [[[d|e] t1] fs1].
  - by apply triple_tables; [apply deliver_queue|].
  - by apply triple_tables; [apply DispatchOne_queue|].
  - by apply triple_tables; [apply EnqueueAlertNotifications_queue|].
  - by apply triple_tables; [apply EnqueueDueRepeats_queue|].
  - by apply triple_tables; [apply DeletePendingNotification_queue|].
  - by apply (queue_inv_filter claims t t' (fun id => id ∈ keep)).
Qed.

Lemma queue_steps_inv s s' : rtc queue_step s s' -> queue_inv s.2 s.1 -> queue_inv s'.2 s'.1.
Proof. induction 1 as [|x y z Hxy _ IH]; [done|]. intros H. by apply IH, (queue_step_inv x y). Qed.

Lemma queue_reachable_inv t0 s :
  n_delivery t0 = ∅ -> n_attempt t0 = [] -> rtc queue_step (t0, []) s -> queue_inv s.2 s.1.
Proof.
  intros Hd Ha Hs. apply (queue_steps_inv _ _ Hs). simpl.
  split; rewrite ?Hd, ?Ha; try (by intros ? ?%elem_of_nil); intros id d; by rewrite lookup_empty.
Qed.

(** * Properties *)

(** C33. Whatever the interleaving of dispatchers, faults and expired locks, the
    queue's books balance: a delivery has one recorded attempt per retry count,
    in order, at most three; a pending delivery has had fewer than three and all
    failed, a failed one exactly three failures, and a sent one ends with its one
    success. *)
Theorem delivery_attempts_accounted (t0 t : NotifyTables) (claims : list NotificationDelivery) (id : string)
    (d : NotificationDelivery) :
  n_delivery t0 = ∅ -> n_attempt t0 = [] -> rtc queue_step (t0, []) (t, claims) ->
  n_delivery t !! id = Some d ->
  nd_ID d = id /\ nd_AttemptCount d = Z.of_nat (length (attempt_log t id)) /\
  (length (attempt_log t id) <= 3)%nat /\
  match nd_Status d with
  | DeliveryPending => (length (attempt_log t id) < 3)%nat /\ attempt_log t id = failures (length (attempt_log t id))
  | DeliveryFailed => attempt_log t id = failures 3
  | DeliverySent => exists n, attempt_log t id = failures n ++ [(Z.of_nat n, true)]
  end.
Proof.
  intros Hd0 Ha0 Hs Hd. pose proof (queue_reachable_inv t0 (t, claims) Hd0 Ha0 Hs) as Hi.
  destruct (queue_rows _ _ Hi id d Hd) as [Hid Hst]. split; [done|].
  assert (forall n, length (failures n) = n) as Hlen by (intros n; unfold failures; by rewrite length_fmap, length_seq).
  simpl in *. destruct (nd_Status d).
  - destruct Hst as (n & Hn & Hc & ->). rewrite Hlen. split_and!; [lia|lia|lia|done].
  - destruct Hst as (n & Hn & Hc & ->). rewrite length_app, Hlen. simpl. split_and!; [lia|lia|by exists n].
  - destruct Hst as [Hc ->]. rewrite Hlen. split_and!; [lia|lia|done].
Qed.

(** The key of a delivery's row is its id. *)
Definition keyed (t : NotifyTables) : Prop := forall id d, n_delivery t !! id = Some d -> nd_ID d = id.

Definition relocked (now : Time) (d : NotificationDelivery) : NotificationDelivery :=
  alter_LockedUntil (fun _ => Some (timestamptz now + claim_lock)) d.

Lemma deliveryLess_spec a b :
  deliveryLess a b = true <->
  nd_NextAttemptAt a < nd_NextAttemptAt b \/ nd_NextAttemptAt a = nd_NextAttemptAt b /\
    (nd_CreatedAt a < nd_CreatedAt b \/ nd_CreatedAt a = nd_CreatedAt b /\ string_ltb (nd_ID a) (nd_ID b) = true).
Proof. unfold deliveryLess. rewrite !orb_true_iff, !andb_true_iff, orb_true_iff, andb_true_iff, !bool_decide_eq_true, !Z.ltb_lt. done. Qed.

Lemma string_ltb_neg_trans s t u : string_ltb t s = false -> string_ltb u t = false -> string_ltb u s = false.
Proof.
  intros H1 H2. apply not_true_iff_false. intros H3. destruct (string_ltb s t) eqn:Hst.
  - pose proof (string_ltb_trans _ _ _ H3 Hst). congruence.
  - rewrite (string_ltb_total _ _ Hst H1) in H3. congruence.
Qed.

Lemma deliveryLess_in_order l : in_order deliveryLess (sort_by deliveryLess l).
Proof.
  apply sort_by_in_order.
  - intros x y z. rewrite !deliveryLess_spec. intros H1 H2.
    assert (string_ltb (nd_ID x) (nd_ID y) = true -> string_ltb (nd_ID y) (nd_ID z) = true ->
      string_ltb (nd_ID x) (nd_ID z) = true) by eauto with monitor. intuition lia.
  - intros x. apply not_true_iff_false. rewrite deliveryLess_spec, string_ltb_irrefl. intuition lia.
  - intros x y z. rewrite <-!not_true_iff_false, !deliveryLess_spec. intros H1 H2 H3.
    pose proof (string_ltb_neg_trans (nd_ID x) (nd_ID y) (nd_ID z)) as H.
    destruct (string_ltb (nd_ID y) (nd_ID x)) eqn:E1, (string_ltb (nd_ID z) (nd_ID y)) eqn:E2,
      (string_ltb (nd_ID z) (nd_ID x)) eqn:E3; intuition lia.
Qed.

(** What a claim that runs does. *)
Lemma ClaimDueNotification_plain now t :
  match plain (ClaimDueNotification now) t with
  | (Err e, t') => e = ErrNoRows /\ t' = t /\ forall id d, n_delivery t !! id = Some d -> delivery_due (timestamptz now) d = false
  | (Ok d', t') => exists d id, n_delivery t !! id = Some d /\ delivery_due (timestamptz now) d = true /\
      d' = relocked now d /\ t' = alter_delivery <[nd_ID d := d']> t /\
      forall i e, n_delivery t !! i = Some e -> delivery_due (timestamptz now) e = true -> deliveryLess e d = false
  end.
Proof.
  unfold plain, ClaimDueNotification, statement. simpl.
  pose proof (deliveryLess_in_order (filter (fun d => delivery_due (timestamptz now) d = true)
    ((map_to_list (n_delivery t)).*2))) as Hord.
  destruct (sort_by _ _) as [|d rest] eqn:Hs; simpl.
  - split_and!; [done..|]. intros id d Hd. apply not_true_iff_false. intros Hdue.
    apply (not_elem_of_nil d). rewrite <-Hs, elem_of_sort_by, list_elem_of_filter. split; [done|].
    apply delivery_rows_elem. by exists id.
  - assert (forall e, e ∈ d :: rest <-> delivery_due (timestamptz now) e = true /\ exists i, n_delivery t !! i = Some e) as Hmem.
    { intros e. by rewrite <-Hs, elem_of_sort_by, list_elem_of_filter, delivery_rows_elem. }
    destruct (proj1 (Hmem d)) as [Hdue [id Hid]]; [left|]. exists d, id. split_and!; try done.
    intros i e He Hdue'. assert (e ∈ d :: rest) as [->|Hin]%elem_of_cons by (apply Hmem; eauto).
    + apply not_true_iff_false. rewrite deliveryLess_spec, string_ltb_irrefl. intuition lia.
    + apply StronglySorted_inv in Hord as [_ Hall]. rewrite Forall_forall in Hall. by apply Hall.
Qed.

(** A claim takes the delivery that is due first, by attempt time, creation
    and id, leaves every other row alone, and nobody else can claim that delivery
    within the next thirty seconds; it reports no work exactly when nothing is
    due. *)
Theorem claims_are_exclusive (t : NotifyTables) (now : Time) :
  keyed t ->
  match plain (ClaimDueNotification now) t with
  | (Err e, t') => e = ErrNoRows /\ t' = t /\ forall id d, n_delivery t !! id = Some d -> delivery_due (timestamptz now) d = false
  | (Ok d', t') => exists d, n_delivery t !! nd_ID d = Some d /\ delivery_due (timestamptz now) d = true /\
      d' = relocked now d /\ n_delivery t' = <[nd_ID d := d']> (n_delivery t) /\
      (forall id e, n_delivery t !! id = Some e -> delivery_due (timestamptz now) e = true -> deliveryLess e d = false) /\
      forall later e t'', timestamptz later < timestamptz now + claim_lock ->
        plain (ClaimDueNotification later) t' = (Ok e, t'') -> nd_ID e <> nd_ID d
  end.
Proof.
  intros Hk. pose proof (ClaimDueNotification_plain now t) as H.
  destruct (plain (ClaimDueNotification now) t) as [[d'|e] t']; [|exact H].
  destruct H as (d & id & Hid & Hdue & -> & -> & Hmin). pose proof (Hk id d Hid) as <-.
  exists d. split_and!; try done. intros later e t'' Hlt Hlater Heq.
  pose proof (ClaimDueNotification_plain later (alter_delivery <[nd_ID d := relocked now d]> t)) as H.
  rewrite Hlater in H. destruct H as (f & i & Hi & Hfdue & -> & _). simpl in Hi, Heq.
  apply lookup_insert_Some in Hi as [[<- <-]|[Hne Hi]].
  - unfold delivery_due in Hfdue. simpl in Hfdue. destruct (Z.leb_spec (timestamptz now + claim_lock) (timestamptz later)); [lia|].
    by rewrite andb_false_r in Hfdue.
  - apply Hne. rewrite <-Heq. by apply (Hk i f).
Qed.

Lemma string_ltb_asym s t : string_ltb s t = true -> string_ltb t s = false.
Proof.
  intros H. apply not_true_iff_false. intros H'. pose proof (string_ltb_trans _ _ _ H H') as E.
  by rewrite string_ltb_irrefl in E.
Qed.

#[export] Instance ClaimDueNotification_outbox now : Keeps n_outbox (ClaimDueNotification now).
Proof. apply statement_keeps. intros t d t' H. destruct (sort_by _ _); [done|]. by injection H as _ <-. Qed.

#[export] Instance GetNotificationAlertInstance_outbox id : Keeps n_outbox (GetNotificationAlertInstance id).
Proof. apply statement_keeps. intros t d t' H. destruct (_ ≫= _); [|done]. by injection H as _ <-. Qed.

#[export] Instance SuppressNotification_outbox id window at_ : Keeps n_outbox (SuppressNotificationForMaintenance id window at_).
Proof.
  apply exec_keeps. intros t. destruct (n_delivery t !! id) as [d|]; [|done]. case_bool_decide; [|done].
  destruct (nd_AlertInstanceID d); [|done]. unfold mark_suppressed. by destruct (n_alert _ !! _).
Qed.

Lemma record_outbox a t t' id update event at_ :
  insert_attempt a t = Ok t' -> n_outbox (complete_delivery id update event at_ t') = n_outbox t.
Proof.
  intros (-> & _)%insert_attempt_Ok. unfold complete_delivery. destruct (n_delivery _ !! id) as [d|]; [|done].
  case_bool_decide; [|done]. by destruct (event ≫= _) as [[kind alert]|].
Qed.

#[export] Instance RecordNotificationSent_outbox id at_ retry : Keeps n_outbox (RecordNotificationSent id at_ retry).
Proof.
  apply statement_keeps. intros t a t' H. destruct (insert_attempt _ t) eqn:E; [|done]. injection H as _ <-.
  by eapply record_outbox.
Qed.

#[export] Instance RecordNotificationFailure_outbox id at_ reason retry terminal next :
  Keeps n_outbox (RecordNotificationFailure id at_ reason retry terminal next).
Proof.
  apply statement_keeps. intros t a t' H. destruct (insert_attempt _ t) eqn:E; [|done]. injection H as _ <-.
  by eapply record_outbox.
Qed.

(** What is sent for a delivery is its message, once. *)
Lemma send_and_record_outbox cap now channels d fs t :
  let t' := tables_after (send_and_record cap now channels d) fs t in
  n_outbox t' = n_outbox t \/
  exists m, messageForDelivery d = inl m /\ n_outbox t' = n_outbox t ++ [(channel_key d, m)].
Proof.
  assert (forall r, Keeps n_outbox (match r with
    | None => _ ← wrap "record notification success" (RecordNotificationSent (nd_ID d) now (nd_AttemptCount d)); mret true
    | Some reason => _ ← wrap "record notification failure"
        (RecordNotificationFailure (nd_ID d) now reason (nd_AttemptCount d) (MaxAttempts <=? nd_AttemptCount d + 1)
          (if MaxAttempts <=? nd_AttemptCount d + 1 then now else TimeAdd now (RetryDelay (nd_AttemptCount d + 1) cap)));
        mret true
    end : DB NotifyTables bool)) as Hk by (intros [reason|]; apply _).
  unfold send_and_record, tables_after. unfold mbind at 1, DB_bind at 1, send.
  destruct (messageForDelivery d) as [m|reason]; [|left; exact (Hk (Some reason) fs t)].
  destruct (channels !! channel_key d) as [channel|]; [right; exists m; split; [done|]|left; exact (Hk (Some _) fs t)].
  exact (Hk (channel m) fs _).
Qed.

Lemma ShouldDeliver_maintenance event b : ShouldDeliver event (MkSuppressionFacts b false false) = negb b.
Proof. unfold ShouldDeliver. simpl. destruct b; simpl; [done|]. apply orb_true_r. Qed.

(** The window found is the one of the tables, which are left as they are. *)
Lemma FindActiveMaintenanceWindow_run instanceID at_ fs t :
  tables_after (FindActiveMaintenanceWindow instanceID at_) fs t = t /\
  forall w b, (FindActiveMaintenanceWindow instanceID at_ fs t).1.1 = Ok (w, b) ->
    w = scope_ID <$> active_window instanceID at_ t /\ b = bool_decide (is_Some (active_window instanceID at_ t)).
Proof.
  unfold FindActiveMaintenanceWindow, tables_after, active_window, mbind, DB_bind, query, statement.
  destruct (next_fate fs) as [[|e|e] fs1]; simpl; [|done..].
  destruct (ActiveMaintenanceWindow _ _ _); simpl; split; try done; intros w b [= <- <-]; done.
Qed.

(** A claim that is answered is the one of the server without faults. *)
Lemma ClaimDueNotification_Ok now fs t c t1 fs1 :
  ClaimDueNotification now fs t = (Ok c, t1, fs1) -> plain (ClaimDueNotification now) t = (Ok c, t1).
Proof.
  intros H. assert (Propagates (ClaimDueNotification now)) as Hp by apply statement_propagates.
  unfold plain. by rewrite (Hp _ _ _ _ _ H).
Qed.

(** A message sent by [deliver] is that of the delivery, and there is no window. *)
Lemma deliver_outbox cap now channels c fs t :
  n_delivery t !! nd_ID c = Some c ->
  let t' := tables_after (deliver cap now channels c) fs t in
  n_outbox t' = n_outbox t \/
  exists m, messageForDelivery c = inl m /\ n_outbox t' = n_outbox t ++ [(channel_key c, m)] /\
    forall alertID alert, nd_AlertInstanceID c = Some alertID -> n_alert t !! alertID = Some alert ->
      active_window (ai_InstanceID alert) now t = None.
Proof.
  intros Hc t'. assert (t' = tables_after (deliver cap now channels c) fs t) as Hrun by done. clearbody t'.
  unfold deliver, tables_after in Hrun. unfold mbind at 1, DB_bind at 1, attempt in Hrun.
  pose proof (keeps (f := n_outbox) (m := GetNotificationAlertInstance (nd_ID c)) fs t) as Hout.
  pose proof (statement_cases (fun t => match (d ← n_delivery t !! nd_ID c; alertID ← nd_AlertInstanceID d; n_alert t !! alertID) with
    | None => Err ErrNoRows | Some alert => Ok ((ai_ID alert, ai_InstanceID alert), t) end) fs t) as Hcase.
  change (statement _) with (GetNotificationAlertInstance (nd_ID c)) in *. unfold tables_after in Hout.
  destruct (GetNotificationAlertInstance (nd_ID c) fs t) as [[r t2] fs2]. simpl in Hcase, Hout.
  rewrite Hc in Hcase. simpl in Hcase. destruct r as [[aid instanceID]|e].
  - destruct (nd_AlertInstanceID c ≫= fun a => n_alert t !! a) as [alert|] eqn:Ha; [|done].
    injection Hcase as _ <- <-.
    destruct (FindActiveMaintenanceWindow_run (ai_InstanceID alert) now fs2 t) as [Ht Hw].
    unfold tables_after in Ht. unfold mbind at 1, DB_bind at 1, wrap at 1 in Hrun.
    destruct (FindActiveMaintenanceWindow (ai_InstanceID alert) now fs2 t) as [[[[w b]|e] t3] fs3];
      simpl in Ht; subst t3; [|left; by rewrite Hrun].
    destruct (Hw w b eq_refl) as [_ ->]. rewrite ShouldDeliver_maintenance, negb_involutive in Hrun.
    destruct (active_window (ai_InstanceID alert) now t) eqn:Hact; simpl in Hrun.
    + left. rewrite Hrun. apply (keeps (f := n_outbox) (m := _ ← wrap "suppress claimed notification for maintenance"
        (SuppressNotificationForMaintenance (nd_ID c) w now); mret true) fs3 t).
    + rewrite Hrun. destruct (send_and_record_outbox cap now channels c fs3 t) as [|(m & Hm & Hs)]; [by left|right].
      exists m. split_and!; [done..|]. intros alertID alert' E1 E2. rewrite E1 in Ha. simpl in Ha. congruence.
  - destruct (is_no_rows e) eqn:He; [|left; by rewrite Hrun]. destruct (Hcase eq_refl) as [Hnone ->]. rewrite Hrun.
    destruct (send_and_record_outbox cap now channels c fs2 t) as [|(m & Hm & Hs)]; [by left|right].
    exists m. split_and!; [done..|]. intros alertID alert E1 E2. rewrite E1 in Hnone. simpl in Hnone. by rewrite E2 in Hnone.
Qed.

(** C34. No message leaves during maintenance: under any faults, one call of
    [DispatchOne] hands over at most one message, that of a delivery which was
    due, and none while a maintenance window of its alert's instance is in
    force. *)
Theorem dispatch_respects_maintenance (cap : Duration) (now : Time) (channels : gmap string Channel)
    (fs : list fate) (t : NotifyTables) :
  keyed t ->
  let t' := tables_after (DispatchOne cap now channels) fs t in
  n_outbox t' = n_outbox t \/
  exists d m, n_delivery t !! nd_ID d = Some d /\ delivery_due (timestamptz now) d = true /\
    messageForDelivery d = inl m /\ n_outbox t' = n_outbox t ++ [(channel_key d, m)] /\
    forall alertID alert, nd_AlertInstanceID d = Some alertID -> n_alert t !! alertID = Some alert ->
      active_window (ai_InstanceID alert) now t = None.
Proof.
  intros Hk t'. assert (t' = tables_after (DispatchOne cap now channels) fs t) as Hrun' by done. clearbody t'.
  unfold DispatchOne, tables_after in Hrun'. unfold mbind at 1, DB_bind at 1, attempt in Hrun'.
  pose proof (keeps (f := n_outbox) (m := ClaimDueNotification now) fs t) as Hout. unfold tables_after in Hout.
  pose proof (ClaimDueNotification_plain now t) as Hplain.
  destruct (ClaimDueNotification now fs t) as [[r t1] fs1] eqn:Hrun. simpl in Hout. destruct r as [c|e].
  - rewrite (ClaimDueNotification_Ok now fs t c t1 fs1 Hrun) in Hplain.
    destruct Hplain as (d & id & Hd & Hdue & -> & -> & _). pose proof (Hk id d Hd) as <-.
    destruct (deliver_outbox cap now channels (relocked now d) fs1 (alter_delivery <[nd_ID d := relocked now d]> t))
      as [Hs|(m & Hm & Hs & Hact)]; [apply lookup_insert_eq|left; by rewrite Hrun'|right].
    exists d, m. split_and!; try done. by rewrite Hrun'.
  - left. rewrite Hrun'. by destruct (is_no_rows e).
Qed.

(** * Repeats are due *)

(** A delivery that a run of [EnqueueDueRepeats] at [now] may add to [t0]. *)
Definition due_repeat (t0 : NotifyTables) (now : Time) (d : NotificationDelivery) : Prop :=
  nd_EventType d = EventRepeat /\ nd_Status d = DeliveryPending /\ nd_CreatedAt d = timestamptz now /\
  exists alertID alert policyID policy,
    nd_AlertInstanceID d = Some alertID /\ alert ∈ (map_to_list (n_alert t0)).*2 /\ ai_ID alert = alertID /\
    ai_Status alert = FIRING /\ ai_Disposition alert <> "ACKED" /\ has_pending t0 alertID = false /\
    policy_of_alert t0 alert = Some (policyID, policy) /\
    announced_at t0 alertID <> [] /\
    forall at_, at_ ∈ announced_at t0 alertID -> at_ + RepeatInterval policy * Second <= now.

(** The queue while the loop runs: rows of [t0] and due repeats. *)
Record repeats_inv (t0 : NotifyTables) (now : Time) (t : NotifyTables) : Prop := MkRepeatsInv {
  repeats_rows : forall id d, n_delivery t !! id = Some d ->
    n_delivery t0 !! id = Some d \/ n_delivery t0 !! id = None /\ due_repeat t0 now d;
  repeats_issued : forall id d, n_delivery t0 !! id = Some d -> id ∈ n_issued t;
}.

Lemma foldr_max_le first l x : x ∈ l -> x <= foldr Z.max first l.
Proof. induction 1; simpl; lia. Qed.

(** A candidate of [t0] whose repeat is due. *)
Lemma repeat_candidate_due float8_text t0 now c d :
  c ∈ ListRepeatCandidates float8_text t0 -> repeat_due now c = true ->
  nd_EventType d = EventRepeat -> nd_Status d = DeliveryPending -> nd_CreatedAt d = timestamptz now ->
  nd_AlertInstanceID d = Some (rc_AlertInstanceID c) -> due_repeat t0 now d.
Proof.
  intros Hc Hdue He Hs Hcr Ha. unfold ListRepeatCandidates in Hc. apply list_elem_of_omap in Hc as (alert & Hin & Hcand).
  rewrite elem_of_sort_by in Hin. unfold repeat_candidate in Hcand.
  destruct (n_rule t0 !! ai_RuleID alert) as [rule|]; [simpl in Hcand|done].
  destruct (n_identity t0 !! ai_InstanceID alert) as [name|]; [simpl in Hcand|done].
  destruct (policy_of_alert t0 alert) as [[policyID policy]|] eqn:Hp; [simpl in Hcand|done].
  destruct (ai_FirstTriggeredAt alert) as [first|]; [simpl in Hcand|done].
  case_bool_decide as Hf; simpl in Hcand; [|done]. case_bool_decide as Hann; simpl in Hcand; [|done].
  destruct (has_pending t0 (ai_ID alert)) eqn:Hpend; simpl in Hcand; [done|]. injection Hcand as <-.
  unfold repeat_due in Hdue. simpl in Hdue. case_bool_decide as Hack; [done|].
  apply negb_true_iff in Hdue. unfold Before, TimeAdd in Hdue. apply Z.ltb_ge in Hdue.
  split_and!; try done. exists (ai_ID alert), alert, policyID, policy. split_and!; try done.
  intros at_ Hat. pose proof (foldr_max_le first _ _ Hat). lia.
Qed.

Lemma insert_delivery_repeats t0 now alertID template payload acc destination :
  (forall d, nd_EventType d = EventRepeat -> nd_Status d = DeliveryPending -> nd_CreatedAt d = timestamptz now ->
     nd_AlertInstanceID d = Some alertID -> due_repeat t0 now d) ->
  repeats_inv t0 now acc.2 ->
  repeats_inv t0 now (insert_delivery alertID EventRepeat template payload (timestamptz now) acc destination).2.
Proof.
  destruct acc as [ids t], destination as [[channel targetID] target]. simpl. intros Hd [Hr Hi].
  pose proof (is_fresh (n_issued t)) as Hfresh. split; simpl.
  - intros id d [[<- <-]|[Hne Hid]]%lookup_insert_Some; [|auto]. right. split; [|by apply Hd].
    destruct (n_delivery t0 !! _) eqn:E; [|done]. by apply Hi in E.
  - intros id d Hid. apply Hi in Hid. set_solver.
Qed.

Lemma enqueue_repeat_inv t0 now c :
  (forall d, nd_EventType d = EventRepeat -> nd_Status d = DeliveryPending -> nd_CreatedAt d = timestamptz now ->
     nd_AlertInstanceID d = Some (rc_AlertInstanceID c) -> due_repeat t0 now d) ->
  triple (repeats_inv t0 now) (enqueue_repeat now c) (fun _ => repeats_inv t0 now) (repeats_inv t0 now).
Proof.
  intros Hc. unfold enqueue_repeat. apply (triple_bind _ _ _ (fun _ => repeats_inv t0 now)).
  { apply triple_wrap. intros fs t Ht. destruct (FindActiveMaintenanceWindow_run (rc_InstanceID c) now fs t) as [Htab _]. unfold tables_after in Htab.
    destruct (FindActiveMaintenanceWindow (rc_InstanceID c) now fs t) as [[[a|e] t1] fs1]; simpl in *; by subst. }
  intros [window inMaintenance]. apply (triple_bind _ _ _ (fun _ => repeats_inv t0 now)).
  { apply triple_wrap, triple_statement; [done|]. intros t ids t' Ht Heff.
    assert (repeats_inv t0 now t') as Ht'; [|split; [exact Ht'|done]].
    destruct (selected_policy _ _ _) as [policyID|]; [injection Heff as Heff|by injection Heff as _ <-].
    assert (forall ds acc, repeats_inv t0 now acc.2 -> repeats_inv t0 now
      (foldl (insert_delivery (rc_AlertInstanceID c) EventRepeat (Some "builtin.notification.repeat.v1") (rc_Payload c)
        (timestamptz now)) acc ds).2) as Hfold.
    { induction ds as [|d ds IH]; intros acc Hacc; [done|]. by apply IH, insert_delivery_repeats. }
    specialize (Hfold (destinations t policyID) ([], t) Ht). by rewrite Heff in Hfold. }
  intros ids. destruct (negb _ && _); [|by apply triple_ret].
  apply (triple_bind _ _ _ (fun _ => repeats_inv t0 now)); [apply triple_for_each|intros []];
    [|apply (triple_bind _ _ _ (fun _ => repeats_inv t0 now)); [|intros []; by apply triple_ret]].
  - intros id _. apply triple_wrap, triple_exec; [done|]. intros t [Hr Hi]. destruct (is_pending t id); [|done].
    split; [|done]. intros i d Hd. apply Hr. simpl in Hd. by apply lookup_delete_Some in Hd as [_ ?].
  - apply triple_wrap, triple_exec; [done|]. intros t [Hr Hi]. unfold mark_suppressed.
    destruct (n_alert t !! _); by split.
Qed.

Lemma repeat_loop_inv t0 now cs n :
  (forall c d, c ∈ cs -> repeat_due now c = true -> nd_EventType d = EventRepeat -> nd_Status d = DeliveryPending ->
     nd_CreatedAt d = timestamptz now -> nd_AlertInstanceID d = Some (rc_AlertInstanceID c) -> due_repeat t0 now d) ->
  triple (repeats_inv t0 now) (repeat_loop now cs n) (fun _ => repeats_inv t0 now) (repeats_inv t0 now).
Proof.
  revert n. induction cs as [|c rest IH]; intros n Hcand; simpl; [by apply triple_ret|].
  assert (forall m, triple (repeats_inv t0 now) (repeat_loop now rest m) (fun _ => repeats_inv t0 now) (repeats_inv t0 now)) as Hrest.
  { intros m. apply IH. intros c' d' Hin. apply Hcand. by right. }
  destruct (repeat_due now c) eqn:Hdue; simpl; [|apply Hrest].
  apply (triple_bind _ _ _ (fun _ => repeats_inv t0 now)); [apply enqueue_repeat_inv|intros m; apply Hrest].
  intros d' ????. apply (Hcand c d'); try done. left.
Qed.

Lemma EnqueueDueRepeats_inv float8_text now t fs :
  (forall i e, n_delivery t !! i = Some e -> i ∈ n_issued t) ->
  repeats_inv t now (tables_after (EnqueueDueRepeats float8_text now) fs t).
Proof.
  intros Hiss. assert (repeats_inv t now t) as H0 by (split; [by left|exact Hiss]).
  unfold EnqueueDueRepeats, tables_after, mbind, DB_bind, wrap, query, statement.
  destruct (next_fate fs) as [[|e|e] fs1]; simpl; [|done..].
  apply (triple_tables (repeats_inv t now)); [|done].
  apply repeat_loop_inv. intros c d Hin. by apply (repeat_candidate_due float8_text).
Qed.

(** Under any faults, a run of the repeat scheduler adds only repeats that are
    due: each belongs to an alert that is firing, not acknowledged and without a
    pending delivery, whose notifications and suppressions are all at least the
    policy's repeat interval old; existing deliveries are never changed. *)
Theorem repeats_are_due (float8_text : float64 -> string) (now : Time) (fs : list fate) (t : NotifyTables)
    (id : string) (d : NotificationDelivery) :
  (forall i e, n_delivery t !! i = Some e -> i ∈ n_issued t) ->
  n_delivery (tables_after (EnqueueDueRepeats float8_text now) fs t) !! id = Some d ->
  n_delivery t !! id = Some d \/ n_delivery t !! id = None /\ due_repeat t now d.
Proof.
  intros Hiss Hd. exact (repeats_rows _ _ _ (EnqueueDueRepeats_inv float8_text now t fs Hiss) id d Hd).
Qed.

(** * The window in force *)

Lemma window_applies_spec instanceID at_ w :
  window_applies instanceID at_ w = true <->
  scope_Deleted w = false /\ scope_StartsAt w <= at_ < scope_EndsAt w /\ instanceID ∈ scope_InstanceIDs w.
Proof.
  unfold window_applies, Before, containsInstance. rewrite negb_true_iff, !orb_false_iff, !negb_false_iff, bool_decide_eq_true, Z.ltb_ge, Z.ltb_lt.
  intuition lia.
Qed.

(** [w] ends before [v], or with it and has the smaller id. *)
Definition ends_first (w v : MaintenanceWindowScope) : Prop :=
  scope_EndsAt w < scope_EndsAt v \/
  scope_EndsAt w = scope_EndsAt v /\ string_ltb (scope_ID v) (scope_ID w) = false.

Lemma ends_first_trans u v w : ends_first u v -> ends_first v w -> ends_first u w.
Proof.
  unfold ends_first. pose proof (string_ltb_neg_trans (scope_ID u) (scope_ID v) (scope_ID w)). intuition lia.
Qed.

(** [r] is the window to choose among [windows]. *)
Definition is_choice (instanceID : string) (at_ : Time) (windows : list MaintenanceWindowScope)
    (r : option MaintenanceWindowScope) : Prop :=
  match r with
  | None => forall w, w ∈ windows -> window_applies instanceID at_ w = false
  | Some w => w ∈ windows /\ window_applies instanceID at_ w = true /\
      forall v, v ∈ windows -> window_applies instanceID at_ v = true -> ends_first w v
  end.

Lemma ends_first_refl w : ends_first w w.
Proof. right. by rewrite string_ltb_irrefl. Qed.

Lemma window_step_choice instanceID at_ windows r w :
  is_choice instanceID at_ windows r -> is_choice instanceID at_ (windows ++ [w]) (window_step instanceID at_ r w).
Proof.
  intros Hr. unfold window_step. destruct (window_applies instanceID at_ w) eqn:Hw; simpl.
  - destruct r as [a|]; simpl in Hr.
    + destruct Hr as (Hin & Ha & Hmin). unfold Before.
      destruct ((scope_EndsAt w <? scope_EndsAt a) ||
        (bool_decide (scope_EndsAt w = scope_EndsAt a) && string_ltb (scope_ID w) (scope_ID a))) eqn:Hlt.
      * assert (ends_first w a) as Hwa.
        { apply orb_true_iff in Hlt as [?%Z.ltb_lt|[?%bool_decide_eq_true ?%string_ltb_asym]%andb_true_iff]; [by left|by right]. }
        split_and!; [set_solver|done|]. intros v [Hv| ->%list_elem_of_singleton]%elem_of_app Happ; [|apply ends_first_refl].
        eapply ends_first_trans; [exact Hwa|auto].
      * assert (ends_first a w) as Haw.
        { apply orb_false_iff in Hlt as [?%Z.ltb_ge Hlt]. destruct (decide (scope_EndsAt a = scope_EndsAt w)); [|left; lia].
          right. split; [done|]. by rewrite bool_decide_true in Hlt. }
        split_and!; [set_solver|done|]. intros v [Hv| ->%list_elem_of_singleton]%elem_of_app Happ; auto.
    + split_and!; [set_solver|done|]. intros v [Hv| ->%list_elem_of_singleton]%elem_of_app Happ; [|apply ends_first_refl].
      apply Hr in Hv. congruence.
  - destruct r as [a|]; simpl in *.
    + destruct Hr as (Hin & Ha & Hmin). split_and!; [set_solver|done|].
      intros v [Hv| ->%list_elem_of_singleton]%elem_of_app Happ; [auto|congruence].
    + intros v [Hv| ->%list_elem_of_singleton]%elem_of_app; auto.
Qed.

Lemma ActiveMaintenanceWindow_choice instanceID at_ windows :
  is_choice instanceID at_ windows (ActiveMaintenanceWindow instanceID at_ windows).
Proof.
  unfold ActiveMaintenanceWindow. induction windows as [|w windows IH] using rev_ind; [by intros w ?%elem_of_nil|].
  rewrite foldl_snoc. by apply window_step_choice.
Qed.

(** The maintenance window found for an instance is one that is not deleted,
    covers the instance and the time (its start included, its end excluded), and
    among those ends first, with the smaller id on a tie; none is found exactly
    when none applies. *)
Theorem ActiveMaintenanceWindow_spec (instanceID : string) (at_ : Time) (windows : list MaintenanceWindowScope) :
  match ActiveMaintenanceWindow instanceID at_ windows with
  | None => forall w, w ∈ windows -> scope_Deleted w = false -> instanceID ∈ scope_InstanceIDs w ->
              at_ < scope_StartsAt w \/ scope_EndsAt w <= at_
  | Some w => w ∈ windows /\ scope_Deleted w = false /\ scope_StartsAt w <= at_ < scope_EndsAt w /\
      instanceID ∈ scope_InstanceIDs w /\
      forall v, v ∈ windows -> scope_Deleted v = false -> scope_StartsAt v <= at_ < scope_EndsAt v ->
        instanceID ∈ scope_InstanceIDs v -> ends_first w v
  end.
Proof.
  pose proof (ActiveMaintenanceWindow_choice instanceID at_ windows) as H.
  destruct (ActiveMaintenanceWindow instanceID at_ windows) as [w|]; simpl in H.
  - destruct H as (Hin & (Hd & Ht & Hi)%window_applies_spec & Hmin). split_and!; try done || lia.
    intros v Hv ???. apply Hmin; [done|]. by apply window_applies_spec.
  - intros w Hw Hd Hi. specialize (H w Hw). apply not_true_iff_false in H. rewrite window_applies_spec in H.
    destruct (Z.lt_ge_cases at_ (scope_StartsAt w)), (Z.le_gt_cases (scope_EndsAt w) at_); [auto..|]. exfalso. naive_solver.
Qed.

(** * What becomes of a claimed delivery *)

Lemma RetryDelay_doubles n cap : 1 <= n <= 30 -> RetryDelay n cap = Z.min (2 ^ (n - 1) * Second) cap.
Proof.
  intros Hn. unfold RetryDelay. destruct (Z.leb_spec n 0); [lia|]. rewrite Z.shiftl_mul_pow2 by lia.
  assert (2 ^ (n - 1) <= 2 ^ 29) by (apply Z.pow_le_mono_r; lia).
  rewrite int64_id by (unfold in_int64, Second; lia).
  destruct (Z.ltb_spec cap (Second * 2 ^ (n - 1))); lia.
Qed.

(** The error of handing a delivery to its channel. *)
Definition send_error (channels : gmap string Channel) (d : NotificationDelivery) : option string :=
  match messageForDelivery d with
  | inr reason => Some reason
  | inl message =>
      match channels !! channel_key d with
      | None => Some ("notification channel " +:+ nd_Channel d +:+ " is unavailable")
      | Some channel => channel message
      end
  end.

(** The row of a claimed delivery after its attempt. *)
Definition settled (cap : Duration) (now : Time) (error : option string) (c : NotificationDelivery) : NotificationDelivery :=
  let attempts := nd_AttemptCount c + 1 in
  match error with
  | None => set_outcome DeliverySent attempts (nd_NextAttemptAt c) (Some (timestamptz now)) c
  | Some _ =>
      if 3 <=? attempts then set_outcome DeliveryFailed attempts (timestamptz now) (Some (timestamptz now)) c
      else set_outcome DeliveryPending attempts (timestamptz (now + Z.min (2 ^ (attempts - 1) * Second) cap)) None c
  end.

(** The attempt of a claimed delivery can be recorded. *)
Lemma claimed_attempt_recordable claims t c a :
  queue_inv claims t -> n_delivery t !! nd_ID c = Some c -> nd_Status c = DeliveryPending ->
  na_NotificationID a = nd_ID c -> na_RetryCount a = nd_AttemptCount c ->
  (forall reason, na_FailureReason a = Some reason -> not_blank reason = true) ->
  insert_attempt a t = Ok (alter_attempt (fun attempts => attempts ++ [a]) t).
Proof.
  intros Hi Hc Hp Hid Hr Hblank. destruct (queue_rows _ _ Hi _ _ Hc) as [_ Hst]. rewrite Hp in Hst.
  destruct Hst as (n & Hn & Hcount & Hlog). unfold insert_attempt. rewrite Hr, Hid, Hcount.
  destruct (Z.leb_spec 0 (Z.of_nat n)), (Z.leb_spec (Z.of_nat n) 2); try lia. simpl.
  assert ((match na_FailureReason a with Some reason => not_blank reason | None => true end) = true) as ->.
  { destruct (na_FailureReason a); auto. }
  simpl. rewrite bool_decide_false by (rewrite Hc; done). rewrite bool_decide_false; [done|].
  intros (b & Hb & Heq)%Exists_exists. injection Heq as Hbid Hbr.
  assert ((Z.of_nat n, na_Sent b) ∈ failures n) as Hin.
  { rewrite <-Hlog. unfold attempt_log. apply list_elem_of_fmap. exists b. rewrite Hbr. split; [done|].
    by apply list_elem_of_filter. }
  unfold failures in Hin. apply list_elem_of_fmap in Hin as (i & [= Hni _] & Hi'%elem_of_seq). lia.
Qed.

Lemma send_and_record_plain claims cap now channels c t :
  queue_inv claims t -> n_delivery t !! nd_ID c = Some c -> nd_Status c = DeliveryPending ->
  (forall reason, send_error channels c = Some reason -> not_blank reason = true) ->
  exists t', send_and_record cap now channels c [] t = (Ok true, t', []) /\
    n_delivery t' = <[nd_ID c := settled cap now (send_error channels c) c]> (n_delivery t).
Proof.
  intros Hi Hc Hp Hblank. set (error := send_error channels c) in *.
  assert (exists t1, send channels c [] t = (Ok error, t1, []) /\ n_delivery t1 = n_delivery t /\ queue_inv claims t1)
    as (t1 & Hsend & Hd1 & Hi1).
  { unfold send, error, send_error. destruct (messageForDelivery c) as [m|]; [|by exists t].
    destruct (channels !! channel_key c); [|by exists t]. eexists. split_and!; [done..|]. by apply (queue_inv_ext _ t). }
  assert (0 <= nd_AttemptCount c <= 2) as Hcount.
  { destruct (queue_rows _ _ Hi _ _ Hc) as [_ Hst]. rewrite Hp in Hst. destruct Hst as (n & ? & -> & _). lia. }
  unfold send_and_record. unfold mbind at 1, DB_bind at 1. rewrite Hsend, <-Hd1. rewrite <-Hd1 in Hc.
  destruct error as [reason|]; run_plain.
  - unfold RecordNotificationFailure, statement. cbn [next_fate].
    erewrite (claimed_attempt_recordable claims t1 c); [|done..|intros r [= <-]; by apply Hblank].
    eexists. split; [done|].
    destruct (complete_delivery_fields (nd_ID c)
      (set_outcome (if MaxAttempts <=? nd_AttemptCount c + 1 then DeliveryFailed else DeliveryPending) (nd_AttemptCount c + 1)
        (timestamptz (if MaxAttempts <=? nd_AttemptCount c + 1 then now else TimeAdd now (RetryDelay (nd_AttemptCount c + 1) cap)))
        (if MaxAttempts <=? nd_AttemptCount c + 1 then Some (timestamptz now) else None))
      (if MaxAttempts <=? nd_AttemptCount c + 1 then Some "NOTIFICATION_FAILED" else None) (timestamptz now)
      (alter_attempt (fun attempts => attempts ++ [MkNotificationAttempt (nd_ID c) (timestamptz now) false (Some reason)
        (nd_AttemptCount c)]) t1) c Hc Hp) as (E & _). simpl in E |- *. rewrite E. f_equal.
    unfold settled, MaxAttempts, TimeAdd. rewrite RetryDelay_doubles by lia. by destruct (3 <=? _).
  - unfold RecordNotificationSent, statement. cbn [next_fate].
    erewrite (claimed_attempt_recordable claims t1 c); [|done..].
    eexists. split; [done|].
    destruct (complete_delivery_fields (nd_ID c)
      (fun d => set_outcome DeliverySent (nd_AttemptCount c + 1) (nd_NextAttemptAt d) (Some (timestamptz now)) d)
      (Some "NOTIFICATION_SENT") (timestamptz now)
      (alter_attempt (fun attempts => attempts ++ [MkNotificationAttempt (nd_ID c) (timestamptz now) true None
        (nd_AttemptCount c)]) t1) c Hc Hp) as (E & _). simpl in E |- *. by rewrite E.
Qed.

Lemma deliver_plain claims cap now channels c t :
  queue_inv claims t -> n_delivery t !! nd_ID c = Some c -> nd_Status c = DeliveryPending ->
  (forall reason, send_error channels c = Some reason -> not_blank reason = true) ->
  (forall alertID alert, nd_AlertInstanceID c = Some alertID -> n_alert t !! alertID = Some alert ->
     active_window (ai_InstanceID alert) now t = None) ->
  exists t', deliver cap now channels c [] t = (Ok true, t', []) /\
    n_delivery t' = <[nd_ID c := settled cap now (send_error channels c) c]> (n_delivery t).
Proof.
  intros Hi Hc Hp Hblank Hact.
  destruct (send_and_record_plain claims cap now channels c t Hi Hc Hp Hblank) as (t' & Hrun & Hd').
  exists t'. split; [|done]. rewrite <-Hrun. unfold deliver. unfold mbind at 1, DB_bind at 1, attempt.
  unfold GetNotificationAlertInstance, statement. cbn [next_fate]. rewrite Hc. simpl.
  destruct (nd_AlertInstanceID c) as [alertID|] eqn:Ha; simpl; [|done].
  destruct (n_alert t !! alertID) as [alert|] eqn:Hal; simpl; [|done].
  specialize (Hact alertID alert eq_refl Hal). unfold active_window in Hact.
  unfold mbind at 1, DB_bind at 1, wrap at 1, FindActiveMaintenanceWindow. unfold mbind at 1, DB_bind at 1, query, statement.
  cbn [next_fate]. rewrite Hact. simpl. by rewrite ShouldDeliver_maintenance.
Qed.

(** On a server without faults a claimed delivery outside maintenance is
    settled by one dispatch: sent when its channel takes the message, failed for
    good after the third failure, and otherwise retried after one second doubled
    per failure up to the cap; no other delivery changes. *)
Theorem dispatch_settles_delivery (cap : Duration) (now : Time) (channels : gmap string Channel) (t t1 : NotifyTables)
    (c : NotificationDelivery) :
  queue_inv [] t -> plain (ClaimDueNotification now) t = (Ok c, t1) ->
  (forall reason, send_error channels c = Some reason -> not_blank reason = true) ->
  (forall alertID alert, nd_AlertInstanceID c = Some alertID -> n_alert t !! alertID = Some alert ->
     active_window (ai_InstanceID alert) now t = None) ->
  exists t', plain (DispatchOne cap now channels) t = (Ok true, t') /\
    n_delivery t' = <[nd_ID c := settled cap now (send_error channels c) c]> (n_delivery t).
Proof.
  intros Hi Hclaim Hblank Hact. pose proof (ClaimDueNotification_plain now t) as H. rewrite Hclaim in H.
  destruct H as (d & id & Hid & Hdue & -> & -> & _). destruct (queue_rows _ _ Hi id d Hid) as [<- _].
  pose proof (ClaimDueNotification_queue [] now [] t Hi) as Hi1. unfold plain in *.
  destruct (ClaimDueNotification now [] t) as [[r t2] fs] eqn:Hrun. simpl in Hclaim, Hi1. injection Hclaim as -> ->.
  assert (fs = []) as -> by (unfold ClaimDueNotification, statement in Hrun; simpl in Hrun; destruct (sort_by _ _); by simplify_eq).
  destruct (deliver_plain _ cap now channels (relocked now d) _ Hi1) as (t' & Hdel & Hd').
  - apply lookup_insert_eq.
  - unfold delivery_due in Hdue. by case_bool_decide.
  - exact Hblank.
  - exact Hact.
  - exists t'. unfold DispatchOne, mbind, DB_bind, attempt. rewrite Hrun. simpl in Hdel. rewrite Hdel. split; [done|].
    rewrite Hd'. simpl. by rewrite insert_insert_eq.
Qed.

(** * Witnesses *)

Module Demo.
Definition alert : AlertInstance :=
  MkAlertInstance "i1" "pg.connection.active" FIRING 3 0 0 None None 0 "a1" "r1" 1 "critical" None
    (<["name" := JString "connections"]> ∅) "{}" (Some 0) (Some 1) None None "NONE" false None.

Definition rule : AlertRule :=
  MkAlertRule "connections" "pg.connection.active" "latest" ">" (f64_of_Z 90) "<" (f64_of_Z 80) 60 3 2 "critical" "no_data"
    1 true None "ALL" 15 None.

Definition payload : jsonb := encode_payload (MkAlertPayload "a1" "connections" "db-1" "pg.connection.active" "critical" "95").

(** One firing alert, a default policy over SMTP to one recipient, a window later
    in the day, and an empty queue. *)
Definition start : NotifyTables :=
  MkNotifyTables {["a1" := alert]} [] {["r1" := rule]} {["i1" := "db-1"]}
    {["p1" := MkNotificationPolicy true ["critical"] true true 900]} [MkNotificationPolicyChannel "p1" "SMTP" None]
    [] [] [] ∅ (Some (true, "ops@example.com")) ∅
    [MkMaintenanceWindow "w1" (100 * Hour) (101 * Hour) None] [("w1", "i1")] ∅ [] ∅ [].

(** A channel that takes everything and one that is down. *)
Definition up : gmap string Channel := {["SMTP" := fun _ => None]}.
Definition down : gmap string Channel := {["SMTP" := fun _ => Some "connection refused"]}.

Definition queued : NotifyTables :=
  tables_after (EnqueueAlertNotifications "a1" EventFiring (Some "builtin.notification.firing.v1") payload Second) [] start.

Definition delivery_id : string := fresh (∅ : gset string).

Definition failed_once : NotifyTables := tables_after (DispatchOne (5 * Second) (2 * Second) down) [] queued.

Definition row : NotificationDelivery :=
  MkNotificationDelivery delivery_id (Some "a1") EventFiring "SMTP" "ops@example.com" (Some "builtin.notification.firing.v1")
    payload DeliveryPending 0 Second None Second None None.

Lemma queued_rows : n_delivery queued = {[delivery_id := row]}.
Proof. vm_compute. reflexivity. Qed.

Lemma queued_inv : queue_inv [] queued.
Proof.
  apply (queue_reachable_inv start (queued, [])); [reflexivity|reflexivity|]. apply rtc_once, step_enqueue.
Qed.

(** After the delivery was sent. *)
Definition sent : NotifyTables := tables_after (DispatchOne (5 * Second) (2 * Second) up) [] queued.

Lemma sent_inv : queue_inv [] sent.
Proof.
  apply (queue_step_inv (queued, []) (sent, [])); [|exact queued_inv]. apply step_dispatch.
Qed.

Definition repeat_id : string := fresh ({[delivery_id]} : gset string).

(** After the repeat scheduler ran at [now]. *)
Definition repeats_after (now : Time) : NotifyTables := tables_after (EnqueueDueRepeats (fun _ => "95") now) [] sent.

Lemma queued_keyed : keyed queued.
Proof. intros id d Hd. by apply (queue_rows _ _ queued_inv). Qed.

Lemma queued_claim : (plain (ClaimDueNotification (2 * Second)) queued).1 = Ok (relocked (2 * Second) row).
Proof. vm_compute. reflexivity. Qed.
End Demo.

Lemma delivery_attempts_accounted_witness :
  exists d, n_delivery Demo.failed_once !! Demo.delivery_id = Some d /\ nd_Status d = DeliveryPending /\
    nd_NextAttemptAt d = 3 * Second /\ attempt_log Demo.failed_once Demo.delivery_id = [(0, false)] /\
    nd_AttemptCount d = Z.of_nat (length (attempt_log Demo.failed_once Demo.delivery_id)).
Proof.
  destruct (n_delivery Demo.failed_once !! Demo.delivery_id) as [d|] eqn:E.
  2:{ vm_compute in E. discriminate. }
  destruct (delivery_attempts_accounted Demo.start Demo.failed_once [] Demo.delivery_id d) as (_ & H & _);
    [reflexivity|reflexivity| |exact E|].
  - eapply rtc_l; [apply step_enqueue|]. apply rtc_once. apply (step_dispatch (5 * Second) (2 * Second) Demo.down [] Demo.queued).
  - exists d. split; [done|]. vm_compute in E. injection E as <-. split_and!; [reflexivity|vm_compute; reflexivity|vm_compute; reflexivity|exact H].
Defined.

Lemma claims_are_exclusive_witness :
  exists t', plain (ClaimDueNotification (2 * Second)) Demo.queued = (Ok (relocked (2 * Second) Demo.row), t') /\
    forall later e t'', timestamptz later < timestamptz (2 * Second) + claim_lock ->
      plain (ClaimDueNotification later) t' = (Ok e, t'') -> nd_ID e <> Demo.delivery_id.
Proof.
  pose proof (claims_are_exclusive Demo.queued (2 * Second) Demo.queued_keyed) as H. pose proof Demo.queued_claim as Hc.
  destruct (plain (ClaimDueNotification (2 * Second)) Demo.queued) as [r t']. simpl in Hc. subst r.
  destruct H as (d & _ & _ & Heq & _ & _ & Hexcl). exists t'. split; [done|].
  intros later e t'' Hl He. change (nd_ID e <> nd_ID (relocked (2 * Second) Demo.row)).
  rewrite Heq. exact (Hexcl later e t'' Hl He).
Defined.

Lemma dispatch_respects_maintenance_witness :
  let t' := tables_after (DispatchOne (5 * Second) (2 * Second) Demo.up) [] Demo.queued in
  length (n_outbox t') = 1%nat /\ (n_outbox t' = n_outbox Demo.queued \/ exists d, delivery_due (timestamptz (2 * Second)) d = true).
Proof.
  split; [vm_compute; reflexivity|].
  destruct (dispatch_respects_maintenance (5 * Second) (2 * Second) Demo.up [] Demo.queued Demo.queued_keyed) as [H|(d & m & _ & H & _)].
  - by left.
  - right. by exists d.
Defined.

Lemma dispatch_settles_delivery_witness :
  exists t', plain (DispatchOne (5 * Second) (2 * Second) Demo.up) Demo.queued = (Ok true, t') /\
    n_delivery t' = <[Demo.delivery_id := set_outcome DeliverySent 1 Second (Some (2 * Second)) Demo.row]> (n_delivery Demo.queued).
Proof.
  pose proof Demo.queued_claim as Hc.
  destruct (plain (ClaimDueNotification (2 * Second)) Demo.queued) as [r t1] eqn:E. simpl in Hc. subst r.
  apply (dispatch_settles_delivery (5 * Second) (2 * Second) Demo.up Demo.queued t1 (relocked (2 * Second) Demo.row)
    Demo.queued_inv E).
  - intros reason H. vm_compute in H. discriminate.
  - intros alertID alert [= <-] Ha. replace alert with Demo.alert; [vm_compute; reflexivity|].
    assert (n_alert Demo.queued !! "a1" = Some Demo.alert) as Hd by (vm_compute; reflexivity). congruence.
Defined.

Lemma repeats_are_due_witness :
  n_delivery (Demo.repeats_after (10 * Minute)) = n_delivery (Demo.repeats_after 0) /\
  exists id d, n_delivery (Demo.repeats_after (30 * Minute)) !! id = Some d /\ due_repeat Demo.sent (30 * Minute) d.
Proof.
  split; [vm_compute; reflexivity|].
  exists Demo.repeat_id.
  destruct (n_delivery (Demo.repeats_after (30 * Minute)) !! Demo.repeat_id) as [d|] eqn:E.
  2:{ vm_compute in E. discriminate. }
  exists d. split; [done|].
  destruct (repeats_are_due (fun _ => "95") (30 * Minute) [] Demo.sent Demo.repeat_id d) as [H|[_ H]]; [|exact E| |exact H].
  - exact (queue_issued _ _ Demo.sent_inv).
  - vm_compute in H. discriminate.
Defined.
