(* ===== verification/Evaluator.v ===== *)
(** The alert evaluator ([internal/evaluator/service.go], the persistence of
    [evaluator/trigger_snapshot.go]) with the statements of
    [internal/alerting/queries.sql.go] it runs: the rule's target is read, its
    metric judged, the stored snapshot stepped, and the alert row, the trigger
    snapshot, the events and the notifications written in one transaction per
    instance. What a monitored server answers when a trigger snapshot is taken
    and the texts of numbers are arguments. *)

From S2P Require Import Prelude Db AlertState AlertEvaluation Dictionary Catalog ControlPlane TriggerSnapshot Notify.

(** * Performance events *)

Inductive PerformanceEventType : Type :=
  | PerformanceEventLockBlocking
  | PerformanceEventLongTransaction
  | PerformanceEventIdleInTransaction
  | PerformanceEventActiveSessionsHigh
  | PerformanceEventReplicationLag
  | PerformanceEventTempFilesSurge.

Definition PerformanceEventTypeForMetric (metricID : string) : option PerformanceEventType :=
  if bool_decide (metricID = "pg.lock.waiting_count") || bool_decide (metricID = "pg.session.blocked_count")
  then Some PerformanceEventLockBlocking
  else if bool_decide (metricID = "pg.transaction.long_count") || bool_decide (metricID = "pg.transaction.max_duration_sec")
  then Some PerformanceEventLongTransaction
  else if bool_decide (metricID = "pg.connection.idle_in_transaction") then Some PerformanceEventIdleInTransaction
  else if bool_decide (metricID = "pg.connection.active") then Some PerformanceEventActiveSessionsHigh
  else if bool_decide (metricID = "pg.replication.wal_lag_bytes") then Some PerformanceEventReplicationLag
  else if bool_decide (metricID = "pg.temp.files_per_sec") || bool_decide (metricID = "pg.temp.bytes_per_sec")
  then Some PerformanceEventTempFilesSurge
  else None.

(** * Tables *)

(** The columns of [instance] and [instance_collection_config] the evaluator
    reads. *)
Record EvalInstance : Type := MkEvalInstance {
  inst_Name : string;
  inst_Engine : Engine;
  inst_AgentExpected : bool;
}.

Record EvalConfig : Type := MkEvalConfig {
  config_Paused : bool;
  config_AgentMetricsEnabled : bool;
}.

(** [instance_collect_state] of a source. *)
Record SourceState : Type := MkSourceState {
  src_LastSuccessAt : option Time;
  src_LastReportAt : option Time;
  src_LastErrorCode : option string;
}.

Record SeriesRow : Type := MkSeriesRow {
  series_ID : Z;
  series_InstanceID : string;
  series_MetricID : MetricID;
  series_DatabaseName : string;
  series_LabelsKey : string;
}.

Record SampleRow : Type := MkSampleRow {
  sample_SeriesID : Z;
  sample_Ts : Time;
  sample_Value : float64;
}.

(** [alert_trigger_snapshot], keyed by its id. *)
Record TriggerSnapshotRow : Type := MkTriggerSnapshotRow {
  snapshot_AlertInstanceID : string;
  snapshot_CapturedAt : Time;
  snapshot_Result : string;
  snapshot_FailureReason : option string;
  snapshot_OriginalMatchCount : Z;
  snapshot_Truncated : bool;
}.

(** The tables; [e_notify] holds the alerts, their events and the notifications. *)
Record EvalTables : Type := MkEvalTables {
  e_notify : NotifyTables;
  e_instance : gmap string EvalInstance;
  e_config : gmap string EvalConfig;
  e_source : gmap (string * string) SourceState;
  e_rule_version : gmap (string * Z) jsonb;
  e_catalog : list Metric;
  e_scope : list (string * string);
  e_evaluated : gmap (string * string * string) Time;
  e_series : list SeriesRow;
  e_sample : list SampleRow;
  e_trigger_snapshot : gmap string TriggerSnapshotRow;
  e_trigger_session : list (string * TriggerSession);
  e_performance_event : gmap string (PerformanceEventType * Time);
}.

Definition alter_notify (f : NotifyTables -> NotifyTables) (t : EvalTables) : EvalTables :=
  MkEvalTables (f (t.(e_notify))) t.(e_instance) t.(e_config) t.(e_source) t.(e_rule_version) t.(e_catalog) t.(e_scope) t.(e_evaluated) t.(e_series) t.(e_sample) t.(e_trigger_snapshot) t.(e_trigger_session) t.(e_performance_event).

Definition alter_evaluated (f : gmap (string * string * string) Time -> gmap (string * string * string) Time) (t : EvalTables) : EvalTables :=
  MkEvalTables t.(e_notify) t.(e_instance) t.(e_config) t.(e_source) t.(e_rule_version) t.(e_catalog) t.(e_scope) (f (t.(e_evaluated))) t.(e_series) t.(e_sample) t.(e_trigger_snapshot) t.(e_trigger_session) t.(e_performance_event).

Definition alter_trigger_snapshot (f : gmap string TriggerSnapshotRow -> gmap string TriggerSnapshotRow) (t : EvalTables) : EvalTables :=
  MkEvalTables t.(e_notify) t.(e_instance) t.(e_config) t.(e_source) t.(e_rule_version) t.(e_catalog) t.(e_scope) t.(e_evaluated) t.(e_series) t.(e_sample) (f (t.(e_trigger_snapshot))) t.(e_trigger_session) t.(e_performance_event).

Definition alter_trigger_session (f : list (string * TriggerSession) -> list (string * TriggerSession)) (t : EvalTables) : EvalTables :=
  MkEvalTables t.(e_notify) t.(e_instance) t.(e_config) t.(e_source) t.(e_rule_version) t.(e_catalog) t.(e_scope) t.(e_evaluated) t.(e_series) t.(e_sample) t.(e_trigger_snapshot) (f (t.(e_trigger_session))) t.(e_performance_event).

Definition alter_performance_event (f : gmap string (PerformanceEventType * Time) -> gmap string (PerformanceEventType * Time)) (t : EvalTables) : EvalTables :=
  MkEvalTables t.(e_notify) t.(e_instance) t.(e_config) t.(e_source) t.(e_rule_version) t.(e_catalog) t.(e_scope) t.(e_evaluated) t.(e_series) t.(e_sample) t.(e_trigger_snapshot) t.(e_trigger_session) (f (t.(e_performance_event))).

(** A computation of the notification package inside the evaluator's
    transaction. *)
Definition in_notify {A} (m : DB NotifyTables A) : DB EvalTables A :=
  focus e_notify (fun n t => alter_notify (fun _ => n) t) m.

(** * Reading the target *)

Record GetEvaluationTargetRow : Type := MkEvaluationTarget {
  et_RuleID : string;
  et_MetricID : MetricID;
  et_Aggregation : string;
  et_Operator : string;
  et_Threshold : float64;
  et_RecoveryOperator : string;
  et_RecoveryThreshold : float64;
  et_WindowSeconds : Z;
  et_ConsecutiveCount : Z;
  et_RecoveryConsecutiveCount : Z;
  et_Severity : string;
  et_NoDataPolicy : string;
  et_Version : Z;
  et_RuleSnapshot : jsonb;
  et_InstanceID : string;
  et_LastErrorCode : option string;
  et_AlertInstanceID : option string;
  et_Status : State;
  et_EvaluatedRuleVersion : Z;
  et_BreachCount : Z;
  et_RecoveryCount : Z;
  et_NoDataCount : Z;
  et_StateBeforeNoData : option State;
  et_AgentMetricsEnabled : bool;
  et_AgentExpected : bool;
}.

(** The order of the candidates: unresolved first, then the last updated. *)
Definition candidateLess (a b : AlertInstance) : bool :=
  let unresolved x := negb (bool_decide (ai_Status x = RECOVERED)) in
  (unresolved a && negb (unresolved b)) ||
  (Bool.eqb (unresolved a) (unresolved b) && (ai_UpdatedAt b <? ai_UpdatedAt a)).

Definition alert_key (a : AlertInstance) : string * string * string :=
  (ai_RuleID a, ai_InstanceID a, ai_MetricDimensionKey a).

Definition candidate_alert (key : string * string * string) (alerts : gmap string AlertInstance) : option AlertInstance :=
  head (sort_by candidateLess (filter (fun a => alert_key a = key) ((map_to_list alerts).*2))).

Definition evaluation_target (ruleID instanceID dimension : string) (t : EvalTables) : option GetEvaluationTargetRow :=
  rule ← n_rule (e_notify t) !! ruleID;
  snapshot ← e_rule_version t !! (ruleID, rule_Version rule);
  inst ← e_instance t !! instanceID;
  if rule_Enabled rule && bool_decide (rule_DeletedAt rule = None) then
    let alert := candidate_alert (ruleID, instanceID, dimension) (n_alert (e_notify t)) in
    Some (MkEvaluationTarget ruleID
      (default (rule_MetricID rule) (head (resolved_rows (e_catalog t) (rule_MetricID rule) (inst_Engine inst))))
      (rule_Aggregation rule) (rule_Operator rule) (rule_Threshold rule) (rule_RecoveryOperator rule)
      (rule_RecoveryThreshold rule) (rule_WindowSeconds rule) (rule_ConsecutiveCount rule)
      (rule_RecoveryConsecutiveCount rule) (rule_Severity rule) (rule_NoDataPolicy rule) (rule_Version rule) snapshot
      instanceID (e_source t !! (instanceID, "SERVER_DIRECT") ≫= src_LastErrorCode)
      (ai_ID <$> alert) (default OK (ai_Status <$> alert)) (default 0 (ai_RuleVersion <$> alert))
      (default 0 (ai_BreachCount <$> alert)) (default 0 (ai_RecoveryCount <$> alert)) (default 0 (ai_NoDataCount <$> alert))
      (alert ≫= ai_StateBeforeNoData)
      (default true (config_AgentMetricsEnabled <$> e_config t !! instanceID)) (inst_AgentExpected inst))
  else None.

Definition GetEvaluationTarget (ruleID instanceID dimension : string) : DB EvalTables GetEvaluationTargetRow :=
  statement (fun t =>
    match evaluation_target ruleID instanceID dimension t with
    | Some target => Ok (target, t)
    | None => Err ErrNoRows
    end).

Definition snapshotFromEvaluationTarget (target : GetEvaluationTargetRow) : Snapshot :=
  match et_AlertInstanceID target with
  | None => InitialSnapshot
  | Some _ =>
      let before := default NoState (et_StateBeforeNoData target) in
      if bool_decide (et_EvaluatedRuleVersion target = et_Version target)
      then MkSnapshot (et_Status target) before (et_BreachCount target) (et_RecoveryCount target) (et_NoDataCount target)
      else MkSnapshot (et_Status target) before 0 0 0
  end.

Definition collectionFailureBlocksSamples (metricID : MetricID) (lastErrorCode : option string) : bool :=
  HasPrefix metricID "pg." && negb (bool_decide (metricID = MetricAvailabilityReachable)) &&
  bool_decide (is_Some lastErrorCode).

Definition structurallyNotApplicable (metricID : MetricID) (lastErrorCode : option string)
    (agentMetricsEnabled agentExpected : bool) : bool :=
  if bool_decide (lastErrorCode = Some "NOT_APPLICABLE_ROLE") then true
  else if agentMetricsEnabled && agentExpected then false
  else if bool_decide (metricID = MetricAgentStatus) then true
  else
    match LookupIn Metrics metricID with
    | Some definition => bool_decide (metric_Producer definition = ProducerAgent)
    | None => false
    end.

(** * Judging the metric *)

Record metricEvaluation : Type := MkMetricEvaluation {
  me_outcome : Evaluation;
  me_currentValue : option float64;
  me_unavailability : option string;
}.

(** The times, latest first, that have a row in [rows]. *)
Definition times_desc (rows : list (Time * float64)) : list Time :=
  sort_by (fun a b => b <? a) (remove_dups (rows.*1)).

Definition f64_sum (values : list float64) : float64 :=
  match values with
  | [] => f64_of_Z 0
  | v :: rest => foldl f64_add v rest
  end.

Definition at_time (ts : Time) (rows : list (Time * float64)) : list float64 :=
  (filter (fun r => r.1 = ts) rows).*2.

(** Stored samples are finite and their sums stay in the range of double
    precision, where SQL and binary64 arithmetic agree; a sum is taken in the order
    of the rows. *)

(** The samples of the series of an instance, metric and dimension in the
    window. *)
Definition window_samples (t : EvalTables) (instanceID : string) (metricID : MetricID) (dimension : string)
    (windowStart windowEnd : Time) : list (SeriesRow * SampleRow) :=
  series ← filter (fun s => series_InstanceID s = instanceID /\ series_MetricID s = metricID /\
                            series_LabelsKey s = dimension) (e_series t);
  sample ← filter (fun s => sample_SeriesID s = series_ID series /\ windowStart < sample_Ts s /\
                            sample_Ts s <= windowEnd) (e_sample t);
  [(series, sample)].

Definition SamplesInRuleWindow (instanceID : string) (metricID : MetricID) (dimension : string)
    (windowStart windowEnd : Time) (t : EvalTables) : list Point :=
  let rows := (fun p => (sample_Ts p.2, sample_Value p.2)) <$>
    window_samples t instanceID metricID dimension (timestamptz windowStart) (timestamptz windowEnd) in
  (fun ts => MkPoint ts (f64_sum (at_time ts rows))) <$> times_desc rows.

(** The weights of a sample: the samples of the weight metric of the same
    database and dimension at the same time that are not negative. *)
Definition sample_weights (t : EvalTables) (weightMetricID : MetricID) (series : SeriesRow) (sample : SampleRow)
    : list float64 :=
  weight_series ← filter (fun s => series_InstanceID s = series_InstanceID series /\ series_MetricID s = weightMetricID /\
                                   series_DatabaseName s = series_DatabaseName series /\
                                   series_LabelsKey s = series_LabelsKey series) (e_series t);
  weight ← filter (fun s => sample_SeriesID s = series_ID weight_series /\ sample_Ts s = sample_Ts sample /\
                            (f64_of_Z 0 <=? sample_Value s)%f64 = true) (e_sample t);
  [sample_Value weight].

Definition WeightedSamplesInRuleWindow (instanceID : string) (metricID weightMetricID : MetricID) (dimension : string)
    (windowStart windowEnd : Time) (t : EvalTables) : list Point :=
  let rows := '(series, sample) ← window_samples t instanceID metricID dimension (timestamptz windowStart) (timestamptz windowEnd);
              (fun weight => (sample_Ts sample, (sample_Value sample * weight)%f64, weight)) <$> sample_weights t weightMetricID series sample in
  omap (fun ts =>
    let total := f64_sum (at_time ts ((fun r => (r.1.1, r.2)) <$> rows)) in
    if (f64_of_Z 0 <? total)%f64
    then Some (MkPoint ts (f64_sum (at_time ts (rows.*1)) / total)%f64) else None) (times_desc (rows.*1)).

Definition ruleWindowPoints (target : GetEvaluationTargetRow) (metricID : MetricID) (dimension : string) (now : Time)
    (window : Duration) : DB EvalTables (list Point) :=
  match WeightMetricFor Metrics metricID with
  | Some weightMetric =>
      wrap "read weighted rule samples" (query
        (WeightedSamplesInRuleWindow (et_InstanceID target) (et_MetricID target) weightMetric dimension
           (TimeAdd now (- window)) now))
  | None =>
      wrap "read rule samples" (query
        (SamplesInRuleWindow (et_InstanceID target) (et_MetricID target) dimension (TimeAdd now (- window)) now))
  end.

(** The row of [ReadControlPlaneFacts]. *)
Definition control_plane_row (instanceID : string) (t : EvalTables) : option ControlPlaneRow :=
  inst ← e_instance t !! instanceID;
  config ← e_config t !! instanceID;
  let server := e_source t !! (instanceID, "SERVER_DIRECT") in
  let agent := e_source t !! (instanceID, "AGENT") in
  Some (MkControlPlaneRow (inst_AgentExpected inst) (config_AgentMetricsEnabled config)
    (server ≫= src_LastSuccessAt) (server ≫= src_LastErrorCode) (agent ≫= src_LastReportAt) (agent ≫= src_LastErrorCode)).

Definition read_control_plane (instanceID : string) : DB EvalTables ControlPlaneFacts :=
  statement (fun t =>
    facts ← ReadControlPlaneFacts (match control_plane_row instanceID t with Some row => Ok row | None => Err ErrNoRows end);
    Ok (facts, t)).

Definition controlPlaneRuleValue (metricID : MetricID) (projection : ControlPlaneProjection) (now : Time) : float64 :=
  if bool_decide (metricID = MetricCollectorLastSuccessTime)
  then Seconds (TimeSub now (Z_of_f64 (projection_Value projection) * Second))
  else projection_Value projection.

(** A value compared with the rule. *)
Definition judged (target : GetEvaluationTargetRow) (value : float64) : metricEvaluation :=
  MkMetricEvaluation (Evaluate value (et_Operator target) (et_Threshold target) (et_RecoveryOperator target)
    (et_RecoveryThreshold target)) (Some value) None.

Definition evaluateMetric (target : GetEvaluationTargetRow) (dimension : string) (now : Time)
    : DB EvalTables metricEvaluation :=
  let missing := MkMetricEvaluation Missing None (Some "NO_SAMPLES_YET") in
  let metricID := et_MetricID target in
  if bool_decide (ProducerFor Metrics metricID = ProducerControlPlane) then
    facts ← wrap "read control-plane metric facts" (read_control_plane (et_InstanceID target));
    match ProjectControlPlaneMetric metricID facts now with
    | None => mret missing
    | Some projection => mret (judged target (controlPlaneRuleValue metricID projection now))
    end
  else if collectionFailureBlocksSamples metricID (et_LastErrorCode target) then
    mret (MkMetricEvaluation Missing None (et_LastErrorCode target))
  else
    let window := et_WindowSeconds target * Second in
    points ← ruleWindowPoints target metricID dimension now window;
    match AggregateWindow points now window (et_Aggregation target) with
    | None => mret missing
    | Some value => mret (judged target value)
    end.

(** * Writing the alert *)

Record SaveAlertSnapshotParams : Type := MkSaveParams {
  sp_RuleID : string;
  sp_InstanceID : string;
  sp_MetricID : string;
  sp_MetricDimensionKey : string;
  sp_Status : State;
  sp_RuleVersion : Z;
  sp_Severity : string;
  sp_CurrentValue : option float64;
  sp_RuleSnapshot : jsonb;
  sp_BreachCount : Z;
  sp_RecoveryCount : Z;
  sp_NoDataCount : Z;
  sp_StateBeforeNoData : option State;
  sp_Unavailability : option string;
  sp_UpdatedAt : Time;
  sp_FirstTriggeredAt : option Time;
  sp_FirstRuleVersion : option Z;
  sp_FirstRuleSnapshot : option jsonb;
  sp_RecoveredAt : option Time;
  sp_InMaintenance : bool;
  sp_MaintenanceWindowID : option string;
}.

(** [COALESCE(a, b)] *)
Definition coalesce {A} (a b : option A) : option A := match a with Some _ => a | None => b end.

(** The row inserted under a new id, and the row an existing unresolved alert is
    updated to. *)
Definition inserted_alert (id : string) (p : SaveAlertSnapshotParams) : AlertInstance :=
  MkAlertInstance (sp_InstanceID p) (sp_MetricID p) (sp_Status p) (sp_BreachCount p) (sp_RecoveryCount p) (sp_NoDataCount p)
    (sp_StateBeforeNoData p) (sp_Unavailability p) (sp_UpdatedAt p) id (sp_RuleID p) (sp_RuleVersion p) (sp_Severity p)
    (sp_CurrentValue p) (sp_RuleSnapshot p) (sp_MetricDimensionKey p) (sp_FirstTriggeredAt p) (sp_FirstRuleVersion p)
    (sp_FirstRuleSnapshot p) (sp_RecoveredAt p) "NONE" (sp_InMaintenance p) (sp_MaintenanceWindowID p).

Definition updated_alert (p : SaveAlertSnapshotParams) (a : AlertInstance) : AlertInstance :=
  MkAlertInstance (ai_InstanceID a) (sp_MetricID p) (sp_Status p) (sp_BreachCount p) (sp_RecoveryCount p) (sp_NoDataCount p)
    (sp_StateBeforeNoData p) (sp_Unavailability p) (sp_UpdatedAt p) (ai_ID a) (ai_RuleID a) (sp_RuleVersion p)
    (sp_Severity p) (sp_CurrentValue p) (sp_RuleSnapshot p) (ai_MetricDimensionKey a)
    (coalesce (ai_FirstTriggeredAt a) (sp_FirstTriggeredAt p)) (coalesce (ai_FirstRuleVersion a) (sp_FirstRuleVersion p))
    (coalesce (ai_FirstRuleSnapshot a) (sp_FirstRuleSnapshot p)) (sp_RecoveredAt p) (ai_Disposition a)
    (sp_InMaintenance p) (sp_MaintenanceWindowID p).

(** The CHECK constraints of [alert_instance] on what the evaluator writes. *)
Definition alert_checks (a : AlertInstance) : bool :=
  bool_decide (ai_Status a <> NoState) && (0 <=? ai_BreachCount a) && (0 <=? ai_RecoveryCount a) && (0 <=? ai_NoDataCount a) &&
  match ai_StateBeforeNoData a with
  | None => true
  | Some s => bool_decide (s = OK \/ s = PENDING \/ s = FIRING)
  end &&
  match ai_FirstRuleVersion a with None => true | Some version => 0 <? version end.

(** The unresolved alert of a key: the partial unique index
    [alert_instance_unresolved_dedup_idx]. *)
Definition unresolved_alert (key : string * string * string) (alerts : gmap string AlertInstance) : option AlertInstance :=
  head (filter (fun a => alert_key a = key /\ ai_Status a <> RECOVERED) ((map_to_list alerts).*2)).

Definition write_alert (id : string) (row : AlertInstance) (t : EvalTables) : result (string * EvalTables) :=
  if alert_checks row then Ok (id, alter_notify (alter_alert <[id := row]>) t) else Err (ErrPg "23514").

Definition SaveAlertSnapshot (p : SaveAlertSnapshotParams) : DB EvalTables string :=
  statement (fun t =>
    match unresolved_alert (sp_RuleID p, sp_InstanceID p, sp_MetricDimensionKey p) (n_alert (e_notify t)) with
    | Some a => write_alert (ai_ID a) (updated_alert p a) t
    | None =>
        let id := fresh (n_issued (e_notify t)) in
        write_alert id (inserted_alert id p) (alter_notify (alter_issued (fun issued => {[id]} ∪ issued)) t)
    end).

(** [UPDATE alert_instance ... WHERE id = $1 AND status <> 'RECOVERED'] *)
Definition update_unresolved (id : option string) (f : AlertInstance -> AlertInstance) (t : EvalTables)
    : result (option string * EvalTables) :=
  match (id ≫= fun i => n_alert (e_notify t) !! i) with
  | Some a =>
      if bool_decide (ai_Status a = RECOVERED) then Ok (None, t)
      else '(i, t') ← write_alert (ai_ID a) (f a) t; Ok (Some i, t')
  | None => Ok (None, t)
  end.

Definition recovered_alert (p : SaveAlertSnapshotParams) (a : AlertInstance) : AlertInstance :=
  MkAlertInstance (ai_InstanceID a) (sp_MetricID p) RECOVERED (sp_BreachCount p) (sp_RecoveryCount p) (sp_NoDataCount p)
    None None (sp_UpdatedAt p) (ai_ID a) (ai_RuleID a) (sp_RuleVersion p) (sp_Severity p) (sp_CurrentValue p)
    (sp_RuleSnapshot p) (ai_MetricDimensionKey a) (ai_FirstTriggeredAt a) (ai_FirstRuleVersion a) (ai_FirstRuleSnapshot a)
    (Some (sp_UpdatedAt p)) (ai_Disposition a) (sp_InMaintenance p) (sp_MaintenanceWindowID p).

(** The columns of [RecoverAlertSnapshotParams] are those of the save with the
    time of recovery, which is NOT NULL. *)
Definition RecoverAlertSnapshot (id : option string) (p : SaveAlertSnapshotParams) (recoveredAt : option Time)
    : DB EvalTables string :=
  statement (fun t =>
    if bool_decide (recoveredAt = None) then Err (ErrPg "23502")
    else
      '(returned, t') ← update_unresolved id (recovered_alert p) t;
      match returned with Some i => Ok (i, t') | None => Err ErrNoRows end).

Definition reset_alert (version : Z) (severity : string) (snapshot : jsonb) (next : Snapshot) (at_ : Time)
    (inMaintenance : bool) (window : option string) (a : AlertInstance) : AlertInstance :=
  MkAlertInstance (ai_InstanceID a) (ai_MetricID a) (ai_Status a) (int32 (BreachCount next)) (int32 (RecoveryCount next))
    (int32 (NoDataCount next)) (ai_StateBeforeNoData a) (ai_Unavailability a) at_ (ai_ID a) (ai_RuleID a) version severity
    (ai_CurrentValue a) snapshot (ai_MetricDimensionKey a) (ai_FirstTriggeredAt a) (ai_FirstRuleVersion a)
    (ai_FirstRuleSnapshot a) (ai_RecoveredAt a) (ai_Disposition a) inMaintenance window.

Definition ResetIgnoredMissingAlert (target : GetEvaluationTargetRow) (next : Snapshot) (at_ : Time)
    (inMaintenance : bool) (window : option string) : DB EvalTables unit :=
  statement (fun t =>
    '(_, t') ← update_unresolved (et_AlertInstanceID target)
      (reset_alert (et_Version target) (et_Severity target) (et_RuleSnapshot target) next (timestamptz at_) inMaintenance window) t;
    Ok (tt, t')).

Definition MarkAlertRuleEvaluated (ruleID instanceID dimension : string) (at_ : Time) : DB EvalTables unit :=
  exec (alter_evaluated <[(ruleID, instanceID, dimension) := timestamptz at_]>).

Definition CreatePerformanceEvent (alertID : string) (kind : PerformanceEventType) (at_ : Time) : DB EvalTables unit :=
  statement (fun t =>
    if bool_decide (n_alert (e_notify t) !! alertID = None) then Err (ErrPg "23503")
    else
      match e_performance_event t !! alertID with
      | Some _ => Ok (tt, t)
      | None => Ok (tt, alter_performance_event <[alertID := (kind, timestamptz at_)]> t)
      end).

Definition string_of_kind (kind : EventKind) : string :=
  match kind with
  | EventPendingStarted => "PENDING_STARTED"
  | EventFired => "FIRED"
  | EventUpdated => "UPDATED"
  | EventRecovered => "RECOVERED"
  | EventNoDataEntered => "NO_DATA_ENTERED"
  | EventNoDataExited => "NO_DATA_EXITED"
  | EventFrozen => "FROZEN"
  | EventUnfrozen => "UNFROZEN"
  end.

(** The INSERT under the constraints on the version, the states and the
    references. *)
Definition CreateAlertEvent (event : AlertEvent) : DB EvalTables unit :=
  statement (fun t =>
    if negb ((0 <? ev_RuleVersion event) && bool_decide (ev_FromState event <> NoState) && bool_decide (ev_ToState event <> NoState))
    then Err (ErrPg "23514")
    else if bool_decide (n_alert (e_notify t) !! ev_AlertInstanceID event = None) then Err (ErrPg "23503")
    else if (match ev_TriggerSnapshotID event with
             | Some id => bool_decide (e_trigger_snapshot t !! id = None) | None => false end) then Err (ErrPg "23503")
    else Ok (tt, alter_notify (alter_event (fun events => events ++ [event])) t)).

(** * Trigger snapshots *)

Definition triggerSnapshotResultSuccess : string := "SUCCESS".
Definition triggerSnapshotResultFailed : string := "FAILED".

Record triggerSnapshotCapture : Type := MkCapture {
  cap_result : string;
  cap_failureReason : option string;
  cap_originalMatchCount : Z;
  cap_truncated : bool;
  cap_sessions : list TriggerSession;
}.

(** [read] is the answer of the monitored server: its sessions, or the text of
    the error. *)
Definition captureTriggerSnapshot (read : list TriggerSession + string) (limit : Z) (target : GetEvaluationTargetRow)
    (scope : TriggerSnapshotScope) : triggerSnapshotCapture :=
  match read with
  | inr text => MkCapture triggerSnapshotResultFailed (Some ("capture monitored sessions: " +:+ text)) 0 false []
  | inl sessions =>
      let sessions := markDirectTriggerSessions scope (et_MetricID target) (et_Operator target) (et_Threshold target) sessions in
      let '(selected, originalMatchCount, truncated) := SelectTriggerSessions scope sessions limit in
      MkCapture triggerSnapshotResultSuccess None (int32 originalMatchCount) truncated selected
  end.

(** The INSERT under its constraints: the reference to the alert, one snapshot
    per alert, and a count that is not negative. *)
Definition CreateTriggerSnapshot (row : TriggerSnapshotRow) : DB EvalTables string :=
  statement (fun t =>
    if snapshot_OriginalMatchCount row <? 0 then Err (ErrPg "23514")
    else if bool_decide (n_alert (e_notify t) !! snapshot_AlertInstanceID row = None) then Err (ErrPg "23503")
    else if bool_decide (Exists (fun other => snapshot_AlertInstanceID other = snapshot_AlertInstanceID row)
                           ((map_to_list (e_trigger_snapshot t)).*2)) then Err (ErrPg "23505")
    else
      let id := fresh (n_issued (e_notify t)) in
      Ok (id, alter_trigger_snapshot <[id := row]>
                (alter_notify (alter_issued (fun issued => {[id]} ∪ issued)) t))).

Definition nonneg_or_null (value : option Z) : bool := match value with None => true | Some v => 0 <=? v end.

Definition session_checks (s : TriggerSession) : bool :=
  (0 <? PID s) && nonneg_or_null (QueryDurationMS s) && nonneg_or_null (TransactionDurationMS s).

(** The row has every field of the session but [DirectMatch]. *)
Definition CreateTriggerSnapshotSession (snapshotID : string) (session : TriggerSession) : DB EvalTables unit :=
  statement (fun t =>
    if negb (session_checks session) then Err (ErrPg "23514")
    else if bool_decide (e_trigger_snapshot t !! snapshotID = None) then Err (ErrPg "23503")
    else if bool_decide (Exists (fun p => p.1 = snapshotID /\ PID p.2 = PID session) (e_trigger_session t)) then Err (ErrPg "23505")
    else Ok (tt, alter_trigger_session (fun sessions => sessions ++ [(snapshotID, set_DirectMatch false session)]) t)).

Definition captureAndPersistTriggerSnapshot (read : list TriggerSession + string) (limit : Z)
    (target : GetEvaluationTargetRow) (alertInstanceID : string) (capturedAt : Time) (scope : TriggerSnapshotScope)
    : DB EvalTables string :=
  let capture := captureTriggerSnapshot read limit target scope in
  snapshotID ← wrap "save trigger snapshot" (CreateTriggerSnapshot
    (MkTriggerSnapshotRow alertInstanceID (timestamptz capturedAt) (cap_result capture) (cap_failureReason capture)
       (cap_originalMatchCount capture) (cap_truncated capture)));
  _ ← for_each (fun session => wrap "save trigger snapshot session" (CreateTriggerSnapshotSession snapshotID session))
        (cap_sessions capture);
  mret snapshotID.

(** * Evaluating a rule *)

Record ListEvaluationTargetsRow : Type := MkScheduledTarget {
  lt_RuleID : string;
  lt_RuleName : string;
  lt_InstanceID : string;
  lt_InstanceName : string;
  lt_MetricDimensionKey : string;
}.

Record Config : Type := MkConfig {
  TriggerSnapshotSessionLimit : Z;
}.

Definition DefaultConfig : Config := MkConfig 100.

(** [Config.Validate], which [NewWithConfig] insists on. *)
Definition config_Validate (config : Config) : result unit :=
  if TriggerSnapshotSessionLimit config <? 1 then Err (ErrNew "trigger snapshot session limit must be at least 1") else Ok tt.

Section Evaluate.
(** What a monitored server answers, the text [fmt.Sprint] gives a number, and
    [Config.TriggerSnapshotSessionLimit]. *)
Context (read_sessions : GetEvaluationTargetRow -> list TriggerSession + string) (sprint : float64 -> string) (limit : Z).

Definition starts_firing (previous next : Snapshot) : bool :=
  bool_decide (snap_State previous <> FIRING) &&
  negb (bool_decide (snap_State previous = NO_DATA) && bool_decide (StateBeforeNoData previous = FIRING)) &&
  bool_decide (snap_State next = FIRING).

(** The parameters of the write of the alert's row. *)
Definition save_params (target : GetEvaluationTargetRow) (dimension : string) (now : Time) (result : metricEvaluation)
    (previous next : Snapshot) (inMaintenance : bool) (window : option string) : SaveAlertSnapshotParams :=
  let fires := starts_firing previous next in
  MkSaveParams (et_RuleID target) (et_InstanceID target) (et_MetricID target) dimension (snap_State next) (et_Version target)
    (et_Severity target) (me_currentValue result) (et_RuleSnapshot target) (int32 (BreachCount next))
    (int32 (RecoveryCount next)) (int32 (NoDataCount next))
    (if bool_decide (StateBeforeNoData next = NoState) then None else Some (StateBeforeNoData next))
    (if bool_decide (snap_State next = NO_DATA) then me_unavailability result else None)
    (timestamptz now)
    (if fires then Some (timestamptz now) else None) (if fires then Some (et_Version target) else None)
    (if fires then Some (et_RuleSnapshot target) else None)
    (if bool_decide (snap_State previous <> RECOVERED) && bool_decide (snap_State next = RECOVERED)
     then Some (timestamptz now) else None)
    inMaintenance window.

(** The alert's row is written: recovered, or saved. *)
Definition save_alert (target : GetEvaluationTargetRow) (params : SaveAlertSnapshotParams) : DB EvalTables string :=
  wrap "save alert state"
    (if bool_decide (sp_Status params = RECOVERED)
     then RecoverAlertSnapshot (et_AlertInstanceID target) params (sp_RecoveredAt params)
     else SaveAlertSnapshot params).

(** The notifications of an event: enqueued, and discarded in maintenance. *)
Definition announce (scheduled : ListEvaluationTargetsRow) (target : GetEvaluationTargetRow) (alertID : string) (now : Time)
    (result : metricEvaluation) (inMaintenance : bool) (window : option string) (event : EventType) (template : string)
    : DB EvalTables unit :=
  let payload := encode_payload (MkAlertPayload alertID (lt_RuleName scheduled) (lt_InstanceName scheduled)
    (et_MetricID target) (et_Severity target) (sprint (default (f64_of_Z 0) (me_currentValue result)))) in
  notificationIDs ← wrap "enqueue alert notification"
    (in_notify (EnqueueAlertNotifications alertID event (Some template) payload now));
  if inMaintenance && bool_decide (notificationIDs <> []) then
    _ ← for_each (fun id => wrap "discard maintenance-suppressed notification" (in_notify (DeletePendingNotification id)))
          notificationIDs;
    wrap "record maintenance suppression" (in_notify (RecordMaintenanceSuppressed alertID window now))
  else mret tt.

(** One round of the loop over the events. *)
Definition emit_event (scheduled : ListEvaluationTargetsRow) (target : GetEvaluationTargetRow) (alertID : string) (now : Time)
    (result : metricEvaluation) (params : SaveAlertSnapshotParams) (previousState : State)
    (triggerSnapshotID : option string) (kind : EventKind) : DB EvalTables unit :=
  if bool_decide (kind = EventUpdated) && bool_decide (me_currentValue result = None) then mret tt
  else
    _ ← wrap "save alert event" (CreateAlertEvent
      (MkAlertEvent alertID (et_RuleID target) (et_Version target) (string_of_kind kind) previousState (sp_Status params)
         (me_currentValue result) (sp_Unavailability params) (et_RuleSnapshot target) (timestamptz now)
         (if bool_decide (kind = EventFired) then triggerSnapshotID else None)
         (sp_InMaintenance params) (sp_MaintenanceWindowID params)));
    match kind with
    | EventFired =>
        announce scheduled target alertID now result (sp_InMaintenance params) (sp_MaintenanceWindowID params)
          EventFiring "builtin.notification.firing.v1"
    | EventRecovered =>
        announce scheduled target alertID now result (sp_InMaintenance params) (sp_MaintenanceWindowID params)
          EventRecovery "builtin.notification.recovery.v1"
    | _ => mret tt
    end.

(** [*alerting.StepCollection(&currentSnapshot, outcome, false, ...)] *)
Definition stepped (target : GetEvaluationTargetRow) (current : Snapshot) (outcome : Evaluation) : Snapshot :=
  default current (StepCollection (Some current) outcome false (et_ConsecutiveCount target) (et_RecoveryConsecutiveCount target)).

(** [evaluateRule] from the step of the state machine on. *)
Definition apply_step (scheduled : ListEvaluationTargetsRow) (target : GetEvaluationTargetRow) (now : Time)
    (result : metricEvaluation) (current : Snapshot) (inMaintenance : bool) (window : option string) : DB EvalTables unit :=
  let dimension := lt_MetricDimensionKey scheduled in
  let next := stepped target current (me_outcome result) in
  let params := save_params target dimension now result current next inMaintenance window in
  let fires := starts_firing current next in
  alertInstanceID ← save_alert target params;
  triggerSnapshotID ←
    (match TriggerSnapshotScopeForMetric (et_MetricID target) with
     | Some scope =>
         if fires then id ← captureAndPersistTriggerSnapshot (read_sessions target) limit target alertInstanceID now scope; mret (Some id)
         else mret None
     | None => mret None
     end);
  _ ← (match PerformanceEventTypeForMetric (et_MetricID target) with
       | Some eventType =>
           if fires then wrap "save performance event" (CreatePerformanceEvent alertInstanceID eventType now) else mret tt
       | None => mret tt
       end);
  _ ← for_each (emit_event scheduled target alertInstanceID now result params (snap_State current) triggerSnapshotID)
        (StateEvents (snap_State current) (snap_State next));
  wrap "mark alert rule evaluated" (MarkAlertRuleEvaluated (et_RuleID target) (et_InstanceID target) dimension now).

Definition evaluateRule (scheduled : ListEvaluationTargetsRow) (now : Time) : DB EvalTables unit :=
  let dimension := lt_MetricDimensionKey scheduled in
  target ← wrap "read evaluation target" (GetEvaluationTarget (lt_RuleID scheduled) (lt_InstanceID scheduled) dimension);
  let current := snapshotFromEvaluationTarget target in
  let mark := MarkAlertRuleEvaluated (et_RuleID target) (et_InstanceID target) dimension now in
  if structurallyNotApplicable (et_MetricID target) (et_LastErrorCode target) (et_AgentMetricsEnabled target) (et_AgentExpected target)
  then mark
  else
    result ← evaluateMetric target dimension now;
    '(window, inMaintenance) ← wrap "match maintenance window" (in_notify (FindActiveMaintenanceWindow (et_InstanceID target) now));
    if bool_decide (me_outcome result = Missing) && bool_decide (et_NoDataPolicy target = "ignore") then
      _ ← (if bool_decide (is_Some (et_AlertInstanceID target)) && bool_decide (snap_State current <> RECOVERED) then
             wrap "reset alert counters for ignored missing data" (ResetIgnoredMissingAlert target
               (stepped target current MissingIgnored) now inMaintenance window)
           else mret tt);
      mark
    else if bool_decide (snap_State current = RECOVERED) && bool_decide (me_outcome result <> Breaching) then mark
    else apply_step scheduled target now result current inMaintenance window.

(** * Evaluating an instance, and all of them *)

(** [SELECT config.collection_paused ... FOR SHARE] *)
Definition read_paused (instanceID : string) : DB EvalTables bool :=
  statement (fun t =>
    match e_instance t !! instanceID, e_config t !! instanceID with
    | Some _, Some config => Ok (config_Paused config, t)
    | _, _ => Err ErrNoRows
    end).

Definition evaluateInstance (instanceID : string) (targets : list ListEvaluationTargetsRow) (now : Time) : DB EvalTables unit :=
  InTx (paused ← read_paused instanceID;
        if (paused : bool) then mret tt else for_each (fun target => evaluateRule target now) targets).

(** The dimensions of a rule on an instance. *)
Definition dimensions (t : EvalTables) (ruleID instanceID : string) (metricID : option MetricID) : list string :=
  match remove_dups (
    (series_LabelsKey <$> filter (fun s => series_InstanceID s = instanceID /\ Some (series_MetricID s) = metricID) (e_series t)) ++
    (ai_MetricDimensionKey <$> filter (fun a => ai_RuleID a = ruleID /\ ai_InstanceID a = instanceID /\ ai_Status a <> RECOVERED)
       ((map_to_list (n_alert (e_notify t))).*2))) with
  | [] => ["{}"]
  | keys => keys
  end.

Definition rule_due (t : EvalTables) (at_ : Time) (ruleID instanceID : string) (rule : AlertRule) (dimension : string) : bool :=
  match e_evaluated t !! (ruleID, instanceID, dimension) with
  | None => true
  | Some last => last <=? at_ - rule_EvaluationIntervalSeconds rule * Second
  end.

Definition scheduled_targets (t : EvalTables) (at_ : Time) (ruleID : string) (rule : AlertRule) (instanceID : string)
    (inst : EvalInstance) : list ListEvaluationTargetsRow :=
  let resolved := resolved_rows (e_catalog t) (rule_MetricID rule) (inst_Engine inst) in
  if rule_Enabled rule && bool_decide (rule_DeletedAt rule = None) &&
     match e_config t !! instanceID with Some config => negb (config_Paused config) | None => false end &&
     (bool_decide (resolved <> []) || bool_decide (filter (fun own => metric_ID own = rule_MetricID rule) (e_catalog t) = [])) &&
     (bool_decide (rule_Scope rule = "ALL") || bool_decide ((ruleID, instanceID) ∈ e_scope t))
  then
    metricID ← (match resolved with [] => [None] | ids => Some <$> ids end);
    MkScheduledTarget ruleID (rule_Name rule) instanceID (inst_Name inst) <$>
      filter (fun dimension => rule_due t at_ ruleID instanceID rule dimension = true) (dimensions t ruleID instanceID metricID)
  else [].

Definition targetLess (a b : ListEvaluationTargetsRow) : bool :=
  string_ltb (lt_InstanceID a) (lt_InstanceID b) ||
  (bool_decide (lt_InstanceID a = lt_InstanceID b) &&
   (string_ltb (lt_RuleID a) (lt_RuleID b) ||
    (bool_decide (lt_RuleID a = lt_RuleID b) && string_ltb (lt_MetricDimensionKey a) (lt_MetricDimensionKey b)))).

Definition ListEvaluationTargets (now : Time) (t : EvalTables) : list ListEvaluationTargetsRow :=
  sort_by targetLess
    ('(ruleID, rule) ← map_to_list (n_rule (e_notify t));
     '(instanceID, inst) ← map_to_list (e_instance t);
     scheduled_targets t (timestamptz now) ruleID rule instanceID inst).

(** The slices [targets[start:end]] of [RunOnce]: runs of one instance. *)
Fixpoint group_targets (targets : list ListEvaluationTargetsRow) : list (string * list ListEvaluationTargetsRow) :=
  match targets with
  | [] => []
  | target :: rest =>
      match group_targets rest with
      | (instanceID, group) :: groups =>
          if bool_decide (instanceID = lt_InstanceID target) then (instanceID, target :: group) :: groups
          else (lt_InstanceID target, [target]) :: (instanceID, group) :: groups
      | [] => [(lt_InstanceID target, [target])]
      end
  end.

Definition RunOnce (now : Time) : DB EvalTables unit :=
  targets ← wrap "list evaluation targets" (query (ListEvaluationTargets now));
  for_each (fun group => evaluateInstance group.1 group.2 now) (group_targets targets).
End Evaluate.
