(* ===== verification/EvaluatorInv.v ===== *)
(** The evaluator's effect on the alert tables: the invariant every evaluation
    keeps, under any faults of the platform database, and that an evaluation that
    succeeds moves the stored alert by exactly one step of the state machine. *)

From S2P Require Import Prelude Db AlertState AlertEvaluation Dictionary Catalog ControlPlane TriggerSnapshot Notify Evaluator.

(** * The alerts the evaluator keeps *)

(** An alert whose life cycle has fired. *)
Definition fired (state : State) (before : option State) : Prop :=
  state = FIRING \/ state = NO_DATA /\ before = Some FIRING.

(** The row remembers a state to resume exactly in [NO_DATA]. *)
Definition row_shaped (a : AlertInstance) : Prop :=
  ai_Status a <> NoState /\
  (ai_Status a = NO_DATA -> exists s, ai_StateBeforeNoData a = Some s /\ resumable s) /\
  (ai_Status a <> NO_DATA -> ai_StateBeforeNoData a = None).

(** The invariant of the alert tables: rows are keyed by their id and shaped, an
    instance has one unresolved alert per rule and dimension, which has a first
    trigger time exactly once it has fired; a trigger snapshot or performance
    event belongs to an alert that has fired, which has at most one. *)
Record alerts_inv (t : EvalTables) : Prop := MkAlertsInv {
  alerts_keyed : forall id a, n_alert (e_notify t) !! id = Some a -> ai_ID a = id /\ id ∈ n_issued (e_notify t);
  alerts_shaped : forall id a, n_alert (e_notify t) !! id = Some a -> row_shaped a;
  alerts_unique : forall i j a b, n_alert (e_notify t) !! i = Some a -> n_alert (e_notify t) !! j = Some b ->
    ai_Status a <> RECOVERED -> ai_Status b <> RECOVERED -> alert_key a = alert_key b -> i = j;
  alerts_fired : forall id a, n_alert (e_notify t) !! id = Some a -> ai_Status a <> RECOVERED ->
    is_Some (ai_FirstTriggeredAt a) <-> fired (ai_Status a) (ai_StateBeforeNoData a);
  snapshots_fired : forall sid r, e_trigger_snapshot t !! sid = Some r ->
    sid ∈ n_issued (e_notify t) /\
    exists a, n_alert (e_notify t) !! snapshot_AlertInstanceID r = Some a /\ is_Some (ai_FirstTriggeredAt a);
  snapshots_unique : forall i j r q, e_trigger_snapshot t !! i = Some r -> e_trigger_snapshot t !! j = Some q ->
    snapshot_AlertInstanceID r = snapshot_AlertInstanceID q -> i = j;
  events_fired : forall id e, e_performance_event t !! id = Some e ->
    exists a, n_alert (e_notify t) !! id = Some a /\ is_Some (ai_FirstTriggeredAt a);
}.

(** The columns the invariant and the state machine read. *)
Definition core (a : AlertInstance) : AlertInstance :=
  alter_InMaintenance (fun _ => false) (alter_MaintenanceWindowID (fun _ => None) a).

(** Alert tables that differ only in maintenance columns. *)
Definition same_alerts (t t' : EvalTables) : Prop :=
  forall id, core <$> n_alert (e_notify t') !! id = core <$> n_alert (e_notify t) !! id.

Lemma same_alerts_lookup t t' id a :
  same_alerts t t' -> n_alert (e_notify t') !! id = Some a ->
  exists b, n_alert (e_notify t) !! id = Some b /\ core b = core a.
Proof.
  intros Hs Ha. specialize (Hs id). rewrite Ha in Hs. simpl in Hs. symmetry in Hs.
  apply fmap_Some in Hs as (b & Hb & ->). by exists b.
Qed.

(** What two rows with the same core agree on. *)
Lemma core_eq a b :
  core a = core b ->
  ai_ID a = ai_ID b /\ alert_key a = alert_key b /\ ai_Status a = ai_Status b /\
  ai_StateBeforeNoData a = ai_StateBeforeNoData b /\ ai_FirstTriggeredAt a = ai_FirstTriggeredAt b /\
  ai_UpdatedAt a = ai_UpdatedAt b /\ ai_RuleVersion a = ai_RuleVersion b /\ ai_BreachCount a = ai_BreachCount b /\
  ai_RecoveryCount a = ai_RecoveryCount b /\ ai_NoDataCount a = ai_NoDataCount b.
Proof. destruct a, b. unfold core, alert_key. simpl. intros [=]. subst. split_and!; done. Qed.

Lemma alerts_inv_same t t' :
  same_alerts t t' -> n_issued (e_notify t) ⊆ n_issued (e_notify t') ->
  e_trigger_snapshot t' = e_trigger_snapshot t -> e_performance_event t' = e_performance_event t ->
  alerts_inv t -> alerts_inv t'.
Proof.
  intros Hs Hi E1 E2 [Hk Hsh Hu Hf Hsf Hsu He].
  assert (forall id a, n_alert (e_notify t') !! id = Some a -> exists b, n_alert (e_notify t) !! id = Some b /\ core b = core a) as Hl
    by (intros id a; by apply same_alerts_lookup).
  assert (same_alerts t' t) as Hs' by (intros id; by rewrite (Hs id)).
  assert (forall id, (exists a, n_alert (e_notify t) !! id = Some a /\ is_Some (ai_FirstTriggeredAt a)) ->
    exists a, n_alert (e_notify t') !! id = Some a /\ is_Some (ai_FirstTriggeredAt a)) as Hfirst.
  { intros id (a & Ha & Hfa). destruct (same_alerts_lookup t' t id a Hs' Ha) as (b & Hb & Hc).
    exists b. split; [done|]. apply core_eq in Hc as (_ & _ & _ & _ & -> & _). done. }
  split; rewrite ?E1, ?E2; try done.
  - intros id a Ha. destruct (Hl id a Ha) as (b & Hb & Hc). destruct (Hk id b Hb) as [Hid Hin].
    apply core_eq in Hc as (<- & _). split; [done|]. by apply Hi.
  - intros id a Ha. destruct (Hl id a Ha) as (b & Hb & Hc). pose proof (Hsh id b Hb) as Hb'.
    apply core_eq in Hc as (_ & _ & E3 & E4 & _). unfold row_shaped in *. by rewrite E3, E4 in Hb'.
  - intros i j a b Ha Hb. destruct (Hl i a Ha) as (a0 & Ha0 & Hca), (Hl j b Hb) as (b0 & Hb0 & Hcb).
    apply core_eq in Hca as (_ & <- & <- & _), Hcb as (_ & <- & <- & _). by apply Hu.
  - intros id a Ha. destruct (Hl id a Ha) as (b & Hb & Hc). apply core_eq in Hc as (_ & _ & <- & <- & <- & _). by apply (Hf id).
  - intros sid r Hr. destruct (Hsf sid r Hr) as [Hin Hal]. split; [by apply Hi|by apply Hfirst].
  - intros id e Hev. by apply Hfirst, (He id e).
Qed.

(** * The stored alert of a key *)

Lemma candidateLess_spec a b :
  candidateLess a b = true <->
  ai_Status a <> RECOVERED /\ ai_Status b = RECOVERED \/
  (ai_Status a = RECOVERED <-> ai_Status b = RECOVERED) /\ ai_UpdatedAt b < ai_UpdatedAt a.
Proof.
  unfold candidateLess. rewrite orb_true_iff, !andb_true_iff, eqb_true_iff, Z.ltb_lt.
  repeat case_bool_decide; simpl; naive_solver.
Qed.

Lemma candidateLess_in_order l : in_order candidateLess (sort_by candidateLess l).
Proof.
  apply sort_by_in_order.
  - intros x y z. rewrite !candidateLess_spec.
    destruct (decide (ai_Status x = RECOVERED)), (decide (ai_Status y = RECOVERED)), (decide (ai_Status z = RECOVERED));
      intuition (congruence || lia).
  - intros x. apply not_true_iff_false. rewrite candidateLess_spec. intuition (congruence || lia).
  - intros x y z. rewrite <-!not_true_iff_false, !candidateLess_spec.
    destruct (decide (ai_Status x = RECOVERED)), (decide (ai_Status y = RECOVERED)), (decide (ai_Status z = RECOVERED));
      intuition (congruence || lia).
Qed.

Lemma alert_rows_elem (alerts : gmap string AlertInstance) a :
  a ∈ (map_to_list alerts).*2 <-> exists id, alerts !! id = Some a.
Proof.
  rewrite list_elem_of_fmap. split.
  - intros ([id e] & -> & He%elem_of_map_to_list). by exists id.
  - intros [id Hid]. exists (id, a). split; [done|]. by apply elem_of_map_to_list.
Qed.

Lemma head_filter_elem {A} (P : A -> Prop) `{!forall x, Decision (P x)} l x :
  head (filter P l) = Some x -> x ∈ l /\ P x.
Proof.
  destruct (filter P l) as [|y rest] eqn:E; [done|]. intros [= ->].
  assert (x ∈ filter P l) as [? ?]%list_elem_of_filter by (rewrite E; left). done.
Qed.

Lemma unresolved_alert_Some t key a :
  alerts_inv t -> unresolved_alert key (n_alert (e_notify t)) = Some a ->
  n_alert (e_notify t) !! ai_ID a = Some a /\ alert_key a = key /\ ai_Status a <> RECOVERED.
Proof.
  intros Hi [[id Hid]%alert_rows_elem [Hk Hs]]%head_filter_elem.
  destruct (alerts_keyed _ Hi id a Hid) as [-> _]. done.
Qed.

Lemma unresolved_alert_None key (alerts : gmap string AlertInstance) id a :
  unresolved_alert key alerts = None -> alerts !! id = Some a -> alert_key a = key -> ai_Status a = RECOVERED.
Proof.
  intros Hn Ha Hk. unfold unresolved_alert in Hn. destruct (decide (ai_Status a = RECOVERED)); [done|]. exfalso.
  assert (a ∈ filter (fun a => alert_key a = key /\ ai_Status a <> RECOVERED) ((map_to_list alerts).*2)) as Hin.
  { apply list_elem_of_filter. split; [done|]. apply alert_rows_elem. by exists id. }
  destruct (filter _ _); [by apply elem_of_nil in Hin|done].
Qed.

(** What the evaluator takes for the alert of a key. *)
Lemma candidate_alert_Some t key a :
  alerts_inv t -> candidate_alert key (n_alert (e_notify t)) = Some a ->
  n_alert (e_notify t) !! ai_ID a = Some a /\ alert_key a = key /\
  (ai_Status a = RECOVERED -> unresolved_alert key (n_alert (e_notify t)) = None) /\
  (ai_Status a <> RECOVERED -> unresolved_alert key (n_alert (e_notify t)) = Some a).
Proof.
  intros Hi Hc. unfold candidate_alert in Hc.
  pose proof (candidateLess_in_order (filter (fun a => alert_key a = key) ((map_to_list (n_alert (e_notify t))).*2))) as Hord.
  destruct (sort_by _ _) as [|b rest] eqn:E; [done|]. injection Hc as ->.
  assert (forall c, c ∈ a :: rest <-> alert_key c = key /\ exists id, n_alert (e_notify t) !! id = Some c) as Hmem.
  { intros c. by rewrite <-E, elem_of_sort_by, list_elem_of_filter, alert_rows_elem. }
  destruct (proj1 (Hmem a)) as [Hk [id Hid]]; [left|]. destruct (alerts_keyed _ Hi id a Hid) as [-> _].
  split_and!; [done..| |].
  - intros Hr. destruct (unresolved_alert key _) as [u|] eqn:Hu; [|done]. exfalso.
    apply unresolved_alert_Some in Hu as (Hu & Huk & Hus); [|done].
    assert (u ∈ a :: rest) as [->|Hin]%elem_of_cons by (apply Hmem; eauto); [done|].
    apply StronglySorted_inv in Hord as [_ Hall]. rewrite Forall_forall in Hall. specialize (Hall u Hin).
    apply not_true_iff_false in Hall. apply Hall, candidateLess_spec. by left.
  - intros Hs. destruct (unresolved_alert key _) as [u|] eqn:Hu.
    + apply unresolved_alert_Some in Hu as (Hu & Huk & Hus); [|done]. f_equal.
      assert (ai_ID u = id) by (eapply (alerts_unique _ Hi); [exact Hu|exact Hid|done..|congruence]). congruence.
    + by destruct Hs; eapply unresolved_alert_None.
Qed.

Lemma candidate_alert_None key (alerts : gmap string AlertInstance) id a :
  candidate_alert key alerts = None -> alerts !! id = Some a -> alert_key a <> key.
Proof.
  intros Hn Ha Hk. unfold candidate_alert in Hn.
  assert (a ∈ sort_by candidateLess (filter (fun a => alert_key a = key) ((map_to_list alerts).*2))) as Hin.
  { rewrite elem_of_sort_by, list_elem_of_filter, alert_rows_elem. eauto. }
  destruct (sort_by _ _); [by apply elem_of_nil in Hin|done].
Qed.

(** The candidate is the unresolved alert when there is one, and otherwise the
    last updated one. *)
Lemma candidate_alert_unique t key a :
  alerts_inv t -> n_alert (e_notify t) !! ai_ID a = Some a -> alert_key a = key ->
  (ai_Status a <> RECOVERED \/ unresolved_alert key (n_alert (e_notify t)) = None /\
     forall id b, n_alert (e_notify t) !! id = Some b -> alert_key b = key -> id <> ai_ID a -> ai_UpdatedAt b < ai_UpdatedAt a) ->
  candidate_alert key (n_alert (e_notify t)) = Some a.
Proof.
  intros Hi Ha Hk Hbest. destruct (candidate_alert key _) as [c|] eqn:Hc.
  2:{ by destruct (candidate_alert_None key _ _ _ Hc Ha). }
  destruct (candidate_alert_Some t key c Hi Hc) as (Hcl & Hck & Hcr & Hcu). f_equal.
  destruct (decide (ai_ID c = ai_ID a)) as [Heq|Hne]; [congruence|]. exfalso.
  destruct Hbest as [Hs|[Hnone Hlast]].
  - destruct (decide (ai_Status c = RECOVERED)) as [Hr|Hr].
    + destruct Hs. eapply unresolved_alert_None; eauto.
    + apply Hne. eapply (alerts_unique _ Hi); eauto. congruence.
  - specialize (Hlast (ai_ID c) c Hcl Hck Hne). unfold candidate_alert in Hc.
    pose proof (candidateLess_in_order (filter (fun a => alert_key a = key) ((map_to_list (n_alert (e_notify t))).*2))) as Hord.
    assert (a ∈ sort_by candidateLess (filter (fun a => alert_key a = key) ((map_to_list (n_alert (e_notify t))).*2))) as Hin.
    { rewrite elem_of_sort_by, list_elem_of_filter, alert_rows_elem. eauto. }
    destruct (sort_by _ _) as [|b rest]; [done|]. injection Hc as ->.
    apply elem_of_cons in Hin as [->|Hin]; [done|].
    apply StronglySorted_inv in Hord as [_ Hall]. rewrite Forall_forall in Hall. specialize (Hall a Hin).
    apply not_true_iff_false in Hall. apply Hall, candidateLess_spec. right. split; [|done].
    rewrite (unresolved_alert_None key _ _ _ Hnone Ha Hk), (unresolved_alert_None key _ _ _ Hnone Hcl Hck). done.
Qed.

(** * One step of the stored alert *)

(** The state machine's view of [fired]. *)
Definition snapshot_fired (s : Snapshot) : Prop :=
  snap_State s = FIRING \/ snap_State s = NO_DATA /\ StateBeforeNoData s = FIRING.

Lemma stepped_Step target current outcome :
  stepped target current outcome = Step current outcome (et_ConsecutiveCount target) (et_RecoveryConsecutiveCount target).
Proof. reflexivity. Qed.

Lemma Step_shaped tc rc s e : shaped s -> shaped (Step s e tc rc).
Proof.
  intros Hs. pose proof (shaped_lifecycle tc rc s e Hs) as Hl. destruct Hs as (Hn & Hb & Hnb).
  set (s' := Step s e tc rc) in *. unfold shaped.
  inversion Hl as [st ev st' Hne He E1 E2 E3|st Hr E1 E2 E3|st ev Hev E1 E2 E3|st ev H1 H2 E1 E2 E3].
  - split_and!; [|intros Hd|done]; inversion He; subst; try done; try congruence.
  - split_and!; [done|by intros _; subst|done].
  - split_and!; [done|intros _; subst; by apply Hb|done].
  - assert (resumable (StateBeforeNoData s)) as Hst by (by apply Hb).
    destruct Hst as [Hst|[Hst|Hst]]; rewrite Hst; done.
Qed.

Lemma starts_firing_spec previous next :
  starts_firing previous next = true <-> ~ snapshot_fired previous /\ snap_State next = FIRING.
Proof.
  unfold starts_firing, snapshot_fired. rewrite !andb_true_iff, negb_true_iff, andb_false_iff.
  repeat case_bool_decide; naive_solver.
Qed.

(** Firing is entered once: along the life cycle, an unresolved alert has fired
    exactly when it had before or starts firing now. *)
Lemma lifecycle_fired s b e s' b' :
  lifecycle (s, b) e (s', b') -> (s = NO_DATA -> resumable b) -> (s <> NO_DATA -> b = NoState) -> s' <> RECOVERED ->
  (s' = FIRING \/ s' = NO_DATA /\ b' = FIRING) <->
  (s = FIRING \/ s = NO_DATA /\ b = FIRING) \/ ~ (s = FIRING \/ s = NO_DATA /\ b = FIRING) /\ s' = FIRING.
Proof.
  intros Hl Hb Hnb Hr.
  inversion Hl as [st ev st' Hne He|st Hre|st ev Hev|st ev H1 H2]; subst.
  - inversion He; subst; intuition congruence.
  - destruct Hre as [->|[->| ->]]; intuition congruence.
  - intuition congruence.
  - destruct (Hb eq_refl) as [->|[->| ->]]; intuition congruence.
Qed.

Lemma lifecycle_recovers s b e b' :
  lifecycle (s, b) e (RECOVERED, b') -> (s = NO_DATA -> resumable b) -> s = FIRING \/ s = RECOVERED /\ e <> Breaching.
Proof.
  intros Hl Hb. inversion Hl as [st ev st' Hne He|st Hre|st ev Hev|st ev H1 H2]; subst.
  - inversion He; subst; intuition congruence.
  - destruct (Hb eq_refl) as [?|[?|?]]; congruence.
Qed.

Lemma Step_fired tc rc s e :
  shaped s -> snap_State (Step s e tc rc) <> RECOVERED ->
  snapshot_fired (Step s e tc rc) <-> snapshot_fired s \/ starts_firing s (Step s e tc rc) = true.
Proof.
  intros Hs Hr. rewrite starts_firing_spec.
  apply (lifecycle_fired _ _ _ _ _ (shaped_lifecycle tc rc s e Hs)); [apply Hs..|done].
Qed.

Lemma Step_recovers tc rc s e :
  shaped s -> snap_State (Step s e tc rc) = RECOVERED -> snap_State s = FIRING \/ snap_State s = RECOVERED /\ e <> Breaching.
Proof.
  intros Hs Hr. pose proof (shaped_lifecycle tc rc s e Hs) as Hl. rewrite Hr in Hl.
  eapply lifecycle_recovers; [exact Hl|apply Hs].
Qed.

(** * Writing one row *)

Lemma write_alert_inv t id a' :
  alerts_inv t -> id ∈ n_issued (e_notify t) -> ai_ID a' = id -> row_shaped a' ->
  (ai_Status a' <> RECOVERED -> is_Some (ai_FirstTriggeredAt a') <-> fired (ai_Status a') (ai_StateBeforeNoData a')) ->
  (ai_Status a' <> RECOVERED -> forall j b, n_alert (e_notify t) !! j = Some b -> ai_Status b <> RECOVERED ->
     alert_key b = alert_key a' -> j = id) ->
  (forall old, n_alert (e_notify t) !! id = Some old -> is_Some (ai_FirstTriggeredAt old) -> is_Some (ai_FirstTriggeredAt a')) ->
  alerts_inv (alter_notify (alter_alert <[id := a']>) t).
Proof.
  intros [Hk Hsh Hu Hf Hsf Hsu He] Hid Hai Hrow Hfire Huniq Hmono.
  assert (forall i, (exists a, n_alert (e_notify t) !! i = Some a /\ is_Some (ai_FirstTriggeredAt a)) ->
    exists a, <[id := a']> (n_alert (e_notify t)) !! i = Some a /\ is_Some (ai_FirstTriggeredAt a)) as Hfirst.
  { intros i (a & Ha & Hfa). destruct (decide (id = i)) as [<-|Hne].
    - exists a'. rewrite lookup_insert_eq. split; [done|]. by eapply Hmono.
    - exists a. by rewrite lookup_insert_ne. }
  split; simpl.
  - intros i a [[<- <-]|[Hne Ha]]%lookup_insert_Some; [done|by apply Hk].
  - intros i a [[<- <-]|[Hne Ha]]%lookup_insert_Some; [done|by eapply Hsh].
  - intros i j a b [[<- <-]|[Hne Ha]]%lookup_insert_Some [[<- <-]|[Hne' Hb]]%lookup_insert_Some Hra Hrb Hkey; [done|..].
    + symmetry. by eapply Huniq.
    + by eapply Huniq.
    + by eapply Hu.
  - intros i a [[<- <-]|[Hne Ha]]%lookup_insert_Some; [done|by apply (Hf i)].
  - intros sid r Hr. destruct (Hsf sid r Hr) as [Hin Ha]. auto.
  - done.
  - intros i e Hev. by apply Hfirst, (He i e).
Qed.

Lemma issue_inv t id : alerts_inv t -> alerts_inv (alter_notify (alter_issued (fun issued => {[id]} ∪ issued)) t).
Proof. apply alerts_inv_same; try done. simpl. set_solver. Qed.

(** The snapshot a row stands for under a version of its rule. *)
Definition row_snapshot (version : Z) (a : AlertInstance) : Snapshot :=
  let before := default NoState (ai_StateBeforeNoData a) in
  if bool_decide (ai_RuleVersion a = version)
  then MkSnapshot (ai_Status a) before (ai_BreachCount a) (ai_RecoveryCount a) (ai_NoDataCount a)
  else MkSnapshot (ai_Status a) before 0 0 0.

Lemma row_snapshot_fields version a :
  snap_State (row_snapshot version a) = ai_Status a /\
  StateBeforeNoData (row_snapshot version a) = default NoState (ai_StateBeforeNoData a).
Proof. unfold row_snapshot. by case_bool_decide. Qed.

Lemma row_snapshot_shaped version a : row_shaped a -> shaped (row_snapshot version a).
Proof.
  intros (Hs & Hb & Hnb). unfold shaped. destruct (row_snapshot_fields version a) as [-> ->]. split_and!; [done| |].
  - intros Hd. destruct (Hb Hd) as (s & -> & Hr). done.
  - intros Hd. by rewrite (Hnb Hd).
Qed.

Lemma row_snapshot_fired version a :
  snapshot_fired (row_snapshot version a) <-> fired (ai_Status a) (ai_StateBeforeNoData a).
Proof.
  unfold snapshot_fired, fired. destruct (row_snapshot_fields version a) as [-> ->].
  destruct (ai_StateBeforeNoData a); simpl; naive_solver.
Qed.

(** What the row written for a snapshot says of it. *)
Definition stores (version : Z) (s : Snapshot) (a : AlertInstance) : Prop :=
  ai_Status a = snap_State s /\
  ai_StateBeforeNoData a = (if bool_decide (StateBeforeNoData s = NoState) then None else Some (StateBeforeNoData s)) /\
  ai_BreachCount a = int32 (BreachCount s) /\ ai_RecoveryCount a = int32 (RecoveryCount s) /\
  ai_NoDataCount a = int32 (NoDataCount s) /\ ai_RuleVersion a = version.

Lemma stores_shaped version s a : shaped s -> stores version s a -> row_shaped a.
Proof.
  intros (Hs & Hb & Hnb) (E1 & E2 & _). unfold row_shaped. rewrite E1, E2. split_and!; [done| |].
  - intros Hd. pose proof (Hb Hd) as Hr. exists (StateBeforeNoData s). rewrite bool_decide_false; [done|].
    intros Hn. rewrite Hn in Hr. destruct Hr as [?|[?|?]]; done.
  - intros Hd. by rewrite (Hnb Hd).
Qed.

Lemma stores_fired version s a : stores version s a -> fired (ai_Status a) (ai_StateBeforeNoData a) <-> snapshot_fired s.
Proof.
  intros (E1 & E2 & _). unfold fired, snapshot_fired. rewrite E1, E2. case_bool_decide; intuition congruence.
Qed.

(** Reading back what was stored, while the counters fit their columns. *)
Lemma stores_read_back version s a :
  in_int32 (BreachCount s) -> in_int32 (RecoveryCount s) -> in_int32 (NoDataCount s) ->
  stores version s a -> row_snapshot version a = s.
Proof.
  intros H1 H2 H3 (E1 & E2 & E3 & E4 & E5 & E6). unfold row_snapshot. rewrite bool_decide_true by done.
  rewrite E1, E2, E3, E4, E5, !int32_id by done. destruct s as [state before breach recovery nodata]. simpl.
  f_equal. clear. by destruct before.
Qed.

(** * Saving the alert *)

Lemma evaluation_target_read r i d t target :
  evaluation_target r i d t = Some target ->
  et_RuleID target = r /\ et_InstanceID target = i /\
  match candidate_alert (r, i, d) (n_alert (e_notify t)) with
  | Some a => et_AlertInstanceID target = Some (ai_ID a) /\ snapshotFromEvaluationTarget target = row_snapshot (et_Version target) a
  | None => et_AlertInstanceID target = None /\ snapshotFromEvaluationTarget target = InitialSnapshot
  end.
Proof.
  unfold evaluation_target. intros H.
  destruct (n_rule (e_notify t) !! r) as [rule|]; [simpl in H|done].
  destruct (e_rule_version t !! (r, rule_Version rule)) as [snapshot|]; [simpl in H|done].
  destruct (e_instance t !! i) as [inst|]; [simpl in H|done].
  destruct (rule_Enabled rule && _); [|done]. injection H as <-. split_and!; [done..|].
  destruct (candidate_alert (r, i, d) _) as [a|]; simpl; split; try done.
Qed.

(** What a successful save leaves behind. *)
Record saved (t t' : EvalTables) (key : string * string * string) (version : Z) (now : Time) (next : Snapshot)
    (fires : bool) (id : string) : Prop := MkSaved {
  saved_inv : alerts_inv t';
  saved_row : exists a, n_alert (e_notify t') !! id = Some a /\ ai_ID a = id /\ alert_key a = key /\ stores version next a /\
    ai_UpdatedAt a = timestamptz now /\ (fires = true -> is_Some (ai_FirstTriggeredAt a));
  saved_others : forall j, j <> id -> n_alert (e_notify t') !! j = n_alert (e_notify t) !! j;
  saved_known : forall a, n_alert (e_notify t) !! id = Some a -> alert_key a = key /\ ai_Status a <> RECOVERED;
  saved_only : forall j a, n_alert (e_notify t) !! j = Some a -> alert_key a = key -> ai_Status a <> RECOVERED -> j = id;
  saved_disposition : forall a, n_alert (e_notify t') !! id = Some a ->
    ai_Disposition a = default "NONE" (ai_Disposition <$> n_alert (e_notify t) !! id);
}.

Lemma write_alert_Ok id row t i t' :
  write_alert id row t = Ok (i, t') -> i = id /\ t' = alter_notify (alter_alert <[id := row]>) t.
Proof. unfold write_alert. destruct (alert_checks row); [|done]. by intros [= <- <-]. Qed.

Section Save.
Context (t : EvalTables) (r i d : string) (target : GetEvaluationTargetRow) (now : Time) (result : metricEvaluation)
  (inMaintenance : bool) (window : option string).
Hypothesis inv : alerts_inv t.
Hypothesis target_read : evaluation_target r i d t = Some target.

Let current : Snapshot := snapshotFromEvaluationTarget target.
Let next : Snapshot := stepped target current (me_outcome result).
Let params : SaveAlertSnapshotParams := save_params target d now result current next inMaintenance window.

Lemma current_shaped : shaped current.
Proof using inv target_read.
  destruct (evaluation_target_read _ _ _ _ _ target_read) as (_ & _ & Hc). unfold current.
  destruct (candidate_alert (r, i, d) _) as [a|] eqn:E; destruct Hc as [_ ->]; [|done].
  apply row_snapshot_shaped. apply candidate_alert_Some in E as (Ha & _); [|done]. by eapply (alerts_shaped _ inv).
Qed.

Lemma next_shaped : shaped next.
Proof using inv target_read. apply Step_shaped, current_shaped. Qed.

Lemma next_fired : snap_State next <> RECOVERED -> snapshot_fired next <-> snapshot_fired current \/ starts_firing current next = true.
Proof using inv target_read. apply (Step_fired _ _ _ _ current_shaped). Qed.

Lemma updated_stores a : stores (et_Version target) next (updated_alert params a).
Proof. by split_and!. Qed.

Lemma inserted_stores id : stores (et_Version target) next (inserted_alert id params).
Proof. by split_and!. Qed.

(** The first trigger time after the save of an unresolved alert. *)
Lemma saved_first (first : option Time) :
  snap_State next <> RECOVERED -> (is_Some first <-> snapshot_fired current) ->
  is_Some (coalesce first (sp_FirstTriggeredAt params)) <-> snapshot_fired next.
Proof using inv target_read.
  intros Hr Hfirst. rewrite (next_fired Hr). unfold params, save_params, coalesce. simpl.
  destruct first as [f|]; [split; [left; by apply Hfirst|by eauto]|].
  destruct (starts_firing current next); split; [by right|by eauto|by intros [? ?]|].
  intros [H|H]; [|done]. by apply Hfirst in H.
Qed.

(** The current snapshot in terms of the unresolved alert of the key. *)
Lemma current_unresolved :
  match unresolved_alert (r, i, d) (n_alert (e_notify t)) with
  | Some a => current = row_snapshot (et_Version target) a
  | None => ~ snapshot_fired current
  end.
Proof using inv target_read.
  destruct (evaluation_target_read _ _ _ _ _ target_read) as (_ & _ & Hcand). unfold current.
  destruct (candidate_alert (r, i, d) _) as [c|] eqn:Ec; destruct Hcand as [_ ->].
  - destruct (candidate_alert_Some t _ c inv Ec) as (Hcl & Hck & Hcr & Hcu).
    destruct (decide (ai_Status c = RECOVERED)) as [Hr|Hr]; [rewrite (Hcr Hr)|by rewrite (Hcu Hr)].
    rewrite row_snapshot_fired. unfold fired. intuition congruence.
  - destruct (unresolved_alert (r, i, d) _) as [a|] eqn:Eu.
    + destruct (unresolved_alert_Some t _ a inv Eu) as (Ha & Hk & _). by destruct (candidate_alert_None _ _ _ _ Ec Ha).
    + unfold snapshot_fired. simpl. intuition congruence.
Qed.

Hypothesis not_settled : ~ (snap_State current = RECOVERED /\ me_outcome result <> Breaching).

(** A firing alert is recovered. *)
Lemma recover_saved :
  snap_State next = RECOVERED ->
  triple (fun t1 => t1 = t) (RecoverAlertSnapshot (et_AlertInstanceID target) params (sp_RecoveredAt params))
    (fun id t' => saved t t' (r, i, d) (et_Version target) now next (starts_firing current next) id) (fun _ => True).
Proof using inv target_read not_settled.
  intros Hnext. destruct (evaluation_target_read _ _ _ _ _ target_read) as (_ & _ & Hcand).
  apply triple_statement; [done|]. intros t1 id t' -> Heff. split; [|done].
  case_bool_decide as Hrec; [done|].
  destruct (Step_recovers _ _ _ _ current_shaped Hnext) as [Hfiring|Hset]; [|by destruct not_settled].
  destruct (candidate_alert (r, i, d) _) as [a|] eqn:Ec; destruct Hcand as [Hid Hcur].
  2:{ unfold current in Hfiring. by rewrite Hcur in Hfiring. }
  destruct (candidate_alert_Some t _ a inv Ec) as (Ha & Hk & _).
  assert (ai_Status a = FIRING) as Hst.
  { unfold current in Hfiring. rewrite Hcur in Hfiring. by destruct (row_snapshot_fields (et_Version target) a) as [<- _]. }
  unfold update_unresolved in Heff. rewrite Hid in Heff. simpl in Heff. rewrite Ha in Heff. simpl in Heff.
  rewrite bool_decide_false in Heff by congruence.
  destruct (write_alert _ _ t) as [[w tw]|] eqn:Hw; [|done]. simpl in Heff. injection Heff as <- <-.
  apply write_alert_Ok in Hw as [-> ->].
  assert (stores (et_Version target) next (recovered_alert params a)) as Hstores.
  { assert (StateBeforeNoData next = NoState) as Hb by (apply next_shaped; rewrite Hnext; done).
    unfold stores. simpl. rewrite Hb, Hnext. split_and!; done. }
  split.
  - apply write_alert_inv; [done| |done|by eapply stores_shaped, Hstores; apply next_shaped|done|done|].
    + by apply (alerts_keyed _ inv _ _ Ha).
    + intros old Hold. by assert (old = a) as -> by congruence.
  - exists (recovered_alert params a). simpl. rewrite lookup_insert_eq. split_and!; try done.
    intros Hf. apply starts_firing_spec in Hf as [_ Hf]. congruence.
  - intros j Hj. simpl. by rewrite lookup_insert_ne.
  - intros b Hb. assert (b = a) as -> by congruence. split; [done|congruence].
  - intros j c Hc Hck Hcs. eapply (alerts_unique _ inv); [exact Hc|exact Ha|done|congruence..].
  - simpl. rewrite lookup_insert_eq, Ha. by intros b [= <-].
Qed.

(** An unresolved alert is updated. *)
Lemma update_saved a t' id :
  snap_State next <> RECOVERED -> unresolved_alert (r, i, d) (n_alert (e_notify t)) = Some a ->
  write_alert (ai_ID a) (updated_alert params a) t = Ok (id, t') ->
  saved t t' (r, i, d) (et_Version target) now next (starts_firing current next) id.
Proof using inv target_read.
  intros Hnext Eu [-> ->]%write_alert_Ok. destruct (unresolved_alert_Some t _ a inv Eu) as (Ha & Hk & Hun).
  assert (is_Some (ai_FirstTriggeredAt a) <-> snapshot_fired current) as Hfirst.
  { pose proof current_unresolved as Hcur. rewrite Eu in Hcur. rewrite Hcur, row_snapshot_fired. by apply (alerts_fired _ inv (ai_ID a)). }
  pose proof (saved_first (ai_FirstTriggeredAt a) Hnext Hfirst) as Hsf.
  split.
  - apply write_alert_inv; [done| |done|..].
    + by apply (alerts_keyed _ inv _ _ Ha).
    + by eapply stores_shaped, updated_stores; apply next_shaped.
    + intros _. rewrite (stores_fired _ _ _ (updated_stores a)). exact Hsf.
    + intros _ j b Hb Hbs Hbk. eapply (alerts_unique _ inv); [exact Hb|exact Ha|done|done|exact Hbk].
    + intros old Hold [f Hf]. assert (old = a) as -> by congruence. simpl. rewrite Hf. by exists f.
  - exists (updated_alert params a). simpl. rewrite lookup_insert_eq. split_and!; try done.
    intros Hf. apply Hsf, next_fired; auto.
  - intros j Hj. simpl. by rewrite lookup_insert_ne.
  - intros b Hb. by assert (b = a) as -> by congruence.
  - intros j c Hc Hck Hcs. eapply (alerts_unique _ inv); [exact Hc|exact Ha|done|congruence..].
  - simpl. rewrite lookup_insert_eq, Ha. by intros b [= <-].
Qed.

(** Or a new one is inserted. *)
Lemma insert_saved t' id :
  snap_State next <> RECOVERED -> unresolved_alert (r, i, d) (n_alert (e_notify t)) = None ->
  let new := fresh (n_issued (e_notify t)) in
  write_alert new (inserted_alert new params) (alter_notify (alter_issued (fun issued => {[new]} ∪ issued)) t) = Ok (id, t') ->
  saved t t' (r, i, d) (et_Version target) now next (starts_firing current next) id.
Proof using inv target_read not_settled.
  intros Hnext Eu new [-> ->]%write_alert_Ok.
  destruct (evaluation_target_read _ _ _ _ _ target_read) as (Hrule & Hinst & _).
  assert (n_alert (e_notify t) !! new = None) as Hnew.
  { destruct (n_alert (e_notify t) !! new) as [a|] eqn:E; [|done].
    destruct (alerts_keyed _ inv _ _ E) as [_ Hin]. by destruct (is_fresh (n_issued (e_notify t))). }
  assert (alert_key (inserted_alert new params) = (r, i, d)) as Hk by (unfold alert_key; simpl; by rewrite Hrule, Hinst).
  assert (is_Some (None : option Time) <-> snapshot_fired current) as Hfirst.
  { pose proof current_unresolved as Hcur. rewrite Eu in Hcur. split; [by intros [? ?]|done]. }
  pose proof (saved_first None Hnext Hfirst) as Hsf. simpl in Hsf.
  split.
  - apply write_alert_inv; [by apply issue_inv|simpl; set_solver|done|..].
    + by eapply stores_shaped, inserted_stores; apply next_shaped.
    + intros _. rewrite (stores_fired _ _ _ (inserted_stores new)). exact Hsf.
    + intros _ j b Hb Hbs Hbk. simpl in Hb. rewrite Hk in Hbk. by destruct Hbs; eapply unresolved_alert_None.
    + intros old Hold. simpl in Hold. congruence.
  - exists (inserted_alert new params). simpl. rewrite lookup_insert_eq. split_and!; try done.
    intros Hf. apply Hsf, next_fired; auto.
  - intros j Hj. simpl. by rewrite lookup_insert_ne.
  - intros b Hb. congruence.
  - intros j c Hc Hck Hcs. by destruct Hcs; eapply unresolved_alert_None.
  - simpl. rewrite lookup_insert_eq, Hnew. by intros b [= <-].
Qed.

Lemma save_alert_saved :
  triple (fun t1 => t1 = t) (save_alert target params)
    (fun id t' => saved t t' (r, i, d) (et_Version target) now next (starts_firing current next) id) (fun _ => True).
Proof using inv target_read not_settled.
  destruct (evaluation_target_read _ _ _ _ _ target_read) as (Hrule & Hinst & _).
  unfold save_alert. apply triple_wrap. change (sp_Status params) with (snap_State next). case_bool_decide as Hnext.
  { by apply recover_saved. }
  apply triple_statement; [done|]. intros t1 id t' -> Heff. split; [|done].
  replace (sp_RuleID params, sp_InstanceID params, sp_MetricDimensionKey params) with (r, i, d) in Heff
    by (unfold params; simpl; by rewrite Hrule, Hinst).
  destruct (unresolved_alert (r, i, d) _) as [a|] eqn:Eu; [by eapply update_saved|by eapply insert_saved].
Qed.
End Save.

(** Missing data that the rule ignores reset the counters of the unresolved alert. *)
Lemma reset_saved t r i d target now inMaintenance window :
  alerts_inv t -> evaluation_target r i d t = Some target -> is_Some (et_AlertInstanceID target) ->
  let current := snapshotFromEvaluationTarget target in
  let next := stepped target current MissingIgnored in
  snap_State current <> RECOVERED ->
  triple (fun t1 => t1 = t) (ResetIgnoredMissingAlert target next now inMaintenance window)
    (fun _ t' => exists id, saved t t' (r, i, d) (et_Version target) now next false id) (fun _ => True).
Proof.
  intros Hi Ht [id0 Hid0] current next Hcur. apply triple_statement; [done|]. intros t1 [] t' -> Heff. split; [|done].
  destruct (evaluation_target_read _ _ _ _ _ Ht) as (_ & _ & Hcand).
  destruct (candidate_alert (r, i, d) _) as [a|] eqn:Ec; destruct Hcand as [Hid Hsnap]; [|congruence].
  destruct (candidate_alert_Some t _ a Hi Ec) as (Ha & Hk & _).
  destruct (row_snapshot_fields (et_Version target) a) as [Hst Hbef].
  unfold current in Hcur. rewrite Hsnap, Hst in Hcur.
  unfold update_unresolved in Heff. rewrite Hid in Heff. simpl in Heff. rewrite Ha in Heff. simpl in Heff.
  rewrite bool_decide_false in Heff by done.
  destruct (write_alert _ _ t) as [[w tw]|] eqn:Hw; [|done]. simpl in Heff. injection Heff as <-.
  apply write_alert_Ok in Hw as [-> ->]. set (a' := reset_alert _ _ _ _ _ _ _ _).
  assert (row_shaped a') as Hshaped by apply (alerts_shaped _ Hi _ _ Ha).
  assert (stores (et_Version target) next a') as Hstores.
  { unfold next, current. rewrite stepped_Step, Hsnap. destruct Hshaped as (_ & Hb & Hnb).
    unfold stores, a', next, current. simpl. rewrite stepped_Step, Hsnap. unfold row_snapshot.
    simpl in Hb, Hnb. assert (ai_StateBeforeNoData a = (if bool_decide (default NoState (ai_StateBeforeNoData a) = NoState)
      then None else Some (default NoState (ai_StateBeforeNoData a)))) as Hbefore.
    { destruct (decide (ai_Status a = NO_DATA)) as [Hn|Hn]; [|by rewrite (Hnb Hn)].
      destruct (Hb Hn) as (s & -> & [->|[->| ->]]); done. }
    destruct (bool_decide (ai_RuleVersion a = _)); simpl; by split_and!. }
  exists (ai_ID a). split.
  - apply write_alert_inv; [done| |done|done|..].
    + by apply (alerts_keyed _ Hi _ _ Ha).
    + intros _. by apply (alerts_fired _ Hi _ _ Ha).
    + intros _ j b Hb Hbs Hbk. by eapply (alerts_unique _ Hi); [exact Hb|exact Ha|..].
    + intros old Hold. by assert (old = a) as -> by congruence.
  - exists a'. simpl. by rewrite lookup_insert_eq.
  - intros j Hj. simpl. by rewrite lookup_insert_ne.
  - intros b Hb. by assert (b = a) as -> by congruence.
  - intros j c Hc Hck Hcs. eapply (alerts_unique _ Hi); [exact Hc|exact Ha|done|congruence..].
  - simpl. rewrite lookup_insert_eq, Ha. by intros b [= <-].
Qed.

(** * What follows the save keeps the alerts *)

(** The notification package changes the maintenance columns of alerts at most. *)
Definition notify_same (n n' : NotifyTables) : Prop :=
  (forall id, core <$> n_alert n' !! id = core <$> n_alert n !! id) /\ n_issued n ⊆ n_issued n'.

#[export] Instance notify_same_preorder : PreOrder notify_same.
Proof.
  split; [done|]. intros x y z [H1 H2] [H3 H4]. split; [|by etrans]. intros id. by rewrite H3.
Qed.

Lemma mark_suppressed_same alertID window at_ n : notify_same n (mark_suppressed alertID window at_ n).
Proof.
  unfold mark_suppressed. destruct (n_alert n !! alertID) as [a|] eqn:Ha; [|done]. split; [|done]. simpl. intros id.
  destruct (decide (alertID = id)) as [<-|Hne]; [by rewrite lookup_insert_eq, Ha|by rewrite lookup_insert_ne].
Qed.

Lemma insert_delivery_same alertID event template payload at_ acc destination :
  notify_same acc.2 (insert_delivery alertID event template payload at_ acc destination).2.
Proof. destruct acc, destination as [[? ?] ?]. split; [done|]. simpl. set_solver. Qed.

Lemma insert_deliveries_same alertID event template payload at_ ds acc :
  notify_same acc.2 (foldl (insert_delivery alertID event template payload at_) acc ds).2.
Proof.
  revert acc. induction ds as [|d ds IH]; intros acc; [done|]. simpl. etrans; [apply insert_delivery_same|apply IH].
Qed.

(** Code that leaves the alerts of [t1] alone but for their maintenance columns,
    and the invariant. *)
Definition kept (t1 t' : EvalTables) : Prop := same_alerts t1 t' /\ alerts_inv t'.

Definition keeps_alerts {A} (t1 : EvalTables) (m : DB EvalTables A) : Prop :=
  triple (kept t1) m (fun _ => kept t1) (kept t1).

Lemma keeps_alerts_statement {A} t1 (effect : EvalTables -> result (A * EvalTables)) :
  (forall t a t', kept t1 t -> effect t = Ok (a, t') -> same_alerts t t' /\ alerts_inv t') -> keeps_alerts t1 (statement effect).
Proof.
  intros He. apply triple_statement; [done|]. intros t a t' Ht Heff. destruct (He t a t' Ht Heff) as [Hs Hi].
  assert (same_alerts t1 t') by (intros id; rewrite (Hs id); apply (proj1 Ht)). done.
Qed.

Lemma keeps_alerts_exec t1 f : (forall t, kept t1 t -> same_alerts t (f t) /\ alerts_inv (f t)) -> keeps_alerts t1 (exec f).
Proof. intros Hf. apply keeps_alerts_statement. intros t a t' Ht [= <- <-]. auto. Qed.

Lemma keeps_alerts_notify {A} t1 (effect : NotifyTables -> result (A * NotifyTables)) :
  (forall n a n', effect n = Ok (a, n') -> notify_same n n') -> keeps_alerts t1 (in_notify (statement effect)).
Proof.
  intros Hm fs t [Hs Hi]. unfold in_notify, focus, statement.
  assert (forall n', notify_same (e_notify t) n' -> kept t1 (alter_notify (fun _ => n') t)) as Hk.
  { intros n' [H1 H2]. split; [intros id; simpl; by rewrite H1|]. by eapply alerts_inv_same; [..|exact Hi]. }
  assert (kept t1 (alter_notify (fun _ => e_notify t) t)) by by apply Hk.
  destruct (next_fate fs) as [[|e|e] fs1]; simpl; [|done|];
    destruct (effect (e_notify t)) as [[a n']|] eqn:E; simpl; try done; by eapply Hk, Hm.
Qed.

Lemma keeps_alerts_bind {A B} t1 (m : DB EvalTables A) (k : A -> DB EvalTables B) :
  keeps_alerts t1 m -> (forall a, keeps_alerts t1 (k a)) -> keeps_alerts t1 (m ≫= k).
Proof. intros Hm Hk. by eapply triple_bind. Qed.

Lemma keeps_alerts_ret {A} t1 (a : A) : keeps_alerts t1 (mret a).
Proof. by apply triple_ret. Qed.

Lemma keeps_alerts_wrap {A} t1 message (m : DB EvalTables A) : keeps_alerts t1 m -> keeps_alerts t1 (wrap message m).
Proof. apply triple_wrap. Qed.

Lemma keeps_alerts_for_each {I} t1 (f : I -> DB EvalTables unit) items :
  (forall i, keeps_alerts t1 (f i)) -> keeps_alerts t1 (for_each f items).
Proof. intros Hf. apply triple_for_each. intros i _. apply Hf. Qed.

Create HintDb alerts.

(** Walks through code, closing its statements with the database. *)
Ltac keep_alerts :=
  repeat first
    [ apply keeps_alerts_ret
    | apply keeps_alerts_bind; [|intros ?]
    | apply keeps_alerts_wrap
    | apply keeps_alerts_for_each; intros ?
    | solve [auto with alerts]
    | match goal with
      | |- keeps_alerts _ (if ?b then _ else _) => destruct b
      | |- keeps_alerts _ (match ?o with _ => _ end) => destruct o
      end ].

Lemma EnqueueAlertNotifications_alerts t1 alertID event template payload at_ :
  keeps_alerts t1 (in_notify (EnqueueAlertNotifications alertID event template payload at_)).
Proof.
  apply keeps_alerts_notify. intros n ids n' He. destruct (selected_policy n alertID event); [|by injection He as <- <-].
  injection He as He. pose proof (insert_deliveries_same alertID event template payload (timestamptz at_) (destinations n s) ([], n)) as H.
  by rewrite He in H.
Qed.

Lemma DeletePendingNotification_alerts t1 id : keeps_alerts t1 (in_notify (DeletePendingNotification id)).
Proof. apply keeps_alerts_notify. intros n a n' [= <- <-]. by destruct (is_pending n id). Qed.

Lemma RecordMaintenanceSuppressed_alerts t1 alertID window at_ :
  keeps_alerts t1 (in_notify (RecordMaintenanceSuppressed alertID window at_)).
Proof. apply keeps_alerts_notify. intros n a n' [= <- <-]. apply mark_suppressed_same. Qed.

#[export] Hint Resolve EnqueueAlertNotifications_alerts DeletePendingNotification_alerts RecordMaintenanceSuppressed_alerts : alerts.

Lemma MarkAlertRuleEvaluated_alerts t1 r i d at_ : keeps_alerts t1 (MarkAlertRuleEvaluated r i d at_).
Proof.
  apply keeps_alerts_exec. intros t [_ Hi]. split; [done|]. by eapply alerts_inv_same; [..|exact Hi].
Qed.

Lemma CreateAlertEvent_alerts t1 event : keeps_alerts t1 (CreateAlertEvent event).
Proof.
  apply keeps_alerts_statement. intros t a t' [_ Hi] He. destruct (negb _); [done|]. destruct (bool_decide _); [done|].
  destruct (match ev_TriggerSnapshotID event with Some _ => _ | None => _ end); [done|]. injection He as <- <-.
  split; [done|]. by eapply alerts_inv_same; [..|exact Hi].
Qed.

#[export] Hint Resolve MarkAlertRuleEvaluated_alerts CreateAlertEvent_alerts : alerts.

Lemma emit_event_alerts t1 sprint scheduled target alertID now result params previousState snapshotID kind :
  keeps_alerts t1 (emit_event sprint scheduled target alertID now result params previousState snapshotID kind).
Proof. unfold emit_event, announce. keep_alerts. Qed.

(** An alert that has a first trigger time in [t1] has one while the alerts are kept. *)
Definition has_fired (t : EvalTables) (id : string) : Prop :=
  exists a, n_alert (e_notify t) !! id = Some a /\ is_Some (ai_FirstTriggeredAt a).

Lemma has_fired_kept t1 t' id : kept t1 t' -> has_fired t1 id -> has_fired t' id.
Proof.
  intros [Hs _] (a & Ha & Hf). assert (same_alerts t' t1) as Hs' by (intros j; by rewrite (Hs j)).
  destruct (same_alerts_lookup t' t1 id a Hs' Ha) as (b & Hb & Hc). exists b. split; [done|].
  apply core_eq in Hc as (_ & _ & _ & _ & -> & _). done.
Qed.

Lemma CreatePerformanceEvent_alerts t1 alertID kind at_ :
  has_fired t1 alertID -> keeps_alerts t1 (CreatePerformanceEvent alertID kind at_).
Proof.
  intros Hf. apply keeps_alerts_statement. intros t a t' Ht He. pose proof (has_fired_kept _ _ _ Ht Hf) as Hft.
  destruct Ht as [_ Hi]. destruct (bool_decide _); [done|].
  destruct (e_performance_event t !! alertID) as [e|] eqn:E; injection He as <- <-; [done|].
  split; [done|]. destruct Hi. split; try done. simpl.
  intros id e [[<- <-]|[Hne He]]%lookup_insert_Some; [done|by eapply events_fired0].
Qed.

Lemma CreateTriggerSnapshot_alerts t1 row :
  has_fired t1 (snapshot_AlertInstanceID row) -> keeps_alerts t1 (CreateTriggerSnapshot row).
Proof.
  intros Hf. apply keeps_alerts_statement. intros t a t' Ht He. pose proof (has_fired_kept _ _ _ Ht Hf) as Hft.
  destruct Ht as [_ Hi]. destruct (_ <? 0); [done|]. case_bool_decide; [done|]. case_bool_decide as Hex; [done|].
  injection He as <- <-. set (id := fresh (n_issued (e_notify t))).
  apply (issue_inv t id) in Hi. split; [done|]. destruct Hi as [Hk Hsh Hu Hfi Hsf Hsu Hev]. split; try done; simpl.
  - intros sid r [[<- <-]|[Hne Hr]]%lookup_insert_Some; [split; [set_solver|done]|by eapply Hsf].
  - assert (forall j q, e_trigger_snapshot t !! j = Some q -> snapshot_AlertInstanceID row <> snapshot_AlertInstanceID q) as Hnew.
    { intros j q Hq Heq. apply Hex, Exists_exists. exists q. split; [|done].
      apply list_elem_of_fmap. exists (j, q). split; [done|by apply elem_of_map_to_list]. }
    intros i j r q [[<- <-]|[Hne Hr]]%lookup_insert_Some [[<- <-]|[Hne' Hq]]%lookup_insert_Some Heq; [done|..].
    + by destruct (Hnew j q).
    + by destruct (Hnew i r).
    + by eapply Hsu.
Qed.

Lemma CreateTriggerSnapshotSession_alerts t1 id session : keeps_alerts t1 (CreateTriggerSnapshotSession id session).
Proof.
  apply keeps_alerts_statement. intros t a t' [_ Hi] He. destruct (negb _); [done|]. destruct (bool_decide _); [done|].
  destruct (bool_decide _); [done|]. injection He as <- <-. split; [done|]. by eapply alerts_inv_same; [..|exact Hi].
Qed.

#[export] Hint Resolve emit_event_alerts CreatePerformanceEvent_alerts CreateTriggerSnapshot_alerts
  CreateTriggerSnapshotSession_alerts : alerts.

Lemma captureAndPersist_alerts t1 read limit target alertID at_ scope :
  has_fired t1 alertID -> keeps_alerts t1 (captureAndPersistTriggerSnapshot read limit target alertID at_ scope).
Proof. intros Hf. unfold captureAndPersistTriggerSnapshot. keep_alerts. Qed.

(** * One evaluation *)

#[export] Instance read_control_plane_keeps instanceID : Keeps (fun t => t) (read_control_plane instanceID).
Proof.
  apply statement_keeps. intros t a t' H. by destruct (ReadControlPlaneFacts _); simplify_eq/=.
Qed.

#[export] Instance evaluateMetric_keeps target dimension now : Keeps (fun t => t) (evaluateMetric target dimension now).
Proof. unfold evaluateMetric, ruleWindowPoints. apply _. Qed.

#[export] Instance evaluateMetric_propagates target dimension now : Propagates (evaluateMetric target dimension now).
Proof. unfold evaluateMetric, ruleWindowPoints, read_control_plane. apply _. Qed.

#[export] Instance in_notify_keeps {A} (m : DB NotifyTables A) : Keeps (fun n => n) m -> Keeps (fun t => t) (in_notify m).
Proof.
  intros Hm fs t. specialize (Hm fs (e_notify t)). unfold tables_after, in_notify, focus in *.
  destruct (m fs (e_notify t)) as [[r n'] fs1]. simpl in *. subst n'. by destruct t.
Qed.

#[export] Instance FindActiveMaintenanceWindow_keeps instanceID now :
  Keeps (fun n => n) (FindActiveMaintenanceWindow instanceID now).
Proof. intros fs t. apply (FindActiveMaintenanceWindow_run instanceID now fs t). Qed.

#[export] Instance FindActiveMaintenanceWindow_propagates instanceID now :
  Propagates (FindActiveMaintenanceWindow instanceID now).
Proof. unfold FindActiveMaintenanceWindow. apply _. Qed.

(** What an evaluation makes of the stored snapshot: missing data that the rule
    ignores only reset the counters, a recovered alert waits for a breach, and
    anything else is one step of the state machine. *)
Definition effective (target : GetEvaluationTargetRow) (outcome : Evaluation) : Evaluation :=
  if bool_decide (outcome = Missing) && bool_decide (et_NoDataPolicy target = "ignore") then MissingIgnored else outcome.

Definition rule_step (target : GetEvaluationTargetRow) (outcome : Evaluation) : Snapshot :=
  let current := snapshotFromEvaluationTarget target in
  let e := effective target outcome in
  if bool_decide (snap_State current = RECOVERED) && bool_decide (e <> Breaching) then current
  else Step current e (et_ConsecutiveCount target) (et_RecoveryConsecutiveCount target).

(** The alert of [key] was written with [next], and no other. *)
Definition moved (t t' : EvalTables) (key : string * string * string) (version : Z) (now : Time) (next : Snapshot) : Prop :=
  exists t1 fires id, saved t t1 key version now next fires id /\ kept t1 t'.

Section Rule.
Context (read_sessions : GetEvaluationTargetRow -> list TriggerSession + string) (sprint : float64 -> string) (limit : Z).
Context (scheduled : ListEvaluationTargetsRow) (now : Time).

Let r := lt_RuleID scheduled.
Let i := lt_InstanceID scheduled.
Let d := lt_MetricDimensionKey scheduled.

Lemma apply_step_moved t target result inMaintenance window :
  alerts_inv t -> evaluation_target r i d t = Some target ->
  ~ (snap_State (snapshotFromEvaluationTarget target) = RECOVERED /\ me_outcome result <> Breaching) ->
  triple (fun t1 => t1 = t)
    (apply_step read_sessions sprint limit scheduled target now result (snapshotFromEvaluationTarget target) inMaintenance window)
    (fun _ t' => moved t t' (r, i, d) (et_Version target) now
       (stepped target (snapshotFromEvaluationTarget target) (me_outcome result))) (fun _ => True).
Proof.
  intros Hi Ht Hns. unfold apply_step. eapply triple_bind; [by apply save_alert_saved|].
  intros id fs t1 Hsaved.
  set (fires := starts_firing _ _) in *.
  assert (fires = true -> has_fired t1 id) as Hfired.
  { intros Hf. destruct (saved_row _ _ _ _ _ _ _ _ Hsaved) as (a & Ha & _ & _ & _ & _ & Hfirst). exists a. auto. }
  assert (kept t1 t1) as Hk by (split; [done|by apply (saved_inv _ _ _ _ _ _ _ _ Hsaved)]).
  match goal with |- match (?m fs t1).1 with _ => _ end => assert (keeps_alerts t1 m) as Hm end.
  { clearbody fires. destruct fires; keep_alerts; auto using captureAndPersist_alerts, CreatePerformanceEvent_alerts. }
  specialize (Hm fs t1 Hk). revert Hm.
  match goal with |- context [?m fs t1] => destruct (m fs t1) as [[[u|e] t'] fs'] end; [|done].
  simpl. intros Hkept. exists t1, fires, id. auto.
Qed.

(** The tables after an evaluation that leaves the alert as it is. *)
Definition only_marked (t : EvalTables) : EvalTables := alter_evaluated <[(r, i, d) := timestamptz now]> t.

(** Whatever faults the evaluation meets, when it succeeds it has marked the rule
    as evaluated and moved the alert as [rule_step] says. *)
Definition evaluated (t : EvalTables) (target : GetEvaluationTargetRow) (t' : EvalTables) : Prop :=
  if structurallyNotApplicable (et_MetricID target) (et_LastErrorCode target) (et_AgentMetricsEnabled target) (et_AgentExpected target)
  then t' = only_marked t
  else exists result, evaluateMetric target d now [] t = (Ok result, t, []) /\
    (rule_step target (me_outcome result) = snapshotFromEvaluationTarget target /\ t' = only_marked t \/
     moved t t' (r, i, d) (et_Version target) now (rule_step target (me_outcome result))).

Lemma mark_marks t target :
  et_RuleID target = r -> et_InstanceID target = i ->
  triple (fun t1 => t1 = t) (MarkAlertRuleEvaluated (et_RuleID target) (et_InstanceID target) d now)
    (fun _ t' => t' = only_marked t) (fun _ => True).
Proof. intros -> ->. apply triple_statement; [done|]. by intros t1 [] t' -> [= <-]. Qed.

(** The part of the evaluation after the maintenance window is known. *)
Lemma decided t target result inMaintenance window :
  alerts_inv t -> evaluation_target r i d t = Some target ->
  let current := snapshotFromEvaluationTarget target in
  let mark := MarkAlertRuleEvaluated (et_RuleID target) (et_InstanceID target) d now in
  triple (fun t1 => t1 = t)
    (if bool_decide (me_outcome result = Missing) && bool_decide (et_NoDataPolicy target = "ignore") then
       _ ← (if bool_decide (is_Some (et_AlertInstanceID target)) && bool_decide (snap_State current <> RECOVERED) then
              wrap "reset alert counters for ignored missing data" (ResetIgnoredMissingAlert target
                (stepped target current MissingIgnored) now inMaintenance window)
            else mret tt);
       mark
     else if bool_decide (snap_State current = RECOVERED) && bool_decide (me_outcome result <> Breaching) then mark
     else apply_step read_sessions sprint limit scheduled target now result current inMaintenance window)
    (fun _ t' => rule_step target (me_outcome result) = current /\ t' = only_marked t \/
       moved t t' (r, i, d) (et_Version target) now (rule_step target (me_outcome result))) (fun _ => True).
Proof.
  intros Hi Ht current mark. destruct (evaluation_target_read _ _ _ _ _ Ht) as (Hr & Hin & Hcand).
  unfold rule_step, effective. fold current.
  destruct (bool_decide (me_outcome result = Missing) && _).
  - rewrite (bool_decide_true (MissingIgnored <> Breaching)), andb_true_r by done.
    destruct (decide (snap_State current = RECOVERED)) as [Hrec|Hrec].
    { rewrite (bool_decide_true (_ = RECOVERED)), (bool_decide_false (_ <> RECOVERED)), andb_false_r by auto.
      eapply triple_weaken; [exact (mark_marks t target Hr Hin)|done|by intros [] t' ->; left|done]. }
    rewrite (bool_decide_false (_ = RECOVERED)), (bool_decide_true (_ <> RECOVERED)), andb_true_r by done.
    case_bool_decide as Hex.
    + eapply triple_bind; [apply triple_wrap, (reset_saved t r i d target now inMaintenance window Hi Ht Hex Hrec)|].
      intros [] fs t1 [id Hs]. assert (kept t1 t1) as Hk by (split; [done|by apply (saved_inv _ _ _ _ _ _ _ _ Hs)]).
      pose proof (MarkAlertRuleEvaluated_alerts t1 (et_RuleID target) (et_InstanceID target) d now fs t1 Hk) as Hm.
      unfold mark. destruct (MarkAlertRuleEvaluated _ _ _ _ fs t1) as [[[u|e] t'] fs']; simpl in *; [|done].
      right. exists t1, false, id. auto.
    + assert (current = InitialSnapshot) as ->.
      { unfold current. destruct (candidate_alert _ _); destruct Hcand as [Hid Hc]; [|done].
        rewrite Hid in Hex. by destruct Hex; eexists. }
      eapply triple_weaken; [exact (mark_marks t target Hr Hin)|done|by intros [] t' ->; left|done].
  - destruct (bool_decide (snap_State current = RECOVERED) && _) eqn:Hset.
    + eapply triple_weaken; [exact (mark_marks t target Hr Hin)|done|by intros [] t' ->; left|done].
    + eapply triple_weaken; [apply (apply_step_moved t target result inMaintenance window Hi Ht)|done|by right|done].
      intros [H1 H2]. apply andb_false_iff in Hset as [Hs|Hs]; apply bool_decide_eq_false in Hs; auto.
Qed.

Lemma evaluateRule_evaluated t :
  alerts_inv t ->
  triple (fun t1 => t1 = t) (evaluateRule read_sessions sprint limit scheduled now)
    (fun _ t' => exists target, evaluation_target r i d t = Some target /\ evaluated t target t') (fun _ => True).
Proof.
  intros Hi. unfold evaluateRule. eapply triple_bind.
  { apply triple_wrap, (triple_statement _ _ (fun target t' => evaluation_target r i d t = Some target /\ t' = t)); [done|].
    intros t1 target t' -> He. fold r i d in He. destruct (evaluation_target r i d t); [|done]. by injection He as -> ->. }
  intros target. apply triple_at. intros t1 [Ht ->].
  destruct (evaluation_target_read _ _ _ _ _ Ht) as (Hr & Hin & _). fold d.
  destruct (structurallyNotApplicable _ _ _ _) eqn:Hna.
  { eapply triple_weaken; [exact (mark_marks t target Hr Hin)|done| |done].
    intros [] t' ->. exists target. unfold evaluated. by rewrite Hna. }
  eapply triple_bind; [eapply triple_weaken; [apply (triple_reads (evaluateMetric target d now) t)|done..]|].
  intros result. apply triple_at. intros t1 [-> Hm].
  eapply triple_bind; [eapply triple_weaken; [apply (triple_reads (wrap _ (in_notify (FindActiveMaintenanceWindow _ now))) t)|done..]|].
  intros [window inMaintenance]. apply triple_at. intros t1 [-> _].
  eapply triple_weaken; [apply (decided t target result inMaintenance window Hi Ht)|done| |done].
  intros [] t' H. exists target. unfold evaluated. rewrite Hna. split; [done|]. exists result. done.
Qed.
End Rule.

(** * A pass over all rules *)

Lemma evaluateRule_inv read_sessions sprint limit scheduled now :
  triple alerts_inv (evaluateRule read_sessions sprint limit scheduled now) (fun _ => alerts_inv) (fun _ => True).
Proof.
  apply triple_at. intros t Hi. eapply triple_weaken; [by apply evaluateRule_evaluated|done| |done].
  intros [] t' (target & _ & Hev).
  assert (alerts_inv (only_marked scheduled now t)) as Hmarked by by eapply alerts_inv_same; [..|exact Hi].
  unfold evaluated in Hev. destruct (structurallyNotApplicable _ _ _ _); [by subst|].
  destruct Hev as (result & _ & [[_ ->]|(t1 & fires & id & _ & _ & H)]); done.
Qed.

Lemma evaluateInstance_inv read_sessions sprint limit instanceID targets now :
  triple alerts_inv (evaluateInstance read_sessions sprint limit instanceID targets now) (fun _ => alerts_inv) alerts_inv.
Proof.
  apply triple_InTx; [|done]. eapply triple_bind.
  - apply (triple_statement _ _ (fun _ => alerts_inv)); [done|]. intros t paused t' Hi He.
    destruct (e_instance t !! instanceID), (e_config t !! instanceID); try done. by injection He as <- <-.
  - intros paused. destruct paused; [by apply triple_ret|]. induction targets as [|target targets IH]; simpl; [by apply triple_ret|].
    eapply triple_bind; [apply evaluateRule_inv|]. intros []. exact IH.
Qed.

(** C2. Under any faults of the platform database a pass of the evaluator over all
    rules keeps the alert tables well formed: rows are keyed and shaped, a rule has
    at most one unresolved alert per instance and dimension, which has a first trigger
    time exactly once it has fired, and trigger snapshots and performance events
    belong to alerts that fired, at most one snapshot each. *)
Theorem RunOnce_keeps_alerts_inv (read_sessions : GetEvaluationTargetRow -> list TriggerSession + string)
    (sprint : float64 -> string) (limit : Z) (now : Time) (fs : list fate) (t : EvalTables) :
  alerts_inv t -> alerts_inv (tables_after (RunOnce read_sessions sprint limit now) fs t).
Proof.
  apply triple_tables. unfold RunOnce. eapply triple_bind; [by apply triple_wrap, (triple_query _ _ (fun _ => alerts_inv))|].
  intros targets. apply triple_for_each. intros group _. apply evaluateInstance_inv.
Qed.

(** * The stored alert follows the state machine *)

(** What the evaluator reads of the configuration, and the identities of the instances:
    it never writes them. *)
Definition rules_of (n : NotifyTables) := (n_rule n, n_identity n).

Definition configuration (t : EvalTables) :=
  (rules_of (e_notify t), e_instance t, e_config t, e_source t, e_rule_version t, e_catalog t).

Lemma in_notify_keeps_rules {A} (m : DB NotifyTables A) : Keeps rules_of m -> Keeps configuration (in_notify m).
Proof.
  intros Hm fs t. specialize (Hm fs (e_notify t)). unfold tables_after, in_notify, focus in *.
  destruct (m fs (e_notify t)) as [[x n'] fs1]. unfold configuration. simpl in *. by rewrite Hm.
Qed.

(** A statement that writes other tables only. *)
Ltac other_tables := apply statement_keeps; intros ? ? ? ?; repeat case_match; by simplify_eq/=.

Lemma write_alert_configuration id row t i t' : write_alert id row t = Ok (i, t') -> configuration t' = configuration t.
Proof. by intros [-> ->]%write_alert_Ok. Qed.

Lemma update_unresolved_configuration id f t x t' :
  update_unresolved id f t = Ok (x, t') -> configuration t' = configuration t.
Proof.
  unfold update_unresolved. intros H. destruct (id ≫= _) as [a|]; [|by simplify_eq].
  destruct (bool_decide _); [by simplify_eq|]. destruct (write_alert _ _ _) as [[w tw]|] eqn:E; [|done].
  simplify_eq/=. by eapply write_alert_configuration.
Qed.

#[export] Instance SaveAlertSnapshot_configuration p : Keeps configuration (SaveAlertSnapshot p).
Proof.
  apply statement_keeps. intros t a t' H. destruct (unresolved_alert _ _); by apply write_alert_configuration in H.
Qed.

#[export] Instance RecoverAlertSnapshot_configuration id p at_ : Keeps configuration (RecoverAlertSnapshot id p at_).
Proof.
  apply statement_keeps. intros t a t' H. destruct (bool_decide _); [done|].
  destruct (update_unresolved _ _ _) as [[x tx]|] eqn:E; [|done]. apply update_unresolved_configuration in E.
  destruct x; [|done]. injection H as <- <-. exact E.
Qed.

#[export] Instance ResetIgnoredMissingAlert_configuration target next at_ m w :
  Keeps configuration (ResetIgnoredMissingAlert target next at_ m w).
Proof.
  apply statement_keeps. intros t a t' H. destruct (update_unresolved _ _ _) as [[x tx]|] eqn:E; [|done].
  apply update_unresolved_configuration in E. injection H as <- <-. exact E.
Qed.

#[export] Instance GetEvaluationTarget_configuration r i d : Keeps configuration (GetEvaluationTarget r i d).
Proof. other_tables. Qed.

#[export] Instance CreateTriggerSnapshot_configuration row : Keeps configuration (CreateTriggerSnapshot row).
Proof. other_tables. Qed.

#[export] Instance CreateTriggerSnapshotSession_configuration id s : Keeps configuration (CreateTriggerSnapshotSession id s).
Proof. other_tables. Qed.

#[export] Instance CreatePerformanceEvent_configuration id kind at_ : Keeps configuration (CreatePerformanceEvent id kind at_).
Proof. other_tables. Qed.

#[export] Instance CreateAlertEvent_configuration event : Keeps configuration (CreateAlertEvent event).
Proof. other_tables. Qed.

#[export] Instance MarkAlertRuleEvaluated_configuration r i d at_ : Keeps configuration (MarkAlertRuleEvaluated r i d at_).
Proof. other_tables. Qed.

#[export] Instance reads_configuration {A} (m : DB EvalTables A) : Keeps (fun t => t) m -> Keeps configuration m | 10.
Proof. intros Hm fs t. by rewrite (Hm fs t). Qed.

Lemma insert_deliveries_rules alertID event template payload at_ ds acc :
  rules_of (foldl (insert_delivery alertID event template payload at_) acc ds).2 = rules_of acc.2.
Proof. revert acc. induction ds as [|[[c id] dest] ds IH]; intros [ids n]; [done|]. simpl. by rewrite IH. Qed.

#[export] Instance Enqueue_configuration alertID event template payload at_ :
  Keeps configuration (in_notify (EnqueueAlertNotifications alertID event template payload at_)).
Proof.
  apply in_notify_keeps_rules, statement_keeps. intros n ids n' H. destruct (selected_policy _ _ _); [|by simplify_eq].
  injection H as H. pose proof (insert_deliveries_rules alertID event template payload (timestamptz at_) (destinations n s) ([], n)) as Hr.
  by rewrite H in Hr.
Qed.

#[export] Instance DeletePending_configuration id : Keeps configuration (in_notify (DeletePendingNotification id)).
Proof. apply in_notify_keeps_rules. unfold DeletePendingNotification, exec. other_tables. Qed.

#[export] Instance RecordSuppressed_configuration alertID window at_ :
  Keeps configuration (in_notify (RecordMaintenanceSuppressed alertID window at_)).
Proof. apply in_notify_keeps_rules. unfold RecordMaintenanceSuppressed, mark_suppressed, exec. other_tables. Qed.

#[export] Instance evaluateRule_configuration read_sessions sprint limit scheduled now :
  Keeps configuration (evaluateRule read_sessions sprint limit scheduled now).
Proof.
  unfold evaluateRule, apply_step, emit_event, announce, captureAndPersistTriggerSnapshot, save_alert. apply _.
Qed.

#[export] Instance evaluateInstance_configuration read_sessions sprint limit instanceID targets now :
  Keeps configuration (evaluateInstance read_sessions sprint limit instanceID targets now).
Proof.
  unfold evaluateInstance. apply InTx_keeps, bind_keeps; [|intros []; apply _].
  apply statement_keeps. intros t paused t' He. destruct (e_instance t !! instanceID), (e_config t !! instanceID); try done.
  by injection He as <- <-.
Qed.

#[export] Instance RunOnce_configuration read_sessions sprint limit now : Keeps configuration (RunOnce read_sessions sprint limit now).
Proof. unfold RunOnce. apply _. Qed.

(** The counters of the stored alert leave room for one more evaluation in the
    [integer] columns. *)
Definition counts_fit (s : Snapshot) : Prop :=
  0 <= BreachCount s < 2147483647 /\ 0 <= RecoveryCount s < 2147483647 /\ 0 <= NoDataCount s < 2147483647.

Lemma rule_step_fits target outcome :
  counts_fit (snapshotFromEvaluationTarget target) ->
  let s := rule_step target outcome in in_int32 (BreachCount s) /\ in_int32 (RecoveryCount s) /\ in_int32 (NoDataCount s).
Proof.
  unfold rule_step. destruct (snapshotFromEvaluationTarget target) as [state before b r n].
  unfold counts_fit, in_int32. simpl. intros (Hb & Hr & Hn). destruct (_ && _); simpl; [lia|].
  destruct (effective target outcome); step_cases; rewrite ?incr_id in * by lia; lia.
Qed.

(** The read of a key depends on the configuration and on its candidate. *)
Lemma evaluation_target_again r i d t t' target :
  evaluation_target r i d t = Some target -> configuration t' = configuration t ->
  exists target', evaluation_target r i d t' = Some target' /\ et_Version target' = et_Version target.
Proof.
  unfold configuration, evaluation_target. intros Ht [= E1 _ E2 E3 E4 E5 E6]. rewrite E1, E2, E3, E4, E5, E6.
  destruct (n_rule (e_notify t) !! r) as [rule|]; [simpl in *|done].
  destruct (e_rule_version t !! (r, rule_Version rule)) as [snapshot|]; [simpl in *|done].
  destruct (e_instance t !! i) as [inst|]; [simpl in *|done].
  destruct (rule_Enabled rule && _); [|done]. injection Ht as <-. by eexists.
Qed.

(** The alert that was written is the one read next. *)
Lemma moved_candidate t t' key version now next :
  moved t t' key version now next ->
  (forall id a, n_alert (e_notify t) !! id = Some a -> alert_key a = key -> ai_UpdatedAt a < timestamptz now) ->
  alerts_inv t -> exists a, candidate_alert key (n_alert (e_notify t')) = Some a /\ stores version next a.
Proof.
  intros (t1 & fires & id & [Hinv1 (a1 & Ha1 & Hid & Hk & Hst & Hup & _) Hothers Hknown Honly _] & Hs & Hinv') Hlast Hi.
  assert (same_alerts t' t1) as Hs' by (intros j; by rewrite (Hs j)).
  destruct (same_alerts_lookup t' t1 id a1 Hs' Ha1) as (a & Ha & Hc).
  pose proof (core_eq _ _ Hc) as (Eid & Ek & Es & Eb & _ & Eu & Ev & E1 & E2 & E3).
  exists a. split.
  2:{ unfold stores in *. by rewrite Es, Eb, Ev, E1, E2, E3. }
  apply candidate_alert_unique; [done|by rewrite Eid, Hid|by rewrite Ek|].
  assert (forall j b, n_alert (e_notify t') !! j = Some b -> alert_key b = key -> j <> id ->
    exists c, n_alert (e_notify t) !! j = Some c /\ core c = core b) as Hback.
  { intros j b Hb Hbk Hne. destruct (same_alerts_lookup t1 t' j b Hs Hb) as (c & Hcl & Hcc).
    exists c. by rewrite <-(Hothers j Hne). }
  destruct (decide (ai_Status a = RECOVERED)) as [Hrec|]; [right|by left]. split.
  - destruct (unresolved_alert key _) as [u|] eqn:Hu; [|done]. exfalso.
    apply unresolved_alert_Some in Hu as (Hul & Huk & Hus); [|done].
    assert (ai_ID u <> id) as Hne by (intros Heq; rewrite Heq in Hul; congruence).
    destruct (Hback _ _ Hul Huk Hne) as (c & Hcl & Hcc). pose proof (core_eq _ _ Hcc) as (_ & Ekc & Esc & _).
    apply Hne, (Honly _ c Hcl); congruence.
  - intros j b Hb Hbk Hne. rewrite Eid, Hid in Hne. destruct (Hback j b Hb Hbk Hne) as (c & Hcl & Hcc).
    pose proof (core_eq _ _ Hcc) as (_ & Ekc & _ & _ & _ & Euc & _). rewrite Eu, Hup, <-Euc.
    eapply Hlast; [exact Hcl|congruence].
Qed.

(** Alerts of other keys are left as they are. *)
Lemma moved_others t t' key version now next :
  moved t t' key version now next ->
  forall id a, n_alert (e_notify t) !! id = Some a -> alert_key a <> key -> core <$> n_alert (e_notify t') !! id = Some (core a).
Proof.
  intros (t1 & fires & id & [_ _ Hothers Hknown _ _] & Hs & _) j a Ha Hk. rewrite (Hs j).
  destruct (decide (j = id)) as [->|Hne]; [by destruct (Hknown a Ha)|]. by rewrite Hothers, Ha.
Qed.

(** The evaluation ends with its mark, whatever comes before. *)
Lemma ends_with_mark {A} (m : DB EvalTables A) (k : A -> DB EvalTables unit) Q :
  (forall a, triple (fun _ => True) (k a) (fun _ => Q) (fun _ => True)) ->
  triple (fun _ => True) (m ≫= k) (fun _ => Q) (fun _ => True).
Proof.
  intros Hk. apply (triple_bind _ _ _ (fun _ _ => True)); [|done].
  intros fs t _. by destruct (m fs t) as [[[a|e] t'] fs'].
Qed.

Lemma mark_last r i d now :
  triple (fun _ => True) (MarkAlertRuleEvaluated r i d now)
    (fun _ t' => e_evaluated t' !! (r, i, d) = Some (timestamptz now)) (fun _ => True).
Proof. apply triple_statement; [done|]. intros t [] t' _ [= <-]. split; [|done]. apply lookup_insert_eq. Qed.

Lemma evaluateRule_marks read_sessions sprint limit scheduled now :
  triple (fun _ => True) (evaluateRule read_sessions sprint limit scheduled now)
    (fun _ t' => e_evaluated t' !! (lt_RuleID scheduled, lt_InstanceID scheduled, lt_MetricDimensionKey scheduled) =
       Some (timestamptz now)) (fun _ => True).
Proof.
  unfold evaluateRule. apply (triple_bind _ _ _ (fun target _ =>
    et_RuleID target = lt_RuleID scheduled /\ et_InstanceID target = lt_InstanceID scheduled)).
  { apply triple_wrap, triple_statement; [done|]. intros t target t' _ He.
    destruct (evaluation_target _ _ _ t) as [x|] eqn:E; [|done]. injection He as -> ->.
    by apply evaluation_target_read in E as (? & ? & _). }
  intros target. apply triple_at. intros t [<- <-]. refine (triple_weaken _ (fun _ => True) _ _ _ _ (fun _ => True) _ (fun _ _ => I) (fun _ _ H => H) (fun _ H => H)).
  destruct (structurallyNotApplicable _ _ _ _); [apply mark_last|].
  apply ends_with_mark. intros result. apply ends_with_mark. intros [window inMaintenance].
  destruct (_ && _); [apply ends_with_mark; intros _; apply mark_last|]. destruct (_ && _); [apply mark_last|].
  unfold apply_step. do 4 (apply ends_with_mark; intros ?). apply triple_wrap, mark_last.
Qed.

(** C1. Whatever faults it meets, an evaluation that succeeds leaves stored, for the
    next evaluation to read, exactly the snapshot the state machine steps to on the
    outcome of the metric (and the same snapshot where the metric does not apply), marks
    the rule as evaluated, and leaves the alerts of every other rule, instance and
    dimension as they were but for their maintenance columns. *)
Theorem evaluateRule_refines_Step (read_sessions : GetEvaluationTargetRow -> list TriggerSession + string)
    (sprint : float64 -> string) (limit : Z) (scheduled : ListEvaluationTargetsRow) (now : Time)
    (target : GetEvaluationTargetRow) (fs fs' : list fate) (t t' : EvalTables) :
  let r := lt_RuleID scheduled in
  let i := lt_InstanceID scheduled in
  let d := lt_MetricDimensionKey scheduled in
  alerts_inv t ->
  evaluation_target r i d t = Some target ->
  counts_fit (snapshotFromEvaluationTarget target) ->
  (forall id a, n_alert (e_notify t) !! id = Some a -> alert_key a = (r, i, d) -> ai_UpdatedAt a < timestamptz now) ->
  evaluateRule read_sessions sprint limit scheduled now fs t = (Ok tt, t', fs') ->
  (exists target', evaluation_target r i d t' = Some target' /\
     if structurallyNotApplicable (et_MetricID target) (et_LastErrorCode target) (et_AgentMetricsEnabled target) (et_AgentExpected target)
     then snapshotFromEvaluationTarget target' = snapshotFromEvaluationTarget target
     else exists result, evaluateMetric target d now [] t = (Ok result, t, []) /\
       snapshotFromEvaluationTarget target' = rule_step target (me_outcome result)) /\
  (forall id a, n_alert (e_notify t) !! id = Some a -> alert_key a <> (r, i, d) ->
     core <$> n_alert (e_notify t') !! id = Some (core a)) /\
  e_evaluated t' !! (r, i, d) = Some (timestamptz now).
Proof.
  intros r i d Hi Ht Hfit Hlast Hrun.
  pose proof (evaluateRule_evaluated read_sessions sprint limit scheduled now t Hi fs t eq_refl) as Hev.
  rewrite Hrun in Hev. destruct Hev as (target0 & Ht0 & Hev). fold r i d in Ht0, Hev.
  assert (target0 = target) as -> by congruence. clear Ht0.
  pose proof (keeps fs t (f := configuration) (m := evaluateRule read_sessions sprint limit scheduled now)) as Hconf.
  unfold tables_after in Hconf. rewrite Hrun in Hconf. simpl in Hconf.
  pose proof (evaluateRule_marks read_sessions sprint limit scheduled now fs t I) as Hmark. rewrite Hrun in Hmark. simpl in Hmark.
  assert (evaluation_target r i d (only_marked scheduled now t) = Some target) as Hsame by exact Ht.
  unfold evaluated in Hev. destruct (structurallyNotApplicable _ _ _ _).
  { subst t'. split_and!; [by exists target| |done]. intros id a Ha _. simpl. by rewrite Ha. }
  destruct Hev as (result & Hm & [[Hstep ->]|Hmoved]).
  { split_and!; [| |done]; [by eauto 6|]. intros id a Ha _. simpl. by rewrite Ha. }
  split_and!; [|by eapply moved_others|done].
  destruct (evaluation_target_again _ _ _ _ _ _ Ht Hconf) as (target' & Ht' & Hv). exists target'. split; [done|].
  exists result. split; [done|]. destruct (moved_candidate t t' (r, i, d) _ _ _ Hmoved Hlast Hi) as (a & Hc & Hst).
  apply evaluation_target_read in Ht' as (_ & _ & Hread). rewrite Hc in Hread. destruct Hread as [_ ->].
  rewrite Hv. apply stores_read_back; [by apply rule_step_fits..|done].
Qed.

(** * Witnesses *)

Module EvalDemo.
Definition rule : AlertRule :=
  MkAlertRule "connections" "pg.connection.active" "latest" ">" (f64_of_Z 90) "<" (f64_of_Z 80) 60 1 2 "critical" "no_data"
    1 true None "ALL" 15 None.

Definition notify : NotifyTables :=
  MkNotifyTables ∅ [] {["r1" := rule]} {["i1" := "db-1"]}
    {["p1" := MkNotificationPolicy true ["critical"] true true 900]} [MkNotificationPolicyChannel "p1" "SMTP" None]
    [] [] [] ∅ (Some (true, "ops@example.com")) ∅ [] [] ∅ [] ∅ [].

(** An instance with 95 active connections and a rule that fires above 90. *)
Definition start : EvalTables :=
  MkEvalTables notify {["i1" := MkEvalInstance "db-1" PostgreSQL false]} {["i1" := MkEvalConfig false false]}
    {[("i1", "SERVER_DIRECT") := MkSourceState (Some (9 * Second)) None None]} {[("r1", 1) := ∅]} Metrics [] ∅
    [MkSeriesRow 1 "i1" "pg.connection.active" "postgres" "{}"] [MkSampleRow 1 (9 * Second) (f64_of_Z 95)] ∅ [] ∅.

Definition sessions (_ : GetEvaluationTargetRow) : list TriggerSession + string :=
  inl [MkTriggerSession 7 None None None (Some "active") None None None None None None [] false].

Definition scheduled : ListEvaluationTargetsRow := MkScheduledTarget "r1" "connections" "i1" "db-1" "{}".

Lemma start_inv : alerts_inv start.
Proof. split; intros; simplify_eq. Qed.

Definition target : GetEvaluationTargetRow :=
  MkEvaluationTarget "r1" "pg.connection.active" "latest" ">" (f64_of_Z 90) "<" (f64_of_Z 80) 60 1 2 "critical" "no_data" 1 ∅
    "i1" None None OK 0 0 0 0 None false false.

Definition after : EvalTables := tables_after (evaluateRule sessions (fun _ => "95") 20 scheduled (10 * Second)) [] start.
End EvalDemo.

Lemma RunOnce_keeps_alerts_inv_witness :
  ListEvaluationTargets (10 * Second) EvalDemo.start = [EvalDemo.scheduled] /\
  (ai_Status <$> (map_to_list (n_alert (e_notify
     (tables_after (RunOnce EvalDemo.sessions (fun _ => "95") 20 (10 * Second)) [] EvalDemo.start)))).*2) = [FIRING] /\
  alerts_inv (tables_after (RunOnce EvalDemo.sessions (fun _ => "95") 20 (10 * Second)) [] EvalDemo.start).
Proof.
  split; [vm_compute; reflexivity|]. split; [vm_compute; reflexivity|].
  apply RunOnce_keeps_alerts_inv, EvalDemo.start_inv.
Defined.

Lemma evaluateRule_refines_Step_witness :
  exists target', evaluation_target "r1" "i1" "{}" EvalDemo.after = Some target' /\
    snapshotFromEvaluationTarget target' = MkSnapshot FIRING NoState 1 0 0.
Proof.
  destruct (evaluateRule_refines_Step EvalDemo.sessions (fun _ => "95") 20 EvalDemo.scheduled (10 * Second) EvalDemo.target [] [] EvalDemo.start EvalDemo.after)
    as [(target' & Ht & Hr) _].
  - apply EvalDemo.start_inv.
  - vm_compute. reflexivity.
  - vm_compute. repeat split; discriminate.
  - intros id a Ha. vm_compute in Ha. destruct id; discriminate.
  - vm_compute. reflexivity.
  - exists target'. split; [exact Ht|]. destruct Hr as (result & Hm & ->).
    assert (me_outcome result = Breaching) as ->.
    { vm_compute in Hm. injection Hm as <-. reflexivity. }
    vm_compute. reflexivity.
Defined.
