(* ===== verification/Credentials.v ===== *)
(** Stored credentials: the key ring on disk and the envelopes
    ([internal/instance/credentials.go]), the offline key rotation
    ([cmd/monitor-server/rotation.go]) and the snapshot of the notification channels
    ([internal/notify/snapshot.go]). AES-GCM and the source of randomness are an
    interface with the laws the code relies on. *)

From S2P Require Import Prelude Db Text PlatformHealth.

(** * The cipher and the randomness *)

(** AES-GCM with a 12-byte nonce ([crypto/cipher.AEAD]) under 32-byte keys, and
    [io.ReadFull(rand.Reader, buffer)], which fills the buffer: the [n]-th draw of a
    number of bytes. *)
Class Crypto : Type := MkCrypto {
  Seal : forall (key nonce plaintext aad : string), string;
  Open : forall (key nonce ciphertext aad : string), option string;
  Overhead : nat;
  random : forall (draw bytes : nat), string;
  Open_Seal key nonce plaintext aad : Open key nonce (Seal key nonce plaintext aad) aad = Some plaintext;
  Seal_length key nonce plaintext aad :
    String.length (Seal key nonce plaintext aad) = (String.length plaintext + Overhead)%nat;
  random_length draw bytes : String.length (random draw bytes) = bytes;
}.

(** * Faults *)

Inductive CredentialFaultCode : Type :=
  | CredentialFaultMissingKey
  | CredentialFaultCurrentKey
  | CredentialFaultKeyLength
  | CredentialFaultKeyPermissions
  | CredentialFaultKeyOwner
  | CredentialFaultUnknownKeyVersion
  | CredentialFaultAuthentication
  | CredentialFaultKeyFormat.

Definition string_of_fault (code : CredentialFaultCode) : string :=
  match code with
  | CredentialFaultMissingKey => "CREDENTIAL_KEY_MISSING"
  | CredentialFaultCurrentKey => "CREDENTIAL_CURRENT_KEY_INVALID"
  | CredentialFaultKeyLength => "CREDENTIAL_KEY_LENGTH_INVALID"
  | CredentialFaultKeyPermissions => "CREDENTIAL_KEY_PERMISSIONS_INVALID"
  | CredentialFaultKeyOwner => "CREDENTIAL_KEY_OWNER_INVALID"
  | CredentialFaultUnknownKeyVersion => "CREDENTIAL_KEY_VERSION_UNKNOWN"
  | CredentialFaultAuthentication => "CREDENTIAL_AUTHENTICATION_FAILED"
  | CredentialFaultKeyFormat => "CREDENTIAL_KEY_FORMAT_INVALID"
  end.

Definition CredentialFault (code : CredentialFaultCode) : error := ErrCode (string_of_fault code).

(** * The directory and the tables *)

Record File : Type := MkFile {
  file_Regular : bool;
  file_Perm : Z;
  file_Uid : Z;
  file_Contents : string;
}.

(** [disk_Dir] is what [Lstat] says of the directory: whether it is one, its
    permissions and owner. The temporary files of the code are not part of
    [disk_Files]: their names start with a dot and nothing reads them. *)
Record Disk : Type := MkDisk {
  disk_Dir : option (bool * Z * Z);
  disk_Files : gmap string File;
  disk_Euid : Z;
}.

Record SmtpChannel : Type := MkSmtpChannel {
  smtp_Enabled : bool;
  smtp_Host : string;
  smtp_Port : Z;
  smtp_FromAddress : string;
  smtp_Recipient : string;
  smtp_AuthType : string;
  smtp_Username : option string;
  smtp_AuthCiphertext : option string;
  smtp_AuthKeyVersion : option Z;
  smtp_TlsMode : string;
}.

Record WebhookTarget : Type := MkWebhookTarget {
  wt_ID : string;
  wt_Name : string;
  wt_Enabled : bool;
  wt_Url : string;
  wt_SigningValueCiphertext : string;
  wt_SignatureHeaderCiphertext : string;
  wt_SigningKeyVersion : Z;
}.

Definition ChannelSnapshotFormatVersion : Z := 1.

Record SnapshotSMTPChannel : Type := MkSnapshotSMTP {
  ss_Enabled : bool;
  ss_Host : string;
  ss_Port : Z;
  ss_From : string;
  ss_Recipient : string;
  ss_AuthType : string;
  ss_Username : option string;
  ss_AuthCiphertext : option string;
  ss_AuthKeyVersion : option Z;
  ss_TLSMode : string;
}.

Record SnapshotWebhookTarget : Type := MkSnapshotWebhook {
  sw_ID : string;
  sw_Name : string;
  sw_Enabled : bool;
  sw_URL : string;
  sw_SigningValueCiphertext : string;
  sw_SignatureHeaderCiphertext : string;
  sw_SigningKeyVersion : Z;
}.

Record ChannelSnapshot : Type := MkChannelSnapshot {
  cs_FormatVersion : Z;
  cs_SMTP : option SnapshotSMTPChannel;
  cs_Webhooks : list SnapshotWebhookTarget;
}.

(** The columns of the tables that hold ciphertexts, the directory, the snapshot
    file (as the value its JSON stands for), and the draws made so far. *)
Record World : Type := MkWorld {
  w_instance : gmap string (string * Z);
  w_smtp : option SmtpChannel;
  w_webhook : gmap string WebhookTarget;
  w_disk : Disk;
  w_snapshot : option ChannelSnapshot;
  w_drawn : nat;
}.

Definition set_instance (v : gmap string (string * Z)) (w : World) : World :=
  MkWorld v (w_smtp w) (w_webhook w) (w_disk w) (w_snapshot w) (w_drawn w).
Definition set_smtp (v : option SmtpChannel) (w : World) : World :=
  MkWorld (w_instance w) v (w_webhook w) (w_disk w) (w_snapshot w) (w_drawn w).
Definition set_webhook (v : gmap string WebhookTarget) (w : World) : World :=
  MkWorld (w_instance w) (w_smtp w) v (w_disk w) (w_snapshot w) (w_drawn w).
Definition set_disk (v : Disk) (w : World) : World :=
  MkWorld (w_instance w) (w_smtp w) (w_webhook w) v (w_snapshot w) (w_drawn w).
Definition set_snapshot (v : option ChannelSnapshot) (w : World) : World :=
  MkWorld (w_instance w) (w_smtp w) (w_webhook w) (w_disk w) v (w_drawn w).
Definition set_drawn (v : nat) (w : World) : World :=
  MkWorld (w_instance w) (w_smtp w) (w_webhook w) (w_disk w) (w_snapshot w) v.

Definition set_files (f : gmap string File -> gmap string File) (w : World) : World :=
  set_disk (MkDisk (disk_Dir (w_disk w)) (f (disk_Files (w_disk w))) (disk_Euid (w_disk w))) w.

(** * File operations *)

(** A call of the operating system fails or runs like a statement. *)
Definition ErrNotExist : error := ErrNew "file does not exist".
Definition ErrExist : error := ErrNew "file already exists".

(** A call that changes nothing the code can see: [CreateTemp], [Write], [Sync],
    [Close] on a temporary file, [Open] and [Sync] on the directory. *)
Definition io_step : DB World unit := exec (fun w => w).

(** [os.Geteuid()] cannot fail. *)
Definition Geteuid : DB World Z := fun fs w => (Ok (disk_Euid (w_disk w)), w, fs).

(** [if err != nil { return &CredentialFault{Code: code} }] *)
Definition fault_on {A} (code : CredentialFaultCode) (m : DB World A) : DB World A :=
  attempt m ≫= fun r => match r with Ok a => mret a | Err _ => fail (CredentialFault code) end.

Definition Lstat (name : string) : DB World File :=
  statement (fun w => match disk_Files (w_disk w) !! name with Some f => Ok (f, w) | None => Err ErrNotExist end).

Definition ReadFile (name : string) : DB World string :=
  statement (fun w => match disk_Files (w_disk w) !! name with Some f => Ok (file_Contents f, w) | None => Err ErrNotExist end).

Definition Remove (name : string) : DB World unit :=
  statement (fun w => match disk_Files (w_disk w) !! name with
                      | Some _ => Ok (tt, set_files (delete name) w) | None => Err ErrNotExist end).

(** A file of this process with permissions [0o600]. *)
Definition own_file (w : World) (contents : string) : File := MkFile true 384 (disk_Euid (w_disk w)) contents.

(** [os.Link] and [O_CREATE|O_EXCL] give a file a name that is not in use. *)
Definition create_file (name contents : string) : DB World unit :=
  statement (fun w => match disk_Files (w_disk w) !! name with
                      | Some _ => Err ErrExist | None => Ok (tt, set_files <[name := own_file w contents]> w) end).

(** [os.Rename] of a temporary file replaces. *)
Definition rename_over (name contents : string) : DB World unit :=
  exec (fun w => set_files <[name := own_file w contents]> w).

Definition credentialCurrentVersionFilename : string := "current".
Definition credentialKeyFilenamePrefix : string := "master-key-v".
Definition credentialKeyFilename (version : Z) : string := credentialKeyFilenamePrefix +:+ Itoa version.

(** [filepath.Glob] of the key files: the names in order; it ignores errors of the
    file system. *)
Definition glob_keys : DB World (list string) :=
  r ← attempt (query (fun w => sort_by string_ltb
    (filter (fun name => HasPrefix name credentialKeyFilenamePrefix = true) ((map_to_list (disk_Files (w_disk w))).*1))));
  match r with Ok names => mret names | Err _ => mret [] end.

Definition credentialOwnerIsValid (uid euid : Z) : bool := negb (uid =? 0) && (uid =? euid).

(** * Keys on disk *)

Definition credentialKeySize : nat := 32.
Definition credentialNonceSize : nat := 12.
Definition credentialEnvelopeHeaderSize : nat := 1 + credentialNonceSize.
Definition credentialEnvelopeVersion : Ascii.ascii := char_of 1.

Definition parseCredentialLine (contents : string) : option string :=
  let line := trim_line_feed contents in
  if bool_decide (line <> EmptyString) &&
     negb (string_exists (fun c => bool_decide (c = carriage_return) || bool_decide (c = line_feed)) line)
  then Some line else None.

Definition readCredentialFile (name : string) (missingCode : CredentialFaultCode) : DB World string :=
  info ← fault_on missingCode (Lstat name);
  if negb (file_Regular info) then fail (CredentialFault missingCode)
  else if bool_decide (file_Perm info <> 384) then fail (CredentialFault CredentialFaultKeyPermissions)
  else
    euid ← Geteuid;
    if negb (credentialOwnerIsValid (file_Uid info) euid) then fail (CredentialFault CredentialFaultKeyOwner)
    else fault_on missingCode (ReadFile name).

Definition readCredentialKey (version : Z) (missingCode : CredentialFaultCode) : DB World string :=
  if version <=? 0 then fail (CredentialFault missingCode)
  else
    contents ← readCredentialFile (credentialKeyFilename version) missingCode;
    match parseCredentialLine contents with
    | None => fail (CredentialFault CredentialFaultKeyFormat)
    | Some line =>
        match b64_decode line with
        | None => fail (CredentialFault CredentialFaultKeyFormat)
        | Some key =>
            if bool_decide (String.length key <> credentialKeySize) then fail (CredentialFault CredentialFaultKeyLength)
            else mret key
        end
    end.

Definition readCurrentCredentialKeyVersion : DB World Z :=
  contents ← readCredentialFile credentialCurrentVersionFilename CredentialFaultCurrentKey;
  match parseCredentialLine contents ≫= ParseInt32 with
  | Some value => if value <=? 0 then fail (CredentialFault CredentialFaultCurrentKey) else mret value
  | None => fail (CredentialFault CredentialFaultCurrentKey)
  end.

Definition syncCredentialDirectory (code : CredentialFaultCode) : DB World unit :=
  _ ← fault_on code io_step; fault_on code io_step.

(** The temporary file is created, written, synced and closed, then renamed. *)
Definition writeCurrentCredentialKeyVersion (version : Z) : DB World unit :=
  _ ← fault_on CredentialFaultCurrentKey io_step;
  _ ← fault_on CredentialFaultCurrentKey io_step;
  _ ← fault_on CredentialFaultCurrentKey io_step;
  _ ← fault_on CredentialFaultCurrentKey io_step;
  _ ← fault_on CredentialFaultCurrentKey
        (rename_over credentialCurrentVersionFilename (Itoa version +:+ String line_feed EmptyString));
  syncCredentialDirectory CredentialFaultCurrentKey.

(** The loop of [credentialKeyVersions] over the names. *)
Fixpoint key_versions (names : list string) : DB World (list Z) :=
  match names with
  | [] => mret []
  | name :: rest =>
      match ParseInt32 (TrimPrefix name credentialKeyFilenamePrefix) with
      | None => fail (CredentialFault CredentialFaultCurrentKey)
      | Some version =>
          if version <=? 0 then fail (CredentialFault CredentialFaultCurrentKey)
          else
            _ ← readCredentialKey version CredentialFaultCurrentKey;
            versions ← key_versions rest;
            mret (version :: versions)
      end
  end.

Definition credentialKeyVersions : DB World (list Z) :=
  names ← glob_keys;
  versions ← key_versions names;
  mret (sort_by Z.ltb versions).

(** * The key ring *)

(** [directory] is the one of the world. *)
Record CredentialKeyring : Type := MkKeyring {
  currentVersion : Z;
  currentKey : string;
  keyring_fault : option error;
  generatedInitialKey : bool;
}.

Section Keyring.
Context `{Crypto}.

(** [io.ReadFull(rand.Reader, make([]byte, n))] *)
Definition draw (bytes : nat) : DB World string :=
  statement (fun w => Ok (random (w_drawn w) bytes, set_drawn (S (w_drawn w)) w)).

Definition generateEncodedCredentialKey : DB World string :=
  key ← wrap "generate instance credential key" (draw credentialKeySize);
  mret (b64_encode key +:+ String line_feed EmptyString).

Definition generateCredentialKey (version : Z) : DB World unit :=
  encodedKey ← generateEncodedCredentialKey;
  _ ← fault_on CredentialFaultMissingKey io_step;
  _ ← fault_on CredentialFaultMissingKey io_step;
  _ ← fault_on CredentialFaultMissingKey io_step;
  _ ← fault_on CredentialFaultMissingKey io_step;
  _ ← fault_on CredentialFaultCurrentKey (create_file (credentialKeyFilename version) encodedKey);
  syncCredentialDirectory CredentialFaultMissingKey.

(** The file of the first key is written in place, and removed when that fails. *)
Definition generateInitialCredentialKeyring : DB World bool :=
  euid ← Geteuid;
  if euid =? 0 then fail (CredentialFault CredentialFaultKeyOwner)
  else
    encodedKey ← generateEncodedCredentialKey;
    let keyPath := credentialKeyFilename 1 in
    created ← attempt (create_file keyPath EmptyString);
    match created with
    | Err e => if bool_decide (e = ErrExist) then mret false else fail (CredentialFault CredentialFaultMissingKey)
    | Ok _ =>
        written ← attempt (fault_on CredentialFaultMissingKey
          (_ ← exec (fun w => set_files <[keyPath := own_file w encodedKey]> w); _ ← io_step; io_step));
        match written with
        | Err e => _ ← attempt (Remove keyPath); fail e
        | Ok _ => _ ← writeCurrentCredentialKeyVersion 1; mret true
        end
    end.

Definition initializeCredentialKeyring (hasEncryptedCredentials : bool) : DB World bool :=
  info ← fault_on CredentialFaultMissingKey
    (statement (fun w => match disk_Dir (w_disk w) with Some info => Ok (info, w) | None => Err ErrNotExist end));
  let '(isDir, perm, uid) := info in
  if negb isDir then fail (CredentialFault CredentialFaultMissingKey)
  else if bool_decide (perm <> 448) then fail (CredentialFault CredentialFaultKeyPermissions)
  else
    euid ← Geteuid;
    if negb (credentialOwnerIsValid uid euid) then fail (CredentialFault CredentialFaultKeyOwner)
    else if hasEncryptedCredentials then mret false
    else
      current ← attempt (Lstat credentialCurrentVersionFilename);
      match current with
      | Err e =>
          if bool_decide (e = ErrNotExist) then
            matches ← glob_keys;
            if bool_decide (matches <> []) then fail (CredentialFault CredentialFaultCurrentKey)
            else generateInitialCredentialKeyring
          else mret false
      | Ok _ => mret false
      end.

(** The error is returned with the key ring, which keeps it as its fault. *)
Definition OpenCredentialKeyring (hasEncryptedCredentials : bool) : DB World CredentialKeyring :=
  generated ← attempt (initializeCredentialKeyring hasEncryptedCredentials);
  match generated with
  | Err e => mret (MkKeyring 0 EmptyString (Some e) false)
  | Ok generated =>
      opened ← attempt (
        version ← readCurrentCredentialKeyVersion;
        matches ← glob_keys;
        let missingCode := if bool_decide (matches = []) then CredentialFaultMissingKey else CredentialFaultCurrentKey in
        key ← readCredentialKey version missingCode;
        mret (version, key));
      match opened with
      | Err e => mret (MkKeyring 0 EmptyString (Some e) generated)
      | Ok (version, key) => mret (MkKeyring version key None generated)
      end
  end.

(** [aes.NewCipher] takes keys of 16, 24 or 32 bytes. *)
Definition credentialGCM (key : string) : result unit :=
  if bool_decide (String.length key = 16 \/ String.length key = 24 \/ String.length key = 32)%nat
  then Ok tt else Err (CredentialFault CredentialFaultKeyLength).

Definition lift {A} (r : result A) : DB World A := match r with Ok a => mret a | Err e => fail e end.

Definition seal_envelope (key nonce plaintext aad : string) : string :=
  String credentialEnvelopeVersion (nonce +:+ Seal key nonce plaintext aad).

Definition encrypt (keyring : CredentialKeyring) (plaintext aad description : string) : DB World (string * Z) :=
  match keyring_fault keyring with
  | Some fault => fail fault
  | None =>
      _ ← lift (credentialGCM (currentKey keyring));
      nonce ← wrap ("generate " +:+ description +:+ " nonce") (draw credentialNonceSize);
      mret (seal_envelope (currentKey keyring) nonce plaintext aad, currentVersion keyring)
  end.

(** The part of [decrypt] that has the key. *)
Definition open_envelope (key envelope aad : string) : option string :=
  match envelope with
  | EmptyString => None
  | String version rest =>
      if bool_decide (String.length envelope < credentialEnvelopeHeaderSize + Overhead)%nat ||
         bool_decide (version <> credentialEnvelopeVersion) then None
      else
        Open key (String.substring 0 credentialNonceSize rest)
          (String.substring credentialNonceSize (String.length rest - credentialNonceSize) rest) aad
  end.

Definition decrypt (keyring : CredentialKeyring) (envelope : string) (keyVersion : Z) (aad : string) : DB World string :=
  match keyring_fault keyring with
  | Some fault => fail fault
  | None =>
      key ← (if bool_decide (keyVersion <> currentVersion keyring)
             then readCredentialKey keyVersion CredentialFaultUnknownKeyVersion else mret (currentKey keyring));
      _ ← lift (credentialGCM key);
      match open_envelope key envelope aad with
      | Some plaintext => mret plaintext
      | None => fail (CredentialFault CredentialFaultAuthentication)
      end
  end.

Definition credentialAAD (instanceID : string) : string := "dbs-monitor:instance:" +:+ instanceID +:+ ":pg-password:v1".
Definition smtpCredentialAAD : string := "smtp-channel:singleton:auth".
Definition webhookCredentialAAD (targetID field : string) : string :=
  "dbs-monitor:webhook:" +:+ targetID +:+ ":" +:+ field +:+ ":v1".
Definition webhookSigningValuePurpose : string := "signing-value".
Definition webhookSignatureHeaderPurpose : string := "signature-header".

Definition EncryptPassword keyring (instanceID password : string) : DB World (string * Z) :=
  encrypt keyring password (credentialAAD instanceID) "instance credential".
Definition EncryptSMTPPassword keyring (password : string) : DB World (string * Z) :=
  encrypt keyring password smtpCredentialAAD "SMTP credential".
Definition EncryptWebhookSigningValue keyring (targetID value : string) : DB World (string * Z) :=
  encrypt keyring value (webhookCredentialAAD targetID webhookSigningValuePurpose) "Webhook signing value".
Definition EncryptWebhookSignatureHeader keyring (targetID header : string) : DB World (string * Z) :=
  encrypt keyring header (webhookCredentialAAD targetID webhookSignatureHeaderPurpose) "Webhook signature header".

Definition DecryptPassword keyring (instanceID envelope : string) (keyVersion : Z) : DB World string :=
  decrypt keyring envelope keyVersion (credentialAAD instanceID).
Definition DecryptSMTPPassword keyring (envelope : string) (keyVersion : Z) : DB World string :=
  decrypt keyring envelope keyVersion smtpCredentialAAD.
Definition DecryptWebhookSigningValue keyring (targetID envelope : string) (keyVersion : Z) : DB World string :=
  decrypt keyring envelope keyVersion (webhookCredentialAAD targetID webhookSigningValuePurpose).
Definition DecryptWebhookSignatureHeader keyring (targetID envelope : string) (keyVersion : Z) : DB World string :=
  decrypt keyring envelope keyVersion (webhookCredentialAAD targetID webhookSignatureHeaderPurpose).

(** * Statements of the rotation *)

Definition count {A} (P : A -> bool) (l : list A) : Z := Z.of_nat (length (filter (fun x => P x = true) l)).

Definition instance_versions (w : World) : list Z := (map_to_list (w_instance w)).*2.*2.
Definition smtp_versions (w : World) : list Z := option_list (w_smtp w ≫= smtp_AuthKeyVersion).
Definition webhook_versions (w : World) : list Z := wt_SigningKeyVersion <$> (map_to_list (w_webhook w)).*2.

Definition CountCredentialKeyReferences (version : Z) : DB World Z :=
  query (fun w => count (fun v => v =? version) (instance_versions w) + count (fun v => v =? version) (smtp_versions w)
                  + count (fun v => v =? version) (webhook_versions w)).

Definition CountCredentialsNotUsingKeyVersion (version : Z) : DB World Z :=
  query (fun w => count (fun v => negb (v =? version)) (instance_versions w)
                  + count (fun v => negb (v =? version)) (smtp_versions w)
                  + count (fun v => negb (v =? version)) (webhook_versions w)).

Definition ListCredentialsForKeyRotation : DB World (list (string * string * Z)) :=
  query (fun w => sort_by (fun a b => string_ltb a.1.1 b.1.1)
    ((fun p => (p.1, p.2.1, p.2.2)) <$> map_to_list (w_instance w))).

Definition UpdateCredentialKeyVersion (id ciphertext : string) (version : Z) : DB World unit :=
  exec (fun w => set_instance (alter (fun _ => (ciphertext, version)) id (w_instance w)) w).

Definition GetSMTPChannelForKeyRotation : DB World SmtpChannel :=
  statement (fun w =>
    match w_smtp w with
    | Some channel => if bool_decide (is_Some (smtp_AuthKeyVersion channel)) then Ok (channel, w) else Err ErrNoRows
    | None => Err ErrNoRows
    end).

Definition with_auth (ciphertext : string) (version : Z) (c : SmtpChannel) : SmtpChannel :=
  MkSmtpChannel (smtp_Enabled c) (smtp_Host c) (smtp_Port c) (smtp_FromAddress c) (smtp_Recipient c) (smtp_AuthType c)
    (smtp_Username c) (Some ciphertext) (Some version) (smtp_TlsMode c).

Definition UpdateSMTPChannelAuthKey (ciphertext : string) (version : Z) : DB World unit :=
  exec (fun w => set_smtp (with_auth ciphertext version <$> w_smtp w) w).

Definition ListWebhookTargetsForKeyRotation : DB World (list WebhookTarget) :=
  query (fun w => sort_by (fun a b => string_ltb (wt_ID a) (wt_ID b)) ((map_to_list (w_webhook w)).*2)).

Definition with_signing (value header : string) (version : Z) (t : WebhookTarget) : WebhookTarget :=
  MkWebhookTarget (wt_ID t) (wt_Name t) (wt_Enabled t) (wt_Url t) value header version.

Definition UpdateWebhookTargetSigningKey (id value header : string) (version : Z) : DB World unit :=
  exec (fun w => set_webhook (alter (with_signing value header version) id (w_webhook w)) w).

(** * Rotation *)

Definition activateCredentialKey (version : Z) : DB World CredentialKeyring :=
  _ ← writeCurrentCredentialKeyVersion version;
  keyring ← OpenCredentialKeyring true;
  match keyring_fault keyring with Some fault => fail fault | None => mret keyring end.

(** The loop over the versions once none is to be resumed: an old key only needs
    cleanup, a key beyond the next one is a fault. *)
Fixpoint stale_keys (versions : list Z) (current next : Z) : result bool :=
  match versions with
  | [] => Ok false
  | version :: rest =>
      if version <? current then Ok true
      else if next <? version then Err (CredentialFault CredentialFaultCurrentKey)
      else stale_keys rest current next
  end.

Definition PrepareCredentialKeyRotation : DB World (CredentialKeyring * bool) :=
  keyring ← OpenCredentialKeyring true;
  match keyring_fault keyring with
  | Some fault => fail fault
  | None =>
      versions ← credentialKeyVersions;
      notUsingCurrent ← wrap "inspect instance credential key versions"
        (CountCredentialsNotUsingKeyVersion (currentVersion keyring));
      let nextVersion := int32 (currentVersion keyring + 1) in
      if nextVersion <=? currentVersion keyring then fail (ErrNew "instance credential key version exhausted")
      else if bool_decide (nextVersion ∈ versions) then
        _ ← readCredentialKey nextVersion CredentialFaultCurrentKey;
        keyring ← activateCredentialKey nextVersion;
        mret (keyring, true)
      else if 0 <? notUsingCurrent then mret (keyring, true)
      else
        stale ← lift (stale_keys versions (currentVersion keyring) nextVersion);
        if (stale : bool) then mret (keyring, false)
        else
          _ ← generateCredentialKey nextVersion;
          keyring ← activateCredentialKey nextVersion;
          mret (keyring, true)
  end.

(** One row of [ReencryptCredentials], and the loop. *)
Definition reencrypt_instance (keyring : CredentialKeyring) (row : string * string * Z) : DB World Z :=
  let '(id, ciphertext, version) := row in
  if version =? currentVersion keyring then mret 0
  else
    password ← DecryptPassword keyring id ciphertext version;
    '(ciphertext', version') ← EncryptPassword keyring id password;
    _ ← wrap "update instance credential key version" (UpdateCredentialKeyVersion id ciphertext' version');
    mret 1.

Fixpoint sum_each {I} (f : I -> DB World Z) (items : list I) (total : Z) : DB World Z :=
  match items with
  | [] => mret total
  | item :: rest => n ← f item; sum_each f rest (total + n)
  end.

Definition ReencryptCredentials (keyring : CredentialKeyring) : DB World Z :=
  rows ← wrap "list instance credentials for key rotation" ListCredentialsForKeyRotation;
  sum_each (reencrypt_instance keyring) rows 0.

Definition reencryptSMTPChannel (keyring : CredentialKeyring) : DB World Z :=
  r ← attempt GetSMTPChannelForKeyRotation;
  match r with
  | Err e => if is_no_rows e then mret 0 else fail (Errorf "read SMTP authentication for key rotation" e)
  | Ok channel =>
      let version := default 0 (smtp_AuthKeyVersion channel) in
      if version =? currentVersion keyring then mret 0
      else
        password ← DecryptSMTPPassword keyring (default EmptyString (smtp_AuthCiphertext channel)) version;
        '(ciphertext, version') ← EncryptSMTPPassword keyring password;
        _ ← wrap "update SMTP authentication key version" (UpdateSMTPChannelAuthKey ciphertext version');
        mret 1
  end.

Definition reencrypt_webhook (keyring : CredentialKeyring) (target : WebhookTarget) : DB World Z :=
  let version := wt_SigningKeyVersion target in
  if version =? currentVersion keyring then mret 0
  else
    signingValue ← DecryptWebhookSigningValue keyring (wt_ID target) (wt_SigningValueCiphertext target) version;
    signatureHeader ← DecryptWebhookSignatureHeader keyring (wt_ID target) (wt_SignatureHeaderCiphertext target) version;
    '(value, version') ← EncryptWebhookSigningValue keyring (wt_ID target) signingValue;
    '(header, _) ← EncryptWebhookSignatureHeader keyring (wt_ID target) signatureHeader;
    _ ← wrap "update Webhook signing key version" (UpdateWebhookTargetSigningKey (wt_ID target) value header version');
    mret 1.

Definition reencryptWebhookTargets (keyring : CredentialKeyring) : DB World Z :=
  targets ← wrap "read Webhook signing configuration for key rotation" ListWebhookTargetsForKeyRotation;
  sum_each (reencrypt_webhook keyring) targets 0.

(** The second loop of [RemoveUnreferencedKeys]. *)
Definition remove_key (current version : Z) : DB World unit :=
  if version =? current then mret tt
  else
    r ← attempt (Remove (credentialKeyFilename version));
    match r with
    | Err e => if bool_decide (e = ErrNotExist) then mret tt
               else fail (Errorf ("remove instance credential key version " +:+ Itoa version) e)
    | Ok _ => mret tt
    end.

Definition verify_unreferenced (current version : Z) : DB World unit :=
  if version =? current then mret tt
  else
    references ← wrap ("verify instance credential key version " +:+ Itoa version +:+ " references")
      (CountCredentialKeyReferences version);
    if bool_decide (references <> 0)
    then fail (ErrNew ("instance credential key version " +:+ Itoa version +:+ " still has " +:+ Itoa references +:+ " database references"))
    else mret tt.

Definition RemoveUnreferencedKeys (keyring : CredentialKeyring) : DB World unit :=
  versions ← credentialKeyVersions;
  _ ← for_each (verify_unreferenced (currentVersion keyring)) versions;
  _ ← for_each (remove_key (currentVersion keyring)) versions;
  syncCredentialDirectory CredentialFaultMissingKey.

(** * The channel snapshot *)

Definition GetSMTPChannel : DB World SmtpChannel :=
  statement (fun w => match w_smtp w with Some c => Ok (c, w) | None => Err ErrNoRows end).

Definition ListWebhookTargets : DB World (list WebhookTarget) :=
  query (fun w => sort_by (fun a b => string_ltb (wt_Name a) (wt_Name b) ||
    (bool_decide (wt_Name a = wt_Name b) && string_ltb (wt_ID a) (wt_ID b))) ((map_to_list (w_webhook w)).*2)).

Definition snapshot_smtp (c : SmtpChannel) : SnapshotSMTPChannel :=
  MkSnapshotSMTP (smtp_Enabled c) (smtp_Host c) (smtp_Port c) (smtp_FromAddress c) (smtp_Recipient c) (smtp_AuthType c)
    (smtp_Username c) (smtp_AuthCiphertext c) (smtp_AuthKeyVersion c) (smtp_TlsMode c).

Definition snapshot_webhook (t : WebhookTarget) : SnapshotWebhookTarget :=
  MkSnapshotWebhook (wt_ID t) (wt_Name t) (wt_Enabled t) (wt_Url t) (wt_SigningValueCiphertext t)
    (wt_SignatureHeaderCiphertext t) (wt_SigningKeyVersion t).

Definition loadChannelSnapshotFromDatabase : DB World ChannelSnapshot :=
  r ← attempt GetSMTPChannel;
  smtp ← (match r with
          | Ok channel => mret (Some (snapshot_smtp channel))
          | Err e => if is_no_rows e then mret None else fail (Errorf "read SMTP channel for snapshot" e)
          end);
  webhooks ← wrap "read Webhook targets for snapshot" ListWebhookTargets;
  mret (MkChannelSnapshot ChannelSnapshotFormatVersion smtp (snapshot_webhook <$> webhooks)).

Definition ErrLocalLargeWriteRejected : error := ErrNew "local large writes rejected at disk emergency watermark".

(** [Write]: a temporary file is created, given its permissions, written, synced and
    closed, then renamed to the snapshot's name, and the directory is synced. *)
Definition WriteSnapshot (localWriteAllowed : bool) (snapshot : ChannelSnapshot) : DB World unit :=
  if negb localWriteAllowed then fail ErrLocalLargeWriteRejected
  else
    _ ← wrap "create notification channel snapshot" io_step;
    _ ← wrap "set notification channel snapshot permissions" io_step;
    _ ← wrap "write notification channel snapshot" io_step;
    _ ← wrap "sync notification channel snapshot" io_step;
    _ ← wrap "close notification channel snapshot" io_step;
    _ ← wrap "publish notification channel snapshot" (exec (set_snapshot (Some snapshot)));
    _ ← wrap "open notification channel snapshot directory" io_step;
    wrap "sync notification channel snapshot directory" io_step.

Definition SyncSnapshot (localWriteAllowed : bool) : DB World unit :=
  snapshot ← loadChannelSnapshotFromDatabase;
  WriteSnapshot localWriteAllowed snapshot.

Definition LoadSnapshot : DB World ChannelSnapshot :=
  snapshot ← wrap "read notification channel snapshot"
    (statement (fun w => match w_snapshot w with Some s => Ok (s, w) | None => Err ErrNotExist end));
  if bool_decide (cs_FormatVersion snapshot <> ChannelSnapshotFormatVersion)
  then fail (ErrNew ("unsupported notification channel snapshot format " +:+ Itoa (cs_FormatVersion snapshot)))
  else mret snapshot.

(** * The whole rotation *)

Record credentialRotationResult : Type := MkRotationResult {
  KeyVersion : Z;
  CredentialsRotated : Z;
}.

(** The transaction only reads the directory, so rolling back the world is rolling
    back the tables (and the numbering of the draws, which carry no other meaning). *)
Definition rotateCredentialKeyring : DB World credentialRotationResult :=
  '(keyring, needsReencryption) ← PrepareCredentialKeyRotation;
  credentialsRotated ←
    (if (needsReencryption : bool) then
       wrap "rotate credentials" (InTx
         (instances ← ReencryptCredentials keyring;
          smtp ← reencryptSMTPChannel keyring;
          webhooks ← reencryptWebhookTargets keyring;
          mret (instances + smtp + webhooks)))
     else mret 0);
  _ ← wrap "refresh notification snapshot after key rotation" (SyncSnapshot true);
  _ ← RemoveUnreferencedKeys keyring;
  mret (MkRotationResult (currentVersion keyring) credentialsRotated).

(** * Opening at start-up *)

Definition databaseHasEncryptedCredentials : DB World bool :=
  wrap "inspect encrypted credentials" (query (fun w =>
    bool_decide (w_instance w <> ∅) || bool_decide (is_Some (w_smtp w ≫= smtp_AuthCiphertext)) || bool_decide (w_webhook w <> ∅))).

(** [errors.As(err, &fault)]: the code of a credential fault. *)
Fixpoint fault_code (e : error) : option string :=
  match e with ErrCode code => Some code | Errorf _ inner => fault_code inner | _ => None end.

(** The key ring, with its fault as the credential source of the platform's health;
    an unavailable key ring does not stop the server. *)
Definition openStartupCredentialKeyring (now : Time) (health : Store)
    : DB World (CredentialKeyring * (Store * list sourceChange * list FailureFact)) :=
  hasEncryptedCredentials ← databaseHasEncryptedCredentials;
  keyring ← OpenCredentialKeyring hasEncryptedCredentials;
  let failureCode :=
    match keyring_fault keyring with
    | Some e => default "CREDENTIAL_KEYRING_FAILED" (fault_code e)
    | None => EmptyString
    end in
  mret (keyring, Update now (CredentialSource (MkCredentialFacts true failureCode)) health).

End Keyring.
