(* ===== verification/CredentialsInv.v ===== *)
(** What the key ring and the rotation promise: an envelope opens to what was
    sealed, and a rotation, whatever fails and wherever it stops, leaves every stored
    credential readable with the same plaintext; once it succeeds, all of them are
    under the current key. *)

From S2P Require Import Prelude Db Text Credentials.

(** * Where credentials are stored *)

Inductive slot : Type :=
  | SlotInstance (id : string)
  | SlotSMTP
  | SlotSigningValue (id : string)
  | SlotSignatureHeader (id : string).

#[export] Instance slot_eq_dec : EqDecision slot.
Proof. solve_decision. Defined.

Definition aad_of (s : slot) : string :=
  match s with
  | SlotInstance id => credentialAAD id
  | SlotSMTP => smtpCredentialAAD
  | SlotSigningValue id => webhookCredentialAAD id webhookSigningValuePurpose
  | SlotSignatureHeader id => webhookCredentialAAD id webhookSignatureHeaderPurpose
  end.

(** The envelope of a slot with the version of its key. *)
Definition stored (w : World) (s : slot) : option (string * Z) :=
  match s with
  | SlotInstance id => w_instance w !! id
  | SlotSMTP =>
      c ← w_smtp w; version ← smtp_AuthKeyVersion c; Some (default EmptyString (smtp_AuthCiphertext c), version)
  | SlotSigningValue id => t ← w_webhook w !! id; Some (wt_SigningValueCiphertext t, wt_SigningKeyVersion t)
  | SlotSignatureHeader id => t ← w_webhook w !! id; Some (wt_SignatureHeaderCiphertext t, wt_SigningKeyVersion t)
  end.

(** The key of a version, as the files have it. *)
Definition key_of (w : World) (version : Z) : option string :=
  if version <=? 0 then None
  else
    f ← disk_Files (w_disk w) !! credentialKeyFilename version;
    if file_Regular f && bool_decide (file_Perm f = 384) && credentialOwnerIsValid (file_Uid f) (disk_Euid (w_disk w)) then
      line ← parseCredentialLine (file_Contents f);
      key ← b64_decode line;
      if bool_decide (String.length key = credentialKeySize) then Some key else None
    else None.

(** Webhook rows are keyed by their id. *)
Definition keyed (w : World) : Prop := forall id t, w_webhook w !! id = Some t -> wt_ID t = id.

Section Proofs.
Context `{Crypto}.

Definition plaintext (w : World) (s : slot) : option string :=
  '(envelope, version) ← stored w s; key ← key_of w version; open_envelope key envelope (aad_of s).

(** * Envelopes *)

Lemma substring_app_l (s t : string) : String.substring 0 (String.length s) (s +:+ t) = s.
Proof.
  induction s as [|c s IH]; [by destruct t|]. change (String c s +:+ t) with (String c (s +:+ t)). simpl. by rewrite IH.
Qed.

Lemma substring_all (t : string) : String.substring 0 (String.length t) t = t.
Proof. induction t as [|c t IH]; simpl; [done|]. by rewrite IH. Qed.

Lemma substring_app_r (s t : string) : String.substring (String.length s) (String.length t) (s +:+ t) = t.
Proof. induction s as [|c s IH]; [apply substring_all|]. exact IH. Qed.

Lemma length_app_string (s t : string) : String.length (s +:+ t) = (String.length s + String.length t)%nat.
Proof. induction s as [|c s IH]; [done|]. change (String c s +:+ t) with (String c (s +:+ t)). simpl. by rewrite IH. Qed.

Lemma open_seal_envelope key nonce p aad :
  String.length nonce = credentialNonceSize -> open_envelope key (seal_envelope key nonce p aad) aad = Some p.
Proof.
  intros Hn. unfold open_envelope, seal_envelope. set (c := Seal key nonce p aad).
  assert (String.length c = String.length p + Overhead)%nat as Hc by apply Seal_length.
  rewrite (bool_decide_false (_ < _)%nat).
  2:{ change (String.length (String ?c ?s)) with (S (String.length s)). rewrite length_app_string. unfold credentialEnvelopeHeaderSize. lia. }
  rewrite bool_decide_false by (intros Hne; by apply Hne). simpl orb. cbv iota. rewrite <-Hn at 1. rewrite substring_app_l, length_app_string.
  replace (String.length nonce + String.length c - credentialNonceSize)%nat with (String.length c) by lia.
  rewrite <-Hn, substring_app_r. apply Open_Seal.
Qed.

(** * Reading *)

#[export] Instance fault_on_keeps {A B} (f : World -> B) code (m : DB World A) : Keeps f m -> Keeps f (fault_on code m).
Proof. intros Hm. unfold fault_on. apply _. Qed.

Ltac reads := apply statement_keeps; intros ? ? ? ?; repeat case_match; by simplify_eq/=.

#[export] Instance Lstat_keeps name : Keeps (fun w => w) (Lstat name).
Proof. reads. Qed.

#[export] Instance ReadFile_keeps name : Keeps (fun w => w) (ReadFile name).
Proof. reads. Qed.

#[export] Instance Geteuid_keeps : Keeps (fun w => w) Geteuid.
Proof. done. Qed.

#[export] Instance io_step_keeps : Keeps (fun w => w) io_step.
Proof. by apply exec_keeps. Qed.

#[export] Instance readCredentialFile_keeps name code : Keeps (fun w => w) (readCredentialFile name code).
Proof. unfold readCredentialFile. apply _. Qed.

#[export] Instance readCredentialKey_keeps version code : Keeps (fun w => w) (readCredentialKey version code).
Proof. unfold readCredentialKey. apply _. Qed.

#[export] Instance glob_keys_keeps : Keeps (fun w => w) glob_keys.
Proof. unfold glob_keys. apply _. Qed.

#[export] Instance key_versions_keeps names : Keeps (fun w => w) (key_versions names).
Proof. induction names; simpl; apply _. Qed.

#[export] Instance credentialKeyVersions_keeps : Keeps (fun w => w) credentialKeyVersions.
Proof. unfold credentialKeyVersions. apply _. Qed.

#[export] Instance readCurrent_keeps : Keeps (fun w => w) readCurrentCredentialKeyVersion.
Proof. unfold readCurrentCredentialKeyVersion. apply _. Qed.

#[export] Instance lift_keeps {A B} (f : World -> B) (r : result A) : Keeps f (lift r).
Proof. by destruct r. Qed.

#[export] Instance decrypt_keeps keyring envelope version aad : Keeps (fun w => w) (decrypt keyring envelope version aad).
Proof. unfold decrypt. apply _. Qed.

#[export] Instance fault_on_propagates {A} code (m : DB World A) : Propagates m -> Propagates (fault_on code m).
Proof.
  intros Hm fs w a w' fs' E. unfold fault_on, mbind, DB_bind, attempt in *.
  destruct (m fs w) as [[[b|e] w1] fs1] eqn:Em; [|done]. simpl in E. unfold mret, DB_ret in E. simplify_eq.
  by rewrite (Hm _ _ _ _ _ Em).
Qed.

#[export] Instance Geteuid_propagates : Propagates Geteuid.
Proof. intros fs w a w' fs' E. unfold Geteuid in *. by simplify_eq. Qed.

#[export] Instance readCredentialKey_propagates version code : Propagates (readCredentialKey version code).
Proof. unfold readCredentialKey, readCredentialFile, Lstat, ReadFile. apply _. Qed.

(** A key that is read is the key of the version. *)
Lemma readCredentialKey_plain w version code key :
  readCredentialKey version code [] w = (Ok key, w, []) -> key_of w version = Some key.
Proof.
  unfold readCredentialKey, readCredentialFile, key_of, fault_on, Lstat, ReadFile, Geteuid. run_plain.
  destruct (version <=? 0); [done|]. destruct (disk_Files (w_disk w) !! _) as [f|] eqn:Ef; [|done]. simpl.
  destruct (file_Regular f); simpl; [|done]. destruct (decide (file_Perm f = 384)) as [Hp|Hp].
  2:{ by rewrite bool_decide_true by done. }
  rewrite (bool_decide_false (file_Perm f <> 384)), (bool_decide_true (file_Perm f = 384)) by auto. simpl.
  destruct (credentialOwnerIsValid _ _); simpl; [|done]. rewrite Ef. simpl.
  destruct (parseCredentialLine _) as [line|]; simpl; [|done].
  destruct (b64_decode line) as [k|]; simpl; [|done]. case_bool_decide as Hl; [done|].
  intros [= ->]. rewrite bool_decide_true; [done|]. by destruct (decide (String.length key = credentialKeySize)).
Qed.

Lemma readCredentialKey_key w version code :
  triple (fun w1 => w1 = w) (readCredentialKey version code)
    (fun key w' => w' = w /\ key_of w version = Some key) (fun w' => w' = w).
Proof.
  eapply triple_weaken; [apply (triple_reads (readCredentialKey version code) w)|done| |done].
  intros key w' [-> Hk]. split; [done|]. by apply readCredentialKey_plain in Hk.
Qed.

(** Code that only reads, under a condition on the world. *)
Lemma triple_keeps {A} (P : World -> Prop) (m : DB World A) `{!Keeps (fun w => w) m} : triple P m (fun _ => P) P.
Proof.
  intros fs w Hw. pose proof (keeps fs w (f := fun w => w) (m := m)) as Hk. unfold tables_after in Hk.
  destruct (m fs w) as [[[a|e] w'] fs']; simpl in *; by subst.
Qed.

(** * Opening *)

(** The key ring holds the key the files have for its version. *)
Definition ring_ok (keyring : CredentialKeyring) (w : World) : Prop :=
  key_of w (currentVersion keyring) = Some (currentKey keyring).

#[export] Instance initialize_keeps : Keeps (fun w => w) (initializeCredentialKeyring true).
Proof.
  unfold initializeCredentialKeyring. apply bind_keeps; [apply fault_on_keeps; reads|]. intros [[isDir perm] uid]. apply _.
Qed.

Lemma OpenCredentialKeyring_ok w :
  triple (fun w1 => w1 = w) (OpenCredentialKeyring true)
    (fun keyring w' => w' = w /\ (keyring_fault keyring = None -> ring_ok keyring w)) (fun w' => w' = w).
Proof.
  unfold OpenCredentialKeyring. eapply triple_bind; [eapply (triple_attempt _ _ (fun _ w' => w' = w)); [apply triple_keeps, _|done]|].
  intros [generated|e]; [|by apply triple_ret]. eapply triple_bind.
  - eapply (triple_attempt _ _ (fun r w' => w' = w /\ match r with Ok (version, key) => key_of w version = Some key | Err _ => True end)).
    2:{ intros e w' Hw'. exact (conj Hw' I). }
    eapply triple_bind; [apply triple_keeps, _|]. intros version. eapply triple_bind; [apply triple_keeps, _|]. intros matches.
    eapply triple_bind; [apply readCredentialKey_key|]. intros key. by apply triple_ret.
  - intros [[version key]|e]; apply triple_ret; [by intros w' [-> Hk]|by intros w' [-> _]].
Qed.

(** * What is kept *)

(** Every credential that could be read in [w0] can be read in [w], as the same text. *)
Definition safe (w0 w : World) : Prop := forall s p, plaintext w0 s = Some p -> plaintext w s = Some p.

#[export] Instance safe_preorder : PreOrder safe.
Proof. split; [by intros w s p|]. intros w1 w2 w3 H1 H2 s p Hp. auto. Qed.

(** Changes that leave the stored envelopes alone and lose no key. *)
Lemma safe_keys w w' :
  (forall s, stored w' s = stored w s) ->
  (forall s envelope version key, stored w s = Some (envelope, version) -> key_of w version = Some key -> key_of w' version = Some key) ->
  safe w w'.
Proof.
  intros Hst Hk s p. unfold plaintext. rewrite Hst. destruct (stored w s) as [[envelope version]|] eqn:Es; [simpl|done].
  destruct (key_of w version) as [key|] eqn:Ek; [simpl|done]. rewrite (Hk s envelope version key Es Ek). done.
Qed.

(** A file that is not the key's does not matter to it. *)
Lemma key_of_insert w name f version :
  (forall key, key_of w version = Some key -> name <> credentialKeyFilename version) ->
  forall key, key_of w version = Some key -> key_of (set_files <[name := f]> w) version = Some key.
Proof.
  intros Hname key Hk. pose proof (Hname key Hk) as Hne. revert Hk. unfold key_of. simpl. by rewrite lookup_insert_ne.
Qed.

Lemma current_is_no_key version : credentialCurrentVersionFilename <> credentialKeyFilename version.
Proof. discriminate. Qed.

(** No key is lost. *)
Definition keeps_keys (w0 w : World) : Prop := forall version key, key_of w0 version = Some key -> key_of w version = Some key.

(** The condition every step of the rotation keeps until the snapshot is refreshed. *)
Definition base (w0 w : World) : Prop := safe w0 w /\ keyed w /\ keeps_keys w0 w /\ w_snapshot w = w_snapshot w0.

Lemma base_refl w : keyed w -> base w w.
Proof. intros Hk. by split_and!; [intros s p| |intros version key|]. Qed.

Definition keeps_base {A} (w0 : World) (m : DB World A) : Prop := triple (base w0) m (fun _ => base w0) (base w0).

Lemma base_step w0 w w' :
  base w0 w -> (forall s, stored w' s = stored w s) -> keeps_keys w w' -> w_webhook w' = w_webhook w ->
  w_snapshot w' = w_snapshot w -> base w0 w'.
Proof.
  intros (Hs & Hk & Hkeys & Hsn) Hst Hkeys' Hw Hsn'. split_and!; [|by intros id t; rewrite Hw; apply Hk| |congruence].
  - etrans; [exact Hs|]. by apply safe_keys; [|intros s envelope version key _; apply Hkeys'].
  - intros version key Hkey. by apply Hkeys', Hkeys.
Qed.

Lemma keeps_base_fault {A} w0 code (m : DB World A) : keeps_base w0 m -> keeps_base w0 (fault_on code m).
Proof.
  intros Hm. unfold fault_on. eapply triple_bind; [by eapply (triple_attempt _ _ (fun _ => base w0))|].
  intros [a|e]; [by apply triple_ret|by apply triple_fail].
Qed.

Lemma keeps_base_bind {A B} w0 (m : DB World A) (k : A -> DB World B) :
  keeps_base w0 m -> (forall a, keeps_base w0 (k a)) -> keeps_base w0 (m ≫= k).
Proof. intros Hm Hk. by eapply triple_bind. Qed.

Lemma rename_current_base w0 contents : keeps_base w0 (rename_over credentialCurrentVersionFilename contents).
Proof.
  assert (forall w, base w0 w -> base w0 (set_files <[credentialCurrentVersionFilename := own_file w contents]> w)) as Hstep.
  { intros w Hb. eapply base_step; [exact Hb|by intros []| |done|done].
    intros version. apply key_of_insert. intros key _. apply current_is_no_key. }
  apply triple_exec; auto.
Qed.

Lemma create_file_base w0 name contents : keeps_base w0 (create_file name contents).
Proof.
  apply triple_statement; [done|]. intros w [] w' Hb He. destruct (disk_Files (w_disk w) !! name) eqn:Ef; [done|].
  injection He as <-. assert (base w0 (set_files <[name := own_file w contents]> w)); [|done].
  eapply base_step; [exact Hb|by intros []| |done|done]. intros version. apply key_of_insert. intros key Hk ->.
  unfold key_of in Hk. rewrite Ef in Hk. by destruct (version <=? 0).
Qed.

Lemma draw_base w0 n : keeps_base w0 (draw n).
Proof.
  apply triple_statement; [done|]. intros w a w' Hb [= <- <-].
  assert (base w0 (set_drawn (S (w_drawn w)) w)); [|done]. apply (base_step w0 w); [exact Hb|by intros []|by intros version key|done|done].
Qed.

Lemma io_step_base w0 : keeps_base w0 io_step.
Proof. apply triple_keeps, _. Qed.

Lemma syncDirectory_base w0 code : keeps_base w0 (syncCredentialDirectory code).
Proof. apply triple_keeps. unfold syncCredentialDirectory. apply _. Qed.

Lemma writeCurrent_base w0 version : keeps_base w0 (writeCurrentCredentialKeyVersion version).
Proof.
  unfold writeCurrentCredentialKeyVersion.
  do 4 (apply keeps_base_bind; [apply keeps_base_fault, io_step_base|intros _]).
  apply keeps_base_bind; [apply keeps_base_fault, rename_current_base|intros _]. apply syncDirectory_base.
Qed.

Lemma generateCredentialKey_base w0 version : keeps_base w0 (generateCredentialKey version).
Proof.
  unfold generateCredentialKey, generateEncodedCredentialKey.
  apply keeps_base_bind; [apply keeps_base_bind; [apply triple_wrap, draw_base|intros key; by apply triple_ret]|]. intros encoded.
  do 4 (apply keeps_base_bind; [apply keeps_base_fault, io_step_base|intros _]).
  apply keeps_base_bind; [apply keeps_base_fault, create_file_base|intros _]. apply syncDirectory_base.
Qed.

(** A key ring that is opened has the key of its version. *)
Lemma open_base w0 :
  triple (base w0) (OpenCredentialKeyring true)
    (fun keyring w => base w0 w /\ (keyring_fault keyring = None -> ring_ok keyring w)) (base w0).
Proof.
  apply triple_at. intros w Hb. eapply triple_weaken; [apply (OpenCredentialKeyring_ok w)|done| |by intros w' ->].
  intros keyring w' [-> Hr]. done.
Qed.

Definition ready (w0 : World) (keyring : CredentialKeyring) (w : World) : Prop :=
  base w0 w /\ ring_ok keyring w /\ keyring_fault keyring = None.

Lemma activate_ready w0 version :
  triple (base w0) (activateCredentialKey version) (fun keyring => ready w0 keyring) (base w0).
Proof.
  unfold activateCredentialKey. eapply triple_bind; [apply writeCurrent_base|]. intros [].
  eapply triple_bind; [apply open_base|]. intros keyring.
  destruct (keyring_fault keyring) as [fault|] eqn:Ef; [by apply triple_fail; intros w [Hb _]|].
  apply triple_ret. intros w [Hb Hr]. split_and!; auto.
Qed.

(** No stored credential uses another version. *)
Definition all_use (version : Z) (w : World) : Prop := forall s envelope v, stored w s = Some (envelope, v) -> v = version.

Lemma count_zero {A} (P : A -> bool) l : count P l = 0 -> forall x, x ∈ l -> P x = false.
Proof.
  unfold count. intros Hc x Hx. destruct (P x) eqn:E; [|done]. exfalso.
  assert (x ∈ filter (fun x => P x = true) l) as Hin by by apply list_elem_of_filter.
  destruct (filter _ l); [by apply elem_of_nil in Hin|]. simpl in Hc. lia.
Qed.

Lemma count_nonneg {A} (P : A -> bool) l : 0 <= count P l.
Proof. unfold count. lia. Qed.

(** The versions of the stored credentials are those the statements count. *)
Lemma stored_version w s envelope v :
  stored w s = Some (envelope, v) -> v ∈ instance_versions w \/ v ∈ smtp_versions w \/ v ∈ webhook_versions w.
Proof.
  assert (forall id t, w_webhook w !! id = Some t -> wt_SigningKeyVersion t ∈ webhook_versions w) as Hweb.
  { intros id t Ht. unfold webhook_versions. apply list_elem_of_fmap. exists t. split; [done|].
    apply list_elem_of_fmap. exists (id, t). split; [done|]. by apply elem_of_map_to_list. }
  destruct s as [id| |id|id]; simpl.
  - intros Hs. left. unfold instance_versions. apply list_elem_of_fmap. exists (envelope, v). split; [done|].
    apply list_elem_of_fmap. exists (id, (envelope, v)). split; [done|]. by apply elem_of_map_to_list.
  - intros Hs. right. left. unfold smtp_versions. destruct (w_smtp w) as [c|]; [simpl in *|done].
    destruct (smtp_AuthKeyVersion c) as [u|]; [simpl in *|done]. injection Hs as _ ->. simpl. left.
  - destruct (w_webhook w !! id) as [t|] eqn:Et; [simpl|done]. intros [= _ <-]. right. right. eauto.
  - destruct (w_webhook w !! id) as [t|] eqn:Et; [simpl|done]. intros [= _ <-]. right. right. eauto.
Qed.

Definition not_using (version : Z) (w : World) : Z :=
  count (fun v => negb (v =? version)) (instance_versions w) + count (fun v => negb (v =? version)) (smtp_versions w)
  + count (fun v => negb (v =? version)) (webhook_versions w).

Lemma not_using_zero version w : not_using version w <= 0 -> all_use version w.
Proof.
  unfold not_using. intros Hn s envelope v Hs.
  pose proof (count_nonneg (fun v => negb (v =? version)) (instance_versions w)).
  pose proof (count_nonneg (fun v => negb (v =? version)) (smtp_versions w)).
  pose proof (count_nonneg (fun v => negb (v =? version)) (webhook_versions w)).
  assert (negb (v =? version) = false) as Hv.
  { destruct (stored_version _ _ _ _ Hs) as [Hin|[Hin|Hin]]; revert Hin; apply (count_zero (fun v => negb (v =? version))); lia. }
  by apply negb_false_iff, Z.eqb_eq in Hv.
Qed.

Lemma triple_lift {A B} P (r : result A) (k : A -> DB World B) Q (E : World -> Prop) :
  match r with Ok a => triple P (k a) Q E | Err _ => forall w, P w -> E w end -> triple P (lift r ≫= k) Q E.
Proof. destruct r as [a|e]; intros Hr; [exact Hr|]. intros fs w Hw. by apply Hr. Qed.

(** After the preparation the key ring is open, every credential is as readable as
    before, and when the rows need no rewriting they all use the current key. *)
Lemma Prepare_ready w0 :
  triple (base w0) PrepareCredentialKeyRotation
    (fun r w => ready w0 r.1 w /\ (r.2 = false -> all_use (currentVersion r.1) w)) (base w0).
Proof.
  assert (forall version, triple (base w0) (keyring ← activateCredentialKey version; mret (keyring, true))
    (fun r w => ready w0 r.1 w /\ (r.2 = false -> all_use (currentVersion r.1) w)) (base w0)) as Hactivate.
  { intros version. eapply triple_bind; [apply activate_ready|]. intros keyring. by apply triple_ret. }
  unfold PrepareCredentialKeyRotation. eapply triple_bind; [apply open_base|]. intros keyring.
  destruct (keyring_fault keyring) as [fault|] eqn:Ef; [by apply triple_fail; intros w [Hb _]|].
  apply (triple_weaken _ (fun w => ready w0 keyring w)) with (4 := fun _ Hw => Hw) (3 := fun _ _ Hw => Hw).
  2:{ intros w [Hb Hr]. split_and!; auto. }
  assert (forall w, ready w0 keyring w -> base w0 w) as Hbase by (by intros w [Hb _]).
  eapply triple_bind; [eapply triple_weaken; [apply (triple_keeps (ready w0 keyring) credentialKeyVersions)|done..|exact Hbase]|].
  intros versions. apply (triple_bind _ _ _ (fun n w => ready w0 keyring w /\ n = not_using (currentVersion keyring) w)).
  { apply triple_wrap, triple_query; [exact Hbase|done]. }
  intros n. destruct (_ <=? currentVersion keyring); [apply triple_fail; by intros w [Hr _]; apply Hbase|].
  case_bool_decide.
  { eapply triple_bind; [|intros key; apply Hactivate].
    eapply triple_weaken; [apply (triple_keeps (base w0) (readCredentialKey _ _))|by intros w [Hr _]; apply Hbase|done..]. }
  destruct (0 <? n) eqn:Hn; [apply triple_ret; by intros w [Hr _]|].
  apply triple_lift. destruct (stale_keys _ _ _) as [[]|e].
  - apply triple_ret. intros w [Hr ->]. split; [done|]. intros _. apply not_using_zero. simpl. lia.
  - apply (triple_bind _ _ _ (fun _ => base w0)); [|intros []; apply Hactivate].
    eapply triple_weaken; [apply generateCredentialKey_base|by intros w [Hr _]; apply Hbase|done..].
  - by intros w [Hr _]; apply Hbase.
Qed.

(** * Sealing and opening with the key ring *)

Lemma decrypt_opens keyring w envelope version aad :
  ring_ok keyring w ->
  triple (fun w1 => w1 = w) (decrypt keyring envelope version aad)
    (fun p w' => w' = w /\ exists key, key_of w version = Some key /\ open_envelope key envelope aad = Some p) (fun _ => True).
Proof.
  intros Hr. unfold decrypt. destruct (keyring_fault keyring); [by apply triple_fail|].
  apply (triple_bind _ _ _ (fun key w' => w' = w /\ key_of w version = Some key)).
  { case_bool_decide as Hv; [by eapply triple_weaken; [apply (readCredentialKey_key w)|..]|].
    apply triple_ret. intros w' ->. split; [done|]. rewrite Hv. exact Hr. }
  intros key. apply triple_lift. destruct (credentialGCM key); [|done].
  destruct (open_envelope key envelope aad) as [p|] eqn:Eo; [|by apply triple_fail].
  apply triple_ret. intros w' [-> Hk]. eauto.
Qed.

Lemma encrypt_seals keyring w p aad description :
  triple (fun w1 => w1 = w) (encrypt keyring p aad description)
    (fun r w' => w' = set_drawn (S (w_drawn w)) w /\ r.2 = currentVersion keyring /\
       open_envelope (currentKey keyring) r.1 aad = Some p) (fun _ => True).
Proof.
  unfold encrypt. destruct (keyring_fault keyring); [by apply triple_fail|].
  apply triple_lift. destruct (credentialGCM _); [|done].
  apply (triple_bind _ _ _ (fun nonce w' => w' = set_drawn (S (w_drawn w)) w /\ String.length nonce = credentialNonceSize)).
  { apply triple_wrap, triple_statement; [done|]. intros w1 nonce w' -> [= <- <-]. split; [|done]. split; [done|]. apply random_length. }
  intros nonce. apply triple_ret. intros w' [-> Hn]. split_and!; [done..|]. by apply open_seal_envelope.
Qed.

(** * Rewriting rows *)

Lemma key_of_disk w w' version : w_disk w' = w_disk w -> key_of w' version = key_of w version.
Proof. intros E. unfold key_of. by rewrite E. Qed.

(** Rows rewritten since [w1] open to what they opened to in [w1]. *)
Definition during (w1 w : World) : Prop := safe w1 w /\ keyed w /\ w_disk w = w_disk w1 /\ w_snapshot w = w_snapshot w1.

Lemma rewrite_during w1 w w' :
  during w1 w -> w_disk w' = w_disk w -> w_snapshot w' = w_snapshot w -> keyed w' ->
  (forall s, stored w' s = stored w s \/
     exists envelope version key p, stored w' s = Some (envelope, version) /\ key_of w1 version = Some key /\
       open_envelope key envelope (aad_of s) = Some p /\ (forall q, plaintext w1 s = Some q -> q = p)) ->
  during w1 w'.
Proof.
  intros (Hs & Hk & Hd & Hsn) Hd' Hsn' Hk' Hrows. split_and!; [|done|congruence..]. intros s q Hq.
  destruct (Hrows s) as [Heq|(envelope & version & key & p & Hst & Hkey & Hopen & Hsame)].
  - specialize (Hs s q Hq). unfold plaintext in *. rewrite Heq. destruct (stored w s) as [[envelope version]|]; [simpl in *|done].
    by rewrite (key_of_disk w w').
  - unfold plaintext. rewrite Hst. simpl. rewrite (key_of_disk w1 w') by congruence. rewrite Hkey. simpl.
    by rewrite Hopen, (Hsame q Hq).
Qed.

Lemma triple_sum_each {I} (P : list I -> World -> Prop) (f : I -> DB World Z) items total E :
  (forall item rest, triple (P (item :: rest)) (f item) (fun _ => P rest) E) ->
  triple (P items) (sum_each f items total) (fun _ => P []) E.
Proof.
  intros Hf. revert total. induction items as [|item rest IH]; intros total; simpl; [by apply triple_ret|].
  eapply triple_bind; [apply Hf|]. intros n. apply IH.
Qed.

(** What a listed row opens to. *)
Lemma plaintext_stored w s envelope version key p q :
  stored w s = Some (envelope, version) -> key_of w version = Some key -> open_envelope key envelope (aad_of s) = Some p ->
  plaintext w s = Some q -> q = p.
Proof. unfold plaintext. intros -> Hk Ho. simpl. rewrite Hk. simpl. congruence. Qed.

(** The rows still to be looked at. *)
Definition instances_left (keyring : CredentialKeyring) (w1 : World) (rest : list (string * string * Z)) (w : World) : Prop :=
  during w1 w /\ w_smtp w = w_smtp w1 /\ w_webhook w = w_webhook w1 /\
  (forall id row, w_instance w !! id = Some row ->
     row.2 = currentVersion keyring \/ w_instance w1 !! id = Some row /\ (id, row.1, row.2) ∈ rest) /\
  (forall id c v, (id, c, v) ∈ rest -> w_instance w1 !! id = Some (c, v)).

Lemma reencrypt_instance_left keyring w1 item rest :
  ring_ok keyring w1 ->
  triple (instances_left keyring w1 (item :: rest)) (reencrypt_instance keyring item)
    (fun _ => instances_left keyring w1 rest) (fun _ => True).
Proof.
  intros Hr. destruct item as [[id c] v]. unfold reencrypt_instance.
  apply triple_at. intros w (Hd & Es & Ew & Hrows & Hlisted).
  assert (w_instance w1 !! id = Some (c, v)) as Hid by (apply Hlisted; left).
  assert (forall id c v, (id, c, v) ∈ rest -> w_instance w1 !! id = Some (c, v)) as Hrest by (intros ???; intros; apply Hlisted; by right).
  destruct (Z.eqb_spec v (currentVersion keyring)) as [->|Hv].
  { apply triple_ret. intros w' ->. split_and!; auto. intros j row Hj. destruct (Hrows j row Hj) as [?|[H1 Hin]]; [by left|].
    apply elem_of_cons in Hin as [[= -> E1 E2]|Hin]; [by left|by right]. }
  assert (ring_ok keyring w) as Hrw by (unfold ring_ok; rewrite (key_of_disk w1 w); [exact Hr|apply Hd]).
  eapply triple_bind; [by apply decrypt_opens|]. intros p. apply triple_at. intros w' [-> (key & Hkey & Hopen)].
  eapply triple_bind; [apply encrypt_seals|]. intros [c' v']. apply triple_at. intros w' (-> & Hv' & Hc'). simpl in Hv', Hc'. subst v'.
  apply (triple_bind _ _ _ (fun _ => instances_left keyring w1 rest)); [|intros []; by apply triple_ret].
  apply triple_wrap, triple_statement; [done|]. intros w2 [] w' -> [= <-]. split; [|done].
  split_and!; try done; simpl.
  - apply (rewrite_during w1 w); [exact Hd|done|done|by apply Hd|].
    intros s. destruct (decide (s = SlotInstance id)) as [->|Hne].
    2:{ left. destruct s as [j| | |]; try done. simpl. rewrite lookup_alter_ne; [done|congruence]. }
    simpl. destruct (w_instance w !! id) as [row|] eqn:Erow.
    + right. exists c', (currentVersion keyring), (currentKey keyring), p. rewrite lookup_alter_eq, Erow. split_and!; try done.
      intros q. eapply (plaintext_stored w1 (SlotInstance id) c v key); [done|by rewrite <-(key_of_disk w1 w) by apply Hd|done].
    + left. by rewrite lookup_alter_eq, Erow.
  - intros j row. destruct (decide (id = j)) as [<-|Hne].
    + rewrite lookup_alter_eq. destruct (w_instance w !! id); simpl; [|done]. intros [= <-]. by left.
    + rewrite lookup_alter_ne by done. intros Hj. destruct (Hrows j row Hj) as [?|[H1 Hin]]; [by left|].
      apply elem_of_cons in Hin as [[= E0 E1 E2]|Hin]; [congruence|by right].
Qed.

Definition instances_done (keyring : CredentialKeyring) (w : World) : Prop :=
  forall id row, w_instance w !! id = Some row -> row.2 = currentVersion keyring.
Definition smtp_done (keyring : CredentialKeyring) (w : World) : Prop :=
  forall c v, w_smtp w = Some c -> smtp_AuthKeyVersion c = Some v -> v = currentVersion keyring.
Definition webhooks_done (keyring : CredentialKeyring) (w : World) : Prop :=
  forall id t, w_webhook w !! id = Some t -> wt_SigningKeyVersion t = currentVersion keyring.

(** Rewriting during a transaction keeps the key ring ready. *)
Lemma ready_during w0 keyring w1 w : ready w0 keyring w1 -> during w1 w -> ready w0 keyring w.
Proof.
  intros ((Hs & Hk & Hkeys & Hsn) & Hr & Hf) (Hs' & Hk' & Hd & Hsn'). unfold ready, ring_ok.
  rewrite (key_of_disk w1 w) by done. split_and!; [split_and!; [by etrans|done| |congruence]|done|done].
  intros version key Hkey. rewrite (key_of_disk w1 w) by done. by apply Hkeys.
Qed.

Lemma during_refl w : keyed w -> during w w.
Proof. intros Hk. by split_and!. Qed.

Lemma ReencryptCredentials_done w0 keyring :
  triple (ready w0 keyring) (ReencryptCredentials keyring)
    (fun _ w => ready w0 keyring w /\ instances_done keyring w) (fun _ => True).
Proof.
  apply triple_at. intros w Hw. pose proof Hw as ((_ & Hkeyed & _) & Hr & _). unfold ReencryptCredentials.
  eapply (triple_bind _ _ _ (fun rows w' => instances_left keyring w rows w')).
  { apply triple_wrap, triple_query; [done|]. intros w' ->.
    assert (forall id c v, (id, c, v) ∈ sort_by (fun a b => string_ltb a.1.1 b.1.1)
      ((fun p : string * (string * Z) => (p.1, p.2.1, p.2.2)) <$> map_to_list (w_instance w)) <-> w_instance w !! id = Some (c, v)) as Hlist.
    { intros id c v. rewrite elem_of_sort_by, list_elem_of_fmap. split.
      - intros ([id' [c' v']] & [= -> -> ->] & Hin). by apply elem_of_map_to_list in Hin.
      - intros Hid. exists (id, (c, v)). split; [done|]. by apply elem_of_map_to_list. }
    split_and!; [by apply during_refl|done..| |].
    - intros id [c v] Hid. right. split; [done|]. by apply Hlist.
    - intros id c v. apply Hlist. }
  intros rows. eapply triple_weaken; [apply (triple_sum_each (instances_left keyring w)); intros item rest;
    by apply reencrypt_instance_left|done| |done].
  intros n w' (Hd & _ & _ & Hrows & _). split; [by eapply ready_during|].
  intros id row Hid. destruct (Hrows id row Hid) as [?|[_ Hin]]; [done|]. by apply elem_of_nil in Hin.
Qed.

Lemma reencryptSMTPChannel_done w0 keyring :
  triple (fun w => ready w0 keyring w /\ instances_done keyring w) (reencryptSMTPChannel keyring)
    (fun _ w => ready w0 keyring w /\ instances_done keyring w /\ smtp_done keyring w) (fun _ => True).
Proof.
  apply triple_at. intros w [Hw Hi]. pose proof Hw as ((_ & Hkeyed & _) & Hr & _). unfold reencryptSMTPChannel.
  apply (triple_bind _ _ _ (fun r w' => w' = w /\ match r with
    | Ok c => w_smtp w = Some c /\ is_Some (smtp_AuthKeyVersion c)
    | Err e => is_no_rows e = true -> forall c, w_smtp w = Some c -> smtp_AuthKeyVersion c = None end)).
  { intros fs w1 ->. pose proof (statement_cases (fun w => match w_smtp w with
      | Some channel => if bool_decide (is_Some (smtp_AuthKeyVersion channel)) then Ok (channel, w) else Err ErrNoRows
      | None => Err ErrNoRows end) fs w) as Hcase.
    assert (Keeps (fun w => w) GetSMTPChannelForKeyRotation) as Hkeep by reads.
    specialize (Hkeep fs w). unfold tables_after in Hkeep. fold GetSMTPChannelForKeyRotation in Hcase.
    unfold attempt. destruct (GetSMTPChannelForKeyRotation fs w) as [[[c|e] w2] fs2]; simpl in *; subst w2; split; try done.
    - destruct (w_smtp w); [|done]. case_bool_decide; [|done]. by injection Hcase as ->.
    - intros Hn. destruct (Hcase Hn) as [Hc _]. intros c Ec. rewrite Ec in Hc. case_bool_decide as Hs; [done|].
      destruct (smtp_AuthKeyVersion c); [by destruct Hs; eexists|done]. }
  intros r. apply triple_at. intros w1 [-> Hcase]. destruct r as [c|e].
  2:{ destruct (is_no_rows e); [|by apply triple_fail]. apply triple_ret. intros w1 ->. split_and!; try done.
      intros c v Ec. by rewrite (Hcase eq_refl c Ec). }
  destruct Hcase as [Ec [v Ev]]. rewrite Ev. simpl. destruct (Z.eqb_spec v (currentVersion keyring)) as [->|Hv].
  { apply triple_ret. intros w1 ->. split_and!; try done. intros c' v' Ec' Ev'. congruence. }
  set (envelope := default EmptyString (smtp_AuthCiphertext c)).
  eapply triple_bind; [by apply decrypt_opens|]. intros p. apply triple_at. intros w' [-> (key & Hkey & Hopen)].
  eapply triple_bind; [apply encrypt_seals|]. intros [c' v']. apply triple_at. intros w' (-> & Hv' & Hc'). simpl in Hv', Hc'. subst v'.
  apply (triple_bind _ _ _ (fun _ w => ready w0 keyring w /\ instances_done keyring w /\ smtp_done keyring w));
    [|intros []; by apply triple_ret].
  apply triple_wrap, triple_statement; [done|]. intros w2 [] w' -> [= <-]. split; [|done].
  split_and!; [|done|].
  - eapply ready_during; [exact Hw|]. apply (rewrite_during w w); [by apply during_refl|done|done|done|].
    intros s. destruct (decide (s = SlotSMTP)) as [->|Hne]; [right|left; by destruct s].
    exists c', (currentVersion keyring), (currentKey keyring), p. simpl. rewrite Ec. simpl. split_and!; try done.
    intros q. apply (plaintext_stored w SlotSMTP envelope v key); [|done|done]. simpl. rewrite Ec. simpl. by rewrite Ev.
  - intros c1 v1. simpl. rewrite Ec. simpl. intros [= <-] [= <-]. done.
Qed.

(** The webhook targets still to be looked at. *)
Definition webhooks_left (keyring : CredentialKeyring) (w1 : World) (rest : list WebhookTarget) (w : World) : Prop :=
  during w1 w /\ w_smtp w = w_smtp w1 /\ w_instance w = w_instance w1 /\
  (forall id t, w_webhook w !! id = Some t ->
     wt_SigningKeyVersion t = currentVersion keyring \/ w_webhook w1 !! id = Some t /\ t ∈ rest) /\
  (forall t, t ∈ rest -> w_webhook w1 !! wt_ID t = Some t).

Lemma alter_signing_keyed w value header version id :
  keyed w -> keyed (set_webhook (alter (with_signing value header version) id (w_webhook w)) w).
Proof.
  intros Hk j t. simpl. destruct (decide (id = j)) as [<-|Hne]; [|rewrite lookup_alter_ne by done; apply Hk].
  rewrite lookup_alter_eq. destruct (w_webhook w !! id) as [t'|] eqn:E; simpl; [|done]. intros [= <-]. simpl. by apply Hk.
Qed.

Lemma reencrypt_webhook_left keyring w1 item rest :
  ring_ok keyring w1 ->
  triple (webhooks_left keyring w1 (item :: rest)) (reencrypt_webhook keyring item)
    (fun _ => webhooks_left keyring w1 rest) (fun _ => True).
Proof.
  intros Hr. unfold reencrypt_webhook. apply triple_at. intros w (Hd & Es & Ei & Hrows & Hlisted).
  set (id := wt_ID item). set (v := wt_SigningKeyVersion item).
  assert (w_webhook w1 !! id = Some item) as Hid by (apply Hlisted; left).
  assert (forall t, t ∈ rest -> w_webhook w1 !! wt_ID t = Some t) as Hrest by (intros; apply Hlisted; by right).
  destruct (Z.eqb_spec v (currentVersion keyring)) as [Hv|Hv].
  { apply triple_ret. intros w' ->. split_and!; auto. intros j t Hj. destruct (Hrows j t Hj) as [?|[H1 Hin]]; [by left|].
    apply elem_of_cons in Hin as [->|Hin]; [by left|by right]. }
  assert (ring_ok keyring w) as Hrw by (unfold ring_ok; rewrite (key_of_disk w1 w); [exact Hr|apply Hd]).
  eapply triple_bind; [by apply decrypt_opens|]. intros p1. apply triple_at. intros w' [-> (key & Hkey & Hopen1)].
  eapply triple_bind; [by apply decrypt_opens|]. intros p2. apply triple_at. intros w' [-> (key' & Hkey' & Hopen2)].
  assert (key' = key) as -> by congruence. clear Hkey'.
  eapply triple_bind; [apply encrypt_seals|]. intros [c1 v1]. apply triple_at. intros w' (-> & Hv1 & Hc1). simpl in Hv1, Hc1. subst v1.
  eapply triple_bind; [apply encrypt_seals|]. intros [c2 v2]. apply triple_at. intros w' (-> & Hv2 & Hc2). simpl in Hv2, Hc2.
  apply (triple_bind _ _ _ (fun _ => webhooks_left keyring w1 rest)); [|intros []; by apply triple_ret].
  apply triple_wrap, triple_statement; [done|]. intros w2 [] w' -> [= <-]. split; [|done].
  assert (key_of w1 v = Some key) as Hkey1 by (by rewrite <-(key_of_disk w1 w) by apply Hd).
  split_and!; try done; simpl.
  - apply (rewrite_during w1 w); [exact Hd|done|done|apply (alter_signing_keyed w), Hd|].
    intros s. destruct (w_webhook w !! id) as [row|] eqn:Erow.
    2:{ left. destruct s as [| |j|j]; try done; simpl; (destruct (decide (id = j)) as [<-|Hne];
          [by rewrite lookup_alter_eq, Erow|by rewrite lookup_alter_ne]). }
    destruct s as [| |j|j]; [by left|by left|..].
    + destruct (decide (id = j)) as [<-|Hne]; [right|left; simpl; by rewrite lookup_alter_ne].
      exists c1, (currentVersion keyring), (currentKey keyring), p1. simpl. rewrite lookup_alter_eq, Erow. split_and!; try done.
      intros q. apply (plaintext_stored w1 (SlotSigningValue id) (wt_SigningValueCiphertext item) v key); [|done|done].
      simpl. by rewrite Hid.
    + destruct (decide (id = j)) as [<-|Hne]; [right|left; simpl; by rewrite lookup_alter_ne].
      exists c2, (currentVersion keyring), (currentKey keyring), p2. simpl. rewrite lookup_alter_eq, Erow. split_and!; try done.
      intros q. apply (plaintext_stored w1 (SlotSignatureHeader id) (wt_SignatureHeaderCiphertext item) v key); [|done|done].
      simpl. by rewrite Hid.
  - intros j t. destruct (decide (id = j)) as [<-|Hne].
    + rewrite lookup_alter_eq. destruct (w_webhook w !! id); simpl; [|done]. intros [= <-]. by left.
    + rewrite lookup_alter_ne by done. intros Hj. destruct (Hrows j t Hj) as [?|[H1 Hin]]; [by left|].
      apply elem_of_cons in Hin as [->|Hin]; [|by right]. destruct Hne. unfold id. by apply Hd.
Qed.

Lemma reencryptWebhookTargets_done w0 keyring :
  triple (fun w => ready w0 keyring w /\ instances_done keyring w /\ smtp_done keyring w) (reencryptWebhookTargets keyring)
    (fun _ w => ready w0 keyring w /\ instances_done keyring w /\ smtp_done keyring w /\ webhooks_done keyring w) (fun _ => True).
Proof.
  apply triple_at. intros w (Hw & Hi & Hsm). pose proof Hw as ((_ & Hkeyed & _) & Hr & _). unfold reencryptWebhookTargets.
  eapply (triple_bind _ _ _ (fun rows w' => webhooks_left keyring w rows w')).
  { apply triple_wrap, triple_query; [done|]. intros w' ->.
    assert (forall t, t ∈ sort_by (fun a b => string_ltb (wt_ID a) (wt_ID b)) ((map_to_list (w_webhook w)).*2) <->
      exists id, w_webhook w !! id = Some t) as Hlist.
    { intros t. rewrite elem_of_sort_by, list_elem_of_fmap. split.
      - intros ([id t'] & -> & Hin). exists id. by apply elem_of_map_to_list in Hin.
      - intros [id Hid]. exists (id, t). split; [done|]. by apply elem_of_map_to_list. }
    split_and!; [by apply during_refl|done..| |].
    - intros id t Hid. right. split; [done|]. apply Hlist. eauto.
    - intros t Ht. apply Hlist in Ht as [id Hid]. by rewrite (Hkeyed id t Hid). }
  intros rows. eapply triple_weaken; [apply (triple_sum_each (webhooks_left keyring w)); intros item rest;
    by apply reencrypt_webhook_left|done| |done].
  intros n w' (Hd & Es & Ei & Hrows & _). unfold instances_done, smtp_done. rewrite Es, Ei.
  split_and!; [by eapply ready_during|done|done|].
  intros id t Hid. destruct (Hrows id t Hid) as [?|[_ Hin]]; [done|]. by apply elem_of_nil in Hin.
Qed.

Lemma done_all_use keyring w :
  instances_done keyring w -> smtp_done keyring w -> webhooks_done keyring w -> all_use (currentVersion keyring) w.
Proof.
  intros Hi Hs Hw s envelope v. destruct s as [id| |id|id]; simpl.
  - intros Hid. by apply (Hi id (envelope, v)).
  - destruct (w_smtp w) as [c|] eqn:Ec; [simpl|done]. destruct (smtp_AuthKeyVersion c) as [u|] eqn:Eu; [simpl|done].
    intros [= _ <-]. by eapply Hs.
  - destruct (w_webhook w !! id) as [t|] eqn:Et; [simpl|done]. intros [= _ <-]. by eapply Hw.
  - destruct (w_webhook w !! id) as [t|] eqn:Et; [simpl|done]. intros [= _ <-]. by eapply Hw.
Qed.

(** The transaction moves every row to the current key, or changes nothing. *)
Lemma reencrypt_transaction w0 keyring :
  triple (ready w0 keyring)
    (InTx (instances ← ReencryptCredentials keyring; smtp ← reencryptSMTPChannel keyring;
           webhooks ← reencryptWebhookTargets keyring; mret (instances + smtp + webhooks)))
    (fun _ w => ready w0 keyring w /\ all_use (currentVersion keyring) w) (ready w0 keyring).
Proof.
  apply triple_InTx; [|by intros n w [Hr _]].
  eapply triple_bind; [apply ReencryptCredentials_done|]. intros n1.
  eapply triple_bind; [apply reencryptSMTPChannel_done|]. intros n2.
  eapply triple_bind; [apply reencryptWebhookTargets_done|]. intros n3.
  apply triple_ret. intros w (Hr & Hi & Hs & Hw). split; [done|]. by apply done_all_use.
Qed.

(** * The snapshot *)

(** One channel of a snapshot, field by field. *)
Record smtp_copy (row : SmtpChannel) (c : SnapshotSMTPChannel) : Prop := MkSmtpCopy {
  smtp_copy_target : (ss_Enabled c, ss_Host c, ss_Port c, ss_TLSMode c) = (smtp_Enabled row, smtp_Host row, smtp_Port row, smtp_TlsMode row);
  smtp_copy_mail : (ss_From c, ss_Recipient c) = (smtp_FromAddress row, smtp_Recipient row);
  smtp_copy_auth : (ss_AuthType c, ss_Username c, ss_AuthCiphertext c, ss_AuthKeyVersion c) =
    (smtp_AuthType row, smtp_Username row, smtp_AuthCiphertext row, smtp_AuthKeyVersion row);
}.

Record webhook_copy (row : WebhookTarget) (c : SnapshotWebhookTarget) : Prop := MkWebhookCopy {
  webhook_copy_target : (sw_ID c, sw_Name c, sw_Enabled c, sw_URL c) = (wt_ID row, wt_Name row, wt_Enabled row, wt_Url row);
  webhook_copy_signing : (sw_SigningValueCiphertext c, sw_SignatureHeaderCiphertext c, sw_SigningKeyVersion c) =
    (wt_SigningValueCiphertext row, wt_SignatureHeaderCiphertext row, wt_SigningKeyVersion row);
}.

(** A snapshot that is as the tables are: the mail channel if there is one and every
    webhook once, all their fields included. *)
Definition copies (snapshot : ChannelSnapshot) (w : World) : Prop :=
  cs_FormatVersion snapshot = ChannelSnapshotFormatVersion /\
  option_Forall2 smtp_copy (w_smtp w) (cs_SMTP snapshot) /\
  exists rows, rows ≡ₚ (map_to_list (w_webhook w)).*2 /\ Forall2 webhook_copy rows (cs_Webhooks snapshot).

Lemma GetSMTPChannel_cases w :
  triple (fun w1 => w1 = w) (attempt GetSMTPChannel)
    (fun r w' => w' = w /\ match r with Ok c => w_smtp w = Some c | Err e => is_no_rows e = true -> w_smtp w = None end) (fun _ => False).
Proof.
  intros fs w1 ->. unfold attempt, GetSMTPChannel. set (effect := fun w => _).
  assert (forall w1 a w', effect w1 = Ok (a, w') -> w' = w1 /\ w_smtp w1 = Some a) as Heff.
  { unfold effect. intros w1 a w'. destruct (w_smtp w1); [|done]. by intros [= -> ->]. }
  pose proof (statement_cases effect fs w) as Hc. pose proof (statement_keeps (fun w => w) effect (fun w1 a w' H => proj1 (Heff w1 a w' H)) fs w) as Hk.
  unfold tables_after in Hk. destruct (statement effect fs w) as [[[c|e] w'] fs']; simpl in *; subst w'; (split; [done|]).
  - by apply (Heff w c w).
  - intros He. destruct (Hc He) as [E _]. unfold effect in E. by destruct (w_smtp w).
Qed.

Lemma loadChannelSnapshot_copies w :
  triple (fun w1 => w1 = w) loadChannelSnapshotFromDatabase (fun snapshot w' => w' = w /\ copies snapshot w) (fun w' => w' = w).
Proof.
  unfold loadChannelSnapshotFromDatabase.
  eapply triple_bind; [eapply triple_weaken; [apply (GetSMTPChannel_cases w)|done|intros r w' Hr; exact Hr|by intros w']|].
  intros r. apply (triple_bind _ _ _ (fun smtp w' => w' = w /\ option_Forall2 smtp_copy (w_smtp w) smtp)).
  { destruct r as [c|e]; [apply triple_ret; intros w' [-> ->]; split; [done|]; by repeat constructor|].
    destruct (is_no_rows e); [|by apply triple_fail; intros w' [-> _]]. apply triple_ret. intros w' [-> Hn]. rewrite Hn by done. by repeat constructor. }
  intros smtp. apply (triple_bind _ _ _ (fun webhooks w' => w' = w /\ option_Forall2 smtp_copy (w_smtp w) smtp /\
    webhooks ≡ₚ (map_to_list (w_webhook w)).*2)).
  { apply triple_wrap, triple_query; [by intros w' [-> _]|]. intros w' [-> Hs]. split_and!; [done..|]. apply sort_by_perm. }
  intros webhooks. apply triple_ret. intros w' (-> & Hs & Hw). split; [done|]. split; [done|]. split; [done|].
  exists webhooks. split; [done|]. apply Forall2_fmap_r, Forall_Forall2_diag, Forall_forall. intros row _. by split.
Qed.

(** What holds wherever the rotation stops: every credential is as readable as
    before, and the snapshot is the old one with all its keys, or a copy of the
    tables. *)
Definition outcome (w0 w : World) : Prop :=
  safe w0 w /\
  (w_snapshot w = w_snapshot w0 /\ keeps_keys w0 w \/ exists snapshot, w_snapshot w = Some snapshot /\ copies snapshot w).

Lemma base_outcome w0 w : base w0 w -> outcome w0 w.
Proof. intros (Hs & _ & Hk & Hsn). split; [done|]. by left. Qed.

(** After the snapshot was refreshed. *)
Definition synced (w0 : World) (version : Z) (w : World) : Prop :=
  safe w0 w /\ all_use version w /\ is_Some (key_of w version) /\
  exists snapshot, w_snapshot w = Some snapshot /\ copies snapshot w.

Lemma synced_outcome w0 version w : synced w0 version w -> outcome w0 w.
Proof. intros (Hs & _ & _ & Hsn). split; [done|]. by right. Qed.

Lemma SyncSnapshot_synced w0 keyring :
  triple (fun w => ready w0 keyring w /\ all_use (currentVersion keyring) w) (SyncSnapshot true)
    (fun _ => synced w0 (currentVersion keyring)) (outcome w0).
Proof.
  apply triple_at. intros w [(Hb & Hr & _) Hall]. pose proof (base_outcome _ _ Hb) as Ho. unfold SyncSnapshot.
  eapply triple_bind; [eapply triple_weaken; [apply (loadChannelSnapshot_copies w)|done|done|by intros w' ->]|].
  intros snapshot. apply triple_at. intros w' [-> Hcopies]. unfold WriteSnapshot. simpl negb. cbv iota.
  assert (synced w0 (currentVersion keyring) (set_snapshot (Some snapshot) w)) as Hsynced.
  { split_and!; [apply Hb|done|by exists (currentKey keyring)|]. exists snapshot. done. }
  do 5 (eapply triple_bind; [apply triple_wrap; eapply triple_weaken; [apply (triple_keeps (fun w' => w' = w) io_step)|done|done|by intros w' ->]|intros []]).
  apply (triple_bind _ _ _ (fun _ => synced w0 (currentVersion keyring))).
  { apply triple_wrap, triple_statement; [by intros w' ->|]. intros w1 [] w' -> [= <-]. split; [done|]. by eapply synced_outcome. }
  intros []. apply (triple_bind _ _ _ (fun _ => synced w0 (currentVersion keyring))); [|intros []];
    apply triple_wrap; (eapply triple_weaken; [apply (triple_keeps (synced w0 (currentVersion keyring)) io_step)|done|done|by intros w'; apply synced_outcome]).
Qed.

(** * Removing keys *)

Lemma append_inj (s t u : string) : s +:+ t = s +:+ u -> t = u.
Proof.
  induction s as [|c s IH]; [done|]. change (String c s +:+ ?x) with (String c (s +:+ x)). intros [= Hs]. by apply IH.
Qed.

Lemma credentialKeyFilename_inj v v' : credentialKeyFilename v = credentialKeyFilename v' -> v = v'.
Proof. intros Heq%append_inj. by apply Itoa_inj. Qed.

Lemma remove_key_synced w0 current version :
  triple (synced w0 current) (remove_key current version) (fun _ => synced w0 current) (synced w0 current).
Proof.
  unfold remove_key. destruct (Z.eqb_spec version current) as [->|Hne]; [by apply triple_ret|].
  apply (triple_bind _ _ _ (fun _ => synced w0 current)).
  { eapply (triple_attempt _ _ (fun _ => synced w0 current)); [|intros e w Hw; exact Hw].
    apply triple_statement; [done|]. intros w [] w' (Hs & Hall & [key Hkey] & Hsn) He.
    destruct (disk_Files (w_disk w) !! _); [|done]. injection He as <-.
    assert (synced w0 current (set_files (delete (credentialKeyFilename version)) w)) as Hsync; [|done].
    assert (key_of (set_files (delete (credentialKeyFilename version)) w) current = Some key) as Hkey'.
    { unfold key_of in *. simpl. rewrite lookup_delete_ne; [done|]. by intros Heq%credentialKeyFilename_inj. }
    split_and!; [|done|by eexists|done]. etrans; [exact Hs|]. apply safe_keys; [by intros []|].
    intros s envelope v key1 Hst Hk. rewrite (Hall s envelope v Hst) in *. congruence. }
  intros [[]|e]; [by apply triple_ret|]. case_bool_decide; [by apply triple_ret|by apply triple_fail].
Qed.

Lemma RemoveUnreferencedKeys_synced w0 keyring :
  triple (synced w0 (currentVersion keyring)) (RemoveUnreferencedKeys keyring)
    (fun _ => synced w0 (currentVersion keyring)) (synced w0 (currentVersion keyring)).
Proof.
  unfold RemoveUnreferencedKeys. eapply triple_bind; [apply triple_keeps, _|]. intros versions.
  eapply triple_bind.
  { apply triple_for_each. intros version _. apply triple_keeps. unfold verify_unreferenced, CountCredentialKeyReferences. apply _. }
  intros []. eapply triple_bind; [apply triple_for_each; intros version _; apply remove_key_synced|].
  intros []. apply triple_keeps. unfold syncCredentialDirectory. apply _.
Qed.

Lemma rotate_outcome w0 :
  keyed w0 ->
  triple (fun w => w = w0) rotateCredentialKeyring (fun r => synced w0 (KeyVersion r)) (outcome w0).
Proof.
  intros Hkeyed. unfold rotateCredentialKeyring.
  eapply triple_bind; [eapply triple_weaken; [apply (Prepare_ready w0)|intros w ->; by apply base_refl|done|apply base_outcome]|].
  intros [keyring need]. simpl.
  apply (triple_bind _ _ _ (fun _ w => ready w0 keyring w /\ all_use (currentVersion keyring) w)).
  { destruct need; [|by apply triple_ret; intros w [Hr Ha]; auto]. apply triple_wrap.
    eapply triple_weaken; [apply reencrypt_transaction|by intros w [Hr _]|done|]. intros w [Hb _]. by apply base_outcome. }
  intros n. eapply triple_bind; [apply triple_wrap, SyncSnapshot_synced|]. intros [].
  eapply triple_bind; [eapply triple_weaken; [apply RemoveUnreferencedKeys_synced|done|done|apply synced_outcome]|].
  intros []. by apply triple_ret.
Qed.

(** C3. Whatever fails and wherever a rotation stops, every stored credential that
    could be decrypted still decrypts to the same text; the snapshot of the channels is
    the old one, with all keys still there, or a copy of the tables, which has the mail
    channel and every webhook with all their fields; and a rotation that succeeds has
    moved every credential to the current key, which is on disk, and refreshed the
    snapshot. *)
Theorem rotation_loses_nothing (fs : list fate) (w0 : World) :
  keyed w0 ->
  let '(r, w, _) := rotateCredentialKeyring fs w0 in
  (forall s p, plaintext w0 s = Some p -> plaintext w s = Some p) /\
  (w_snapshot w = w_snapshot w0 /\ (forall version key, key_of w0 version = Some key -> key_of w version = Some key) \/
   exists snapshot, w_snapshot w = Some snapshot /\ copies snapshot w) /\
  (forall result, r = Ok result ->
     (forall s envelope version, stored w s = Some (envelope, version) -> version = KeyVersion result) /\
     is_Some (key_of w (KeyVersion result)) /\
     exists snapshot, w_snapshot w = Some snapshot /\ copies snapshot w).
Proof.
  intros Hkeyed. pose proof (rotate_outcome w0 Hkeyed fs w0 eq_refl) as Hr.
  destruct (rotateCredentialKeyring fs w0) as [[[result|e] w] fs']; simpl in Hr.
  - pose proof (synced_outcome _ _ _ Hr) as [Hs Hsn]. destruct Hr as (_ & Hall & Hkey & Hcopy).
    split_and!; [done..|]. by intros result' [= <-].
  - destruct Hr as [Hs Hsn]. by split_and!.
Qed.

(** What a key ring encrypts, under any faults, it decrypts again under the version
    it returned, in any world and without a call that could fail. *)
Theorem decrypt_encrypt_roundtrip (keyring : CredentialKeyring) (p aad description : string) (fs fs' fs2 : list fate)
    (w w' w2 : World) (envelope : string) (version : Z) :
  encrypt keyring p aad description fs w = (Ok (envelope, version), w', fs') ->
  version = currentVersion keyring /\ decrypt keyring envelope version aad fs2 w2 = (Ok p, w2, fs2).
Proof.
  intros He. pose proof (encrypt_seals keyring w p aad description fs w eq_refl) as Hs. rewrite He in Hs.
  destruct Hs as (_ & Hv & Ho). simpl in Hv, Ho. subst version. split; [done|].
  unfold encrypt, decrypt in *. destruct (keyring_fault keyring); [done|].
  rewrite bool_decide_false by (intros Hne; by apply Hne).
  unfold mbind, DB_bind, lift in *. simpl. destruct (credentialGCM (currentKey keyring)); [|done]. simpl. by rewrite Ho.
Qed.
End Proofs.

(** * Witnesses *)

Module CredentialsDemo.
(** A cipher that prefixes a checksum of the key, the nonce and the additional
    data. *)
Fixpoint checksum (s : string) (acc : Z) : Z :=
  match s with EmptyString => acc | String c rest => checksum rest ((acc * 31 + char_code c) mod 256) end.

Definition tag (key nonce aad : string) : Ascii.ascii := char_of (checksum aad (checksum nonce (checksum key 7))).

Fixpoint repeated (c : Ascii.ascii) (n : nat) : string :=
  match n with O => EmptyString | S n => String c (repeated c n) end.

Lemma repeated_length c n : String.length (repeated c n) = n.
Proof. induction n; simpl; congruence. Qed.

#[refine] Instance crypto : Crypto := {
  Seal key nonce plaintext aad := String (tag key nonce aad) plaintext;
  Open key nonce ciphertext aad :=
    match ciphertext with
    | EmptyString => None
    | String t c => if bool_decide (t = tag key nonce aad) then Some c else None
    end;
  Overhead := 1;
  random draw bytes := repeated (char_of (Z.of_nat draw mod 256)) bytes;
}.
Proof.
  - intros. by rewrite bool_decide_true.
  - intros. simpl. lia.
  - intros. apply repeated_length.
Defined.

(** An empty directory, and the world after the server has started and stored a
    password. *)
Definition empty : World := MkWorld ∅ None ∅ (MkDisk (Some (true, 448, 1000)) ∅ 1000) None 0.

Definition opened : result CredentialKeyring * World * list fate := OpenCredentialKeyring false [] empty.

Definition keyring : CredentialKeyring :=
  match opened.1.1 with Ok keyring => keyring | Err _ => MkKeyring 0 EmptyString None false end.

Definition encrypted : result (string * Z) * World * list fate := EncryptPassword keyring "i1" "secret" [] opened.1.2.

Definition envelope : string * Z := match encrypted.1.1 with Ok e => e | Err _ => (EmptyString, 0) end.

Definition start : World := set_instance {["i1" := envelope]} encrypted.1.2.

(** The same with a mail channel and a webhook. *)
Definition sealed (r : result (string * Z) * World * list fate) : string * Z := match r.1.1 with Ok e => e | Err _ => (EmptyString, 0) end.
Definition mail : string * Z := sealed (EncryptSMTPPassword keyring "mail password" [] start).
Definition signing : string * Z := sealed (EncryptWebhookSigningValue keyring "h1" "signature" [] start).
Definition header : string * Z := sealed (EncryptWebhookSignatureHeader keyring "h1" "X-Signature" [] start).
Definition channels : World :=
  set_smtp (Some (MkSmtpChannel true "mail.example" 587 "monitor@example" "ops@example" "PLAIN" (Some "monitor") (Some mail.1) (Some mail.2) "STARTTLS"))
    (set_webhook {["h1" := MkWebhookTarget "h1" "chat" true "https://chat.example" signing.1 header.1 signing.2]} start).

Definition rotated : result credentialRotationResult * World * list fate := rotateCredentialKeyring [] channels.
End CredentialsDemo.

(** A rotation of three credentials in four slots: all readable as before, under the new
    key, and with a snapshot that has both channels. *)
Lemma rotation_loses_nothing_witness :
  (forall s p, plaintext (H := CredentialsDemo.crypto) CredentialsDemo.channels s = Some p ->
     plaintext (H := CredentialsDemo.crypto) CredentialsDemo.rotated.1.2 s = Some p) /\
  plaintext (H := CredentialsDemo.crypto) CredentialsDemo.channels (SlotInstance "i1") = Some "secret" /\
  plaintext (H := CredentialsDemo.crypto) CredentialsDemo.channels SlotSMTP = Some "mail password" /\
  plaintext (H := CredentialsDemo.crypto) CredentialsDemo.channels (SlotSignatureHeader "h1") = Some "X-Signature" /\
  CredentialsDemo.rotated.1.1 = Ok (MkRotationResult 2 3) /\
  snd <$> stored CredentialsDemo.rotated.1.2 SlotSMTP = Some 2 /\
  exists snapshot, w_snapshot CredentialsDemo.rotated.1.2 = Some snapshot /\ copies snapshot CredentialsDemo.rotated.1.2 /\ length (cs_Webhooks snapshot) = 1%nat.
Proof.
  pose proof (rotation_loses_nothing (H := CredentialsDemo.crypto) [] CredentialsDemo.channels) as Hrot.
  change (rotateCredentialKeyring [] CredentialsDemo.channels) with CredentialsDemo.rotated in Hrot.
  assert (CredentialsDemo.rotated.1.1 = Ok (MkRotationResult 2 3)) as Hr by (vm_compute; reflexivity).
  assert (size (w_webhook CredentialsDemo.rotated.1.2) = 1%nat) as Hsize by (vm_compute; reflexivity).
  assert (snd <$> stored CredentialsDemo.rotated.1.2 SlotSMTP = Some 2) as Hsmtp by (vm_compute; reflexivity).
  assert (keyed CredentialsDemo.channels) as Hkeyed.
  { intros id t. change (w_webhook CredentialsDemo.channels) with ({["h1" := MkWebhookTarget "h1" "chat" true "https://chat.example"
      CredentialsDemo.signing.1 CredentialsDemo.header.1 CredentialsDemo.signing.2]} : gmap string WebhookTarget).
    intros [<- <-]%lookup_singleton_Some. reflexivity. }
  specialize (Hrot Hkeyed). destruct CredentialsDemo.rotated as [[r w] fs]. simpl in Hr, Hsize, Hsmtp. destruct Hrot as (Hs & _ & Hok).
  split; [exact Hs|]. do 3 (split; [vm_compute; reflexivity|]). split; [exact Hr|]. split; [exact Hsmtp|].
  destruct (Hok _ Hr) as (_ & _ & snapshot & Hsn & Hc). exists snapshot. split; [exact Hsn|]. split; [exact Hc|].
  destruct Hc as (_ & _ & rows & Hp & Hf). rewrite <-(Forall2_length _ _ _ Hf), Hp, length_fmap, length_map_to_list. exact Hsize.
Defined.

Lemma decrypt_encrypt_roundtrip_witness :
  decrypt (H := CredentialsDemo.crypto) CredentialsDemo.keyring CredentialsDemo.envelope.1 1 (credentialAAD "i1") [] CredentialsDemo.empty
  = (Ok "secret", CredentialsDemo.empty, []).
Proof.
  apply (decrypt_encrypt_roundtrip (H := CredentialsDemo.crypto) CredentialsDemo.keyring "secret" (credentialAAD "i1")
    "instance credential" [] [] [] CredentialsDemo.opened.1.2 CredentialsDemo.encrypted.1.2).
  vm_compute. reflexivity.
Defined.
