(* ===== verification/CollectService.v ===== *)
(** The collection service ([internal/collect/service.go]): connections to monitored
    servers, the execution of one task and of one pass over all instances, and the
    health the service and its scheduler publish ([internal/collect/scheduler.go]). *)

From stdpp Require Import vector.
From S2P Require Import Prelude Float64 Db Text Partitions Dictionary Catalog MetricMath Capability ControlPlane Samples.
From S2P Require Import CollectState Scheduler PlatformHealth Credentials.

(** * Connections *)

Definition uint16 (z : Z) : Z := z mod 2 ^ 16.

(** The fields of [pgx.ConnConfig] the service sets. *)
Record ConnConfig : Type := MkConnConfig {
  cc_Host : string;
  cc_Port : Z;
  cc_Database : string;
  cc_User : string;
  cc_Password : string;
  cc_ApplicationName : string;
}.

Definition targetConnectionConfig (target : ListCollectionTargetsRow) (password : string) : ConnConfig :=
  MkConnConfig (target_Host target) (uint16 (target_Port target)) (default EmptyString (target_DatabaseName target))
    (target_Username target) password "dbs-monitor".

(** [cachedConnection]; a connection is its number, in the order of dialling. *)
Record cachedConnection : Type := MkCached {
  cached_credentialVersion : Z;
  cached_conn : nat;
}.

Record projectedCapabilitySnapshot : Type := MkProjected {
  projected_states : CapabilityStates;
  projected_observedAt : Time;
  projected_exists : bool;
}.

(** A network error, [io.EOF] or [io.ErrUnexpectedEOF] (both [ErrEOF]) in the chain. *)
Fixpoint broken_pipe (e : error) : bool :=
  match e with ErrNet | ErrEOF => true | Errorf _ inner => broken_pipe inner | _ => false end.

Definition isConnectionFailure (e : error) : bool :=
  match pg_error e with
  | Some code =>
      HasPrefix code "08" || bool_decide (code = "57P01") || bool_decide (code = "57P02") || bool_decide (code = "57P03")
  | None => broken_pipe e
  end.

Definition taskTimeout (interval : Duration) : Duration :=
  let timeout := Z.quot (int64 (interval * 4)) 5 in
  if 10 * Second <? timeout then 10 * Second else timeout.

Definition capabilitySnapshotTimeout : Duration := 10 * Second.

Definition statActivityMetricIDs : list MetricID := [
  MetricConnectionTotal; MetricConnectionActive; MetricConnectionIdleInTransaction; MetricLongTransactionCount;
  MetricMaxTransactionDurationSec; MetricLockWaitingCount; MetricBlockedSessionCount; MetricLongRunningQueryCount;
  MetricConnectionSaturationPercent].

(** * The outside *)

(** The row of the session query: the nine numbers, then the two snapshots, whose
    JSON is given as what it decodes to. *)
Record StatActivityRow : Type := MkStatActivityRow {
  sar_values : vec float64 9;
  sar_sessionsJSON : result (list statActivitySession);
  sar_sessionCount : Z;
  sar_sessionsTruncated : bool;
  sar_longQuerySamplesJSON : result (list statActivitySession);
  sar_longQuerySampleCount : Z;
  sar_longQuerySamplesTruncated : bool;
}.

(** What the service does not control. Every interaction has a number, and an answer
    may depend on it, on the connection and on the text sent: the clocks, the
    answers of the monitored servers, whether a connection was closed by its peer,
    whether the deadline of the running task has passed, and what other writers of
    the platform database did meanwhile. *)
Record Outside : Type := MkOutside {
  out_clock : nat -> Time;
  out_wall : nat -> Time;
  out_Dial : nat -> ConnConfig -> option error;
  out_IsClosed : nat -> nat -> bool;
  out_Expired : nat -> bool;
  out_Scan : nat -> nat -> string -> list string -> option error;
  out_Probe : nat -> nat -> string -> result bool;
  out_Activity : nat -> nat -> string -> result StatActivityRow;
  out_Database : nat -> nat -> string -> result (list (string * statDatabaseCounters));
  out_Rows : nat -> nat -> string -> result (list (gmap string cell));
  out_Statistics : nat -> nat -> string -> result (list queryStatisticsEntry);
  out_DiskUsage : nat -> string -> result float64;
  out_DatabaseSize : nat -> Z;
  out_others : nat -> Tables -> Tables;
}.

(** * The service *)

(** The settings of the health monitors. *)
Record Monitors : Type := MkMonitors {
  diskPath : string;
  diskThresholds : DiskThresholds;
  capacityMonitorConfigured : bool;
  capacityBudgetBytes : option Z;
  capacityThresholds : DiskThresholds;
}.

(** The platform database, the directory of the keys (the rest of
    [Credentials.World] is not read here), the memory of the process, and every
    connection dialled so far with the instance and credential version it was
    dialled for; [s_closed] are those that [closeConnection] closed. *)
Record Service : Type := MkService {
  s_tables : Tables;
  s_secrets : World;
  s_health : option Store;
  s_published : list (list sourceChange * list FailureFact);
  s_monitors : Monitors;
  s_step : nat;
  s_queryConnections : gmap string cachedConnection;
  s_queryConnectionUseLocks : gset string;
  s_queryConnectionRebuilds : Z;
  s_statDatabaseRates : statDatabaseRateState;
  s_dialled : list (string * Z * ConnConfig);
  s_closed : gset nat;
}.

Definition with_tables (v : Tables) (s : Service) : Service :=
  MkService v (s_secrets s) (s_health s) (s_published s) (s_monitors s) (s_step s) (s_queryConnections s) (s_queryConnectionUseLocks s) (s_queryConnectionRebuilds s) (s_statDatabaseRates s) (s_dialled s) (s_closed s).
Definition with_secrets (v : World) (s : Service) : Service :=
  MkService (s_tables s) v (s_health s) (s_published s) (s_monitors s) (s_step s) (s_queryConnections s) (s_queryConnectionUseLocks s) (s_queryConnectionRebuilds s) (s_statDatabaseRates s) (s_dialled s) (s_closed s).
Definition with_health (v : option Store) (s : Service) : Service :=
  MkService (s_tables s) (s_secrets s) v (s_published s) (s_monitors s) (s_step s) (s_queryConnections s) (s_queryConnectionUseLocks s) (s_queryConnectionRebuilds s) (s_statDatabaseRates s) (s_dialled s) (s_closed s).
Definition with_published (v : list (list sourceChange * list FailureFact)) (s : Service) : Service :=
  MkService (s_tables s) (s_secrets s) (s_health s) v (s_monitors s) (s_step s) (s_queryConnections s) (s_queryConnectionUseLocks s) (s_queryConnectionRebuilds s) (s_statDatabaseRates s) (s_dialled s) (s_closed s).
Definition with_monitors (v : Monitors) (s : Service) : Service :=
  MkService (s_tables s) (s_secrets s) (s_health s) (s_published s) v (s_step s) (s_queryConnections s) (s_queryConnectionUseLocks s) (s_queryConnectionRebuilds s) (s_statDatabaseRates s) (s_dialled s) (s_closed s).
Definition with_step (v : nat) (s : Service) : Service :=
  MkService (s_tables s) (s_secrets s) (s_health s) (s_published s) (s_monitors s) v (s_queryConnections s) (s_queryConnectionUseLocks s) (s_queryConnectionRebuilds s) (s_statDatabaseRates s) (s_dialled s) (s_closed s).
Definition with_queryConnections (v : gmap string cachedConnection) (s : Service) : Service :=
  MkService (s_tables s) (s_secrets s) (s_health s) (s_published s) (s_monitors s) (s_step s) v (s_queryConnectionUseLocks s) (s_queryConnectionRebuilds s) (s_statDatabaseRates s) (s_dialled s) (s_closed s).
Definition with_queryConnectionUseLocks (v : gset string) (s : Service) : Service :=
  MkService (s_tables s) (s_secrets s) (s_health s) (s_published s) (s_monitors s) (s_step s) (s_queryConnections s) v (s_queryConnectionRebuilds s) (s_statDatabaseRates s) (s_dialled s) (s_closed s).
Definition with_queryConnectionRebuilds (v : Z) (s : Service) : Service :=
  MkService (s_tables s) (s_secrets s) (s_health s) (s_published s) (s_monitors s) (s_step s) (s_queryConnections s) (s_queryConnectionUseLocks s) v (s_statDatabaseRates s) (s_dialled s) (s_closed s).
Definition with_statDatabaseRates (v : statDatabaseRateState) (s : Service) : Service :=
  MkService (s_tables s) (s_secrets s) (s_health s) (s_published s) (s_monitors s) (s_step s) (s_queryConnections s) (s_queryConnectionUseLocks s) (s_queryConnectionRebuilds s) v (s_dialled s) (s_closed s).
Definition with_dialled (v : list (string * Z * ConnConfig)) (s : Service) : Service :=
  MkService (s_tables s) (s_secrets s) (s_health s) (s_published s) (s_monitors s) (s_step s) (s_queryConnections s) (s_queryConnectionUseLocks s) (s_queryConnectionRebuilds s) (s_statDatabaseRates s) v (s_closed s).
Definition with_closed (v : gset nat) (s : Service) : Service :=
  MkService (s_tables s) (s_secrets s) (s_health s) (s_published s) (s_monitors s) (s_step s) (s_queryConnections s) (s_queryConnectionUseLocks s) (s_queryConnectionRebuilds s) (s_statDatabaseRates s) (s_dialled s) v.

(** [NewWithConfig] on a platform database and a key directory, then
    [SetPlatformHealth]; the concurrency limits are the scheduler's. *)
Definition NewWithConfig (config : Config) (tables : Tables) (secrets : World) (health : option Store) : result Service :=
  match Validate config with
  | Err e => Err e
  | Ok _ =>
      Ok (MkService tables secrets health [] (MkMonitors EmptyString DefaultDiskThresholds false None DefaultDiskThresholds)
            0 ∅ ∅ 0 newStatDatabaseRateState [] ∅)
  end.

Section Operations.
Context `{Crypto}.
Context (out : Outside) (keyring : CredentialKeyring) (partitionSpan : Duration).

(** One interaction with the outside: its number. *)
Definition outside : DB Service nat := fun fs s =>
  (Ok (s_step s), with_step (S (s_step s)) (with_tables (out_others out (s_step s) (s_tables s)) s), fs).

(** Reading and changing the memory of the process. *)
Definition gets {A} (f : Service -> A) : DB Service A := fun fs s => (Ok (f s), s, fs).
Definition modify (f : Service -> Service) : DB Service unit := fun fs s => (Ok tt, f s, fs).
Definition answer {A} (r : result A) : DB Service A := match r with Ok a => mret a | Err e => fail e end.
Definition answer_error (e : option error) : DB Service unit := match e with None => mret tt | Some e => fail e end.

Definition Now : DB Service Time := n ← outside; mret (out_clock out n).
Definition wall : DB Service Time := n ← outside; mret (out_wall out n).
Definition Since (started : Time) : DB Service Duration := now ← wall; mret (TimeSub now started).

(** [errors.Is(taskCtx.Err(), context.DeadlineExceeded)] *)
Definition deadlineExceeded : DB Service bool := n ← outside; mret (out_Expired out n).

Definition on_tables {A} (m : DB Tables A) : DB Service A := focus s_tables with_tables m.
Definition on_secrets {A} (m : DB World A) : DB Service A := focus s_secrets with_secrets m.

(** [service.health.Update] when there is a health store. *)
Definition publish (now : Time) (fact : SourceSnapshot) : DB Service unit :=
  modify (fun s => match s_health s with
    | None => s
    | Some store =>
        let '(store, changes, failures) := Update now fact store in
        with_published (s_published s ++ [(changes, failures)]) (with_health (Some store) s)
    end).

Definition publishPartitionWriteFailure (observedAt : Time) : DB Service unit :=
  publish observedAt (PartitionSource (MkPartitionFacts 1 0 true)).

(** ** Credentials and connections *)

(** Bytes as text. *)
Definition text_of (bytes : list Z) : string := foldr (fun b s => String (char_of b) s) EmptyString bytes.

Definition connectionConfig (target : ListCollectionTargetsRow) : DB Service ConnConfig :=
  password ← attempt (on_secrets (DecryptPassword keyring (target_ID target)
                        (text_of (target_PasswordCiphertext target)) (target_PasswordKeyVersion target)));
  match password with
  | Ok password => mret (targetConnectionConfig target password)
  | Err e =>
      health ← gets s_health;
      _ ← match health, fault_code e with
          | Some _, Some code => now ← Now; publish now (CredentialSource (MkCredentialFacts true code))
          | _, _ => mret tt
          end;
      fail e
  end.

(** [dialer.Dial] for an instance. *)
Definition Dial (target : ListCollectionTargetsRow) (config : ConnConfig) : DB Service nat :=
  n ← outside;
  _ ← answer_error (out_Dial out n config);
  conn ← gets (fun s => length (s_dialled s));
  _ ← modify (fun s => with_dialled (s_dialled s ++ [(target_ID target, target_CredentialVersion target, config)]) s);
  mret conn.

Definition closeConnection (conn : nat) : DB Service unit :=
  modify (fun s => with_closed ({[conn]} ∪ s_closed s) s).

(** [conn.IsClosed()] *)
Definition IsClosed (conn : nat) : DB Service bool :=
  n ← outside; gets (fun s => bool_decide (conn ∈ s_closed s) || out_IsClosed out n conn).

(** Takes a connection out of the cache and closes it. *)
Definition drop_connection (key : string) (conn : nat) : DB Service unit :=
  _ ← modify (fun s => with_queryConnectionRebuilds (incr (s_queryConnectionRebuilds s))
                         (with_queryConnections (delete key (s_queryConnections s)) s));
  closeConnection conn.

Definition dial_query (target : ListCollectionTargetsRow) : DB Service nat :=
  config ← wrap "read instance credential" (connectionConfig target);
  conn ← Dial target config;
  _ ← modify (fun s => with_queryConnections
        (<[target_ID target := MkCached (target_CredentialVersion target) conn]> (s_queryConnections s)) s);
  mret conn.

Definition queryConnection (target : ListCollectionTargetsRow) : DB Service nat :=
  cached ← gets (fun s => s_queryConnections s !! target_ID target);
  match cached with
  | None => dial_query target
  | Some cached =>
      closed ← (if cached_credentialVersion cached =? target_CredentialVersion target
                then IsClosed (cached_conn cached) else mret true);
      if negb (closed : bool) then mret (cached_conn cached)
      else _ ← drop_connection (target_ID target) (cached_conn cached); dial_query target
  end.

(** [acquireQueryConnection]: the mutex of the instance is held from here to the
    deferred release, so uses of one instance's connection do not overlap. *)
Definition acquireQueryConnection (target : ListCollectionTargetsRow) : DB Service nat :=
  _ ← modify (fun s => with_queryConnectionUseLocks ({[target_ID target]} ∪ s_queryConnectionUseLocks s) s);
  queryConnection target.

Definition invalidateQueryConnection (targetID : string) : DB Service unit :=
  cached ← gets (fun s => s_queryConnections s !! targetID);
  match cached with
  | None => mret tt
  | Some cached => drop_connection targetID (cached_conn cached)
  end.

(** [WithTriggerSnapshotConnection], for the part of an evaluation target that says
    how to connect. *)
Definition WithTriggerSnapshotConnection {A} (target : ListCollectionTargetsRow) (use : nat -> DB Service A) : DB Service A :=
  conn ← acquireQueryConnection target;
  used ← attempt (use conn);
  match used with
  | Ok a => mret a
  | Err e =>
      expired ← (if isConnectionFailure e then mret true else deadlineExceeded);
      _ ← (if (expired : bool) then invalidateQueryConnection (target_ID target) else mret tt);
      fail e
  end.

Definition queryConnectionSummary (active : Z) : DB Service (Z * Z) :=
  s ← gets id;
  _ ← modify (with_queryConnectionRebuilds 0);
  mret (Z.max 0 (Z.of_nat (size (s_queryConnections s)) - active), s_queryConnectionRebuilds s).

Definition closeQueryConnections : DB Service unit :=
  connections ← gets (fun s => (map_to_list (s_queryConnections s)).*2);
  _ ← modify (with_queryConnections ∅);
  for_each (fun cached => closeConnection (cached_conn cached)) connections.

Definition Close : DB Service unit := closeQueryConnections.

(** ** Queries on a monitored server *)

(** [conn.QueryRow(...).Scan(...)] of a value that is not used. *)
Definition Scan (conn : nat) (sql : string) (args : list string) : DB Service unit :=
  n ← outside; answer_error (out_Scan out n conn sql args).

(** A query whose answer is [f] of the outside. *)
Definition Query {A} (f : nat -> nat -> string -> result A) (conn : nat) (sql : string) : DB Service A :=
  n ← outside; answer (f n conn sql).

Definition stat_activity_batch (row : StatActivityRow) : result collectedBatch :=
  match decodeStatActivitySnapshot (sar_sessionsJSON row) (sar_sessionCount row) (sar_sessionsTruncated row)
          (sar_longQuerySamplesJSON row) (sar_longQuerySampleCount row) (sar_longQuerySamplesTruncated row) with
  | Err e => Err e
  | Ok snapshot =>
      Ok (MkCollectedBatch
            (zip_with (fun metricID value => MkCollectedSample metricID value EmptyString ∅)
               statActivityMetricIDs (vec_to_list (sar_values row)))
            (Some snapshot) None false)
  end.

Definition declaredTasks : list TaskID :=
  [TaskReplication; TaskReplicationSlot; TaskPreparedXacts; TaskRole; TaskSettings; TaskDatabaseSize].

Definition collectQueryTask (conn : nat) (run : scheduledRun) : DB Service collectedBatch :=
  let task := run_task run in
  if bool_decide (task_ID task = TaskStatActivity) then
    row ← Query (out_Activity out) conn (task_SQL task);
    answer (stat_activity_batch row)
  else if bool_decide (task_ID task = TaskStatDatabase) then
    observedAt ← Now;
    rows ← Query (out_Database out) conn (task_SQL task);
    let databases := foldl (fun m row => <[row.1 := row.2]> m) ∅ rows in
    rates ← gets s_statDatabaseRates;
    let '(rates, batch) := observe rates (key_instanceID (run_key run)) (MkStatDatabaseSnapshot observedAt databases) in
    _ ← modify (with_statDatabaseRates rates);
    mret batch
  else if bool_decide (task_ID task ∈ declaredTasks) then
    n ← outside; answer (collectDeclaredTask task (out_Rows out n conn (task_SQL task)))
  else if bool_decide (task_ID task = TaskQueryStatistics) then
    n ← outside;
    entries ← answer (collectQueryStatistics (out_Statistics out n conn (task_SQL task)));
    mret (MkCollectedBatch [] None (Some entries) false)
  else fail (ErrNew "unsupported collection task").

(** ** Reads of the platform database *)

Definition isCollectionPaused (instanceID : string) : DB Service bool :=
  on_tables (statement (fun t => match t_paused t !! instanceID with
                                 | None => Err ErrNoRows | Some paused => Ok (paused, t) end)).

Definition loadCapabilitySnapshot (instanceID : string) (now : Time) : DB Service projectedCapabilitySnapshot :=
  row ← on_tables (query (fun t => t_capability t !! instanceID));
  mret (match row with
        | None => MkProjected UnknownCapabilityStates ZeroTime false
        | Some (observedAt, states) => MkProjected (ProjectCapabilitySnapshot states observedAt now) observedAt true
        end).

Definition taskCapabilityBlockReason (run : scheduledRun) : DB Service (option CapabilityBlockReason) :=
  now ← Now;
  snapshot ← loadCapabilitySnapshot (target_ID (run_target run)) now;
  mret (TaskCapabilityBlockReason (run_task run) (projected_states snapshot)).

(** ** Writes with partition repair *)

Definition repaired (observedAt : Time) (write : DB Tables (result unit * bool)) : DB Service unit :=
  written ← on_tables write;
  _ ← (if (written.2 : bool) then publishPartitionWriteFailure observedAt else mret tt);
  answer written.1.

(** The transaction and its repair are [CollectState.recordSuccess]; a second write that
    fails, or a repair that fails, is published. *)
Definition record_success (run : scheduledRun) (batch : collectedBatch) : DB Service unit :=
  finished ← Now; repaired finished (recordSuccess partitionSpan finished run batch).

Definition record_failure (run : scheduledRun) (result : taskResult) (code : string) (connectionFailure : bool) : DB Service unit :=
  finished ← Now; repaired finished (recordFailure partitionSpan finished run result code connectionFailure).

Definition finishFailure (run : scheduledRun) (connectionFailure : bool) : DB Service (taskResult * result unit) :=
  expired ← deadlineExceeded;
  let result := if (expired : bool) then resultTimedOut else resultFailed in
  let code := if expired then errorCodeTimeout
              else if connectionFailure then errorCodeConnectionFailed else errorCodeQueryFailed in
  err ← attempt (record_failure run result code connectionFailure);
  mret (result, err).

(** ** Executing a task *)

Definition error_of (r : result unit) : option error := match r with Ok _ => None | Err e => Some e end.

(** The connection with its statement timeout set: the outcome, and whether the
    connection itself could not be had. *)
Definition configured_connection (target : ListCollectionTargetsRow) (sql : string) (args : list string)
    : DB Service (bool * result nat) :=
  acquired ← attempt (acquireQueryConnection target);
  match acquired with
  | Err e => mret (true, Err e)
  | Ok conn =>
      configured ← attempt (Scan conn sql args);
      mret (false, match configured with Ok _ => Ok conn | Err e => Err e end)
  end.

Definition executeCapabilitySnapshot (run : scheduledRun) : DB Service executionOutcome :=
  let id := target_ID (run_target run) in
  startedWall ← wall;
  acquired ← configured_connection (run_target run) "SELECT set_config('statement_timeout', '10s', false)" [];
  observedAt ← Now;
  match acquired.2 with
  | Err e =>
      expired ← (if isConnectionFailure e then mret true else deadlineExceeded);
      _ ← (if (expired : bool) then invalidateQueryConnection id else mret tt);
      stored ← attempt (on_tables (storeCapabilitySnapshotIfCollectionActive id observedAt UnknownCapabilityStates));
      duration ← Since startedWall;
      mret (match stored with
            | Ok stored => MkOutcome run (if (stored : bool) then resultFailed else resultSuccess) duration None
            | Err e => MkOutcome run resultFailed duration (Some e)
            end)
  | Ok conn =>
      n ← outside;
      let '(states, complete) := ProbeSnapshot (out_Probe out n conn) in
      stored ← attempt (on_tables (storeCapabilitySnapshotIfCollectionActive id observedAt states));
      duration ← Since startedWall;
      mret (match stored with
            | Err e => MkOutcome run resultFailed duration (Some e)
            | Ok stored => MkOutcome run (if complete || negb stored then resultSuccess else resultFailed) duration None
            end)
  end.

(** [run.startedAt = now] *)
Definition started_run (run : scheduledRun) (now : Time) : scheduledRun :=
  MkScheduledRun (run_key run) (run_dueAt run) now (run_target run) (run_task run) (run_interval run).

(** [float64(d.Microseconds()) / 1000] *)
Definition latency_ms (d : Duration) : float64 := f64_div (f64_of_Z (Z.quot d Microsecond)) (f64_of_Z 1000).

Definition probe_batch (latency : float64) : collectedBatch :=
  samplesBatch [
    MkCollectedSample MetricAvailabilityReachable (reachability "reachable") EmptyString ∅;
    MkCollectedSample MetricProbeLatencyMS latency EmptyString ∅].

(** Dials, asks one question and closes the connection. *)
Definition probe_once (run : scheduledRun) (config : ConnConfig) : DB Service unit :=
  conn ← Dial (run_target run) config;
  err ← attempt (Scan conn (task_SQL (run_task run)) []);
  _ ← closeConnection conn;
  answer err.

(** The probe branch of [executeTask]. *)
Definition execute_probe (run : scheduledRun) (startedWall : Time) : DB Service executionOutcome :=
  config ← attempt (connectionConfig (run_target run));
  match config with
  | Err e => mret (MkOutcome run resultFailed 0 (Some (Errorf "read instance credential" e)))
  | Ok config =>
      probed ← attempt (probe_once run config);
      match probed with
      | Err _ =>
          '(result, err) ← finishFailure run true;
          duration ← Since startedWall;
          mret (MkOutcome run result duration (error_of err))
      | Ok _ =>
          elapsed ← Since startedWall;
          err ← attempt (record_success run (probe_batch (latency_ms elapsed)));
          duration ← Since startedWall;
          mret (MkOutcome run resultSuccess duration (error_of err))
      end
  end.

(** What a query task brought back, and whether its connection could not be had. *)
Definition query_batch (run : scheduledRun) : DB Service (bool * result collectedBatch) :=
  '(dialFailure, conn) ← configured_connection (run_target run) "SELECT set_config('statement_timeout', $1, false)"
                           [Itoa (Z.quot (taskTimeout (run_interval run)) Millisecond) +:+ "ms"];
  match conn with
  | Err e => mret (dialFailure, Err e)
  | Ok conn => batch ← attempt (collectQueryTask conn run); mret (false, batch)
  end.

(** The query branch of [executeTask]. *)
Definition execute_query (run : scheduledRun) (startedWall : Time) : DB Service executionOutcome :=
  '(dialFailure, batch) ← query_batch run;
  match batch with
  | Err e =>
      let connectionFailure := dialFailure || isConnectionFailure e in
      drop ← (if (connectionFailure : bool) then mret true else deadlineExceeded);
      _ ← (if (drop : bool) then invalidateQueryConnection (target_ID (run_target run)) else mret tt);
      '(result, err) ← finishFailure run connectionFailure;
      duration ← Since startedWall;
      mret (MkOutcome run result duration (error_of err))
  | Ok batch =>
      err ← attempt (record_success run batch);
      duration ← Since startedWall;
      mret (MkOutcome run resultSuccess duration (error_of err))
  end.

(** What happens before a task may start: the outcome when it may not. *)
Definition gate (run : scheduledRun) (startedWall : Time) : DB Service (option executionOutcome) :=
  rejected ← gets (fun s => match s_health s with None => false | Some store => RejectSampleWrites store end);
  if (rejected : bool) then
    finished ← Now;
    err ← attempt (on_tables (recordPlatformDatabaseCapacityEmergency finished run));
    duration ← Since startedWall;
    mret (Some (MkOutcome run resultFailed duration (error_of err)))
  else
    blocked ← (if isProbe (run_task run) then mret (Ok None) else attempt (taskCapabilityBlockReason run));
    match blocked with
    | Err e => mret (Some (MkOutcome run resultFailed 0 (Some e)))
    | Ok (Some reason) =>
        finished ← Now;
        if bool_decide (reason = CapabilityBlockNotApplicableRole) then
          err ← attempt (on_tables (recordCapabilityNotApplicable finished run reason));
          mret (Some (MkOutcome run resultSuccess 0 (error_of err)))
        else
          err ← attempt (on_tables (recordCapabilityBlocked finished run reason));
          mret (Some (MkOutcome run resultFailed 0 (error_of err)))
    | Ok None =>
        recorded ← attempt (on_tables (recordStarted run));
        mret (match recorded with
              | Err e => Some (MkOutcome run resultFailed 0 (Some e))
              | Ok false => Some (MkOutcome run resultSuccess 0 None)
              | Ok true => None
              end)
    end.

Definition executeTask (run : scheduledRun) : DB Service executionOutcome :=
  paused ← attempt (isCollectionPaused (target_ID (run_target run)));
  match paused with
  | Err e => mret (MkOutcome run resultFailed 0 (Some e))
  | Ok true => mret (MkOutcome run resultSuccess 0 None)
  | Ok false =>
      if isCapabilitySnapshotTask (run_task run) then executeCapabilitySnapshot run
      else
        now ← Now;
        startedWall ← wall;
        let run := started_run run now in
        stopped ← gate run startedWall;
        match stopped with
        | Some outcome => mret outcome
        | None => if isProbe (run_task run) then execute_probe run startedWall else execute_query run startedWall
        end
  end.

(** ** One pass *)

Definition refreshCapabilitySnapshot (target : ListCollectionTargetsRow) (now : Time) : DB Service unit :=
  snapshot ← loadCapabilitySnapshot (target_ID target) now;
  if projected_exists snapshot && (TimeSub now (projected_observedAt snapshot) <=? CapabilitySnapshotTTL) then mret tt
  else
    outcome ← executeCapabilitySnapshot (newScheduledRun target capabilitySnapshotTask 0 now);
    answer_error (outcome_err outcome).

Definition run_task_once (target : ListCollectionTargetsRow) (intervals : gmap TaskID Duration) (now : Time) (task : Task)
    : DB Service unit :=
  let run := newScheduledRun target task (default 0 (intervals !! task_ID task)) now in
  eligible ← on_tables (nextEligible run);
  if negb (IsZero eligible) && Before now eligible then
    at_ ← Now; on_tables (recordUnmet at_ run resultBackoff eligible)
  else
    outcome ← executeTask run;
    answer_error (outcome_err outcome).

Definition run_target_once (now : Time) (target : ListCollectionTargetsRow) : DB Service unit :=
  _ ← refreshCapabilitySnapshot target now;
  _ ← on_tables (ensureTaskStates (target_ID target));
  intervals ← on_tables (taskIntervals (target_ID target));
  for_each (run_task_once target intervals now) scheduledTasks.

Definition RunOnce : DB Service unit :=
  targets ← wrap "list collection targets" (on_tables ListCollectionTargets);
  now ← Now;
  for_each (run_target_once now) targets.

(** ** Monitors *)

Definition SetDiskMonitor (path : string) (thresholds : DiskThresholds) : DB Service unit :=
  if bool_decide (path = EmptyString) then fail (ErrNew "disk monitor path is required")
  else
    _ ← answer (ValidateThresholds thresholds);
    modify (fun s => with_monitors (MkMonitors path thresholds (capacityMonitorConfigured (s_monitors s))
      (capacityBudgetBytes (s_monitors s)) (capacityThresholds (s_monitors s))) s).

Definition SetPlatformDatabaseCapacityMonitor (budgetBytes : option Z) (thresholds : DiskThresholds) : DB Service unit :=
  _ ← answer (ValidateThresholds thresholds);
  if match budgetBytes with Some budget => budget <=? 0 | None => false end then
    fail (ErrNew "platform database capacity budget must be positive")
  else modify (fun s => with_monitors (MkMonitors (diskPath (s_monitors s)) (diskThresholds (s_monitors s)) true
         budgetBytes thresholds) s).

(** ** Health published by the scheduler *)

(** [localArtifactRetentionObserver], the callback of the disk monitor. *)
Context (observer : option (Time -> DB Service unit)).

Definition refreshDiskHealth (now : Time) : DB Service unit :=
  s ← gets id;
  match s_health s with
  | None => mret tt
  | Some store =>
      if bool_decide (diskPath (s_monitors s) = EmptyString) then mret tt
      else
        n ← outside;
        match out_DiskUsage out n (diskPath (s_monitors s)) with
        | Err _ => publish now (DiskUnavailableSource (StoreDiskLevel store))
        | Ok used =>
            _ ← publish now (DiskSource used (StoreDiskLevel store) (diskThresholds (s_monitors s)));
            match observer with
            | Some observe => _ ← attempt (observe now); mret tt
            | None => mret tt
            end
        end
  end.

Definition refreshPlatformDatabaseCapacityHealth (now : Time) : DB Service unit :=
  s ← gets id;
  match s_health s with
  | None => mret tt
  | Some store =>
      if negb (capacityMonitorConfigured (s_monitors s)) then mret tt
      else
        match capacityBudgetBytes (s_monitors s) with
        | None => publish now PlatformDatabaseCapacityUnconfiguredSource
        | Some budget =>
            n ← outside;
            used ← attempt (on_tables (query (fun _ => out_DatabaseSize out n)));
            match used with
            | Err _ => publish now (PlatformDatabaseCapacityUnavailableSource (PlatformDatabaseCapacityLevel store))
            | Ok used => publish now (PlatformDatabaseCapacitySource used budget (PlatformDatabaseCapacityLevel store)
                                        (capacityThresholds (s_monitors s)))
            end
        end
  end.

(** [service.health.PublishSummary] *)
Definition publish_summary (now : Time) : DB Service unit :=
  modify (fun s => match s_health s with
    | None => s
    | Some store =>
        let '(store, changes, failures) := PublishSummary now store in
        with_published (s_published s ++ [(changes, failures)]) (with_health (Some store) s)
    end).

Definition scheduler_facts (scheduler : centralScheduler) (refreshFailed : bool) : SchedulerFacts :=
  let d := sched_dispatcher scheduler in
  MkSchedulerFacts (probeLimit d) (activeProbes d) (queryLimit d) (activeQueries d)
    (Z.of_nat (size (sched_pending scheduler))) (cnt_skipped (sched_counts scheduler))
    (cnt_backoff (sched_counts scheduler)) refreshFailed.

Definition publishPlatformHealth (now : Time) (scheduler : centralScheduler) (refreshFailed : bool)
    (databaseErr : option error) : DB Service unit :=
  health ← gets s_health;
  match health with
  | None => mret tt
  | Some _ =>
      _ ← publish now (DatabaseSource databaseErr);
      _ ← publish now (SchedulerSource (scheduler_facts scheduler refreshFailed));
      _ ← refreshPlatformDatabaseCapacityHealth now;
      publish_summary now
  end.

(** [platform.Ping] *)
Definition Ping : DB Service unit := on_tables (query (fun _ => tt)).

(** [logSummary] without the log lines: once a minute the health is published and
    the counts start again. *)
Definition logSummary (now : Time) (scheduler : centralScheduler) (refreshFailed : bool) : DB Service centralScheduler :=
  if TimeSub now (sched_lastSummaryAt scheduler) <? Minute then mret scheduler
  else
    _ ← queryConnectionSummary (activeQueries (sched_dispatcher scheduler));
    health ← gets s_health;
    _ ← match health with
        | None => mret tt
        | Some _ => databaseErr ← attempt Ping; publishPlatformHealth now scheduler refreshFailed (error_of databaseErr)
        end;
    mret (MkScheduler (sched_dispatcher scheduler) (sched_pending scheduler) (sched_schedule scheduler)
            newSchedulerCounts now).

(** A round of [Run]'s loop on a tick: the disk once a minute, the schedule, and
    the summary. *)
Definition on_tick (scheduler : centralScheduler) : DB Service (centralScheduler * list scheduledRun) :=
  now ← Now;
  _ ← (if Minute <=? TimeSub now (sched_lastSummaryAt scheduler) then refreshDiskHealth now else mret tt);
  '(scheduler, refreshErr) ← on_tables (refresh now scheduler);
  n ← outside;
  let clock run := out_clock out n in
  '(scheduler, launched) ← match refreshErr with
    | Some _ => mret (scheduler, [])
    | None => scheduler ← on_tables (accrue clock now scheduler); on_tables (dispatch clock scheduler)
    end;
  scheduler ← logSummary now scheduler (bool_decide (is_Some refreshErr));
  mret (scheduler, launched).

End Operations.
