(* ===== verification/CollectServiceInv.v ===== *)
(** What the collection service guarantees: an execution writes the platform database
    only through the record operations and in the order its protocol allows, and
    connections to monitored servers are neither leaked nor used for another
    instance or another credential. *)

From stdpp Require Import vector.
From S2P Require Import Prelude Float64 Db Text Partitions Dictionary Catalog MetricMath Capability ControlPlane Samples.
From S2P Require Import CollectState Scheduler PlatformHealth Credentials CredentialsInv CollectService.

(** * What an execution writes *)

Definition is_Ok {A} (r : result A) : bool := match r with Ok _ => true | Err _ => false end.

(** One write of the platform database: a record operation or a repair of the sample
    partitions, and whether it reported success. *)
Inductive action : Type :=
  | Did (op : record_op) (ok : bool)
  | Repaired (ok : bool).

Definition acts (a : action) (t t' : Tables) : Prop :=
  match a with
  | Did op ok => exists now fs fs' r, perform now op fs t = (r, t', fs') /\ ok = is_Ok r
  | Repaired ok => exists at_ span fs fs' r,
      on_sample_store (EnsurePartitionsWithSpan at_ span) fs t = (r, t', fs') /\ ok = is_Ok r
  end.

(** The writes in order, between those of the other users of the database. *)
Inductive trace (others : nat -> Tables -> Tables) : list action -> Tables -> Tables -> Prop :=
  | trace_done t : trace others [] t t
  | trace_others n l t t' : trace others l (others n t) t' -> trace others l t t'
  | trace_acts a l t t1 t' : acts a t t1 -> trace others l t1 t' -> trace others (a :: l) t t'.

Lemma trace_app others l1 l2 t t1 t2 :
  trace others l1 t t1 -> trace others l2 t1 t2 -> trace others (l1 ++ l2) t t2.
Proof. induction 1; intros H2; simpl; eauto using trace. Qed.

(** Code whose writes are [Q] of its result, or [E] when it fails. *)
Definition performs {A} (out : Outside) (m : DB Service A) (Q : A -> list action -> Prop) (E : list action -> Prop) : Prop :=
  forall fs s r s' fs', m fs s = (r, s', fs') ->
  exists l, trace (out_others out) l (s_tables s) (s_tables s') /\ match r with Ok a => Q a l | Err _ => E l end.

Section Calculus.
Context (out : Outside).
Abbreviation performs := (performs out).

(** Code that writes nothing, and code that cannot fail either. *)
Class Quiet {A} (m : DB Service A) : Prop := quiet : performs m (fun _ l => l = []) (fun l => l = []).
Class Calm {A} (m : DB Service A) : Prop := calm : performs m (fun _ l => l = []) (fun _ => False).

Lemma performs_ret {A} (a : A) (Q : A -> list action -> Prop) E : Q a [] -> performs (mret a) Q E.
Proof. intros HQ fs s r s' fs' H. injection H as <- <- <-. exists []. split; [constructor|done]. Qed.

Lemma performs_weaken {A} (m : DB Service A) (Q Q' : A -> list action -> Prop) (E E' : list action -> Prop) :
  performs m Q E -> (forall a l, Q a l -> Q' a l) -> (forall l, E l -> E' l) -> performs m Q' E'.
Proof. intros Hm HQ HE fs s [a|e] s' fs' H; destruct (Hm _ _ _ _ _ H) as (l&?&?); exists l; split; auto. Qed.

Lemma performs_bind {A B} (m : DB Service A) (k : A -> DB Service B) R Q E :
  performs m R E ->
  (forall a l, R a l -> performs (k a) (fun b l' => Q b (l ++ l')) (fun l' => E (l ++ l'))) ->
  performs (m ≫= k) Q E.
Proof.
  intros Hm Hk fs s r s' fs' H. unfold mbind, DB_bind in H.
  destruct (m fs s) as [[[a|e] s1] fs1] eqn:E1; destruct (Hm _ _ _ _ _ E1) as (l&Ht&HR).
  - destruct (Hk _ _ HR _ _ _ _ _ H) as (l'&Ht'&HQ). exists (l ++ l'). split; [by eapply trace_app|done].
  - injection H as <- <- <-. eauto.
Qed.

Lemma performs_attempt {A} (m : DB Service A) Q E :
  performs m Q E -> performs (attempt m) (fun r l => match r with Ok a => Q a l | Err _ => E l end) (fun _ => False).
Proof.
  intros Hm fs s r s' fs' H. unfold attempt in H. destruct (m fs s) as [[r1 s1] fs1] eqn:E1.
  injection H as <- <- <-. exact (Hm _ _ _ _ _ E1).
Qed.

Lemma calm_quiet {A} (m : DB Service A) : Calm m -> Quiet m.
Proof. intros Hm. by eapply performs_weaken; [exact Hm|..]. Qed.

Lemma bind_calm {A B} (m : DB Service A) `{!Calm m} (k : A -> DB Service B) Q E :
  (forall a, performs (k a) Q E) -> performs (m ≫= k) Q E.
Proof.
  intros Hk. eapply (performs_bind m k (fun _ l => l = [])).
  - eapply performs_weaken; [exact calm|done|done].
  - intros a l ->. apply Hk.
Qed.

Lemma bind_quiet {A B} (m : DB Service A) `{!Quiet m} (k : A -> DB Service B) Q (E : list action -> Prop) :
  E [] -> (forall a, performs (k a) Q E) -> performs (m ≫= k) Q E.
Proof.
  intros HE Hk. eapply (performs_bind m k (fun _ l => l = [])).
  - eapply performs_weaken; [exact quiet|done|by intros l ->].
  - intros a l ->. apply Hk.
Qed.

(** A step that does not fail and leaves the tables to the others. *)
Lemma calm_step {A} (m : DB Service A) :
  (forall fs s, exists a, (m fs s).1.1 = Ok a /\ s_tables (m fs s).1.2 = s_tables s) -> Calm m.
Proof.
  intros Hm fs s r s' fs' H. destruct (Hm fs s) as (a&Ha&Ht). rewrite H in *. simpl in *. subst r. rewrite Ht.
  exists []. split; [constructor|done].
Qed.

#[export] Instance ret_calm {A} (a : A) : Calm (mret a).
Proof. by apply performs_ret. Qed.

#[export] Instance fail_quiet {A} (e : error) : Quiet (fail e : DB Service A).
Proof. intros fs s r s' fs' H. injection H as <- <- <-. exists []. split; [constructor|done]. Qed.

#[export] Instance outside_calm : Calm (outside out).
Proof.
  intros fs s r s' fs' H. injection H as <- <- <-. exists []. split; [|done]. simpl.
  eapply trace_others. constructor.
Qed.

#[export] Instance gets_calm {A} (f : Service -> A) : Calm (gets f).
Proof. apply calm_step. intros fs s. by exists (f s). Qed.

Lemma modify_calm (f : Service -> Service) : (forall s, s_tables (f s) = s_tables s) -> Calm (modify f).
Proof. intros Hf. apply calm_step. intros fs s. exists tt. split; [done|apply Hf]. Qed.

#[export] Instance bind_Calm {A B} (m : DB Service A) (k : A -> DB Service B) :
  Calm m -> (forall a, Calm (k a)) -> Calm (m ≫= k).
Proof. intros Hm Hk. by apply bind_calm. Qed.

#[export] Instance bind_Quiet {A B} (m : DB Service A) (k : A -> DB Service B) :
  Quiet m -> (forall a, Quiet (k a)) -> Quiet (m ≫= k).
Proof. intros Hm Hk. by apply bind_quiet. Qed.

#[export] Instance attempt_Calm {A} (m : DB Service A) : Quiet m -> Calm (attempt m).
Proof.
  intros Hm. eapply performs_weaken; [by apply performs_attempt|by intros [|]|done].
Qed.

#[export] Instance wrap_Quiet {A} message (m : DB Service A) : Quiet m -> Quiet (wrap message m).
Proof.
  intros Hm fs s r s' fs' H. unfold wrap in H. destruct (m fs s) as [[[a|e] s1] fs1] eqn:E; injection H as <- <- <-;
    apply (Hm _ _ _ _ _ E).
Qed.

#[export] Instance query_Quiet {A} (f : Tables -> A) : Quiet (on_tables (query f)).
Proof.
  intros fs s r s' fs' H. unfold on_tables, focus in H.
  pose proof (query_keeps (fun t => t) f fs (s_tables s)) as Hk. unfold tables_after in Hk.
  destruct (query f fs (s_tables s)) as [[r1 t1] fs1]. simpl in Hk. injection H as <- <- <-. subst t1.
  exists []. split; [constructor|by destruct r1].
Qed.

#[export] Instance secrets_Quiet {A} (m : DB World A) : Quiet (on_secrets m).
Proof.
  intros fs s r s' fs' H. unfold on_secrets, focus in H. destruct (m fs (s_secrets s)) as [[r1 w1] fs1].
  injection H as <- <- <-. exists []. split; [constructor|by destruct r1].
Qed.
End Calculus.

#[export] Hint Extern 5 (Quiet _ _) => apply calm_quiet : typeclass_instances.
#[export] Hint Extern 1 (Quiet _ (if ?b then _ else _)) => destruct b : typeclass_instances.
#[export] Hint Extern 1 (Quiet _ (match ?o with _ => _ end)) => destruct o : typeclass_instances.
#[export] Hint Extern 1 (Calm _ (if ?b then _ else _)) => destruct b : typeclass_instances.
#[export] Hint Extern 1 (Calm _ (match ?o with _ => _ end)) => destruct o : typeclass_instances.
#[export] Hint Extern 2 (Calm _ (modify _)) => (apply modify_calm; intros; reflexivity) : typeclass_instances.

Section Traces.
Context `{Crypto}.
Context (out : Outside) (keyring : CredentialKeyring) (span : Duration).
Abbreviation performs := (performs out).

#[export] Instance Now_calm : Calm out (Now out).
Proof. unfold Now. apply _. Qed.

#[export] Instance wall_calm : Calm out (wall out).
Proof. unfold wall. apply _. Qed.

#[export] Instance Since_calm started : Calm out (Since out started).
Proof. unfold Since. apply _. Qed.

#[export] Instance deadlineExceeded_calm : Calm out (deadlineExceeded out).
Proof. unfold deadlineExceeded. apply _. Qed.

#[export] Instance publish_calm now fact : Calm out (publish now fact).
Proof.
  apply modify_calm. intros s. destruct (s_health s) as [store|]; [|done]. by destruct (Update now fact store) as [[? ?] ?].
Qed.

#[export] Instance answer_quiet {A} (r : result A) : Quiet out (answer r).
Proof. unfold answer. apply _. Qed.

#[export] Instance answer_error_quiet e : Quiet out (answer_error e).
Proof. unfold answer_error. apply _. Qed.

#[export] Instance connectionConfig_quiet target : Quiet out (connectionConfig out keyring target).
Proof. unfold connectionConfig. apply _. Qed.

#[export] Instance Dial_quiet target config : Quiet out (Dial out target config).
Proof. unfold Dial. apply _. Qed.

#[export] Instance closeConnection_calm conn : Calm out (closeConnection conn).
Proof. unfold closeConnection. apply _. Qed.

#[export] Instance drop_connection_calm key conn : Calm out (drop_connection key conn).
Proof. unfold drop_connection. apply _. Qed.

#[export] Instance dial_query_quiet target : Quiet out (dial_query out keyring target).
Proof. unfold dial_query. apply _. Qed.

#[export] Instance IsClosed_calm conn : Calm out (IsClosed out conn).
Proof. unfold IsClosed. apply _. Qed.

#[export] Instance acquireQueryConnection_quiet target : Quiet out (acquireQueryConnection out keyring target).
Proof. unfold acquireQueryConnection, queryConnection. apply _. Qed.

#[export] Instance invalidate_calm id : Calm out (invalidateQueryConnection id).
Proof. unfold invalidateQueryConnection. apply _. Qed.

#[export] Instance Scan_quiet conn sql args : Quiet out (Scan out conn sql args).
Proof. unfold Scan. apply _. Qed.

#[export] Instance configured_connection_calm target sql args :
  Calm out (configured_connection out keyring target sql args).
Proof. unfold configured_connection. apply _. Qed.

#[export] Instance probe_once_quiet run config : Quiet out (probe_once out run config).
Proof. unfold probe_once. apply _. Qed.

#[export] Instance isCollectionPaused_quiet id : Quiet out (isCollectionPaused id).
Proof.
  intros fs s r s' fs' Hr. unfold isCollectionPaused, on_tables, focus in Hr.
  destruct (statement _ fs (s_tables s)) as [[r1 t1] fs1] eqn:E. injection Hr as <- <- <-.
  pose proof (statement_keeps (fun t => t) (fun t => match t_paused t !! id with
    | None => Err ErrNoRows | Some paused => Ok (paused, t) end)) as Hk.
  specialize (Hk ltac:(intros t a t' Ht; cbv beta in Ht; case_match; congruence) fs (s_tables s)). unfold tables_after in Hk. rewrite E in Hk. simpl in Hk. subst t1.
  exists []. split; [constructor|by destruct r1].
Qed.

#[export] Instance taskCapabilityBlockReason_quiet run : Quiet out (taskCapabilityBlockReason out run).
Proof. unfold taskCapabilityBlockReason, loadCapabilitySnapshot. apply _. Qed.

(** ** Writes *)

Lemma performs_op now op :
  performs (on_tables (perform now op)) (fun _ l => l = [Did op true]) (fun l => l = [Did op false]).
Proof.
  intros fs s r s' fs' Hr. unfold on_tables, focus in Hr.
  destruct (perform now op fs (s_tables s)) as [[r1 t1] fs1] eqn:E. injection Hr as <- <- <-.
  exists [Did op (is_Ok r1)]. split; [|by destruct r1].
  eapply trace_acts; [|constructor]. by exists now, fs, fs1, r1.
Qed.

(** The operations that return more than an error. *)
Lemma performs_ignored {A} now op (m : DB Tables A) :
  (forall fs t, perform now op fs t = ignore m fs t) ->
  performs (on_tables m) (fun _ l => l = [Did op true]) (fun l => l = [Did op false]).
Proof.
  intros Hm fs s r s' fs' Hr. unfold on_tables, focus in Hr.
  destruct (m fs (s_tables s)) as [[r1 t1] fs1] eqn:E. injection Hr as <- <- <-.
  assert (perform now op fs (s_tables s) = (match r1 with Ok _ => Ok tt | Err e => Err e end, t1, fs1)) as Hp.
  { rewrite Hm. unfold ignore, mbind, DB_bind. rewrite E. by destruct r1. }
  exists [Did op (is_Ok r1)]. split; [|by destruct r1].
  eapply trace_acts; [|constructor]. exists now, fs, fs1, (match r1 with Ok _ => Ok tt | Err e => Err e end).
  split; [exact Hp|by destruct r1].
Qed.

(** A write with partition repair: once, or once more after a repair. *)
Inductive written (op : record_op) : list action -> bool -> Prop :=
  | written_once ok : written op [Did op ok] ok
  | written_unrepaired : written op [Did op false; Repaired false] false
  | written_again ok : written op [Did op false; Repaired true; Did op ok] ok.

Lemma performs_repair observedAt now op :
  performs (on_tables (withPartitionRepair span observedAt (perform now op)))
    (fun r l => written op l (is_Ok r.1)) (fun _ => False).
Proof.
  intros fs s r s' fs' Hr. unfold on_tables, focus, withPartitionRepair, attempt, mbind, DB_bind in Hr.
  destruct (perform now op fs (s_tables s)) as [[r1 t1] fs1] eqn:E1.
  assert (acts (Did op (is_Ok r1)) (s_tables s) t1) as A1 by (by exists now, fs, fs1, r1).
  destruct r1 as [[]|e1]; [|destruct (IsMissingPartition e1); simpl in Hr].
  - injection Hr as <- <- <-. exists [Did op true]. split; [|constructor]. eapply trace_acts; [done|constructor].
  - destruct (on_sample_store _ fs1 t1) as [[r2 t2] fs2] eqn:E2.
    assert (acts (Repaired (is_Ok r2)) t1 t2) as A2 by (by exists observedAt, span, fs1, fs2, r2).
    destruct r2 as [[]|e2]; simpl in Hr.
    + destruct (perform now op fs2 t2) as [[r3 t3] fs3] eqn:E3.
      assert (acts (Did op (is_Ok r3)) t2 t3) as A3 by (by exists now, fs2, fs3, r3).
      destruct r3 as [[]|e3]; injection Hr as <- <- <-; (eexists [Did op false; Repaired true; Did op _]; split;
        [eapply trace_acts; [exact A1|]; eapply trace_acts; [exact A2|]; eapply trace_acts; [exact A3|]; constructor|constructor]).
    + injection Hr as <- <- <-. exists [Did op false; Repaired false]. split; [|constructor].
      eapply trace_acts; [exact A1|]. eapply trace_acts; [exact A2|]. constructor.
  - injection Hr as <- <- <-. exists [Did op false]. split; [|constructor]. eapply trace_acts; [exact A1|constructor].
Qed.

Lemma performs_repaired observedAt now op :
  performs (repaired observedAt (withPartitionRepair span observedAt (perform now op)))
    (fun _ l => written op l true) (fun l => written op l false).
Proof.
  unfold repaired. eapply (performs_bind _ _ _ (fun r l => written op l (is_Ok r.1))).
  - eapply performs_weaken; [apply performs_repair|done|done].
  - intros [r published] l Hl. simpl in *. apply bind_calm; [|intros _]. { destruct published; apply _. }
    destruct r; simpl in *; [apply performs_ret; by rewrite app_nil_r|].
    intros fs s r s' fs' Hr. injection Hr as <- <- <-. exists []. split; [constructor|by rewrite app_nil_r].
Qed.

(** ** What a task brings back *)

(** The metrics the dictionary says a task yields. *)
Definition task_metrics (task : Task) : list MetricID := map yield_Metric (task_Yields task).

Definition batch_of (task : Task) (batch : collectedBatch) : Prop :=
  task ∈ Tasks -> Forall (fun s => cs_metricID s ∈ task_metrics task) (batch_samples batch).

(** The metrics of the branches that name them are those of the dictionary. *)
Definition fixed_metrics (task : Task) : list MetricID :=
  if bool_decide (task_ID task = TaskStatActivity) then statActivityMetricIDs
  else if bool_decide (task_ID task = TaskStatDatabase)
  then map cs_metricID (database_samples EmptyString (repeat (f64_of_Z 1) statDatabaseCounterCount))
  else if isProbe task then map cs_metricID (batch_samples (probe_batch (f64_of_Z 0)))
  else [].

Lemma fixed_metrics_declared task : task ∈ Tasks -> Forall (fun id => id ∈ task_metrics task) (fixed_metrics task).
Proof. revert task. apply Forall_forall. apply (bool_decide_eq_true_1 _). vm_compute. reflexivity. Qed.

Lemma database_samples_metrics name rates s :
  s ∈ database_samples name rates ->
  cs_metricID s ∈ map cs_metricID (database_samples EmptyString (repeat (f64_of_Z 1) statDatabaseCounterCount)).
Proof.
  unfold database_samples at 1. rewrite !elem_of_app. intros Hs.
  assert (cs_metricID s ∈ [MetricTPS] ++
    map snd (filter (fun entry => entry.2 <> NoMetric) statDatabaseCounterMetrics) ++
    [MetricCacheBlockAccessPerS; MetricCacheHitRatio]) as Hin.
  { rewrite !elem_of_app. destruct Hs as [Hs|[Hs|[Hs|Hs]]].
    - left. apply list_elem_of_singleton in Hs as ->. left.
    - right. left. apply list_elem_of_fmap in Hs as (entry&->&He). apply list_elem_of_fmap. by exists entry.
    - right. right. apply list_elem_of_singleton in Hs as ->. left.
    - right. right. case_match; [|by apply elem_of_nil in Hs]. apply list_elem_of_singleton in Hs as ->. right. left. }
  revert Hin. generalize (cs_metricID s). apply Forall_forall. apply (bool_decide_eq_true_1 _). vm_compute. reflexivity.
Qed.

Lemma observe_metrics rates id snapshot :
  Forall (fun s => cs_metricID s ∈ map cs_metricID (database_samples EmptyString (repeat (f64_of_Z 1) statDatabaseCounterCount)))
    (batch_samples (observe rates id snapshot).2).
Proof.
  unfold observe. destruct (rates !! id) as [previous|]; [|constructor]. destruct (negb _); [constructor|]. simpl.
  match goal with |- context [observe_loop ?n ?p ?c ?e ?s] =>
    destruct (observe_loop_cases n p c e s) as [(rs&_&->)|(?&?&_&_&->)]; [|constructor] end.
  simpl. apply Forall_forall. intros s (i&name&r&_&_&Hs)%elem_of_database_batch. by eapply database_samples_metrics.
Qed.

Lemma collect_rows_metrics task rows samples :
  collect_rows task rows = Ok samples -> Forall (fun s => cs_metricID s ∈ task_metrics task) samples.
Proof.
  revert samples. induction rows as [|row rows IH]; intros samples; simpl; [intros [= <-]; constructor|].
  destruct (samplesForTaskRow task row) as [first|] eqn:E; [|done]. destruct (collect_rows task rows); [|done].
  intros [= <-]. apply Forall_app. split; [|by apply IH]. apply samples_loop_spec in E as [E _].
  apply Forall_forall. intros s (y&Hy&Hs&_)%E. rewrite Hs. apply list_elem_of_fmap. by exists y.
Qed.

Lemma zip_samples_metrics (ids : list MetricID) (values : list float64) :
  Forall (fun s => cs_metricID s ∈ ids) (zip_with (fun id value => MkCollectedSample id value EmptyString ∅) ids values).
Proof.
  apply Forall_forall. intros s (i&id&v&->&Hi&_)%elem_of_lookup_zip_with. by eapply list_elem_of_lookup_2.
Qed.

Lemma fixed_batch task (batch : collectedBatch) :
  Forall (fun s => cs_metricID s ∈ fixed_metrics task) (batch_samples batch) -> batch_of task batch.
Proof.
  intros Hb Ht. pose proof (proj1 (Forall_forall _ _) (fixed_metrics_declared _ Ht)) as Hf.
  eapply Forall_impl; [exact Hb|]. intros s. apply Hf.
Qed.

Lemma performs_quiet_result {A} (m : DB Service A) `{!Quiet out m} (R : A -> Prop) :
  (forall fs s a s' fs', m fs s = (Ok a, s', fs') -> R a) -> performs m (fun a l => l = [] /\ R a) (fun l => l = []).
Proof.
  intros HR fs s r s' fs' Hr. destruct (quiet out fs s r s' fs' Hr) as (l&Ht&Hl). exists l. split; [done|].
  destruct r; [|done]. split; [done|]. by eapply HR.
Qed.

#[export] Instance collectQueryTask_quiet conn run : Quiet out (collectQueryTask out conn run).
Proof. unfold collectQueryTask, Query. apply _. Qed.

Lemma collectQueryTask_batch conn run fs s batch s' fs' :
  collectQueryTask out conn run fs s = (Ok batch, s', fs') -> batch_of (run_task run) batch.
Proof.
  unfold collectQueryTask. repeat case_bool_decide; unfold Query, Now, outside, gets, modify, answer, mbind, DB_bind, mret, DB_ret, fail.
  - destruct (out_Activity out _ _ _) as [row|]; [|done]. unfold stat_activity_batch.
    destruct (decodeStatActivitySnapshot _ _ _ _ _ _); [|done].
    pose proof (zip_samples_metrics statActivityMetricIDs (vec_to_list (sar_values row))) as Hz. revert Hz.
    generalize (zip_with (fun id value => MkCollectedSample id value EmptyString ∅) statActivityMetricIDs (vec_to_list (sar_values row))).
    intros samples Hz [= <- _ _]. apply fixed_batch. unfold fixed_metrics. by rewrite bool_decide_true by done.
  - simpl. destruct (out_Database out _ _ _) as [rows|]; [|done]. simpl. intros Hr. apply fixed_batch.
    unfold fixed_metrics. rewrite bool_decide_false, bool_decide_true by done.
    match type of Hr with context [observe ?r ?i ?o] => pose proof (observe_metrics r i o) as Ho; destruct (observe r i o) as [rates b] end.
    injection Hr as <- _ _. exact Ho.
  - unfold collectDeclaredTask. destruct (out_Rows out _ _ _) as [rows|]; [|done].
    destruct (collect_rows _ rows) eqn:E; [|done]. intros [= <- _ _] _. by eapply collect_rows_metrics.
  - destruct (collectQueryStatistics _); [|done]. intros [= <- _ _] _. constructor.
  - done.
Qed.

(** ** The protocol of an execution *)

(** How a failure is coded: a passed deadline wins over a lost connection. *)
Definition failure_coded (result : taskResult) (code : string) (connectionFailure : bool) : Prop :=
  (result = resultTimedOut /\ code = errorCodeTimeout) \/
  (result = resultFailed /\ code = (if connectionFailure then errorCodeConnectionFailed else errorCodeQueryFailed)).

(** The writes of a task that has started at [now]: nothing more (the instance was
    paused meanwhile, or a probe could not read its credential), or one outcome. *)
Inductive finished (run : scheduledRun) : list action -> taskResult -> bool -> Prop :=
  | finished_inactive : finished run [] resultSuccess true
  | finished_no_credential : isProbe (run_task run) = true -> finished run [] resultFailed false
  | finished_failure result code connectionFailure l ok :
      failure_coded result code connectionFailure ->
      (isProbe (run_task run) = true -> connectionFailure = true) ->
      written (OpFailure run result code connectionFailure) l ok -> finished run l result ok
  | finished_success batch l ok :
      batch_of (run_task run) batch -> written (OpSuccess run batch) l ok -> finished run l resultSuccess ok.

(** The writes of [executeTask], the result of its outcome, and whether it is
    without an error. *)
Inductive execution (run : scheduledRun) : list action -> taskResult -> bool -> Prop :=
  | execution_paused : execution run [] resultSuccess true
  | execution_unread : execution run [] resultFailed false
  | execution_capability states result ok :
      isCapabilitySnapshotTask (run_task run) = true -> (ok = false -> result = resultFailed) ->
      execution run [Did (OpCapability (target_ID (run_target run)) states) ok] result ok
  | execution_emergency now ok :
      isCapabilitySnapshotTask (run_task run) = false ->
      execution run [Did (OpEmergency (started_run run now)) ok] resultFailed ok
  | execution_blocked now reason ok :
      isCapabilitySnapshotTask (run_task run) = false -> isProbe (run_task run) = false ->
      reason <> CapabilityBlockNotApplicableRole ->
      execution run [Did (OpBlocked (started_run run now) reason) ok] resultFailed ok
  | execution_not_applicable now ok :
      isCapabilitySnapshotTask (run_task run) = false -> isProbe (run_task run) = false ->
      execution run [Did (OpNotApplicable (started_run run now) CapabilityBlockNotApplicableRole) ok] resultSuccess ok
  | execution_unstarted now :
      isCapabilitySnapshotTask (run_task run) = false ->
      execution run [Did (OpStarted (started_run run now)) false] resultFailed false
  | execution_started now l result ok :
      isCapabilitySnapshotTask (run_task run) = false -> finished (started_run run now) l result ok ->
      execution run (Did (OpStarted (started_run run now)) true :: l) result ok.

Definition outcome_ok (outcome : executionOutcome) : bool :=
  match outcome_err outcome with None => true | Some _ => false end.

(** The outcome of a run is about its task on its instance. *)
Definition outcome_of (run : scheduledRun) (outcome : executionOutcome) : Prop :=
  run_key (outcome_run outcome) = run_key run /\ run_task (outcome_run outcome) = run_task run.

Definition ends_as (Q : list action -> taskResult -> bool -> Prop) (run : scheduledRun) (outcome : executionOutcome)
    (l : list action) : Prop :=
  outcome_of run outcome /\ Q l (outcome_result outcome) (outcome_ok outcome).

Lemma finishFailure_performs run connectionFailure :
  performs (finishFailure out span run connectionFailure)
    (fun r l => exists code, failure_coded r.1 code connectionFailure /\
       written (OpFailure run r.1 code connectionFailure) l (is_Ok r.2)) (fun _ => False).
Proof.
  unfold finishFailure. apply bind_calm; [apply _|]. intros expired. cbv zeta.
  eapply performs_bind.
  - apply performs_attempt. unfold record_failure. apply bind_calm; [apply _|]. intros now.
    exact (performs_repaired now now (OpFailure run _ _ _)).
  - intros r l Hl. apply performs_ret. rewrite app_nil_r. simpl.
    exists (if expired then errorCodeTimeout else if connectionFailure then errorCodeConnectionFailed else errorCodeQueryFailed).
    split; [destruct expired; unfold failure_coded; auto|]. by destruct r.
Qed.

Lemma record_success_performs run batch :
  performs (attempt (record_success out span run batch))
    (fun r l => written (OpSuccess run batch) l (is_Ok r)) (fun _ => False).
Proof.
  assert (performs (record_success out span run batch) (fun _ l => written (OpSuccess run batch) l true)
            (fun l => written (OpSuccess run batch) l false)) as Hr.
  { unfold record_success. apply bind_calm; [apply _|]. intros now. exact (performs_repaired now now (OpSuccess run batch)). }
  eapply performs_weaken; [exact (performs_attempt _ _ _ _ Hr)|by intros [|]|done].
Qed.

(** Ends with an outcome that says what was written. *)
Lemma success_ends run batch startedWall (d : Time -> DB Service Duration) :
  batch_of (run_task run) batch -> (forall t, Calm out (d t)) ->
  performs (err ← attempt (record_success out span run batch); duration ← d startedWall;
            mret (MkOutcome run resultSuccess duration (error_of err)))
    (ends_as (finished run) run) (fun _ => False).
Proof.
  intros Hb Hd. eapply performs_bind; [apply record_success_performs|]. intros err l Hl.
  apply bind_calm; [apply _|]. intros duration. apply performs_ret. rewrite app_nil_r. split; [done|].
  eapply finished_success; [done|]. by destruct err.
Qed.

Lemma failure_ends run connectionFailure startedWall (d : Time -> DB Service Duration) :
  (isProbe (run_task run) = true -> connectionFailure = true) -> (forall t, Calm out (d t)) ->
  performs ('(result, err) ← finishFailure out span run connectionFailure; duration ← d startedWall;
            mret (MkOutcome run result duration (error_of err)))
    (ends_as (finished run) run) (fun _ => False).
Proof.
  intros Hp Hd. eapply performs_bind; [apply finishFailure_performs|]. intros [result err] l (code&Hc&Hl).
  apply bind_calm; [apply _|]. intros duration. apply performs_ret. rewrite app_nil_r. split; [done|].
  eapply finished_failure; [done..|]. by destruct err.
Qed.

Lemma execute_probe_performs run startedWall :
  isProbe (run_task run) = true ->
  performs (execute_probe out keyring span run startedWall) (ends_as (finished run) run) (fun _ => False).
Proof.
  intros Hp. unfold execute_probe. apply bind_calm; [apply _|]. intros [config|e].
  - apply bind_calm; [apply _|]. intros [[]|e].
    + apply bind_calm; [apply _|]. intros elapsed. apply success_ends; [|apply _].
      intros Ht. pose proof (fixed_metrics_declared _ Ht) as Hf.
      assert (map cs_metricID (batch_samples (probe_batch (f64_of_Z 0))) = fixed_metrics (run_task run)) as Hm.
      { revert Ht Hp. generalize (run_task run). apply (Forall_forall (fun task => isProbe task = true -> _ = fixed_metrics task)).
        repeat constructor; vm_compute; done. }
      rewrite <-Hm in Hf. apply Forall_fmap in Hf.
      constructor; [exact (Forall_inv Hf)|constructor; [exact (Forall_inv (Forall_inv_tail Hf))|constructor]].
    + by apply failure_ends; [|apply _].
  - apply performs_ret. split; [done|]. by apply finished_no_credential.
Qed.

Lemma query_batch_performs run :
  performs (query_batch out keyring run)
    (fun r l => l = [] /\ forall batch, r.2 = Ok batch -> batch_of (run_task run) batch) (fun _ => False).
Proof.
  unfold query_batch. apply bind_calm; [apply _|]. intros [dialFailure [conn|e]].
  - eapply performs_bind.
    + apply performs_attempt. apply performs_quiet_result; [apply _|]. intros. by eapply collectQueryTask_batch.
    + intros [batch|e] l Hl; apply performs_ret; rewrite app_nil_r; [destruct Hl as [-> Hb]|subst l]; (split; [done|]).
      * by intros batch' [= <-].
      * done.
  - apply performs_ret. by split.
Qed.

Lemma execute_query_performs run startedWall :
  isProbe (run_task run) = false ->
  performs (execute_query out keyring span run startedWall) (ends_as (finished run) run) (fun _ => False).
Proof.
  intros Hp. unfold execute_query. eapply performs_bind; [apply query_batch_performs|].
  intros [dialFailure [batch|e]] l [-> Hb]; simpl.
  - apply success_ends; [by apply Hb|apply _].
  - apply bind_calm; [apply _|]. intros drop. apply bind_calm; [apply _|]. intros _.
    apply failure_ends; [by rewrite Hp|apply _].
Qed.

Lemma bind_ret {A B} (a : A) (k : A -> DB Service B) Q E : performs (k a) Q E -> performs (mret a ≫= k) Q E.
Proof. done. Qed.

(** The operations of the gate that end the execution. *)
Lemma recorded_ends run now at_ op result duration :
  execution run [Did op true] result true -> execution run [Did op false] result false ->
  performs (err ← attempt (on_tables (perform at_ op));
            mret (Some (MkOutcome (started_run run now) result duration (error_of err))))
    (fun r l => match r with
      | Some outcome => ends_as (execution run) run outcome l
      | None => l = [Did (OpStarted (started_run run now)) true] end) (fun _ => False).
Proof.
  intros H1 H2. eapply performs_bind; [apply performs_attempt, performs_op|]. intros err l Hl. apply performs_ret.
  rewrite app_nil_r. split; [done|]. by destruct err; subst l.
Qed.

Lemma start_performs run now :
  isCapabilitySnapshotTask (run_task run) = false ->
  performs (recorded ← attempt (on_tables (recordStarted (started_run run now)));
     mret (match recorded with
           | Err e => Some (MkOutcome (started_run run now) resultFailed 0 (Some e))
           | Ok false => Some (MkOutcome (started_run run now) resultSuccess 0 None)
           | Ok true => None
           end))
    (fun r l => match r with
      | Some outcome => ends_as (execution run) run outcome l
      | None => l = [Did (OpStarted (started_run run now)) true] end) (fun _ => False).
Proof.
  intros Hc. eapply performs_bind; [apply performs_attempt, (performs_ignored now (OpStarted (started_run run now))); done|].
  intros [[]|e] l ->; apply performs_ret; simpl; [done|..].
  - split; [done|]. by eapply execution_started, finished_inactive.
  - split; [done|]. by apply execution_unstarted.
Qed.

Lemma gate_performs run startedWall now :
  isCapabilitySnapshotTask (run_task run) = false ->
  performs (gate out (started_run run now) startedWall)
    (fun r l => match r with
      | Some outcome => ends_as (execution run) run outcome l
      | None => l = [Did (OpStarted (started_run run now)) true] end) (fun _ => False).
Proof.
  intros Hc. unfold gate. apply bind_calm; [apply _|]. intros [|].
  - apply bind_calm; [apply _|]. intros at_. eapply performs_bind; [apply performs_attempt, (performs_op at_ (OpEmergency (started_run run now)))|].
    intros err l Hl. apply bind_calm; [apply _|]. intros duration. apply performs_ret. rewrite app_nil_r. split; [done|].
    destruct err; subst l; by apply execution_emergency.
  - change (isProbe (run_task (started_run run now))) with (isProbe (run_task run)).
    destruct (isProbe (run_task run)) eqn:Hp; [by apply bind_ret, start_performs|].
    apply bind_calm; [apply _|]. intros [[reason|]|e].
    + apply bind_calm; [apply _|]. intros at_. case_bool_decide as Hr; [subst reason|].
      * apply (recorded_ends run now at_ (OpNotApplicable (started_run run now) CapabilityBlockNotApplicableRole)); by apply execution_not_applicable.
      * apply (recorded_ends run now at_ (OpBlocked (started_run run now) reason)); by apply execution_blocked.
    + by apply start_performs.
    + apply performs_ret. split; [done|apply execution_unread].
Qed.

Lemma executeCapabilitySnapshot_performs run :
  isCapabilitySnapshotTask (run_task run) = true ->
  performs (executeCapabilitySnapshot out keyring run) (ends_as (execution run) run) (fun _ => False).
Proof.
  intros Hc. unfold executeCapabilitySnapshot. apply bind_calm; [apply _|]. intros startedWall.
  apply bind_calm; [apply _|]. intros [failed [conn|e]]; (apply bind_calm; [apply _|]); intros observedAt; cbn [snd].
  - apply bind_calm; [apply _|]. intros n. destruct (ProbeSnapshot _) as [states complete].
    eapply performs_bind; [apply performs_attempt, (performs_ignored observedAt (OpCapability (target_ID (run_target run)) states)); done|].
    intros stored l Hl. apply bind_calm; [apply _|]. intros duration. apply performs_ret. rewrite app_nil_r.
    destruct stored; subst l; (split; [done|]); by apply execution_capability.
  - apply bind_calm; [apply _|]. intros expired. apply bind_calm; [apply _|]. intros _.
    eapply performs_bind; [apply performs_attempt, (performs_ignored observedAt (OpCapability (target_ID (run_target run)) UnknownCapabilityStates)); done|].
    intros stored l Hl. apply bind_calm; [apply _|]. intros duration. apply performs_ret. rewrite app_nil_r.
    destruct stored; subst l; (split; [done|]); by apply execution_capability.
Qed.

Lemma executeTask_performs run :
  performs (executeTask out keyring span run) (ends_as (execution run) run) (fun _ => False).
Proof.
  unfold executeTask. apply bind_calm; [apply _|]. intros [[]|e].
  - apply performs_ret. split; [done|apply execution_paused].
  - destruct (isCapabilitySnapshotTask (run_task run)) eqn:Hc; [by apply executeCapabilitySnapshot_performs|].
    apply bind_calm; [apply _|]. intros now. apply bind_calm; [apply _|]. intros startedWall. cbv zeta.
    eapply performs_bind; [by apply gate_performs|]. intros [outcome|] l Hl.
    + apply performs_ret. by rewrite app_nil_r.
    + subst l. eapply (performs_weaken out _ (ends_as (finished (started_run run now)) (started_run run now)) _ (fun _ => False)).
      * destruct (isProbe (run_task (started_run run now))) eqn:Hp; [by apply execute_probe_performs|by apply execute_query_performs].
      * intros outcome l [Ho Hf]. split; [exact Ho|]. by apply execution_started.
      * done.
  - apply performs_ret. split; [done|apply execution_unread].
Qed.

(** ** Instances whose collection is not active *)

Definition op_of (id : string) (a : action) : Prop := match a with Did op _ => op_instance op = id | Repaired _ => True end.

Lemma written_instance op l ok : written op l ok -> Forall (op_of (op_instance op)) l.
Proof. by destruct 1; repeat constructor. Qed.

Lemma execution_instance run l result ok : execution run l result ok -> Forall (op_of (target_ID (run_target run))) l.
Proof.
  destruct 1 as [| | | | | | |now l result ok Hc Hf]; try by repeat constructor.
  constructor; [done|]. destruct Hf as [| |? ? ? ? ? _ _ Hw|? ? ? _ Hw]; try by constructor; exact (written_instance _ _ _ Hw).
  all: exact (written_instance _ _ _ Hw).
Qed.

Definition is_repair (a : action) : Prop := match a with Repaired _ => True | Did _ _ => False end.

#[export] Instance repair_keeps_control at_ : Keeps control (on_sample_store (EnsurePartitionsWithSpan at_ span)).
Proof. by apply focus_keeps. Qed.

Lemma control_active id t t' : control t' = control t -> (is_active id t' <-> is_active id t).
Proof. unfold control, is_active. intros [= -> -> _ _ _ _]. done. Qed.

(** Without activity only partitions are written. *)
Lemma inactive_trace id l t t' :
  (forall n t, ~ is_active id t -> ~ is_active id (out_others out n t)) ->
  trace (out_others out) l t t' -> Forall (op_of id) l -> ~ is_active id t ->
  exists l', Forall is_repair l' /\ trace (out_others out) l' t t' /\ ~ is_active id t'.
Proof.
  intros Hothers Ht. induction Ht as [t|n l t t' Ht IH|a l t t1 t' Ha Ht IH]; intros Hl Hi.
  - exists []. split; [constructor|]. split; [constructor|done].
  - destruct (IH Hl (Hothers _ _ Hi)) as (l'&?&?&?). exists l'. split_and!; [done|by econstructor|done].
  - inversion Hl as [|? ? Ho Hl']; subst. destruct a as [op ok|ok].
    + destruct Ha as (now&fs&fs'&r&Hp&_). simpl in Ho. pose proof (perform_atomic now op fs t) as Hat.
      unfold tables_after in Hat. rewrite Hp, Ho in Hat. destruct Hat as [H1|[Hact _]]; [|done]. simpl in H1. subst t1. by apply IH.
    + assert (~ is_active id t1) as Hi1.
      { destruct Ha as (at_&sp&fs&fs'&r&Hp&_).
        pose proof (focus_keeps t_samples (fun store => on_samples (fun _ => store)) (EnsurePartitionsWithSpan at_ sp) control
          ltac:(done) fs t) as Hk. unfold tables_after in Hk. unfold on_sample_store in Hp. rewrite Hp in Hk. by rewrite (control_active _ _ _ Hk). }
      destruct (IH Hl' Hi1) as (l'&?&?&?). exists (Repaired ok :: l'). split_and!; [by constructor|by econstructor|done].
Qed.
End Traces.

(** ** Connections *)

(** What the service knows of its connections. *)
Definition conn_view (s : Service) := (s_queryConnections s, s_dialled s, s_closed s).

(** Every cached connection is open and was dialled for its instance with its
    credential version, and every other one ever dialled is closed, except [spare]. *)
Record connections_ok (spare : option nat) (s : Service) : Prop := MkConnectionsOk {
  cached_dialled id cached : s_queryConnections s !! id = Some cached ->
    exists config, s_dialled s !! cached_conn cached = Some (id, cached_credentialVersion cached, config);
  cached_open id cached : s_queryConnections s !! id = Some cached -> cached_conn cached ∉ s_closed s;
  accounted n : (n < length (s_dialled s))%nat ->
    n ∈ s_closed s \/ spare = Some n \/ exists id cached, s_queryConnections s !! id = Some cached /\ cached_conn cached = n;
  closed_dialled n : n ∈ s_closed s -> (n < length (s_dialled s))%nat;
  spare_open n : spare = Some n -> (n < length (s_dialled s))%nat /\ (n ∉ s_closed s) /\
    forall id cached, s_queryConnections s !! id = Some cached -> cached_conn cached <> n;
}.

Lemma connections_view spare s s' : conn_view s' = conn_view s -> connections_ok spare s -> connections_ok spare s'.
Proof. unfold conn_view. intros [= E1 E2 E3] []. split; rewrite ?E1, ?E2, ?E3; auto. Qed.

Lemma keeps_connections {A} spare (m : DB Service A) `{!Keeps conn_view m} :
  triple (connections_ok spare) m (fun _ => connections_ok spare) (connections_ok spare).
Proof.
  intros fs s Hs. pose proof (keeps (f := conn_view) (m := m) fs s) as Hk. unfold tables_after in Hk.
  destruct (m fs s) as [[[a|e] s'] fs']; simpl in *; by eapply connections_view.
Qed.

(** Code that keeps the connections in order, whether it succeeds or fails. *)
Class Orderly {A} (m : DB Service A) : Prop :=
  orderly : triple (connections_ok None) m (fun _ => connections_ok None) (connections_ok None).

Lemma keeps_orderly {A} (m : DB Service A) : Keeps conn_view m -> Orderly m.
Proof. intros Hm. by apply keeps_connections. Qed.

#[export] Instance bind_orderly {A B} (m : DB Service A) (k : A -> DB Service B) :
  Orderly m -> (forall a, Orderly (k a)) -> Orderly (m ≫= k).
Proof. intros Hm Hk. eapply triple_bind; [exact Hm|intros a; apply Hk]. Qed.

#[export] Instance ret_orderly {A} (a : A) : Orderly (mret a).
Proof. by apply triple_ret. Qed.

#[export] Instance fail_orderly {A} (e : error) : Orderly (fail e : DB Service A).
Proof. by apply triple_fail. Qed.

#[export] Instance attempt_orderly {A} (m : DB Service A) : Orderly m -> Orderly (attempt m).
Proof. intros Hm. by eapply triple_attempt; [exact Hm|]. Qed.

#[export] Instance wrap_orderly {A} message (m : DB Service A) : Orderly m -> Orderly (wrap message m).
Proof. intros Hm. by apply triple_wrap. Qed.

#[export] Instance for_each_orderly {I} (f : I -> DB Service unit) items : (forall i, Orderly (f i)) -> Orderly (for_each f items).
Proof. intros Hf. apply triple_for_each. intros i _. apply Hf. Qed.

#[export] Hint Extern 1 (Orderly (if ?b then _ else _)) => destruct b : typeclass_instances.
#[export] Hint Extern 1 (Orderly (match ?o with _ => _ end)) => destruct o : typeclass_instances.

Section Connections.
Context `{Crypto}.
Context (out : Outside) (keyring : CredentialKeyring) (span : Duration).

#[export] Instance outside_view : Keeps conn_view (outside out).
Proof. done. Qed.

#[export] Instance gets_view {A B} (g : Service -> B) (f : Service -> A) : Keeps g (gets f).
Proof. done. Qed.

Lemma modify_view (f : Service -> Service) : (forall s, conn_view (f s) = conn_view s) -> Keeps conn_view (modify f).
Proof. intros Hf fs s. apply Hf. Qed.

#[local] Hint Extern 2 (Keeps conn_view (modify _)) => (apply modify_view; intros; reflexivity) : typeclass_instances.

#[export] Instance on_tables_view {A} (m : DB Tables A) : Keeps conn_view (on_tables m).
Proof. by apply focus_keeps. Qed.

#[export] Instance on_secrets_view {A} (m : DB World A) : Keeps conn_view (on_secrets m).
Proof. by apply focus_keeps. Qed.

#[export] Instance publish_view now fact : Keeps conn_view (publish now fact).
Proof.
  apply modify_view. intros s. destruct (s_health s) as [store|]; [|done]. by destruct (Update now fact store) as [[? ?] ?].
Qed.

#[export] Instance answer_view {A} (r : result A) : Keeps conn_view (answer r).
Proof. unfold answer. apply _. Qed.

#[export] Instance answer_error_view e : Keeps conn_view (answer_error e).
Proof. unfold answer_error. apply _. Qed.

#[export] Instance Now_view : Keeps conn_view (Now out).
Proof. unfold Now. apply _. Qed.

#[export] Instance wall_view : Keeps conn_view (wall out).
Proof. unfold wall. apply _. Qed.

#[export] Instance Since_view started : Keeps conn_view (Since out started).
Proof. unfold Since. apply _. Qed.

#[export] Instance deadlineExceeded_view : Keeps conn_view (deadlineExceeded out).
Proof. unfold deadlineExceeded. apply _. Qed.

#[export] Instance connectionConfig_view target : Keeps conn_view (connectionConfig out keyring target).
Proof.
  apply bind_keeps; [apply _|]. intros [password|e]; [apply _|]. apply bind_keeps; [apply _|]. intros health.
  apply bind_keeps; [|apply _]. destruct health, (fault_code e); try apply ret_keeps.
  apply bind_keeps; [apply _|]. intros now. apply publish_view.
Qed.

#[export] Instance Scan_view conn sql args : Keeps conn_view (Scan out conn sql args).
Proof. unfold Scan. apply _. Qed.

#[export] Instance IsClosed_view conn : Keeps conn_view (IsClosed out conn).
Proof. unfold IsClosed. apply _. Qed.

#[export] Instance collectQueryTask_view conn run : Keeps conn_view (collectQueryTask out conn run).
Proof. unfold collectQueryTask, Query. apply _. Qed.

#[export] Instance repaired_view at_ write : Keeps conn_view (repaired at_ write).
Proof. unfold repaired, publishPartitionWriteFailure. apply _. Qed.

#[export] Instance finishFailure_view run c : Keeps conn_view (finishFailure out span run c).
Proof. unfold finishFailure, record_failure. apply _. Qed.

#[export] Instance record_success_view run batch : Keeps conn_view (record_success out span run batch).
Proof. unfold record_success. apply _. Qed.

#[export] Instance gate_view run startedWall : Keeps conn_view (gate out run startedWall).
Proof. unfold gate, taskCapabilityBlockReason, loadCapabilitySnapshot. apply _. Qed.

(** ** Steps that move a connection *)

(** Code that only changes the memory of the process. *)
Lemma triple_modify (P : Service -> Prop) (f : Service -> Service) (Q : unit -> Service -> Prop) E :
  (forall s, P s -> Q tt (f s)) -> triple P (modify f) Q E.
Proof. intros Hf fs s Hs. by apply Hf. Qed.

Lemma triple_gets {A} (P : Service -> Prop) (f : Service -> A) E :
  triple P (gets f) (fun a s => P s /\ a = f s) E.
Proof. intros fs s Hs. by split. Qed.

(** With the cache [m] of connections. *)
Definition cache_ok (spare : option nat) (m : gmap string cachedConnection) (s : Service) : Prop :=
  connections_ok spare s /\ s_queryConnections s = m.

Lemma keeps_cache {A} spare m (c : DB Service A) `{!Keeps conn_view c} :
  triple (cache_ok spare m) c (fun _ => cache_ok spare m) (connections_ok spare).
Proof.
  intros fs s [Hs Hm]. pose proof (keeps (f := conn_view) (m := c) fs s) as Hk. unfold tables_after in Hk.
  assert (connections_ok spare (c fs s).1.2) by by eapply connections_view.
  unfold conn_view in Hk. destruct (c fs s) as [[[a|e] s'] fs']; simpl in *; [|done]. split; [done|congruence].
Qed.

Lemma Dial_spare target config m :
  triple (cache_ok None m) (Dial out target config)
    (fun conn s => cache_ok (Some conn) m s /\
       s_dialled s !! conn = Some (target_ID target, target_CredentialVersion target, config)) (connections_ok None).
Proof.
  unfold Dial. eapply (triple_bind _ _ _ (fun _ => cache_ok None m)); [by apply keeps_cache|]. intros n.
  eapply (triple_bind _ _ _ (fun _ => cache_ok None m)); [apply keeps_cache; apply _|]. intros _.
  eapply triple_bind; [apply triple_gets|]. intros conn.
  eapply (triple_bind _ _ _ (fun _ s => cache_ok (Some conn) m s /\ s_dialled s !! conn = Some _));
    [|intros _; by apply triple_ret].
  apply triple_modify. intros s [[[H1 H2 H3 H4 H5] Hm] ->]. split; [|simpl; by rewrite lookup_app_r, Nat.sub_diag by lia].
  split; [|done]. split; simpl.
  - intros id cached Hc. destruct (H1 id cached Hc) as [config' Hd]. exists config'.
    rewrite lookup_app_l; [done|]. by apply lookup_lt_Some in Hd.
  - done.
  - intros n' Hn. rewrite length_app in Hn. simpl in Hn.
    destruct (decide (n' = length (s_dialled s))) as [->|Hne]; [by right; left|].
    destruct (H3 n' ltac:(lia)) as [?|[?|?]]; [by left|done|by right; right].
  - intros n' Hn%H4. rewrite length_app. simpl. lia.
  - intros n' [= <-]. rewrite length_app. simpl. split_and!; [lia|intros ?%H4; lia|].
    intros id cached Hc. destruct (H1 id cached Hc) as [config' Hd%lookup_lt_Some]. lia.
Qed.

Lemma closeConnection_spare conn :
  triple (connections_ok (Some conn)) (closeConnection conn) (fun _ => connections_ok None) (connections_ok None).
Proof.
  apply triple_modify. intros s [H1 H2 H3 H4 H5]. destruct (H5 conn eq_refl) as (Hlt&Ho&Hc). split; simpl.
  - done.
  - intros id cached Hid. specialize (Hc id cached Hid). specialize (H2 id cached Hid). set_solver.
  - intros n Hn. destruct (H3 n Hn) as [?|[[= <-]|?]]; [left; set_solver|left; set_solver|by right; right].
  - intros n [->%elem_of_singleton|Hn]%elem_of_union; auto.
  - done.
Qed.

Lemma drop_orderly key conn :
  triple (fun s => connections_ok None s /\ exists v, s_queryConnections s !! key = Some (MkCached v conn))
    (drop_connection key conn) (fun _ => connections_ok None) (connections_ok None).
Proof.
  eapply (triple_bind _ _ _ (fun _ => connections_ok (Some conn))); [|intros _; apply closeConnection_spare].
  apply triple_modify. intros s [[H1 H2 H3 H4 H5] [v Hv]]. split; simpl.
  - intros id cached [_ Hid]%lookup_delete_Some. by apply H1.
  - intros id cached [_ Hid]%lookup_delete_Some. by apply (H2 id).
  - intros n Hn. destruct (H3 n Hn) as [?|[?|(id&cached&Hid&<-)]]; [by left|done|].
    destruct (decide (id = key)) as [->|Hne]; [right; left; rewrite Hv in Hid; by injection Hid as <-|].
    right. right. exists id, cached. by rewrite lookup_delete_ne.
  - done.
  - intros n [= <-]. destruct (H1 key _ Hv) as [config Hd]. simpl in Hd. split_and!.
    + by apply lookup_lt_Some in Hd.
    + exact (H2 key _ Hv).
    + intros id cached [Hne Hid]%lookup_delete_Some <-. destruct (H1 id cached Hid) as [config' Hd']. congruence.
Qed.

(** The connection that [acquireQueryConnection] gives is the cached one. *)
Definition acquired (target : ListCollectionTargetsRow) (conn : nat) (s : Service) : Prop :=
  connections_ok None s /\
  s_queryConnections s !! target_ID target = Some (MkCached (target_CredentialVersion target) conn).

Lemma dial_query_acquired target m :
  m !! target_ID target = None ->
  triple (cache_ok None m) (dial_query out keyring target) (acquired target) (connections_ok None).
Proof.
  intros Hm. unfold dial_query.
  eapply (triple_bind _ _ _ (fun _ => cache_ok None m)); [apply keeps_cache; apply _|]. intros config.
  eapply triple_bind; [apply Dial_spare|]. intros conn.
  eapply (triple_bind _ _ _ (fun _ => acquired target conn)); [|intros _; by apply triple_ret].
  apply triple_modify. intros s [[[H1 H2 H3 H4 H5] <-] Hd]. split; [|simpl; by rewrite lookup_insert_eq].
  destruct (H5 conn eq_refl) as (Hlt&Ho&Hc). split; simpl.
  - intros id cached [[<- <-]|[Hne Hid]]%lookup_insert_Some; [by exists config|by apply H1].
  - intros id cached [[<- <-]|[Hne Hid]]%lookup_insert_Some; [done|by apply (H2 id)].
  - intros n Hn. destruct (H3 n Hn) as [?|[[= <-]|(id&cached&Hid&Hcn)]]; [by left|right; right..].
    + exists (target_ID target). eexists. by rewrite lookup_insert_eq.
    + exists id, cached. rewrite lookup_insert_ne by congruence. done.
  - done.
  - done.
Qed.

Lemma triple_pin {A} (m : DB Service A) Q E :
  (forall c, triple (cache_ok None c) m Q E) -> triple (connections_ok None) m Q E.
Proof. intros Hm fs s Hs. exact (Hm (s_queryConnections s) fs s (conj Hs eq_refl)). Qed.

Lemma drop_cache key conn v m :
  m !! key = Some (MkCached v conn) ->
  triple (cache_ok None m) (drop_connection key conn) (fun _ => cache_ok None (delete key m)) (connections_ok None).
Proof.
  intros Hm fs s [Hs Hc]. rewrite <-Hc in *. pose proof (drop_orderly key conn fs s (conj Hs (ex_intro _ v Hm))) as Hd. simpl in *. by split.
Qed.

Lemma queryConnection_acquired target :
  triple (connections_ok None) (queryConnection out keyring target) (acquired target) (connections_ok None).
Proof.
  apply triple_pin. intros m. unfold queryConnection.
  eapply (triple_bind _ _ _ (fun cached s => cache_ok None m s /\ cached = m !! target_ID target)).
  { intros fs s [Hs Hm]. split; [by split|]. by rewrite <-Hm. }
  intros [[v conn]|].
  - intros fs s [Hs Hm]. revert fs s Hs. change (triple (cache_ok None m)
      (closed ← (if v =? target_CredentialVersion target then IsClosed out conn else mret true);
       if negb closed then mret conn
       else _ ← drop_connection (target_ID target) conn; dial_query out keyring target)
      (acquired target) (connections_ok None)).
    destruct (Z.eqb_spec v (target_CredentialVersion target)) as [->|Hv].
    + eapply (triple_bind _ _ _ (fun _ => cache_ok None m)); [apply keeps_cache; apply _|]. intros [|]; simpl.
      * eapply triple_bind; [by eapply drop_cache|]. intros []. apply dial_query_acquired. apply lookup_delete_eq.
      * apply triple_ret. intros s [Hs <-]. by split.
    + apply (triple_bind _ _ _ (fun (closed : bool) s => cache_ok None m s /\ closed = true)); [by apply triple_ret|].
      intros closed fs s [Hs ->]. revert fs s Hs. simpl.
      change (triple (cache_ok None m) (_ ← drop_connection (target_ID target) conn; dial_query out keyring target)
        (acquired target) (connections_ok None)).
      eapply triple_bind; [by eapply drop_cache|]. intros []. apply dial_query_acquired. apply lookup_delete_eq.
  - intros fs s [Hs Hm]. by apply (dial_query_acquired target m).
Qed.

Lemma acquire_acquired target :
  triple (connections_ok None) (acquireQueryConnection out keyring target) (acquired target) (connections_ok None).
Proof.
  unfold acquireQueryConnection. eapply (triple_bind _ _ _ (fun _ => connections_ok None));
    [apply keeps_connections; by apply modify_view|]. intros _. apply queryConnection_acquired.
Qed.

(** ** The operations keep the connections in order *)

#[local] Hint Extern 4 (Orderly _) => (apply keeps_orderly; apply _) : typeclass_instances.

#[export] Instance acquire_orderly target : Orderly (acquireQueryConnection out keyring target).
Proof. eapply triple_weaken; [apply acquire_acquired|done|by intros conn s []|done]. Qed.

#[export] Instance invalidate_orderly id : Orderly (invalidateQueryConnection id).
Proof.
  apply triple_pin. intros m. unfold invalidateQueryConnection.
  eapply (triple_bind _ _ _ (fun cached s => cache_ok None m s /\ cached = m !! id)).
  { intros fs s [Hs Hm]. split; [by split|]. by rewrite <-Hm. }
  intros [[v conn]|]; intros fs s [[Hs Hm] Hc]; [|done].
  apply (drop_orderly id conn). split; [done|]. exists v. by rewrite Hm.
Qed.

#[export] Instance configured_orderly target sql args : Orderly (configured_connection out keyring target sql args).
Proof. unfold configured_connection. apply _. Qed.

#[export] Instance probe_once_orderly run config : Orderly (probe_once out run config).
Proof.
  apply triple_pin. intros m. unfold probe_once. eapply triple_bind; [apply Dial_spare|]. intros conn.
  apply (triple_bind _ _ _ (fun _ => connections_ok (Some conn))).
  { eapply triple_attempt; [|done]. eapply triple_weaken; [apply (keeps_connections (Some conn)); apply _| |done|].
    - by intros s [[Hs _] _].
    - intros s Hs. exact Hs. }
  intros err. eapply triple_bind; [apply closeConnection_spare|]. intros []. by apply keeps_connections; apply _.
Qed.

#[export] Instance execute_probe_orderly run startedWall : Orderly (execute_probe out keyring span run startedWall).
Proof. unfold execute_probe. apply _. Qed.

#[export] Instance query_batch_orderly run : Orderly (query_batch out keyring run).
Proof. unfold query_batch. apply _. Qed.

#[export] Instance execute_query_orderly run startedWall : Orderly (execute_query out keyring span run startedWall).
Proof. unfold execute_query. cbv zeta. apply _. Qed.

#[export] Instance executeCapabilitySnapshot_orderly run : Orderly (executeCapabilitySnapshot out keyring run).
Proof. unfold executeCapabilitySnapshot. cbv zeta. apply _. Qed.

#[export] Instance executeTask_orderly run : Orderly (executeTask out keyring span run).
Proof. unfold executeTask, isCollectionPaused. cbv zeta. apply _. Qed.

#[export] Instance refreshCapabilitySnapshot_orderly target now : Orderly (refreshCapabilitySnapshot out keyring target now).
Proof. unfold refreshCapabilitySnapshot, loadCapabilitySnapshot. apply _. Qed.

#[export] Instance RunOnce_orderly : Orderly (RunOnce out keyring span).
Proof. unfold RunOnce, run_target_once, run_task_once. cbv zeta. apply _. Qed.

#[export] Instance trigger_orderly {A} target (use : nat -> DB Service A) :
  (forall conn, Orderly (use conn)) -> Orderly (WithTriggerSnapshotConnection out keyring target use).
Proof. intros Hu. unfold WithTriggerSnapshotConnection. apply _. Qed.

(** [Close] closes every connection that is still open. *)
Lemma Close_closes :
  triple (connections_ok None) Close
    (fun _ s => connections_ok None s /\ s_queryConnections s = ∅ /\
       forall n, (n < length (s_dialled s))%nat -> n ∈ s_closed s) (fun _ => False).
Proof.
  assert (forall l fs s, for_each (fun cached => closeConnection (cached_conn cached)) l fs s =
    (Ok tt, with_closed (list_to_set (cached_conn <$> l) ∪ s_closed s) s, fs)) as Hloop.
  { induction l as [|c l IH]; intros fs s; [simpl; rewrite union_empty_l_L; by destruct s|].
    simpl. unfold mbind, DB_bind. simpl. rewrite IH. f_equal. f_equal. unfold with_closed. cbn.
    f_equal. rewrite (assoc_L _). by rewrite (comm_L _ (list_to_set _)). }
  intros fs s Hs. unfold Close, closeQueryConnections, gets, modify, mbind, DB_bind. rewrite Hloop. simpl.
  assert (forall n, (n < length (s_dialled s))%nat -> n ∈ (list_to_set (cached_conn <$> (map_to_list (s_queryConnections s)).*2) ∪ s_closed s : gset nat)) as Hall.
  { intros n Hn. apply elem_of_union. destruct (accounted _ _ Hs n Hn) as [?|[?|(id&cached&Hid&<-)]]; [by right|done|].
    left. apply elem_of_list_to_set, list_elem_of_fmap. exists cached. split; [done|]. apply list_elem_of_fmap.
    exists (id, cached). split; [done|]. by apply elem_of_map_to_list. }
  split_and!; [|done|exact Hall]. split; simpl; [done|done|auto| |done].
  intros n [Hn|Hn]%elem_of_union; [|by apply (closed_dialled _ _ Hs)].
  apply elem_of_list_to_set, list_elem_of_fmap in Hn as (cached&->&([id c]&->&Hid)%list_elem_of_fmap).
  apply elem_of_map_to_list in Hid. destruct (cached_dialled _ _ Hs _ _ Hid) as [config Hd]. by apply lookup_lt_Some in Hd.
Qed.
End Connections.

(** * Properties *)

(** C4. Executing a task always ends with an outcome for that task and instance, and
    whatever the platform database, the monitored server, the deadline and the other
    writers do, its writes are those of its protocol: nothing for a paused instance,
    one capability snapshot, one refusal, or the start of the run followed by at most
    one outcome, which is repeated only after a partition repair. The result handed to
    the scheduler is the result that was written, a timeout is recorded as such, and
    a success carries only metrics the dictionary gives to the task. *)
Theorem executeTask_follows_protocol `{Crypto} (out : Outside) (keyring : CredentialKeyring) (span : Duration)
    (run : scheduledRun) (fs : list fate) (s : Service) :
  exists outcome s' fs' l,
    executeTask out keyring span run fs s = (Ok outcome, s', fs') /\
    outcome_of run outcome /\
    trace (out_others out) l (s_tables s) (s_tables s') /\
    execution run l (outcome_result outcome) (outcome_ok outcome).
Proof.
  destruct (executeTask out keyring span run fs s) as [[[outcome|e] s'] fs'] eqn:E;
    destruct (executeTask_performs out keyring span run fs s _ s' fs' E) as (l&Ht&Hr); [|done].
  destruct Hr as [Ho Hx]. by exists outcome, s', fs', l.
Qed.

(** While the collection of an instance is paused, or the instance is removed, and
    the other writers leave it so, executing one of its tasks writes nothing but
    sample partitions: every change of the tables is that of the others. *)
Theorem executeTask_spares_inactive `{Crypto} (out : Outside) (keyring : CredentialKeyring) (span : Duration)
    (run : scheduledRun) (fs : list fate) (s : Service) :
  ~ is_active (target_ID (run_target run)) (s_tables s) ->
  (forall n t, ~ is_active (target_ID (run_target run)) t ->
     ~ is_active (target_ID (run_target run)) (out_others out n t)) ->
  exists l, Forall is_repair l /\
    trace (out_others out) l (s_tables s) (s_tables (tables_after (executeTask out keyring span run) fs s)).
Proof.
  intros Hi Hothers. unfold tables_after.
  destruct (executeTask out keyring span run fs s) as [[[outcome|e] s'] fs'] eqn:E;
    destruct (executeTask_performs out keyring span run fs s _ s' fs' E) as (l&Ht&Hr); [|done].
  destruct Hr as [_ Hx]. apply execution_instance in Hx.
  destruct (inactive_trace out _ _ _ _ Hothers Ht Hx Hi) as (l'&?&?&_). by exists l'.
Qed.

(** The service at work: one call after the other, each with its own faults; the
    queries of a trigger snapshot are given by the outside. *)
Inductive service_step `{Crypto} (out : Outside) (keyring : CredentialKeyring) (span : Duration) : Service -> Service -> Prop :=
  | step_run_once fs s : service_step out keyring span s (tables_after (RunOnce out keyring span) fs s)
  | step_execute run fs s : service_step out keyring span s (tables_after (executeTask out keyring span run) fs s)
  | step_trigger target sql args fs s :
      service_step out keyring span s
        (tables_after (WithTriggerSnapshotConnection out keyring target (fun conn => Scan out conn sql args)) fs s)
  | step_close fs s : service_step out keyring span s (tables_after Close fs s).

Lemma orderly_after {A} (m : DB Service A) `{!Orderly m} fs s :
  connections_ok None s -> connections_ok None (tables_after m fs s).
Proof. intros Hs. apply (triple_tables (connections_ok None)); [exact orderly|done]. Qed.

Lemma new_connections_ok config tables secrets health s :
  NewWithConfig config tables secrets health = Ok s -> connections_ok None s.
Proof.
  unfold NewWithConfig. destruct (Validate config); [|done]. intros [= <-]. split; simpl; try done.
  intros n Hn. lia.
Qed.

Lemma reachable_connections_ok `{Crypto} out keyring span s s' :
  connections_ok None s -> rtc (service_step out keyring span) s s' -> connections_ok None s'.
Proof.
  intros Hs Hr. induction Hr as [s|s s1 s' Hstep _ IH]; [done|]. apply IH. destruct Hstep.
  - by apply orderly_after; [apply _|].
  - by apply orderly_after; [apply _|].
  - apply orderly_after; [|done]. apply trigger_orderly. intros conn. apply keeps_orderly. apply _.
  - pose proof (Close_closes fs s Hs) as Hc. unfold tables_after. by destruct (Close fs s) as [[[]] fs1]; [destruct Hc|].
Qed.

(** C10. Whatever the service has done, with whatever faults and answers: the open
    connections to monitored servers are exactly the cached ones, one per instance at
    most; a task or a trigger snapshot that asks for a connection gets an open one
    that was dialled for this instance with this version of its credential; and
    [Close] leaves none open. *)
Theorem query_connections_in_order `{Crypto} (out : Outside) (keyring : CredentialKeyring) (span : Duration) (config : Config)
    (tables : Tables) (secrets : World) (health : option Store) (start s : Service) :
  NewWithConfig config tables secrets health = Ok start -> rtc (service_step out keyring span) start s ->
  (forall n, (n < length (s_dialled s))%nat ->
     (n ∉ s_closed s) <-> exists id v config, s_queryConnections s !! id = Some (MkCached v n) /\ s_dialled s !! n = Some (id, v, config)) /\
  (forall target fs conn s' fs', acquireQueryConnection out keyring target fs s = (Ok conn, s', fs') ->
     (conn ∉ s_closed s') /\
     exists config, s_dialled s' !! conn = Some (target_ID target, target_CredentialVersion target, config)) /\
  (forall fs, let s' := tables_after Close fs s in
     s_queryConnections s' = ∅ /\ forall n, (n < length (s_dialled s'))%nat -> n ∈ s_closed s').
Proof.
  intros Hnew Hr. apply new_connections_ok in Hnew. apply (reachable_connections_ok _ _ _ _ _ Hnew) in Hr as Hs. split_and!.
  - intros n Hn. split.
    + intros Ho. destruct (accounted _ _ Hs n Hn) as [?|[?|(id&[v c]&Hid&<-)]]; [done|done|].
      destruct (cached_dialled _ _ Hs _ _ Hid) as [cfg Hd]. by exists id, v, cfg.
    + intros (id&v&cfg&Hid&_). exact (cached_open _ _ Hs _ _ Hid).
  - intros target fs conn s' fs' Ha. pose proof (acquire_acquired out keyring target fs s Hs) as Hq. rewrite Ha in Hq.
    destruct Hq as [Hs' Hid]. split; [exact (cached_open _ _ Hs' _ _ Hid)|]. exact (cached_dialled _ _ Hs' _ _ Hid).
  - intros fs. pose proof (Close_closes fs s Hs) as Hc. unfold tables_after.
    destruct (Close fs s) as [[[u|e] s'] fs']; [|done]. by destruct Hc as (_&?&?).
Qed.

(** * Witnesses *)

Module ServiceDemo.
(** A monitored server that answers everything, and nobody else at the platform
    database. *)
Definition outside : Outside := {|
  out_clock n := Z.of_nat n * Second;
  out_wall n := Z.of_nat n * Second;
  out_Dial n config := None;
  out_IsClosed n conn := false;
  out_Expired n := false;
  out_Scan n conn sql args := None;
  out_Probe n conn sql := Ok true;
  out_Activity n conn sql := Err ErrEOF;
  out_Database n conn sql := Ok [];
  out_Rows n conn sql := Ok [];
  out_Statistics n conn sql := Ok [];
  out_DiskUsage n path := Err (ErrNew "no disk");
  out_DatabaseSize n := 0;
  out_others n t := t;
|}.

Definition target : ListCollectionTargetsRow :=
  MkTarget "i1" "db" 5432 None "monitor" (bytes_of CredentialsDemo.envelope.1) CredentialsDemo.envelope.2 7.
Definition tables (paused : bool) : Tables :=
  MkTables {["i1" := target]} {["i1" := paused]} ∅ {[("i1", TaskProbe) := newTaskState]} ∅ ∅ ∅ ∅
    (MkSampleStore ∅ []) ∅ ∅ ∅ ∅ ∅ ∅ ∅.
Definition service (paused : bool) : Service :=
  MkService (tables paused) CredentialsDemo.start None []
    (MkMonitors EmptyString DefaultDiskThresholds false None DefaultDiskThresholds) 0 ∅ ∅ 0 newStatDatabaseRateState [] ∅.
Definition task (id : TaskID) : Task := default capabilitySnapshotTask (list_find (fun t => task_ID t = id) Tasks ≫= fun p => Some p.2).
Definition run (id : TaskID) : scheduledRun := newScheduledRun target (task id) 0 0.
Definition execute (id : TaskID) (paused : bool) :=
  executeTask (H := CredentialsDemo.crypto) outside CredentialsDemo.keyring (24 * Hour) (run id) [] (service paused).

(** A probe of an active instance is recorded as a success, with its samples and a
    partition made for them; its connection is closed. *)
Example probe_succeeds :
  match execute TaskProbe false with
  | (Ok outcome, s, _) =>
      outcome_result outcome = resultSuccess /\ outcome_err outcome = None /\
      (t_task_state (s_tables s) !! ("i1", TaskProbe)) ≫= last_result = Some resultSuccess /\
      length (sample_rows (t_samples (s_tables s))) = 2%nat /\ s_closed s = {[0%nat]}
  | _ => False
  end.
Proof. vm_compute. done. Qed.
End ServiceDemo.

Lemma executeTask_spares_inactive_witness :
  exists l, Forall is_repair l /\
    trace (fun _ t => t) l (ServiceDemo.tables true) (s_tables (ServiceDemo.execute TaskProbe true).1.2).
Proof.
  apply (executeTask_spares_inactive (H := CredentialsDemo.crypto) ServiceDemo.outside CredentialsDemo.keyring (24 * Hour)
    (ServiceDemo.run TaskProbe) [] (ServiceDemo.service true)).
  - intros [_ Hp]. vm_compute in Hp. discriminate.
  - intros n t Ht. exact Ht.
Defined.

Lemma query_connections_in_order_witness :
  let s := (ServiceDemo.execute TaskRole false).1.2 in
  s_queryConnections (tables_after Close [] s) = ∅ /\
  forall n, (n < length (s_dialled (tables_after Close [] s)))%nat -> n ∈ s_closed (tables_after Close [] s).
Proof.
  destruct (query_connections_in_order (H := CredentialsDemo.crypto) ServiceDemo.outside CredentialsDemo.keyring (24 * Hour)
    DefaultConfig (ServiceDemo.tables false) CredentialsDemo.start None (ServiceDemo.service false)
    (ServiceDemo.execute TaskRole false).1.2) as (_&_&Hc).
  - reflexivity.
  - eapply rtc_once. exact (step_execute (H := CredentialsDemo.crypto) ServiceDemo.outside CredentialsDemo.keyring (24 * Hour)
      (ServiceDemo.run TaskRole) [] (ServiceDemo.service false)).
  - exact (Hc []).
Defined.

Lemma executeTask_follows_protocol_witness :
  exists outcome s' fs' l,
    ServiceDemo.execute TaskProbe false = (Ok outcome, s', fs') /\ outcome_of (ServiceDemo.run TaskProbe) outcome /\
    trace (fun _ t => t) l (ServiceDemo.tables false) (s_tables s') /\
    execution (ServiceDemo.run TaskProbe) l (outcome_result outcome) (outcome_ok outcome).
Proof.
  exact (executeTask_follows_protocol (H := CredentialsDemo.crypto) ServiceDemo.outside CredentialsDemo.keyring (24 * Hour)
    (ServiceDemo.run TaskProbe) [] (ServiceDemo.service false)).
Defined.
