(* ===== verification/AlertRuleQueries.v ===== *)
(** The tables of alert rules and the statements of [internal/alerting/queries.sql.go]
    that administer them. The columns the evaluator reads are in [EvalTables]; this
    file adds attribution, templates and the names of notification policies, and the
    built-in rules and templates of [internal/alerting/builtins.go] with their seeding
    ([migrations/alerting_seed.go]). *)

From S2P Require Import Prelude Db Text Dictionary Catalog AlertState AlertEvaluation Notify Evaluator.

(** * Rows *)

(** The columns of [alert_rule] that [Notify.AlertRule] leaves out. *)
Record RuleMeta : Type := MkRuleMeta {
  meta_CreatedAt : Time;
  meta_UpdatedAt : Time;
  meta_EnabledUpdatedBy : option string;
  meta_EnabledUpdatedAt : option Time;
  meta_BuiltinIdentifier : option string;
  meta_SourceTemplateID : option string;
  meta_SourceTemplateVersion : option Z;
  meta_CreatedBy : option string;
  meta_UpdatedBy : option string;
  meta_DeletedBy : option string;
}.

(** A row as the statements return it. *)
Record RuleRow : Type := MkRuleRow {
  row_ID : string;
  row_Rule : AlertRule;
  row_Meta : RuleMeta;
}.

Definition row_builtin (row : RuleRow) : bool := bool_decide (is_Some (meta_BuiltinIdentifier (row_Meta row))).

Record AlertRuleTemplate : Type := MkTemplate {
  tpl_Identifier : string;
  tpl_Version : Z;
  tpl_Name : string;
  tpl_MetricID : string;
  tpl_Engine : string;
  tpl_SemanticSlot : option string;
  tpl_Aggregation : string;
  tpl_Operator : string;
  tpl_Threshold : float64;
  tpl_RecoveryOperator : string;
  tpl_RecoveryThreshold : float64;
  tpl_WindowSeconds : Z;
  tpl_ConsecutiveCount : Z;
  tpl_RecoveryConsecutiveCount : Z;
  tpl_Severity : string;
  tpl_NoDataPolicy : string;
  tpl_EvaluationIntervalSeconds : Z;
}.

Record RuleTables : Type := MkRuleTables {
  rt_eval : EvalTables;
  rt_meta : gmap string RuleMeta;
  rt_template : gmap string AlertRuleTemplate;
  rt_policy_name : gmap string string;
}.

Definition rt_rule (t : RuleTables) : gmap string AlertRule := n_rule (e_notify (rt_eval t)).
Definition rt_version (t : RuleTables) : gmap (string * Z) jsonb := e_rule_version (rt_eval t).
Definition rt_scope (t : RuleTables) : list (string * string) := e_scope (rt_eval t).

Definition set_rule (m : gmap string AlertRule) (t : NotifyTables) : NotifyTables :=
  MkNotifyTables (n_alert t) (n_event t) m (n_identity t) (n_policy t) (n_policy_channel t) (n_policy_contact t)
    (n_policy_contact_group t) (n_group_member t) (n_contact_email t) (n_smtp t) (n_webhook t) (n_window t)
    (n_window_instance t) (n_delivery t) (n_attempt t) (n_issued t) (n_outbox t).

Definition with_rules (m : gmap string AlertRule) (meta : gmap string RuleMeta) (t : RuleTables) : RuleTables :=
  MkRuleTables (alter_notify (set_rule m) (rt_eval t)) meta (rt_template t) (rt_policy_name t).

Definition with_versions (m : gmap (string * Z) jsonb) (t : RuleTables) : RuleTables :=
  let e := rt_eval t in
  MkRuleTables (MkEvalTables (e_notify e) (e_instance e) (e_config e) (e_source e) m (e_catalog e) (e_scope e)
    (e_evaluated e) (e_series e) (e_sample e) (e_trigger_snapshot e) (e_trigger_session e) (e_performance_event e))
    (rt_meta t) (rt_template t) (rt_policy_name t).

Definition with_scope (l : list (string * string)) (t : RuleTables) : RuleTables :=
  let e := rt_eval t in
  MkRuleTables (MkEvalTables (e_notify e) (e_instance e) (e_config e) (e_source e) (e_rule_version e) (e_catalog e) l
    (e_evaluated e) (e_series e) (e_sample e) (e_trigger_snapshot e) (e_trigger_session e) (e_performance_event e))
    (rt_meta t) (rt_template t) (rt_policy_name t).

Definition with_templates (m : gmap string AlertRuleTemplate) (t : RuleTables) : RuleTables :=
  MkRuleTables (rt_eval t) (rt_meta t) m (rt_policy_name t).

(** * Constraints *)

Definition aggregations : list string := ["latest"; "avg"; "max"; "min"; "sum"; "count"].
Definition operators : list string := [">"; ">="; "<"; "<="; "="; "!="].

(** The CHECK constraints of [alert_rule] on what the statements write. *)
Definition rule_checked (r : AlertRule) : bool :=
  negb (bool_decide (rule_Name r = EmptyString)) &&
  bool_decide (rule_Aggregation r ∈ aggregations) && bool_decide (rule_Operator r ∈ operators) &&
  bool_decide (rule_RecoveryOperator r ∈ operators) && (0 <? rule_WindowSeconds r) && (0 <? rule_ConsecutiveCount r) &&
  (0 <? rule_RecoveryConsecutiveCount r) && bool_decide (rule_Severity r ∈ ["critical"; "warning"; "info"]) &&
  bool_decide (rule_NoDataPolicy r ∈ ["ignore"; "mark_no_data"]) && bool_decide (rule_Scope r ∈ ["ALL"; "INSTANCES"]) &&
  (5 <=? rule_EvaluationIntervalSeconds r).

(** A row that violates a CHECK, or names a policy that does not exist. *)
Definition rule_fault (t : RuleTables) (r : AlertRule) : option error :=
  if negb (rule_checked r) then Some (ErrPg "23514")
  else
    match rule_NotificationPolicyID r with
    | Some policy => match n_policy (e_notify (rt_eval t)) !! policy with Some _ => None | None => Some (ErrPg "23503") end
    | None => None
    end.

(** * Statements *)

Definition rule_row (t : RuleTables) (id : string) : option RuleRow :=
  rule ← rt_rule t !! id;
  meta ← rt_meta t !! id;
  if bool_decide (rule_DeletedAt rule = None) then Some (MkRuleRow id rule meta) else None.

Definition GetAlertRule (id : string) : DB RuleTables RuleRow :=
  statement (fun t => match rule_row t id with Some row => Ok (row, t) | None => Err ErrNoRows end).

(** [ORDER BY created_at, id] *)
Definition ruleRowLess (a b : RuleRow) : bool :=
  (meta_CreatedAt (row_Meta a) <? meta_CreatedAt (row_Meta b)) ||
  ((meta_CreatedAt (row_Meta a) =? meta_CreatedAt (row_Meta b)) && string_ltb (row_ID a) (row_ID b)).

Definition ListAlertRules : DB RuleTables (list RuleRow) :=
  query (fun t => sort_by ruleRowLess (omap (rule_row t) (map_to_list (rt_rule t)).*1)).

Definition ListAlertRuleScopeInstances (ruleID : string) : DB RuleTables (list string) :=
  query (fun t => sort_by string_ltb (map snd (filter (fun entry => entry.1 = ruleID) (rt_scope t)))).

Definition GetAlertRuleTemplate (identifier : string) : DB RuleTables AlertRuleTemplate :=
  statement (fun t => match rt_template t !! identifier with Some tpl => Ok (tpl, t) | None => Err ErrNoRows end).

Definition ListAlertRuleTemplates : DB RuleTables (list AlertRuleTemplate) :=
  query (fun t => sort_by (fun a b => string_ltb (tpl_Identifier a) (tpl_Identifier b)) (map_to_list (rt_template t)).*2).

(** [GetNotificationPolicy] and [GetDefaultNotificationPolicy]: the policy's name. *)
Definition GetNotificationPolicy (id : string) : DB RuleTables string :=
  statement (fun t =>
    match n_policy (e_notify (rt_eval t)) !! id, rt_policy_name t !! id with
    | Some _, Some name => Ok (name, t)
    | _, _ => Err ErrNoRows
    end).

Definition GetDefaultNotificationPolicy : DB RuleTables string :=
  statement (fun t =>
    match list_find (fun entry => IsDefault entry.2 = true) (map_to_list (n_policy (e_notify (rt_eval t)))) with
    | Some (_, (id, _)) => match rt_policy_name t !! id with Some name => Ok (name, t) | None => Err ErrNoRows end
    | None => Err ErrNoRows
    end).

(** [GetAlertRuleStats]: the last first trigger, and the alerts that are firing or
    without data. *)
Definition GetAlertRuleStats (ruleID : string) : DB RuleTables (option Time * Z) :=
  query (fun t =>
    let alerts := filter (fun a => ai_RuleID a = ruleID) (map_to_list (n_alert (e_notify (rt_eval t)))).*2 in
    (foldr (fun a latest => match ai_FirstTriggeredAt a, latest with
                            | Some at_, Some l => Some (Z.max at_ l) | Some at_, None => Some at_ | None, l => l end) None alerts,
     Z.of_nat (length (filter (fun a => ai_Status a = FIRING \/ ai_Status a = NO_DATA) alerts)))).

Definition GetAlertRuleTargetInstance (id : string) : DB RuleTables (string * Engine) :=
  statement (fun t =>
    match e_instance (rt_eval t) !! id with
    | Some inst => Ok ((inst_Name inst, inst_Engine inst), t) | None => Err ErrNoRows end).

(** The row goes in with version 1 and the same attribution for both timestamps. *)
Definition CreateAlertRule (id : string) (rule : AlertRule) (actorID : string) (at_ : Time)
    (sourceTemplateID : option string) (sourceTemplateVersion : option Z) : DB RuleTables RuleRow :=
  statement (fun t =>
    match rt_rule t !! id, rule_fault t rule with
    | Some _, _ => Err (ErrPg "23505")
    | None, Some e => Err e
    | None, None =>
        let meta := MkRuleMeta (timestamptz at_) (timestamptz at_) None None None sourceTemplateID sourceTemplateVersion
                      (Some actorID) (Some actorID) None in
        let row := MkRuleRow id rule meta in
        Ok (row, with_rules (<[id := rule]> (rt_rule t)) (<[id := meta]> (rt_meta t)) t)
    end).

(** The columns an update sets, next to those it keeps. *)
Definition updated_rule (old new : AlertRule) : AlertRule :=
  MkAlertRule (rule_Name new) (rule_MetricID new) (rule_Aggregation new) (rule_Operator new) (rule_Threshold new)
    (rule_RecoveryOperator new) (rule_RecoveryThreshold new) (rule_WindowSeconds new) (rule_ConsecutiveCount new)
    (rule_RecoveryConsecutiveCount new) (rule_Severity new) (rule_NoDataPolicy new) (rule_Version old + 1)
    (rule_Enabled old) (rule_DeletedAt old) (rule_Scope new) (rule_EvaluationIntervalSeconds new)
    (rule_NotificationPolicyID new).

Definition updated_meta (old : RuleMeta) (actorID : string) (at_ : Time) : RuleMeta :=
  MkRuleMeta (meta_CreatedAt old) (timestamptz at_) (meta_EnabledUpdatedBy old) (meta_EnabledUpdatedAt old)
    (meta_BuiltinIdentifier old) (meta_SourceTemplateID old) (meta_SourceTemplateVersion old) (meta_CreatedBy old)
    (Some actorID) (meta_DeletedBy old).

(** [version + 1] of an [integer] column. *)
Definition UpdateAlertRule (id : string) (new : AlertRule) (actorID : string) (at_ : Time) : DB RuleTables RuleRow :=
  statement (fun t =>
    match rule_row t id with
    | None => Err ErrNoRows
    | Some old =>
        let rule := updated_rule (row_Rule old) new in
        let meta := updated_meta (row_Meta old) actorID at_ in
        if 2 ^ 31 <=? rule_Version rule then Err (ErrPg "22003")
        else
          match rule_fault t rule with
          | Some e => Err e
          | None => Ok (MkRuleRow id rule meta, with_rules (<[id := rule]> (rt_rule t)) (<[id := meta]> (rt_meta t)) t)
          end
    end).

Definition set_enabled (enabled : bool) (deletedAt : option Time) (r : AlertRule) : AlertRule :=
  MkAlertRule (rule_Name r) (rule_MetricID r) (rule_Aggregation r) (rule_Operator r) (rule_Threshold r)
    (rule_RecoveryOperator r) (rule_RecoveryThreshold r) (rule_WindowSeconds r) (rule_ConsecutiveCount r)
    (rule_RecoveryConsecutiveCount r) (rule_Severity r) (rule_NoDataPolicy r) (rule_Version r) enabled deletedAt
    (rule_Scope r) (rule_EvaluationIntervalSeconds r) (rule_NotificationPolicyID r).

Definition SetAlertRuleEnabled (id : string) (enabled : bool) (actorID : string) (at_ : Time) : DB RuleTables RuleRow :=
  statement (fun t =>
    match rule_row t id with
    | None => Err ErrNoRows
    | Some (MkRuleRow _ old m) =>
        let rule := set_enabled enabled (rule_DeletedAt old) old in
        let meta := MkRuleMeta (meta_CreatedAt m) (meta_UpdatedAt m) (Some actorID) (Some (timestamptz at_))
                      (meta_BuiltinIdentifier m) (meta_SourceTemplateID m) (meta_SourceTemplateVersion m)
                      (meta_CreatedBy m) (meta_UpdatedBy m) (meta_DeletedBy m) in
        Ok (MkRuleRow id rule meta, with_rules (<[id := rule]> (rt_rule t)) (<[id := meta]> (rt_meta t)) t)
    end).

(** [UPDATE ... WHERE id = $1 AND builtin_identifier IS NULL AND deleted_at IS NULL RETURNING id] *)
Definition DeleteAlertRule (id : string) (actorID : string) (deletedAt : Time) : DB RuleTables string :=
  statement (fun t =>
    match rule_row t id with
    | None => Err ErrNoRows
    | Some (MkRuleRow _ old m) =>
        if bool_decide (is_Some (meta_BuiltinIdentifier m)) then Err ErrNoRows
        else
          let meta := MkRuleMeta (meta_CreatedAt m) (meta_UpdatedAt m) (meta_EnabledUpdatedBy m) (meta_EnabledUpdatedAt m)
                        (meta_BuiltinIdentifier m) (meta_SourceTemplateID m) (meta_SourceTemplateVersion m)
                        (meta_CreatedBy m) (meta_UpdatedBy m) (Some actorID) in
          Ok (id, with_rules (<[id := set_enabled false (Some (timestamptz deletedAt)) old]> (rt_rule t))
                    (<[id := meta]> (rt_meta t)) t)
    end).

(** The attribution of a version is left out. *)
Definition CreateAlertRuleVersion (ruleID : string) (version : Z) (snapshot : jsonb) : DB RuleTables unit :=
  statement (fun t =>
    match rt_version t !! (ruleID, version), rt_rule t !! ruleID with
    | Some _, _ => Err (ErrPg "23505")
    | None, None => Err (ErrPg "23503")
    | None, Some _ =>
        if version <=? 0 then Err (ErrPg "23514")
        else Ok (tt, with_versions (<[(ruleID, version) := snapshot]> (rt_version t)) t)
    end).

Definition DeleteAlertRuleScopeInstances (ruleID : string) : DB RuleTables unit :=
  exec (fun t => with_scope (filter (fun entry => entry.1 <> ruleID) (rt_scope t)) t).

Definition AddAlertRuleScopeInstance (ruleID instanceID : string) : DB RuleTables unit :=
  statement (fun t =>
    if bool_decide ((ruleID, instanceID) ∈ rt_scope t) then Err (ErrPg "23505")
    else
      match rt_rule t !! ruleID, e_instance (rt_eval t) !! instanceID with
      | Some _, Some _ => Ok (tt, with_scope (rt_scope t ++ [(ruleID, instanceID)]) t)
      | _, _ => Err (ErrPg "23503")
      end).

(** * Built-in rules and templates *)

Record BuiltinRule : Type := MkBuiltinRule {
  br_ID : string;
  br_Identifier : string;
  br_Name : string;
  br_MetricID : string;
  br_Aggregation : string;
  br_Operator : string;
  br_Threshold : float64;
  br_RecoveryOperator : string;
  br_RecoveryThreshold : float64;
  br_WindowSeconds : Z;
  br_ConsecutiveCount : Z;
  br_RecoveryConsecutiveCount : Z;
  br_Severity : string;
  br_NoDataPolicy : string;
  br_EvaluationIntervalSeconds : Z;
  br_Enabled : bool;
}.

Definition BuiltinCollectionRules : list BuiltinRule := [
  MkBuiltinRule "00000000-0000-0000-0000-000000063001" "database_unreachable" "数据库不可达"
    "pg.availability.reachable" "latest" "=" (f64_of_Z 0) "=" (f64_of_Z 1) 30 3 3 "critical" "mark_no_data" 30 true;
  MkBuiltinRule "00000000-0000-0000-0000-000000063002" "agent_offline" "Agent 离线"
    "agent.status" "latest" "=" (f64_of_Z 0) "=" (f64_of_Z 1) 30 3 3 "critical" "mark_no_data" 30 true;
  MkBuiltinRule "00000000-0000-0000-0000-000000063003" "data_stale" "数据过期"
    "collector.last_success_time" "latest" ">" (f64_of_Z 600) "<" (f64_of_Z 450) 60 2 2 "warning" "mark_no_data" 60 true].

Definition DefaultNotificationPolicyID : string := "00000000-0000-0000-0000-000000063000".
Definition DefaultNotificationPolicyName : string := "默认策略".

(** [RuleTemplate] in the columns of [alert_rule_template]: an empty slot is NULL. *)
Definition BuiltinRuleTemplates : list AlertRuleTemplate := [
  MkTemplate "probe_latency_high" 1 "探针延迟过高"
    "pg.probe.latency_ms" "POSTGRESQL" (Some "probe_latency") "avg" ">=" (f64_of_Z 500) "<=" (f64_of_Z 300) 30 3 3 "warning" "mark_no_data" 30;
  MkTemplate "cpu_high" 1 "CPU 高"
    "host.cpu.usage_percent" "AGNOSTIC" None "avg" ">=" (f64_of_Z 80) "<=" (f64_of_Z 70) 60 5 5 "warning" "mark_no_data" 60;
  MkTemplate "memory_high" 1 "内存高"
    "host.memory.usage_percent" "AGNOSTIC" None "avg" ">=" (f64_of_Z 85) "<=" (f64_of_Z 75) 60 5 5 "warning" "mark_no_data" 60;
  MkTemplate "disk_usage_high" 1 "磁盘使用率高"
    "host.disk.usage_percent" "AGNOSTIC" None "latest" ">=" (f64_of_Z 90) "<=" (f64_of_Z 85) 60 3 3 "critical" "mark_no_data" 60;
  MkTemplate "connections_high" 1 "连接数过高"
    "pg.connection.total" "POSTGRESQL" (Some "connections") "max" ">=" (f64_of_Z 500) "<=" (f64_of_Z 400) 30 3 3 "warning" "mark_no_data" 30;
  MkTemplate "active_connections_high" 1 "活跃连接数过高"
    "pg.connection.active" "POSTGRESQL" None "max" ">=" (f64_of_Z 100) "<=" (f64_of_Z 80) 30 3 3 "warning" "mark_no_data" 30;
  MkTemplate "idle_in_transaction_high" 1 "idle in transaction 过多"
    "pg.connection.idle_in_transaction" "POSTGRESQL" None "latest" ">=" (f64_of_Z 10) "<=" (f64_of_Z 5) 30 3 3 "warning" "mark_no_data" 30;
  MkTemplate "long_transaction" 1 "长事务"
    "pg.transaction.max_duration_sec" "POSTGRESQL" None "max" ">=" (f64_of_Z 300) "<=" (f64_of_Z 60) 30 2 2 "warning" "mark_no_data" 30;
  MkTemplate "lock_waiting" 1 "锁等待"
    "pg.lock.waiting_count" "POSTGRESQL" None "latest" ">" (f64_of_Z 0) "=" (f64_of_Z 0) 30 3 3 "warning" "mark_no_data" 30;
  MkTemplate "blocked_sessions" 1 "阻塞会话"
    "pg.session.blocked_count" "POSTGRESQL" None "latest" ">" (f64_of_Z 0) "=" (f64_of_Z 0) 30 3 3 "critical" "mark_no_data" 30;
  MkTemplate "long_queries_high" 1 "长查询数量过多"
    "pg.query.long_running_count" "POSTGRESQL" None "latest" ">=" (f64_of_Z 5) "<=" (f64_of_Z 2) 30 3 3 "warning" "mark_no_data" 30;
  MkTemplate "replication_wal_lag" 1 "复制延迟（WAL 字节）"
    "pg.replication.wal_lag_bytes" "POSTGRESQL" None "avg" ">=" (f64_of_Z 104857600) "<=" (f64_of_Z 52428800) 60 3 3 "warning" "mark_no_data" 60;
  MkTemplate "replication_slot_backlog" 1 "Slot 积压"
    "pg.replication_slot.retained_wal_bytes" "POSTGRESQL" None "latest" ">=" (f64_of_Z 1073741824) "<=" (f64_of_Z 536870912) 60 3 3 "warning" "mark_no_data" 60;
  MkTemplate "temp_bytes_high" 1 "临时文件写入过高"
    "pg.temp.bytes_per_sec" "POSTGRESQL" None "avg" ">=" (f64_of_Z 10485760) "<=" (f64_of_Z 5242880) 60 5 5 "warning" "mark_no_data" 60;
  MkTemplate "prepared_xacts" 1 "2PC 数量异常"
    "pg.prepared_xacts.count" "POSTGRESQL" None "latest" ">" (f64_of_Z 0) "=" (f64_of_Z 0) 60 3 3 "info" "mark_no_data" 60].

(** * Seeding *)

#[export] Instance NotificationPolicyChannel_eq_dec : EqDecision NotificationPolicyChannel.
Proof. solve_decision. Defined.

Definition set_policy (m : gmap string NotificationPolicy) (channels : list NotificationPolicyChannel) (t : NotifyTables) : NotifyTables :=
  MkNotifyTables (n_alert t) (n_event t) (n_rule t) (n_identity t) m channels (n_policy_contact t)
    (n_policy_contact_group t) (n_group_member t) (n_contact_email t) (n_smtp t) (n_webhook t) (n_window t)
    (n_window_instance t) (n_delivery t) (n_attempt t) (n_issued t) (n_outbox t).

Definition with_policies (m : gmap string NotificationPolicy) (channels : list NotificationPolicyChannel)
    (names : gmap string string) (t : RuleTables) : RuleTables :=
  MkRuleTables (alter_notify (set_policy m channels) (rt_eval t)) (rt_meta t) (rt_template t) names.

Definition default_policies (t : RuleTables) : list string :=
  (filter (fun entry => IsDefault entry.2 = true) (map_to_list (n_policy (e_notify (rt_eval t))))).*1.

Section Seed.
(** [to_jsonb(alert_rule) || ...] of a seeded rule under the default policy's name. *)
Context (seed_snapshot : RuleRow -> string -> jsonb).

(** [ON CONFLICT DO NOTHING]: the id is taken, or there is a default already; the
    identifier of any other policy is its id. *)
Definition seed_policy : DB RuleTables unit :=
  exec (fun t =>
    let n := e_notify (rt_eval t) in
    if bool_decide (is_Some (n_policy n !! DefaultNotificationPolicyID)) || negb (bool_decide (default_policies t = [])) then t
    else with_policies (<[DefaultNotificationPolicyID := MkNotificationPolicy true ["critical"; "warning"; "info"] true true 3600]> (n_policy n))
           (n_policy_channel n) (<[DefaultNotificationPolicyID := DefaultNotificationPolicyName]> (rt_policy_name t)) t).

Definition seed_channel : DB RuleTables unit :=
  exec (fun t =>
    let n := e_notify (rt_eval t) in
    let missing := filter (fun id => MkNotificationPolicyChannel id "SMTP" None ∉ n_policy_channel n) (default_policies t) in
    with_policies (n_policy n) (n_policy_channel n ++ map (fun id => MkNotificationPolicyChannel id "SMTP" None) missing)
      (rt_policy_name t) t).

Definition builtin_row (now : Time) (b : BuiltinRule) : AlertRule * RuleMeta :=
  (MkAlertRule (br_Name b) (br_MetricID b) (br_Aggregation b) (br_Operator b) (br_Threshold b) (br_RecoveryOperator b)
     (br_RecoveryThreshold b) (br_WindowSeconds b) (br_ConsecutiveCount b) (br_RecoveryConsecutiveCount b) (br_Severity b)
     (br_NoDataPolicy b) 1 (br_Enabled b) None "ALL" (br_EvaluationIntervalSeconds b) None,
   MkRuleMeta (timestamptz now) (timestamptz now) None None (Some (br_Identifier b)) None None None None None).

Definition builtin_taken (t : RuleTables) (b : BuiltinRule) : bool :=
  bool_decide (is_Some (rt_rule t !! br_ID b)) ||
  existsb (fun entry => bool_decide (meta_BuiltinIdentifier entry.2 = Some (br_Identifier b))) (map_to_list (rt_meta t)).

Definition seed_rule (now : Time) (policyName : string) (b : BuiltinRule) : DB RuleTables unit :=
  let '(rule, meta) := builtin_row now b in
  _ ← wrap "seed built-in alert rule" (statement (fun t =>
    if builtin_taken t b then Ok (tt, t)
    else if rule_checked rule
    then Ok (tt, with_rules (<[br_ID b := rule]> (rt_rule t)) (<[br_ID b := meta]> (rt_meta t)) t)
    else Err (ErrPg "23514")));
  wrap "seed built-in alert rule version" (exec (fun t =>
    match rt_rule t !! br_ID b, rt_meta t !! br_ID b with
    | Some rule, Some meta =>
        match rt_version t !! (br_ID b, rule_Version rule) with
        | Some _ => t
        | None => with_versions (<[(br_ID b, rule_Version rule) := seed_snapshot (MkRuleRow (br_ID b) rule meta) policyName]> (rt_version t)) t
        end
    | _, _ => t
    end)).

Definition reconcileAlertingSeeds (now : Time) : DB RuleTables unit :=
  InTx (
    _ ← wrap "seed default notification policy" seed_policy;
    _ ← wrap "seed default notification policy channel" seed_channel;
    policyName ← wrap "read default notification policy" GetDefaultNotificationPolicy;
    _ ← for_each (seed_rule now policyName) BuiltinCollectionRules;
    _ ← wrap "replace alert rule templates" (exec (with_templates ∅));
    for_each (fun template => wrap "seed alert rule template" (statement (fun t =>
      match rt_template t !! tpl_Identifier template with
      | Some _ => Err (ErrPg "23505")
      | None => Ok (tt, with_templates (<[tpl_Identifier template := template]> (rt_template t)) t)
      end))) BuiltinRuleTemplates).
End Seed.
