(* ===== verification/AlertRules.v ===== *)
(** The alert rule handlers of the HTTP API ([internal/httpapi/alert_rules.go]) with
    the validation of rules and the protection of built-in ones
    ([internal/alerting/builtins.go]). *)

From S2P Require Import Prelude Float64 Db Text Dictionary Catalog ControlPlane AlertState AlertEvaluation Notify Evaluator.
From S2P Require Import Responses AlertRuleQueries.

(** * Requests and responses *)

Definition alertRuleValidationError (fieldErrors : list fieldError) : APIError :=
  validationErrorBody "alert rule validation failed" fieldErrors.

Record AlertRuleInput : Type := MkRuleInput {
  in_Name : string;
  in_MetricId : string;
  in_Aggregation : string;
  in_Operator : string;
  in_Threshold : float64;
  in_RecoveryOperator : string;
  in_RecoveryThreshold : option float64;
  in_WindowSeconds : Z;
  in_ConsecutiveCount : Z;
  in_RecoveryConsecutiveCount : option Z;
  in_Severity : string;
  in_NoDataPolicy : string;
  in_Scope : string;
  in_InstanceIds : list string;
  in_EvaluationIntervalSeconds : Z;
  in_Enabled : bool;
  in_NotificationPolicyId : option string;
}.

Record AlertRuleTemplateInstantiationInput : Type := MkTemplateOverrides {
  ov_Name : option string;
  ov_Threshold : option float64;
  ov_RecoveryThreshold : option float64;
  ov_ConsecutiveCount : option Z;
  ov_RecoveryConsecutiveCount : option Z;
  ov_Severity : option string;
  ov_Scope : option string;
  ov_InstanceIds : option (list string);
  ov_NotificationPolicyId : option string;
  ov_Enabled : option bool;
}.

(** [api.AlertRule]: the columns of the rule, its scope, and what is read with it. *)
Record APIAlertRule : Type := MkAPIAlertRule {
  api_Row : RuleRow;
  api_InstanceIds : list string;
  api_IsBuiltin : bool;
  api_EffectiveNotificationPolicyName : string;
  api_CurrentAlertCount : Z;
  api_LastTriggeredAt : option Time;
}.

(** * Validation *)

Definition metricDefinition (id : MetricID) : option Metric := LookupIn Metrics id.

Definition validAggregation (value : string) : bool := bool_decide (value ∈ aggregations).
Definition validOperator (value : string) : bool := bool_decide (value ∈ operators).

Definition validHysteresis (operator : string) (threshold : float64) (recoveryOperator : string) (recoveryThreshold : float64) : bool :=
  let below := bool_decide (recoveryOperator = "<") || bool_decide (recoveryOperator = "<=") in
  let above := bool_decide (recoveryOperator = ">") || bool_decide (recoveryOperator = ">=") in
  if bool_decide (operator = ">") then
    (below && (recoveryThreshold <? threshold)%f64) ||
    (bool_decide (recoveryOperator = "=") && (recoveryThreshold =? threshold)%f64)
  else if bool_decide (operator = ">=") then below && (recoveryThreshold <? threshold)%f64
  else if bool_decide (operator = "<") || bool_decide (operator = "<=") then above && (recoveryThreshold >? threshold)%f64
  else if bool_decide (operator = "=") || bool_decide (operator = "!=") then
    negb (bool_decide (operator = recoveryOperator)) || negb (threshold =? recoveryThreshold)%f64
  else false.

(** The codes of a categorical metric: no code both triggers and recovers, some code
    triggers, and some code recovers. *)
Definition validCategoricalRecovery (encodings : gmap string float64) (operator : string) (threshold : float64)
    (recoveryOperator : string) (recoveryThreshold : float64) : bool :=
  let values := (map_to_list encodings).*2 in
  let trigger value := Compare value operator threshold in
  let recovery value := Compare value recoveryOperator recoveryThreshold in
  negb (existsb (fun value => trigger value && recovery value) values) && existsb trigger values && existsb recovery values.

(** [if condition { fieldErrors = append(fieldErrors, ...) }] *)
Definition reject (condition : bool) (field message : string) : list fieldError :=
  if condition then [MkFieldError field message] else [].

Definition scope_errors (rule : AlertRuleInput) : list fieldError :=
  if bool_decide (in_Scope rule = "ALL") then
    reject (negb (bool_decide (in_InstanceIds rule = []))) "instance_ids" "must be empty for ALL scope"
  else if bool_decide (in_Scope rule = "INSTANCES") then
    reject (bool_decide (in_InstanceIds rule = [])) "instance_ids" "must contain at least one instance" ++
    reject (has_duplicate (in_InstanceIds rule)) "instance_ids" "must not contain duplicates"
  else reject true "scope" "is not supported".

Definition recovery_errors (rule : AlertRuleInput) : list fieldError :=
  let exists_ := bool_decide (is_Some (metricDefinition (in_MetricId rule))) in
  match in_RecoveryThreshold rule with
  | None => reject true "recovery_threshold" "is required"
  | Some recoveryThreshold =>
      match NonNumericMetricEncodings !! in_MetricId rule with
      | None =>
          reject (exists_ && validOperator (in_Operator rule) && validOperator (in_RecoveryOperator rule) &&
                  negb (validHysteresis (in_Operator rule) (in_Threshold rule) (in_RecoveryOperator rule) recoveryThreshold))
            "recovery_threshold" "must define a separate recovery range"
      | Some encodings =>
          reject (exists_ && negb (bool_decide (in_Aggregation rule = "latest")))
            "aggregation" "categorical metrics require latest aggregation" ++
          reject (exists_ && negb (validCategoricalRecovery encodings (in_Operator rule) (in_Threshold rule)
                                     (in_RecoveryOperator rule) recoveryThreshold))
            "recovery_threshold" "must define the opposite recovery state"
      end
  end.

Definition validateAlertRule (rule : AlertRuleInput) : list fieldError :=
  reject (bool_decide (TrimSpace (in_Name rule) = EmptyString)) "name" "must not be blank" ++
  reject (match metricDefinition (in_MetricId rule) with
          | None => true | Some definition => bool_decide (metric_Alertability definition = AlertabilityNo) end)
    "metric_id" "must identify an alertable metric" ++
  reject (negb (validAggregation (in_Aggregation rule))) "aggregation" "is not supported" ++
  reject (negb (validOperator (in_Operator rule))) "operator" "is not supported" ++
  reject (negb (validOperator (in_RecoveryOperator rule))) "recovery_operator" "is not supported" ++
  reject (in_WindowSeconds rule <? 1) "window_seconds" "must be positive" ++
  reject (in_ConsecutiveCount rule <? 1) "consecutive_count" "must be positive" ++
  reject (match in_RecoveryConsecutiveCount rule with Some n => n <? 1 | None => false end)
    "recovery_consecutive_count" "must be positive" ++
  reject (negb (bool_decide (in_Severity rule ∈ ["critical"; "warning"; "info"]))) "severity" "is not supported" ++
  reject (negb (bool_decide (in_NoDataPolicy rule ∈ ["ignore"; "mark_no_data"]))) "no_data_policy" "is not supported" ++
  reject (in_EvaluationIntervalSeconds rule <? 5) "evaluation_interval_seconds" "must be at least 5 seconds" ++
  scope_errors rule ++ recovery_errors rule.

Definition recoveryConsecutiveCount (rule : AlertRuleInput) : Z := default (in_ConsecutiveCount rule) (in_RecoveryConsecutiveCount rule).

(** * Built-in rules *)

Record BuiltinRuleChange : Type := MkBuiltinRuleChange {
  change_Delete : bool;
  change_Enabled : option bool;
  change_Severity : option string;
}.

(** The code of the restriction a change violates; [None] is the empty code. *)
Definition BuiltinRuleRestriction (isBuiltin : bool) (change : BuiltinRuleChange) : option string :=
  if negb isBuiltin then None
  else if change_Delete change then Some "BUILTIN_RULE_DELETE_FORBIDDEN"
  else if bool_decide (change_Enabled change = Some false) then Some "BUILTIN_RULE_DISABLE_FORBIDDEN"
  else if bool_decide (change_Severity change = Some "info") then Some "BUILTIN_RULE_SEVERITY_TOO_LOW"
  else None.

(** * Handlers *)

Section Handlers.
(** [json.Marshal] of a rule: it fails on numbers JSON cannot express. *)
Context (marshal : APIAlertRule -> result jsonb).

Definition toAPIAlertRule (row : RuleRow) (scopedInstanceIDs : list string) : DB RuleTables APIAlertRule :=
  name ← (match rule_NotificationPolicyID (row_Rule row) with
          | Some id => GetNotificationPolicy id
          | None => name ← GetDefaultNotificationPolicy; mret (name +:+ "（继承）")
          end);
  stats ← GetAlertRuleStats (row_ID row);
  mret (MkAPIAlertRule row scopedInstanceIDs (row_builtin row) name stats.2 stats.1).

(** A rule of the list or of one request, with its scope. *)
Definition read_rule (row : RuleRow) : DB RuleTables APIAlertRule :=
  instanceIDs ← ListAlertRuleScopeInstances (row_ID row);
  toAPIAlertRule row instanceIDs.

Definition ListAlertRules : DB RuleTables (response (list APIAlertRule)) :=
  rules ← AlertRuleQueries.ListAlertRules;
  items ← collect_rows read_rule rules;
  mret (R200 items).

Definition GetAlertRule (id : string) : DB RuleTables (response APIAlertRule) :=
  or_404 "alert rule not found" (AlertRuleQueries.GetAlertRule id) (fun rule =>
    response ← read_rule rule; mret (R200 response)).

Definition ListAlertRuleTemplates (engine : option Engine) : DB RuleTables (response (list AlertRuleTemplate)) :=
  templates ← AlertRuleQueries.ListAlertRuleTemplates;
  mret (R200 (filter (fun template => match engine with
                                      | Some engine => AppliesToEngine Metrics (tpl_MetricID template) engine
                                      | None => true end = true) templates)).

Definition alertRuleScopeEngineError (metricID instanceName : string) (engine : Engine) : option fieldError :=
  if AppliesToEngine Metrics metricID engine then None
  else Some (MkFieldError "instance_ids"
         ("contains instance " +:+ quoted instanceName +:+ ", which runs " +:+ engine +:+ ": metric " +:+
          quoted metricID +:+ " is not available on that engine")).

(** The loop over the instances of the scope. *)
Fixpoint scope_reference_errors (metricID : string) (ids : list string) : DB RuleTables (list fieldError) :=
  match ids with
  | [] => mret []
  | id :: rest =>
      target ← attempt (GetAlertRuleTargetInstance id);
      match target with
      | Err e => if is_no_rows e then mret [MkFieldError "instance_ids" "contains an unknown instance"] else fail e
      | Ok (name, engine) =>
          match alertRuleScopeEngineError metricID name engine with
          | Some scopeError => mret [scopeError]
          | None => scope_reference_errors metricID rest
          end
      end
  end.

Definition policy_reference_errors (policy : option string) : DB RuleTables (list fieldError) :=
  match policy with
  | None => mret []
  | Some id =>
      r ← attempt (GetNotificationPolicy id);
      match r with
      | Ok _ => mret []
      | Err e => if is_no_rows e
                 then mret [MkFieldError "notification_policy_id" "must identify an existing notification policy"] else fail e
      end
  end.

Definition validateAlertRuleReferences (rule : AlertRuleInput) : DB RuleTables (list fieldError) :=
  errors ← (if bool_decide (in_Scope rule = "INSTANCES")
            then scope_reference_errors (in_MetricId rule) (in_InstanceIds rule) else mret []);
  if negb (bool_decide (errors = [])) then mret errors
  else policy_reference_errors (in_NotificationPolicyId rule).

Definition add_scope (ruleID : string) (instanceIDs : list string) : DB RuleTables unit :=
  for_each (AddAlertRuleScopeInstance ruleID) instanceIDs.

Definition replaceAlertRuleScope (ruleID : string) (instanceIDs : list string) : DB RuleTables unit :=
  _ ← DeleteAlertRuleScopeInstances ruleID; add_scope ruleID instanceIDs.

Definition saveAlertRuleVersion (row : RuleRow) (response : APIAlertRule) (instanceIDs : list string) : DB RuleTables unit :=
  _ ← replaceAlertRuleScope (row_ID row) instanceIDs;
  snapshot ← lift_result (marshal response);
  CreateAlertRuleVersion (row_ID row) (rule_Version (row_Rule row)) snapshot.

(** The columns a request sets; [int32] wraps. *)
Definition rule_of_input (input : AlertRuleInput) (recoveryThreshold : float64) : AlertRule :=
  MkAlertRule (TrimSpace (in_Name input)) (in_MetricId input) (in_Aggregation input) (in_Operator input) (in_Threshold input)
    (in_RecoveryOperator input) recoveryThreshold (int32 (in_WindowSeconds input)) (int32 (in_ConsecutiveCount input))
    (int32 (recoveryConsecutiveCount input)) (in_Severity input) (in_NoDataPolicy input) 1 (in_Enabled input) None
    (in_Scope input) (int32 (in_EvaluationIntervalSeconds input)) (in_NotificationPolicyId input).

(** [createAlertRule]: the rule, or the field errors. [newID] is [uuid.New()]; a
    validated request has a recovery threshold, without which Go would panic. *)
Definition createAlertRule (now : Time) (actorID newID : string) (input : AlertRuleInput) (sourceTemplateID : string)
    (sourceTemplateVersion : Z) : DB RuleTables (APIAlertRule + list fieldError) :=
  match validateAlertRule input, in_RecoveryThreshold input with
  | [], Some recoveryThreshold =>
      errors ← validateAlertRuleReferences input;
      if negb (bool_decide (errors = [])) then mret (inr errors)
      else
        let source := if bool_decide (sourceTemplateID = EmptyString) then (None, None)
                      else (Some sourceTemplateID, Some sourceTemplateVersion) in
        created ← InTx (
          row ← AlertRuleQueries.CreateAlertRule newID (rule_of_input input recoveryThreshold) actorID now source.1 source.2;
          response ← toAPIAlertRule row (in_InstanceIds input);
          _ ← saveAlertRuleVersion row response (in_InstanceIds input);
          mret response);
        mret (inl created)
  | errors, _ => mret (inr errors)
  end.

Definition created_response (r : APIAlertRule + list fieldError) : response APIAlertRule :=
  match r with inl created => R201 created | inr fieldErrors => R400 (alertRuleValidationError fieldErrors) end.

Definition CreateAlertRule (now : Time) (actorID newID : string) (body : option AlertRuleInput) : DB RuleTables (response APIAlertRule) :=
  match body with
  | None => mret (R400 (alertRuleValidationError [MkFieldError "body" "is required"]))
  | Some input => r ← createAlertRule now actorID newID input EmptyString 0; mret (created_response r)
  end.

(** The guards of an update on the stored rule. *)
Definition update_refusal (existing : RuleRow) (input : AlertRuleInput) : option APIError :=
  if negb (Bool.eqb (in_Enabled input) (rule_Enabled (row_Rule existing))) then
    Some (alertRuleValidationError [MkFieldError "enabled" "must be changed through the enablement endpoint"])
  else
    match BuiltinRuleRestriction (row_builtin existing) (MkBuiltinRuleChange false None (Some (in_Severity input))) with
    | Some code => Some (errorBody code "built-in collection rules must remain warning or critical")
    | None =>
        if row_builtin existing && negb (bool_decide (in_MetricId input = rule_MetricID (row_Rule existing))) then
          Some (alertRuleValidationError [MkFieldError "metric_id" "cannot be changed for a built-in rule"])
        else if row_builtin existing && negb (bool_decide (in_Scope input = "ALL")) then
          Some (alertRuleValidationError [MkFieldError "scope" "must remain ALL for a built-in rule"])
        else None
    end.

(** The transaction of an update and the response after it. *)
Definition apply_update (now : Time) (actorID id : string) (input : AlertRuleInput) (recoveryThreshold : float64)
    : DB RuleTables (response APIAlertRule) :=
  or_404 "alert rule not found"
    (InTx (
      updated ← AlertRuleQueries.UpdateAlertRule id (rule_of_input input recoveryThreshold) actorID now;
      response ← toAPIAlertRule updated (in_InstanceIds input);
      _ ← saveAlertRuleVersion updated response (in_InstanceIds input);
      mret updated))
    (fun updated => response ← toAPIAlertRule updated (in_InstanceIds input); mret (R200 response)).

Definition UpdateAlertRule (now : Time) (actorID id : string) (body : option AlertRuleInput) : DB RuleTables (response APIAlertRule) :=
  match body with
  | None => mret (R400 (alertRuleValidationError [MkFieldError "body" "is required"]))
  | Some input =>
      match validateAlertRule input, in_RecoveryThreshold input with
      | [], Some recoveryThreshold =>
          or_404 "alert rule not found" (AlertRuleQueries.GetAlertRule id) (fun existing =>
            match update_refusal existing input with
            | Some e => mret (R400 e)
            | None =>
                errors ← validateAlertRuleReferences input;
                if negb (bool_decide (errors = [])) then mret (R400 (alertRuleValidationError errors))
                else apply_update now actorID id input recoveryThreshold
            end)
      | errors, _ => mret (R400 (alertRuleValidationError errors))
      end
  end.

Definition UpdateAlertRuleEnabled (now : Time) (actorID id : string) (body : option bool) : DB RuleTables (response APIAlertRule) :=
  match body with
  | None => mret (R400 (alertRuleValidationError [MkFieldError "body" "is required"]))
  | Some enabled =>
      or_404 "alert rule not found" (AlertRuleQueries.GetAlertRule id) (fun existing =>
        match BuiltinRuleRestriction (row_builtin existing) (MkBuiltinRuleChange false (Some enabled) None) with
        | Some code => mret (R400 (errorBody code "built-in collection rules cannot be disabled"))
        | None =>
            or_404 "alert rule not found" (SetAlertRuleEnabled id enabled actorID now) (fun rule =>
              response ← read_rule rule; mret (R200 response))
        end)
  end.

Definition DeleteAlertRule (now : Time) (actorID id : string) : DB RuleTables (response unit) :=
  or_404 "alert rule not found" (AlertRuleQueries.GetAlertRule id) (fun rule =>
    match BuiltinRuleRestriction (row_builtin rule) (MkBuiltinRuleChange true None None) with
    | Some code => mret (R409 (errorBody code "built-in collection rules cannot be deleted"))
    | None => _ ← AlertRuleQueries.DeleteAlertRule id actorID now; mret R204
    end).

Definition template_input (t : AlertRuleTemplate) : AlertRuleInput :=
  MkRuleInput (tpl_Name t) (tpl_MetricID t) (tpl_Aggregation t) (tpl_Operator t) (tpl_Threshold t) (tpl_RecoveryOperator t)
    (Some (tpl_RecoveryThreshold t)) (tpl_WindowSeconds t) (tpl_ConsecutiveCount t) (Some (tpl_RecoveryConsecutiveCount t))
    (tpl_Severity t) (tpl_NoDataPolicy t) "ALL" [] (tpl_EvaluationIntervalSeconds t) true None.

Definition or_else {A} (o d : option A) : option A := match o with Some a => Some a | None => d end.

Definition applyTemplateOverrides (input : AlertRuleInput) (o : AlertRuleTemplateInstantiationInput) : AlertRuleInput :=
  MkRuleInput (default (in_Name input) (ov_Name o)) (in_MetricId input) (in_Aggregation input) (in_Operator input)
    (default (in_Threshold input) (ov_Threshold o)) (in_RecoveryOperator input)
    (or_else (ov_RecoveryThreshold o) (in_RecoveryThreshold input)) (in_WindowSeconds input)
    (default (in_ConsecutiveCount input) (ov_ConsecutiveCount o))
    (or_else (ov_RecoveryConsecutiveCount o) (in_RecoveryConsecutiveCount input))
    (default (in_Severity input) (ov_Severity o)) (in_NoDataPolicy input) (default (in_Scope input) (ov_Scope o))
    (default (in_InstanceIds input) (ov_InstanceIds o)) (in_EvaluationIntervalSeconds input)
    (default (in_Enabled input) (ov_Enabled o)) (or_else (ov_NotificationPolicyId o) (in_NotificationPolicyId input)).

Definition CreateAlertRuleFromTemplate (now : Time) (actorID newID id : string)
    (body : option AlertRuleTemplateInstantiationInput) : DB RuleTables (response APIAlertRule) :=
  or_404 "alert rule template not found" (GetAlertRuleTemplate id) (fun template =>
    let input := match body with
                 | Some overrides => applyTemplateOverrides (template_input template) overrides
                 | None => template_input template end in
    r ← createAlertRule now actorID newID input (tpl_Identifier template) (tpl_Version template);
    mret (created_response r)).

Definition copy_input (rule : AlertRule) (instanceIDs : list string) (name : option string) : AlertRuleInput :=
  MkRuleInput (default (rule_Name rule +:+ " 副本") name) (rule_MetricID rule) (rule_Aggregation rule) (rule_Operator rule)
    (rule_Threshold rule) (rule_RecoveryOperator rule) (Some (rule_RecoveryThreshold rule)) (rule_WindowSeconds rule)
    (rule_ConsecutiveCount rule) (Some (rule_RecoveryConsecutiveCount rule)) (rule_Severity rule) (rule_NoDataPolicy rule)
    (rule_Scope rule) instanceIDs (rule_EvaluationIntervalSeconds rule) (rule_Enabled rule) (rule_NotificationPolicyID rule).

(** [name] is the name of the body, when there is one. *)
Definition CopyAlertRule (now : Time) (actorID newID id : string) (name : option string) : DB RuleTables (response APIAlertRule) :=
  or_404 "alert rule not found" (AlertRuleQueries.GetAlertRule id) (fun rule =>
    instanceIDs ← ListAlertRuleScopeInstances id;
    r ← createAlertRule now actorID newID (copy_input (row_Rule rule) instanceIDs name) EmptyString 0;
    mret (created_response r)).

End Handlers.
