(* ===== verification/AlertRulesInv.v ===== *)
(** What the alert rule handlers guarantee: the rules they accept, the history and
    scope of every stored rule, and the protection of built-in rules. *)

From S2P Require Import Prelude Float64 Db Text Dictionary Catalog ControlPlane AlertState AlertEvaluation Notify Evaluator.
From S2P Require Import Responses AlertRuleQueries AlertRules.

(** * Validation *)

Lemma reject_nil c field message : reject c field message = [] <-> c = false.
Proof. by destruct c. Qed.

(** The scope of an accepted rule: all instances, or some, each once. *)
Definition scope_ok (scope : string) (ids : list string) : Prop :=
  (scope = "ALL" /\ ids = []) \/ (scope = "INSTANCES" /\ ids <> [] /\ NoDup ids).

Lemma scope_errors_nil rule : scope_errors rule = [] <-> scope_ok (in_Scope rule) (in_InstanceIds rule).
Proof.
  unfold scope_errors, scope_ok. case_bool_decide as Ha; [|case_bool_decide as Hi].
  - rewrite reject_nil, negb_false_iff, bool_decide_eq_true. split; [by left|]. intros [[_ ?]|[Hi _]]; [done|congruence].
  - rewrite app_nil, !reject_nil, bool_decide_eq_false, has_duplicate_NoDup. split; [by right|]. intros [[? _]|[_ ?]]; [done|done].
  - split; [done|]. intros [[? _]|[? _]]; done.
Qed.

(** How an accepted rule separates its states: a numeric metric has a recovery range
    of its own, a categorical one takes its latest value, and some of its codes
    trigger, some recover and none does both. *)
Definition separated (rule : AlertRuleInput) (recoveryThreshold : float64) : Prop :=
  match NonNumericMetricEncodings !! in_MetricId rule with
  | None => validHysteresis (in_Operator rule) (in_Threshold rule) (in_RecoveryOperator rule) recoveryThreshold = true
  | Some encodings =>
      in_Aggregation rule = "latest" /\
      (forall state value, encodings !! state = Some value ->
         ~ (Compare value (in_Operator rule) (in_Threshold rule) = true /\
            Compare value (in_RecoveryOperator rule) recoveryThreshold = true)) /\
      (exists state value, encodings !! state = Some value /\ Compare value (in_Operator rule) (in_Threshold rule) = true) /\
      (exists state value, encodings !! state = Some value /\ Compare value (in_RecoveryOperator rule) recoveryThreshold = true)
  end.

Record valid_rule (rule : AlertRuleInput) : Prop := MkValidRule {
  valid_name : TrimSpace (in_Name rule) <> EmptyString;
  valid_metric : exists definition, metricDefinition (in_MetricId rule) = Some definition /\
    metric_Alertability definition <> AlertabilityNo;
  valid_aggregation : in_Aggregation rule ∈ aggregations;
  valid_operator : in_Operator rule ∈ operators;
  valid_recovery_operator : in_RecoveryOperator rule ∈ operators;
  valid_window : 1 <= in_WindowSeconds rule;
  valid_count : 1 <= in_ConsecutiveCount rule;
  valid_recovery_count : 1 <= recoveryConsecutiveCount rule;
  valid_severity : in_Severity rule ∈ ["critical"; "warning"; "info"];
  valid_no_data : in_NoDataPolicy rule ∈ ["ignore"; "mark_no_data"];
  valid_interval : 5 <= in_EvaluationIntervalSeconds rule;
  valid_scope : scope_ok (in_Scope rule) (in_InstanceIds rule);
  valid_recovery : exists recoveryThreshold, in_RecoveryThreshold rule = Some recoveryThreshold /\ separated rule recoveryThreshold;
}.

Lemma existsb_values (f : float64 -> bool) (m : gmap string float64) :
  existsb f (map_to_list m).*2 = true <-> exists k v, m !! k = Some v /\ f v = true.
Proof.
  rewrite existsb_exists. split.
  - intros (v&([k v']&->&Hin)%list_elem_of_In%list_elem_of_fmap&Hf). exists k, v'. by rewrite <-elem_of_map_to_list.
  - intros (k&v&Hk&Hf). exists v. split; [|done]. apply list_elem_of_In, list_elem_of_fmap. exists (k, v).
    by rewrite elem_of_map_to_list.
Qed.

Lemma categorical_separated encodings op t rop r :
  validCategoricalRecovery encodings op t rop r = true <->
  (forall state value, encodings !! state = Some value -> ~ (Compare value op t = true /\ Compare value rop r = true)) /\
  (exists state value, encodings !! state = Some value /\ Compare value op t = true) /\
  (exists state value, encodings !! state = Some value /\ Compare value rop r = true).
Proof.
  unfold validCategoricalRecovery. rewrite !andb_true_iff, negb_true_iff, <-not_true_iff_false, !existsb_values.
  setoid_rewrite andb_true_iff. naive_solver.
Qed.

Lemma recovery_errors_nil rule definition :
  metricDefinition (in_MetricId rule) = Some definition -> in_Operator rule ∈ operators -> in_RecoveryOperator rule ∈ operators ->
  recovery_errors rule = [] <->
  exists recoveryThreshold, in_RecoveryThreshold rule = Some recoveryThreshold /\ separated rule recoveryThreshold.
Proof.
  intros Hd Ho Hr. unfold recovery_errors, separated, validOperator. rewrite Hd.
  destruct (in_RecoveryThreshold rule) as [r|]; [|naive_solver].
  rewrite (bool_decide_true (is_Some _)), !(bool_decide_true (_ ∈ operators)) by eauto. simpl.
  destruct (NonNumericMetricEncodings !! in_MetricId rule) as [encodings|].
  - rewrite app_nil, !reject_nil, !negb_false_iff, bool_decide_eq_true, categorical_separated. naive_solver.
  - rewrite reject_nil, negb_false_iff. naive_solver.
Qed.

Lemma validate_valid rule : validateAlertRule rule = [] <-> valid_rule rule.
Proof.
  unfold validateAlertRule. rewrite !app_nil, !reject_nil, scope_errors_nil, bool_decide_eq_false, !Z.ltb_ge, !negb_false_iff.
  unfold validAggregation, validOperator. rewrite !bool_decide_eq_true. split.
  - intros (Hn&Hm&Ha&Ho&Hr&Hw&Hc&Hrc&Hs&Hd&Hi&Hsc&Hrec).
    destruct (metricDefinition (in_MetricId rule)) as [definition|] eqn:Em; [|done]. apply bool_decide_eq_false in Hm.
    apply (recovery_errors_nil rule definition) in Hrec; [|done..]. split; try done; [by exists definition|].
    unfold recoveryConsecutiveCount. destruct (in_RecoveryConsecutiveCount rule); simpl; [by apply Z.ltb_ge in Hrc|done].
  - intros [Hn (definition&Em&Hm) Ha Ho Hr Hw Hc Hrc Hs Hd Hi Hsc Hrec]. rewrite Em. unfold recoveryConsecutiveCount in Hrc.
    split_and!; try done; [by apply bool_decide_eq_false| |by apply (recovery_errors_nil rule definition)].
    destruct (in_RecoveryConsecutiveCount rule); simpl in *; [by apply Z.ltb_ge|done].
Qed.

(** ** Separate ranges *)

Lemma SFeqb_leb x y : SFeqb x y = true -> SFleb x y = true.
Proof. unfold SFeqb, SFleb. by destruct (SFcompare x y) as [[]|]. Qed.

Lemma Compare_op value op t :
  Compare value op t = true ->
  (op = ">" /\ SFltb t value = true) \/ (op = ">=" /\ SFleb t value = true) \/ (op = "<" /\ SFltb value t = true) \/
  (op = "<=" /\ SFleb value t = true) \/ (op = "=" /\ SFeqb value t = true) \/ (op = "!=" /\ SFeqb value t = false).
Proof. unfold Compare. repeat case_bool_decide; rewrite ?negb_true_iff; naive_solver. Qed.

(** The operators that compare the order. *)
Definition ordering : list string := [">"; ">="; "<"; "<="].

Lemma hysteresis_separates op t rop r value :
  op ∈ ordering -> validHysteresis op t rop r = true ->
  ~ (Compare value op t = true /\ Compare value rop r = true).
Proof.
  intros Hop Hv [Ht%Compare_op Hr%Compare_op].
  assert (forall x, SFltb x x = true -> False) as Hirr by (intros x Hx; by rewrite SFltb_irrefl in Hx).
  assert (((rop = "<" \/ rop = "<=") /\ SFltb r t = true /\ SFleb t value = true) \/
          (rop = "=" /\ SFeqb r t = true /\ SFltb t value = true) \/
          ((rop = ">" \/ rop = ">=") /\ SFltb t r = true /\ SFleb value t = true)) as Hcases.
  { unfold validHysteresis in Hv.
    repeat apply elem_of_cons in Hop as [->|Hop]; [..|by apply elem_of_nil in Hop];
      rewrite ?(bool_decide_true (">" = ">")), ?(bool_decide_true (">=" = ">=")), ?(bool_decide_true ("<" = "<")),
        ?(bool_decide_true ("<=" = "<=")), ?(bool_decide_false (">=" = ">")), ?(bool_decide_false ("<" = ">")),
        ?(bool_decide_false ("<" = ">=")), ?(bool_decide_false ("<=" = ">")), ?(bool_decide_false ("<=" = ">=")),
        ?(bool_decide_false ("<=" = "<")) in Hv by done; simpl in Hv;
      rewrite ?orb_true_iff, ?andb_true_iff, ?orb_true_iff, ?bool_decide_eq_true in Hv;
      destruct Ht as [[? Ht]|[[? Ht]|[[? Ht]|[[? Ht]|[[? Ht]|[? Ht]]]]]]; try done.

    all: destruct_or?; destruct_and?; destruct_or?; auto 7 using SFltb_leb. }
  destruct Hcases as [([-> | ->]&Hlt&Hle)|[(->&Heq&Hlt)|([-> | ->]&Hlt&Hle)]];
    destruct Hr as [[? Hr]|[[? Hr]|[[? Hr]|[[? Hr]|[[? Hr]|[? Hr]]]]]]; try done; apply (Hirr t);
    eauto using SFltb_trans, SFltb_leb, SFltb_leb_trans, SFleb_ltb_trans, SFeqb_leb, SFleb_trans.
Qed.

(** The templates the server ships instantiate to rules it accepts. *)
Lemma builtin_templates_valid : Forall (fun template => valid_rule (template_input template)) BuiltinRuleTemplates.
Proof.
  apply (Forall_impl (fun template => validateAlertRule (template_input template) = [])); [|intros ? ?; by apply validate_valid].
  apply Forall_forall. intros template Ht. repeat apply elem_of_cons in Ht as [->|Ht]; [vm_compute; reflexivity..|by apply elem_of_nil in Ht].
Qed.

(** * Stored rules *)

(** A rule and its other columns: the constraints of its table, a version that fits
    its column, a deleted rule is disabled, and a built-in rule stays enabled, above
    [info] and on every instance. *)
Record rule_good (r : AlertRule) (m : RuleMeta) : Prop := MkRuleGood {
  good_checked : rule_checked r = true;
  good_version : 1 <= rule_Version r < 2 ^ 31;
  good_deleted : rule_DeletedAt r <> None -> rule_Enabled r = false;
  good_builtin : is_Some (meta_BuiltinIdentifier m) ->
    rule_Enabled r = true /\ rule_DeletedAt r = None /\ rule_Severity r <> "info" /\ rule_Scope r = "ALL";
}.

(** The tables of rules; [pending] is a rule whose new version is being saved. Every
    version of a rule up to the current one has its snapshot, and the scope of a rule
    names existing instances once each, for rules of scope INSTANCES. *)
Record rules_inv (pending : option string) (t : RuleTables) : Prop := MkRulesInv {
  inv_meta id : is_Some (rt_rule t !! id) <-> is_Some (rt_meta t !! id);
  inv_good id r m : rt_rule t !! id = Some r -> rt_meta t !! id = Some m -> rule_good r m;
  inv_history id v : is_Some (rt_version t !! (id, v)) <->
    exists r, rt_rule t !! id = Some r /\ 1 <= v <= rule_Version r /\ (v = rule_Version r -> pending <> Some id);
  inv_scope id i : (id, i) ∈ rt_scope t -> is_Some (e_instance (rt_eval t) !! i) /\
    (pending = Some id \/ exists r, rt_rule t !! id = Some r /\ rule_Scope r = "INSTANCES");
  inv_scope_once : NoDup (rt_scope t);
}.

(** What is never lost: the snapshots of versions, and the rules with the identifiers
    of the built-in ones. *)
Definition extends (t0 t : RuleTables) : Prop :=
  rt_version t0 ⊆ rt_version t /\
  forall id m, rt_meta t0 !! id = Some m ->
    exists m', rt_meta t !! id = Some m' /\ meta_BuiltinIdentifier m' = meta_BuiltinIdentifier m.

#[export] Instance extends_preorder : PreOrder extends.
Proof.
  split; [split; [done|eauto]|]. intros t1 t2 t3 [Hv1 Hm1] [Hv2 Hm2]. split; [by etrans|].
  intros id m (m2&Hm&Hb)%Hm1. apply Hm2 in Hm as (m3&?&?). exists m3. split; congruence.
Qed.

(** Tables reached from [t0]. *)
Definition kept (t0 t : RuleTables) : Prop := rules_inv None t /\ extends t0 t.

Class KeepsRules {A} (m : DB RuleTables A) : Prop :=
  keeps_rules t0 : triple (kept t0) m (fun _ => kept t0) (kept t0).

#[export] Instance bind_rules {A B} (m : DB RuleTables A) (k : A -> DB RuleTables B) :
  KeepsRules m -> (forall a, KeepsRules (k a)) -> KeepsRules (m ≫= k).
Proof. intros Hm Hk t0. eapply triple_bind; [apply Hm|intros a; apply Hk]. Qed.

#[export] Instance ret_rules {A} (a : A) : KeepsRules (mret a).
Proof. intros t0. by apply triple_ret. Qed.

#[export] Instance fail_rules {A} (e : error) : KeepsRules (fail e : DB RuleTables A).
Proof. intros t0. by apply triple_fail. Qed.

#[export] Instance attempt_rules {A} (m : DB RuleTables A) : KeepsRules m -> KeepsRules (attempt m).
Proof. intros Hm t0. by eapply triple_attempt; [apply Hm|]. Qed.

#[export] Instance wrap_rules {A} message (m : DB RuleTables A) : KeepsRules m -> KeepsRules (wrap message m).
Proof. intros Hm t0. apply triple_wrap, Hm. Qed.

#[export] Instance for_each_rules {I} (f : I -> DB RuleTables unit) items : (forall i, KeepsRules (f i)) -> KeepsRules (for_each f items).
Proof. intros Hf t0. apply triple_for_each. intros i _. apply Hf. Qed.

#[export] Hint Extern 1 (KeepsRules (if ?b then _ else _)) => destruct b : typeclass_instances.
#[export] Hint Extern 1 (KeepsRules (match ?o with _ => _ end)) => destruct o : typeclass_instances.

Lemma statement_rules {A} (effect : RuleTables -> result (A * RuleTables)) :
  (forall t a t', rules_inv None t -> effect t = Ok (a, t') -> rules_inv None t' /\ extends t t') ->
  KeepsRules (statement effect).
Proof.
  intros He t0. apply triple_statement; [done|]. intros t a t' [Ht Hv] Ha. destruct (He _ _ _ Ht Ha) as [Ht' Hv'].
  assert (kept t0 t') by (split; [done|by etrans]). done.
Qed.

(** Reading. *)
Lemma reads_rules {A} (m : DB RuleTables A) : Keeps (fun t => t) m -> KeepsRules m.
Proof.
  intros Hm t0 fs t Ht. pose proof (Hm fs t) as Hk. unfold tables_after in Hk.
  destruct (m fs t) as [[[a|e] t'] fs']; simpl in *; by subst.
Qed.

Lemma select_keeps {A} (effect : RuleTables -> result (A * RuleTables)) :
  (forall t a t', effect t = Ok (a, t') -> t' = t) -> Keeps (fun t => t) (statement effect).
Proof. apply statement_keeps. Qed.

Ltac select_only := apply select_keeps; intros t a t' Ha; repeat case_match; congruence.

#[export] Instance GetAlertRule_keeps id : Keeps (fun t => t) (AlertRuleQueries.GetAlertRule id).
Proof. select_only. Qed.
#[export] Instance GetAlertRule_propagates id : Propagates (AlertRuleQueries.GetAlertRule id).
Proof. unfold AlertRuleQueries.GetAlertRule. apply _. Qed.
#[export] Instance GetAlertRuleTemplate_keeps id : Keeps (fun t => t) (GetAlertRuleTemplate id).
Proof. select_only. Qed.
#[export] Instance GetNotificationPolicy_keeps id : Keeps (fun t => t) (GetNotificationPolicy id).
Proof. select_only. Qed.
#[export] Instance GetDefaultNotificationPolicy_keeps : Keeps (fun t => t) GetDefaultNotificationPolicy.
Proof. select_only. Qed.
#[export] Instance GetAlertRuleTargetInstance_keeps id : Keeps (fun t => t) (GetAlertRuleTargetInstance id).
Proof. select_only. Qed.
#[export] Instance lift_result_keeps {A} (r : result A) : Keeps (fun t : RuleTables => t) (lift_result r : DB RuleTables A).
Proof. destruct r; apply _. Qed.

#[export] Instance toAPIAlertRule_keeps row ids : Keeps (fun t => t) (toAPIAlertRule row ids).
Proof. unfold toAPIAlertRule, GetAlertRuleStats. apply _. Qed.
#[export] Instance read_rule_keeps row : Keeps (fun t => t) (read_rule row).
Proof. unfold read_rule, ListAlertRuleScopeInstances. apply _. Qed.
#[export] Instance scope_reference_keeps metricID ids : Keeps (fun t => t) (scope_reference_errors metricID ids).
Proof. induction ids; simpl; apply _. Qed.
#[export] Instance references_keeps input : Keeps (fun t => t) (validateAlertRuleReferences input).
Proof. unfold validateAlertRuleReferences, policy_reference_errors. apply _. Qed.

#[export] Hint Extern 4 (KeepsRules _) => (apply reads_rules; apply _) : typeclass_instances.

(** ** Writes *)

Lemma rule_row_Some t id row :
  rule_row t id = Some row ->
  row_ID row = id /\ rt_rule t !! id = Some (row_Rule row) /\ rt_meta t !! id = Some (row_Meta row) /\
  rule_DeletedAt (row_Rule row) = None.
Proof.
  unfold rule_row. destruct (rt_rule t !! id) as [r|]; [|done]. simpl. destruct (rt_meta t !! id) as [m|]; [|done]. simpl.
  case_bool_decide; [|done]. by intros [= <-].
Qed.

(** Writing a rule: with the version it has, or with a new one to be saved. *)
Lemma write_rule_inv t id r m pending :
  rules_inv None t -> rule_good r m ->
  match rt_rule t !! id with
  | Some old => if pending : bool then rule_Version r = rule_Version old + 1
                else rule_Version r = rule_Version old /\ rule_Scope r = rule_Scope old
  | None => pending = true /\ rule_Version r = 1
  end ->
  rules_inv (if pending then Some id else None) (with_rules (<[id := r]> (rt_rule t)) (<[id := m]> (rt_meta t)) t).
Proof.
  intros [H1 H2 H3 H4 H5] Hg Hold. split.
  - intros id'. unfold rt_rule, rt_meta. simpl. destruct (decide (id' = id)) as [->|Hne].
    + rewrite !lookup_insert_eq. by split.
    + rewrite !lookup_insert_ne by done. apply H1.
  - intros id' r' m'. unfold rt_rule, rt_meta. simpl. intros [[<- <-]|[Hne Hr]]%lookup_insert_Some.
    + rewrite lookup_insert_eq. by intros [= <-].
    + rewrite lookup_insert_ne by done. by apply H2.
  - intros id' v. change (rt_version (with_rules _ _ t)) with (rt_version t). rewrite H3. unfold rt_rule at 2. simpl.
    destruct (decide (id' = id)) as [->|Hne].
    + rewrite lookup_insert_eq. pose proof (good_version _ _ Hg). split.
      * intros (old&Ho&Hv&_). exists r. split; [done|]. rewrite Ho in Hold. destruct pending; [split; [lia|lia]|].
        split; [lia|done].
      * intros (r'&[= <-]&Hv&Hp). destruct (rt_rule t !! id) as [old|]; destruct pending; destruct_and?; simplify_eq.
        -- exists old. split; [done|]. split; [|done]. destruct (decide (v = rule_Version r)) as [->|]; [by destruct Hp|lia].
        -- exists old. split; [done|]. split; [lia|done].
        -- assert (v = rule_Version r) as Hv1 by lia. by destruct (Hp Hv1).
    + rewrite lookup_insert_ne by done. split; intros (r'&Hr'&Hv&Hp); exists r'; (split; [done|]); (split; [done|]); [|done].
      intros _. destruct pending; congruence.
  - intros id' i Hi. change (rt_scope (with_rules _ _ t)) with (rt_scope t) in Hi. destruct (H4 id' i Hi) as [He [?|(r'&Hr'&Hs)]]; [done|].
    split; [exact He|]. destruct (decide (id' = id)) as [->|Hne].
    + destruct pending; [by left|]. right. exists r. unfold rt_rule. simpl. rewrite lookup_insert_eq. rewrite Hr' in Hold.
      destruct Hold as [_ ->]. done.
    + right. exists r'. unfold rt_rule. simpl. by rewrite lookup_insert_ne.
  - exact H5.
Qed.

Lemma no_meta t id : rules_inv None t -> rt_rule t !! id = None -> rt_meta t !! id = None.
Proof.
  intros Ht Hr. destruct (rt_meta t !! id) as [m|] eqn:Hm; [|done].
  destruct (proj2 (inv_meta _ _ Ht id)) as [r Hr']; [by rewrite Hm|]. congruence.
Qed.

Lemma extends_rule t0 t id r m :
  extends t0 t ->
  match rt_meta t !! id with Some old => meta_BuiltinIdentifier m = meta_BuiltinIdentifier old | None => True end ->
  extends t0 (with_rules (<[id := r]> (rt_rule t)) (<[id := m]> (rt_meta t)) t).
Proof.
  intros Ht Hb. etrans; [exact Ht|]. split; [done|]. intros id' old Hold. simpl. destruct (decide (id' = id)) as [->|Hne].
  - rewrite Hold in Hb. exists m. by rewrite lookup_insert_eq.
  - exists old. by rewrite lookup_insert_ne.
Qed.

(** Changing the scope of the rule being saved. *)
Lemma with_scope_inv id l t :
  rules_inv (Some id) t -> NoDup l ->
  (forall id' i, (id', i) ∈ l -> (id', i) ∈ rt_scope t \/ (id' = id /\ is_Some (e_instance (rt_eval t) !! i))) ->
  rules_inv (Some id) (with_scope l t).
Proof.
  intros [H1 H2 H3 H4 H5] Hl Hin. split; try assumption.
  intros id' i [Hi|[-> Hi]]%Hin; [by apply H4|]. split; [done|by left].
Qed.

(** The rule being saved is [r], and its scope, if any, is for instances. *)
Definition saving (t0 : RuleTables) (id : string) (r : AlertRule) (scoped : bool) (t : RuleTables) : Prop :=
  rules_inv (Some id) t /\ rt_rule t !! id = Some r /\ extends t0 t /\
  (scoped = true -> forall i, (id, i) ∈ rt_scope t -> rule_Scope r = "INSTANCES").

Lemma replace_scope_inv t0 id r ids :
  (ids <> [] -> rule_Scope r = "INSTANCES") ->
  triple (saving t0 id r false) (replaceAlertRuleScope id ids) (fun _ => saving t0 id r true) (fun _ => True).
Proof.
  intros Hids. apply (triple_bind _ _ _ (fun _ => saving t0 id r true)).
  - apply triple_statement; [done|]. intros t a t' (Hi&Hr&Hv&_) [= <- <-]. split; [|done]. split; [|split; [done|split; [done|]]].
    + apply with_scope_inv; [done|apply NoDup_filter, (inv_scope_once _ _ Hi)|]. intros id' i Hin. left.
      by apply list_elem_of_filter in Hin as [_ ?].
    + intros _ i Hin. by apply list_elem_of_filter in Hin as [? _].
  - intros _. eapply (triple_weaken _ (saving t0 id r true)); [apply (triple_for_each (saving t0 id r true))|done|done|done].
    intros i Hi. apply triple_statement; [done|]. intros t a t' (Hinv&Hr&Hv&Hs) Ha. case_bool_decide as Hnew; [done|].
    rewrite Hr in Ha. destruct (e_instance (rt_eval t) !! i) eqn:Ei; [|done]. injection Ha as <- <-.
    assert (saving t0 id r true (with_scope (rt_scope t ++ [(id, i)]) t)) as Hsave; [|done].
    split; [|split; [done|split; [done|]]].
    + apply with_scope_inv; [done| |].
      * apply NoDup_app. split; [apply (inv_scope_once _ _ Hinv)|]. split; [|apply NoDup_singleton].
        intros x Hx ->%list_elem_of_singleton. done.
      * intros id' j [Hj|[= -> ->]%list_elem_of_singleton]%elem_of_app; [by left|]. right. by rewrite Ei.
    + intros _ j Hj. apply Hids. intros ->. by apply elem_of_nil in Hi.
Qed.

(** The snapshot of the version being saved. *)
Lemma save_snapshot_inv t0 id r m snapshot t :
  saving t0 id r true t -> rule_good r m -> kept t0 (with_versions (<[(id, rule_Version r) := snapshot]> (rt_version t)) t).
Proof.
  intros ([H1 H2 H3 H4 H5]&Hr&Hv&Hs) Hg. pose proof (good_version _ _ Hg).
  assert (rt_version t !! (id, rule_Version r) = None) as Hnew.
  { destruct (rt_version t !! _) eqn:Ev; [|done]. destruct (proj1 (H3 id (rule_Version r))) as (r'&Hr'&_&Hp); [by rewrite Ev|].
    rewrite Hr in Hr'. injection Hr' as <-. by destruct (Hp eq_refl). }
  split; [split; try assumption|].
  - intros id' v. unfold rt_version at 1. simpl. change (rt_rule (with_versions _ t)) with (rt_rule t).
    destruct (decide ((id', v) = (id, rule_Version r))) as [[= -> ->]|Hne].
    + rewrite lookup_insert_eq. split; [|done]. intros _. exists r. split; [done|]. split; [lia|done].
    + rewrite lookup_insert_ne by done. rewrite H3. split; intros (r'&Hrr&Hvv&Hp); exists r'; (split; [done|]); (split; [done|]); [done|].
      intros -> [= <-]. rewrite Hr in Hrr. injection Hrr as <-. done.
  - intros id' i Hi. destruct (H4 id' i Hi) as [He [[= <-]|Hx]]; (split; [exact He|]); right; [|done]. exists r.
    split; [done|]. by eapply Hs.
  - etrans; [exact Hv|]. split; [by apply insert_subseteq|eauto].
Qed.

Lemma save_version_inv marshal t0 row response ids :
  (ids <> [] -> rule_Scope (row_Rule row) = "INSTANCES") -> rule_good (row_Rule row) (row_Meta row) ->
  triple (saving t0 (row_ID row) (row_Rule row) false) (saveAlertRuleVersion marshal row response ids)
    (fun _ => kept t0) (fun _ => True).
Proof.
  intros Hids Hg. unfold saveAlertRuleVersion.
  eapply triple_bind; [by apply replace_scope_inv|]. intros [].
  eapply (triple_bind _ _ _ (fun _ => saving t0 (row_ID row) (row_Rule row) true)).
  { intros fs t Ht. destruct (marshal response); done. }
  intros snapshot. apply triple_statement; [done|]. intros t a t' Ht Ha. split; [|done].
  destruct Ht as (Hi&Hr&Hv&Hs). rewrite Hr in Ha. destruct (rt_version t !! _); [done|]. destruct (_ <=? 0); [done|].
  injection Ha as <- <-. by eapply save_snapshot_inv.
Qed.

(** ** Transactions *)

(** A statement that writes a rule with a version to be saved. *)
Definition writes_rule (t0 : RuleTables) (ids : list string) (row : RuleRow) (t : RuleTables) : Prop :=
  saving t0 (row_ID row) (row_Rule row) false t /\ rule_good (row_Rule row) (row_Meta row) /\
  (ids <> [] -> rule_Scope (row_Rule row) = "INSTANCES").

Lemma triple_reading {A B} (P : RuleTables -> Prop) (m : DB RuleTables A) (k : A -> DB RuleTables B) Q E :
  Keeps (fun t => t) m -> (forall t, P t -> E t) -> (forall a, triple P (k a) Q E) -> triple P (m ≫= k) Q E.
Proof.
  intros Hm HE Hk. apply (triple_bind _ _ _ (fun _ => P)); [|done]. intros fs t Ht. pose proof (Hm fs t) as Hkeep.
  unfold tables_after in Hkeep. destruct (m fs t) as [[[a|e] t'] fs']; simpl in *; subst; auto.
Qed.

Lemma save_transaction {A} marshal (P : RuleTables -> Prop) t0 (m : DB RuleTables RuleRow) ids (f : RuleRow -> APIAlertRule -> A) :
  triple P m (writes_rule t0 ids) (fun _ => True) -> (forall t, P t -> kept t0 t) ->
  triple P (InTx (row ← m; response ← toAPIAlertRule row ids;
                  _ ← saveAlertRuleVersion marshal row response ids; mret (f row response))) (fun _ => kept t0) (kept t0).
Proof.
  intros Hm HP. apply triple_InTx_either; [|done|done]. eapply triple_bind; [exact Hm|]. intros row.
  apply triple_reading; [apply _|done|]. intros response.
  apply (triple_bind _ _ _ (fun _ => kept t0)); [|intros _; by apply triple_ret].
  intros fs t (Hs&Hg&Hids). by apply (save_version_inv marshal t0 row response ids Hids Hg).
Qed.

Lemma rule_fault_checked t r : rule_fault t r = None -> rule_checked r = true.
Proof. unfold rule_fault. by destruct (rule_checked r). Qed.

Lemma create_writes t0 id input recoveryThreshold actorID now source version :
  scope_ok (in_Scope input) (in_InstanceIds input) ->
  triple (kept t0) (AlertRuleQueries.CreateAlertRule id (rule_of_input input recoveryThreshold) actorID now source version)
    (writes_rule t0 (in_InstanceIds input)) (fun _ => True).
Proof.
  intros Hsc. apply triple_statement; [done|]. intros t row t' [Ht Hv] Ha. split; [|done].
  destruct (rt_rule t !! id) eqn:Er; [done|]. destruct (rule_fault _ _) eqn:Ef; [done|]. injection Ha as <- <-.
  apply rule_fault_checked in Ef.
  match goal with |- writes_rule _ _ (MkRuleRow _ ?r ?m) _ => assert (rule_good r m) as Hg by (by split; [|simpl; lia|..|intros [? ?]]) end.
  split; [|split; [exact Hg|]].
  - split; [|split; [unfold rt_rule; simpl; apply lookup_insert_eq|split; [|done]]].
    + apply (write_rule_inv t id _ _ true Ht Hg). by rewrite Er.
    + apply extends_rule; [done|]. by rewrite (no_meta t id Ht Er).
  - simpl. destruct Hsc as [[_ ->]|[-> _]]; done.
Qed.

Lemma createAlertRule_rules marshal now actorID newID input source version :
  KeepsRules (createAlertRule marshal now actorID newID input source version).
Proof.
  intros t0. unfold createAlertRule. destruct (validateAlertRule input) eqn:Ev; [|by apply triple_ret].
  apply validate_valid in Ev. destruct (in_RecoveryThreshold input) as [r|]; [|by apply triple_ret].
  apply triple_reading; [apply _|done|]. intros errors. destruct (negb _); [by apply triple_ret|]. cbv zeta.
  apply (triple_bind _ _ _ (fun _ => kept t0)); [|intros created; by apply triple_ret].
  apply (save_transaction marshal (kept t0) t0 _ _ (fun _ response => response)); [|done]. apply create_writes, valid_scope, Ev.
Qed.
#[export] Hint Extern 0 (KeepsRules (createAlertRule _ _ _ _ _ _ _)) => apply createAlertRule_rules : typeclass_instances.

(** An update of a rule that its guards let through. *)
Lemma update_writes t0 t id existing input recoveryThreshold actorID now :
  kept t0 t -> rule_row t id = Some existing -> update_refusal existing input = None ->
  scope_ok (in_Scope input) (in_InstanceIds input) ->
  triple (fun t1 => t1 = t) (AlertRuleQueries.UpdateAlertRule id (rule_of_input input recoveryThreshold) actorID now)
    (writes_rule t0 (in_InstanceIds input)) (fun _ => True).
Proof.
  intros [Ht Hv] He Hg Hsc. apply triple_statement; [done|]. intros t1 row t' -> Ha. split; [|done].
  rewrite He in Ha. cbv zeta in Ha. destruct (2 ^ 31 <=? _) eqn:Hmax in Ha; [done|]. apply Z.leb_gt in Hmax.
  destruct (rule_fault _ _) eqn:Ef; [done|]. injection Ha as <- <-. apply rule_fault_checked in Ef.
  apply rule_row_Some in He as (<-&Er&Em&Ed). pose proof (inv_good _ _ Ht _ _ _ Er Em) as [_ Hver Hdel Hbuiltin].
  match goal with |- writes_rule _ _ (MkRuleRow _ ?r ?m) _ => assert (rule_good r m) as Hgood end.
  { split; [done|simpl in *; lia|simpl; by rewrite Ed|]. simpl. intros Hb. destruct (Hbuiltin Hb) as (->&->&_&_).
    unfold update_refusal, row_builtin in Hg. rewrite (bool_decide_true (is_Some _)) in Hg by done.
    unfold BuiltinRuleRestriction in Hg. simpl in Hg.
    destruct (negb _) in Hg; [done|]. case_bool_decide as Hinfo; [done|]. destruct (negb _) in Hg; [done|].
    case_bool_decide as Hall; [|done]. split_and!; [done|done| |done]. intros ?. by apply Hinfo; f_equal. }
  split; [|split; [exact Hgood|simpl; destruct Hsc as [[_ ->]|[-> _]]; done]].
  split; [|split; [unfold rt_rule; simpl; apply lookup_insert_eq|split; [|done]]].
  - pose proof (write_rule_inv t (row_ID existing) _ _ true Ht Hgood) as Hw. rewrite Er in Hw. by apply Hw.
  - apply extends_rule; [done|]. by rewrite Em.
Qed.

#[export] Instance or_404_rules {A B} message (m : DB RuleTables A) (k : A -> DB RuleTables (response B)) :
  KeepsRules m -> (forall a, KeepsRules (k a)) -> KeepsRules (or_404 message m k).
Proof. intros Hm Hk. unfold or_404. apply bind_rules; [apply _|]. intros [a|e]; [apply Hk|]. apply _. Qed.

(** The row a handler reads first is the row of the tables it goes on from. *)
Lemma or_404_row {B} t0 message id (k : RuleRow -> DB RuleTables (response B)) :
  (forall t row, kept t0 t -> rule_row t id = Some row -> triple (fun t1 => t1 = t) (k row) (fun _ => kept t0) (kept t0)) ->
  triple (kept t0) (or_404 message (AlertRuleQueries.GetAlertRule id) k) (fun _ => kept t0) (kept t0).
Proof.
  intros Hk. apply triple_at. intros t Ht. unfold or_404.
  set (R := fun (r : result RuleRow) t1 => t1 = t /\ forall row, r = Ok row -> rule_row t id = Some row).
  apply (triple_bind _ _ _ R).
  - apply (triple_attempt _ _ _ _ (fun t1 => t1 = t)); [|by intros e t1 ->].
    eapply triple_weaken; [apply (triple_reads (AlertRuleQueries.GetAlertRule id) t)|done| |done].
    intros row t1 [-> Hrow]. split; [done|]. intros row' [= <-]. unfold AlertRuleQueries.GetAlertRule, statement in Hrow. simpl in Hrow.
    destruct (rule_row t id); [|done]. congruence.
  - intros [row|e].
    + apply triple_at. intros t1 [-> Hrow]. by apply Hk; [|apply Hrow].
    + destruct (is_no_rows e); [apply triple_ret|apply triple_fail]; by intros t1 [-> _].
Qed.

Lemma at_rules {A} t0 t (m : DB RuleTables A) : kept t0 t -> KeepsRules m -> triple (fun t1 => t1 = t) m (fun _ => kept t0) (kept t0).
Proof. intros Ht Hm. eapply triple_weaken; [apply (Hm t0)|by intros ? ->|done|done]. Qed.

Lemma UpdateAlertRule_rules marshal now actorID id body : KeepsRules (AlertRules.UpdateAlertRule marshal now actorID id body).
Proof.
  intros t0. unfold AlertRules.UpdateAlertRule. destruct body as [input|]; [|by apply triple_ret].
  destruct (validateAlertRule input) eqn:Ev; [|by apply triple_ret]. apply validate_valid in Ev.
  destruct (in_RecoveryThreshold input) as [r|]; [|by apply triple_ret]. apply or_404_row. intros t existing Ht He.
  destruct (update_refusal existing input) eqn:Eu; [by apply at_rules; [|apply _]|].
  apply triple_reading; [apply _|by intros ? ->|]. intros errors. destruct (negb _); [by apply at_rules; [|apply _]|].
  unfold apply_update, or_404. apply (triple_bind _ _ _ (fun _ => kept t0)).
  - eapply triple_attempt; [|intros e t1 Hf; exact Hf].
    apply (save_transaction marshal (fun t1 => t1 = t) t0 _ _ (fun row _ => row)); [|by intros ? ->].
    by eapply update_writes, valid_scope.
  - intros [updated|e]; [|destruct (is_no_rows e); [by apply triple_ret|by apply triple_fail]].
    apply triple_reading; [apply _|done|]. intros response. by apply triple_ret.
Qed.
#[export] Hint Extern 0 (KeepsRules (AlertRules.UpdateAlertRule _ _ _ _ _)) => apply UpdateAlertRule_rules : typeclass_instances.

(** Writing the columns outside the history: the rule keeps its version, scope and
    identifier. *)
Lemma rewrite_rule_inv t0 t id old oldm r m :
  kept t0 t -> rt_rule t !! id = Some old -> rt_meta t !! id = Some oldm -> rule_good r m ->
  rule_Version r = rule_Version old -> rule_Scope r = rule_Scope old -> meta_BuiltinIdentifier m = meta_BuiltinIdentifier oldm ->
  kept t0 (with_rules (<[id := r]> (rt_rule t)) (<[id := m]> (rt_meta t)) t).
Proof.
  intros [Ht He] Ho Hm Hg Hv Hs Hb. split.
  - pose proof (write_rule_inv t id r m false Ht Hg) as Hw. rewrite Ho in Hw. by apply Hw.
  - apply extends_rule; [done|]. by rewrite Hm.
Qed.

Lemma SetAlertRuleEnabled_at t0 t id row enabled actorID now :
  kept t0 t -> rule_row t id = Some row ->
  BuiltinRuleRestriction (row_builtin row) (MkBuiltinRuleChange false (Some enabled) None) = None ->
  triple (fun t1 => t1 = t) (SetAlertRuleEnabled id enabled actorID now) (fun _ => kept t0) (kept t0).
Proof.
  intros [Ht Hv] Hrow Hb. apply triple_statement; [by intros ? ->|]. intros t1 a t' -> Ha.
  rewrite Hrow in Ha. apply rule_row_Some in Hrow as (<-&Hr&Hm&Hd). pose proof (inv_good _ _ Ht _ _ _ Hr Hm) as [Hc Hver _ Hgb].
  destruct row as [id old m]. simpl in *. injection Ha as <- <-.
  match goal with |- kept _ (with_rules (<[_:=?r]> _) (<[_:=?m']> _) _) /\ _ => assert (rule_good r m') as Hg end.
  { split; [done|done|simpl; by rewrite Hd|]. simpl. intros Hi. destruct (Hgb Hi) as (_&_&Hsev&Hscope). split_and!; try done.
    unfold row_builtin, BuiltinRuleRestriction in Hb. simpl in Hb. rewrite (bool_decide_true (is_Some _)) in Hb by done.
    simpl in Hb. case_bool_decide as Hf; [done|]. by destruct enabled. }
  pose proof (rewrite_rule_inv t0 t id _ _ _ _ (conj Ht Hv) Hr Hm Hg eq_refl eq_refl eq_refl). done.
Qed.

Lemma UpdateAlertRuleEnabled_rules now actorID id body : KeepsRules (UpdateAlertRuleEnabled now actorID id body).
Proof.
  intros t0. unfold UpdateAlertRuleEnabled. destruct body as [enabled|]; [|by apply triple_ret].
  apply or_404_row. intros t row Ht Hrow. destruct (BuiltinRuleRestriction _ _) eqn:Hb; [by apply at_rules; [|apply _]|].
  unfold or_404 at 1. apply (triple_bind _ _ _ (fun _ => kept t0)).
  - eapply triple_attempt; [by eapply SetAlertRuleEnabled_at|intros e t1 Hf; exact Hf].
  - intros [rule|e]; [|destruct (is_no_rows e); [by apply triple_ret|by apply triple_fail]].
    apply triple_reading; [apply _|done|]. intros response. by apply triple_ret.
Qed.

Lemma DeleteAlertRule_rules now actorID id : KeepsRules (AlertRules.DeleteAlertRule now actorID id).
Proof.
  unfold AlertRules.DeleteAlertRule. apply or_404_rules; [apply _|]. intros rule.
  destruct (BuiltinRuleRestriction _ _); [apply _|]. apply bind_rules; [|apply _]. apply statement_rules.
  intros t a t' Ht Ha. destruct (rule_row t id) as [[id' old m]|] eqn:Hrow; [|done].
  apply rule_row_Some in Hrow as (Hid&Hr&Hm&Hd). simpl in *. subst id'. case_bool_decide as Hb; [done|]. injection Ha as <- <-.
  pose proof (inv_good _ _ Ht _ _ _ Hr Hm) as [Hc Hver _ _].
  match goal with |- rules_inv _ (with_rules (<[_:=?r]> _) (<[_:=?m']> _) _) /\ _ => assert (rule_good r m') as Hg by (by split) end.
  by apply (rewrite_rule_inv t t id _ _ _ _ (conj Ht (reflexivity t)) Hr Hm Hg).
Qed.

(** ** Seeding *)

Lemma same_rules pending t t' :
  rt_rule t' = rt_rule t -> rt_meta t' = rt_meta t -> rt_version t' = rt_version t -> rt_scope t' = rt_scope t ->
  e_instance (rt_eval t') = e_instance (rt_eval t) -> rules_inv pending t -> rules_inv pending t'.
Proof. intros E1 E2 E3 E4 E5 [H1 H2 H3 H4 H5]. split; rewrite ?E1, ?E2, ?E3, ?E4, ?E5; done. Qed.

Lemma exec_rules (f : RuleTables -> RuleTables) :
  (forall t, rules_inv None t -> rules_inv None (f t) /\ extends t (f t)) -> KeepsRules (exec f).
Proof. intros Hf. apply statement_rules. intros t a t' Ht [= <- <-]. by apply Hf. Qed.

Lemma seed_policy_rules : KeepsRules seed_policy.
Proof. apply exec_rules. intros t Ht. simpl. destruct (_ || _); [done|]. split; [by apply (same_rules None t)|split; [done|eauto]]. Qed.

Lemma seed_channel_rules : KeepsRules seed_channel.
Proof. apply exec_rules. intros t Ht. split; [by apply (same_rules None t)|split; [done|eauto]]. Qed.

Lemma builtin_rules_good now b :
  b ∈ BuiltinCollectionRules -> rule_good (builtin_row now b).1 (builtin_row now b).2.
Proof.
  intros Hb. repeat apply elem_of_cons in Hb as [->|Hb]; [..|by apply elem_of_nil in Hb];
    (split; [vm_compute; reflexivity|simpl; lia|done|done]).
Qed.

Lemma seed_rule_rules snapshot t0 now policyName b :
  b ∈ BuiltinCollectionRules ->
  triple (kept t0) (seed_rule snapshot now policyName b) (fun _ => kept t0) (fun _ => True).
Proof.
  intros Hb. pose proof (builtin_rules_good now b Hb) as Hg. unfold seed_rule.
  assert (1 = rule_Version (builtin_row now b).1) as Hone by done. destruct (builtin_row now b) as [rule meta]. simpl in Hg, Hone.
  apply (triple_bind _ _ _ (fun _ t => kept t0 t \/ saving t0 (br_ID b) rule true t)).
  - apply triple_wrap, triple_statement; [done|]. intros t a t' Ht Ha. split; [|done].
    unfold builtin_taken in Ha. case_bool_decide as Hr; [injection Ha as <- <-; by left|]. simpl in Ha.
    destruct (existsb _ _); [injection Ha as <- <-; by left|]. destruct (rule_checked rule); [|done]. injection Ha as <- <-. right.
    apply eq_None_not_Some in Hr. destruct Ht as [Ht Hv]. split; [|split; [unfold rt_rule; simpl; apply lookup_insert_eq|split]].
    + apply (write_rule_inv t (br_ID b) rule meta true Ht Hg). by rewrite Hr.
    + apply extends_rule; [done|]. by rewrite (no_meta t (br_ID b) Ht Hr).
    + intros _ i Hi. destruct (inv_scope _ _ Ht _ _ Hi) as [_ [?|(r&Hr'&_)]]; congruence.
  - intros []. apply triple_wrap, triple_statement; [done|]. intros t a t' Ht [= <- <-]. split; [|done].
    destruct Ht as [Hk|Hs].
    + destruct (rt_rule t !! br_ID b) as [r|] eqn:Hr; [|done]. destruct (rt_meta t !! br_ID b) as [m|] eqn:Hm; [|done].
      destruct Hk as [Hi Hv]. pose proof (good_version _ _ (inv_good _ _ Hi _ _ _ Hr Hm)).
      assert (is_Some (rt_version t !! (br_ID b, rule_Version r))) as [s ->]; [|done].
      apply (inv_history _ _ Hi). exists r. split; [done|]. split; [lia|done].
    + pose proof Hs as (Hi&Hr&Hv&_). rewrite Hr. destruct (proj1 (inv_meta _ _ Hi (br_ID b))) as [m Hm]; [by rewrite Hr|].
      rewrite Hm. destruct (rt_version t !! (br_ID b, rule_Version rule)) eqn:Ev; [|by eapply save_snapshot_inv].
      destruct (proj1 (inv_history _ _ Hi (br_ID b) (rule_Version rule))) as (r&Hr'&_&Hp); [by rewrite Ev|].
      rewrite Hr in Hr'. injection Hr' as <-. by destruct (Hp eq_refl).
Qed.

Lemma reconcile_rules snapshot now : KeepsRules (reconcileAlertingSeeds snapshot now).
Proof.
  intros t0. apply triple_InTx_either; [|done|done].
  assert (forall A (m : DB RuleTables A), KeepsRules m -> triple (kept t0) m (fun _ => kept t0) (fun _ => True)) as Hweak
    by (intros A m Hm; eapply triple_weaken; [apply (Hm t0)|done..]).
  eapply triple_bind; [apply Hweak, wrap_rules, seed_policy_rules|]. intros [].
  eapply triple_bind; [apply Hweak, wrap_rules, seed_channel_rules|]. intros [].
  eapply triple_bind; [apply Hweak; apply _|]. intros policyName. cbv beta.
  eapply triple_bind; [apply triple_for_each_either; intros b Hb; by apply seed_rule_rules|]. intros [].
  eapply triple_bind; [apply Hweak, wrap_rules, exec_rules|].
  { intros t Ht. split; [by apply (same_rules None t)|split; [done|eauto]]. }
  intros []. apply Hweak, for_each_rules. intros template. apply wrap_rules, statement_rules. intros t a t' Ht Ha.
  destruct (rt_template t !! _); [done|]. injection Ha as <- <-. split; [by apply (same_rules None t)|split; [done|eauto]].
Qed.

(** * Reachable states *)

(** What administers the rules. *)
Inductive rule_call : Type :=
  | CallCreate (now : Time) (actorID newID : string) (body : option AlertRuleInput)
  | CallUpdate (now : Time) (actorID id : string) (body : option AlertRuleInput)
  | CallEnabled (now : Time) (actorID id : string) (body : option bool)
  | CallDelete (now : Time) (actorID id : string)
  | CallTemplate (now : Time) (actorID newID id : string) (body : option AlertRuleTemplateInstantiationInput)
  | CallCopy (now : Time) (actorID newID id : string) (name : option string)
  | CallSeed (now : Time).

Section Reachable.
Context (marshal : APIAlertRule -> result jsonb) (snapshot : RuleRow -> string -> jsonb).

(** A request, or a start of the server, up to what it answers. *)
Definition run_call (c : rule_call) : DB RuleTables unit :=
  match c with
  | CallCreate now actorID newID body => _ ← AlertRules.CreateAlertRule marshal now actorID newID body; mret tt
  | CallUpdate now actorID id body => _ ← AlertRules.UpdateAlertRule marshal now actorID id body; mret tt
  | CallEnabled now actorID id body => _ ← UpdateAlertRuleEnabled now actorID id body; mret tt
  | CallDelete now actorID id => _ ← AlertRules.DeleteAlertRule now actorID id; mret tt
  | CallTemplate now actorID newID id body => _ ← CreateAlertRuleFromTemplate marshal now actorID newID id body; mret tt
  | CallCopy now actorID newID id name => _ ← CopyAlertRule marshal now actorID newID id name; mret tt
  | CallSeed now => reconcileAlertingSeeds snapshot now
  end.

Lemma run_call_rules c : KeepsRules (run_call c).
Proof.
  destruct c; simpl; [apply bind_rules; [|apply _]..|apply reconcile_rules].
  - unfold AlertRules.CreateAlertRule. apply _.
  - apply _.
  - apply UpdateAlertRuleEnabled_rules.
  - apply DeleteAlertRule_rules.
  - unfold CreateAlertRuleFromTemplate. apply _.
  - unfold CopyAlertRule, ListAlertRuleScopeInstances. apply _.
Qed.

(** Requests one after the other, each under its own faults. *)
Inductive reached (t0 : RuleTables) : RuleTables -> Prop :=
  | reached_start : reached t0 t0
  | reached_call t fs c : reached t0 t -> reached t0 (tables_after (run_call c) fs t).

Lemma reached_kept t0 t : rules_inv None t0 -> reached t0 t -> kept t0 t.
Proof.
  intros H0. induction 1 as [|t fs c _ IH]; [by split|]. apply triple_tables; [apply run_call_rules|done].
Qed.
End Reachable.

(** * Properties *)

(** C28. A request for an alert rule passes validation exactly when it is a valid
    rule: a name, an alertable metric, supported aggregation, operators, severity and
    no-data policy, positive window and counts, an interval of at least five seconds,
    a scope of all instances or of some without repetition, and a recovery condition
    separate from the trigger. For a rule on a numeric metric whose operator compares
    the order, no value both triggers and recovers, so that an evaluation is never
    ambiguous. *)
Theorem accepted_rules_are_valid rule :
  (validateAlertRule rule = [] <-> valid_rule rule) /\
  (validateAlertRule rule = [] -> NonNumericMetricEncodings !! in_MetricId rule = None -> in_Operator rule ∈ ordering ->
   exists recoveryThreshold, in_RecoveryThreshold rule = Some recoveryThreshold /\
     forall value, Compare value (in_Operator rule) (in_Threshold rule) = true ->
       Compare value (in_RecoveryOperator rule) recoveryThreshold = false).
Proof.
  split; [apply validate_valid|]. intros Hv%validate_valid Hn Ho. destruct (valid_recovery _ Hv) as (r&Hr&Hs).
  exists r. split; [done|]. intros value Ht. unfold separated in Hs. rewrite Hn in Hs.
  apply not_true_is_false. intros Hrec. by eapply hysteresis_separates.
Qed.

(** C6. Whatever requests and restarts do, and whatever statements fail, the tables of
    alert rules stay in order: every version of a rule has its snapshot, and once
    written a snapshot is never changed or lost; the scope of a rule names existing
    instances, each once, and only for rules scoped to instances; a built-in rule is
    never deleted, disabled, lowered to [info] or narrowed; and every enabled rule can
    be evaluated on every existing instance. *)
Theorem rule_administration_invariant marshal snapshot t0 t :
  rules_inv None t0 -> reached marshal snapshot t0 t ->
  rules_inv None t /\ rt_version t0 ⊆ rt_version t /\
  (forall id m0, rt_meta t0 !! id = Some m0 -> is_Some (meta_BuiltinIdentifier m0) ->
     exists r m, rt_rule t !! id = Some r /\ rt_meta t !! id = Some m /\
       meta_BuiltinIdentifier m = meta_BuiltinIdentifier m0 /\ rule_Enabled r = true /\ rule_DeletedAt r = None /\
       rule_Severity r <> "info" /\ rule_Scope r = "ALL") /\
  (forall id r i dimension, rt_rule t !! id = Some r -> rule_Enabled r = true -> is_Some (e_instance (rt_eval t) !! i) ->
     is_Some (evaluation_target id i dimension (rt_eval t))).
Proof.
  intros H0 Hr. destruct (reached_kept marshal snapshot t0 t H0 Hr) as [Hi [Hv Hm]]. split; [done|]. split; [done|]. split.
  - intros id m0 Hm0 Hb. destruct (Hm id m0 Hm0) as (m&Hm'&Hid). destruct (proj2 (inv_meta _ _ Hi id)) as [r Hr']; [by rewrite Hm'|].
    exists r, m. rewrite <-Hid in Hb. pose proof (good_builtin _ _ (inv_good _ _ Hi _ _ _ Hr' Hm') Hb). naive_solver.
  - intros id r i dimension Hr' He [inst Hinst]. destruct (proj1 (inv_meta _ _ Hi id)) as [m Hm']; [by rewrite Hr'|].
    pose proof (inv_good _ _ Hi _ _ _ Hr' Hm') as Hg. pose proof (good_version _ _ Hg).
    assert (rule_DeletedAt r = None) as Hd.
    { destruct (rule_DeletedAt r) eqn:Hd; [|done]. pose proof (good_deleted _ _ Hg). rewrite Hd in *. rewrite He in *. naive_solver. }
    destruct (proj2 (inv_history _ _ Hi id (rule_Version r))) as [s Hs]; [exists r; split; [done|]; split; [lia|done]|].
    unfold evaluation_target. unfold rt_rule in Hr'. unfold rt_version in Hs. rewrite Hr'. simpl. rewrite Hs. simpl. rewrite Hinst. simpl.
    rewrite He, Hd. eauto.
Qed.

(** A rule on values other than 5 that recovers on 6 is accepted, and no value recovers it. *)
Lemma accepted_rule_never_recovers :
  validHysteresis "!=" (f64_of_Z 5) "=" (f64_of_Z 6) = true /\
  forall value, Evaluate value "!=" (f64_of_Z 5) "=" (f64_of_Z 6) <> Recovering.
Proof.
  split; [vm_compute; reflexivity|]. intros value. unfold Evaluate.
  change (Compare value "!=" (f64_of_Z 5)) with (negb (value =? f64_of_Z 5)%f64). change (Compare value "=" (f64_of_Z 6)) with (value =? f64_of_Z 6)%f64.
  destruct (value =? f64_of_Z 5)%f64 eqn:E5; simpl; [|done].
  pose proof (SFleb_ltb_trans value (f64_of_Z 5) (f64_of_Z 6) (SFeqb_leb _ _ E5) eq_refl) as Hlt.
  change (binary_round 53 1024 false 6 0) with (f64_of_Z 6). unfold SFltb in Hlt. unfold SFeqb.
  by destruct (SFcompare value (f64_of_Z 6)) as [[]|].
Qed.

(** * Witnesses *)

Module RulesDemo.
Definition notify : NotifyTables :=
  MkNotifyTables ∅ [] ∅ {["i1" := "db-1"]} ∅ [] [] [] [] ∅ None ∅ [] [] ∅ [] ∅ [].

(** A server before its first start, with one instance. *)
Definition empty : RuleTables :=
  MkRuleTables (MkEvalTables notify {["i1" := MkEvalInstance "db-1" PostgreSQL false]} ∅ ∅ ∅ Metrics [] ∅ [] [] ∅ [] ∅) ∅ ∅ ∅.

Definition marshal (r : APIAlertRule) : result jsonb := Ok {["name" := JString (rule_Name (row_Rule (api_Row r)))]}.
Definition snapshot (row : RuleRow) (policy : string) : jsonb := {["policy" := JString policy]}.

Definition input : AlertRuleInput :=
  MkRuleInput " connections " "pg.connection.active" "latest" ">" (f64_of_Z 90) "<" (Some (f64_of_Z 80)) 60 1 (Some 2) "critical"
    "mark_no_data" "INSTANCES" ["i1"] 15 true None.

(** A window of more than 32 bits. *)
Definition wide : AlertRuleInput :=
  MkRuleInput "wide" "pg.connection.active" "latest" ">" (f64_of_Z 90) "<" (Some (f64_of_Z 80)) (2 ^ 32 + 60) 1 (Some 2) "critical"
    "mark_no_data" "ALL" [] 15 true None.

Definition seeded : RuleTables := tables_after (run_call marshal snapshot (CallSeed 0)) [] empty.
Definition created : RuleTables := tables_after (run_call marshal snapshot (CallCreate (Second) "admin" "r1" (Some input))) [] seeded.
(** The update of a built-in rule to severity info is refused, that of the new rule is made. *)
Definition refused : RuleTables :=
  tables_after (run_call marshal snapshot (CallUpdate Second "admin" "00000000-0000-0000-0000-000000063001"
    (Some (MkRuleInput "down" "pg.availability.reachable" "latest" "=" (f64_of_Z 0) "=" (Some (f64_of_Z 1)) 30 3 (Some 3) "info"
       "mark_no_data" "ALL" [] 30 true None)))) [] created.
Definition updated : RuleTables := tables_after (run_call marshal snapshot (CallUpdate Second "admin" "r1" (Some input))) [] refused.

Lemma empty_inv : rules_inv None empty.
Proof.
  split.
  - intros id. unfold rt_rule. simpl. rewrite !lookup_empty. done.
  - intros id r m. unfold rt_rule. simpl. by rewrite lookup_empty.
  - intros id v. unfold rt_version, rt_rule. simpl. rewrite !lookup_empty. split; [by intros [? ?]|]. by intros (r&Hr&_).
  - intros id i Hi. by apply elem_of_nil in Hi.
  - constructor.
Qed.

Lemma seeded_inv : rules_inv None seeded.
Proof.
  unfold seeded. apply (reached_kept marshal snapshot empty); [apply empty_inv|]. apply reached_call, reached_start.
Qed.
End RulesDemo.

(** The window of an accepted rule can be stored as another one. *)
Lemma accepted_window_wraps :
  validateAlertRule RulesDemo.wide = [] /\ in_WindowSeconds RulesDemo.wide = 4294967356 /\
  rule_WindowSeconds (rule_of_input RulesDemo.wide (f64_of_Z 80)) = 60.
Proof. by vm_compute. Qed.

Lemma accepted_rules_are_valid_witness :
  validateAlertRule RulesDemo.input = [] /\
  forall value, Compare value ">" (f64_of_Z 90) = true -> Compare value "<" (f64_of_Z 80) = false.
Proof.
  assert (validateAlertRule RulesDemo.input = []) as Hv by (vm_compute; reflexivity). split; [exact Hv|].
  destruct (accepted_rules_are_valid RulesDemo.input) as [_ Hsep].
  destruct Hsep as (r & Hr & Hs); [exact Hv|vm_compute; reflexivity|left|]. vm_compute in Hr. injection Hr as <-. exact Hs.
Defined.

Lemma rule_administration_invariant_witness :
  (rule_Version <$> rt_rule RulesDemo.updated !! "r1") = Some 2 /\ size (rt_rule RulesDemo.updated) = 4%nat /\
  size (rt_version RulesDemo.updated) = 5%nat /\ rt_scope RulesDemo.updated = [("r1", "i1")] /\
  rules_inv None RulesDemo.updated /\ is_Some (evaluation_target "r1" "i1" "{}" (rt_eval RulesDemo.updated)).
Proof.
  split; [vm_compute; reflexivity|]. split; [vm_compute; reflexivity|]. split; [vm_compute; reflexivity|].
  split; [vm_compute; reflexivity|].
  destruct (rule_administration_invariant RulesDemo.marshal RulesDemo.snapshot RulesDemo.seeded RulesDemo.updated) as (Hi & _ & _ & He).
  - apply RulesDemo.seeded_inv.
  - apply reached_call, reached_call, reached_call, reached_start.
  - split; [exact Hi|]. destruct (rt_rule RulesDemo.updated !! "r1") as [r|] eqn:Hr; [|vm_compute in Hr; discriminate].
    apply (He "r1" r); [exact Hr| |vm_compute; eauto]. vm_compute in Hr. injection Hr as <-. reflexivity.
Defined.
