(* ===== verification/Agent.v ===== *)
(** The agent on a monitored host ([internal/agent/report.go]) and the platform's side
    of its reports (the report handler of [internal/httpapi/handler.go]). *)

From Stdlib Require Import Ascii.
From S2P Require Import Prelude Float64 Db Text Partitions Dictionary Catalog MetricMath Capability ControlPlane Samples CollectState.

(** * The agent *)

Definition maxBackfillAge : Duration := 5 * Minute.
Definition startupClockSkewLimit : Duration := 5 * Second.

Record AgentMetric : Type := MkAgentMetric {
  am_Metric : MetricID;
  am_Value : float64;
}.

(** [sample], and [api.AgentSample] of a report. *)
Record sample : Type := MkSample {
  sampledAt : Time;
  sample_metrics : list AgentMetric;
}.

(** A [reportBuffer] is the list of its samples; [acknowledge] makes it empty. *)
Definition buffer_add (buffer : list sample) (value : sample) : list sample := buffer ++ [value].

Definition pending (buffer : list sample) (now : Time) : list sample :=
  let cutoff := TimeAdd now (- maxBackfillAge) in
  filter (fun value => Before (sampledAt value) cutoff = false) buffer.

(** Counters are [uint64]. *)
Record counterSnapshot : Type := MkCounterSnapshot {
  counter_sampledAt : Time;
  diskOps : Z;
  diskBytes : Z;
  networkBytes : Z;
}.

Record rateSnapshot : Type := MkRateSnapshot {
  diskCountersValid : bool;
  networkCountersValid : bool;
  diskIOPS : float64;
  diskBytesPerSecond : float64;
  networkBytesPerSecond : float64;
}.

Definition calculateCounterRates (previous current : counterSnapshot) : rateSnapshot :=
  let zero := f64_of_Z 0 in
  let elapsed := Seconds (TimeSub (counter_sampledAt current) (counter_sampledAt previous)) in
  if (elapsed <=? zero)%f64 then MkRateSnapshot false false zero zero zero
  else
    let disk := (diskOps previous <=? diskOps current) && (diskBytes previous <=? diskBytes current) in
    let network := networkBytes previous <=? networkBytes current in
    let rate a b := (f64_of_Z (uint64 (b - a)) / elapsed)%f64 in
    MkRateSnapshot disk network
      (if disk then rate (diskOps previous) (diskOps current) else zero)
      (if disk then rate (diskBytes previous) (diskBytes current) else zero)
      (if network then rate (networkBytes previous) (networkBytes current) else zero).

Record IOCounters : Type := MkIOCounters {
  ReadCount : Z;
  WriteCount : Z;
  ReadBytes : Z;
  WriteBytes : Z;
}.

(** What the operating system answers: the load of all processors, the use of memory,
    the use of and the free bytes under the collector's data path, and the counters of disks and
    network devices (received and sent bytes) by name. *)
Record Host : Type := MkHost {
  host_data_path : string;
  host_cpu : result (list float64);
  host_memory : result float64;
  host_disk_usage : result (float64 * Z);
  host_disks : result (list (string * IOCounters));
  host_networks : result (list (string * (Z * Z)));
}.

Definition wrap_error {A} (message : string) (r : result A) : result A :=
  match r with Ok a => Ok a | Err e => Err (Errorf message e) end.

(** The sums over the devices that count. *)
Definition counters (sampledAt : Time) (disks : list (string * IOCounters)) (networks : list (string * (Z * Z))) : counterSnapshot :=
  let current := foldl (fun c '(name, d) =>
    if HasPrefix name "loop" || HasPrefix name "ram" then c
    else MkCounterSnapshot (counter_sampledAt c) (uint64 (diskOps c + uint64 (ReadCount d + WriteCount d)))
           (uint64 (diskBytes c + uint64 (ReadBytes d + WriteBytes d))) (networkBytes c))
    (MkCounterSnapshot sampledAt 0 0 0) disks in
  foldl (fun c '(name, (received, sent)) =>
    if bool_decide (name = "lo") then c
    else MkCounterSnapshot (counter_sampledAt c) (diskOps c) (diskBytes c) (uint64 (networkBytes c + uint64 (received + sent))))
    current networks.

(** [Collector.Collect]: the sample, and the counters for the next one. *)
Definition Collect (previous : option counterSnapshot) (host : Host) (sampledAt : Time) : result (sample * counterSnapshot) :=
  cpuPercent ← wrap_error "collect CPU usage" (host_cpu host);
  match cpuPercent with
  | [cpu] =>
      memory ← wrap_error "collect memory usage" (host_memory host);
      diskUsage ← wrap_error ("collect disk usage for " +:+ host_data_path host) (host_disk_usage host);
      disks ← wrap_error "collect disk counters" (host_disks host);
      networks ← wrap_error "collect network counters" (host_networks host);
      let current := counters sampledAt disks networks in
      let metrics := [
        MkAgentMetric MetricHostCPUUsagePercent cpu;
        MkAgentMetric MetricHostMemoryUsagePercent memory;
        MkAgentMetric MetricHostDiskUsagePercent diskUsage.1;
        MkAgentMetric MetricHostDiskFreeBytes (f64_of_Z diskUsage.2)] in
      let derived := match previous with
                     | None => []
                     | Some previous =>
                         let rates := calculateCounterRates previous current in
                         (if diskCountersValid rates then
                            [MkAgentMetric MetricHostDiskIOPS (diskIOPS rates);
                             MkAgentMetric MetricHostDiskThroughputBytesPerS (diskBytesPerSecond rates)] else []) ++
                         (if networkCountersValid rates then
                            [MkAgentMetric MetricHostNetworkBytesPerS (networkBytesPerSecond rates)] else [])
                     end in
      Ok (MkSample sampledAt (metrics ++ derived), current)
  | _ => Err (ErrNew ("collect CPU usage: got " +:+ Itoa (Z.of_nat (length cpuPercent)) +:+ " aggregate values"))
  end.

(** [api.AgentReport] *)
Record AgentReport : Type := MkAgentReport {
  report_AgentVersion : string;
  report_InstanceId : string;
  report_Timestamp : Time;
  report_Metrics : list AgentMetric;
  report_Backfill : option (list sample);
}.

(** What the client returns for a report: an error, or a status with the bodies it
    could parse; [text] is [Status()]. *)
Inductive answer : Type :=
  | NoAnswer (e : error)
  | Answered (status : Z) (text : string) (json200 : option (Time * string)) (json400 : option string).

(** [Service] *)
Record AgentService : Type := MkAgentService {
  agent_Instance : string;
  agent_version : string;
  agent_previous : option counterSnapshot;
  agent_buffer : list sample;
}.

Definition clockSkewExceedsStartupLimit (agentTime serverTime : Time) : bool :=
  let offset := TimeSub agentTime serverTime in
  (startupClockSkewLimit <? offset) || (offset <? - startupClockSkewLimit).

(** [parseMajorVersion], and [majorVersion] of the platform: the number, when it is one
    and not negative. *)
Definition parseMajorVersion (version : string) : option Z :=
  match Atoi (cut_before "."%char (TrimPrefix version "v")) with
  | Some major => if 0 <=? major then Some major else None
  | None => None
  end.

Definition agentMajorVersionBehind (agentVersion serverVersion : string) : bool :=
  match parseMajorVersion agentVersion, parseMajorVersion serverVersion with
  | Some agentMajor, Some serverMajor => agentMajor <? serverMajor
  | _, _ => false
  end.

(** [RunOnce] up to the request: the sample goes into the buffer, and the report has it
    with everything else that is pending. *)
Definition begin_report (host : Host) (now : Time) (s : AgentService) : result (AgentService * AgentReport) :=
  collected ← Collect (agent_previous s) host now;
  let '(value, current) := collected in
  let buffer := pending (buffer_add (agent_buffer s) value) now in
  let backfill := if (1 <? Z.of_nat (length buffer)) then Some (removelast buffer) else None in
  Ok (MkAgentService (agent_Instance s) (agent_version s) (Some current) buffer,
      MkAgentReport (agent_version s) (agent_Instance s) (sampledAt value) (sample_metrics value) backfill).

Definition acknowledge (s : AgentService) : AgentService :=
  MkAgentService (agent_Instance s) (agent_version s) (agent_previous s) [].

(** [RunOnce] from the answer: the error, and whether a warning was logged. *)
Definition finish_report (now : Time) (s : AgentService) (a : answer) : AgentService * (option error * bool) :=
  match a with
  | NoAnswer e => (s, (Some (Errorf "report Agent metrics" e), false))
  | Answered status text json200 json400 =>
      match status =? 200, json200 with
      | true, Some (serverTime, serverVersion) =>
          if clockSkewExceedsStartupLimit now serverTime
          then (s, (Some (ErrNew "clock differs from the platform by more than 5 seconds"), false))
          else (acknowledge s, (None, agentMajorVersionBehind (agent_version s) serverVersion))
      | _, _ =>
          match json400 with
          | Some message => (s, (Some (ErrNew ("report Agent metrics: " +:+ message)), false))
          | None => (s, (Some (ErrNew ("report Agent metrics: server returned " +:+ text)), false))
          end
      end
  end.

Definition RunOnce (post : AgentReport -> answer) (host : Host) (now : Time) (s : AgentService) : AgentService * (option error * bool) :=
  match begin_report host now s with
  | Err e => (s, (Some e, false))
  | Ok (s, body) => finish_report now s (post body)
  end.

(** * The platform *)

Definition agentBackfillWindow : Duration := 5 * Minute.
Definition agentClockSkew : Duration := 30 * Second.
Definition agentClockSkewErrorCode : string := "CLOCK_SKEW".
Definition agentClockSkewMessage : string := "时钟偏移".
Definition agentDiskEmergencyErrorCode : string := "DISK_EMERGENCY_WATERMARK".
Definition agentDiskEmergencyMessage : string := "磁盘紧急水位，样本写入已拒绝".
Definition agentVersionErrorCode : string := "AGENT_VERSION_TOO_OLD".
Definition agentVersionErrorMessage : string := "版本过旧，需升级".

(** The tables a report writes: those of collection, and the column [agent_version] of
    [instance]. *)
Record AgentTables : Type := MkAgentTables {
  agent_tables : Tables;
  agent_versions : gmap string string;
}.

Definition with_tables (t : Tables) (a : AgentTables) : AgentTables := MkAgentTables t (agent_versions a).

Definition on_tables {A} (m : DB Tables A) : DB AgentTables A := focus agent_tables with_tables m.

Definition AGENT : string := "AGENT".

Inductive report_response : Type :=
  | Report200 (serverTime : Time) (serverVersion : string)
  | Report400 (message : string)
  | Report401.

Definition agentVersionSupported (agentVersion serverVersion : string) : bool :=
  match parseMajorVersion agentVersion, parseMajorVersion serverVersion with
  | Some agentMajor, Some serverMajor => serverMajor - 1 <=? agentMajor
  | _, _ => false
  end.

Definition agentReportHasClockSkew (report : AgentReport) (now : Time) : bool :=
  let earliestCurrentSample := TimeAdd now (- agentClockSkew) in
  let latestSample := TimeAdd now agentClockSkew in
  if Before (report_Timestamp report) earliestCurrentSample || After (report_Timestamp report) latestSample then true
  else
    match report_Backfill report with
    | None => false
    | Some backfill => existsb (fun s => After (sampledAt s) latestSample) backfill
    end.

(** [UPDATE instance SET agent_version = $2 WHERE id = $1] *)
Definition set_agent_version (instanceID version : string) : DB AgentTables unit :=
  exec (fun a => match t_instance (agent_tables a) !! instanceID with
                 | None => a
                 | Some _ => MkAgentTables (agent_tables a) (<[instanceID := version]> (agent_versions a)) end).

(** [INSERT INTO instance_collect_state ... ON CONFLICT DO UPDATE] for an instance that
    exists. *)
Definition upsert_agent_state (instanceID : string) (insert : CollectState) (update : CollectState -> CollectState) : DB AgentTables unit :=
  on_tables (statement (fun t =>
    match t_instance t !! instanceID with
    | None => Err (ErrPg "23503")
    | Some _ => Ok (tt, on_collect_state (upsert (instanceID, AGENT) insert update) t)
    end)).

Definition read_paused (instanceID : string) : DB AgentTables bool :=
  on_tables (statement (fun t => match t_paused t !! instanceID with None => Err ErrNoRows | Some paused => Ok (paused, t) end)).

(** The loop over the metrics of a sample. *)
Definition store_batch (instanceID : string) (batch : sample) : DB AgentTables unit :=
  for_each (fun m => on_tables (insertSample instanceID (am_Metric m) (am_Value m) (sampledAt batch))) (sample_metrics batch).

Definition report_samples (report : AgentReport) : list sample :=
  MkSample (report_Timestamp report) (report_Metrics report) :: default [] (report_Backfill report).

Definition storeAgentReport (instanceID : string) (report : AgentReport) (receivedAt : Time) : DB AgentTables unit :=
  let oldestSample := TimeAdd receivedAt (- agentBackfillWindow) in
  InTx (
    _ ← set_agent_version instanceID (report_AgentVersion report);
    _ ← upsert_agent_state instanceID (MkCollectState None (Some (timestamptz receivedAt)) None None)
          (fun old => MkCollectState (source_last_success_at old) (Some (timestamptz receivedAt)) None None);
    paused ← read_paused instanceID;
    if (paused : bool) then mret tt
    else
      for_each (fun batch => if Before (sampledAt batch) oldestSample then mret tt else store_batch instanceID batch)
        (report_samples report)).

Definition recordAgentError (instanceID version code message : string) : DB AgentTables unit :=
  InTx (
    _ ← set_agent_version instanceID version;
    upsert_agent_state instanceID (MkCollectState None None (Some code) (Some message))
      (fun old => MkCollectState (source_last_success_at old) (source_last_report_at old) (Some code) (Some message))).

Definition rejectAgentReport (instanceID version code message : string) : DB AgentTables report_response :=
  _ ← recordAgentError instanceID version code message;
  mret (Report400 message).

(** A report that passed the checks, with the repair of missing partitions. *)
Definition accept_report (serverVersion : string) (span : Duration) (now : Time) (instanceID : string) (report : AgentReport)
    : DB AgentTables report_response :=
  first ← attempt (storeAgentReport instanceID report now);
  match first with
  | Ok _ => mret (Report200 now serverVersion)
  | Err e =>
      if negb (IsMissingPartition e) then fail e
      else
        _ ← on_tables (on_sample_store (EnsurePartitionRange (TimeAdd now (- agentBackfillWindow)) now span));
        _ ← storeAgentReport instanceID report now;
        mret (Report200 now serverVersion)
  end.

(** [authenticated] is the instance of the token, [reject] whether the platform health
    rejects the writing of samples. *)
Definition ReportAgentMetrics (serverVersion : string) (reject : bool) (span : Duration) (now : Time) (authenticated : option string)
    (body : option AgentReport) : DB AgentTables report_response :=
  match body with
  | None => mret (Report400 "report body is required")
  | Some report =>
      match authenticated with
      | None => mret Report401
      | Some instanceID =>
          if negb (bool_decide (instanceID = report_InstanceId report)) then mret Report401
          else if negb (agentVersionSupported (report_AgentVersion report) serverVersion) then
            rejectAgentReport instanceID (report_AgentVersion report) agentVersionErrorCode agentVersionErrorMessage
          else if agentReportHasClockSkew report now then
            rejectAgentReport instanceID (report_AgentVersion report) agentClockSkewErrorCode agentClockSkewMessage
          else if reject then
            rejectAgentReport instanceID (report_AgentVersion report) agentDiskEmergencyErrorCode agentDiskEmergencyMessage
          else accept_report serverVersion span now instanceID report
      end
  end.

(** * Agent and platform together *)

(** What the client sees of a response. *)
Definition answer_of (r : result report_response) : answer :=
  match r with
  | Ok (Report200 serverTime serverVersion) => Answered 200 "200 OK" (Some (serverTime, serverVersion)) None
  | Ok (Report400 message) => Answered 400 "400 Bad Request" None (Some message)
  | Ok Report401 => Answered 401 "401 Unauthorized" None None
  | Err _ => Answered 500 "500 Internal Server Error" None None
  end.

(** A tick of the agent: what the host says, the two clocks, the faults of the platform
    database, whether the platform rejects writes, and how far the request gets. *)
Record tick : Type := MkTick {
  tick_host : Host;
  tick_now : Time;
  tick_server_now : Time;
  tick_faults : list fate;
  tick_reject : bool;
  tick_authenticated : option string;
  tick_delivered : bool;
  tick_heard : bool;
}.

Section System.
Context (serverVersion : string) (span : Duration).

Definition serve (k : tick) (body : AgentReport) : DB AgentTables report_response :=
  ReportAgentMetrics serverVersion (tick_reject k) span (tick_server_now k) (tick_authenticated k) (Some body).

Definition post (k : tick) (t : AgentTables) (body : AgentReport) : answer :=
  if tick_delivered k && tick_heard k then answer_of (serve k body (tick_faults k) t).1.1 else NoAnswer ErrNet.

Definition served (k : tick) (t : AgentTables) (body : AgentReport) : AgentTables :=
  if tick_delivered k then tables_after (serve k body) (tick_faults k) t else t.

Definition run_tick (k : tick) (s : AgentService) (t : AgentTables) : AgentService * AgentTables * option error :=
  let '(s', (e, _)) := RunOnce (post k t) (tick_host k) (tick_now k) s in
  (s', match begin_report (tick_host k) (tick_now k) s with Ok (_, body) => served k t body | Err _ => t end, e).
End System.
