(* ===== verification/AgentInv.v ===== *)
(** What the reports of agents come to: which samples a report can write, and that an
    outage loses none that is recent enough. *)

From S2P Require Import Prelude Float64 Db Text Partitions Dictionary Catalog MetricMath Capability ControlPlane Samples CollectState Agent.

(** * What a report writes *)

Definition rows (a : AgentTables) : list SampleRow := sample_rows (t_samples (agent_tables a)).
Definition series (a : AgentTables) : gmap SeriesKey (Z * Time) := t_series (agent_tables a).
Definition paused (a : AgentTables) : gmap string bool := t_paused (agent_tables a).

(** A value of a metric at a time. *)
Abbreviation entry := (Time * AgentMetric)%type (only parsing).

Definition batch_entries (s : sample) : list entry := map (fun m => (sampledAt s, m)) (sample_metrics s).

(** The values of a report that are recent enough for the platform. *)
Definition entries (report : AgentReport) (receivedAt : Time) : list entry :=
  flat_map (fun s => if Before (sampledAt s) (TimeAdd receivedAt (- agentBackfillWindow)) then [] else batch_entries s)
    (report_samples report).

(** The row is the value, in the series of the instance and the metric. *)
Definition recorded (a : AgentTables) (id : string) (e : entry) (row : SampleRow) : Prop :=
  (exists seen, series a !! (id, am_Metric e.2, EmptyString, ∅) = Some (sample_series_id row, seen)) /\
  sample_ts row = timestamptz e.1 /\ sample_value row = am_Value e.2.

(** Every value has its row. *)
Definition have (id : string) (es : list entry) (a : AgentTables) : Prop :=
  Forall (fun e => exists row, row ∈ rows a /\ recorded a id e row) es.

(** Rows were added, and only for the given values; series keep their numbers. *)
Record extended (id : string) (es : list entry) (a0 a : AgentTables) : Prop := MkExtended {
  ext_rows : exists new, rows a = rows a0 ++ new /\ Forall (fun row => exists e, e ∈ es /\ recorded a id e row) new;
  ext_series key n seen : series a0 !! key = Some (n, seen) -> exists seen', series a !! key = Some (n, seen');
  ext_paused : paused a = paused a0;
}.

Lemma recorded_mono id es a0 a e row : extended id es a0 a -> forall id', recorded a0 id' e row -> recorded a id' e row.
Proof.
  intros H id' [[seen Hs] Hr]. split; [|done]. by apply (ext_series _ _ _ _ H) in Hs.
Qed.

Lemma extended_refl id es a : extended id es a a.
Proof. split; [exists []; by rewrite app_nil_r|eauto|done]. Qed.

Lemma extended_same id es a0 a : series a = series a0 -> rows a = rows a0 -> paused a = paused a0 -> extended id es a0 a.
Proof. intros Es Er Ep. split; [exists []; by rewrite app_nil_r|rewrite Es; eauto|done]. Qed.

Lemma extended_trans id es1 es2 a0 a1 a2 :
  extended id es1 a0 a1 -> extended id es2 a1 a2 -> extended id (es1 ++ es2) a0 a2.
Proof.
  intros H1 H2. destruct (ext_rows _ _ _ _ H1) as (new1&E1&F1), (ext_rows _ _ _ _ H2) as (new2&E2&F2). split.
  - exists (new1 ++ new2). rewrite E2, E1, app_assoc. split; [done|]. apply Forall_app. split.
    + eapply Forall_impl; [exact F1|]. intros row (e&He&Hr). exists e. split; [by apply elem_of_app; left|].
      by eapply recorded_mono.
    + eapply Forall_impl; [exact F2|]. intros row (e&He&Hr). exists e. split; [by apply elem_of_app; right|done].
  - intros key n seen (seen'&Hk)%(ext_series _ _ _ _ H1). by apply (ext_series _ _ _ _ H2) in Hk.
  - by rewrite (ext_paused _ _ _ _ H2), (ext_paused _ _ _ _ H1).
Qed.

Lemma extended_weaken id es es' a0 a : (forall e, e ∈ es -> e ∈ es') -> extended id es a0 a -> extended id es' a0 a.
Proof.
  intros Hsub [(new&E&F) Hs Hp]. split; [|done|done]. exists new. split; [done|]. eapply Forall_impl; [exact F|]. naive_solver.
Qed.

Lemma have_mono id es es' a0 a : extended id es' a0 a -> have id es a0 -> have id es a.
Proof.
  intros H Hh. destruct (ext_rows _ _ _ _ H) as (new&E&_). eapply Forall_impl; [exact Hh|]. intros e (row&Hin&Hr).
  exists row. rewrite E. split; [by apply elem_of_app; left|]. by eapply recorded_mono.
Qed.

(** Storing went through the values [es]. *)
Definition through (id : string) (a0 : AgentTables) (es : list entry) (a : AgentTables) : Prop :=
  extended id es a0 a /\ have id es a.

Lemma insert_through id a0 es ts m :
  triple (through id a0 es) (on_tables (insertSample id (am_Metric m) (am_Value m) ts))
    (fun _ => through id a0 (es ++ [(ts, m)])) (fun _ => True).
Proof.
  apply triple_focus. intros a [Hext Hhave].
  set (key := (id, am_Metric m, EmptyString, ∅) : SeriesKey).
  apply (triple_bind _ _ _ (fun n t => exists seen, t = on_series (<[key := (n, seen)]>) (agent_tables a) /\
    forall old seen0, series a !! key = Some (old, seen0) -> n = old)).
  - apply triple_statement; [done|]. intros t n t' -> Hu. split; [|done]. cbn [cs_metricID cs_databaseName cs_labels] in Hu. fold key in Hu.
    destruct (Lookup Metrics (am_Metric m)); [|done]. injection Hu as <- <-. unfold series.
    destruct (t_series (agent_tables a) !! key) as [[old seen]|]; simpl; (eexists; split; [reflexivity|]); [|done].
    intros old' seen' [= <- <-]. done.
  - intros n. apply triple_focus. intros t (seen&->&Hold). apply triple_statement; [done|]. intros store [] store' -> Hi.
    split; [|done]. unfold insert_sample_row in Hi. destruct (covered _ _); [|done]. injection Hi as <-.
    set (a' := with_tables _ a). set (row := MkSampleRow n (timestamptz ts) (am_Value m)).
    assert (extended id [(ts, m)] a a') as Hnew.
    { split; [|intros key' n' seen' Hk; unfold series, a'; simpl|done].
      - exists [row]. split; [done|]. apply Forall_singleton. exists (ts, m). split; [by apply list_elem_of_singleton|].
        split; [|done]. exists seen. unfold series, a'. simpl. apply lookup_insert_eq.
      - destruct (decide (key' = key)) as [->|Hne]; [|rewrite lookup_insert_ne by done; by exists seen'].
        rewrite lookup_insert_eq. apply Hold in Hk as ->. by exists seen. }
    split; [by eapply extended_trans|]. apply Forall_app. split; [by eapply have_mono|]. apply Forall_singleton. exists row.
    destruct (ext_rows _ _ _ _ Hnew) as (new&E&_). split; [unfold rows, a'; simpl; apply elem_of_app; right; by apply list_elem_of_singleton|].
    split; [|done]. exists seen. unfold series, a'. simpl. apply lookup_insert_eq.
Qed.

Lemma store_batch_through id a0 es s :
  triple (through id a0 es) (store_batch id s) (fun _ => through id a0 (es ++ batch_entries s)) (fun _ => True).
Proof.
  set (P := fun ms => through id a0 (es ++ map (fun m => (sampledAt s, m)) ms)).
  apply (triple_weaken _ (P []) _ _ (fun _ => P (sample_metrics s)) _ (fun _ => True)); [|unfold P; intros a; by rewrite app_nil_r|done|done].
  apply triple_for_each_prefix. intros done m. unfold P. rewrite map_app, app_assoc. apply insert_through.
Qed.

(** The tables other than samples and series may change. *)
Definition quiet (a0 a : AgentTables) : Prop := series a = series a0 /\ rows a = rows a0 /\ paused a = paused a0.

Lemma quiet_through id a0 a : quiet a0 a -> through id a0 [] a.
Proof. intros (Es&Er&Ep). split; [by apply extended_same|constructor]. Qed.

Lemma set_version_quiet a0 id version : triple (quiet a0) (set_agent_version id version) (fun _ => quiet a0) (quiet a0).
Proof. apply triple_exec; [done|]. intros a Ha. by destruct (t_instance (agent_tables a) !! id). Qed.

Lemma upsert_state_quiet a0 id insert update :
  triple (quiet a0) (upsert_agent_state id insert update) (fun _ => quiet a0) (quiet a0).
Proof.
  apply triple_focus. intros a Ha. apply triple_statement; [by intros t ->|]. intros t [] t' -> Hu.
  destruct (t_instance _ !! id); [|done]. injection Hu as <-. done.
Qed.

(** A store that went through. *)
Definition stored (id : string) (report : AgentReport) (receivedAt : Time) (a0 a : AgentTables) : Prop :=
  (paused a0 !! id = Some true /\ quiet a0 a) \/ (paused a0 !! id = Some false /\ through id a0 (entries report receivedAt) a).

Definition touched (id : string) (report : AgentReport) (receivedAt : Time) (a0 a : AgentTables) : Prop :=
  quiet a0 a \/ (paused a0 !! id = Some false /\ extended id (entries report receivedAt) a0 a).

Lemma stored_touched id report at_ a0 a : stored id report at_ a0 a -> touched id report at_ a0 a.
Proof. intros [[_ ?]|[? [? _]]]; [by left|by right]. Qed.

Lemma store_stored id report at_ a0 :
  triple (fun a => a = a0) (storeAgentReport id report at_) (fun _ => stored id report at_ a0) (touched id report at_ a0).
Proof.
  apply triple_InTx_either; [|intros a ->; by left|intros []; apply stored_touched].
  assert (forall A (m : DB AgentTables A), triple (quiet a0) m (fun _ => quiet a0) (quiet a0) ->
            triple (quiet a0) m (fun _ => quiet a0) (fun _ => True)) as Hweak by (intros A m Hm; by eapply triple_weaken).
  apply (triple_bind _ _ _ (fun _ => quiet a0)); [eapply triple_weaken; [apply set_version_quiet|by intros a ->|done|done]|]. intros [].
  eapply triple_bind; [apply Hweak, upsert_state_quiet|]. intros [].
  apply (triple_bind _ _ _ (fun p a => quiet a0 a /\ paused a0 !! id = Some p)).
  { apply triple_focus. intros a Ha. apply triple_statement; [done|]. intros t p t' -> Hp. split; [|done].
    destruct (t_paused _ !! id) eqn:Ep; [|done]. injection Hp as <- <-. destruct Ha as (Hs&Hr&Hq). split; [done|].
    by rewrite <-Hq. }
  intros [|]; [apply triple_ret; intros a [Ha Hp]; by left|].
  apply triple_at. intros a1 [Ha1 Hp].
  set (f := fun s => if Before (sampledAt s) (TimeAdd at_ (- agentBackfillWindow)) then [] else batch_entries s).
  apply (triple_weaken _ (through id a0 (flat_map f [])) _ _ (fun _ => through id a0 (flat_map f (report_samples report))) _ (fun _ => True)).
  - apply (triple_for_each_prefix (fun l => through id a0 (flat_map f l))). intros done s. rewrite flat_map_app. cbn [flat_map]. rewrite app_nil_r. unfold f at 3.
    destruct (Before _ _); [|apply store_batch_through]. apply triple_ret. intros a. by rewrite app_nil_r.
  - intros a ->. by apply quiet_through.
  - intros [] a Ha. by right.
  - done.
Qed.

Lemma ensure_loop_rows fuel boundary end_ span : Keeps sample_rows (ensure_loop fuel boundary end_ span).
Proof.
  revert boundary. induction fuel as [|fuel IH]; intros boundary; simpl; [apply _|]. destruct (After boundary end_); [apply _|].
  apply bind_keeps; [|intros _; apply IH]. apply wrap_keeps, statement_keeps. unfold create_partition. intros store [] store' Hc.
  destruct (partitions store !! _); [by injection Hc as <-|]. destruct (_ || _); [done|]. by injection Hc as <-.
Qed.

Lemma repair_quiet a0 from through_ span :
  triple (quiet a0) (on_tables (on_sample_store (EnsurePartitionRange from through_ span))) (fun _ => quiet a0) (quiet a0).
Proof.
  apply triple_focus. intros a (Hs&Hr&Hp). apply triple_focus. intros t ->.
  intros fs store ->. assert (Keeps sample_rows (EnsurePartitionRange from through_ span)) as Hk.
  { unfold EnsurePartitionRange. destruct (span <? Second); [apply _|]. apply ensure_loop_rows. }
  specialize (Hk fs (t_samples (agent_tables a))). unfold tables_after in Hk.
  assert (forall store', sample_rows store' = sample_rows (t_samples (agent_tables a)) ->
    quiet a0 (with_tables (on_samples (fun _ => store') (agent_tables a)) a)) as Hq.
  { intros store' E. split; [done|]. split; [|done]. unfold rows. simpl. by rewrite E. }
  destruct (EnsurePartitionRange _ _ _ _ _) as [[[[]|e] store'] fs']; by apply Hq.
Qed.

Lemma quiet_extended id es a0 a : quiet a0 a -> extended id es a0 a.
Proof. intros (?&?&?). by apply extended_same. Qed.

Lemma touched_extended id report at_ a0 a : touched id report at_ a0 a -> extended id (entries report at_) a0 a.
Proof. intros [Hq|[_ He]]; [by apply quiet_extended|done]. Qed.

Lemma touched_trans id report at_ a0 a1 a2 :
  touched id report at_ a0 a1 -> touched id report at_ a1 a2 -> touched id report at_ a0 a2.
Proof.
  intros H1 H2. destruct H1 as [(Hs&Hr&Hp)|[Hp H1]].
  - destruct H2 as [(Hs2&Hr2&Hp2)|[Hp2 H2]]; [left; split_and!; congruence|]. right. split; [congruence|].
    eapply extended_weaken; [|eapply extended_trans; [by apply (extended_same id [])|exact H2]]. by intros e.
  - right. split; [done|]. apply touched_extended in H2. eapply extended_weaken; [|by eapply extended_trans].
    intros e [?|?]%elem_of_app; done.
Qed.

Lemma stored_trans id report at_ a0 a1 a2 :
  touched id report at_ a0 a1 -> stored id report at_ a1 a2 ->
  touched id report at_ a0 a2 /\ (paused a0 !! id = Some false -> have id (entries report at_) a2).
Proof.
  intros H1 H2. split; [by eapply touched_trans, stored_touched|]. intros Hp.
  pose proof (ext_paused _ _ _ _ (touched_extended _ _ _ _ _ H1)) as E. destruct H2 as [[? _]|[_ [_ ?]]]; [congruence|done].
Qed.

(** What a report leaves behind, and what its acceptance means. *)
Definition answered (id : string) (report : AgentReport) (at_ : Time) (a0 : AgentTables) (r : report_response) (a : AgentTables) : Prop :=
  touched id report at_ a0 a /\
  match r with Report200 _ _ => paused a0 !! id = Some false -> have id (entries report at_) a | _ => True end.

Lemma accept_answered version span now id report a0 :
  triple (fun a => a = a0) (accept_report version span now id report) (answered id report now a0) (touched id report now a0).
Proof.
  unfold accept_report. apply (triple_bind _ _ _ (fun r a => match r with Ok _ => stored id report now a0 a | Err _ => touched id report now a0 a end)).
  { eapply triple_attempt; [apply store_stored|]. intros e t Ht. exact Ht. }
  intros [[]|e]; [apply triple_ret; intros a Ha; apply (stored_trans _ _ _ a0 a0); [by left|done]|].
  destruct (negb _); [by apply triple_fail|].
  apply triple_at. intros a1 H1. apply (triple_bind _ _ _ (fun _ => quiet a1)).
  { eapply triple_weaken; [apply (repair_quiet a1)|by intros a ->|done|]. intros a Ha. eapply touched_trans; [exact H1|by left]. }
  intros []. apply triple_at. intros a2 H2. assert (touched id report now a0 a2) as H02 by (eapply touched_trans; [exact H1|by left]).
  apply (triple_bind _ _ _ (fun _ => stored id report now a2)).
  { eapply triple_weaken; [apply (store_stored id report now a2)|done|done|]. intros a Ha. by eapply touched_trans. }
  intros []. apply triple_ret. intros a Ha. by eapply stored_trans.
Qed.

Lemma reject_answered id a0 version code message :
  triple (fun a => a = a0) (rejectAgentReport id version code message)
    (fun r a => quiet a0 a /\ r = Report400 message) (quiet a0).
Proof.
  apply (triple_bind _ _ _ (fun _ => quiet a0)); [|intros []; by apply triple_ret].
  apply triple_InTx_either; [|by intros a ->|done].
  apply (triple_bind _ _ _ (fun _ => quiet a0)).
  - eapply triple_weaken; [apply set_version_quiet|by intros a ->|done|done].
  - intros []. eapply triple_weaken; [apply upsert_state_quiet|done|done|done].
Qed.

(** The checks of a report. *)
Definition admissible (version : string) (reject : bool) (now : Time) (authenticated : option string) (report : AgentReport) : bool :=
  bool_decide (authenticated = Some (report_InstanceId report)) && agentVersionSupported (report_AgentVersion report) version &&
  negb (agentReportHasClockSkew report now) && negb reject.

Lemma report_answered version reject span now authenticated report a0 :
  triple (fun a => a = a0) (ReportAgentMetrics version reject span now authenticated (Some report))
    (fun r a => if admissible version reject now authenticated report
                then answered (report_InstanceId report) report now a0 r a
                else quiet a0 a /\ match r with Report200 _ _ => False | _ => True end)
    (fun a => if admissible version reject now authenticated report then touched (report_InstanceId report) report now a0 a else quiet a0 a).
Proof.
  unfold ReportAgentMetrics, admissible. destruct authenticated as [id|]; [|rewrite bool_decide_false by done; apply triple_ret; by intros a ->].
  destruct (decide (id = report_InstanceId report)) as [->|Hne].
  2: { rewrite !bool_decide_false by congruence. apply triple_ret; by intros a ->. }
  rewrite !bool_decide_true by done. cbn [negb andb].
  destruct (agentVersionSupported _ _); [destruct (agentReportHasClockSkew _ _); [|destruct reject]|]; cbn [negb andb]; [..|].
  3: apply accept_answered.
  all: eapply triple_weaken; [apply (reject_answered _ a0)|done| |done]; by intros r a [? ->].
Qed.

(** * Outages *)

Section Outage.
Context (version : string) (span : Duration).
Context (s0 : AgentService) (a0 : AgentTables).

Definition collected_by (k : tick) (s : AgentService) : list sample :=
  match Collect (agent_previous s) (tick_host k) (tick_now k) with Ok (value, _) => [value] | Err _ => [] end.

(** Ticks that fail one after the other: the time of the last one, and the samples
    collected in them. *)
Inductive outage : Time -> list sample -> AgentService -> AgentTables -> Prop :=
  | outage_start now : outage now [] s0 a0
  | outage_tick now collected s a k s' a' e :
      outage now collected s a -> now <= tick_now k -> run_tick version span k s a = (s', a', Some e) ->
      outage (tick_now k) (collected ++ collected_by k s) s' a'.

Definition recent (now : Time) (v : sample) : Prop := now - maxBackfillAge <= sampledAt v.

Lemma elem_of_pending buffer now v : v ∈ pending buffer now <-> v ∈ buffer /\ recent now v.
Proof.
  unfold pending, recent, Before, TimeAdd. rewrite list_elem_of_filter, Z.ltb_ge. split; [intros [? ?]|intros [? ?]]; (split; [|lia || done]); (done || lia).
Qed.

Lemma Collect_sampledAt previous host now value current : Collect previous host now = Ok (value, current) -> sampledAt value = now.
Proof.
  unfold Collect, mbind, result_bind, wrap_error. destruct (host_cpu host) as [[|cpu [|? ?]]|]; try discriminate.
  destruct (host_memory host); [|discriminate]. destruct (host_disk_usage host); [|discriminate].
  destruct (host_disks host); [|discriminate]. destruct (host_networks host); [|discriminate].
  intros H. injection H as <- _. reflexivity.
Qed.

(** A report starts with what is pending, the new sample last. *)
Lemma begin_report_pending host now s s1 body :
  begin_report host now s = Ok (s1, body) ->
  exists value, collected_by (MkTick host now now [] false None false false) s = [value] /\
    agent_buffer s1 = pending (agent_buffer s) now ++ [value] /\ agent_Instance s1 = agent_Instance s /\
    report_InstanceId body = agent_Instance s /\ forall v, v ∈ agent_buffer s1 -> v ∈ report_samples body.
Proof.
  unfold begin_report, collected_by. simpl. destruct (Collect _ _ _) as [[value current]|] eqn:Ec; [|done]. simpl.
  pose proof (Collect_sampledAt _ _ _ _ _ Ec) as Hat.
  assert (pending (buffer_add (agent_buffer s) value) now = pending (agent_buffer s) now ++ [value]) as ->.
  { unfold pending, buffer_add. rewrite filter_app. f_equal. rewrite filter_cons_True; [done|]. unfold Before, TimeAdd, maxBackfillAge, Minute, Second.
    rewrite Hat. apply Z.ltb_ge. lia. }
  intros [= <- <-]. exists value. split; [done|]. split; [done|]. split; [done|]. split; [done|]. simpl. rewrite removelast_last.
  intros v [Hv| ->%list_elem_of_singleton]%elem_of_app; [|destruct value; left]. right. cbn [report_Backfill].
  destruct (Z.ltb_spec 1 (Z.of_nat (length (pending (agent_buffer s) now ++ [value])))) as [|Hle]; [done|].
  rewrite length_app in Hle. simpl in Hle. destruct (pending (agent_buffer s) now); [done|simpl in Hle; lia].
Qed.

(** The answer that empties the buffer. *)
Lemma finish_report_cases now s x :
  let '(s', (e, _)) := finish_report now s x in
  (e = None /\ s' = acknowledge s /\ exists text serverTime serverVersion json400,
     x = Answered 200 text (Some (serverTime, serverVersion)) json400 /\ clockSkewExceedsStartupLimit now serverTime = false) \/
  (is_Some e /\ s' = s).
Proof.
  destruct x as [e|status text json200 json400]; simpl; [by right|].
  destruct (Z.eqb_spec status 200) as [->|]; [|destruct json400; by right].
  destruct json200 as [[serverTime serverVersion]|]; [|destruct json400; by right].
  destruct (clockSkewExceedsStartupLimit now serverTime) eqn:Ec; [by right|]. left. naive_solver.
Qed.

Lemma served_touched k a body : extended (report_InstanceId body) (entries body (tick_server_now k)) a (served version span k a body).
Proof.
  unfold served. destruct (tick_delivered k); [|apply extended_refl]. unfold tables_after.
  pose proof (report_answered version (tick_reject k) span (tick_server_now k) (tick_authenticated k) body a (tick_faults k) a eq_refl) as H.
  unfold serve. destruct (ReportAgentMetrics _ _ _ _ _ _ _ _) as [[[r|e] a'] fs]; simpl in *;
    destruct (admissible _ _ _ _ _); try (by apply touched_extended); try (by apply quiet_extended);
    destruct H as [H _]; [by apply touched_extended|by apply quiet_extended].
Qed.

(** During an outage everything recent stays in the buffer. *)
Lemma outage_buffered now collected s a :
  outage now collected s a ->
  agent_Instance s = agent_Instance s0 /\ paused a = paused a0 /\
  forall v, v ∈ agent_buffer s0 ++ collected -> recent now v -> v ∈ agent_buffer s.
Proof.
  induction 1 as [now|now collected s a k s' a' e _ (Hi&Hp&Hb) Hnow Hk].
  { split; [done|]. split; [done|]. intros v. by rewrite app_nil_r. }
  unfold run_tick in Hk. unfold RunOnce in Hk. destruct (begin_report (tick_host k) (tick_now k) s) as [[s1 body]|e'] eqn:Eb.
  - pose proof (begin_report_pending _ _ _ _ _ Eb) as (value&Hv&Hbuf&Hi1&Hib&_).
    pose proof (finish_report_cases (tick_now k) s1 (post version span k a body)) as Hf.
    destruct (finish_report (tick_now k) s1 (post version span k a body)) as [s2 [e2 w]]. injection Hk as -> <- ->.
    destruct Hf as [[? _]|[_ ->]]; [done|]. split; [congruence|]. split; [by rewrite (ext_paused _ _ _ _ (served_touched k a body))|].
    intros v. change (collected_by k s) with (collected_by (MkTick (tick_host k) (tick_now k) (tick_now k) [] false None false false) s).
    rewrite Hv, Hbuf, app_assoc. intros [Hin|Hin]%elem_of_app Hr; apply elem_of_app; [left|by right].
    apply elem_of_pending. split; [|done]. apply Hb; [done|]. unfold recent in *. lia.
  - injection Hk as <- <- <-. split; [done|]. split; [done|]. intros v Hin Hr. apply Hb; [|unfold recent in *; lia].
    unfold collected_by in Hin. unfold begin_report in Eb. destruct (Collect _ _ _) as [[? ?]|]; [done|]. by rewrite app_nil_r in Hin.
Qed.

Lemma acknowledged_stored k s a s' a' :
  run_tick version span k s a = (s', a', None) ->
  agent_buffer s' = [] /\
  (paused a !! agent_Instance s = Some false ->
   forall v, v ∈ agent_buffer s ++ collected_by k s -> recent (tick_now k) v ->
     tick_server_now k - agentBackfillWindow <= sampledAt v -> have (agent_Instance s) (batch_entries v) a').
Proof.
  unfold run_tick, RunOnce. destruct (begin_report (tick_host k) (tick_now k) s) as [[s1 body]|e'] eqn:Eb; [|done].
  pose proof (begin_report_pending _ _ _ _ _ Eb) as (value&Hv&Hbuf&Hi1&Hib&Hall).
  pose proof (finish_report_cases (tick_now k) s1 (post version span k a body)) as Hf.
  destruct (finish_report (tick_now k) s1 (post version span k a body)) as [s2 [e2 w]]. intros [= -> <- ->].
  destruct Hf as [(_&->&text&st&sv&j&Hpost&_)|[[? ?] _]]; [|done]. split; [done|].
  unfold post in Hpost. destruct (tick_delivered k) eqn:Ed; [|done]. destruct (tick_heard k); [|done]. simpl in Hpost.
  pose proof (report_answered version (tick_reject k) span (tick_server_now k) (tick_authenticated k) body a (tick_faults k) a eq_refl) as H.
  unfold served, tables_after, serve in *. rewrite Ed.
  destruct (ReportAgentMetrics _ _ _ _ _ _ _ _) as [[[r|e] a2] fs]; simpl in *; [|done]. destruct r as [t1 v1| |]; [|done..].
  destruct (admissible _ _ _ _ _); [|naive_solver]. destruct H as [_ H]. rewrite Hib in H. intros Hp v Hin Hr Hs. specialize (H Hp).
  apply Forall_forall. intros e He. unfold have in H. rewrite Forall_forall in H. apply H. unfold entries.
  apply list_elem_of_In, in_flat_map. exists v. split.
  - apply list_elem_of_In, Hall. rewrite Hbuf.
    change (collected_by k s) with (collected_by (MkTick (tick_host k) (tick_now k) (tick_now k) [] false None false false) s) in Hin.
    rewrite Hv in Hin. apply elem_of_app in Hin as [Hin|Hin]; apply elem_of_app; [left; by apply elem_of_pending|by right].
  - unfold Before, TimeAdd. destruct (Z.ltb_spec (sampledAt v) (tick_server_now k + - agentBackfillWindow)); [lia|]. by apply list_elem_of_In.
Qed.
End Outage.

(** * Properties *)

(** C37. A report writes samples only when it comes from the agent of its instance, with a
    supported version, a clock within thirty seconds of the platform's and no emergency
    of the disk, and only while the instance's collection is not paused; it then adds
    nothing but values of the report that are at most five minutes old, in the series of
    that instance. A report that is accepted has all of them stored, whatever statements
    failed on the way. *)
Theorem agent_report_scope (version : string) (reject : bool) (span : Duration) (now : Time) (authenticated : option string)
    (report : AgentReport) (fs : list fate) (a0 : AgentTables) :
  let '(r, a, _) := ReportAgentMetrics version reject span now authenticated (Some report) fs a0 in
  extended (report_InstanceId report) (entries report now) a0 a /\
  (rows a <> rows a0 -> admissible version reject now authenticated report = true /\ paused a0 !! report_InstanceId report = Some false) /\
  (forall serverTime serverVersion, r = Ok (Report200 serverTime serverVersion) ->
     admissible version reject now authenticated report = true /\
     (paused a0 !! report_InstanceId report = Some false -> have (report_InstanceId report) (entries report now) a)).
Proof.
  pose proof (report_answered version reject span now authenticated report a0 fs a0 eq_refl) as H.
  destruct (ReportAgentMetrics _ _ _ _ _ _ _ _) as [[r a] fs']. simpl in H.
  assert (match r with Ok (Report200 _ _) => admissible version reject now authenticated report = true /\
            (paused a0 !! report_InstanceId report = Some false -> have (report_InstanceId report) (entries report now) a) | _ => True end /\
          (if admissible version reject now authenticated report then touched (report_InstanceId report) report now a0 a else quiet a0 a))
    as [Hr Ht] by (unfold answered in H; destruct (admissible _ _ _ _ _); destruct r as [[]|]; try destruct H as [Ha Hb]; auto; done).
  split; [|split].
  - destruct (admissible _ _ _ _ _); [by apply touched_extended|by apply quiet_extended].
  - intros Hne. destruct (admissible _ _ _ _ _); [|by destruct Ht as (_&?&_)]. by destruct Ht as [(_&?&_)|[? _]].
  - intros serverTime serverVersion ->. exact Hr.
Qed.

(** C11. An outage loses no recent sample of an instance whose collection is not paused:
    however many reports of its agent fail, for whatever reason, once a report is
    acknowledged the buffer is empty and every sample collected before or during the
    outage that is at most five minutes old, by the agent's clock and by the platform's,
    is stored with all its values. (For a paused instance the platform acknowledges a
    report and stores no samples.) *)
Theorem outage_loses_nothing_recent (version : string) (span : Duration) (s0 : AgentService) (a0 : AgentTables)
    (now : Time) (collected : list sample) (s : AgentService) (a : AgentTables) (k : tick) (s' : AgentService) (a' : AgentTables) :
  outage version span s0 a0 now collected s a -> now <= tick_now k ->
  run_tick version span k s a = (s', a', None) -> paused a0 !! agent_Instance s0 = Some false ->
  agent_buffer s' = [] /\
  forall v, v ∈ agent_buffer s0 ++ collected ++ collected_by k s ->
    tick_now k - maxBackfillAge <= sampledAt v -> tick_server_now k - agentBackfillWindow <= sampledAt v ->
    have (agent_Instance s0) (batch_entries v) a'.
Proof.
  intros Ho Hnow Hk Hp. destruct (outage_buffered _ _ _ _ _ _ _ _ Ho) as (Hi&Hpa&Hb).
  destruct (acknowledged_stored _ _ _ _ _ _ _ Hk) as [Hempty Hst]. split; [done|]. intros v Hv Hr Hs.
  rewrite <-Hi. apply Hst; [by rewrite Hpa, Hi|..|done|done]. rewrite app_assoc in Hv.
  apply elem_of_app in Hv as [Hv|Hv]; apply elem_of_app; [left|by right]. apply Hb; [done|]. unfold recent. lia.
Qed.

(** * Witnesses *)

Module AgentDemo.
Definition host : Host :=
  MkHost "/" (Ok [f64_of_Z 20]) (Ok (f64_of_Z 50)) (Ok (f64_of_Z 60, 1000)) (Ok [("sda", MkIOCounters 10 5 100 50)]) (Ok [("eth0", (7, 9))]).
Definition fresh : AgentService := MkAgentService "i" "v1.2" None [].
Definition tables : AgentTables := MkAgentTables demo_tables ∅.

(** A first report that does not reach the platform, and a second that does. *)
Definition lost : tick := MkTick host (100 * Second) (101 * Second) [] false (Some "i") false false.
Definition heard : tick := MkTick host (105 * Second) (106 * Second) [] false (Some "i") true true.
Definition after_lost : AgentService * AgentTables * option error := run_tick "v1.3" Day lost fresh tables.
Definition after_heard : AgentService * AgentTables * option error :=
  run_tick "v1.3" Day heard after_lost.1.1 after_lost.1.2.

(** The agent's clock is ten seconds behind. *)
Definition skewed (now : Time) : tick := MkTick host now (now + 10 * Second) [] false (Some "i") true true.
Definition skewed_once : AgentService * AgentTables * option error := run_tick "v1.3" Day (skewed (100 * Second)) fresh tables.
Definition skewed_twice : AgentService * AgentTables * option error :=
  run_tick "v1.3" Day (skewed (105 * Second)) skewed_once.1.1 skewed_once.1.2.

Definition report : AgentReport := MkAgentReport "v1.2" "i" (100 * Second) [MkAgentMetric MetricHostCPUUsagePercent (f64_of_Z 20)] None.
End AgentDemo.

Lemma triple_eta {A B C} (x : A * B * option C) e : x.2 = e -> x = (x.1.1, x.1.2, e).
Proof. intros <-. by destruct x as [[]]. Qed.

(** A clock that is between five and thirty seconds off is accepted by the platform and
    refused by the agent, which then reports the same samples again: the values of the
    first sample are stored by both reports. *)
Lemma skewed_clock_repeats_samples :
  is_Some AgentDemo.skewed_once.2 /\ is_Some AgentDemo.skewed_twice.2 /\
  length (filter (fun row => sample_ts row = 100 * Second) (rows AgentDemo.skewed_once.1.2)) = 4%nat /\
  length (filter (fun row => sample_ts row = 100 * Second) (rows AgentDemo.skewed_twice.1.2)) = 8%nat.
Proof. split; [vm_compute; eauto|]. split; [vm_compute; eauto|]. split; vm_compute; reflexivity. Qed.

Lemma outage_loses_nothing_recent_witness :
  length (agent_buffer AgentDemo.after_lost.1.1) = 1%nat /\ agent_buffer AgentDemo.after_heard.1.1 = [] /\
  forall v, v ∈ agent_buffer AgentDemo.after_lost.1.1 -> have "i" (batch_entries v) AgentDemo.after_heard.1.2.
Proof.
  split; [vm_compute; reflexivity|].
  destruct (outage_loses_nothing_recent "v1.3" Day AgentDemo.fresh AgentDemo.tables (100 * Second)
    (collected_by AgentDemo.lost AgentDemo.fresh) AgentDemo.after_lost.1.1 AgentDemo.after_lost.1.2 AgentDemo.heard
    AgentDemo.after_heard.1.1 AgentDemo.after_heard.1.2) as [He Hh].
  - destruct AgentDemo.after_lost.2 as [e|] eqn:E; [|vm_compute in E; discriminate].
    apply (outage_tick _ _ _ _ 0 [] AgentDemo.fresh AgentDemo.tables AgentDemo.lost _ _ e);
      [apply outage_start|vm_compute; discriminate|exact (triple_eta _ _ E)].
  - vm_compute. discriminate.
  - exact (triple_eta AgentDemo.after_heard None eq_refl).
  - vm_compute. reflexivity.
  - split; [exact He|]. intros v Hv. apply Hh.
    + apply elem_of_app. right. apply elem_of_app. left. vm_compute in Hv. vm_compute. exact Hv.
    + apply list_elem_of_In in Hv. vm_compute in Hv. destruct Hv as [<-|[]]. vm_compute. discriminate.
    + apply list_elem_of_In in Hv. vm_compute in Hv. destruct Hv as [<-|[]]. vm_compute. discriminate.
Defined.
