(* ===== verification/AcceptanceReport.v ===== *)
(** The acceptance report: the verdict on the evidence of a release candidate
    ([internal/acceptancereport/evaluate.go]) and the scan that keeps secrets out of
    the archived report ([cmd/acceptance-report/main.go]). *)

From Stdlib Require Import Ascii.
From S2P Require Import Prelude Text.

(** * Data *)

Inductive Verdict : Type := VerdictGo | VerdictNoGo | VerdictProvisionalPass.

Definition ProfileCI : string := "ci".
Definition ProfileFinal : string := "final".

Definition StatusPass : string := "pass".
Definition StatusFail : string := "fail".
Definition StatusPending : string := "pending".
Definition StatusNA : string := "n-a".

Inductive ReasonCode : Type :=
  | ReasonEvidenceMissing
  | ReasonEvidenceSHAMismatch
  | ReasonHardGateFailed
  | ReasonUnexpectedMatrixState
  | ReasonGitHubActions
  | ReasonRoundsInvalid
  | ReasonRTCDataMissing
  | ReasonManualResultMissing
  | ReasonManualGateFailed.

#[export] Instance ReasonCode_eq_dec : EqDecision ReasonCode.
Proof. solve_decision. Defined.

(** A parsed JSON value; the fields of an object are in some order. *)
Inductive JSON : Type :=
  | JNull
  | JBool (b : bool)
  | JNumber (text : string)
  | JString (s : string)
  | JArray (items : list JSON)
  | JObject (fields : list (string * JSON)).

(** A [json.RawMessage]: [None] when it is empty or not JSON. *)
Abbreviation RawMessage := (option JSON) (only parsing).

Record Entry : Type := MkEntry {
  entry_ID : string;
  entry_Baseline : bool;
  entry_Status : string;
}.

Record Block : Type := MkBlock {
  block_CandidateSHA : string;
  block_Result : string;
  block_Entries : list Entry;
  block_Exceptions : list RawMessage;
  block_Summary : RawMessage;
}.

Record Evidence : Type := MkEvidence {
  ev_Package : option Block;
  ev_CheckFull : option Block;
  ev_Matrix : option Block;
  ev_PGRange : option Block;
  ev_RTC : option Block;
  ev_LinuxNative : option Block;
}.

(** [mr_ResidualRisks] is [None] for a nil slice. *)
Record ManualReview : Type := MkManualReview {
  mr_Operator : string;
  mr_At : Time;
  mr_Result : string;
  mr_ScreenshotIndex : list string;
  mr_ResidualRisks : option (list string);
}.

Record Round : Type := MkRound {
  round_Sequence : Z;
  round_CandidateSHA : string;
  round_Valid : bool;
  round_StartedAt : Time;
  round_FinishedAt : Time;
  round_Environment : RawMessage;
  round_Evidence : Evidence;
  round_ManualReview : option ManualReview;
}.

Record Input : Type := MkInput {
  input_CandidateSHA : string;
  input_Profile : string;
  input_GitHubActions : bool;
  input_Rounds : list Round;
}.

Record Decision : Type := MkDecision {
  dec_Verdict : Verdict;
  dec_Provisional : bool;
  dec_ReasonCodes : list ReasonCode;
}.

Definition matrixEntryCount : Z := 104.
Definition matrixBaselineCount : Z := 101.

Definition allowedMatrixNA : list string := ["AC-03-F2"; "AC-04-F2"; "AC-05-S4"; "AC-08-F2"; "AC-09-F2"].
Definition allowedMatrixPending : list string := ["AC-03-F6"; "AC-08-S8"].

(** * Reasons *)

(** [reasonSet]: only membership is ever asked. *)
Abbreviation reasonSet := (list ReasonCode) (only parsing).

Definition add_if (condition : bool) (reason : ReasonCode) (reasons : reasonSet) : reasonSet :=
  if condition then reason :: reasons else reasons.

Definition hasFailure (reasons : reasonSet) : bool :=
  existsb (fun reason => negb (bool_decide (reason = ReasonGitHubActions))) reasons.

Definition reasonOrder : list ReasonCode :=
  [ReasonEvidenceMissing; ReasonEvidenceSHAMismatch; ReasonHardGateFailed; ReasonUnexpectedMatrixState; ReasonRoundsInvalid;
   ReasonRTCDataMissing; ReasonManualResultMissing; ReasonManualGateFailed; ReasonGitHubActions].

Definition reason_list (reasons : reasonSet) : list ReasonCode := filter (fun reason => reason ∈ reasons) reasonOrder.

(** * Evaluation *)

Definition hasJSONData (contents : RawMessage) : bool :=
  match contents with
  | None | Some JNull => false
  | Some (JObject fields) => negb (bool_decide (length fields = 0%nat))
  | Some (JArray items) => negb (bool_decide (length items = 0%nat))
  | Some _ => true
  end.

(** [strings.ToLower] as far as the lower case is ASCII: U+0130 and U+212A are the only
    other characters that become ASCII ones; the rest is kept. *)
Fixpoint ToLower (s : string) : string :=
  match s with
  | EmptyString => EmptyString
  | String c rest =>
      let b := char_code c in
      if (65 <=? b) && (b <=? 90) then String (char_of (b + 32)) (ToLower rest)
      else
        match rest with
        | String c2 (String c3 rest3 as rest2) =>
            if (b =? 196) && (char_code c2 =? 176) then String "i" (ToLower rest2)
            else if (b =? 226) && (char_code c2 =? 132) && (char_code c3 =? 170) then String "k" (ToLower rest3)
            else String c (ToLower rest)
        | String c2 EmptyString =>
            if (b =? 196) && (char_code c2 =? 176) then "i" else String c (ToLower rest)
        | EmptyString => String c EmptyString
        end
  end.

Definition normalizeStatus (status : string) : string :=
  let normalized := ToLower status in
  if bool_decide (normalized ∈ ["pass"; "passed"]) then StatusPass
  else if bool_decide (normalized ∈ ["fail"; "failed"]) then StatusFail
  else normalized.

Definition timing_valid (round : Round) : bool :=
  negb (IsZero (round_StartedAt round)) && negb (IsZero (round_FinishedAt round)) &&
  After (round_FinishedAt round) (round_StartedAt round).

Definition evaluateFinalRounds (input : Input) (reasons : reasonSet) : reasonSet :=
  match input_Rounds input with
  | [first; second] =>
      if negb (round_Sequence first =? 1) || negb (round_Sequence second =? 2) then ReasonRoundsInvalid :: reasons
      else
        let reasons := foldl (fun reasons round =>
          add_if (negb (hasJSONData (round_Environment round)) || negb (timing_valid round)) ReasonRoundsInvalid reasons)
          reasons [first; second] in
        add_if (negb (IsZero (round_FinishedAt first)) && negb (IsZero (round_StartedAt second)) &&
                Before (round_StartedAt second) (round_FinishedAt first)) ReasonRoundsInvalid reasons
  | _ => ReasonRoundsInvalid :: reasons
  end.

(** The entries of a matrix: as many as there must be, named, each once. *)
Fixpoint distinct_ids (seen : list string) (entries : list Entry) : bool :=
  match entries with
  | [] => true
  | entry :: rest =>
      negb (bool_decide (entry_ID entry = EmptyString)) && negb (bool_decide (entry_ID entry ∈ seen)) &&
      distinct_ids (entry_ID entry :: seen) rest
  end.

Definition baseline_count (entries : list Entry) : Z := Z.of_nat (length (filter (fun entry => entry_Baseline entry = true) entries)).

Definition matrixIsComplete (entries : list Entry) : bool :=
  (Z.of_nat (length entries) =? matrixEntryCount) && distinct_ids [] entries && (baseline_count entries =? matrixBaselineCount).

Definition evaluateMatrix (matrix : option Block) (reasons : reasonSet) : reasonSet :=
  match matrix with
  | None => reasons
  | Some matrix =>
      let reasons := add_if (negb (matrixIsComplete (block_Entries matrix))) ReasonEvidenceMissing reasons in
      let reasons := add_if (negb (bool_decide (length (block_Exceptions matrix) = 0%nat))) ReasonUnexpectedMatrixState reasons in
      foldl (fun reasons entry =>
        let status := normalizeStatus (entry_Status entry) in
        add_if (if bool_decide (status = StatusPending)
                then negb (bool_decide (entry_ID entry ∈ allowedMatrixPending)) || entry_Baseline entry
                else if bool_decide (status = StatusNA) then negb (bool_decide (entry_ID entry ∈ allowedMatrixNA))
                else false) ReasonUnexpectedMatrixState reasons)
        reasons (block_Entries matrix)
  end.

Definition requiredEvidence (profile : string) (e : Evidence) : list (option Block) :=
  if bool_decide (profile = ProfileFinal)
  then [ev_Package e; ev_CheckFull e; ev_Matrix e; ev_PGRange e; ev_RTC e; ev_LinuxNative e]
  else [ev_Matrix e; ev_PGRange e; ev_RTC e].

Definition require_block (candidateSHA : string) (reasons : reasonSet) (block : option Block) : reasonSet :=
  match block with
  | None => ReasonEvidenceMissing :: reasons
  | Some block => add_if (negb (bool_decide (block_CandidateSHA block = candidateSHA))) ReasonEvidenceSHAMismatch reasons
  end.

(** An entry that fails a hard gate. *)
Definition entry_fails (isMatrix : bool) (entry : Entry) : bool :=
  let status := normalizeStatus (entry_Status entry) in
  let isAllowedMatrixNA := isMatrix && bool_decide (status = StatusNA) && bool_decide (entry_ID entry ∈ allowedMatrixNA) in
  let isRequired := negb isMatrix || entry_Baseline entry in
  isRequired && negb (bool_decide (status = StatusPass)) && negb isAllowedMatrixNA.

Definition hard_gate (isMatrix : bool) (reasons : reasonSet) (block : option Block) : reasonSet :=
  match block with
  | None => reasons
  | Some block =>
      let noResult := bool_decide (block_Result block = EmptyString) in
      let reasons := add_if (negb noResult && negb (bool_decide (normalizeStatus (block_Result block) = StatusPass)))
                       ReasonHardGateFailed reasons in
      let reasons := add_if (negb isMatrix && noResult && bool_decide (length (block_Entries block) = 0%nat))
                       ReasonHardGateFailed reasons in
      foldl (fun reasons entry => add_if (entry_fails isMatrix entry) ReasonHardGateFailed reasons) reasons (block_Entries block)
  end.

Definition evaluateEvidence (profile candidateSHA : string) (e : Evidence) (reasons : reasonSet) : reasonSet :=
  let reasons := foldl (require_block candidateSHA) reasons (requiredEvidence profile e) in
  let reasons := foldl (fun reasons '(isMatrix, block) => hard_gate isMatrix reasons block) reasons
    [(false, ev_Package e); (false, ev_CheckFull e); (true, ev_Matrix e); (false, ev_PGRange e); (false, ev_LinuxNative e)] in
  let reasons := evaluateMatrix (ev_Matrix e) reasons in
  match ev_RTC e with
  | Some block => add_if (negb (hasJSONData (block_Summary block))) ReasonRTCDataMissing reasons
  | None => reasons
  end.

Definition review_complete (review : ManualReview) : bool :=
  negb (bool_decide (TrimSpace (mr_Operator review) = EmptyString)) && negb (IsZero (mr_At review)) &&
  negb (bool_decide (mr_Result review = EmptyString)) && negb (bool_decide (length (mr_ScreenshotIndex review) = 0%nat)) &&
  bool_decide (is_Some (mr_ResidualRisks review)).

Definition evaluateManualReview (review : option ManualReview) (reasons : reasonSet) : reasonSet :=
  match review with
  | None => ReasonManualResultMissing :: reasons
  | Some review =>
      if negb (review_complete review) then ReasonManualResultMissing :: reasons
      else add_if (negb (bool_decide (normalizeStatus (mr_Result review) = StatusPass))) ReasonManualGateFailed reasons
  end.

Definition evaluate_round (input : Input) (reasons : reasonSet) (round : Round) : reasonSet :=
  let reasons := add_if (negb (round_Valid round)) ReasonRoundsInvalid reasons in
  let reasons := add_if (negb (bool_decide (round_CandidateSHA round = input_CandidateSHA input))) ReasonEvidenceSHAMismatch reasons in
  let reasons := evaluateEvidence (input_Profile input) (input_CandidateSHA input) (round_Evidence round) reasons in
  if bool_decide (input_Profile input = ProfileFinal) then evaluateManualReview (round_ManualReview round) reasons else reasons.

Definition Evaluate (input : Input) : Decision :=
  let provisional := bool_decide (input_Profile input = ProfileCI) || input_GitHubActions input in
  let reasons := if bool_decide (input_Profile input = ProfileFinal) then evaluateFinalRounds input []
                 else add_if (bool_decide (length (input_Rounds input) = 0%nat)) ReasonRoundsInvalid [] in
  let reasons := foldl (evaluate_round input) reasons (input_Rounds input) in
  let reasons := add_if (input_GitHubActions input) ReasonGitHubActions reasons in
  let verdict := if hasFailure reasons then VerdictNoGo else if provisional then VerdictProvisionalPass else VerdictGo in
  MkDecision verdict provisional (reason_list reasons).

(** * The scan for secrets *)

Definition HasSuffix (s suffix : string) : bool :=
  (String.length suffix <=? String.length s)%nat &&
  bool_decide (String.substring (String.length s - String.length suffix) (String.length suffix) s = suffix).

(** [strings.FieldsFunc] with the characters outside [a] to [z] as separators; [word] is
    the field being read. *)
Fixpoint letter_fields (word : string) (s : string) : list string :=
  let finish := match word with EmptyString => [] | _ => [word] end in
  match s with
  | EmptyString => finish
  | String c rest =>
      if (97 <=? char_code c) && (char_code c <=? 122) then letter_fields (word +:+ String c EmptyString) rest
      else finish ++ letter_fields EmptyString rest
  end.

Definition forbiddenArchiveField (key : string) : bool :=
  let name := ToLower key in
  if bool_decide (name ∈ ["stdout"; "stderr"; "database_dump"; "database_dump_path"]) then true
  else if existsb (HasSuffix name) ["_mode"; "_owner"; "_sha256"; "_present"; "_redacted"; "_path"; "_count"; "_status"] then false
  else if existsb (fun part => bool_decide (part ∈ ["password"; "token"; "secret"; "credential"; "credentials"; "dsn"]))
            (letter_fields EmptyString name) then true
  else Contains name "private_key" || Contains name "database_url".

Section Scan.
(** Whether a text matches one of the three patterns of secret-like values. *)
Context (secret_value : string -> bool).

(** [scanValue]: no error. *)
Fixpoint scanValue (value : JSON) : bool :=
  match value with
  | JObject fields => forallb (fun field => negb (forbiddenArchiveField field.1) && scanValue field.2) fields
  | JArray items => forallb scanValue items
  | JString s => negb (secret_value s)
  | _ => true
  end.
End Scan.

(** * What a candidate must bring *)

Definition passes (status : string) : Prop := normalizeStatus status = StatusPass.

(** A hard gate: its result, if it has one, and its required entries pass; what is not
    the matrix has a result or entries. An entry of the matrix is required when it is in
    the baseline, and may be not applicable when its name is listed. *)
Record gate_passes (isMatrix : bool) (b : Block) : Prop := MkGatePasses {
  gate_result : block_Result b <> EmptyString -> passes (block_Result b);
  gate_evidence : isMatrix = false -> block_Result b <> EmptyString \/ block_Entries b <> [];
  gate_entries entry : entry ∈ block_Entries b -> (isMatrix = false \/ entry_Baseline entry = true) ->
    passes (entry_Status entry) \/
    (isMatrix = true /\ normalizeStatus (entry_Status entry) = StatusNA /\ entry_ID entry ∈ allowedMatrixNA);
}.

(** The matrix: complete, without exceptions, and open or inapplicable only where that
    is foreseen. *)
Record matrix_ok (m : Block) : Prop := MkMatrixOk {
  matrix_count : Z.of_nat (length (block_Entries m)) = matrixEntryCount;
  matrix_named : EmptyString ∉ map entry_ID (block_Entries m);
  matrix_once : NoDup (map entry_ID (block_Entries m));
  matrix_baseline : baseline_count (block_Entries m) = matrixBaselineCount;
  matrix_exceptions : block_Exceptions m = [];
  matrix_pending entry : entry ∈ block_Entries m -> normalizeStatus (entry_Status entry) = StatusPending ->
    entry_ID entry ∈ allowedMatrixPending /\ entry_Baseline entry = false;
  matrix_na entry : entry ∈ block_Entries m -> normalizeStatus (entry_Status entry) = StatusNA -> entry_ID entry ∈ allowedMatrixNA;
}.

Record evidence_ok (profile candidateSHA : string) (e : Evidence) : Prop := MkEvidenceOk {
  evidence_present b : b ∈ requiredEvidence profile e -> exists block, b = Some block /\ block_CandidateSHA block = candidateSHA;
  evidence_gates isMatrix b :
    (isMatrix, Some b) ∈ [(false, ev_Package e); (false, ev_CheckFull e); (true, ev_Matrix e); (false, ev_PGRange e); (false, ev_LinuxNative e)] ->
    gate_passes isMatrix b;
  evidence_matrix m : ev_Matrix e = Some m -> matrix_ok m;
  evidence_rtc b : ev_RTC e = Some b -> hasJSONData (block_Summary b) = true;
}.

(** Two rounds of a final report, one after the other. *)
Definition final_rounds (rounds : list Round) : Prop :=
  exists first second, rounds = [first; second] /\ round_Sequence first = 1 /\ round_Sequence second = 2 /\
    (forall round, round ∈ rounds -> hasJSONData (round_Environment round) = true /\ timing_valid round = true) /\
    round_FinishedAt first <= round_StartedAt second.

Definition review_ok (review : option ManualReview) : Prop :=
  exists r, review = Some r /\ review_complete r = true /\ passes (mr_Result r).

Definition acceptable (input : Input) : Prop :=
  (if bool_decide (input_Profile input = ProfileFinal) then final_rounds (input_Rounds input) else input_Rounds input <> []) /\
  forall round, round ∈ input_Rounds input ->
    round_Valid round = true /\ round_CandidateSHA round = input_CandidateSHA input /\
    evidence_ok (input_Profile input) (input_CandidateSHA input) (round_Evidence round) /\
    (input_Profile input = ProfileFinal -> review_ok (round_ManualReview round)).

(** * The reasons gathered *)

(** No reason but that of a run in GitHub Actions. *)
Definition clean (reasons : list ReasonCode) : Prop := hasFailure reasons = false.

Lemma clean_cons reason reasons : reason <> ReasonGitHubActions -> ~ clean (reason :: reasons).
Proof. intros Hr. unfold clean. simpl. by rewrite bool_decide_false. Qed.

Lemma clean_add condition reason reasons :
  reason <> ReasonGitHubActions -> (clean (add_if condition reason reasons) <-> condition = false /\ clean reasons).
Proof. intros Hr. destruct condition; simpl; [|naive_solver]. split; [intros []%clean_cons; done|naive_solver]. Qed.

Lemma clean_foldl {A} (step : list ReasonCode -> A -> list ReasonCode) (good : A -> Prop) items reasons :
  (forall reasons a, clean (step reasons a) <-> good a /\ clean reasons) ->
  (clean (foldl step reasons items) <-> (forall a, a ∈ items -> good a) /\ clean reasons).
Proof.
  intros Hstep. revert reasons. induction items as [|a items IH]; intros reasons; simpl.
  - split; [intros H; split; [by intros a ?%elem_of_nil|done]|by intros []].
  - rewrite IH, Hstep. setoid_rewrite elem_of_cons. naive_solver.
Qed.

Lemma distinct_ids_spec seen entries :
  distinct_ids seen entries = true <->
  (EmptyString ∉ map entry_ID entries) /\ NoDup (map entry_ID entries) /\ (forall id, id ∈ map entry_ID entries -> id ∉ seen).
Proof.
  revert seen. induction entries as [|entry entries IH]; intros seen; simpl.
  - split; [|done]. intros _. split_and!; [apply not_elem_of_nil|constructor|by intros id ?%elem_of_nil].
  - rewrite !andb_true_iff, !negb_true_iff, !bool_decide_eq_false, IH, NoDup_cons, not_elem_of_cons.
    setoid_rewrite elem_of_cons. split.
    + intros [[Hne Hnew] (He&Hn&Hs)]. split_and!; [by intros ?|done|intros Hin; by apply (Hs _ Hin); left|done|].
      intros id [->|Hin]; [done|]. intros ?. by apply (Hs _ Hin); right.
    + intros ((Hne&He)&(Hnew&Hn)&Hs). split_and!; [by intros ?|by apply Hs; left|done|done|].
      intros id Hin [->|Hseen]; [done|]. by apply (Hs id); [right|].
Qed.

Lemma matrix_complete_spec entries :
  matrixIsComplete entries = true <->
  Z.of_nat (length entries) = matrixEntryCount /\ ((EmptyString ∉ map entry_ID entries) /\ NoDup (map entry_ID entries)) /\
  baseline_count entries = matrixBaselineCount.
Proof.
  unfold matrixIsComplete. rewrite !andb_true_iff, !Z.eqb_eq, distinct_ids_spec. split; [naive_solver|].
  intros (?&(?&?)&?). split_and!; try done. intros id _. apply not_elem_of_nil.
Qed.

Lemma nil_length {A} (l : list A) : length l = 0%nat <-> l = [].
Proof. by destruct l. Qed.

Lemma clean_matrix m reasons :
  clean (evaluateMatrix m reasons) <-> (forall b, m = Some b -> matrix_ok b) /\ clean reasons.
Proof.
  destruct m as [m|]; simpl; [|naive_solver].
  rewrite (clean_foldl _ (fun entry =>
    (normalizeStatus (entry_Status entry) = StatusPending -> entry_ID entry ∈ allowedMatrixPending /\ entry_Baseline entry = false) /\
    (normalizeStatus (entry_Status entry) = StatusNA -> entry_ID entry ∈ allowedMatrixNA))).
  - rewrite !clean_add, !negb_false_iff, matrix_complete_spec, bool_decide_eq_true, nil_length by done. split.
    + intros [Hen (Hex&(Hc&(Hn&Ho)&Hb)&Hr)]. split; [|done]. intros b [= <-]. split; try done; naive_solver.
    + intros [Hm Hr]. destruct (Hm m eq_refl). split; [naive_solver|done].
  - intros rs entry. rewrite clean_add by done. assert (StatusPending <> StatusNA) as Hne by done.
    destruct (entry_Baseline entry); repeat case_bool_decide; simpl; intuition congruence.
Qed.

Lemma entry_fails_spec isMatrix entry :
  entry_fails isMatrix entry = false <->
  ((isMatrix = false \/ entry_Baseline entry = true) -> passes (entry_Status entry) \/
    (isMatrix = true /\ normalizeStatus (entry_Status entry) = StatusNA /\ entry_ID entry ∈ allowedMatrixNA)).
Proof.
  unfold entry_fails, passes. destruct isMatrix, (entry_Baseline entry); simpl; repeat case_bool_decide; simpl; intuition congruence.
Qed.

Lemma clean_gate isMatrix b reasons :
  clean (hard_gate isMatrix reasons b) <-> (forall block, b = Some block -> gate_passes isMatrix block) /\ clean reasons.
Proof.
  destruct b as [b|]; simpl; [|naive_solver].
  rewrite (clean_foldl _ (fun entry => (isMatrix = false \/ entry_Baseline entry = true) -> passes (entry_Status entry) \/
    (isMatrix = true /\ normalizeStatus (entry_Status entry) = StatusNA /\ entry_ID entry ∈ allowedMatrixNA)))
    by (intros rs entry; by rewrite clean_add, entry_fails_spec).
  rewrite !clean_add by done. unfold passes. split.
  - intros [Hentries (H2&H1&Hr)]. split; [|done]. intros b' [= <-]. split; [| |done].
    + intros Hne. rewrite bool_decide_false in H1 by done. unfold passes. by case_bool_decide.
    + intros ->. destruct (decide (block_Result b = EmptyString)) as [He|]; [right|by left]. rewrite bool_decide_true in H2 by done.
      intros Hnil. by rewrite Hnil in H2.
  - intros [Hg Hr]. destruct (Hg b eq_refl) as [H1 H2 H3]. split; [done|]. split; [|split; [|done]].
    + destruct isMatrix; [done|]. destruct (H2 eq_refl) as [H|H]; [by rewrite bool_decide_false|].
      rewrite (bool_decide_false (length _ = _)), andb_false_r; [done|]. by rewrite nil_length.
    + case_bool_decide as He; [done|]. by rewrite (bool_decide_true _ (H1 He)).
Qed.

Lemma clean_required candidateSHA b reasons :
  clean (require_block candidateSHA reasons b) <->
  (exists block, b = Some block /\ block_CandidateSHA block = candidateSHA) /\ clean reasons.
Proof.
  destruct b as [b|]; simpl.
  - rewrite clean_add, negb_false_iff, bool_decide_eq_true by done. naive_solver.
  - split; [intros []%clean_cons; done|naive_solver].
Qed.

Lemma clean_evidence profile candidateSHA e reasons :
  clean (evaluateEvidence profile candidateSHA e reasons) <-> evidence_ok profile candidateSHA e /\ clean reasons.
Proof.
  set (gates := [(false, ev_Package e); (false, ev_CheckFull e); (true, ev_Matrix e); (false, ev_PGRange e); (false, ev_LinuxNative e)]).
  assert (forall rs, clean (foldl (fun reasons '(isMatrix, block) => hard_gate isMatrix reasons block) rs gates) <->
    (forall isMatrix b, (isMatrix, Some b) ∈ gates -> gate_passes isMatrix b) /\ clean rs) as Hgates.
  { intros rs. rewrite (clean_foldl _ (fun p => forall b, p.2 = Some b -> gate_passes p.1 b)).
    - split; (intros [H ?]; split; [|done]); [intros isMatrix b Hin; by apply (H (isMatrix, Some b))|].
      intros [isMatrix b'] Hin b Hb. simpl in *. subst. by apply H.
    - intros r [isMatrix b]. apply clean_gate. }
  unfold evaluateEvidence. fold gates.
  assert (clean (match ev_RTC e with Some block => add_if (negb (hasJSONData (block_Summary block))) ReasonRTCDataMissing
      (evaluateMatrix (ev_Matrix e) (foldl (fun reasons '(isMatrix, block) => hard_gate isMatrix reasons block)
        (foldl (require_block candidateSHA) reasons (requiredEvidence profile e)) gates))
    | None => evaluateMatrix (ev_Matrix e) (foldl (fun reasons '(isMatrix, block) => hard_gate isMatrix reasons block)
        (foldl (require_block candidateSHA) reasons (requiredEvidence profile e)) gates) end) <->
    (forall b, ev_RTC e = Some b -> hasJSONData (block_Summary b) = true) /\ (forall m, ev_Matrix e = Some m -> matrix_ok m) /\
    (forall isMatrix b, (isMatrix, Some b) ∈ gates -> gate_passes isMatrix b) /\
    (forall b, b ∈ requiredEvidence profile e -> exists block, b = Some block /\ block_CandidateSHA block = candidateSHA) /\
    clean reasons) as ->.
  { destruct (ev_RTC e); rewrite ?clean_add, ?negb_false_iff, clean_matrix, Hgates, (clean_foldl _ _ _ _ (fun rs b => clean_required candidateSHA b rs)) by done;
      [|by intuition]. split; [intros (?&?&?&?&?); split_and!; [by intros ? [= <-]|done..]|intros (Hr&?&?&?&?); split_and!; [by apply Hr|done..]]. }
  split; [intros (?&?&?&?&?); split; [by split|done]|intros [[? ? ? ?] ?]; by split_and!].
Qed.

Lemma clean_review review reasons : clean (evaluateManualReview review reasons) <-> review_ok review /\ clean reasons.
Proof.
  unfold review_ok, passes. destruct review as [r|]; simpl.
  - destruct (review_complete r) eqn:Ec; simpl.
    + rewrite clean_add, negb_false_iff, bool_decide_eq_true by done. naive_solver.
    + split; [intros []%clean_cons; done|]. intros [(?&[= <-]&?&_) _]. congruence.
  - split; [intros []%clean_cons; done|]. by intros [(?&?&_) _].
Qed.

Lemma clean_round input reasons round :
  clean (evaluate_round input reasons round) <->
  (round_Valid round = true /\ round_CandidateSHA round = input_CandidateSHA input /\
   evidence_ok (input_Profile input) (input_CandidateSHA input) (round_Evidence round) /\
   (input_Profile input = ProfileFinal -> review_ok (round_ManualReview round))) /\ clean reasons.
Proof.
  unfold evaluate_round. case_bool_decide; rewrite ?clean_review, clean_evidence, !clean_add, !negb_false_iff, bool_decide_eq_true by done;
    naive_solver.
Qed.

Lemma clean_final input : clean (evaluateFinalRounds input []) <-> final_rounds (input_Rounds input).
Proof.
  unfold evaluateFinalRounds, final_rounds. destruct (input_Rounds input) as [|first [|second [|]]];
    [split; [intros []%clean_cons; done|naive_solver].. | |split; [intros []%clean_cons; done|naive_solver]].
  destruct (Z.eqb_spec (round_Sequence first) 1) as [E1|]; simpl; [|split; [intros []%clean_cons; done|naive_solver]].
  destruct (Z.eqb_spec (round_Sequence second) 2) as [E2|]; simpl; [|split; [intros []%clean_cons; done|naive_solver]].
  rewrite !clean_add, !orb_false_iff, !negb_false_iff by done. unfold Before. split.
  - intros (Hb&(Hj2&Ht2)&(Hj1&Ht1)&_). exists first, second. split_and!; try done.
    + intros round [->|[->|?%elem_of_nil]%elem_of_cons]%elem_of_cons; done.
    + unfold timing_valid in *. apply andb_true_iff in Ht1 as [[Hs1 Hf1]%andb_true_iff _], Ht2 as [[Hs2 Hf2]%andb_true_iff _].
      rewrite Hf1, Hs2 in Hb. simpl in Hb. by apply Z.ltb_ge in Hb.
  - intros (f&s&[= <- <-]&_&_&Hall&Hle). destruct (Hall first) as [Hj1 Ht1]; [left|]. destruct (Hall second) as [Hj2 Ht2]; [right; left|].
    split_and!; try done. rewrite (proj2 (Z.ltb_ge _ _) Hle). by rewrite andb_false_r.
Qed.

Lemma clean_all input :
  clean (foldl (evaluate_round input) (if bool_decide (input_Profile input = ProfileFinal) then evaluateFinalRounds input []
     else add_if (bool_decide (length (input_Rounds input) = 0%nat)) ReasonRoundsInvalid []) (input_Rounds input)) <-> acceptable input.
Proof.
  rewrite (clean_foldl _ _ _ _ (clean_round input)). unfold acceptable. case_bool_decide; [rewrite clean_final; naive_solver|].
  rewrite clean_add, bool_decide_eq_false, nil_length by done. split; [naive_solver|]. intros [? ?]. by split_and!.
Qed.

Lemma reason_list_nil reasons : reason_list reasons = [] <-> reasons = [].
Proof.
  split; [|by intros ->]. intros H. destruct reasons as [|r reasons]; [done|]. exfalso.
  assert (r ∈ reason_list (r :: reasons)) as Hin; [|rewrite H in Hin; by apply elem_of_nil in Hin].
  apply list_elem_of_filter. split; [left|]. unfold reasonOrder. destruct r; set_solver.
Qed.

(** * Secrets *)

Lemma JSON_nested (P : JSON -> Prop) :
  P JNull -> (forall b, P (JBool b)) -> (forall text, P (JNumber text)) -> (forall s, P (JString s)) ->
  (forall items, Forall P items -> P (JArray items)) ->
  (forall fields, Forall (fun field => P field.2) fields -> P (JObject fields)) -> forall value, P value.
Proof.
  intros Hnull Hbool Hnum Hstr Harr Hobj. fix IH 1. intros [|b|text|s|items|fields]; [done..| |].
  - apply Harr. induction items as [|value items IHi]; constructor; [apply IH|exact IHi].
  - apply Hobj. induction fields as [|[key value] fields IHf]; constructor; [apply IH|exact IHf].
Qed.

Section Leaks.
Context (secret_value : string -> bool).

(** A forbidden field name or a secret-like text somewhere in the value. *)
Inductive leaks : JSON -> Prop :=
  | leak_name fields key value : (key, value) ∈ fields -> forbiddenArchiveField key = true -> leaks (JObject fields)
  | leak_field fields key value : (key, value) ∈ fields -> leaks value -> leaks (JObject fields)
  | leak_item items value : value ∈ items -> leaks value -> leaks (JArray items)
  | leak_text s : secret_value s = true -> leaks (JString s).

Lemma scanValue_leaks value : scanValue secret_value value = true <-> ~ leaks value.
Proof.
  induction value as [|b|text|s|items IH|fields IH] using JSON_nested; simpl; try (split; [intros _ H; inversion H|done]).
  - rewrite negb_true_iff. split; [intros Hs H; inversion H; congruence|]. intros H. apply not_true_is_false. intros Hs. by apply H; constructor.
  - transitivity (forall value, value ∈ items -> ~ leaks value).
    + induction IH as [|value items Hv _ IHi]; simpl; [split; [by intros _ v ?%elem_of_nil|done]|].
      rewrite andb_true_iff, IHi, Hv. setoid_rewrite elem_of_cons. naive_solver.
    + split; [intros H Hl; inversion Hl; subst; by eapply H|]. intros H value Hin Hl. by apply H; econstructor.
  - transitivity (forall key value, (key, value) ∈ fields -> forbiddenArchiveField key = false /\ ~ leaks value).
    + induction IH as [|[key value] fields Hv _ IHf]; simpl in *; [split; [by intros _ k v ?%elem_of_nil|done]|].
      rewrite !andb_true_iff, negb_true_iff, IHf, Hv. setoid_rewrite elem_of_cons. naive_solver.
    + split.
      * intros H Hl. inversion Hl as [? k v Hin Hf|? k v Hin Hv| |]; subst; destruct (H _ _ Hin); congruence || done.
      * intros H key value Hin. split; [apply not_true_is_false; intros Hf; by apply H; econstructor|]. intros Hl. by apply H; eapply leak_field.
Qed.
End Leaks.

(** * Properties *)

(** The verdict on a release candidate is earned: it is GO exactly when the evidence
    is acceptable and the report is neither of the CI profile nor made in GitHub Actions,
    which make an acceptable candidate a provisional pass; anything else is NO-GO, and
    the report then names a reason. *)
Theorem verdict_is_earned (input : Input) :
  let d := Evaluate input in
  (dec_Verdict d = VerdictGo <-> acceptable input /\ input_Profile input <> ProfileCI /\ input_GitHubActions input = false) /\
  (dec_Verdict d = VerdictProvisionalPass <->
     acceptable input /\ (input_Profile input = ProfileCI \/ input_GitHubActions input = true)) /\
  (dec_Verdict d = VerdictNoGo <-> ~ acceptable input) /\
  (dec_Verdict d = VerdictNoGo -> dec_ReasonCodes d <> []).
Proof.
  pose proof (clean_all input) as Hc. unfold clean in Hc. unfold Evaluate. cbv zeta.
  set (gathered := foldl (evaluate_round input) _ _) in *. cbn [dec_Verdict dec_ReasonCodes].
  assert (hasFailure (add_if (input_GitHubActions input) ReasonGitHubActions gathered) = hasFailure gathered) as ->
    by (by destruct (input_GitHubActions input)).
  rewrite reason_list_nil. rewrite <-Hc. destruct (hasFailure gathered) eqn:Ef.
  - split_and!; [intuition discriminate..|]. intros _ Hnil. destruct (input_GitHubActions input); [done|]. simpl in Hnil. by rewrite Hnil in Ef.
  - case_bool_decide; destruct (input_GitHubActions input); simpl; intuition congruence.
Qed.

(** A report of the final profile with two rounds, and what makes it one. *)
Module AcceptanceDemo.
Definition sha : string := "candidate".
Definition entry (n : nat) : Entry := MkEntry ("AC-" +:+ Itoa (Z.of_nat n)) (n <? 101)%nat "passed".
Definition block (entries : list Entry) : Block := MkBlock sha "PASS" entries [] (Some (JObject [("samples", JNumber "1")])).
Definition evidence : Evidence :=
  MkEvidence (Some (block [])) (Some (block [])) (Some (block (map entry (seq 0 104)))) (Some (block [])) (Some (block [])) (Some (block [])).
Definition review : ManualReview := MkManualReview "operator" (5 * Second) "pass" ["home.png"] (Some []).
Definition round (sequence start : Z) : Round :=
  MkRound sequence sha true start (start + Second) (Some (JObject [("os", JString "linux")])) evidence (Some review).
Definition input (profile : string) (actions : bool) : Input := MkInput sha profile actions [round 1 Second; round 2 (3 * Second)].
End AcceptanceDemo.

Example final_report_goes : dec_Verdict (Evaluate (AcceptanceDemo.input ProfileFinal false)) = VerdictGo.
Proof. vm_compute. reflexivity. Qed.
Example ci_report_is_provisional : dec_Verdict (Evaluate (AcceptanceDemo.input ProfileCI false)) = VerdictProvisionalPass.
Proof. vm_compute. reflexivity. Qed.
