(* ===== verification/Preflight.v ===== *)
(** The prerequisites of the platform database ([internal/platformdb/preflight.go]):
    what the catalogues of the server say, and the findings that stop the start. *)

From S2P Require Import Prelude Text.

Definition requiredPostgresMajorVersion : Z := 17.
Definition recommendedPostgresVersionNum : Z := 170010.

Inductive Code : Type :=
  | CodeVersionUnsupported
  | CodeEncodingUnsupported
  | CodeSchemaCreateDenied
  | CodeSchemaNotClean
  | CodeTLSInactive
  | CodeLocaleNonstandard
  | CodeTimeZoneNonUTC
  | CodeInstanceShared
  | CodeMinorVersionOutdated.

Definition string_of_code (code : Code) : string :=
  match code with
  | CodeVersionUnsupported => "PLATFORM_DATABASE_VERSION_UNSUPPORTED"
  | CodeEncodingUnsupported => "PLATFORM_DATABASE_ENCODING_UNSUPPORTED"
  | CodeSchemaCreateDenied => "PLATFORM_DATABASE_SCHEMA_CREATE_DENIED"
  | CodeSchemaNotClean => "PLATFORM_DATABASE_SCHEMA_NOT_CLEAN"
  | CodeTLSInactive => "PLATFORM_DATABASE_TLS_INACTIVE"
  | CodeLocaleNonstandard => "PLATFORM_DATABASE_LOCALE_NONSTANDARD"
  | CodeTimeZoneNonUTC => "PLATFORM_DATABASE_TIMEZONE_NON_UTC"
  | CodeInstanceShared => "PLATFORM_DATABASE_INSTANCE_SHARED"
  | CodeMinorVersionOutdated => "PLATFORM_DATABASE_MINOR_VERSION_OUTDATED"
  end.

Record Finding : Type := MkFinding {
  finding_Code : Code;
  finding_Message : string;
}.

Record Report : Type := MkReport {
  report_Fatal : list Finding;
  report_Warnings : list Finding;
}.

(** The text of the error; [None] is no error. *)
Definition FatalError (report : Report) : option string :=
  match report_Fatal report with
  | [] => None
  | findings =>
      Some ("platform database prerequisites rejected: " +:+
            Join (map (fun f => string_of_code (finding_Code f) +:+ ": " +:+ finding_Message f) findings) "; ")
  end.

Record Facts : Type := MkFacts {
  facts_ServerVersionNum : Z;
  facts_Encoding : string;
  facts_CanCreateSchema : bool;
  facts_UnexpectedObjects : list string;
  facts_TLSActive : bool;
  facts_LocaleProvider : string;
  facts_Collation : string;
  facts_CharacterType : string;
  facts_TimeZone : string;
  facts_OtherDatabaseCount : Z;
}.

(** Integer division truncates. *)
Definition postgresMajorVersion (serverVersionNum : Z) : Z := Z.quot serverVersionNum 10000.

Definition standardLocale (provider collation characterType : string) : bool :=
  let isStandard value := EqualFold value "C" || EqualFold value "POSIX" in
  if negb (bool_decide (provider = "c")) then false else isStandard collation && isStandard characterType.

Definition find_if (condition : bool) (code : Code) (message : string) : list Finding :=
  if condition then [MkFinding code message] else [].

Definition fatal_findings (facts : Facts) : list Finding :=
  let majorVersion := postgresMajorVersion (facts_ServerVersionNum facts) in
  find_if (negb (majorVersion =? requiredPostgresMajorVersion)) CodeVersionUnsupported
    ("PostgreSQL major version is " +:+ Itoa majorVersion +:+ " (server_version_num=" +:+ Itoa (facts_ServerVersionNum facts) +:+
     "); version " +:+ Itoa requiredPostgresMajorVersion +:+ " is required") ++
  find_if (negb (EqualFold (facts_Encoding facts) "UTF8")) CodeEncodingUnsupported
    ("database encoding is " +:+ quoted (facts_Encoding facts) +:+ "; UTF8 is required") ++
  find_if (negb (facts_CanCreateSchema facts)) CodeSchemaCreateDenied
    "current role cannot CREATE in schema dbsmon or the schema does not exist" ++
  find_if (0 <? Z.of_nat (length (facts_UnexpectedObjects facts))) CodeSchemaNotClean
    ("schema dbsmon contains non-platform objects: " +:+ Join (facts_UnexpectedObjects facts) ", ") ++
  find_if (negb (facts_TLSActive facts)) CodeTLSInactive
    "pg_stat_ssl reports that the platform database connection is not encrypted".

Definition warning_findings (facts : Facts) : list Finding :=
  let majorVersion := postgresMajorVersion (facts_ServerVersionNum facts) in
  find_if (negb (standardLocale (facts_LocaleProvider facts) (facts_Collation facts) (facts_CharacterType facts))) CodeLocaleNonstandard
    ("database locale is provider=" +:+ quoted (facts_LocaleProvider facts) +:+ " collation=" +:+ quoted (facts_Collation facts) +:+
     " ctype=" +:+ quoted (facts_CharacterType facts) +:+ "; C or POSIX libc locale is recommended") ++
  find_if (negb (EqualFold (facts_TimeZone facts) "UTC")) CodeTimeZoneNonUTC
    ("database session TimeZone is " +:+ quoted (facts_TimeZone facts) +:+ "; UTC is recommended") ++
  find_if (0 <? facts_OtherDatabaseCount facts) CodeInstanceShared
    ("PostgreSQL instance has " +:+ Itoa (facts_OtherDatabaseCount facts) +:+
     " other non-system database(s); a dedicated instance is recommended") ++
  find_if ((majorVersion =? requiredPostgresMajorVersion) && (facts_ServerVersionNum facts <? recommendedPostgresVersionNum))
    CodeMinorVersionOutdated
    ("PostgreSQL minor version is behind the recommended patch level (server_version_num=" +:+ Itoa (facts_ServerVersionNum facts) +:+
     ", recommended>=" +:+ Itoa recommendedPostgresVersionNum +:+ ")").

Definition Evaluate (facts : Facts) : Report := MkReport (fatal_findings facts) (warning_findings facts).

(** * The query *)

Definition platformRelations : list string := [
  "goose_db_version"; "goose_db_version_id_seq"; "app_user"; "user_session"; "instance";
  "instance_collect_state"; "metric_semantic_slot"; "metric_catalog"; "metric_series"; "metric_series_series_id_seq";
  "metric_sample"; "alert_instance"; "instance_collection_config"; "collection_task_config"; "instance_collection_task_state";
  "instance_collection_connection_state"; "alert_rule"; "alert_rule_version"; "alert_event"; "alert_event_id_seq";
  "instance_capability_snapshot"; "alert_rule_scope_instance"; "alert_rule_evaluation_state"; "alert_trigger_snapshot"; "alert_trigger_snapshot_session";
  "long_query_sample_snapshot"; "long_query_sample"; "instance_session_snapshot"; "instance_session_snapshot_entry"; "instance_identity";
  "performance_event"; "query_statistics_snapshot"; "query_statistics_snapshot_entry"; "query_statement_text"; "notification_policy";
  "alert_rule_template"; "smtp_channel"; "notification_delivery"; "notification_attempt"; "notification_attempt_id_seq";
  "webhook_target"; "notification_contact"; "notification_contact_group"; "notification_contact_group_member"; "notification_policy_contact";
  "notification_policy_contact_group"; "notification_policy_channel"; "notification_policy_channel_id_seq"; "maintenance_window"; "maintenance_window_instance";
  "platform_event"; "platform_event_id_seq"].

Definition platformFunctions : list string := ["protect_default_notification_policy"].
Definition platformTriggers : list string := ["notification_policy_default_guard"].

(** An entry of [pg_class] in the schema [dbsmon]; [rel_sample_partition] says that it
    is a partition of [dbsmon.metric_sample]. *)
Record Relation : Type := MkRelation {
  rel_name : string;
  rel_kind : string;
  rel_sample_partition : bool;
}.

(** Of [pg_type]: whether it is the row type of a relation or an array type. *)
Record SchemaType : Type := MkSchemaType {
  typ_name : string;
  typ_of_relation : bool;
  typ_of_element : bool;
}.

Record SchemaTrigger : Type := MkSchemaTrigger {
  trig_name : string;
  trig_internal : bool;
}.

Record OtherDatabase : Type := MkOtherDatabase {
  db_name : string;
  db_allowconn : bool;
  db_template : bool;
}.

(** What the catalogues say: the schema [dbsmon] (its privilege is [None] when it does
    not exist), the connection's row of [pg_stat_ssl] if there is one, and the
    databases. *)
Record Server : Type := MkServer {
  srv_version_num : Z;
  srv_encoding : string;
  srv_can_create : option bool;
  srv_relations : list Relation;
  srv_functions : list string;
  srv_types : list SchemaType;
  srv_collations : list string;
  srv_triggers : list SchemaTrigger;
  srv_ssl : option bool;
  srv_locale_provider : string;
  srv_collate : string;
  srv_ctype : string;
  srv_timezone : string;
  srv_current : string;
  srv_databases : list OtherDatabase;
}.

(** [to_regclass('dbsmon.goose_db_version') IS NOT NULL] *)
Definition initialized (s : Server) : bool := existsb (fun r => bool_decide (rel_name r = "goose_db_version")) (srv_relations s).

Definition table_kinds : list string := ["r"; "p"; "v"; "m"; "S"; "f"].

Definition foreign_name (s : Server) (known : list string) (name : string) : bool := negb (initialized s) || negb (bool_decide (name ∈ known)).

Definition unexpected_objects (s : Server) : list string :=
  map rel_name (filter (fun r => (bool_decide (rel_kind r ∈ table_kinds) && foreign_name s platformRelations (rel_name r) &&
                                  negb (rel_sample_partition r)) = true) (srv_relations s)) ++
  filter (fun name => foreign_name s platformFunctions name = true) (srv_functions s) ++
  map typ_name (filter (fun t => (negb (typ_of_relation t) && negb (typ_of_element t)) = true) (srv_types s)) ++
  srv_collations s ++
  map trig_name (filter (fun t => (negb (trig_internal t) && foreign_name s platformTriggers (trig_name t)) = true) (srv_triggers s)).

(** [preflightQuery]: [UNION] drops repetitions. *)
Definition read_facts (s : Server) : Facts :=
  MkFacts (srv_version_num s) (srv_encoding s) (default false (srv_can_create s))
    (sort_by string_ltb (remove_dups (unexpected_objects s))) (default false (srv_ssl s)) (srv_locale_provider s) (srv_collate s)
    (srv_ctype s) (srv_timezone s)
    (Z.of_nat (length (filter (fun d => (db_allowconn d && negb (db_template d) &&
                                         negb (bool_decide (db_name d ∈ [srv_current s; "postgres"]))) = true) (srv_databases s)))).

(** [Check], with the error of the query if there is one. *)
Definition preflight_check (answer : result Server) : result Report :=
  match answer with
  | Err e => Err (Errorf "query platform database prerequisites" e)
  | Ok server => Ok (Evaluate (read_facts server))
  end.

(** * Properties *)

(** An object that belongs to the platform once it is installed. *)
Record clean_schema (s : Server) : Prop := MkCleanSchema {
  clean_relations r : r ∈ srv_relations s -> rel_kind r ∈ table_kinds -> rel_sample_partition r = false ->
    initialized s = true /\ rel_name r ∈ platformRelations;
  clean_functions name : name ∈ srv_functions s -> initialized s = true /\ name ∈ platformFunctions;
  clean_types t : t ∈ srv_types s -> typ_of_relation t = true \/ typ_of_element t = true;
  clean_collations : srv_collations s = [];
  clean_triggers t : t ∈ srv_triggers s -> trig_internal t = false -> initialized s = true /\ trig_name t ∈ platformTriggers;
}.

Lemma foreign_name_false s known name : foreign_name s known name = false <-> initialized s = true /\ name ∈ known.
Proof. unfold foreign_name. by rewrite orb_false_iff, !negb_false_iff, bool_decide_eq_true. Qed.

Lemma map_nil_iff {A B} (f : A -> B) l : map f l = [] <-> l = [].
Proof. by destruct l. Qed.

Lemma filter_map_nil {A B} (f : A -> B) (c : A -> bool) l :
  map f (filter (fun a => c a = true) l) = [] <-> forall a, a ∈ l -> c a = false.
Proof.
  rewrite map_nil_iff. split.
  - intros H a Ha. apply not_true_is_false. intros Hc. assert (a ∈ filter (fun a => c a = true) l) as Hin by (by apply list_elem_of_filter).
    rewrite H in Hin. by apply elem_of_nil in Hin.
  - intros H. apply elem_of_nil_inv. intros a [Hc Ha]%list_elem_of_filter. by rewrite H in Hc.
Qed.

Lemma unexpected_nil s : unexpected_objects s = [] <-> clean_schema s.
Proof.
  unfold unexpected_objects. rewrite !app_nil, !filter_map_nil.
  setoid_rewrite andb_false_iff. setoid_rewrite andb_false_iff. setoid_rewrite foreign_name_false.
  setoid_rewrite negb_false_iff. setoid_rewrite bool_decide_eq_false.
  assert ((filter (fun name => foreign_name s platformFunctions name = true) (srv_functions s) = []) <->
    (forall name, name ∈ srv_functions s -> initialized s = true /\ name ∈ platformFunctions)) as ->.
  { rewrite <-(map_id (filter _ _)), filter_map_nil. by setoid_rewrite foreign_name_false. }
  split.
  - intros (Hr&Hf&Ht&Hc&Hg). split; [|done|done|done|].
    + intros r Hin Hk Hp. destruct (Hr r Hin) as [[?|?]|?]; [done|done|congruence].
    + intros t Hin Hi. destruct (Hg t Hin) as [?|?]; [congruence|done].
  - intros [Hr Hf Ht Hc Hg]. split_and!; [|done|done|done|].
    + intros r Hin. destruct (decide (rel_kind r ∈ table_kinds)); [|by left; left]. destruct (rel_sample_partition r) eqn:Ep; [by right|].
      left. right. by apply Hr.
    + intros t Hin. destruct (trig_internal t) eqn:Ei; [by left|]. right. by apply Hg.
Qed.

Lemma sorted_nil s : sort_by string_ltb (remove_dups (unexpected_objects s)) = [] <-> clean_schema s.
Proof.
  rewrite <-unexpected_nil. split.
  - intros H. apply elem_of_nil_inv. intros x Hx. assert (x ∈ sort_by string_ltb (remove_dups (unexpected_objects s))) as Hin
      by (by rewrite elem_of_sort_by, elem_of_remove_dups). rewrite H in Hin. by apply elem_of_nil in Hin.
  - by intros ->.
Qed.

Lemma FatalError_None report : FatalError report = None <-> report_Fatal report = [].
Proof. unfold FatalError. by destruct (report_Fatal report). Qed.

Lemma find_if_nil condition code message : find_if condition code message = [] <-> condition = false.
Proof. by destruct condition. Qed.

Lemma major_17 v : (postgresMajorVersion v =? requiredPostgresMajorVersion) = true <-> 170000 <= v < 180000.
Proof.
  unfold postgresMajorVersion, requiredPostgresMajorVersion. rewrite Z.eqb_eq. split.
  - intros H. assert (0 <= v) by (destruct (Z_lt_le_dec v 0); [|done]; pose proof (Z.quot_opp_l v 10000); pose proof (Z.quot_pos (- v) 10000); lia).
    rewrite Z.quot_div_nonneg in H by lia. pose proof (Z.div_mod v 10000). pose proof (Z.mod_pos_bound v 10000). lia.
  - intros H. rewrite Z.quot_div_nonneg by lia. symmetry. apply (Z.div_unique v 10000 17 (v - 170000)); lia.
Qed.

(** The server starts on a platform database exactly when it is PostgreSQL 17 with
    encoding UTF8 over TLS, its role may create in the schema dbsmon, and that schema
    holds nothing foreign: before the installation nothing at all, afterwards only the
    platform's own relations, functions and triggers and the partitions of its samples.
    Every other finding is a warning. *)
Theorem preflight_accepts_exactly (server : Server) :
  exists report, preflight_check (Ok server) = Ok report /\
    (FatalError report = None <->
     170000 <= srv_version_num server < 180000 /\ EqualFold (srv_encoding server) "UTF8" = true /\
     srv_can_create server = Some true /\ clean_schema server /\ srv_ssl server = Some true).
Proof.
  eexists. split; [reflexivity|]. rewrite FatalError_None. cbn [Evaluate report_Fatal].
  unfold fatal_findings. rewrite !app_nil, !find_if_nil, !negb_false_iff, major_17.
  unfold read_facts. cbn [facts_ServerVersionNum facts_Encoding facts_CanCreateSchema facts_UnexpectedObjects facts_TLSActive].
  rewrite Z.ltb_ge, <-sorted_nil.
  set (l := sort_by _ _). assert (Z.of_nat (length l) <= 0 <-> l = []) as -> by (destruct l; simpl; split; [done|lia|lia|done]).
  destruct (srv_can_create server) as [[]|], (srv_ssl server) as [[]|]; simpl; naive_solver.
Qed.

(** A server before the installation, and one with the platform installed beside a
    table of somebody else. *)
Definition fresh_server : Server :=
  MkServer 170010 "UTF8" (Some true) [] [] [] [] [] (Some true) "c" "C" "C" "UTC" "dbsmon" [].
Definition shared_server : Server :=
  MkServer 170010 "UTF8" (Some true) [MkRelation "goose_db_version" "r" false; MkRelation "instance" "r" false; MkRelation "orders" "r" false]
    [] [] [] [] (Some true) "c" "C" "C" "UTC" "dbsmon" [].

Example fresh_server_accepted : FatalError (Evaluate (read_facts fresh_server)) = None.
Proof. vm_compute. reflexivity. Qed.
Example shared_server_rejected : facts_UnexpectedObjects (read_facts shared_server) = ["orders"].
Proof. vm_compute. reflexivity. Qed.
