(* ===== verification/WindowQueries.v ===== *)
(** The tables of maintenance windows with the statements of
    [internal/notify/queries.sql.go] that administer them, under the constraints of the
    migrations [00023_maintenance_windows.sql] and
    [00033_maintenance_window_attribution.sql]. The dispatcher reads the same rows
    ([Notify.active_window]). *)

From S2P Require Import Prelude Db Text Responses AlertState Notify.

(** * Rows *)

(** [maintenance_window], keyed by its id. *)
Record WindowRow : Type := MkWindowRow {
  wr_StartsAt : Time;
  wr_EndsAt : Time;
  wr_Reason : string;
  wr_CreatedBy : string;
  wr_CreatedAt : Time;
  wr_UpdatedAt : Time;
  wr_DeletedAt : option Time;
  wr_UpdatedBy : string;
  wr_EndedBy : option string;
  wr_DeletedBy : option string;
}.

(** The windows, [maintenance_window_instance], and the ids of [instance] and [app_user]. *)
Record WindowTables : Type := MkWindowTables {
  wt_window : gmap string WindowRow;
  wt_scope : list (string * string);
  wt_instance : gset string;
  wt_user : gset string;
}.

Definition with_windows (m : gmap string WindowRow) (t : WindowTables) : WindowTables :=
  MkWindowTables m (wt_scope t) (wt_instance t) (wt_user t).

Definition with_window_scope (l : list (string * string)) (t : WindowTables) : WindowTables :=
  MkWindowTables (wt_window t) l (wt_instance t) (wt_user t).

(** What the dispatcher sees of the rows. *)
Definition window_view (id : string) (row : WindowRow) : MaintenanceWindow :=
  MkMaintenanceWindow id (wr_StartsAt row) (wr_EndsAt row) (wr_DeletedAt row).

Definition notify_view (t : WindowTables) (n : NotifyTables) : NotifyTables :=
  MkNotifyTables (n_alert n) (n_event n) (n_rule n) (n_identity n) (n_policy n) (n_policy_channel n) (n_policy_contact n)
    (n_policy_contact_group n) (n_group_member n) (n_contact_email n) (n_smtp n) (n_webhook n)
    ((fun entry => window_view entry.1 entry.2) <$> map_to_list (wt_window t)) (wt_scope t)
    (n_delivery n) (n_attempt n) (n_issued n) (n_outbox n).

(** * Statements *)

(** The CHECK constraints of a row, and its references to [app_user]. *)
Definition window_checked (row : WindowRow) : bool :=
  (wr_StartsAt row <? wr_EndsAt row) && not_blank (wr_Reason row) &&
  bool_decide (is_Some (wr_DeletedBy row) <-> is_Some (wr_DeletedAt row)).

Definition window_users (row : WindowRow) : list string :=
  wr_CreatedBy row :: wr_UpdatedBy row :: option_list (wr_EndedBy row) ++ option_list (wr_DeletedBy row).

Definition users_known (t : WindowTables) (row : WindowRow) : bool :=
  bool_decide (Forall (fun user => user ∈ wt_user t) (window_users row)).

Definition window_fault (t : WindowTables) (row : WindowRow) : option error :=
  if negb (window_checked row) then Some (ErrPg "23514")
  else if negb (users_known t row) then Some (ErrPg "23503") else None.

Definition live_window (t : WindowTables) (id : string) : option WindowRow :=
  row ← wt_window t !! id;
  if bool_decide (wr_DeletedAt row = None) then Some row else None.

Definition CreateMaintenanceWindow (id : string) (startsAt endsAt : Time) (reason actorID : string) (createdAt : Time)
    : DB WindowTables (string * WindowRow) :=
  statement (fun t =>
    let row := MkWindowRow (timestamptz startsAt) (timestamptz endsAt) reason actorID (timestamptz createdAt)
                 (timestamptz createdAt) None actorID None None in
    if negb (window_checked row) then Err (ErrPg "23514")
    else if bool_decide (is_Some (wt_window t !! id)) then Err (ErrPg "23505")
    else if negb (users_known t row) then Err (ErrPg "23503")
    else Ok ((id, row), with_windows (<[id := row]> (wt_window t)) t)).

(** An UPDATE of the row of [id] that is not deleted and satisfies [where_], if there
    is one, with RETURNING. *)
Definition update_window (id : string) (where_ : WindowRow -> bool) (set : WindowRow -> WindowRow)
    : DB WindowTables (string * WindowRow) :=
  statement (fun t =>
    match live_window t id with
    | Some row =>
        if where_ row then
          match window_fault t (set row) with
          | Some e => Err e
          | None => Ok ((id, set row), with_windows (<[id := set row]> (wt_window t)) t)
          end
        else Err ErrNoRows
    | None => Err ErrNoRows
    end).

Definition set_update (startsAt endsAt : Time) (reason actorID : string) (updatedAt : Time) (row : WindowRow) : WindowRow :=
  MkWindowRow startsAt endsAt reason (wr_CreatedBy row) (wr_CreatedAt row) updatedAt (wr_DeletedAt row)
    actorID (wr_EndedBy row) (wr_DeletedBy row).

Definition UpdateMaintenanceWindow (id : string) (startsAt endsAt : Time) (reason actorID : string) (updatedAt : Time)
    : DB WindowTables (string * WindowRow) :=
  update_window id (fun row => timestamptz updatedAt <? wr_EndsAt row)
    (set_update (timestamptz startsAt) (timestamptz endsAt) reason actorID (timestamptz updatedAt)).

Definition set_end (at_ : Time) (actorID : string) (row : WindowRow) : WindowRow :=
  MkWindowRow (wr_StartsAt row) at_ (wr_Reason row) (wr_CreatedBy row) (wr_CreatedAt row) at_ (wr_DeletedAt row)
    actorID (Some actorID) (wr_DeletedBy row).

Definition EndMaintenanceWindow (id : string) (endsAt : Time) (actorID : string) : DB WindowTables (string * WindowRow) :=
  update_window id (fun row => (wr_StartsAt row <=? timestamptz endsAt) && (timestamptz endsAt <? wr_EndsAt row))
    (set_end (timestamptz endsAt) actorID).

Definition set_deleted (at_ : Time) (actorID : string) (row : WindowRow) : WindowRow :=
  MkWindowRow (wr_StartsAt row) (wr_EndsAt row) (wr_Reason row) (wr_CreatedBy row) (wr_CreatedAt row) at_ (Some at_)
    actorID (wr_EndedBy row) (Some actorID).

(** The number of rows marked. *)
Definition DeleteMaintenanceWindow (id : string) (deletedAt : Time) (actorID : string) : DB WindowTables Z :=
  statement (fun t =>
    match live_window t id with
    | None => Ok (0, t)
    | Some row =>
        let row' := set_deleted (timestamptz deletedAt) actorID row in
        match window_fault t row' with
        | Some e => Err e
        | None => Ok (1, with_windows (<[id := row']> (wt_window t)) t)
        end
    end).

Definition GetMaintenanceWindow (id : string) : DB WindowTables (string * WindowRow) :=
  statement (fun t => match live_window t id with Some row => Ok ((id, row), t) | None => Err ErrNoRows end).

(** [ORDER BY starts_at DESC, id] *)
Definition windowRowLess (a b : string * WindowRow) : bool :=
  (wr_StartsAt b.2 <? wr_StartsAt a.2) || ((wr_StartsAt b.2 =? wr_StartsAt a.2) && string_ltb a.1 b.1).

Definition ListMaintenanceWindows : DB WindowTables (list (string * WindowRow)) :=
  query (fun t => sort_by windowRowLess (filter (fun entry => wr_DeletedAt entry.2 = None) (map_to_list (wt_window t)))).

Definition ListMaintenanceWindowInstances (id : string) : DB WindowTables (list string) :=
  query (fun t => sort_by string_ltb (members (wt_scope t) id)).

Definition MaintenanceWindowInstanceExists (instanceID : string) : DB WindowTables bool :=
  query (fun t => bool_decide (instanceID ∈ wt_instance t)).

Definition ClearMaintenanceWindowInstances (id : string) : DB WindowTables unit :=
  exec (fun t => with_window_scope (filter (fun entry => entry.1 <> id) (wt_scope t)) t).

Definition AddMaintenanceWindowInstance (id instanceID : string) : DB WindowTables unit :=
  statement (fun t =>
    if bool_decide ((id, instanceID) ∈ wt_scope t) then Err (ErrPg "23505")
    else if bool_decide (is_Some (wt_window t !! id) /\ instanceID ∈ wt_instance t)
    then Ok (tt, with_window_scope (wt_scope t ++ [(id, instanceID)]) t)
    else Err (ErrPg "23503")).
