(* ===== verification/MaintenanceAdmin.v ===== *)
(** The maintenance window handlers of the HTTP API
    ([internal/httpapi/maintenance_window.go]). *)

From S2P Require Import Prelude Db Text Responses Notify WindowQueries.

(** * Requests and responses *)

Record MaintenanceWindowInput : Type := MkWindowInput {
  wi_InstanceIds : list string;
  wi_StartsAt : Time;
  wi_EndsAt : Time;
  wi_Reason : string;
}.

Record maintenanceWindowValues : Type := MkWindowValues {
  wv_instanceIDs : list string;
  wv_startsAt : Time;
  wv_endsAt : Time;
  wv_reason : string;
}.

Inductive MaintenanceStatus : Type :=
  | MaintenanceScheduled
  | MaintenanceActive
  | MaintenanceEnded.

#[export] Instance MaintenanceStatus_eq_dec : EqDecision MaintenanceStatus.
Proof. solve_decision. Defined.

(** [api.MaintenanceWindow] *)
Record APIMaintenanceWindow : Type := MkAPIWindow {
  aw_Id : string;
  aw_InstanceIds : list string;
  aw_StartsAt : Time;
  aw_EndsAt : Time;
  aw_Reason : string;
  aw_CreatedBy : string;
  aw_Status : MaintenanceStatus;
  aw_CreatedAt : Time;
  aw_UpdatedAt : Time;
}.

Definition invalidMaintenanceWindowMessage : string :=
  "instances, a future end time, ordered bounds, and a reason are required".

Definition errMaintenanceInstanceNotFound : error := ErrNew "maintenance window instance not found".

Definition parseMaintenanceWindowInput (input : option MaintenanceWindowInput) (now : Time) : option maintenanceWindowValues :=
  match input with
  | None => None
  | Some input =>
      let reason := TrimSpace (wi_Reason input) in
      if bool_decide (wi_InstanceIds input = []) || negb (Before (wi_StartsAt input) (wi_EndsAt input)) ||
         negb (Before now (wi_EndsAt input)) then None
      else if bool_decide (reason = EmptyString) then None
      else if has_duplicate (wi_InstanceIds input) then None
      else Some (MkWindowValues (wi_InstanceIds input) (wi_StartsAt input) (wi_EndsAt input) reason)
  end.

(** * Handlers *)

Definition maintenanceWindowExists (id : string) : DB WindowTables bool :=
  r ← attempt (GetMaintenanceWindow id);
  match r with
  | Ok _ => mret true
  | Err e => if is_no_rows e then mret false else fail e
  end.

Definition maintenanceWindowInstancesExist (instanceIDs : list string) : DB WindowTables unit :=
  for_each (fun instanceID =>
    exists_ ← MaintenanceWindowInstanceExists instanceID;
    if (exists_ : bool) then mret tt else fail errMaintenanceInstanceNotFound) instanceIDs.

Definition addMaintenanceWindowInstances (id : string) (instanceIDs : list string) : DB WindowTables unit :=
  for_each (AddMaintenanceWindowInstance id) instanceIDs.

Definition window_status (row : WindowRow) (now : Time) : MaintenanceStatus :=
  if Before now (wr_StartsAt row) then MaintenanceScheduled
  else if Before now (wr_EndsAt row) then MaintenanceActive else MaintenanceEnded.

Definition toAPIMaintenanceWindow (now : Time) (entry : string * WindowRow) : DB WindowTables APIMaintenanceWindow :=
  let '(id, row) := entry in
  instanceIDs ← ListMaintenanceWindowInstances id;
  mret (MkAPIWindow id instanceIDs (wr_StartsAt row) (wr_EndsAt row) (wr_Reason row) (wr_CreatedBy row)
          (window_status row now) (wr_CreatedAt row) (wr_UpdatedAt row)).

(** [newID] is [uuid.New()] and [actorID] the authenticated user. *)
Definition ListMaintenanceWindows (now : Time) : DB WindowTables (response (list APIMaintenanceWindow)) :=
  rows ← WindowQueries.ListMaintenanceWindows;
  items ← collect_rows (toAPIMaintenanceWindow now) rows;
  mret (R200 items).

Definition create_window_tx (now : Time) (actorID newID : string) (values : maintenanceWindowValues)
    : DB WindowTables (string * WindowRow) :=
  maintenanceWindowInstancesExist (wv_instanceIDs values) ;;
  created ← WindowQueries.CreateMaintenanceWindow newID (wv_startsAt values) (wv_endsAt values) (wv_reason values) actorID now;
  addMaintenanceWindowInstances newID (wv_instanceIDs values) ;;
  mret created.

Definition CreateMaintenanceWindow (now : Time) (actorID newID : string) (body : option MaintenanceWindowInput)
    : DB WindowTables (response APIMaintenanceWindow) :=
  match parseMaintenanceWindowInput body now with
  | None => mret (R400 (errorBody "VALIDATION_FAILED" invalidMaintenanceWindowMessage))
  | Some values =>
      r ← attempt (InTx (create_window_tx now actorID newID values));
      match r with
      | Ok created => item ← toAPIMaintenanceWindow now created; mret (R201 item)
      | Err e =>
          if bool_decide (e = errMaintenanceInstanceNotFound)
          then mret (R400 (errorBody "VALIDATION_FAILED" "all instances must exist")) else fail e
      end
  end.

(** [pgx.ErrNoRows] of an update: the window does not exist, or is not in the state
    the update needs. *)
Definition explain_no_rows (id conflict : string) : DB WindowTables (response APIMaintenanceWindow) :=
  exists_ ← maintenanceWindowExists id;
  mret (if (exists_ : bool) then R400 (errorBody "CONFLICT" conflict)
        else R404 (errorBody "NOT_FOUND" "maintenance window not found")).

Definition update_window_tx (now : Time) (actorID id : string) (values : maintenanceWindowValues)
    : DB WindowTables (string * WindowRow) :=
  maintenanceWindowInstancesExist (wv_instanceIDs values) ;;
  updated ← WindowQueries.UpdateMaintenanceWindow id (wv_startsAt values) (wv_endsAt values) (wv_reason values) actorID now;
  ClearMaintenanceWindowInstances id ;;
  addMaintenanceWindowInstances id (wv_instanceIDs values) ;;
  mret updated.

Definition UpdateMaintenanceWindow (now : Time) (actorID id : string) (body : option MaintenanceWindowInput)
    : DB WindowTables (response APIMaintenanceWindow) :=
  match parseMaintenanceWindowInput body now with
  | None => mret (R400 (errorBody "VALIDATION_FAILED" invalidMaintenanceWindowMessage))
  | Some values =>
      r ← attempt (InTx (update_window_tx now actorID id values));
      match r with
      | Ok updated => item ← toAPIMaintenanceWindow now updated; mret (R200 item)
      | Err e =>
          if bool_decide (e = errMaintenanceInstanceNotFound)
          then mret (R400 (errorBody "VALIDATION_FAILED" "all instances must exist"))
          else if is_no_rows e then explain_no_rows id "ended maintenance windows cannot be edited"
          else fail e
      end
  end.

Definition EndMaintenanceWindow (now : Time) (actorID id : string) : DB WindowTables (response APIMaintenanceWindow) :=
  r ← attempt (WindowQueries.EndMaintenanceWindow id now actorID);
  match r with
  | Ok ended => item ← toAPIMaintenanceWindow now ended; mret (R200 item)
  | Err e => if is_no_rows e then explain_no_rows id "maintenance window is not active" else fail e
  end.

Definition DeleteMaintenanceWindow (now : Time) (actorID id : string) : DB WindowTables (response APIMaintenanceWindow) :=
  deleted ← WindowQueries.DeleteMaintenanceWindow id now actorID;
  mret (if deleted =? 0 then R404 (errorBody "NOT_FOUND" "maintenance window not found") else R204).
