(* ===== verification/MaintenanceAdminInv.v ===== *)
(** What the maintenance window handlers promise: the rows stay well formed, a window
    that is over stays as it was, and the dispatcher suppresses exactly what the list
    of windows calls active. *)

From S2P Require Import Prelude Db Text Responses Notify WindowQueries MaintenanceAdmin.

(** * The dispatcher's view *)

Lemma live_window_Some t id row :
  live_window t id = Some row <-> wt_window t !! id = Some row /\ wr_DeletedAt row = None.
Proof.
  unfold live_window. destruct (wt_window t !! id) as [row'|]; simpl; [|naive_solver].
  case_bool_decide; naive_solver.
Qed.

(** A window covers an instance at a time. *)
Definition covers (t : WindowTables) (id instanceID : string) (at_ : Time) : Prop :=
  exists row, live_window t id = Some row /\ (id, instanceID) ∈ wt_scope t /\ wr_StartsAt row <= at_ < wr_EndsAt row.

Lemma elem_of_scopes i t n w :
  w ∈ MaintenanceWindowScopes i (ListMaintenanceWindowsForInstance i (notify_view t n)) <->
  exists id row, w = MkMaintenanceWindowScope id [i] (wr_StartsAt row) (wr_EndsAt row) false /\
    live_window t id = Some row /\ (id, i) ∈ wt_scope t.
Proof.
  unfold MaintenanceWindowScopes, ListMaintenanceWindowsForInstance. rewrite list_elem_of_fmap.
  setoid_rewrite elem_of_sort_by. setoid_rewrite list_elem_of_filter. cbn [n_window n_window_instance notify_view].
  setoid_rewrite list_elem_of_fmap. setoid_rewrite live_window_Some. split.
  - intros (v & -> & (Hi & Hd) & ([id row] & -> & Hr%elem_of_map_to_list)). simpl in *. rewrite Hd. eauto 10.
  - intros (id & row & -> & (Hr & Hd) & Hi). exists (window_view id row). simpl. rewrite Hd. split; [done|].
    split; [done|]. exists (id, row). by rewrite elem_of_map_to_list.
Qed.

(** A window is in force for an instance exactly when one covers it, and the window in
    force is one that does. *)
Lemma active_window_covers i at_ t n scope :
  active_window i at_ (notify_view t n) = Some scope -> covers t (scope_ID scope) i at_.
Proof.
  unfold active_window. intros Hw. pose proof (ActiveMaintenanceWindow_choice i at_
    (MaintenanceWindowScopes i (ListMaintenanceWindowsForInstance i (notify_view t n)))) as H.
  rewrite Hw in H. destruct H as ((id & row & -> & Hl & Hi)%elem_of_scopes & (_ & Hat & _)%window_applies_spec & _).
  exists row. eauto.
Qed.

Lemma covers_active_window i at_ t n id : covers t id i at_ -> is_Some (active_window i at_ (notify_view t n)).
Proof.
  intros (row & Hl & Hi & Hat). unfold active_window. pose proof (ActiveMaintenanceWindow_choice i at_
    (MaintenanceWindowScopes i (ListMaintenanceWindowsForInstance i (notify_view t n)))) as H.
  destruct (ActiveMaintenanceWindow _ _ _) as [scope|]; [eauto|]. exfalso.
  assert (window_applies i at_ (MkMaintenanceWindowScope id [i] (wr_StartsAt row) (wr_EndsAt row) false) = true) as Ha.
  { apply window_applies_spec. simpl. split_and!; [done|lia|lia|by apply list_elem_of_singleton]. }
  rewrite H in Ha; [done|]. apply elem_of_scopes. eauto 10.
Qed.

(** * Reading *)

#[export] Instance list_rows_keeps : Keeps (fun t => t) WindowQueries.ListMaintenanceWindows.
Proof. apply _. Qed.
#[export] Instance to_api_keeps now entry : Keeps (fun t => t) (toAPIMaintenanceWindow now entry).
Proof. destruct entry. apply _. Qed.
#[export] Instance to_api_propagates now entry : Propagates (toAPIMaintenanceWindow now entry).
Proof. destruct entry. apply _. Qed.
#[export] Instance list_windows_propagates now : Propagates (ListMaintenanceWindows now).
Proof. apply _. Qed.
#[export] Instance list_windows_keeps now : Keeps (fun t => t) (ListMaintenanceWindows now).
Proof. apply _. Qed.

(** An item of the list for a row. *)
Definition api_window (t : WindowTables) (now : Time) (entry : string * WindowRow) : APIMaintenanceWindow :=
  let '(id, row) := entry in
  MkAPIWindow id (sort_by string_ltb (members (wt_scope t) id)) (wr_StartsAt row) (wr_EndsAt row) (wr_Reason row)
    (wr_CreatedBy row) (window_status row now) (wr_CreatedAt row) (wr_UpdatedAt row).

Lemma collect_api t now rows :
  collect_rows (toAPIMaintenanceWindow now) rows [] t = (Ok (api_window t now <$> rows), t, []).
Proof.
  induction rows as [|[id row] rows IH]; [done|]. cbn [collect_rows].
  unfold mbind, DB_bind at 1. unfold toAPIMaintenanceWindow at 1. unfold mbind, DB_bind at 1. simpl.
  unfold mbind, DB_bind in *. by rewrite IH.
Qed.

Lemma window_status_active row now :
  window_status row now = MaintenanceActive <-> wr_StartsAt row <= now < wr_EndsAt row.
Proof. unfold window_status, Before. destruct (Z.ltb_spec now (wr_StartsAt row)), (Z.ltb_spec now (wr_EndsAt row)); split; done || lia. Qed.

(** An item that says an instance is in maintenance now. *)
Definition shown_active (instanceID : string) (w : APIMaintenanceWindow) : Prop :=
  aw_Status w = MaintenanceActive /\ instanceID ∈ aw_InstanceIds w.

(** C12. A list of maintenance windows that is served, whatever faults the server met,
    is the truth about suppression: at the time of the request notifications of an
    instance are suppressed exactly when the list shows a window with status active
    that names the instance, and the window the dispatcher records for a suppressed
    notification is one of those shown active. *)
Theorem listed_windows_are_in_force (now : Time) (fs fs' : list fate) (t t' : WindowTables) (n : NotifyTables)
    (items : list APIMaintenanceWindow) :
  ListMaintenanceWindows now fs t = (Ok (R200 items), t', fs') ->
  t' = t /\
  forall instanceID,
    (forall scope, active_window instanceID now (notify_view t n) = Some scope ->
       exists w, w ∈ items /\ aw_Id w = scope_ID scope /\ shown_active instanceID w) /\
    (active_window instanceID now (notify_view t n) = None -> forall w, w ∈ items -> ~ shown_active instanceID w).
Proof.
  intros H. pose proof (keeps fs t (f := fun t => t) (m := ListMaintenanceWindows now)) as Hk.
  unfold tables_after in Hk. rewrite H in Hk. simpl in Hk. subst t'. split; [done|].
  apply propagates in H.
  assert (items = api_window t now <$> sort_by windowRowLess
            (filter (fun entry => wr_DeletedAt entry.2 = None) (map_to_list (wt_window t)))) as ->.
  { unfold ListMaintenanceWindows in H. unfold mbind, DB_bind at 1 in H. simpl in H. unfold mbind, DB_bind in H.
    rewrite collect_api in H. unfold mret, DB_ret in H. congruence. }
  intros i. split.
  - intros scope (row & [Hr Hd]%live_window_Some & Hi & Hat)%active_window_covers.
    exists (api_window t now (scope_ID scope, row)). split.
    + apply list_elem_of_fmap. exists (scope_ID scope, row). split; [done|].
      by rewrite elem_of_sort_by, list_elem_of_filter, elem_of_map_to_list.
    + unfold shown_active. simpl. rewrite window_status_active, elem_of_sort_by, elem_of_members. auto.
  - intros Hn w ([id row] & -> & Hw)%list_elem_of_fmap.
    rewrite elem_of_sort_by, list_elem_of_filter, elem_of_map_to_list in Hw. simpl in *.
    unfold shown_active. simpl. rewrite elem_of_sort_by, elem_of_members, window_status_active. intros [Hat Hi].
    destruct (covers_active_window i now t n id) as [? ?]; [|congruence].
    exists row. rewrite live_window_Some. tauto.
Qed.

(** * The invariant of the rows *)

Record windows_ok (t : WindowTables) : Prop := MkWindowsOk {
  ok_rows : forall id row, wt_window t !! id = Some row -> window_checked row = true /\ users_known t row = true;
  ok_scope : NoDup (wt_scope t);
  ok_refs : forall id instanceID, (id, instanceID) ∈ wt_scope t -> is_Some (wt_window t !! id) /\ instanceID ∈ wt_instance t;
}.

(** Every window but [pending] names an instance. *)
Definition scoped (pending : option string) (t : WindowTables) : Prop :=
  forall id, is_Some (wt_window t !! id) -> Some id <> pending -> members (wt_scope t) id <> [].

(** A window that is over: deleted, or past its end. *)
Definition over (now : Time) (row : WindowRow) : Prop := wr_DeletedAt row <> None \/ wr_EndsAt row <= timestamptz now.

(** The row has become [row'] by nothing but a deletion, which is final. *)
Definition same_history (row row' : WindowRow) : Prop :=
  wr_StartsAt row' = wr_StartsAt row /\ wr_EndsAt row' = wr_EndsAt row /\ wr_Reason row' = wr_Reason row /\
  wr_CreatedBy row' = wr_CreatedBy row /\ wr_CreatedAt row' = wr_CreatedAt row /\ wr_EndedBy row' = wr_EndedBy row /\
  (wr_DeletedAt row <> None -> row' = row).

(** No window disappears, and those over at [now] keep their history and their instances. *)
Definition keeps_history (now : Time) (t t' : WindowTables) : Prop :=
  wt_instance t' = wt_instance t /\ wt_user t' = wt_user t /\
  forall id row, wt_window t !! id = Some row ->
    exists row', wt_window t' !! id = Some row' /\
      (over now row -> same_history row row' /\ members (wt_scope t') id = members (wt_scope t) id).

Definition kept_windows (now : Time) (t0 t : WindowTables) : Prop :=
  windows_ok t /\ scoped None t /\ keeps_history now t0 t.

Lemma same_history_refl row : same_history row row.
Proof. by unfold same_history. Qed.

Lemma same_history_trans a b c : same_history a b -> same_history b c -> same_history a c.
Proof.
  intros (?&?&?&?&?&?&Hb) (?&?&?&?&?&?&Hc). split_and!; try congruence.
  intros Hd. specialize (Hb Hd). subst b. auto.
Qed.

Lemma keeps_history_refl now t : keeps_history now t t.
Proof. split_and!; [done..|]. intros id row H. exists row. eauto using same_history_refl. Qed.

Lemma over_later now now' row row' : now <= now' -> over now row -> same_history row row' -> over now' row'.
Proof.
  intros Hn [Hd|He] (_&Hends&_&_&_&_&Hrow).
  - left. by rewrite Hrow.
  - right. rewrite Hends. pose proof (timestamptz_mono now now' Hn). lia.
Qed.

Lemma keeps_history_trans now now' t0 t1 t2 :
  now <= now' -> keeps_history now t0 t1 -> keeps_history now' t1 t2 -> keeps_history now t0 t2.
Proof.
  intros Hn (Hi1&Hu1&H1) (Hi2&Hu2&H2). split_and!; [congruence..|]. intros id row Hrow.
  destruct (H1 id row Hrow) as (row1 & Hrow1 & Hh1). destruct (H2 id row1 Hrow1) as (row2 & Hrow2 & Hh2).
  exists row2. split; [done|]. intros Ho. destruct (Hh1 Ho) as [Hs1 Hm1].
  destruct (Hh2 (over_later _ _ _ _ Hn Ho Hs1)) as [Hs2 Hm2]. split; [by eapply same_history_trans|congruence].
Qed.

(** * Statements and the invariant *)

Lemma window_fault_None t row : window_fault t row = None -> window_checked row = true /\ users_known t row = true.
Proof. unfold window_fault. repeat case_match; try done. by destruct (window_checked row), (users_known t row). Qed.

Lemma users_known_tables t t' row : wt_user t' = wt_user t -> users_known t' row = users_known t row.
Proof. intros H. unfold users_known. by rewrite H. Qed.

(** Writing a checked row under an id keeps the invariant, and history when no window
    of the id was over or only a deletion was written. *)
Lemma write_row_ok t id row :
  windows_ok t -> window_checked row = true -> users_known t row = true ->
  windows_ok (with_windows (<[id := row]> (wt_window t)) t).
Proof.
  intros [Hrows Hs Hr] Hc Hu. split; simpl.
  - intros id' row'. rewrite lookup_insert_Some. intros [[<- <-]|[_ H]]; [|exact (Hrows _ _ H)]. done.
  - done.
  - intros id' i H. destruct (Hr id' i H) as [H1 H2]. split; [|done].
    destruct (decide (id' = id)) as [->|]; [rewrite lookup_insert_eq; eauto|by rewrite lookup_insert_ne].
Qed.

Lemma write_row_history now t0 t id row :
  keeps_history now t0 t ->
  (forall row0, wt_window t0 !! id = Some row0 -> over now row0 -> forall row1, wt_window t !! id = Some row1 -> same_history row1 row) ->
  keeps_history now t0 (with_windows (<[id := row]> (wt_window t)) t).
Proof.
  intros (Hi&Hu&H) Hh. split_and!; [done..|]. intros id' row0 H0. destruct (H id' row0 H0) as (row1 & H1 & Hs). simpl.
  destruct (decide (id' = id)) as [->|]; [rewrite lookup_insert_eq|rewrite lookup_insert_ne by done]; [|eauto].
  exists row. split; [done|]. intros Ho. destruct (Hs Ho) as [Hs1 Hm]. split; [|done].
  eapply same_history_trans; eauto.
Qed.

Lemma write_row_scoped p t id row :
  scoped p t -> is_Some (wt_window t !! id) -> scoped p (with_windows (<[id := row]> (wt_window t)) t).
Proof.
  intros H Hid id' Hid'. simpl in *. apply H. destruct (decide (id' = id)) as [->|]; [done|by rewrite lookup_insert_ne in Hid'].
Qed.

(** The row an UPDATE finds for a window that was over: still past its end. *)
Lemma over_found now t0 t id row0 row :
  keeps_history now t0 t -> wt_window t0 !! id = Some row0 -> over now row0 -> live_window t id = Some row ->
  wr_EndsAt row <= timestamptz now.
Proof.
  intros (_&_&Hh) H0 Ho [Hrow Hd]%live_window_Some. destruct (Hh id row0 H0) as (row2 & Hrow2 & Hs2).
  assert (row2 = row) as -> by congruence. destruct (Hs2 Ho) as [(_&He&_&_&_&_&Hdel) _].
  destruct Ho as [Hdel'|?]; [|congruence]. rewrite Hdel in Hd by done. done.
Qed.

(** An UPDATE of one window under [where_] keeps everything, when the rows it changes
    were not over or only become deleted. *)
Definition updated_window (now : Time) (t0 : WindowTables) (id : string) (where_ : WindowRow -> bool)
    (set : WindowRow -> WindowRow) (r : string * WindowRow) (t : WindowTables) : Prop :=
  kept_windows now t0 t /\
  exists row, wr_DeletedAt row = None /\ where_ row = true /\ r = (id, set row) /\ wt_window t !! id = Some (set row) /\
    forall row0, wt_window t0 !! id = Some row0 -> over now row0 -> wr_EndsAt row <= timestamptz now.

Lemma update_row_kept now t0 id where_ set :
  (forall row, wr_DeletedAt row = None -> where_ row = true -> wr_EndsAt row <= timestamptz now -> same_history row (set row)) ->
  triple (kept_windows now t0) (update_window id where_ set) (updated_window now t0 id where_ set) (kept_windows now t0).
Proof.
  intros Hset. apply triple_statement; [done|]. intros t r t' (Hok & Hs & Hh) Heff. cbv zeta in Heff.
  destruct (live_window t id) as [row|] eqn:Hl; [|done].
  destruct (where_ row) eqn:Hw; [|done]. destruct (window_fault t (set row)) eqn:Hf; [done|].
  apply window_fault_None in Hf as [Hc Hu]. injection Heff as <- <-.
  pose proof Hl as [Hrow Hd]%live_window_Some.
  assert (kept_windows now t0 (with_windows (<[id := set row]> (wt_window t)) t)) as Hk.
  { split_and!; [by apply write_row_ok|apply write_row_scoped; [done|by exists row]|].
    apply write_row_history; [done|]. intros row0 H0 Ho row1 Hrow1. assert (row1 = row) as -> by congruence.
    apply Hset; [done..|]. by eapply over_found. }
  split; [|done]. split; [done|]. exists row. simpl. rewrite lookup_insert_eq. split_and!; [done..|].
  intros row0 H0 Ho. by eapply over_found.
Qed.

(** * The instances of a window being saved *)

(** While a handler saves the instances of a window that was not over: [done_] are in. *)
Record saving_scope (now : Time) (t0 : WindowTables) (id : string) (row : WindowRow) (done_ : list string) (t : WindowTables) : Prop :=
  MkSaving {
    sv_ok : windows_ok t;
    sv_scoped : scoped (Some id) t;
    sv_row : wt_window t !! id = Some row;
    sv_done : members (wt_scope t) id = done_;
    sv_history : keeps_history now t0 t;
    sv_open : forall row0, wt_window t0 !! id = Some row0 -> ~ over now row0;
  }.

Lemma scope_history now t0 t id l :
  keeps_history now t0 t -> (forall row0, wt_window t0 !! id = Some row0 -> ~ over now row0) ->
  (forall key, key <> id -> members l key = members (wt_scope t) key) -> keeps_history now t0 (with_window_scope l t).
Proof.
  intros (Hi&Hu&Hh) Hopen Hl. split_and!; [done..|]. intros id' row0 H0. destruct (Hh id' row0 H0) as (row' & Hrow' & Hs).
  exists row'. split; [done|]. intros Ho. destruct (decide (id' = id)) as [->|Hne]; [by destruct (Hopen row0)|].
  simpl. rewrite Hl by done. auto.
Qed.

Lemma clear_saving now t0 id row done_ :
  triple (saving_scope now t0 id row done_) (ClearMaintenanceWindowInstances id)
    (fun _ => saving_scope now t0 id row []) (fun _ => True).
Proof.
  apply triple_statement; [done|]. intros t [] t' [[Hrows Hnd Hrefs] Hs Hrow Hd Hh Ho] [= <-]. split; [|done].
  split; simpl; try done.
  - split; simpl; [done|by apply NoDup_filter|]. intros k x [_ H]%list_elem_of_filter. auto.
  - intros k Hk Hne. simpl in *. rewrite members_other by congruence. auto.
  - apply members_cleared.
  - eapply scope_history; [done..|]. intros key Hne. by apply members_other.
Qed.

Lemma add_saving now t0 id row done_ instanceID :
  triple (saving_scope now t0 id row done_) (AddMaintenanceWindowInstance id instanceID)
    (fun _ => saving_scope now t0 id row (done_ ++ [instanceID])) (fun _ => True).
Proof.
  apply triple_statement; [done|]. intros t [] t' [[Hrows Hnd Hrefs] Hs Hrow Hd Hh Ho] Heff.
  case_bool_decide as Hin; [done|]. case_bool_decide as Href; [|done]. injection Heff as <-. split; [|done].
  assert (forall key, key <> id -> members (wt_scope t ++ [(id, instanceID)]) key = members (wt_scope t) key) as Hother.
  { intros key Hne. rewrite members_app. unfold members at 2. rewrite filter_cons_False by (simpl; congruence).
    by rewrite app_nil_r. }
  split; simpl; try done.
  - split; simpl; [done| |].
    + apply NoDup_app. split_and!; [done| |apply NoDup_singleton]. intros x Hx ->%list_elem_of_singleton. done.
    + intros k x [H|[= -> ->]%list_elem_of_singleton]%elem_of_app; auto.
  - intros k Hk Hne. simpl in *. rewrite Hother by congruence. auto.
  - rewrite members_app, Hd. unfold members. by rewrite filter_cons_True.
  - by eapply scope_history.
Qed.

(** Once its instances are in, the window is saved. *)
Lemma saving_kept now t0 id row ids t :
  ids <> [] -> saving_scope now t0 id row ids t -> kept_windows now t0 t /\ wt_window t !! id = Some row /\ members (wt_scope t) id = ids.
Proof.
  intros Hne [Hok Hs Hrow Hd Hh Ho]. split; [|done]. split_and!; [done| |done]. intros k Hk _.
  destruct (decide (k = id)) as [->|]; [by rewrite Hd|apply Hs; congruence].
Qed.

Lemma add_instances_saving now t0 id row ids :
  triple (saving_scope now t0 id row []) (addMaintenanceWindowInstances id ids)
    (fun _ => saving_scope now t0 id row ids) (fun _ => True).
Proof. apply (triple_for_each_prefix (saving_scope now t0 id row)). intros done_ i. apply add_saving. Qed.

(** * Handlers *)

#[export] Instance instances_exist_keeps ids : Keeps (fun t => t) (maintenanceWindowInstancesExist ids).
Proof. apply _. Qed.

#[export] Instance get_window_keeps id : Keeps (fun t => t) (GetMaintenanceWindow id).
Proof. apply statement_keeps. intros t a t' H. case_match; congruence. Qed.

#[export] Instance explain_keeps id message : Keeps (fun t => t) (explain_no_rows id message).
Proof. unfold explain_no_rows, maintenanceWindowExists. apply _. Qed.

(** Reading between the writes. *)
Lemma reads_kept {A} (P : WindowTables -> Prop) (m : DB WindowTables A) `{!Keeps (fun t => t) m} : triple P m (fun _ => P) P.
Proof.
  intros fs t Ht. pose proof (keeps fs t (f := fun t => t) (m := m)) as Hk. unfold tables_after in Hk.
  by destruct (m fs t) as [[[a|e] t'] fs']; simpl in *; subst.
Qed.

(** What is saved of a request: the row, and the instances in the order of the request. *)
Definition saved (now : Time) (t0 : WindowTables) (values : maintenanceWindowValues) (r : string * WindowRow) (t : WindowTables) : Prop :=
  kept_windows now t0 t /\ wt_window t !! r.1 = Some r.2 /\ members (wt_scope t) r.1 = wv_instanceIDs values /\
  wr_StartsAt r.2 = timestamptz (wv_startsAt values) /\ wr_EndsAt r.2 = timestamptz (wv_endsAt values) /\
  wr_DeletedAt r.2 = None.

Lemma parse_values input now values :
  parseMaintenanceWindowInput (Some input) now = Some values ->
  wv_instanceIDs values = wi_InstanceIds input /\ wi_InstanceIds input <> [] /\ NoDup (wi_InstanceIds input) /\
  wv_startsAt values = wi_StartsAt input /\ wv_endsAt values = wi_EndsAt input /\
  wi_StartsAt input < wi_EndsAt input /\ now < wi_EndsAt input /\ not_blank (wv_reason values) = true.
Proof.
  unfold parseMaintenanceWindowInput, Before.
  destruct (bool_decide (wi_InstanceIds input = [])) eqn:E1; [done|]. apply bool_decide_eq_false in E1.
  destruct (Z.ltb_spec (wi_StartsAt input) (wi_EndsAt input)); [|done].
  destruct (Z.ltb_spec now (wi_EndsAt input)); [|done]. simpl.
  case_bool_decide as Hr; [done|]. destruct (has_duplicate (wi_InstanceIds input)) eqn:Hd; [done|].
  apply has_duplicate_NoDup in Hd. intros [= <-]. split_and!; try done. by apply TrimSpace_not_blank.
Qed.

Lemma create_tx_saves now t0 actorID newID values :
  wv_instanceIDs values <> [] ->
  triple (kept_windows now t0) (create_window_tx now actorID newID values)
    (fun r t => saved now t0 values r t /\ r.1 = newID) (fun _ => True).
Proof.
  intros Hne. unfold create_window_tx.
  eapply triple_bind; [eapply triple_weaken; [apply (reads_kept (kept_windows now t0)), _|done..|done]|]. intros [].
  apply (triple_bind _ _ _ (fun r t => saving_scope now t0 newID r.2 [] t /\ r.1 = newID /\
    wr_StartsAt r.2 = timestamptz (wv_startsAt values) /\ wr_EndsAt r.2 = timestamptz (wv_endsAt values) /\ wr_DeletedAt r.2 = None)).
  - apply triple_statement; [done|]. intros t r t' (Hok & Hs & Hh) Heff. cbv zeta in Heff.
    destruct (window_checked _) eqn:Hc; [|done]. case_bool_decide as Hid; [done|].
    apply eq_None_not_Some in Hid. destruct (users_known t _) eqn:Hu; [|done]. injection Heff as <- <-. split; [|done].
    assert (forall x, (newID, x) ∉ wt_scope t) as Hnew.
    { intros x Hx. destruct (ok_refs t Hok _ _ Hx) as [[? ?] _]. congruence. }
    split_and!; try done. split; simpl.
    + by apply write_row_ok.
    + intros k Hk Hne'. simpl in *. apply Hs; [|done]. rewrite lookup_insert_ne in Hk by congruence. done.
    + apply lookup_insert_eq.
    + destruct (members (wt_scope t) newID) as [|x l] eqn:E; [done|]. destruct (Hnew x). apply elem_of_members. rewrite E. left.
    + apply write_row_history; [done|]. intros. congruence.
    + intros row0 H0. destruct Hh as (_&_&Hh). destruct (Hh _ _ H0) as (? & ? & _). congruence.
  - intros [id row]. simpl. apply triple_at. intros t (Hsv & -> & Hrow).
    eapply triple_bind; [eapply triple_weaken; [apply (add_instances_saving now t0 newID row)|intros ? ->; done|done|done]|].
    intros []. apply triple_ret. intros t1 Hsv1. apply saving_kept in Hsv1; [|done]. unfold saved. simpl. tauto.
Qed.

Lemma update_tx_saves now t0 actorID id values :
  wv_instanceIDs values <> [] ->
  triple (kept_windows now t0) (update_window_tx now actorID id values)
    (fun r t => saved now t0 values r t /\ r.1 = id) (fun _ => True).
Proof.
  intros Hne. unfold update_window_tx.
  eapply triple_bind; [eapply triple_weaken; [apply (reads_kept (kept_windows now t0)), _|done..|done]|]. intros [].
  eapply triple_bind; [eapply triple_weaken; [apply update_row_kept|done..|done]|].
  { intros row _ ?%Z.ltb_lt ?. lia. }
  intros r. apply triple_at. intros t ((Hok & Hs & Hh) & row & Hd & Hw%Z.ltb_lt & -> & Hrow & Ho).
  eapply triple_bind; [eapply triple_weaken;
    [apply (clear_saving now t0 id (set_update (timestamptz (wv_startsAt values)) (timestamptz (wv_endsAt values)) (wv_reason values)
              actorID (timestamptz now) row) (members (wt_scope t) id))|intros ? ->|done..|done]|].
  { split; try done. - intros k Hk _. by apply Hs. - intros row0 H0 Hover. specialize (Ho row0 H0 Hover). lia. }
  intros []. eapply triple_bind; [apply add_instances_saving|]. intros []. apply triple_ret. intros t1 Hsv1.
  apply saving_kept in Hsv1; [|done]. unfold saved. simpl. tauto.
Qed.

(** The shape of the handlers: a write that keeps, and reading afterwards. *)
Lemma attempt_write_kept {A B} now t0 (m : DB WindowTables A) (k : result A -> DB WindowTables B) R :
  triple (kept_windows now t0) m R (kept_windows now t0) -> (forall a t, R a t -> kept_windows now t0 t) ->
  (forall r, Keeps (fun t => t) (k r)) -> triple (kept_windows now t0) (r ← attempt m; k r) (fun _ => kept_windows now t0) (kept_windows now t0).
Proof.
  intros Hm HR Hk. apply (triple_bind _ _ _ (fun _ => kept_windows now t0)).
  - eapply triple_attempt; [eapply triple_weaken; [exact Hm|done| |done]; simpl; eauto|done].
  - intros r. apply reads_kept, Hk.
Qed.

Lemma create_window_kept now t0 actorID newID body :
  triple (kept_windows now t0) (CreateMaintenanceWindow now actorID newID body) (fun _ => kept_windows now t0) (kept_windows now t0).
Proof.
  unfold CreateMaintenanceWindow. destruct body as [input|]; [|by apply triple_ret].
  destruct (parseMaintenanceWindowInput _ _) as [values|] eqn:Hv; [|by apply triple_ret].
  apply parse_values in Hv as (Hids & Hne & _).
  eapply attempt_write_kept; [apply triple_InTx; [apply create_tx_saves; congruence|]| |].
  - intros r t [(H&_) _]. exact H.
  - intros r t [(H&_) _]. exact H.
  - intros [r|e]; apply _.
Qed.

Lemma edit_window_kept now t0 actorID id body :
  triple (kept_windows now t0) (UpdateMaintenanceWindow now actorID id body) (fun _ => kept_windows now t0) (kept_windows now t0).
Proof.
  unfold UpdateMaintenanceWindow. destruct body as [input|]; [|by apply triple_ret].
  destruct (parseMaintenanceWindowInput _ _) as [values|] eqn:Hv; [|by apply triple_ret].
  apply parse_values in Hv as (Hids & Hne & _).
  eapply attempt_write_kept; [apply triple_InTx; [apply update_tx_saves; congruence|]| |].
  - intros r t [(H&_) _]. exact H.
  - intros r t [(H&_) _]. exact H.
  - intros [r|e]; apply _.
Qed.

Lemma end_window_kept now t0 actorID id :
  triple (kept_windows now t0) (EndMaintenanceWindow now actorID id) (fun _ => kept_windows now t0) (kept_windows now t0).
Proof.
  unfold EndMaintenanceWindow. eapply attempt_write_kept; [apply update_row_kept| |].
  - intros row _ [_ ?%Z.ltb_lt]%andb_true_iff ?. lia.
  - intros r t [H _]. exact H.
  - intros [r|e]; apply _.
Qed.

Lemma delete_window_kept now t0 actorID id :
  triple (kept_windows now t0) (DeleteMaintenanceWindow now actorID id) (fun _ => kept_windows now t0) (kept_windows now t0).
Proof.
  unfold DeleteMaintenanceWindow. apply (triple_bind _ _ _ (fun _ => kept_windows now t0)); [|intros r; by apply triple_ret].
  apply triple_statement; [done|]. intros t r t' (Hok & Hs & Hh) Heff. cbv zeta in Heff.
  destruct (live_window t id) as [row|] eqn:Hl; [|by injection Heff as <- <-].
  destruct (window_fault _ _) eqn:Hf; [done|]. apply window_fault_None in Hf as [Hc Hu]. injection Heff as <- <-.
  apply live_window_Some in Hl as [Hrow Hd].
  assert (kept_windows now t0 (with_windows (<[id := set_deleted (timestamptz now) actorID row]> (wt_window t)) t)) as Hk; [|done].
  split_and!; [by apply write_row_ok|apply write_row_scoped; [done|by exists row]|].
  apply write_row_history; [done|]. intros row0 H0 Ho row1 H1. assert (row1 = row) as -> by congruence.
  unfold same_history. simpl. naive_solver.
Qed.

(** * Sequences of requests *)

Inductive window_call : Type :=
  | CallList
  | CallCreate (actorID newID : string) (body : option MaintenanceWindowInput)
  | CallUpdate (actorID id : string) (body : option MaintenanceWindowInput)
  | CallEnd (actorID id : string)
  | CallDelete (actorID id : string).

Definition run_window_call (now : Time) (c : window_call) : DB WindowTables unit :=
  match c with
  | CallList => ListMaintenanceWindows now ;; mret tt
  | CallCreate actorID newID body => CreateMaintenanceWindow now actorID newID body ;; mret tt
  | CallUpdate actorID id body => UpdateMaintenanceWindow now actorID id body ;; mret tt
  | CallEnd actorID id => EndMaintenanceWindow now actorID id ;; mret tt
  | CallDelete actorID id => DeleteMaintenanceWindow now actorID id ;; mret tt
  end.

(** Requests arrive at times that do not go back, each under its faults. *)
Inductive windows_reached (now0 : Time) (t0 : WindowTables) : Time -> WindowTables -> Prop :=
  | reached_start : windows_reached now0 t0 now0 t0
  | reached_call now t now' c fs : windows_reached now0 t0 now t -> now <= now' ->
      windows_reached now0 t0 now' (tables_after (run_window_call now' c) fs t).

Lemma run_window_call_kept now t0 c :
  triple (kept_windows now t0) (run_window_call now c) (fun _ => kept_windows now t0) (kept_windows now t0).
Proof.
  destruct c; simpl; (apply (triple_bind _ _ _ (fun _ => kept_windows now t0)); [|intros ?; by apply triple_ret]).
  - apply reads_kept, _.
  - apply create_window_kept.
  - apply edit_window_kept.
  - apply end_window_kept.
  - apply delete_window_kept.
Qed.

(** Whatever the requests that list, create, edit, end and delete maintenance
    windows, and whatever faults the database has under them: every window keeps an
    ordered interval, a reason, attributed deletions and at least one existing instance,
    none listed twice; and no window disappears. A window that is over, because its
    end has passed or because it is deleted, is history: its interval, reason,
    instances, creator and the user who ended it never change again, and a deletion is
    never undone. *)
Theorem ended_windows_are_history (now0 now : Time) (t0 t : WindowTables) :
  windows_ok t0 -> scoped None t0 -> windows_reached now0 t0 now t ->
  windows_ok t /\ scoped None t /\ keeps_history now0 t0 t.
Proof.
  intros Hok Hs H.
  cut (now0 <= now /\ windows_ok t /\ scoped None t /\ keeps_history now0 t0 t); [tauto|].
  induction H as [|now t now' c fs H IH Hle].
  - split; [lia|]. split; [done|]. split; [done|]. apply keeps_history_refl.
  - destruct IH as (Hn & Hok1 & Hs1 & Hh1).
    destruct (triple_tables _ (run_window_call now' c) fs t (run_window_call_kept now' t c)) as (Hok2 & Hs2 & Hh2).
    { split; [done|]. split; [done|]. apply keeps_history_refl. }
    split; [lia|]. split; [done|]. split; [done|]. eapply keeps_history_trans; [|exact Hh1|exact Hh2]. lia.
Qed.

(** * What a request does to suppression *)

Lemma saved_covers now t0 values r t i at_ :
  saved now t0 values r t -> i ∈ wv_instanceIDs values ->
  timestamptz (wv_startsAt values) <= at_ < timestamptz (wv_endsAt values) -> covers t r.1 i at_.
Proof.
  intros (_ & Hrow & Hm & Hstart & Hend & Hd) Hi Hat. exists r.2.
  rewrite live_window_Some, <-elem_of_members, Hm, Hstart, Hend. auto.
Qed.

(** A write whose result a handler reads back: the tables at the end are those after
    the write. *)
Lemma write_then_read {A B} (m : DB WindowTables A) (k : result A -> DB WindowTables B) (P : WindowTables -> Prop) Q fs t b t' fs' :
  (r ← attempt m; k r) fs t = (Ok b, t', fs') -> (forall r, Keeps (fun t => t) (k r)) ->
  triple P m Q (fun _ => True) -> P t ->
  exists r, (m fs t).1.1 = r /\ (m fs t).1.2 = t' /\ (exists fs1, k r fs1 t' = (Ok b, t', fs')) /\
    match r with Ok a => Q a t' | Err _ => True end.
Proof.
  intros H Hk Hm HP. specialize (Hm fs t HP). unfold mbind, DB_bind, attempt in H.
  destruct (m fs t) as [[r t1] fs1]. simpl in *.
  pose proof (keeps fs1 t1 (f := fun t => t) (m := k r)) as Hkr. unfold tables_after in Hkr. rewrite H in Hkr.
  simpl in Hkr. subst t1. exists r. destruct r; eauto 6.
Qed.

Lemma answer_api {B} now entry (f : APIMaintenanceWindow -> B) fs t b t' fs' :
  (item ← toAPIMaintenanceWindow now entry; mret (f item)) fs t = (Ok b, t', fs') -> b = f (api_window t now entry).
Proof.
  intros H. apply (propagates (m := item ← toAPIMaintenanceWindow now entry; mret (f item))) in H.
  destruct entry as [id row]. unfold mbind, DB_bind, mret, DB_ret in H. simpl in H. by injection H as <- _.
Qed.

Lemma explain_refuses id message fs t b t' fs' :
  explain_no_rows id message fs t = (Ok b, t', fs') -> (exists e, b = R400 e) \/ (exists e, b = R404 e).
Proof.
  unfold explain_no_rows, mbind, DB_bind. destruct (maintenanceWindowExists id fs t) as [[[[]|] ?] ?]; unfold mret, DB_ret;
    intros [= <-]; eauto.
Qed.

(** After the request the window [id] suppresses exactly the instances [ids] from
    [start] to before [stop]. *)
Definition suppresses (t : WindowTables) (n : NotifyTables) (id : string) (ids : list string) (start stop : Time) : Prop :=
  (forall i at_, i ∈ ids -> start <= at_ < stop -> is_Some (active_window i at_ (notify_view t n))) /\
  (forall i at_ scope, active_window i at_ (notify_view t n) = Some scope -> scope_ID scope = id ->
     i ∈ ids /\ start <= at_ < stop).

Lemma saved_suppresses now t0 values r t n :
  saved now t0 values r t ->
  suppresses t n r.1 (wv_instanceIDs values) (timestamptz (wv_startsAt values)) (timestamptz (wv_endsAt values)).
Proof.
  intros Hs. split.
  - intros i at_ Hi Hat. eapply covers_active_window, saved_covers; eauto.
  - intros i at_ scope (row & [Hrow _]%live_window_Some & Hi & Hat)%active_window_covers Hid. rewrite Hid in *.
    destruct Hs as (_ & Hrow' & Hm & <- & <- & _). assert (row = r.2) as -> by congruence.
    rewrite <-Hm, elem_of_members. auto.
Qed.

(** An accepted request that creates or edits a window has saved it. *)
Lemma accepted_saved now actorID id input fs fs' t t' answer :
  kept_windows now t t ->
  (CreateMaintenanceWindow now actorID id (Some input) fs t = (Ok answer, t', fs') /\ (exists w, answer = R201 w)) \/
  (UpdateMaintenanceWindow now actorID id (Some input) fs t = (Ok answer, t', fs') /\ (exists w, answer = R200 w)) ->
  exists values r, parseMaintenanceWindowInput (Some input) now = Some values /\ saved now t values r t' /\ r.1 = id.
Proof.
  intros Hk H. unfold CreateMaintenanceWindow, UpdateMaintenanceWindow in H.
  destruct (parseMaintenanceWindowInput (Some input) now) as [values|] eqn:Hv.
  2: { unfold mret, DB_ret in H. naive_solver. }
  pose proof (parse_values _ _ _ Hv) as (Hids & Hne & _). rewrite <-Hids in Hne.
  exists values. destruct H as [[H [w ->]]|[H [w ->]]].
  - eapply (write_then_read _ _ (kept_windows now t)) in H as ([r|e] & _ & _ & [fs1 H] & Hq);
      [| |intros []; apply _|apply triple_InTx_either; [by apply create_tx_saves|done..]|done].
    + exists r. naive_solver.
    + exfalso. case_bool_decide; unfold mret, DB_ret, fail in H; congruence.
  - eapply (write_then_read _ _ (kept_windows now t)) in H as ([r|e] & _ & _ & [fs1 H] & Hq);
      [| |intros []; apply _|apply triple_InTx_either; [by apply update_tx_saves|done..]|done].
    + exists r. naive_solver.
    + exfalso. case_bool_decide; [unfold mret, DB_ret in H; congruence|].
      destruct (is_no_rows e); [|unfold fail in H; congruence]. apply explain_refuses in H. naive_solver.
Qed.

(** A confirmed end leaves the window's row ended at the request. *)
Lemma confirmed_end now actorID id fs fs' t t' w :
  kept_windows now t t -> EndMaintenanceWindow now actorID id fs t = (Ok (R200 w), t', fs') ->
  exists row, wr_StartsAt row <= timestamptz now /\ wt_window t' !! id = Some (set_end (timestamptz now) actorID row) /\
    aw_Status w = window_status (set_end (timestamptz now) actorID row) now.
Proof.
  intros Hk H. unfold EndMaintenanceWindow in H.
  eapply (write_then_read _ _ (kept_windows now t)) in H as ([r|e] & _ & _ & [fs1 H] & Hq);
    [| |intros []; apply _|eapply triple_weaken; [apply (update_row_kept now t)|done..]|done].
  - destruct Hq as (_ & row & Hd & [?%Z.leb_le _]%andb_true_iff & -> & Hrow & _). apply answer_api in H as [= ->]. eauto.
  - exfalso. destruct (is_no_rows e); [|unfold fail in H; congruence]. apply explain_refuses in H. naive_solver.
  - intros row _ [_ ?%Z.ltb_lt]%andb_true_iff ?. lia.
Qed.

(** A confirmed deletion leaves the window's row deleted. *)
Lemma confirmed_deletion now actorID id fs fs' t t' :
  DeleteMaintenanceWindow now actorID id fs t = (Ok R204, t', fs') -> live_window t' id = None.
Proof.
  assert (triple (fun _ => True) (WindowQueries.DeleteMaintenanceWindow id now actorID)
            (fun k t' => k = 0 \/ live_window t' id = None) (fun _ => True)) as Ht.
  { apply triple_statement; [done|]. intros t0 k t1 _ Heff. cbv zeta in Heff. split; [|done].
    destruct (live_window t0 id) as [row|]; [|left; congruence]. destruct (window_fault _ _); [done|].
    injection Heff as <- <-. right. unfold live_window. simpl. by rewrite lookup_insert_eq. }
  unfold DeleteMaintenanceWindow, mbind, DB_bind. specialize (Ht fs t I).
  destruct (WindowQueries.DeleteMaintenanceWindow id now actorID fs t) as [[[k|e] t1] fs1]; [|done].
  unfold mret, DB_ret. intros [= Hans -> ->]. simpl in Ht. destruct (Z.eqb_spec k 0); [done|]. naive_solver.
Qed.

(** What an accepted request about a maintenance window does to notifications, in
    every state the handlers keep and under any faults: once a window is created or
    edited, it suppresses exactly the instances of the request, from the start to
    before the end of the request (to the microsecond); once an ended window is
    confirmed, it is reported as ended and suppresses nothing from then on; once a
    deletion is confirmed the window suppresses nothing at any time. *)
Theorem window_requests_take_effect (now : Time) (actorID id : string) (input : MaintenanceWindowInput)
    (fs fs' : list fate) (t t' : WindowTables) (n : NotifyTables) (answer : response APIMaintenanceWindow) :
  windows_ok t -> scoped None t ->
  ((CreateMaintenanceWindow now actorID id (Some input) fs t = (Ok answer, t', fs') /\ (exists w, answer = R201 w)) \/
   (UpdateMaintenanceWindow now actorID id (Some input) fs t = (Ok answer, t', fs') /\ (exists w, answer = R200 w)) ->
   suppresses t' n id (wi_InstanceIds input) (timestamptz (wi_StartsAt input)) (timestamptz (wi_EndsAt input))) /\
  (forall w, EndMaintenanceWindow now actorID id fs t = (Ok (R200 w), t', fs') ->
   aw_Status w = MaintenanceEnded /\
   forall i at_ scope, now <= at_ -> active_window i at_ (notify_view t' n) = Some scope -> scope_ID scope <> id) /\
  (DeleteMaintenanceWindow now actorID id fs t = (Ok R204, t', fs') ->
   forall i at_ scope, active_window i at_ (notify_view t' n) = Some scope -> scope_ID scope <> id).
Proof.
  intros Hok Hs. assert (kept_windows now t t) as Hk by (split; [done|split; [done|apply keeps_history_refl]]).
  split; [|split].
  - intros (values & r & Hv & Hsaved & <-)%accepted_saved; [|done].
    apply parse_values in Hv as (<- & _ & _ & <- & <- & _). by eapply saved_suppresses.
  - intros w (row & Hstart & Hrow & ->)%confirmed_end; [|done]. pose proof (timestamptz_le now). split.
    + unfold window_status, Before. simpl.
      destruct (Z.ltb_spec now (wr_StartsAt row)), (Z.ltb_spec now (timestamptz now)); lia || done.
    + intros i at_ scope Hat (row' & [Hrow' _]%live_window_Some & _ & Hat')%active_window_covers Hid. subst id.
      rewrite Hrow in Hrow'. injection Hrow' as <-. simpl in Hat'. lia.
  - intros H%confirmed_deletion i at_ scope (row & Hrow & _)%active_window_covers Hid. congruence.
Qed.

(** * A run *)

Module WindowsDemo.
Definition empty : WindowTables := MkWindowTables ∅ [] {["i1"; "i2"]} {["admin"]}.
Definition notify : NotifyTables := MkNotifyTables ∅ [] ∅ ∅ ∅ [] [] [] [] ∅ None ∅ [] [] ∅ [] ∅ [].
Definition input : MaintenanceWindowInput := MkWindowInput ["i1"] (10 * Second) (20 * Second) " upgrade ".
Definition created : WindowTables := tables_after (CreateMaintenanceWindow (5 * Second) "admin" "w1" (Some input)) [] empty.
Definition ended : WindowTables := tables_after (EndMaintenanceWindow (15 * Second) "admin" "w1") [] created.
Definition edited : WindowTables := tables_after (UpdateMaintenanceWindow (16 * Second) "admin" "w1" (Some input)) [] ended.
End WindowsDemo.

Example window_suppresses :
  (is_Some (active_window "i1" (12 * Second) (notify_view WindowsDemo.created WindowsDemo.notify)) /\
   active_window "i2" (12 * Second) (notify_view WindowsDemo.created WindowsDemo.notify) = None /\
   active_window "i1" (16 * Second) (notify_view WindowsDemo.ended WindowsDemo.notify) = None).
Proof. split; [by eexists|]. split; reflexivity. Qed.

(** The end of a window that starts at the very microsecond of the request violates
    [starts_at < ends_at]: the request fails and the window goes on. *)
Example end_at_start_fails :
  (EndMaintenanceWindow (10 * Second) "admin" "w1" [] WindowsDemo.created).1 = (Err (ErrPg "23514"), WindowsDemo.created).
Proof. reflexivity. Qed.

Lemma empty_ok : windows_ok WindowsDemo.empty /\ scoped None WindowsDemo.empty.
Proof.
  split; [split|]; simpl.
  - intros id row. by rewrite lookup_empty.
  - constructor.
  - intros id i []%elem_of_nil.
  - intros id [row H]. simpl in H. by rewrite lookup_empty in H.
Qed.

Lemma listed_windows_are_in_force_witness :
  exists items, ListMaintenanceWindows (12 * Second) [] WindowsDemo.created = (Ok (R200 items), WindowsDemo.created, []) /\
    exists w, w ∈ items /\ aw_Id w = "w1" /\ shown_active "i1" w.
Proof.
  eexists. split; [reflexivity|].
  destruct (listed_windows_are_in_force (12 * Second) [] [] WindowsDemo.created WindowsDemo.created WindowsDemo.notify _
              eq_refl) as [_ H].
  apply (proj1 (H "i1") (MkMaintenanceWindowScope "w1" ["i1"] (10 * Second) (20 * Second) false)). reflexivity.
Defined.

Lemma ended_windows_are_history_witness :
  windows_ok WindowsDemo.edited /\ scoped None WindowsDemo.edited /\
  keeps_history (5 * Second) WindowsDemo.empty WindowsDemo.edited.
Proof.
  apply (ended_windows_are_history (5 * Second) (16 * Second)); [apply empty_ok|apply empty_ok|].
  apply (reached_call _ _ (15 * Second) WindowsDemo.ended (16 * Second) (CallUpdate "admin" "w1" (Some WindowsDemo.input)) []); [|unfold Second; lia].
  apply (reached_call _ _ (5 * Second) WindowsDemo.created (15 * Second) (CallEnd "admin" "w1") []); [|unfold Second; lia].
  apply (reached_call _ _ (5 * Second) WindowsDemo.empty (5 * Second) (CallCreate "admin" "w1" (Some WindowsDemo.input)) []);
    [apply reached_start|lia].
Defined.

Lemma window_requests_take_effect_witness :
  suppresses WindowsDemo.created WindowsDemo.notify "w1" ["i1"] (10 * Second) (20 * Second).
Proof.
  destruct empty_ok as [Hok Hs].
  eapply (proj1 (window_requests_take_effect (5 * Second) "admin" "w1" WindowsDemo.input [] [] WindowsDemo.empty
    WindowsDemo.created WindowsDemo.notify _ Hok Hs)).
  left. split; [reflexivity|]. by eexists.
Defined.
