(* ===== verification/AuthQueries.v ===== *)
(** Users, sessions, agent tokens and platform events: the tables, the statements of
    [internal/httpapi/queries.sql.go] on them under the constraints of the migrations,
    and [internal/platformevent/events.go]. *)

From S2P Require Import Prelude Db Text.

(** * Rows *)

(** [app_user], keyed by its id. *)
Record UserRow : Type := MkUserRow {
  usr_Username : string;
  usr_PasswordHash : string;
  usr_Role : string;
  usr_Enabled : bool;
  usr_CreatedAt : Time;
  usr_CreatedBy : option string;
  usr_EnabledUpdatedBy : option string;
  usr_EnabledUpdatedAt : option Time;
  usr_RoleUpdatedBy : option string;
  usr_RoleUpdatedAt : option Time;
}.

(** [user_session], keyed by [token_hash]. *)
Record SessionRow : Type := MkSessionRow {
  ses_UserID : string;
  ses_ExpiresAt : Time;
  ses_CreatedAt : Time;
  ses_LastSeenAt : Time;
}.

(** [platform_event], in the order of its identity column. *)
Record PlatformEventRow : Type := MkPlatformEventRow {
  pe_Kind : string;
  pe_OccurredAt : Time;
  pe_ActorID : option string;
  pe_ActorSubject : option string;
  pe_SubjectID : option string;
}.

(** The columns of [instance] that authenticate an agent. *)
Record AgentCredential : Type := MkAgentCredential {
  ac_Expected : bool;
  ac_TokenHash : option string;
  ac_RevokedAt : option Time;
}.

(** [au_health] is the last credential fault reported to the platform health store. *)
Record AuthTables : Type := MkAuthTables {
  au_user : gmap string UserRow;
  au_session : gmap string SessionRow;
  au_event : list PlatformEventRow;
  au_agent : gmap string AgentCredential;
  au_health : option (Time * string);
}.

Definition with_users (m : gmap string UserRow) (t : AuthTables) : AuthTables :=
  MkAuthTables m (au_session t) (au_event t) (au_agent t) (au_health t).
Definition with_sessions (m : gmap string SessionRow) (t : AuthTables) : AuthTables :=
  MkAuthTables (au_user t) m (au_event t) (au_agent t) (au_health t).
Definition with_events (l : list PlatformEventRow) (t : AuthTables) : AuthTables :=
  MkAuthTables (au_user t) (au_session t) l (au_agent t) (au_health t).
Definition with_health (h : option (Time * string)) (t : AuthTables) : AuthTables :=
  MkAuthTables (au_user t) (au_session t) (au_event t) (au_agent t) h.

Definition READONLY : string := "READONLY".
Definition ALERT_ADMIN : string := "ALERT_ADMIN".
Definition PLATFORM_ADMIN : string := "PLATFORM_ADMIN".
Definition roles : list string := [READONLY; ALERT_ADMIN; PLATFORM_ADMIN].

(** * Users *)

Definition enabled_admin (u : UserRow) : bool := usr_Enabled u && bool_decide (usr_Role u = PLATFORM_ADMIN).

Definition AdminExists : DB AuthTables bool :=
  query (fun t => bool_decide (Exists (fun entry => enabled_admin entry.2 = true) (map_to_list (au_user t)))).

Definition username_taken (t : AuthTables) (username : string) : bool :=
  bool_decide (Exists (fun entry => usr_Username entry.2 = username) (map_to_list (au_user t))).

(** [created_at] is the server's [now()]. *)
Definition new_user (username passwordHash role : string) (createdBy : option string) (serverNow : Time) : UserRow :=
  MkUserRow username passwordHash role true serverNow createdBy None None None None.

Definition CreateAdmin (id username passwordHash : string) (serverNow : Time) : DB AuthTables unit :=
  statement (fun t =>
    if username_taken t username then Ok (tt, t)
    else if bool_decide (is_Some (au_user t !! id)) then Err (ErrPg "23505")
    else Ok (tt, with_users (<[id := new_user username passwordHash PLATFORM_ADMIN None serverNow]> (au_user t)) t)).

Definition CreateUser (id username passwordHash role createdBy : string) (serverNow : Time) : DB AuthTables (string * UserRow) :=
  statement (fun t =>
    if negb (bool_decide (role ∈ roles)) then Err (ErrPg "23514")
    else if bool_decide (is_Some (au_user t !! id)) || username_taken t username then Err (ErrPg "23505")
    else if bool_decide (au_user t !! createdBy = None) then Err (ErrPg "23503")
    else
      let row := new_user username passwordHash role (Some createdBy) serverNow in
      Ok ((id, row), with_users (<[id := row]> (au_user t)) t)).

Definition user_row (t : AuthTables) (id : string) : result (string * UserRow) :=
  match au_user t !! id with Some row => Ok (id, row) | None => Err ErrNoRows end.

Definition GetCurrentUser (id : string) : DB AuthTables (string * UserRow) :=
  statement (fun t => row ← user_row t id; Ok (row, t)).

Definition GetUserForUpdate (id : string) : DB AuthTables (string * UserRow) :=
  statement (fun t => row ← user_row t id; Ok (row, t)).

Definition ListUsers : DB AuthTables (list (string * UserRow)) :=
  query (fun t => sort_by (fun a b => string_ltb (usr_Username a.2) (usr_Username b.2)) (map_to_list (au_user t))).

(** The ids of the enabled administrators, locked until the transaction ends. *)
Definition admin_ids (users : gmap string UserRow) : list string :=
  sort_by string_ltb (filter (fun entry => enabled_admin entry.2 = true) (map_to_list users)).*1.

Definition enabled_admins (t : AuthTables) : list string := admin_ids (au_user t).

Definition LockEnabledPlatformAdmins : DB AuthTables (list string) := query enabled_admins.

(** The enabled user with a name. *)
Definition GetUserForLogin (username : string) : DB AuthTables (string * UserRow) :=
  statement (fun t =>
    match list_find (fun entry => usr_Username entry.2 = username /\ usr_Enabled entry.2 = true) (map_to_list (au_user t)) with
    | Some (_, entry) => Ok (entry, t)
    | None => Err ErrNoRows
    end).

Definition GetUserPassword (id : string) : DB AuthTables string :=
  statement (fun t =>
    match au_user t !! id with
    | Some row => if usr_Enabled row then Ok (usr_PasswordHash row, t) else Err ErrNoRows
    | None => Err ErrNoRows
    end).

Definition set_enabled (enabled : bool) (by_ : string) (at_ : Time) (u : UserRow) : UserRow :=
  MkUserRow (usr_Username u) (usr_PasswordHash u) (usr_Role u) enabled (usr_CreatedAt u) (usr_CreatedBy u)
    (Some by_) (Some at_) (usr_RoleUpdatedBy u) (usr_RoleUpdatedAt u).

Definition set_role (role : string) (by_ : string) (at_ : Time) (u : UserRow) : UserRow :=
  MkUserRow (usr_Username u) (usr_PasswordHash u) role (usr_Enabled u) (usr_CreatedAt u) (usr_CreatedBy u)
    (usr_EnabledUpdatedBy u) (usr_EnabledUpdatedAt u) (Some by_) (Some at_).

Definition set_password (hash : string) (u : UserRow) : UserRow :=
  MkUserRow (usr_Username u) hash (usr_Role u) (usr_Enabled u) (usr_CreatedAt u) (usr_CreatedBy u)
    (usr_EnabledUpdatedBy u) (usr_EnabledUpdatedAt u) (usr_RoleUpdatedBy u) (usr_RoleUpdatedAt u).

Definition SetUserEnabled (id : string) (enabled : bool) (by_ : string) (at_ : Time) : DB AuthTables (string * UserRow) :=
  statement (fun t =>
    match au_user t !! id, au_user t !! by_ with
    | None, _ => Err ErrNoRows
    | Some _, None => Err (ErrPg "23503")
    | Some row, Some _ =>
        let row' := set_enabled enabled by_ (timestamptz at_) row in
        Ok ((id, row'), with_users (<[id := row']> (au_user t)) t)
    end).

Definition SetUserRole (id role by_ : string) (at_ : Time) : DB AuthTables (string * UserRow) :=
  statement (fun t =>
    match au_user t !! id, au_user t !! by_ with
    | None, _ => Err ErrNoRows
    | Some row, other =>
        if negb (bool_decide (role ∈ roles)) then Err (ErrPg "23514")
        else
          match other with
          | None => Err (ErrPg "23503")
          | Some _ =>
              let row' := set_role role by_ (timestamptz at_) row in
              Ok ((id, row'), with_users (<[id := row']> (au_user t)) t)
          end
    end).

(** The number of rows. *)
Definition SetUserPassword (id hash : string) : DB AuthTables Z :=
  statement (fun t =>
    match au_user t !! id with
    | Some row => Ok (1, with_users (<[id := set_password hash row]> (au_user t)) t)
    | None => Ok (0, t)
    end).

(** * Sessions *)

Definition CreateSession (tokenHash userID : string) (expiresAt createdAt : Time) : DB AuthTables unit :=
  statement (fun t =>
    if bool_decide (is_Some (au_session t !! tokenHash)) then Err (ErrPg "23505")
    else if bool_decide (au_user t !! userID = None) then Err (ErrPg "23503")
    else Ok (tt, with_sessions (<[tokenHash := MkSessionRow userID (timestamptz expiresAt) (timestamptz createdAt)
                                                 (timestamptz createdAt)]> (au_session t)) t)).

Definition DeleteSession (tokenHash : string) : DB AuthTables unit :=
  exec (fun t => with_sessions (delete tokenHash (au_session t)) t).

Definition DeleteUserSessions (userID : string) : DB AuthTables unit :=
  exec (fun t => with_sessions (filter (fun entry => ses_UserID entry.2 <> userID) (au_session t)) t).

Definition DeleteOtherUserSessions (userID tokenHash : string) : DB AuthTables unit :=
  exec (fun t => with_sessions (filter (fun entry => ~ (ses_UserID entry.2 = userID /\ entry.1 <> tokenHash)) (au_session t)) t).

(** A session that authenticates at [now]: neither past its expiry nor idle since
    [idleCutoff], of an enabled user. *)
Definition session_user (t : AuthTables) (tokenHash : string) (now idleCutoff : Time) : option (string * UserRow) :=
  session ← au_session t !! tokenHash;
  user ← au_user t !! ses_UserID session;
  if (now <? ses_ExpiresAt session) && (idleCutoff <? ses_LastSeenAt session) && usr_Enabled user
  then Some (ses_UserID session, user) else None.

Definition touch (now : Time) (s : SessionRow) : SessionRow :=
  MkSessionRow (ses_UserID s) (ses_ExpiresAt s) (ses_CreatedAt s) now.

(** The user's id and role; the session is seen at [now]. *)
Definition AuthenticateSession (tokenHash : string) (now idleCutoff : Time) : DB AuthTables (string * string) :=
  statement (fun t =>
    match session_user t tokenHash (timestamptz now) (timestamptz idleCutoff) with
    | Some (id, user) => Ok ((id, usr_Role user), with_sessions (alter (touch (timestamptz now)) tokenHash (au_session t)) t)
    | None => Err ErrNoRows
    end).

(** * Agent tokens *)

Definition agent_hash (c : AgentCredential) : option string :=
  if ac_Expected c && bool_decide (ac_RevokedAt c = None) then ac_TokenHash c else None.

Definition GetAgentTokenHash (instanceID : string) : DB AuthTables string :=
  statement (fun t =>
    match au_agent t !! instanceID ≫= agent_hash with Some hash => Ok (hash, t) | None => Err ErrNoRows end).

Definition GetInstanceIDByAgentTokenHash (hash : string) : DB AuthTables string :=
  statement (fun t =>
    match list_find (fun entry => agent_hash entry.2 = Some hash) (map_to_list (au_agent t)) with
    | Some (_, (id, _)) => Ok (id, t)
    | None => Err ErrNoRows
    end).

(** * Platform events *)

Definition eventKinds : list string :=
  ["LOGIN_SUCCEEDED"; "LOGIN_FAILED"; "USER_CREATED"; "USER_STATUS_CHANGED"; "USER_STATUS_CHANGE_REJECTED"; "USER_ROLE_CHANGED";
   "USER_PASSWORD_RESET"; "INSTANCE_CREDENTIAL_UPDATED"; "INSTANCE_REMOVED"; "MASTER_KEY_ROTATED";
   "DIAGNOSTIC_BUNDLE_RECLAIMED"; "NOTIFICATION_SNAPSHOT_RECLAIMED"].

Definition knownKind (kind : string) : bool := bool_decide (kind ∈ eventKinds).

Record Event : Type := MkEvent {
  evt_Kind : string;
  evt_OccurredAt : Time;
  evt_ActorID : option string;
  evt_ActorSubject : string;
  evt_SubjectID : option string;
}.

(** The INSERT with its checks and the reference to the actor. *)
Definition insert_event (e : Event) : DB AuthTables unit :=
  statement (fun t =>
    let subject := if bool_decide (evt_ActorSubject e = EmptyString) then None else Some (evt_ActorSubject e) in
    if negb (knownKind (evt_Kind e) && xorb (bool_decide (is_Some (evt_ActorID e))) (bool_decide (is_Some subject)) &&
             match subject with Some s => not_blank s | None => true end)
    then Err (ErrPg "23514")
    else if match evt_ActorID e with Some actor => bool_decide (au_user t !! actor = None) | None => false end
    then Err (ErrPg "23503")
    else Ok (tt, with_events (au_event t ++ [MkPlatformEventRow (evt_Kind e) (timestamptz (evt_OccurredAt e)) (evt_ActorID e)
                                               subject (evt_SubjectID e)]) t)).

(** [platformevent.Record] *)
Definition RecordEvent (e : Event) : DB AuthTables unit :=
  let hasActorID := bool_decide (is_Some (evt_ActorID e)) in
  let hasActorSubject := negb (bool_decide (TrimSpace (evt_ActorSubject e) = EmptyString)) in
  if negb (knownKind (evt_Kind e)) then fail (ErrNew "unknown platform event kind")
  else if eqb hasActorID hasActorSubject then fail (ErrNew "platform event requires exactly one actor identity")
  else if IsZero (evt_OccurredAt e) then fail (ErrNew "platform event requires an occurrence time")
  else insert_event e.

(** [ORDER BY occurred_at DESC, id DESC LIMIT 100], with the actor's name when there is one. *)
Definition ListPlatformEvents : DB AuthTables (list (nat * PlatformEventRow * option string)) :=
  query (fun t =>
    take 100 (sort_by (fun a b => (pe_OccurredAt b.1.2 <? pe_OccurredAt a.1.2) ||
                                  ((pe_OccurredAt b.1.2 =? pe_OccurredAt a.1.2) && bool_decide (b.1.1 < a.1.1)%nat))
      (imap (fun id e => (id, e,
         match pe_ActorID e ≫= fun actor => au_user t !! actor with
         | Some u => Some (usr_Username u) | None => pe_ActorSubject e end)) (au_event t)))).
