(* ===== verification/Auth.v ===== *)
(** Authentication, sessions and users of the HTTP API: the middleware
    [authenticate] with its table of required roles, login and logout
    ([internal/httpapi/handler.go]), and user management
    ([internal/httpapi/users.go]). *)

From S2P Require Import Prelude Db Text Responses AuthQueries.

(** * Roles and operations *)

Definition AGENT_ROLE : string := "AGENT".

Definition RequiredRoles : list (string * string) :=
  [("CreateSession", READONLY); ("DeleteSession", READONLY); ("ReportAgentMetrics", AGENT_ROLE);
   ("DownloadAgentBinary", AGENT_ROLE); ("ListPlatformEvents", READONLY); ("GetAgentRegistration", READONLY);
   ("RegisterAgent", PLATFORM_ADMIN); ("RotateAgentToken", PLATFORM_ADMIN); ("RevokeAgentToken", PLATFORM_ADMIN);
   ("DisableAgent", PLATFORM_ADMIN); ("GetPlatformHealth", PLATFORM_ADMIN); ("GetDiskDiagnostics", PLATFORM_ADMIN);
   ("GetSchedulerDiagnostics", PLATFORM_ADMIN); ("GetPartitionDiagnostics", PLATFORM_ADMIN);
   ("GetCertificateDiagnostics", PLATFORM_ADMIN); ("GetKeyringDiagnostics", PLATFORM_ADMIN);
   ("GetPlatformDiagnostics", PLATFORM_ADMIN); ("ListAlertRules", READONLY); ("GetAlertRule", READONLY);
   ("CreateAlertRule", ALERT_ADMIN); ("DeleteAlertRule", ALERT_ADMIN); ("UpdateAlertRule", ALERT_ADMIN);
   ("UpdateAlertRuleEnabled", ALERT_ADMIN); ("CopyAlertRule", ALERT_ADMIN); ("ListAlertRuleTemplates", READONLY);
   ("CreateAlertRuleFromTemplate", ALERT_ADMIN); ("GetAlertDisposition", READONLY);
   ("UpdateAlertDisposition", ALERT_ADMIN); ("GetAlertDetail", READONLY); ("ListAlertEvents", READONLY);
   ("GetAlertTriggerSnapshot", READONLY); ("ListCurrentAlerts", READONLY); ("ListAlertHistory", READONLY);
   ("ListAlertNotifications", READONLY); ("GetSMTPChannel", READONLY); ("UpdateSMTPChannel", ALERT_ADMIN);
   ("TestSMTPChannel", ALERT_ADMIN); ("ListWebhookTargets", READONLY); ("CreateWebhookTarget", ALERT_ADMIN);
   ("UpdateWebhookTarget", ALERT_ADMIN); ("DeleteWebhookTarget", ALERT_ADMIN); ("TestWebhookTarget", ALERT_ADMIN);
   ("GetChannelFailures", READONLY); ("ListNotificationContacts", READONLY); ("CreateNotificationContact", ALERT_ADMIN);
   ("UpdateNotificationContact", ALERT_ADMIN); ("DeleteNotificationContact", ALERT_ADMIN);
   ("ListNotificationContactGroups", READONLY); ("CreateNotificationContactGroup", ALERT_ADMIN);
   ("UpdateNotificationContactGroup", ALERT_ADMIN); ("DeleteNotificationContactGroup", ALERT_ADMIN);
   ("GetNotificationPolicySettings", READONLY); ("ListNotificationPolicies", READONLY);
   ("CreateNotificationPolicy", ALERT_ADMIN); ("UpdateNotificationPolicy", ALERT_ADMIN);
   ("DeleteNotificationPolicy", ALERT_ADMIN); ("ListMaintenanceWindows", READONLY);
   ("CreateMaintenanceWindow", ALERT_ADMIN); ("UpdateMaintenanceWindow", ALERT_ADMIN);
   ("EndMaintenanceWindow", ALERT_ADMIN); ("DeleteMaintenanceWindow", ALERT_ADMIN); ("ListPerformanceEvents", READONLY);
   ("GetPerformanceEvent", READONLY); ("GetFleetOverview", READONLY); ("ListTopSql", READONLY);
   ("ListInstances", READONLY); ("GetInstance", READONLY); ("GetMetricSeries", READONLY);
   ("GetMetricCatalog", READONLY); ("GetInstancesMetricSeries", READONLY); ("ListCapabilitySnapshot", READONLY);
   ("ListCollectionTaskStates", READONLY); ("GetCollectionPause", READONLY); ("ListLongQuerySamples", READONLY);
   ("GetQueryStatisticsSnapshot", READONLY); ("GetSessionSnapshot", READONLY);
   ("UpdateCollectionTaskInterval", PLATFORM_ADMIN); ("UpdateCollectionPause", PLATFORM_ADMIN);
   ("CreateInstance", PLATFORM_ADMIN); ("UpdateInstance", ALERT_ADMIN); ("UpdateInstanceCredential", PLATFORM_ADMIN);
   ("DeleteInstance", PLATFORM_ADMIN); ("GetCurrentUser", READONLY); ("ChangeOwnPassword", READONLY);
   ("ListUsers", READONLY); ("CreateUser", PLATFORM_ADMIN); ("ResetUserPassword", PLATFORM_ADMIN);
   ("UpdateUserRole", PLATFORM_ADMIN); ("UpdateUserStatus", PLATFORM_ADMIN)].

(** [RequiredRoles[operationID]] *)
Definition required_role (operationID : string) : option string :=
  snd <$> (snd <$> list_find (fun entry => entry.1 = operationID) RequiredRoles).

Definition roleRank (role : string) : Z :=
  if bool_decide (role = READONLY) then 1 else if bool_decide (role = ALERT_ADMIN) then 2
  else if bool_decide (role = PLATFORM_ADMIN) then 3 else 0.

(** The routes of the generated server: method and operation. *)
Definition operations : list (string * string) :=
  [("POST", "ReportAgentMetrics"); ("GET", "DownloadAgentBinary"); ("GET", "GetAlertDetail");
   ("GET", "GetAlertDisposition"); ("PUT", "UpdateAlertDisposition"); ("GET", "ListAlertEvents");
   ("GET", "ListAlertNotifications"); ("GET", "GetAlertTriggerSnapshot"); ("GET", "ListAlertRuleTemplates");
   ("POST", "CreateAlertRuleFromTemplate"); ("GET", "ListAlertRules"); ("POST", "CreateAlertRule");
   ("DELETE", "DeleteAlertRule"); ("GET", "GetAlertRule"); ("PUT", "UpdateAlertRule"); ("POST", "CopyAlertRule");
   ("PUT", "UpdateAlertRuleEnabled"); ("GET", "ListCurrentAlerts"); ("GET", "ListAlertHistory");
   ("GET", "GetCertificateDiagnostics"); ("GET", "GetDiskDiagnostics"); ("GET", "GetPlatformHealth");
   ("GET", "GetKeyringDiagnostics"); ("GET", "GetPartitionDiagnostics"); ("GET", "GetPlatformDiagnostics");
   ("GET", "GetSchedulerDiagnostics"); ("GET", "ListInstances"); ("POST", "CreateInstance");
   ("GET", "GetInstancesMetricSeries"); ("DELETE", "DeleteInstance"); ("GET", "GetInstance"); ("PUT", "UpdateInstance");
   ("POST", "DisableAgent"); ("GET", "GetAgentRegistration"); ("POST", "RegisterAgent"); ("POST", "RevokeAgentToken");
   ("POST", "RotateAgentToken"); ("GET", "ListCapabilitySnapshot"); ("GET", "GetCollectionPause");
   ("PUT", "UpdateCollectionPause"); ("GET", "ListCollectionTaskStates"); ("PUT", "UpdateCollectionTaskInterval");
   ("PUT", "UpdateInstanceCredential"); ("GET", "ListLongQuerySamples"); ("GET", "GetMetricSeries");
   ("GET", "ListPerformanceEvents"); ("GET", "GetQueryStatisticsSnapshot"); ("GET", "GetSessionSnapshot");
   ("POST", "CreateSession"); ("POST", "DeleteSession"); ("GET", "ListMaintenanceWindows");
   ("POST", "CreateMaintenanceWindow"); ("DELETE", "DeleteMaintenanceWindow"); ("PUT", "UpdateMaintenanceWindow");
   ("POST", "EndMaintenanceWindow"); ("GET", "GetCurrentUser"); ("GET", "GetMetricCatalog");
   ("GET", "GetChannelFailures"); ("GET", "GetSMTPChannel"); ("PUT", "UpdateSMTPChannel"); ("POST", "TestSMTPChannel");
   ("GET", "ListWebhookTargets"); ("POST", "CreateWebhookTarget"); ("DELETE", "DeleteWebhookTarget");
   ("PUT", "UpdateWebhookTarget"); ("POST", "TestWebhookTarget"); ("GET", "ListNotificationContactGroups");
   ("POST", "CreateNotificationContactGroup"); ("DELETE", "DeleteNotificationContactGroup");
   ("PUT", "UpdateNotificationContactGroup"); ("GET", "ListNotificationContacts");
   ("POST", "CreateNotificationContact"); ("DELETE", "DeleteNotificationContact"); ("PUT", "UpdateNotificationContact");
   ("GET", "ListNotificationPolicies"); ("POST", "CreateNotificationPolicy"); ("DELETE", "DeleteNotificationPolicy");
   ("PUT", "UpdateNotificationPolicy"); ("GET", "GetNotificationPolicySettings"); ("GET", "GetFleetOverview");
   ("PUT", "ChangeOwnPassword"); ("GET", "GetPerformanceEvent"); ("GET", "ListPlatformEvents"); ("GET", "ListTopSql");
   ("GET", "ListUsers"); ("POST", "CreateUser"); ("POST", "ResetUserPassword"); ("PUT", "UpdateUserRole");
   ("PUT", "UpdateUserStatus")].

Definition validRole (role : string) : bool := bool_decide (role ∈ roles).

(** * Requests *)

(** What the middleware reads of a request: [mime.ParseMediaType] of its content type,
    the [Authorization] header, the session cookie, and the instance of the body of an
    agent report. *)
Record http_request : Type := MkRequest {
  rq_MediaType : option string;
  rq_Authorization : string;
  rq_Cookie : option string;
  rq_ReportInstance : option string;
}.

(** The values the middleware puts into the context. *)
Inductive context : Type :=
  | Anonymous
  | AgentContext (instanceID : string)
  | UserContext (userID sessionHash : string).

(** What the middleware answers, or that the operation was called. *)
Inductive outcome (R : Type) : Type :=
  | Status415
  | Status400 (e : APIError)
  | Status401
  | Status401Body (e : APIError)
  | Status403
  | Passed (r : R).
Arguments Status415 {R}.
Arguments Status400 {R} e.
Arguments Status401 {R}.
Arguments Status401Body {R} e.
Arguments Status403 {R}.
Arguments Passed {R} r.

Record SessionConfig : Type := MkSessionConfig {
  AbsoluteTTL : Duration;
  IdleTTL : Duration;
}.

Definition bearer : string := "Bearer ".

Definition bearerToken (header : string) : string :=
  if bool_decide (String.length header <= String.length bearer)%nat || negb (HasPrefix header bearer) then EmptyString
  else TrimPrefix header bearer.

Definition unauthorizedLogin : APIError := errorBody "UNAUTHENTICATED" "invalid credentials".
Definition unauthorizedAgent : APIError := errorBody "UNAUTHENTICATED" "invalid agent token".
Definition badAgentRequest (message : string) : APIError := errorBody "VALIDATION_FAILED" message.

(** [errors.As(err, &credentialFault)]: the code of a credential fault inside. *)
Fixpoint credential_fault (e : error) : option string :=
  match e with
  | ErrCode code => Some code
  | Errorf _ inner => credential_fault inner
  | _ => None
  end.

Section Auth.
(** [sha256.Sum256], and [bcrypt] with the salt it draws. *)
Context (Sum256 : string -> string).
Context (GenerateFromPassword : string -> string -> result string) (CompareHashAndPassword : string -> string -> bool).

(** * The middleware *)

(** The operation, and what becomes of a credential fault it returns. *)
Definition watch_fault {R} (now : Time) (m : DB AuthTables R) : DB AuthTables R := fun fs t =>
  match m fs t with
  | (Err e, t', fs') =>
      (Err e, match credential_fault e with Some code => with_health (Some (now, code)) t' | None => t' end, fs')
  | ok => ok
  end.

Definition call {R} (m : DB AuthTables R) : DB AuthTables (outcome R) := r ← m; mret (Passed r).

Definition authenticate_agent {R} (rq : http_request) (next : context -> DB AuthTables R) : DB AuthTables (outcome R) :=
  match rq_ReportInstance rq with
  | None => mret (Status400 (badAgentRequest "report body is required"))
  | Some instanceID =>
      let token := bearerToken (rq_Authorization rq) in
      stored ← attempt (GetAgentTokenHash instanceID);
      match stored with
      | Err _ => mret (Status401Body unauthorizedAgent)
      | Ok stored =>
          if bool_decide (token = EmptyString) || negb (bool_decide (stored = Sum256 token))
          then mret (Status401Body unauthorizedAgent)
          else call (next (AgentContext instanceID))
      end
  end.

Definition authenticate_download {R} (rq : http_request) (next : context -> DB AuthTables R) : DB AuthTables (outcome R) :=
  let token := bearerToken (rq_Authorization rq) in
  if bool_decide (token = EmptyString) then mret (Status401Body unauthorizedAgent)
  else
    instanceID ← attempt (GetInstanceIDByAgentTokenHash (Sum256 token));
    match instanceID with
    | Err _ => mret (Status401Body unauthorizedAgent)
    | Ok instanceID => call (next (AgentContext instanceID))
    end.

Definition authenticate_user {R} (config : SessionConfig) (now : Time) (operationID : string) (rq : http_request)
    (next : context -> DB AuthTables R) : DB AuthTables (outcome R) :=
  match rq_Cookie rq with
  | None => mret Status401
  | Some cookie =>
      let hash := Sum256 cookie in
      user ← attempt (AuthenticateSession hash now (TimeAdd now (- IdleTTL config)));
      match user with
      | Err _ => mret Status401
      | Ok (userID, role) =>
          match required_role operationID with
          | None => mret Status403
          | Some required =>
              if roleRank role <? roleRank required then mret Status403
              else call (watch_fault now (next (UserContext userID hash)))
          end
      end
  end.

Definition authenticate {R} (config : SessionConfig) (now : Time) (operationID : string) (rq : http_request)
    (next : context -> DB AuthTables R) : DB AuthTables (outcome R) :=
  if (bool_decide (operationID = "CreateSession") || bool_decide (operationID = "DeleteSession")) &&
     negb (bool_decide (rq_MediaType rq = Some "application/json"))
  then mret Status415
  else if bool_decide (operationID = "CreateSession") then call (next Anonymous)
  else if bool_decide (operationID = "ReportAgentMetrics") then authenticate_agent rq next
  else if bool_decide (operationID = "DownloadAgentBinary") then authenticate_download rq next
  else authenticate_user config now operationID rq next.

(** * Sessions *)

Definition errInvalidLogin : error := ErrNew "invalid login".

Inductive login_response : Type :=
  | LoggedIn (token : string) (expiresAt : Time)
  | LoginRefused (e : APIError).

Definition login_tx (username password tokenHash : string) (now expiresAt : Time) : DB AuthTables unit :=
  user ← attempt (GetUserForLogin username);
  match user with
  | Err e => fail (if is_no_rows e then errInvalidLogin else e)
  | Ok (userID, row) =>
      if negb (CompareHashAndPassword (usr_PasswordHash row) password) then fail errInvalidLogin
      else
        AuthQueries.CreateSession tokenHash userID expiresAt now ;;
        RecordEvent (MkEvent "LOGIN_SUCCEEDED" now (Some userID) EmptyString None)
  end.

(** [body] is the user name and the password; [token] what [newToken] draws. *)
Definition CreateSession (config : SessionConfig) (now : Time) (token : result string) (body : option (string * string))
    : DB AuthTables login_response :=
  match body with
  | None => mret (LoginRefused unauthorizedLogin)
  | Some (username, password) =>
      token ← lift_result token;
      let expiresAt := TimeAdd now (AbsoluteTTL config) in
      r ← attempt (InTx (login_tx username password (Sum256 token) now expiresAt));
      match r with
      | Ok _ => mret (LoggedIn token expiresAt)
      | Err e =>
          if bool_decide (e = errInvalidLogin) then
            let actorSubject := if bool_decide (TrimSpace username = EmptyString) then "<empty username>" else username in
            RecordEvent (MkEvent "LOGIN_FAILED" now None actorSubject None) ;;
            mret (LoginRefused unauthorizedLogin)
          else fail e
      end
  end.

(** The cookie is cleared with the session of the request. *)
Definition DeleteSession (sessionHash : string) : DB AuthTables (response unit) :=
  AuthQueries.DeleteSession sessionHash ;; mret R204.

(** * Users *)

Definition errLastPlatformAdmin : error := ErrNew "at least one enabled platform administrator is required".
Definition errSelfDisable : error := ErrNew "you cannot disable your own account".
Definition errSelfDowngrade : error := ErrNew "you cannot downgrade your own role".
Definition errUserNotFound : error := ErrNew "user not found".
Definition errInvalidOwnPassword : error := ErrNew "old password is incorrect".

(** [err.Error()] of an [errors.New]. *)
Definition error_text (e : error) : string := match e with ErrNew message => message | _ => EmptyString end.

Record APIUser : Type := MkAPIUser {
  au_Id : string;
  au_Username : string;
  au_Role : string;
  au_Enabled : bool;
  au_CreatedAt : Time;
}.

Definition toAPIUser (entry : string * UserRow) : APIUser :=
  MkAPIUser entry.1 (usr_Username entry.2) (usr_Role entry.2) (usr_Enabled entry.2) (usr_CreatedAt entry.2).

Definition GetCurrentUser (actorID : string) : DB AuthTables (response APIUser) :=
  row ← AuthQueries.GetCurrentUser actorID; mret (R200 (toAPIUser row)).

Definition ListUsers : DB AuthTables (response (list APIUser)) :=
  rows ← AuthQueries.ListUsers; mret (R200 (toAPIUser <$> rows)).

(** [generatedPassword]: [random] is the hexadecimal text it draws. *)
Definition generatedPassword (random : result string) (salt : string) : result (string * string) :=
  password ← random; hash ← GenerateFromPassword salt password; Ok (password, hash).

(** [body] is the user name and the role. *)
Definition CreateUser (now serverNow : Time) (actorID newUserID : string) (random : result string) (salt : string)
    (body : option (string * string)) : DB AuthTables (response (APIUser * string)) :=
  let invalid := R400 (errorBody "VALIDATION_FAILED" "valid username and role are required") in
  match body with
  | None => mret invalid
  | Some (username, role) =>
      if bool_decide (TrimSpace username = EmptyString) || negb (validRole role) then mret invalid
      else
        '(password, hash) ← lift_result (generatedPassword random salt);
        r ← attempt (InTx (
          row ← AuthQueries.CreateUser newUserID username hash role actorID serverNow;
          RecordEvent (MkEvent "USER_CREATED" now (Some actorID) EmptyString (Some newUserID)) ;;
          mret row));
        match r with
        | Ok row => mret (R201 (toAPIUser row, password))
        | Err e =>
            if bool_decide (e = ErrPg "23505") then mret (R409 (errorBody "CONFLICT" "username already exists")) else fail e
        end
  end.

(** Why the state of a user is not changed. *)
Definition enabled_refusal (actorID targetID : string) (target : UserRow) (newEnabled : bool) (enabledAdminIDs : list string)
    : option error :=
  if negb newEnabled && bool_decide (actorID = targetID) then Some errSelfDisable
  else if (negb newEnabled && usr_Enabled target && bool_decide (usr_Role target = PLATFORM_ADMIN)) &&
          bool_decide (length enabledAdminIDs <= 1)%nat
  then Some errLastPlatformAdmin else None.

Definition set_enabled_tx (now : Time) (actorID targetID : string) (newEnabled : bool) : DB AuthTables unit :=
  enabledAdminIDs ← LockEnabledPlatformAdmins;
  target ← attempt (GetUserForUpdate targetID);
  match target with
  | Err e => fail (if is_no_rows e then errUserNotFound else e)
  | Ok (id, target) =>
      match enabled_refusal actorID targetID target newEnabled enabledAdminIDs with
      | Some e => fail e
      | None =>
          SetUserEnabled id newEnabled actorID now ;;
          (if newEnabled then mret tt else DeleteUserSessions id) ;;
          RecordEvent (MkEvent "USER_STATUS_CHANGED" now (Some actorID) EmptyString (Some targetID))
      end
  end.

Definition setUserEnabled (now : Time) (actorID targetID : string) (newEnabled : bool) : DB AuthTables unit :=
  InTx (set_enabled_tx now actorID targetID newEnabled).

Definition role_refusal (actorID targetID : string) (target : UserRow) (newRole : string) (enabledAdminIDs : list string)
    : option error :=
  let downgradesPlatformAdmin := bool_decide (usr_Role target = PLATFORM_ADMIN) && negb (bool_decide (newRole = PLATFORM_ADMIN)) in
  if bool_decide (actorID = targetID) && downgradesPlatformAdmin then Some errSelfDowngrade
  else if usr_Enabled target && downgradesPlatformAdmin && bool_decide (length enabledAdminIDs <= 1)%nat
  then Some errLastPlatformAdmin else None.

Definition setUserRole (now : Time) (actorID targetID newRole : string) : DB AuthTables unit :=
  InTx (
    enabledAdminIDs ← LockEnabledPlatformAdmins;
    target ← attempt (GetUserForUpdate targetID);
    match target with
    | Err e => fail (if is_no_rows e then errUserNotFound else e)
    | Ok (id, target) =>
        match role_refusal actorID targetID target newRole enabledAdminIDs with
        | Some e => fail e
        | None =>
            SetUserRole id newRole actorID now ;;
            RecordEvent (MkEvent "USER_ROLE_CHANGED" now (Some actorID) EmptyString (Some targetID))
        end
    end).

Definition UpdateUserStatus (now : Time) (actorID id : string) (body : option bool) : DB AuthTables (response APIUser) :=
  match body with
  | None => fail (ErrNew "user status body is required")
  | Some enabled =>
      r ← attempt (setUserEnabled now actorID id enabled);
      match r with
      | Ok _ => row ← AuthQueries.GetCurrentUser id; mret (R200 (toAPIUser row))
      | Err e =>
          if bool_decide (e = errSelfDisable) || bool_decide (e = errLastPlatformAdmin) then
            RecordEvent (MkEvent "USER_STATUS_CHANGE_REJECTED" now (Some actorID) EmptyString (Some id)) ;;
            mret (R400 (errorBody "VALIDATION_FAILED" (error_text e)))
          else if bool_decide (e = errUserNotFound) then mret (R404 (errorBody "NOT_FOUND" (error_text e)))
          else fail e
      end
  end.

Definition UpdateUserRole (now : Time) (actorID id : string) (body : option string) : DB AuthTables (response APIUser) :=
  let invalid := R400 (errorBody "VALIDATION_FAILED" "valid role is required") in
  match body with
  | None => mret invalid
  | Some role =>
      if negb (validRole role) then mret invalid
      else
        r ← attempt (setUserRole now actorID id role);
        match r with
        | Ok _ => row ← AuthQueries.GetCurrentUser id; mret (R200 (toAPIUser row))
        | Err e =>
            if bool_decide (e = errSelfDowngrade) || bool_decide (e = errLastPlatformAdmin)
            then mret (R400 (errorBody "VALIDATION_FAILED" (error_text e)))
            else if bool_decide (e = errUserNotFound) then mret (R404 (errorBody "NOT_FOUND" (error_text e)))
            else fail e
        end
  end.

Definition ResetUserPassword (now : Time) (actorID id : string) (random : result string) (salt : string)
    : DB AuthTables (response string) :=
  if bool_decide (actorID = id)
  then mret (R400 (errorBody "VALIDATION_FAILED" "use change password to update your own password"))
  else
    '(password, hash) ← lift_result (generatedPassword random salt);
    r ← attempt (InTx (
      updated ← SetUserPassword id hash;
      if updated =? 0 then fail errUserNotFound
      else
        DeleteUserSessions id ;;
        RecordEvent (MkEvent "USER_PASSWORD_RESET" now (Some actorID) EmptyString (Some id))));
    match r with
    | Ok _ => mret (R200 password)
    | Err e => if bool_decide (e = errUserNotFound) then mret (R404 (errorBody "NOT_FOUND" (error_text e))) else fail e
    end.

(** [utf8.RuneCountInString] of valid UTF-8: the bytes that do not continue a character. *)
Fixpoint rune_count (s : string) : Z :=
  match s with
  | EmptyString => 0
  | String c rest => (if (128 <=? char_code c) && (char_code c <? 192) then 0 else 1) + rune_count rest
  end.

(** [body] is the new password and the old one. *)
Definition ChangeOwnPassword (actorID sessionHash salt : string) (body : option (string * string)) : DB AuthTables (response unit) :=
  let invalid := R400 (errorBody "VALIDATION_FAILED" "new password must be at least 12 characters") in
  match body with
  | None => mret invalid
  | Some (newPassword, oldPassword) =>
      if rune_count newPassword <? 12 then mret invalid
      else
        hash ← lift_result (GenerateFromPassword salt newPassword);
        r ← attempt (InTx (
          oldHash ← attempt (GetUserPassword actorID);
          match oldHash with
          | Err _ => fail errInvalidOwnPassword
          | Ok oldHash =>
              if negb (CompareHashAndPassword oldHash oldPassword) then fail errInvalidOwnPassword
              else SetUserPassword actorID hash ;; DeleteOtherUserSessions actorID sessionHash
          end));
        match r with
        | Ok _ => mret R204
        | Err e =>
            if bool_decide (e = errInvalidOwnPassword)
            then mret (R400 (errorBody "VALIDATION_FAILED" "old password is incorrect")) else fail e
        end
  end.

(** The first administrator, seeded by the server. *)
Definition SeedAdmin (serverNow : Time) (newID username password salt : string) : DB AuthTables unit :=
  hash ← lift_result (GenerateFromPassword salt password);
  CreateAdmin newID username hash serverNow.

End Auth.
