(* ===== verification/AuthInv.v ===== *)
(** What authentication and user management promise. *)

From S2P Require Import Prelude Db Text Responses AuthQueries Auth.

(** * Who may call an operation *)

Section Authorised.
Context (Sum256 : string -> string) (config : SessionConfig) (now : Time).

(** The context an operation may be called with. *)
Definition authorised (operationID : string) (rq : http_request) (t : AuthTables) (ctx : context) : Prop :=
  match ctx with
  | Anonymous => operationID = "CreateSession" /\ rq_MediaType rq = Some "application/json"
  | AgentContext instanceID =>
      bearerToken (rq_Authorization rq) <> EmptyString /\
      (exists c, au_agent t !! instanceID = Some c /\ ac_Expected c = true /\ ac_RevokedAt c = None /\
         ac_TokenHash c = Some (Sum256 (bearerToken (rq_Authorization rq)))) /\
      (operationID = "ReportAgentMetrics" /\ rq_ReportInstance rq = Some instanceID \/ operationID = "DownloadAgentBinary")
  | UserContext userID hash =>
      (operationID ∉ ["CreateSession"; "ReportAgentMetrics"; "DownloadAgentBinary"]) /\
      (operationID = "DeleteSession" -> rq_MediaType rq = Some "application/json") /\
      (exists cookie session user required,
        rq_Cookie rq = Some cookie /\ hash = Sum256 cookie /\
        au_session t !! hash = Some session /\ ses_UserID session = userID /\ au_user t !! userID = Some user /\
        timestamptz now < ses_ExpiresAt session /\ timestamptz (now - IdleTTL config) < ses_LastSeenAt session /\
        usr_Enabled user = true /\ required_role operationID = Some required /\ roleRank required <= roleRank (usr_Role user))
  end.

Lemma session_user_Some t hash at_ cutoff id user :
  session_user t hash at_ cutoff = Some (id, user) <->
  exists session, au_session t !! hash = Some session /\ ses_UserID session = id /\ au_user t !! id = Some user /\
    at_ < ses_ExpiresAt session /\ cutoff < ses_LastSeenAt session /\ usr_Enabled user = true.
Proof.
  unfold session_user. split.
  - destruct (au_session t !! hash) as [session|]; [|done]. simpl.
    destruct (au_user t !! ses_UserID session) as [u|] eqn:Hu; [|done]. simpl.
    destruct (Z.ltb_spec at_ (ses_ExpiresAt session)); [|done]. destruct (Z.ltb_spec cutoff (ses_LastSeenAt session)); [|done]. simpl.
    destruct (usr_Enabled u) eqn:He; [|done]. intros [= <- <-]. eauto 10.
  - intros (session & Hs & <- & Hu & H1%Z.ltb_lt & H2%Z.ltb_lt & He). rewrite Hs. simpl. rewrite Hu. simpl.
    by rewrite H1, H2, He.
Qed.

Lemma agent_hash_Some c hash :
  agent_hash c = Some hash <-> ac_Expected c = true /\ ac_RevokedAt c = None /\ ac_TokenHash c = Some hash.
Proof. unfold agent_hash. destruct (ac_Expected c); [|naive_solver]. case_bool_decide; naive_solver. Qed.

(** The session of the caller has been seen now, and nothing else has changed. *)
Definition only_seen (t t1 : AuthTables) (ctx : option context) : Prop :=
  match ctx with
  | Some (UserContext _ hash) => t1 = with_sessions (alter (touch (timestamptz now)) hash (au_session t)) t
  | Some _ => t1 = t
  | None => t1 = t \/ exists hash, t1 = with_sessions (alter (touch (timestamptz now)) hash (au_session t)) t
  end.

(** The operation ran from [t1] and this is the end of it; only a credential fault is
    noted on top. *)
Definition ran {R} (m : DB AuthTables R) (fs1 : list fate) (t1 : AuthTables) (r : result (outcome R)) (t' : AuthTables)
    (fs' : list fate) : Prop :=
  match m fs1 t1 with
  | (Ok a, t2, fs2) => r = Ok (Passed a) /\ t' = t2 /\ fs' = fs2
  | (Err e, t2, fs2) => r = Err e /\ (t' = t2 \/ exists h, t' = with_health h t2) /\ fs' = fs2
  end.

Definition refused {R} (r : result (outcome R)) : Prop :=
  exists o, r = Ok o /\ match o with Passed _ => False | _ => True end.

(** The two ends of the middleware. *)
Definition guarded {R} (operationID : string) (rq : http_request) (t : AuthTables) (next : context -> DB AuthTables R)
    (r : result (outcome R)) (t' : AuthTables) (fs' : list fate) : Prop :=
  (refused r /\ only_seen t t' None) \/
  (exists ctx fs1 t1, authorised operationID rq t ctx /\ only_seen t t1 (Some ctx) /\ ran (next ctx) fs1 t1 r t' fs').

Lemma call_ran {R} (m : DB AuthTables R) fs t r t' fs' : call m fs t = (r, t', fs') -> ran m fs t r t' fs'.
Proof.
  unfold call, ran, mbind, DB_bind, mret, DB_ret. destruct (m fs t) as [[[a|e] t2] fs2]; intros [= <- <- <-]; auto.
Qed.

Lemma call_watch_ran {R} (m : DB AuthTables R) fs t r t' fs' : call (watch_fault now m) fs t = (r, t', fs') -> ran m fs t r t' fs'.
Proof.
  unfold call, ran, watch_fault, mbind, DB_bind, mret, DB_ret. destruct (m fs t) as [[[a|e] t2] fs2]; intros [= <- <- <-]; auto.
  split_and!; auto. destruct (credential_fault e); eauto.
Qed.

(** A read whose error is swallowed. *)
Lemma attempt_statement {A} (effect : AuthTables -> result (A * AuthTables)) fs t :
  match (attempt (statement effect) fs t).1 with
  | (Ok (Ok a), t1) => effect t = Ok (a, t1)
  | (Ok (Err _), t1) => t1 = t \/ exists a, effect t = Ok (a, t1)
  | (Err _, _) => False
  end.
Proof.
  unfold attempt, statement. destruct (next_fate fs) as [[|e|e] fs1]; try destruct (effect t) as [[a t1]|e'] eqn:E; simpl; eauto.
Qed.

Lemma refusal {R} operationID rq t (next : context -> DB AuthTables R) o fs' :
  match o with Passed _ => False | _ => True end -> guarded operationID rq t next (Ok o) t fs'.
Proof. intros H. left. split; [by exists o|by left]. Qed.

Lemma agent_guarded {R} rq t (next : context -> DB AuthTables R) fs r t' fs' :
  authenticate_agent Sum256 rq next fs t = (r, t', fs') -> guarded "ReportAgentMetrics" rq t next r t' fs'.
Proof.
  unfold authenticate_agent. destruct (rq_ReportInstance rq) as [i|] eqn:Hi.
  2: { unfold mret, DB_ret. intros [= <- <- <-]. by apply refusal. }
  unfold mbind at 1, DB_bind at 1.
  pose proof (attempt_statement (fun t => match au_agent t !! i ≫= agent_hash with Some hash => Ok (hash, t) | None => Err ErrNoRows end) fs t) as Ha.
  unfold GetAgentTokenHash.
  destruct (attempt (statement _) fs t) as [[[[hash|e]|e] t1] fs2]; [| |done].
  - simpl in Ha. rename Ha into Heff. destruct (au_agent t !! i) as [c|] eqn:Hc; [|done]. simpl in Heff.
    destruct (agent_hash c) as [h|] eqn:Hh; [|done]. injection Heff as <- <-. apply agent_hash_Some in Hh as (He & Hr & Hh).
    case_bool_decide as Ht; [|case_bool_decide as Heq]; simpl;
      [unfold mret, DB_ret; intros [= <- <- <-]; by apply refusal| |unfold mret, DB_ret; intros [= <- <- <-]; by apply refusal].
    intros H%call_ran. right. exists (AgentContext i), fs2, t. split_and!; [|done|done].
    split_and!; [done| |by left]. exists c. by rewrite <-Heq.
  - rename Ha into Ht. simpl in Ht. unfold mret, DB_ret. intros [= <- <- <-].     assert (t1 = t) as ->; [|by apply refusal]. destruct Ht as [->|[a Heff]]; [done|]. destruct (_ ≫= _); congruence.
Qed.

Lemma download_guarded {R} rq t (next : context -> DB AuthTables R) fs r t' fs' :
  authenticate_download Sum256 rq next fs t = (r, t', fs') -> guarded "DownloadAgentBinary" rq t next r t' fs'.
Proof.
  unfold authenticate_download. case_bool_decide as Htok.
  { unfold mret, DB_ret. intros [= <- <- <-]. by apply refusal. }
  unfold mbind at 1, DB_bind at 1. set (token := bearerToken (rq_Authorization rq)) in *.
  pose proof (attempt_statement (fun t => match list_find (fun entry => agent_hash entry.2 = Some (Sum256 token)) (map_to_list (au_agent t)) with
    | Some (_, (id, _)) => Ok (id, t) | None => Err ErrNoRows end) fs t) as Ha. unfold GetInstanceIDByAgentTokenHash.
  destruct (attempt (statement _) fs t) as [[[[id|e]|e] t1] fs2]; [| |done].
  - simpl in Ha. rename Ha into Heff. destruct (list_find _ _) as [[k [id' c]]|] eqn:Hf; [|done]. injection Heff as <- <-.
    apply list_find_Some in Hf as (Hl & (He & Hr & Hh)%agent_hash_Some & _). simpl in *.
    apply list_elem_of_lookup_2, elem_of_map_to_list in Hl.
    intros H%call_ran. right. exists (AgentContext id'), fs2, t. split_and!; [|done|done]. split_and!; [done|eauto|by right].
  - rename Ha into Ht. simpl in Ht. unfold mret, DB_ret. intros [= <- <- <-].     assert (t1 = t) as ->; [|by apply refusal]. destruct Ht as [->|[a Heff]]; [done|]. destruct (list_find _ _) as [[? [? ?]]|]; congruence.
Qed.

Lemma user_guarded {R} operationID rq t (next : context -> DB AuthTables R) fs r t' fs' :
  operationID ∉ ["CreateSession"; "ReportAgentMetrics"; "DownloadAgentBinary"] ->
  (operationID = "DeleteSession" -> rq_MediaType rq = Some "application/json") ->
  authenticate_user Sum256 config now operationID rq next fs t = (r, t', fs') -> guarded operationID rq t next r t' fs'.
Proof.
  intros Hop Hjson. unfold authenticate_user. destruct (rq_Cookie rq) as [cookie|] eqn:Hcookie.
  2: { unfold mret, DB_ret. intros [= <- <- <-]. by apply refusal. }
  unfold mbind at 1, DB_bind at 1.
  pose proof (attempt_statement (fun t => match session_user t (Sum256 cookie) (timestamptz now) (timestamptz (TimeAdd now (- IdleTTL config))) with
    | Some (id, user) => Ok ((id, usr_Role user), with_sessions (alter (touch (timestamptz now)) (Sum256 cookie) (au_session t)) t)
    | None => Err ErrNoRows end) fs t) as Ha. unfold AuthenticateSession.
  destruct (attempt (statement _) fs t) as [[[[[id role]|e]|e] t1] fs2]; simpl in Ha; [| |done].
  - destruct (session_user t _ _ _) as [[id' user]|] eqn:Hs; [|done]. injection Ha as <- <- <-.
    apply session_user_Some in Hs as (session & Hs & Hid & Hu & Hexp & Hidle & He).
    assert (forall o : outcome R, match o with Passed _ => False | _ => True end ->
      guarded operationID rq t next (Ok o) (with_sessions (alter (touch (timestamptz now)) (Sum256 cookie) (au_session t)) t) fs2) as Hseen.
    { intros o Ho. left. split; [by exists o|right; eauto]. }
    destruct (required_role operationID) as [required|] eqn:Hreq.
    2: { unfold mret, DB_ret. intros [= <- <- <-]. by apply Hseen. }
    destruct (Z.ltb_spec (roleRank (usr_Role user)) (roleRank required)).
    { unfold mret, DB_ret. intros [= <- <- <-]. by apply Hseen. }
    intros H'%call_watch_ran. right. exists (UserContext id' (Sum256 cookie)), fs2. eexists. split; [|by split].
    split; [done|]. split; [done|]. exists cookie, session, user, required. unfold TimeAdd in *. split_and!; done || lia.
  - unfold mret, DB_ret. intros [= <- <- <-]. left. split; [by eexists|]. destruct Ha as [->|[a Heff]]; [by left|].
    destruct (session_user t _ _ _) as [[? ?]|]; [|done]. injection Heff as _ <-. right. eauto.
Qed.

Lemma authenticate_guarded {R} operationID rq t (next : context -> DB AuthTables R) fs r t' fs' :
  authenticate Sum256 config now operationID rq next fs t = (r, t', fs') -> guarded operationID rq t next r t' fs'.
Proof.
  unfold authenticate. case_bool_decide as H1; simpl.
  { subst. case_bool_decide as Hj; simpl; [|unfold mret, DB_ret; intros [= <- <- <-]; by apply refusal].
    intros H%call_ran. right. by exists Anonymous, fs, t. }
  case_bool_decide as H2; simpl.
  - case_bool_decide as Hj; simpl; [|unfold mret, DB_ret; intros [= <- <- <-]; by apply refusal]. subst operationID. simpl.
    apply user_guarded; [set_solver|done].
  - case_bool_decide; [subst; apply agent_guarded|]. case_bool_decide; [subst; apply download_guarded|].
    apply user_guarded; [set_solver|done].
Qed.

(** On a server without faults whoever is authorised is let through. *)
Lemma authorised_runs {R} operationID rq t (next : context -> DB AuthTables R) ctx :
  authorised operationID rq t ctx ->
  exists ctx' m, authenticate Sum256 config now operationID rq next [] t = call m [] (match ctx' with
    | UserContext _ hash => with_sessions (alter (touch (timestamptz now)) hash (au_session t)) t | _ => t end) /\
    authorised operationID rq t ctx' /\ (m = next ctx' \/ m = watch_fault now (next ctx')).
Proof.
  intros Hctx. destruct ctx as [|i|u h].
  - destruct Hctx as [-> Hj]. exists Anonymous, (next Anonymous). split; [|split; [done|by left]].
    unfold authenticate. simpl. by rewrite Hj.
  - destruct Hctx as (Htok & (c & Hc & He & Hr & Hh) & [[-> Hi]| ->]).
    + exists (AgentContext i), (next (AgentContext i)). split; [|split; [|by left]].
      * unfold authenticate. simpl. unfold authenticate_agent. rewrite Hi. unfold mbind at 1, DB_bind at 1, attempt, GetAgentTokenHash, statement. simpl.
        rewrite Hc. simpl. rewrite (proj2 (agent_hash_Some c _) (conj He (conj Hr Hh))). by rewrite bool_decide_false, bool_decide_true.
      * split; [done|]. split; [eauto|by left].
    + unfold authenticate. simpl. unfold authenticate_download. rewrite bool_decide_false by done.
      unfold mbind at 1, DB_bind at 1, attempt, GetInstanceIDByAgentTokenHash, statement. simpl.
      destruct (list_find _ _) as [[k [id' c']]|] eqn:Hf.
      * exists (AgentContext id'), (next (AgentContext id')). split; [done|]. split; [|by left].
        apply list_find_Some in Hf as (Hl & (He' & Hr' & Hh')%agent_hash_Some & _). apply list_elem_of_lookup_2, elem_of_map_to_list in Hl.
        split; [done|]. split; [eauto|by right].
      * exfalso. apply list_find_None in Hf. rewrite Forall_forall in Hf. apply (Hf (i, c)); [by apply elem_of_map_to_list|].
        by apply agent_hash_Some.
  - pose proof Hctx as (Hop & Hj & cookie & session & user & required & Hcookie & -> & Hs & Hid & Hu & Hexp & Hidle & He & Hreq & Hrank).
    exists (UserContext u (Sum256 cookie)), (watch_fault now (next (UserContext u (Sum256 cookie)))).
    split; [|split; [done|by right]]. unfold authenticate.
    rewrite (bool_decide_false (operationID = "CreateSession")) by set_solver. simpl.
    rewrite (bool_decide_false (operationID = "ReportAgentMetrics")) by set_solver.
    rewrite (bool_decide_false (operationID = "DownloadAgentBinary")) by set_solver.
    destruct (bool_decide (operationID = "DeleteSession") && _) eqn:Hm.
    { apply andb_true_iff in Hm as [Hd%bool_decide_eq_true Hm]. by rewrite Hj in Hm. }
    unfold authenticate_user. rewrite Hcookie. unfold mbind at 1, DB_bind at 1, attempt, AuthenticateSession, statement. simpl.
    rewrite (proj2 (session_user_Some t (Sum256 cookie) (timestamptz now) (timestamptz (TimeAdd now (- IdleTTL config))) u user)).
    + simpl. rewrite Hreq. destruct (Z.ltb_spec (roleRank (usr_Role user)) (roleRank required)); [lia|done].
    + exists session. unfold TimeAdd. replace (now + - IdleTTL config) with (now - IdleTTL config) by lia. done.
Qed.
End Authorised.

(** C8. The middleware calls an operation only for those who may: with no user for a
    login, as an agent that presents the token of an expected agent whose token is not
    revoked (for a report, of the reported instance itself), and as a user only under a
    session that is neither expired nor idle, of a user who is enabled and has at least
    the role the operation requires. Whoever is refused has changed nothing, except
    that his session was seen; and on a server without faults nobody who may is
    refused. *)
Theorem operations_are_guarded {R : Type} (Sum256 : string -> string) (config : SessionConfig) (now : Time) (operationID : string)
    (rq : http_request) (next : context -> DB AuthTables R) (fs : list fate) (t : AuthTables) :
  (let '(r, t', fs') := authenticate Sum256 config now operationID rq next fs t in
   (refused r /\ only_seen now t t' None) \/
   (exists ctx fs1 t1, authorised Sum256 config now operationID rq t ctx /\ only_seen now t t1 (Some ctx) /\
      ran (next ctx) fs1 t1 r t' fs')) /\
  (forall ctx, authorised Sum256 config now operationID rq t ctx ->
     ~ refused (authenticate Sum256 config now operationID rq next [] t).1.1).
Proof.
  split.
  - destruct (authenticate _ _ _ _ _ _ _ _) as [[r t'] fs'] eqn:H. by apply authenticate_guarded in H.
  - intros ctx Hctx. destruct (authorised_runs Sum256 config now operationID rq t next ctx Hctx) as (ctx' & m & -> & _).
    unfold call, mbind, DB_bind, mret, DB_ret. destruct (m _ _) as [[[a|e] t1] fs1]; intros (o & [= ] & Ho). by subst o.
Qed.

(** * Operations and their roles *)

(** Operations of platform administrators only. *)
Definition platform_operations : list string :=
  ["CreateUser"; "ResetUserPassword"; "UpdateUserRole"; "UpdateUserStatus"; "RegisterAgent"; "RotateAgentToken";
   "RevokeAgentToken"; "DisableAgent"; "CreateInstance"; "DeleteInstance"; "UpdateInstanceCredential";
   "UpdateCollectionPause"; "UpdateCollectionTaskInterval"].

(** Changes a user makes for himself, and those that are not made by users. *)
Definition own_operations : list string := ["DeleteSession"; "ChangeOwnPassword"].
Definition userless_operations : list string := ["CreateSession"; "ReportAgentMetrics"; "DownloadAgentBinary"].

Definition well_guarded (entry : string * string) : bool :=
  match required_role entry.2 with
  | None => false
  | Some role =>
      (bool_decide (entry.1 = "GET") || bool_decide (entry.2 ∈ own_operations ++ userless_operations) || (2 <=? roleRank role)) &&
      (negb (bool_decide (entry.2 ∈ platform_operations)) || (3 <=? roleRank role))
  end.

Lemma table_well_guarded : forallb well_guarded operations = true /\ bool_decide (NoDup operations.*2) = true.
Proof. split; vm_compute; reflexivity. Qed.

Lemma roleRank_high role : 2 <= roleRank role -> role <> READONLY.
Proof. intros H ->. by vm_compute in H. Qed.

Lemma roleRank_top role : 3 <= roleRank role -> role = PLATFORM_ADMIN.
Proof. unfold roleRank. repeat case_bool_decide; subst; done || lia. Qed.

(** Every route of the server has a required role, and no operation is routed
    twice; and whoever has only the role to read can call, of the operations that are
    not a GET, nothing but the end of his own session and the change of his own
    password. Every other one needs an alert administrator, and the management of
    users, agents, credentials, collection and the set of instances a platform
    administrator. *)
Theorem changes_need_an_administrator (Sum256 : string -> string) (config : SessionConfig) (now : Time)
    (method operationID userID hash : string) (rq : http_request) (t : AuthTables) :
  (method, operationID) ∈ operations ->
  is_Some (required_role operationID) /\ NoDup operations.*2 /\
  (authorised Sum256 config now operationID rq t (UserContext userID hash) ->
   exists user, au_user t !! userID = Some user /\ usr_Enabled user = true /\
     (method <> "GET" -> operationID ∉ own_operations -> usr_Role user <> READONLY) /\
     (operationID ∈ platform_operations -> usr_Role user = PLATFORM_ADMIN)).
Proof.
  intros Hin. destruct table_well_guarded as [Hall Hnd%bool_decide_eq_true].
  pose proof (proj1 (forallb_forall _ _) Hall (method, operationID) (proj1 (list_elem_of_In _ _) Hin)) as Hg.
  unfold well_guarded in Hg. cbn [fst snd] in Hg. destruct (required_role operationID) as [required|] eqn:Hreq; [|done].
  split; [eauto|]. split; [done|].
  intros (Hop & _ & cookie & session & user & required' & _ & _ & _ & _ & Hu & _ & _ & He & Hreq' & Hrank).
  assert (required' = required) as -> by congruence. exists user. split; [done|]. split; [done|].
  apply andb_true_iff in Hg as [Hg1 Hg2]. clear Hin Hall Hnd. split.
  - intros Hm Hown. apply roleRank_high. rewrite !orb_true_iff, !bool_decide_eq_true, elem_of_app in Hg1.
    destruct Hg1 as [[?|[?|?]]|?%Z.leb_le]; [contradiction|contradiction|contradiction|lia].
  - intros Hp. apply roleRank_top. rewrite orb_true_iff, negb_true_iff, bool_decide_eq_false in Hg2.
    destruct Hg2 as [?|?%Z.leb_le]; [contradiction|lia].
Qed.

Lemma changes_need_an_administrator_witness :
  is_Some (required_role "CreateMaintenanceWindow") /\ NoDup operations.*2.
Proof.
  destruct (changes_need_an_administrator (fun s => s) (MkSessionConfig 0 0) 0 "POST" "CreateMaintenanceWindow" EmptyString EmptyString
    (MkRequest None EmptyString None None) (MkAuthTables ∅ ∅ [] ∅ None)) as (H1 & H2 & _); [|by split].
  apply (bool_decide_unpack _). vm_compute. exact I.
Defined.

Module AuthDemo.
Definition tables : AuthTables :=
  MkAuthTables {["u1" := new_user "root" "hash" PLATFORM_ADMIN None 0]}
    {["t" := MkSessionRow "u1" (24 * Hour) 0 0]} [] {["i1" := MkAgentCredential true (Some "agent") None]} None.
Definition config : SessionConfig := MkSessionConfig (24 * Hour) (30 * Minute).
Definition request : http_request := MkRequest None EmptyString (Some "t") None.
Definition report : http_request := MkRequest None "Bearer agent" None (Some "i1").
End AuthDemo.

Example agent_reports :
  (authenticate (fun s => s) AuthDemo.config Second "ReportAgentMetrics" AuthDemo.report (fun ctx => mret ctx) [] AuthDemo.tables).1.1 =
  Ok (Passed (AgentContext "i1")).
Proof. reflexivity. Qed.

Lemma operations_are_guarded_witness :
  ~ refused (authenticate (fun s => s) AuthDemo.config Second "CreateUser" AuthDemo.request (fun ctx => mret ctx) [] AuthDemo.tables).1.1.
Proof.
  apply (proj2 (operations_are_guarded (fun s => s) AuthDemo.config Second "CreateUser" AuthDemo.request (fun ctx => mret ctx) [] AuthDemo.tables)
           (UserContext "u1" "t")).
  split; [apply (bool_decide_unpack _); vm_compute; exact I|]. split; [done|].
  exists "t", (MkSessionRow "u1" (24 * Hour) 0 0), (new_user "root" "hash" PLATFORM_ADMIN None 0), PLATFORM_ADMIN.
  split_and!; reflexivity || (vm_compute; congruence).
Defined.
