(* ===== verification/UsersInv.v ===== *)
(** The invariant of users and sessions, the record of changes to users, and what
    changes of credentials do to sessions. *)

From S2P Require Import Prelude Db Text Responses AuthQueries Auth AuthInv.

(** * The invariant *)

Record users_inv (t : AuthTables) : Prop := MkUsersInv {
  inv_admin : exists id u, au_user t !! id = Some u /\ enabled_admin u = true;
  inv_roles : forall id u, au_user t !! id = Some u -> usr_Role u ∈ roles;
  inv_names : forall id id' u u', au_user t !! id = Some u -> au_user t !! id' = Some u' -> usr_Username u = usr_Username u' -> id = id';
  inv_sessions : forall hash s, au_session t !! hash = Some s -> exists u, au_user t !! ses_UserID s = Some u /\ usr_Enabled u = true;
}.

(** What counts of a user: his role and whether he is enabled. *)
Definition standing (t : AuthTables) (id : string) : option (string * bool) :=
  (fun u => (usr_Role u, usr_Enabled u)) <$> au_user t !! id.

(** An event that accounts for a change of a user's standing. *)
Definition accounts_for (id : string) (e : PlatformEventRow) : Prop :=
  pe_Kind e ∈ ["USER_CREATED"; "USER_STATUS_CHANGED"; "USER_ROLE_CHANGED"] /\ is_Some (pe_ActorID e) /\ pe_SubjectID e = Some id.

(** The seeded administrator. *)
Definition seeded_user (t : AuthTables) (id : string) : Prop := exists u, au_user t !! id = Some u /\ usr_CreatedBy u = None.

(** Since [t0] no user has gone, no event has gone, and each standing that is no longer
    the same is that of a seeded user or accounted for. *)
Record recorded (t0 t : AuthTables) : Prop := MkRecorded {
  rec_users : forall id, is_Some (au_user t0 !! id) -> is_Some (au_user t !! id);
  rec_events : au_event t0 `prefix_of` au_event t;
  rec_changes : forall id, standing t id <> standing t0 id ->
    (standing t0 id = None /\ seeded_user t id) \/ Exists (accounts_for id) (drop (length (au_event t0)) (au_event t));
}.

Definition kept_users (t0 t : AuthTables) : Prop := users_inv t /\ recorded t0 t.

Lemma recorded_refl t : recorded t t.
Proof. split; [done|done|]. intros id H. done. Qed.

Lemma drop_more {A} (l0 l l' : list A) : l0 `prefix_of` l -> drop (length l0) (l ++ l') = drop (length l0) l ++ l'.
Proof. intros [k ->]. rewrite <-app_assoc, !drop_app_length. done. Qed.

Lemma recorded_more_events t0 t l : recorded t0 t -> recorded t0 (with_events (au_event t ++ l) t).
Proof.
  intros [Hu He Hc]. split; simpl; [done|by apply prefix_app_r|]. intros id Hs. rewrite drop_more by done.
  destruct (Hc id Hs) as [?|?]; [by left|right]. apply Exists_app. by left.
Qed.

Lemma kept_more_events t0 t l : kept_users t0 t -> kept_users t0 (with_events (au_event t ++ l) t).
Proof. intros [[Ha Hr Hn Hs] Hrec]. split; [by split|by apply recorded_more_events]. Qed.

Lemma kept_fewer_sessions t0 t m :
  (forall hash s, m !! hash = Some s -> exists s', au_session t !! hash = Some s' /\ ses_UserID s' = ses_UserID s) ->
  kept_users t0 t -> kept_users t0 (with_sessions m t).
Proof.
  intros Hm [[Ha Hr Hn Hs] [Hu He Hc]]. split; [|by split]. split; try done. simpl.
  intros hash s H. destruct (Hm hash s H) as (s' & H' & <-). by eapply Hs.
Qed.

(** A user's row is written, with the event that accounts for it. *)
Lemma kept_write t0 t id u m e :
  kept_users t0 t ->
  usr_Role u ∈ roles ->
  (forall id' u', au_user t !! id' = Some u' -> usr_Username u' = usr_Username u -> id' = id) ->
  (exists id' u', <[id := u]> (au_user t) !! id' = Some u' /\ enabled_admin u' = true) ->
  (forall hash s, m !! hash = Some s -> au_session t !! hash = Some s /\ (ses_UserID s = id -> usr_Enabled u = true)) ->
  accounts_for id e ->
  kept_users t0 (MkAuthTables (<[id := u]> (au_user t)) m (au_event t ++ [e]) (au_agent t) (au_health t)).
Proof.
  intros [[Ha Hr Hn Hs] [Hu He Hc]] Hrole Hname Hadmin Hm Hacc. split.
  - split; simpl; [done| | |].
    + intros id' u'. rewrite lookup_insert_Some. intros [[_ <-]|[_ H]]; [done|by eapply Hr].
    + intros id1 id2 u1 u2. rewrite !lookup_insert_Some. intros [[<- <-]|[H1 H1']] [[<- <-]|[H2 H2']] Hnm; try done; eauto.
      symmetry. eauto.
    + intros hash s H. destruct (Hm hash s H) as [Hs' Hen]. destruct (Hs hash s Hs') as (u' & Hu' & He').
      destruct (decide (ses_UserID s = id)) as [Heq|Hne].
      * exists u. rewrite Heq, lookup_insert_eq. auto.
      * exists u'. by rewrite lookup_insert_ne.
  - split; simpl.
    + intros id' H%Hu. destruct (decide (id' = id)) as [->|]; [rewrite lookup_insert_eq; eauto|by rewrite lookup_insert_ne].
    + by apply prefix_app_r.
    + intros id' Hst. rewrite drop_more by done. destruct (decide (id' = id)) as [->|Hne].
      * right. apply Exists_app. right. by constructor.
      * unfold standing, seeded_user in *. simpl in *. rewrite lookup_insert_ne in * by done. 
        destruct (Hc id' Hst) as [?|?]; [by left|right]. apply Exists_app. by left.
Qed.

(** * Statements *)

Definition event_row (e : Event) : PlatformEventRow :=
  MkPlatformEventRow (evt_Kind e) (timestamptz (evt_OccurredAt e)) (evt_ActorID e)
    (if bool_decide (evt_ActorSubject e = EmptyString) then None else Some (evt_ActorSubject e)) (evt_SubjectID e).

Lemma record_event_appends e t1 :
  triple (fun t => t = t1) (RecordEvent e) (fun _ t => t = with_events (au_event t1 ++ [event_row e]) t1)
    (fun t => t = t1 \/ t = with_events (au_event t1 ++ [event_row e]) t1).
Proof.
  unfold RecordEvent. cbv zeta. destruct (negb (knownKind _)); [apply triple_fail; auto|].
  destruct (eqb _ _); [apply triple_fail; auto|]. destruct (IsZero _); [apply triple_fail; auto|].
  eapply triple_weaken; [apply (triple_eq_statement _ t1)|auto| |]; unfold event_row.
  - intros [] t Heff. cbv zeta in Heff. repeat case_match; try done; congruence.
  - intros t [->|[[] Heff]]; [by left|]. right. cbv zeta in Heff. repeat case_match; try done; congruence.
Qed.

(** * Requests *)

Class KeepsUsers {A} (m : DB AuthTables A) : Prop :=
  keeps_users : forall t0, triple (kept_users t0) m (fun _ => kept_users t0) (kept_users t0).

#[export] Instance ret_users {A} (a : A) : KeepsUsers (mret a : DB AuthTables A).
Proof. intros t0. by apply triple_ret. Qed.
#[export] Instance fail_users {A} (e : error) : KeepsUsers (fail e : DB AuthTables A).
Proof. intros t0. by apply triple_fail. Qed.
#[export] Instance bind_users {A B} (m : DB AuthTables A) (k : A -> DB AuthTables B) :
  KeepsUsers m -> (forall a, KeepsUsers (k a)) -> KeepsUsers (m ≫= k).
Proof. intros Hm Hk t0. eapply triple_bind; [apply Hm|]. intros a. apply Hk. Qed.
#[export] Instance attempt_users {A} (m : DB AuthTables A) : KeepsUsers m -> KeepsUsers (attempt m).
Proof. intros Hm t0. eapply triple_attempt; [apply Hm|]. auto. Qed.
#[export] Instance lift_users {A} (r : result A) : KeepsUsers (lift_result r : DB AuthTables A).
Proof. destruct r; apply _. Qed.
#[export] Instance reads_users {A} (m : DB AuthTables A) : Keeps (fun t => t) m -> KeepsUsers m.
Proof.
  intros Hm t0 fs t Ht. specialize (Hm fs t). unfold tables_after in Hm.
  by destruct (m fs t) as [[[a|e] t'] fs']; simpl in *; subst.
Qed.
#[export] Instance record_event_users e : KeepsUsers (RecordEvent e).
Proof.
  intros t0. apply triple_at. intros t1 Ht1. eapply triple_weaken; [apply (record_event_appends e t1)|auto| |].
  - intros _ t ->. by apply kept_more_events.
  - intros t [-> | ->]; [done|by apply kept_more_events].
Qed.

#[export] Instance current_user_reads id : Keeps (fun t => t) (AuthQueries.GetCurrentUser id).
Proof. apply statement_keeps. unfold user_row. intros t a t' H. destruct (au_user t !! id); simpl in H; congruence. Qed.
#[export] Instance user_for_update_reads id : Keeps (fun t => t) (GetUserForUpdate id).
Proof. apply statement_keeps. unfold user_row. intros t a t' H. destruct (au_user t !! id); simpl in H; congruence. Qed.
#[export] Instance user_for_login_reads username : Keeps (fun t => t) (GetUserForLogin username).
Proof. apply statement_keeps. intros t a t' H. destruct (list_find _ _) as [[? ?]|]; congruence. Qed.
#[export] Instance user_password_reads id : Keeps (fun t => t) (GetUserPassword id).
Proof. apply statement_keeps. intros t a t' H. repeat case_match; congruence. Qed.
#[export] Instance lock_admins_reads : Keeps (fun t => t) LockEnabledPlatformAdmins.
Proof. apply _. Qed.

#[export] Hint Extern 1 (KeepsUsers (if ?b then _ else _)) => destruct b : typeclass_instances.
#[export] Hint Extern 1 (KeepsUsers (match ?o with _ => _ end)) => destruct o : typeclass_instances.

(** ** Transactions, from one state of the tables *)

Lemma tx_users {A} (body : DB AuthTables A) :
  (forall t0 t1, kept_users t0 t1 -> triple (fun t => t = t1) body (fun _ => kept_users t0) (fun _ => True)) -> KeepsUsers (InTx body).
Proof. intros H t0. apply triple_InTx; [|done]. apply triple_at. intros t1 Ht1. by apply H. Qed.

Lemma last_event e t1 (Q : unit -> AuthTables -> Prop) :
  Q tt (with_events (au_event t1 ++ [event_row e]) t1) -> triple (fun t => t = t1) (RecordEvent e) Q (fun _ => True).
Proof.
  intros H. eapply triple_weaken; [apply (record_event_appends e t1)|auto| |auto]. intros [] t ->. done.
Qed.

Lemma step_delete_sessions {B} userID (k : unit -> DB AuthTables B) t1 Q :
  triple (fun t => t = with_sessions (filter (fun entry => ses_UserID entry.2 <> userID) (au_session t1)) t1) (k tt) Q (fun _ => True) ->
  triple (fun t => t = t1) (DeleteUserSessions userID ≫= k) Q (fun _ => True).
Proof. intros H. apply step_statement. intros [] t2 [= <-]. done. Qed.

(** ** Sessions *)

Lemma kept_new_session t0 t hash s u :
  kept_users t0 t -> au_user t !! ses_UserID s = Some u -> usr_Enabled u = true ->
  kept_users t0 (with_sessions (<[hash := s]> (au_session t)) t).
Proof.
  intros [[Ha Hr Hn Hs] [Hu He Hc]] Huser Hen. split; [|by split]. split; try done. simpl.
  intros h s'. rewrite lookup_insert_Some. intros [[_ <-]|[_ H]]; [eauto|by eapply Hs].
Qed.

Section Requests.
Context (Sum256 : string -> string).
Context (GenerateFromPassword : string -> string -> result string) (CompareHashAndPassword : string -> string -> bool).

Lemma login_tx_users username password hash now expiresAt t0 t1 :
  kept_users t0 t1 ->
  triple (fun t => t = t1) (login_tx CompareHashAndPassword username password hash now expiresAt) (fun _ => kept_users t0) (fun _ => True).
Proof.
  intros Hk. apply step_attempt; [|intros e t2; by apply triple_fail]. intros [id u] t2 Heff.
  destruct (list_find _ _) as [[k entry]|] eqn:Hf; [|done]. injection Heff as -> <-.
  apply list_find_Some in Hf as (Hl & (Hname & Hen) & _). apply list_elem_of_lookup_2, elem_of_map_to_list in Hl. simpl in *.
  destruct (negb _); [by apply triple_fail|].
  apply step_statement. intros [] t2 Heff. case_bool_decide; [done|]. case_bool_decide; [done|]. injection Heff as <-.
  apply last_event. change (au_event t1) with (au_event (with_sessions (<[hash := MkSessionRow id (timestamptz expiresAt) (timestamptz now) (timestamptz now)]>
    (au_session t1)) t1)). apply kept_more_events. by eapply kept_new_session.
Qed.

#[export] Instance login_users config now token body : KeepsUsers (CreateSession Sum256 CompareHashAndPassword config now token body).
Proof.
  unfold CreateSession. destruct body as [[username password]|]; [|apply _].
  apply bind_users; [apply _|]. intros tok. apply bind_users; [|intros [|e]; apply _].
  apply attempt_users, tx_users. intros. by apply login_tx_users.
Qed.

#[export] Instance logout_users hash : KeepsUsers (DeleteSession hash).
Proof.
  apply bind_users; [|intros; apply _]. intros t0. apply triple_exec; [done|]. intros t. apply kept_fewer_sessions.
  intros h s [_ H]%lookup_delete_Some. eauto.
Qed.

(** ** Users *)

(** A new user keeps the administrators there are. *)
Lemma admin_with_new t id u :
  users_inv t -> au_user t !! id = None -> exists id' u', <[id := u]> (au_user t) !! id' = Some u' /\ enabled_admin u' = true.
Proof.
  intros [(id' & u' & H & Ha) _ _ _] Hnew. exists id', u'. rewrite lookup_insert_ne; [done|]. intros ->. congruence.
Qed.

Lemma username_free t username id u :
  username_taken t username = false -> au_user t !! id = Some u -> usr_Username u <> username.
Proof.
  unfold username_taken. rewrite bool_decide_eq_false, Exists_exists. intros H Hu Hn. apply H. exists (id, u).
  by rewrite elem_of_map_to_list.
Qed.

#[export] Instance create_user_users now serverNow actorID newID random salt body :
  KeepsUsers (CreateUser GenerateFromPassword now serverNow actorID newID random salt body).
Proof.
  unfold CreateUser. destruct body as [[username role]|]; [|apply _]. destruct (_ || _); [apply _|].
  apply bind_users; [apply _|]. intros [password hash]. apply bind_users; [|intros [[id row]|e]; apply _].
  apply attempt_users, tx_users. intros t0 t1 Hk. apply step_statement. intros [id row] t2 Heff. cbv zeta in Heff.
  case_bool_decide as Hrole; [|done]. simpl in Heff. case_bool_decide as Hid; [done|]. simpl in Heff. apply eq_None_not_Some in Hid.
  destruct (username_taken t1 username) eqn:Hfree; [done|]. case_bool_decide as Hactor; [done|]. injection Heff as <- <- <-.
  apply (triple_bind _ _ _ (fun _ => kept_users t0)); [|intros []; by apply triple_ret]. apply last_event.
  change (with_events _ _) with (MkAuthTables (<[newID := new_user username hash role (Some actorID) serverNow]> (au_user t1)) (au_session t1)
    (au_event t1 ++ [event_row (MkEvent "USER_CREATED" now (Some actorID) EmptyString (Some newID))]) (au_agent t1) (au_health t1)).
  apply kept_write; [done|done| |by apply admin_with_new; [apply Hk|]| |].
  - intros id' u' Hu' Hn. by destruct (username_free t1 username id' u').
  - intros h s Hs. split; [done|]. done.
  - split; [set_solver|]. split; [by eexists|done].
Qed.

(** The enabled administrators of the tables, each once. *)
Lemma elem_of_admin_ids users id : id ∈ admin_ids users <-> exists u, users !! id = Some u /\ enabled_admin u = true.
Proof.
  unfold admin_ids. rewrite elem_of_sort_by, list_elem_of_fmap. split.
  - intros ([id' u] & -> & [Ha Hu%elem_of_map_to_list]%list_elem_of_filter). eauto.
  - intros (u & Hu & Ha). exists (id, u). rewrite list_elem_of_filter, elem_of_map_to_list. done.
Qed.

Lemma NoDup_admin_ids users : NoDup (admin_ids users).
Proof.
  unfold admin_ids. rewrite sort_by_perm. apply NoDup_fmap_fst.
  - intros id u u' [_ H1%elem_of_map_to_list]%list_elem_of_filter [_ H2%elem_of_map_to_list]%list_elem_of_filter. congruence.
  - apply NoDup_filter, NoDup_map_to_list.
Qed.

(** A list without duplicates that has two elements has one that is not [x]. *)
Lemma NoDup_other (l : list string) x : NoDup l -> ~ (length l <= 1)%nat -> exists y, y ∈ l /\ y <> x.
Proof.
  intros Hnd Hlen. destruct l as [|a [|b l]]; simpl in Hlen; [lia..|]. apply NoDup_cons in Hnd as [Ha _].
  destruct (decide (a = x)) as [->|Hne]; [|exists a; split; [left|done]]. exists b. split; [right; left|]. intros ->. apply Ha. left.
Qed.

(** With two of them, one is not [id]. *)
Lemma other_admin t id :
  ~ (length (enabled_admins t) <= 1)%nat -> exists id' u, id' <> id /\ au_user t !! id' = Some u /\ enabled_admin u = true.
Proof.
  intros Hlen. destruct (NoDup_other _ id (NoDup_admin_ids (au_user t)) Hlen) as (a & (u & Hu & Ha)%elem_of_admin_ids & Hne). eauto.
Qed.

(** An administrator remains when a user's row changes that either stays one, or was
    none, or was not the only one. *)
Lemma admin_remains t id u u' :
  users_inv t -> au_user t !! id = Some u ->
  (enabled_admin u = true -> enabled_admin u' = false -> ~ (length (enabled_admins t) <= 1)%nat) ->
  exists id' u'', <[id := u']> (au_user t) !! id' = Some u'' /\ enabled_admin u'' = true.
Proof.
  intros [(a & ua & Hua & Ha) _ _ _] Hu Hkeep. destruct (decide (a = id)) as [->|Hne].
  - assert (ua = u) as -> by congruence. destruct (enabled_admin u') eqn:Hu'.
    + exists id, u'. by rewrite lookup_insert_eq.
    + destruct (other_admin t id (Hkeep Ha eq_refl)) as (b & ub & Hb & Hub & He). exists b, ub. by rewrite lookup_insert_ne.
  - exists a, ua. by rewrite lookup_insert_ne.
Qed.

(** What the transaction of [setUserEnabled] commits. *)
Definition enabled_written (now : Time) (actorID targetID : string) (newEnabled : bool) (t1 t : AuthTables) : Prop :=
  exists u, au_user t1 !! targetID = Some u /\ enabled_refusal actorID targetID u newEnabled (enabled_admins t1) = None /\
    t = MkAuthTables (<[targetID := set_enabled newEnabled actorID (timestamptz now) u]> (au_user t1))
          (if newEnabled then au_session t1 else filter (fun entry => ses_UserID entry.2 <> targetID) (au_session t1))
          (au_event t1 ++ [event_row (MkEvent "USER_STATUS_CHANGED" now (Some actorID) EmptyString (Some targetID))]) (au_agent t1) (au_health t1).

Lemma set_enabled_tx_writes now actorID targetID newEnabled t1 :
  triple (fun t => t = t1) (set_enabled_tx now actorID targetID newEnabled)
    (fun _ => enabled_written now actorID targetID newEnabled t1) (fun _ => True).
Proof.
  apply step_statement. intros admins t2 [= <- <-].
  apply step_attempt; [|intros e t2; by apply triple_fail]. intros [id u] t2. unfold user_row.
  destruct (au_user t1 !! targetID) as [u1|] eqn:Hu; [|done]. simpl. intros [= <- <- <-].
  destruct (enabled_refusal _ _ _ _ _) eqn:Href; [by apply triple_fail|].
  apply step_statement. intros [id' row'] t2. rewrite Hu. destruct (au_user t1 !! actorID); [|done]. cbv zeta. intros [= <- <- <-].
  destruct newEnabled.
  - unfold mret at 1, DB_ret at 1. apply last_event. by exists u1.
  - apply step_delete_sessions. apply last_event. by exists u1.
Qed.

#[export] Instance set_enabled_users now actorID targetID newEnabled : KeepsUsers (setUserEnabled now actorID targetID newEnabled).
Proof.
  apply tx_users. intros t0 t1 Hk. eapply triple_weaken; [apply (set_enabled_tx_writes now actorID targetID newEnabled t1)|auto| |auto].
  intros _ t (u1 & Hu & Href & ->). apply kept_write; [done| | | | |].
  - destruct Hk as [[_ Hr _ _] _]. exact (Hr _ _ Hu).
  - intros id' u' Hu' Hn. destruct Hk as [[_ _ Hnm _] _]. by eapply (Hnm id' targetID).
  - apply admin_remains with u1; [apply Hk|done|]. unfold enabled_admin. intros [He Hr]%andb_true_iff Hn. simpl in Hn.
    rewrite Hr, andb_true_r in Hn. unfold enabled_refusal in Href. rewrite Hn, He, Hr in Href. simpl in Href.
    destruct (bool_decide (actorID = targetID)); [done|]. simpl in Href.
    by destruct (bool_decide_reflect (length (enabled_admins t1) <= 1)%nat).
  - intros h s Hs. simpl. destruct newEnabled; [done|]. apply map_lookup_filter_Some in Hs as [Hs Hne]. split; [done|]. simpl in Hne. done.
  - split; [set_solver|]. split; [by eexists|done].
Qed.

#[export] Instance set_role_users now actorID targetID newRole : KeepsUsers (setUserRole now actorID targetID newRole).
Proof.
  apply tx_users. intros t0 t1 Hk. apply step_statement. intros admins t2 [= <- <-].
  apply step_attempt; [|intros e t2; by apply triple_fail]. intros [id u] t2. unfold user_row.
  destruct (au_user t1 !! targetID) as [u1|] eqn:Hu; [|done]. simpl. intros [= <- <- <-].
  destruct (role_refusal _ _ _ _ _) eqn:Href; [by apply triple_fail|].
  apply step_statement. intros [id' row'] t2. rewrite Hu. case_bool_decide as Hrole; [|done]. simpl.
  destruct (au_user t1 !! actorID); [|done]. cbv zeta. intros [= <- <- <-]. apply last_event.
  change (with_events _ _) with (MkAuthTables (<[targetID := set_role newRole actorID (timestamptz now) u1]> (au_user t1)) (au_session t1)
    (au_event t1 ++ [event_row (MkEvent "USER_ROLE_CHANGED" now (Some actorID) EmptyString (Some targetID))]) (au_agent t1) (au_health t1)).
  apply kept_write; try done.
  - intros id' u' Hu' Hn. destruct Hk as [[_ _ Hnm _] _]. by eapply (Hnm id' targetID).
  - apply admin_remains with u1; [apply Hk|done|]. unfold enabled_admin. intros [He Hr]%andb_true_iff Hn. simpl in Hn.
    rewrite He in Hn. simpl in Hn. unfold role_refusal in Href. rewrite He, Hr, Hn in Href. simpl in Href.
    destruct (bool_decide (actorID = targetID)); [done|]. simpl in Href.
    by destruct (bool_decide_reflect (length (enabled_admins t1) <= 1)%nat).
  - intros h s Hs. split; [done|]. intros Heq. simpl. destruct Hk as [[_ _ _ Hse] _]. destruct (Hse h s Hs) as (us & Hus & Hen).
    rewrite Heq in Hus. congruence.
  - split; [set_solver|]. split; [by eexists|done].
Qed.

#[export] Instance update_status_users now actorID id body : KeepsUsers (UpdateUserStatus now actorID id body).
Proof. unfold UpdateUserStatus. destruct body; apply _. Qed.

#[export] Instance update_role_users now actorID id body : KeepsUsers (UpdateUserRole now actorID id body).
Proof. unfold UpdateUserRole. destruct body; apply _. Qed.

(** ** Passwords *)

Lemma kept_password t0 t id u hash :
  kept_users t0 t -> au_user t !! id = Some u -> kept_users t0 (with_users (<[id := set_password hash u]> (au_user t)) t).
Proof.
  intros [[(a & ua & Hua & Ha) Hr Hn Hs] [Hu He Hc]] Hid.
  assert (forall id', standing (with_users (<[id := set_password hash u]> (au_user t)) t) id' = standing t id') as Hst.
  { intros id'. unfold standing. simpl. destruct (decide (id' = id)) as [->|]; [by rewrite lookup_insert_eq, Hid|by rewrite lookup_insert_ne]. }
  assert (forall id' u', <[id := set_password hash u]> (au_user t) !! id' = Some u' ->
            exists u0, au_user t !! id' = Some u0 /\ usr_Username u0 = usr_Username u' /\ usr_Role u0 = usr_Role u') as Hback.
  { intros id' u'. rewrite lookup_insert_Some. intros [[<- <-]|[_ H]]; eauto. }
  assert (forall id' u0, au_user t !! id' = Some u0 ->
            exists u', <[id := set_password hash u]> (au_user t) !! id' = Some u' /\ usr_Enabled u' = usr_Enabled u0 /\
              usr_Role u' = usr_Role u0 /\ usr_CreatedBy u' = usr_CreatedBy u0) as Hforth.
  { intros id' u0 H0. destruct (decide (id' = id)) as [->|]; [rewrite lookup_insert_eq|rewrite lookup_insert_ne by done]; [|eauto].
    assert (u0 = u) as -> by congruence. eauto. }
  split; split; simpl.
  - destruct (Hforth a ua Hua) as (u' & Hu' & He' & Hr' & _). exists a, u'. split; [done|]. unfold enabled_admin in *. by rewrite He', Hr'.
  - intros id' u' (u0 & H0 & _ & <-)%Hback. by eapply Hr.
  - intros id1 id2 u1 u2 (v1 & H1 & <- & _)%Hback (v2 & H2 & <- & _)%Hback. by apply Hn.
  - intros h s' Hs'. destruct (Hs h s' Hs') as (u0 & H0 & Hen). destruct (Hforth _ _ H0) as (u' & Hu' & He' & _). exists u'. by rewrite He'.
  - intros id' H'%Hu. destruct H' as [u0 H0]. destruct (Hforth _ _ H0) as (u' & Hu' & _). eauto.
  - done.
  - intros id'. rewrite Hst. intros H'. destruct (Hc id' H') as [[H0 (u0 & Hu0 & Hb)]|?]; [left|by right]. split; [done|].
    destruct (Hforth _ _ Hu0) as (u' & Hu' & _ & _ & Hb'). exists u'. by rewrite Hb'.
Qed.

(** What a reset leaves behind. *)
Definition no_session (t : AuthTables) (id : string) : Prop := forall hash s, au_session t !! hash = Some s -> ses_UserID s <> id.

Definition has_password (t : AuthTables) (id hash : string) : Prop := exists u, au_user t !! id = Some u /\ usr_PasswordHash u = hash.

Lemma reset_tx now actorID id hash t1 :
  triple (fun t => t = t1)
    (updated ← SetUserPassword id hash;
     if updated =? 0 then fail errUserNotFound
     else DeleteUserSessions id ;; RecordEvent (MkEvent "USER_PASSWORD_RESET" now (Some actorID) EmptyString (Some id)))
    (fun _ t => (forall t0, kept_users t0 t1 -> kept_users t0 t) /\ no_session t id /\ has_password t id hash) (fun _ => True).
Proof.
  apply step_statement. intros n t2 Heff. destruct (au_user t1 !! id) as [u|] eqn:Hu; injection Heff as <- <-; [|by apply triple_fail].
  simpl. apply step_delete_sessions, last_event. split_and!.
  - intros t0 Hk. apply kept_more_events. apply kept_fewer_sessions; [|by apply kept_password]. simpl.
    intros h s [H _]%map_lookup_filter_Some. eauto.
  - intros h s [_ H]%map_lookup_filter_Some. done.
  - exists (set_password hash u). simpl. by rewrite lookup_insert_eq.
Qed.

#[export] Instance reset_users now actorID id random salt : KeepsUsers (ResetUserPassword GenerateFromPassword now actorID id random salt).
Proof.
  unfold ResetUserPassword. case_bool_decide; [apply _|]. apply bind_users; [apply _|]. intros [password hash].
  apply bind_users; [|intros [|]; apply _]. apply attempt_users, tx_users. intros t0 t1 Hk.
  eapply triple_weaken; [apply (reset_tx now actorID id hash t1)|auto| |auto]. intros _ t [Hx _]. auto.
Qed.

Definition own_session_only (t : AuthTables) (id hash : string) : Prop :=
  forall h s, au_session t !! h = Some s -> ses_UserID s = id -> h = hash.

Lemma change_tx actorID sessionHash hash oldPassword t1 :
  triple (fun t => t = t1)
    (oldHash ← attempt (GetUserPassword actorID);
     match oldHash with
     | Err _ => fail errInvalidOwnPassword
     | Ok oldHash =>
         if negb (CompareHashAndPassword oldHash oldPassword) then fail errInvalidOwnPassword
         else SetUserPassword actorID hash ;; DeleteOtherUserSessions actorID sessionHash
     end)
    (fun _ t => (forall t0, kept_users t0 t1 -> kept_users t0 t) /\ own_session_only t actorID sessionHash /\ has_password t actorID hash /\
       exists u, au_user t1 !! actorID = Some u /\ CompareHashAndPassword (usr_PasswordHash u) oldPassword = true) (fun _ => True).
Proof.
  apply step_attempt; [|intros; by apply triple_fail]. intros oldHash t2 Heff.
  destruct (au_user t1 !! actorID) as [u|] eqn:Hu; [|done]. destruct (usr_Enabled u); [|done]. injection Heff as <- <-.
  destruct (CompareHashAndPassword _ _) eqn:Hc; [|by apply triple_fail]. simpl.
  apply step_statement. intros n t2. rewrite Hu. intros [= <- <-].
  apply triple_statement; [done|]. intros t [] t' -> [= <-]. split; [|done]. split_and!.
  - intros t0 Hk. apply kept_fewer_sessions; [|by apply kept_password]. simpl. intros h s [H _]%map_lookup_filter_Some. eauto.
  - intros h s [_ H]%map_lookup_filter_Some Hid. simpl in H. destruct (decide (h = sessionHash)); [done|]. by destruct H.
  - exists (set_password hash u). simpl. by rewrite lookup_insert_eq.
  - eauto.
Qed.

#[export] Instance change_users actorID sessionHash salt body :
  KeepsUsers (ChangeOwnPassword GenerateFromPassword CompareHashAndPassword actorID sessionHash salt body).
Proof.
  unfold ChangeOwnPassword. destruct body as [[new old]|]; [|apply _]. destruct (_ <? _); [apply _|].
  apply bind_users; [apply _|]. intros hash. apply bind_users; [|intros [|]; apply _]. apply attempt_users, tx_users. intros t0 t1 Hk.
  eapply triple_weaken; [apply (change_tx actorID sessionHash hash old t1)|auto| |auto]. intros _ t [Hx _]. auto.
Qed.

(** ** The seed *)

#[export] Instance seed_users serverNow newID username password salt : KeepsUsers (SeedAdmin GenerateFromPassword serverNow newID username password salt).
Proof.
  unfold SeedAdmin. apply bind_users; [apply _|]. intros hash t0. apply triple_statement; [done|].
  intros t [] t' Hk Heff. destruct (username_taken t username) eqn:Hfree; [by injection Heff as <-|].
  case_bool_decide as Hid; [done|]. apply eq_None_not_Some in Hid. injection Heff as <-.
  assert (kept_users t0 (with_users (<[newID := new_user username hash PLATFORM_ADMIN None serverNow]> (au_user t)) t)) as H; [|done].
  destruct Hk as [Hinv [Hu He Hc]]. pose proof Hinv as [_ Hr Hn Hs]. split; split; simpl.
  - by apply admin_with_new.
  - intros id' u'. rewrite lookup_insert_Some. intros [[_ <-]|[_ H]]; [set_solver|by eapply Hr].
  - intros id1 id2 u1 u2. rewrite !lookup_insert_Some. intros [[<- <-]|[H1 H1']] [[<- <-]|[H2 H2']] Hnm; try done; [..|by eapply Hn].
    + by destruct (username_free t username id2 u2).
    + by destruct (username_free t username id1 u1).
  - intros h s Hsess. destruct (Hs h s Hsess) as (u & Hus & Hen). exists u. rewrite lookup_insert_ne; [done|]. congruence.
  - intros id' H'%Hu. destruct (decide (id' = newID)) as [->|]; [rewrite lookup_insert_eq; eauto|by rewrite lookup_insert_ne].
  - done.
  - intros id'. unfold standing, seeded_user in *. simpl. destruct (decide (id' = newID)) as [->|Hne].
    + rewrite lookup_insert_eq. intros _. left. split; [|eauto]. destruct (au_user t0 !! newID) eqn:E; [|done].
      destruct (Hu newID) as [? ?]; [eauto|congruence].
    + rewrite lookup_insert_ne by done. apply Hc.
Qed.

(** * Sequences of requests *)

(** The requests that concern users and sessions, with what they draw at random. *)
Inductive user_call : Type :=
  | CallLogin (token : result string) (body : option (string * string))
  | CallLogout (sessionHash : string)
  | CallSeen (sessionHash : string)
  | CallCreateUser (serverNow : Time) (actorID newID : string) (random : result string) (salt : string) (body : option (string * string))
  | CallStatus (actorID id : string) (body : option bool)
  | CallRole (actorID id : string) (body : option string)
  | CallReset (actorID id : string) (random : result string) (salt : string)
  | CallChange (actorID sessionHash salt : string) (body : option (string * string))
  | CallSeed (serverNow : Time) (newID username password salt : string).

Definition run_user_call (config : SessionConfig) (now : Time) (c : user_call) : DB AuthTables unit :=
  match c with
  | CallLogin token body => CreateSession Sum256 CompareHashAndPassword config now token body ;; mret tt
  | CallLogout hash => DeleteSession hash ;; mret tt
  | CallSeen hash => AuthenticateSession hash now (TimeAdd now (- IdleTTL config)) ;; mret tt
  | CallCreateUser serverNow actorID newID random salt body =>
      CreateUser GenerateFromPassword now serverNow actorID newID random salt body ;; mret tt
  | CallStatus actorID id body => UpdateUserStatus now actorID id body ;; mret tt
  | CallRole actorID id body => UpdateUserRole now actorID id body ;; mret tt
  | CallReset actorID id random salt => ResetUserPassword GenerateFromPassword now actorID id random salt ;; mret tt
  | CallChange actorID hash salt body => ChangeOwnPassword GenerateFromPassword CompareHashAndPassword actorID hash salt body ;; mret tt
  | CallSeed serverNow newID username password salt => SeedAdmin GenerateFromPassword serverNow newID username password salt
  end.

Inductive users_reached (config : SessionConfig) (t0 : AuthTables) : AuthTables -> Prop :=
  | users_start : users_reached config t0 t0
  | users_call now c fs t : users_reached config t0 t -> users_reached config t0 (tables_after (run_user_call config now c) fs t).

#[export] Instance seen_users hash now cutoff : KeepsUsers (AuthenticateSession hash now cutoff).
Proof.
  intros t0. apply triple_statement; [done|]. intros t [id role] t' Hk Heff. destruct (session_user _ _ _ _) as [[? ?]|]; [|done].
  injection Heff as <- <- <-. assert (kept_users t0 (with_sessions (alter (touch (timestamptz now)) hash (au_session t)) t)) as H'; [|done].
  apply kept_fewer_sessions; [|done]. intros h s1 H. destruct (decide (h = hash)) as [->|Hne].
  - rewrite lookup_alter_eq in H. destruct (au_session t !! hash) as [s0|]; [|done]. injection H as <-. by exists s0.
  - rewrite lookup_alter_ne in H by done. eauto.
Qed.

Lemma run_user_call_users config now c : KeepsUsers (run_user_call config now c).
Proof. destruct c; simpl; apply _. Qed.

Lemma users_reached_kept config t0 t : users_inv t0 -> users_reached config t0 t -> kept_users t0 t.
Proof.
  intros H0 H. induction H as [|now c fs t H IH]; [split; [done|apply recorded_refl]|].
  apply triple_tables; [apply run_user_call_users|done].
Qed.
End Requests.

(** C5. Whatever the requests that log in and out, create users, change their role,
    status and passwords, whatever faults the database has under them, and whatever
    the random values, hashes and seeds are: at least one platform administrator is
    always enabled, names stay unique, roles stay within the three, and no session
    belongs to a user who is disabled or gone. No user disappears, and no user gets
    another role or status, or comes to be, without an event of the same transaction
    that names the actor and the user; a seeded administrator is the only exception. *)
Theorem an_administrator_remains (Sum256 : string -> string) (GenerateFromPassword : string -> string -> result string)
    (CompareHashAndPassword : string -> string -> bool) (config : SessionConfig) (t0 t : AuthTables) :
  users_inv t0 -> users_reached Sum256 GenerateFromPassword CompareHashAndPassword config t0 t ->
  users_inv t /\ recorded t0 t.
Proof. apply users_reached_kept. Qed.

(** * Revocation *)

Lemma no_session_unauthorised Sum256 config now operationID rq t id hash :
  no_session t id -> ~ authorised Sum256 config now operationID rq t (UserContext id hash).
Proof. intros Hno (_ & _ & cookie & session & user & required & _ & _ & Hs & Hid & _). by eapply Hno. Qed.

(** C36. A change of credentials ends the sessions it must: once a password reset is
    answered, the user can use none of his earlier sessions, and the password stored is
    the one answered; once a user is answered to be disabled, he is, and none of his
    sessions lets him call anything; and once a user has changed his own password,
    having given the old one, of his sessions none but the one he did it under can remain. *)
Theorem credential_changes_end_sessions (Sum256 : string -> string) (GenerateFromPassword : string -> string -> result string)
    (CompareHashAndPassword : string -> string -> bool) (config : SessionConfig) (now : Time) (actorID id sessionHash salt : string)
    (random : result string) (newPassword oldPassword : string) (fs fs' : list fate) (t t' : AuthTables) :
  (forall password, ResetUserPassword GenerateFromPassword now actorID id random salt fs t = (Ok (R200 password), t', fs') ->
     (forall at_ operationID rq hash, ~ authorised Sum256 config at_ operationID rq t' (UserContext id hash)) /\
     exists hash, GenerateFromPassword salt password = Ok hash /\ has_password t' id hash) /\
  (forall answer, UpdateUserStatus now actorID id (Some false) fs t = (Ok (R200 answer), t', fs') ->
     (forall at_ operationID rq hash, ~ authorised Sum256 config at_ operationID rq t' (UserContext id hash)) /\
     exists u, au_user t' !! id = Some u /\ usr_Enabled u = false) /\
  (ChangeOwnPassword GenerateFromPassword CompareHashAndPassword actorID sessionHash salt (Some (newPassword, oldPassword)) fs t = (Ok R204, t', fs') ->
     (forall at_ operationID rq hash, authorised Sum256 config at_ operationID rq t' (UserContext actorID hash) -> hash = sessionHash) /\
     (exists hash, GenerateFromPassword salt newPassword = Ok hash /\ has_password t' actorID hash) /\
     exists u, au_user t !! actorID = Some u /\ CompareHashAndPassword (usr_PasswordHash u) oldPassword = true).
Proof.
  split_and!.
  - intros password H. unfold ResetUserPassword in H. case_bool_decide; [done|].
    destruct (generatedPassword GenerateFromPassword random salt) as [[p hash]|e] eqn:Hgen; [|done].
    unfold lift_result in H. unfold mbind at 1, DB_bind at 1, mret at 1, DB_ret at 1 in H.
    assert (p = password) as ->.
    { unfold mbind, DB_bind, attempt in H. destruct (InTx _ fs t) as [[[[]|e] t2] fs2]; unfold mret, DB_ret, fail in H; [congruence|].
      case_bool_decide; congruence. }
    destruct (attempt_tx _ _ _ _ _ _ _ _ H (reset_tx now actorID id hash t)) as (_ & _ & (_ & Hno & Hpw) & _); [intros a; apply _| |].
    + intros e fs1 t1 t2 fs2. case_bool_decide; unfold mret, DB_ret, fail; congruence.
    + split; [intros; by apply no_session_unauthorised|]. exists hash. split; [|done].
      unfold generatedPassword in Hgen. destruct random as [r|]; [|done]. simpl in Hgen.
      destruct (GenerateFromPassword salt r) eqn:Hg; [|done]. simpl in Hgen. congruence.
  - intros answer H. unfold UpdateUserStatus, setUserEnabled in H.
    destruct (attempt_tx _ _ _ _ _ _ _ _ H (set_enabled_tx_writes now actorID id false t)) as (_ & _ & (u & Hu & _ & ->) & _); [intros a; apply _| |].
    + intros e fs1 t1 t2 fs2 Hx. destruct (_ || _); [|repeat case_bool_decide; unfold mret, DB_ret, fail in Hx; congruence].
      unfold mbind, DB_bind in Hx. destruct (RecordEvent _ fs1 t1) as [[[u|e'] ?] ?]; unfold mret, DB_ret in Hx; congruence.
    + split; [|eexists; simpl; by rewrite lookup_insert_eq]. intros. apply no_session_unauthorised.
      intros h s [_ Hne]%map_lookup_filter_Some. done.
  - intros H. unfold ChangeOwnPassword in H. destruct (_ <? _); [done|].
    destruct (GenerateFromPassword salt newPassword) as [hash|e] eqn:Hgen; [|done].
    unfold lift_result in H. unfold mbind at 1, DB_bind at 1, mret at 1, DB_ret at 1 in H.
    destruct (attempt_tx _ _ _ _ _ _ _ _ H (change_tx CompareHashAndPassword actorID sessionHash hash oldPassword t))
      as (_ & _ & (_ & Hown & Hpw & Hold) & _); [intros a; apply _| |].
    + intros e fs1 t1 t2 fs2. case_bool_decide; unfold mret, DB_ret, fail; congruence.
    + split_and!; [|eauto|done]. intros at_ operationID rq h (_ & _ & cookie & s & u & req & _ & _ & Hs & Hid & _). by eapply Hown.
Qed.

(** * A run *)

Module UsersDemo.
Definition Sum256 (s : string) : string := "sha256:" +:+ s.
Definition Generate (salt password : string) : result string := Ok (salt +:+ ":" +:+ password).
Definition Compare (hash password : string) : bool := bool_decide (hash = "salt:" +:+ password).
Definition config : SessionConfig := MkSessionConfig (24 * Hour) (30 * Minute).
Definition start : AuthTables :=
  MkAuthTables {["u1" := new_user "root" "salt:rootpassword!" PLATFORM_ADMIN None 0]} ∅ [] ∅ None.

Definition run (t : AuthTables) (now : Time) (c : user_call) : AuthTables :=
  tables_after (run_user_call Sum256 Generate Compare config now c) [] t.

Definition created : AuthTables := run start Second (CallCreateUser Second "u1" "u2" (Ok "secret") "salt" (Some ("ops", READONLY))).
Definition logged_in : AuthTables := run created (2 * Second) (CallLogin (Ok "t") (Some ("ops", "secret"))).
Definition disabled : AuthTables := run logged_in (3 * Second) (CallStatus "u1" "u2" (Some false)).
Definition refused : AuthTables := run disabled (4 * Second) (CallStatus "u1" "u1" (Some false)).
End UsersDemo.

Example login_creates_session : (exists s, au_session UsersDemo.logged_in !! "sha256:t" = Some s /\ ses_UserID s = "u2").
Proof. eexists. split; reflexivity. Qed.

Example disabling_ends_session :
  au_session UsersDemo.disabled = ∅ /\ pe_Kind <$> au_event UsersDemo.refused =
    ["USER_CREATED"; "LOGIN_SUCCEEDED"; "USER_STATUS_CHANGED"; "USER_STATUS_CHANGE_REJECTED"].
Proof. split; vm_compute; reflexivity. Qed.

Lemma start_users_inv : users_inv UsersDemo.start.
Proof.
  split; simpl.
  - exists "u1". eexists. split; reflexivity.
  - intros id u [_ <-]%lookup_singleton_Some. simpl. set_solver.
  - intros id id' u u' [<- _]%lookup_singleton_Some [<- _]%lookup_singleton_Some. done.
  - intros h s. by rewrite lookup_empty.
Qed.

Lemma an_administrator_remains_witness : users_inv UsersDemo.refused /\ recorded UsersDemo.start UsersDemo.refused.
Proof.
  apply (an_administrator_remains UsersDemo.Sum256 UsersDemo.Generate UsersDemo.Compare UsersDemo.config); [apply start_users_inv|].
  do 4 apply users_call. apply users_start.
Defined.

Lemma credential_changes_end_sessions_witness :
  UsersDemo.disabled <> UsersDemo.logged_in /\
  ~ authorised UsersDemo.Sum256 UsersDemo.config (4 * Second) "ListAlertRules" (MkRequest None EmptyString (Some "t") None)
      UsersDemo.disabled (UserContext "u2" "sha256:t").
Proof.
  split.
  - intros H. apply (f_equal (fun t => au_event t)) in H. vm_compute in H. discriminate H.
  - destruct (credential_changes_end_sessions UsersDemo.Sum256 UsersDemo.Generate UsersDemo.Compare UsersDemo.config (3 * Second) "u1" "u2"
      EmptyString EmptyString (Ok EmptyString) EmptyString EmptyString [] [] UsersDemo.logged_in UsersDemo.disabled) as (_ & H & _).
    eapply H. vm_compute. reflexivity.
Defined.
