(* ===== verification/AdminLocks.v ===== *)
(** Changes of users that run at the same time. [setUserEnabled] and [setUserRole]
    ([internal/httpapi/users.go]) rely on row locks: [LockEnabledPlatformAdmins] locks
    the enabled administrators one row after the other, [GetUserForUpdate] the target,
    and the locks are held until the transaction ends. Here the transactions run
    interleaved, step by step, under READ COMMITTED: a step that needs a row locked by
    another transaction waits, a row is checked again in its committed version once it
    is locked, and what a transaction writes is seen when it commits. *)

From S2P Require Import Prelude AuthQueries Auth UsersInv.

(** * Transactions *)

Inductive change : Type :=
  | SetEnabled (newEnabled : bool)
  | SetRole (newRole : string).

Record change_request : Type := MkChangeRequest {
  cr_actor : string;
  cr_target : string;
  cr_change : change;
  cr_now : Time;
}.

(** The decision of the transaction, and the row it writes. *)
Definition refusal (q : change_request) (target : UserRow) (enabledAdminIDs : list string) : option error :=
  match cr_change q with
  | SetEnabled newEnabled => enabled_refusal (cr_actor q) (cr_target q) target newEnabled enabledAdminIDs
  | SetRole newRole => role_refusal (cr_actor q) (cr_target q) target newRole enabledAdminIDs
  end.

Definition changed_row (q : change_request) (target : UserRow) : UserRow :=
  match cr_change q with
  | SetEnabled newEnabled => set_enabled newEnabled (cr_actor q) (timestamptz (cr_now q)) target
  | SetRole newRole => set_role newRole (cr_actor q) (timestamptz (cr_now q)) target
  end.

(** Where a transaction is: locking the administrators of its snapshot ([todo] are
    left, [got] are locked and still administrators), done with them, or with its
    target locked and read. *)
Inductive phase : Type :=
  | Scanning (todo got : list string)
  | Scanned (got : list string)
  | Targeted (got : list string) (target : UserRow).

Definition got_of (p : phase) : list string :=
  match p with Scanning _ got => got | Scanned got => got | Targeted got _ => got end.

(** The committed users, who holds which row, and the open transactions. *)
Record lock_state : Type := MkLockState {
  lk_users : gmap string UserRow;
  lk_held : gmap string nat;
  lk_open : gmap nat (change_request * phase);
}.

Definition lockable (s : lock_state) (tx : nat) (id : string) : Prop := forall holder, lk_held s !! id = Some holder -> holder = tx.

Definition release (tx : nat) (held : gmap string nat) : gmap string nat := filter (fun entry => entry.2 <> tx) held.

Inductive lock_step : lock_state -> lock_state -> Prop :=
  | step_begin s tx q :
      lk_open s !! tx = None ->
      lock_step s (MkLockState (lk_users s) (lk_held s) (<[tx := (q, Scanning (admin_ids (lk_users s)) [])]> (lk_open s)))
  | step_lock_admin s tx q id todo got row :
      lk_open s !! tx = Some (q, Scanning (id :: todo) got) -> lockable s tx id -> lk_users s !! id = Some row ->
      lock_step s (MkLockState (lk_users s) (<[id := tx]> (lk_held s))
                     (<[tx := (q, Scanning todo (if enabled_admin row then got ++ [id] else got))]> (lk_open s)))
  | step_scanned s tx q got :
      lk_open s !! tx = Some (q, Scanning [] got) ->
      lock_step s (MkLockState (lk_users s) (lk_held s) (<[tx := (q, Scanned got)]> (lk_open s)))
  | step_target s tx q got row :
      lk_open s !! tx = Some (q, Scanned got) -> lockable s tx (cr_target q) -> lk_users s !! cr_target q = Some row ->
      lock_step s (MkLockState (lk_users s) (<[cr_target q := tx]> (lk_held s)) (<[tx := (q, Targeted got row)]> (lk_open s)))
  | step_commit s tx q got row :
      lk_open s !! tx = Some (q, Targeted got row) -> refusal q row got = None ->
      lock_step s (MkLockState (<[cr_target q := changed_row q row]> (lk_users s)) (release tx (lk_held s)) (delete tx (lk_open s)))
  | step_rollback s tx q p :
      lk_open s !! tx = Some (q, p) ->
      lock_step s (MkLockState (lk_users s) (release tx (lk_held s)) (delete tx (lk_open s)))
  | step_create s id row :
      lk_users s !! id = None ->
      lock_step s (MkLockState (<[id := row]> (lk_users s)) (lk_held s) (lk_open s))
  | step_password s id row hash :
      lk_users s !! id = Some row -> lk_held s !! id = None ->
      lock_step s (MkLockState (<[id := set_password hash row]> (lk_users s)) (lk_held s) (lk_open s)).

(** * The invariant *)

Definition some_admin (users : gmap string UserRow) : Prop := exists id u, users !! id = Some u /\ enabled_admin u = true.

(** What a transaction has seen is still so: the administrators it counts are the
    rows it holds, and still are administrators; its snapshot has each row once; its
    target is the row it read. *)
Record tx_ok (s : lock_state) (tx : nat) (q : change_request) (p : phase) : Prop := MkTxOk {
  tx_got : forall id, id ∈ got_of p -> lk_held s !! id = Some tx /\ exists u, lk_users s !! id = Some u /\ enabled_admin u = true;
  tx_once : NoDup (match p with Scanning todo got => got ++ todo | _ => got_of p end);
  tx_target : forall got row, p = Targeted got row -> lk_held s !! cr_target q = Some tx /\ lk_users s !! cr_target q = Some row;
}.

Record locks_inv (s : lock_state) : Prop := MkLocksInv {
  locks_admin : some_admin (lk_users s);
  locks_txs : forall tx q p, lk_open s !! tx = Some (q, p) -> tx_ok s tx q p;
}.

(** A transaction keeps what it has seen while no row it holds is changed or taken. *)
Lemma tx_ok_frame s s' tx q p :
  tx_ok s tx q p ->
  (forall id, lk_held s !! id = Some tx -> lk_held s' !! id = Some tx) ->
  (forall id u, lk_held s !! id = Some tx -> lk_users s !! id = Some u -> lk_users s' !! id = Some u) -> tx_ok s' tx q p.
Proof.
  intros [Hg Ho Ht] Hh Hu. split; [|done|].
  - intros id Hid. destruct (Hg id Hid) as (Hheld & u & Hu' & Ha). eauto 6.
  - intros got row Hp. destruct (Ht got row Hp). eauto.
Qed.

Lemma lock_keeps s tx id : lockable s tx id -> forall tx' id', tx' <> tx -> lk_held s !! id' = Some tx' -> <[id := tx]> (lk_held s) !! id' = Some tx'.
Proof. intros Hl tx' id' Hne H. rewrite lookup_insert_ne; [done|]. intros <-. by apply Hl in H. Qed.

Lemma release_keeps tx held tx' (id : string) : tx' <> tx -> held !! id = Some tx' -> release tx held !! id = Some tx'.
Proof. intros Hne H. by apply map_lookup_filter_Some. Qed.

(** A transaction that demotes an administrator it counted leaves another. *)
Lemma commit_leaves_admin q row got users :
  (forall id, id ∈ got -> exists u, users !! id = Some u /\ enabled_admin u = true) -> NoDup got ->
  users !! cr_target q = Some row -> refusal q row got = None -> some_admin users ->
  some_admin (<[cr_target q := changed_row q row]> users).
Proof.
  intros Hgot Hnd Hrow Href (a & ua & Hua & Ha). destruct (decide (a = cr_target q)) as [->|Hne].
  2: { exists a, ua. by rewrite lookup_insert_ne. }
  assert (ua = row) as -> by congruence. destruct (enabled_admin (changed_row q row)) eqn:Hc.
  { exists (cr_target q), (changed_row q row). by rewrite lookup_insert_eq. }
  assert (~ (length got <= 1)%nat) as Hlen.
  { unfold enabled_admin in Ha, Hc. apply andb_true_iff in Ha as [He Hr]. unfold refusal, changed_row in *.
    destruct (cr_change q) as [b|r]; simpl in Hc.
    - rewrite Hr, andb_true_r in Hc. unfold enabled_refusal in Href. rewrite Hc, He, Hr in Href. simpl in Href.
      destruct (bool_decide (cr_actor q = cr_target q)); [done|]. simpl in Href. by destruct (bool_decide_reflect (length got <= 1)%nat).
    - rewrite He in Hc. simpl in Hc. unfold role_refusal in Href. rewrite He, Hr, Hc in Href. simpl in Href.
      destruct (bool_decide (cr_actor q = cr_target q)); [done|]. simpl in Href. by destruct (bool_decide_reflect (length got <= 1)%nat). }
  destruct (NoDup_other got (cr_target q) Hnd Hlen) as (b & Hb & Hbne). destruct (Hgot b Hb) as (ub & Hub & Hab).
  exists b, ub. by rewrite lookup_insert_ne.
Qed.

(** The other transactions go on as they were when one of them moves. *)
Lemma others_ok s s' tx mine :
  (forall tx' q p, lk_open s !! tx' = Some (q, p) -> tx_ok s tx' q p) ->
  (forall tx', tx' <> tx -> lk_open s' !! tx' = lk_open s !! tx') ->
  (forall tx' id, tx' <> tx -> lk_held s !! id = Some tx' -> lk_held s' !! id = Some tx') ->
  (forall tx' id u, tx' <> tx -> lk_held s !! id = Some tx' -> lk_users s !! id = Some u -> lk_users s' !! id = Some u) ->
  lk_open s' !! tx = mine -> (forall q p, mine = Some (q, p) -> tx_ok s' tx q p) ->
  forall tx' q p, lk_open s' !! tx' = Some (q, p) -> tx_ok s' tx' q p.
Proof.
  intros Hall Hopen Hheld Husers Hmine Hok tx' q p H. destruct (decide (tx' = tx)) as [->|Hne]; [apply Hok; congruence|].
  rewrite Hopen in H by done. apply (tx_ok_frame s); [by apply Hall|intros; by apply Hheld|intros; by eapply Husers].
Qed.

Lemma begin_ok s tx q : tx_ok (MkLockState (lk_users s) (lk_held s) (<[tx := (q, Scanning (admin_ids (lk_users s)) [])]> (lk_open s)))
  tx q (Scanning (admin_ids (lk_users s)) []).
Proof. split; simpl; [intros id []%elem_of_nil|apply NoDup_admin_ids|done]. Qed.

Lemma lock_admin_ok s tx q id todo got row :
  tx_ok s tx q (Scanning (id :: todo) got) -> lk_users s !! id = Some row ->
  tx_ok (MkLockState (lk_users s) (<[id := tx]> (lk_held s))
           (<[tx := (q, Scanning todo (if enabled_admin row then got ++ [id] else got))]> (lk_open s)))
    tx q (Scanning todo (if enabled_admin row then got ++ [id] else got)).
Proof.
  intros [Hg Ho Ht] Hrow. simpl in *.
  assert (forall id', lk_held s !! id' = Some tx -> <[id := tx]> (lk_held s) !! id' = Some tx) as Hheld.
  { intros id' H. destruct (decide (id' = id)) as [->|]; [apply lookup_insert_eq|by rewrite lookup_insert_ne]. }
  split; simpl; [| |done].
  - intros id'. destruct (enabled_admin row) eqn:Ha.
    + intros [H| ->%list_elem_of_singleton]%elem_of_app; [destruct (Hg id' H) as [H1 H2]; auto|]. rewrite lookup_insert_eq. eauto.
    + intros H. destruct (Hg id' H) as [H1 H2]. auto.
  - destruct (enabled_admin row); [by rewrite <-app_assoc|]. apply NoDup_app in Ho as (H1 & H2 & H3). apply NoDup_cons in H3 as [_ H3].
    apply NoDup_app. split_and!; [done| |done]. intros x Hx Hx'. apply (H2 x Hx). by right.
Qed.

Lemma target_ok s tx q got row :
  tx_ok s tx q (Scanned got) -> lk_users s !! cr_target q = Some row ->
  tx_ok (MkLockState (lk_users s) (<[cr_target q := tx]> (lk_held s)) (<[tx := (q, Targeted got row)]> (lk_open s))) tx q (Targeted got row).
Proof.
  intros [Hg Ho Ht] Hrow. split; simpl; [|done|].
  - intros id Hid. destruct (Hg id Hid) as [H1 H2]. split; [|done].
    destruct (decide (id = cr_target q)) as [->|]; [apply lookup_insert_eq|by rewrite lookup_insert_ne].
  - intros got' row' [= <- <-]. by rewrite lookup_insert_eq.
Qed.

Lemma lock_step_inv s s' : lock_step s s' -> locks_inv s -> locks_inv s'.
Proof.
  intros Hstep [Hadmin Htxs]. destruct Hstep as [s tx q Hnew|s tx q id todo got row Hopen Hl Hrow|s tx q got Hopen|s tx q got row Hopen Hl Hrow
    |s tx q got row Hopen Href|s tx q p Hopen|s id row Hnew|s id row hash Hrow Hfree]; split; try exact Hadmin.
  - apply (others_ok s _ tx (Some (q, Scanning (admin_ids (lk_users s)) [])) Htxs); simpl; try done.
    + intros tx' Hne. by rewrite lookup_insert_ne.
    + apply lookup_insert_eq.
    + intros q' p' [= <- <-]. apply begin_ok.
  - apply (others_ok s _ tx (Some (q, Scanning todo (if enabled_admin row then got ++ [id] else got))) Htxs); simpl; try done.
    + intros tx' Hne. by rewrite lookup_insert_ne.
    + intros tx' id' Hne H. by apply (lock_keeps s tx id Hl).
    + apply lookup_insert_eq.
    + intros q' p' [= <- <-]. apply lock_admin_ok; [by apply Htxs|done].
  - apply (others_ok s _ tx (Some (q, Scanned got)) Htxs); simpl; try done.
    + intros tx' Hne. by rewrite lookup_insert_ne.
    + apply lookup_insert_eq.
    + intros q' p' [= <- <-]. destruct (Htxs _ _ _ Hopen) as [Hg Ho Ht]. split; simpl in *; [done|by rewrite app_nil_r in Ho|done].
  - apply (others_ok s _ tx (Some (q, Targeted got row)) Htxs); simpl; try done.
    + intros tx' Hne. by rewrite lookup_insert_ne.
    + intros tx' id' Hne H. by apply (lock_keeps s tx (cr_target q) Hl).
    + apply lookup_insert_eq.
    + intros q' p' [= <- <-]. apply target_ok; [by apply Htxs|done].
  - destruct (Htxs _ _ _ Hopen) as [Hg Ho Ht]. destruct (Ht got row eq_refl) as [Hheld Hrow]. simpl in *.
    apply commit_leaves_admin with got; try done. intros id Hid. by apply Hg.
  - destruct (Htxs _ _ _ Hopen) as [_ _ Ht]. destruct (Ht got row eq_refl) as [Hheld _].
    apply (others_ok s _ tx None Htxs); simpl; try done.
    + intros tx' Hne. by rewrite lookup_delete_ne.
    + intros tx' id Hne H. by apply release_keeps.
    + intros tx' id u Hne H Hu. rewrite lookup_insert_ne; [done|]. congruence.
    + apply lookup_delete_eq.
  - apply (others_ok s _ tx None Htxs); simpl; try done.
    + intros tx' Hne. by rewrite lookup_delete_ne.
    + intros tx' id Hne H. by apply release_keeps.
    + apply lookup_delete_eq.
  - destruct Hadmin as (a & ua & Hua & Ha). exists a, ua. simpl. rewrite lookup_insert_ne; [done|]. congruence.
  - intros tx q p H. apply (tx_ok_frame s); [by apply Htxs|done|]. intros id' u _ Hu. simpl. rewrite lookup_insert_ne; [done|]. congruence.
  - destruct Hadmin as (a & ua & Hua & Ha). simpl. destruct (decide (a = id)) as [->|]; [|exists a, ua; by rewrite lookup_insert_ne].
    assert (ua = row) as -> by congruence. exists id, (set_password hash row). by rewrite lookup_insert_eq.
  - intros tx q p H. apply (tx_ok_frame s); [by apply Htxs|done|]. intros id' u Hh Hu. simpl. rewrite lookup_insert_ne; [done|]. congruence.
Qed.

(** C7. However many changes of users run at the same time, in whatever order their
    steps interleave and wherever they fail, among logins, new users and new
    passwords: with an enabled platform administrator at the start there is one in
    every committed state. The locks make the count each transaction decides on a
    lower bound of the administrators there are until it commits. *)
Theorem concurrent_changes_keep_an_administrator (users : gmap string UserRow) (s : lock_state) :
  some_admin users -> rtc lock_step (MkLockState users ∅ ∅) s -> some_admin (lk_users s).
Proof.
  intros Hadmin Hr. cut (locks_inv s); [by intros []|].
  refine (rtc_ind_r (fun s => locks_inv s) _ _ _ s Hr).
  - split; [done|]. simpl. intros tx q p. by rewrite lookup_empty.
  - intros s1 s2 _ Hstep Hinv. by eapply lock_step_inv.
Qed.

(** * A run *)

(** Two administrators disable each other at the same time: the second transaction
    finds one administrator left and is refused. *)
Module LocksDemo.
Definition admin (name : string) : UserRow := new_user name "hash" PLATFORM_ADMIN None 0.
Definition users : gmap string UserRow := {["a" := admin "ann"; "b" := admin "bob"]}.
Definition ann_disables_bob : change_request := MkChangeRequest "a" "b" (SetEnabled false) 0.
Definition bob_disables_ann : change_request := MkChangeRequest "b" "a" (SetEnabled false) 0.
Definition after : gmap string UserRow := <["b" := set_enabled false "a" 0 (admin "bob")]> users.
Definition second : lock_state :=
  MkLockState after {["a" := 2%nat]} {[2%nat := (bob_disables_ann, Targeted ["a"] (admin "ann"))]}.
End LocksDemo.

Example second_is_refused : refusal LocksDemo.bob_disables_ann (LocksDemo.admin "ann") ["a"] = Some errLastPlatformAdmin.
Proof. reflexivity. Qed.

Lemma concurrent_changes_keep_an_administrator_witness :
  exists s, rtc lock_step (MkLockState LocksDemo.users ∅ ∅) s /\ lk_users s = LocksDemo.after /\ some_admin (lk_users s).
Proof.
  assert (exists s, rtc lock_step (MkLockState LocksDemo.users ∅ ∅) s /\ lk_users s = LocksDemo.after) as (s & Hs & Hu).
  { eexists. split.
    - eapply rtc_l; [apply (step_begin _ 1%nat LocksDemo.ann_disables_bob); reflexivity|].
      eapply rtc_l; [apply (step_begin _ 2%nat LocksDemo.bob_disables_ann); reflexivity|].
      eapply rtc_l; [eapply (step_lock_admin _ 1%nat _ "a" ["b"] []); [reflexivity|by intros ? ?|reflexivity]|].
      eapply rtc_l; [eapply (step_lock_admin _ 1%nat _ "b" [] ["a"]); [reflexivity|by intros ? ?|reflexivity]|].
      eapply rtc_l; [eapply (step_scanned _ 1%nat _ ["a"; "b"]); reflexivity|].
      eapply rtc_l; [eapply (step_target _ 1%nat LocksDemo.ann_disables_bob ["a"; "b"]); [reflexivity|intros ? [= <-]; done|reflexivity]|].
      eapply rtc_l; [eapply (step_commit _ 1%nat LocksDemo.ann_disables_bob ["a"; "b"] (LocksDemo.admin "bob")); reflexivity|].
      apply rtc_refl.
    - reflexivity. }
  exists s. split; [done|]. split; [done|]. apply (concurrent_changes_keep_an_administrator LocksDemo.users s); [|done].
  exists "a", (LocksDemo.admin "ann"). split; reflexivity.
Defined.
