(* ===== verification/PolicyQueries.v ===== *)
(** Notification contacts, contact groups and policies: the tables, and the
    statements of [internal/notify/queries.sql.go] that administer them under the
    constraints of the migrations [00019_alert_rule_builtins.sql],
    [00022_contacts_notification_policies.sql] and
    [00031_configurable_notification_repeat_minimum.sql]. The dispatcher reads the same
    rows ([Notify.destinations]). *)

From S2P Require Import Prelude Db Text Notify.

(** * Rows *)

Record ContactRow : Type := MkContactRow {
  co_Name : string;
  co_Email : string;
  co_ExternalID : option string;
  co_CreatedAt : Time;
  co_UpdatedAt : Time;
}.

Record GroupRow : Type := MkGroupRow {
  gr_Name : string;
  gr_CreatedAt : Time;
  gr_UpdatedAt : Time;
}.

(** [po_Delivery] are the columns the dispatcher reads. *)
Record PolicyRow : Type := MkPolicyRow {
  po_Identifier : string;
  po_Name : string;
  po_Delivery : NotificationPolicy;
  po_TemplateID : option string;
  po_CreatedAt : Time;
  po_UpdatedAt : Time;
}.

(** The rows keyed by their ids, the association tables, the webhook targets as
    (enabled, url), and the policies that alert rules name. *)
Record PolicyTables : Type := MkPolicyTables {
  pt_contact : gmap string ContactRow;
  pt_group : gmap string GroupRow;
  pt_member : list (string * string);
  pt_policy : gmap string PolicyRow;
  pt_policy_contact : list (string * string);
  pt_policy_group : list (string * string);
  pt_channel : list NotificationPolicyChannel;
  pt_webhook : gmap string (bool * string);
  pt_rule_policy : gset string;
}.

Definition with_contacts (m : gmap string ContactRow) (t : PolicyTables) : PolicyTables :=
  MkPolicyTables m (pt_group t) (pt_member t) (pt_policy t) (pt_policy_contact t) (pt_policy_group t) (pt_channel t) (pt_webhook t) (pt_rule_policy t).
Definition with_groups (m : gmap string GroupRow) (t : PolicyTables) : PolicyTables :=
  MkPolicyTables (pt_contact t) m (pt_member t) (pt_policy t) (pt_policy_contact t) (pt_policy_group t) (pt_channel t) (pt_webhook t) (pt_rule_policy t).
Definition with_members (l : list (string * string)) (t : PolicyTables) : PolicyTables :=
  MkPolicyTables (pt_contact t) (pt_group t) l (pt_policy t) (pt_policy_contact t) (pt_policy_group t) (pt_channel t) (pt_webhook t) (pt_rule_policy t).
Definition with_policy_rows (m : gmap string PolicyRow) (t : PolicyTables) : PolicyTables :=
  MkPolicyTables (pt_contact t) (pt_group t) (pt_member t) m (pt_policy_contact t) (pt_policy_group t) (pt_channel t) (pt_webhook t) (pt_rule_policy t).
Definition with_policy_contacts (l : list (string * string)) (t : PolicyTables) : PolicyTables :=
  MkPolicyTables (pt_contact t) (pt_group t) (pt_member t) (pt_policy t) l (pt_policy_group t) (pt_channel t) (pt_webhook t) (pt_rule_policy t).
Definition with_policy_groups (l : list (string * string)) (t : PolicyTables) : PolicyTables :=
  MkPolicyTables (pt_contact t) (pt_group t) (pt_member t) (pt_policy t) (pt_policy_contact t) l (pt_channel t) (pt_webhook t) (pt_rule_policy t).
Definition with_channels (l : list NotificationPolicyChannel) (t : PolicyTables) : PolicyTables :=
  MkPolicyTables (pt_contact t) (pt_group t) (pt_member t) (pt_policy t) (pt_policy_contact t) (pt_policy_group t) l (pt_webhook t) (pt_rule_policy t).
Definition with_webhooks (m : gmap string (bool * string)) (t : PolicyTables) : PolicyTables :=
  MkPolicyTables (pt_contact t) (pt_group t) (pt_member t) (pt_policy t) (pt_policy_contact t) (pt_policy_group t) (pt_channel t) m (pt_rule_policy t).

(** What the dispatcher sees of the rows. *)
Definition policy_view (t : PolicyTables) (n : NotifyTables) : NotifyTables :=
  MkNotifyTables (n_alert n) (n_event n) (n_rule n) (n_identity n) (po_Delivery <$> pt_policy t) (pt_channel t) (pt_policy_contact t)
    (pt_policy_group t) (pt_member t) (co_Email <$> pt_contact t) (n_smtp n) (pt_webhook t)
    (n_window n) (n_window_instance n) (n_delivery n) (n_attempt n) (n_issued n) (n_outbox n).

(** * Association tables *)

(** The rows of a table but those of [key], and a row under the primary key and the
    references ([known]). *)
Definition clear_pairs (key : string) (l : list (string * string)) : list (string * string) := filter (fun entry => entry.1 <> key) l.
Definition drop_targets (x : string) (l : list (string * string)) : list (string * string) := filter (fun entry => entry.2 <> x) l.

Definition add_pair (known : bool) (key x : string) (l : list (string * string)) : result (list (string * string)) :=
  if bool_decide ((key, x) ∈ l) then Err (ErrPg "23505")
  else if known then Ok (l ++ [(key, x)]) else Err (ErrPg "23503").

Definition in_map {A} (m : gmap string A) (id : string) : bool := bool_decide (is_Some (m !! id)).

(** * Contacts *)

Definition contact_checked (c : ContactRow) : bool :=
  not_blank (co_Name c) && not_blank (co_Email c) && match co_ExternalID c with Some x => not_blank x | None => true end.

Definition GetNotificationContact (id : string) : DB PolicyTables (string * ContactRow) :=
  statement (fun t => match pt_contact t !! id with Some row => Ok ((id, row), t) | None => Err ErrNoRows end).

Definition ListNotificationContacts : DB PolicyTables (list (string * ContactRow)) :=
  query (fun t => sort_by (fun a b => string_ltb (co_Name a.2) (co_Name b.2) ||
                                      (bool_decide (co_Name a.2 = co_Name b.2) && string_ltb a.1 b.1)) (map_to_list (pt_contact t))).

Definition CreateNotificationContact (id name email : string) (externalID : option string) (at_ : Time) : DB PolicyTables (string * ContactRow) :=
  statement (fun t =>
    let row := MkContactRow name email externalID (timestamptz at_) (timestamptz at_) in
    if negb (contact_checked row) then Err (ErrPg "23514")
    else if in_map (pt_contact t) id then Err (ErrPg "23505")
    else Ok ((id, row), with_contacts (<[id := row]> (pt_contact t)) t)).

Definition UpdateNotificationContact (id name email : string) (externalID : option string) (at_ : Time) : DB PolicyTables (string * ContactRow) :=
  statement (fun t =>
    match pt_contact t !! id with
    | None => Err ErrNoRows
    | Some old =>
        let row := MkContactRow name email externalID (co_CreatedAt old) (timestamptz at_) in
        if negb (contact_checked row) then Err (ErrPg "23514")
        else Ok ((id, row), with_contacts (<[id := row]> (pt_contact t)) t)
    end).

(** The deletion cascades to the groups and policies the contact is in. *)
Definition DeleteNotificationContact (id : string) : DB PolicyTables Z :=
  statement (fun t =>
    if in_map (pt_contact t) id then
      Ok (1, with_contacts (delete id (pt_contact t)) (with_members (drop_targets id (pt_member t))
               (with_policy_contacts (drop_targets id (pt_policy_contact t)) t)))
    else Ok (0, t)).

(** * Groups *)

Definition GetNotificationContactGroup (id : string) : DB PolicyTables (string * GroupRow) :=
  statement (fun t => match pt_group t !! id with Some row => Ok ((id, row), t) | None => Err ErrNoRows end).

Definition ListNotificationContactGroups : DB PolicyTables (list (string * GroupRow)) :=
  query (fun t => sort_by (fun a b => string_ltb (gr_Name a.2) (gr_Name b.2) ||
                                      (bool_decide (gr_Name a.2 = gr_Name b.2) && string_ltb a.1 b.1)) (map_to_list (pt_group t))).

Definition ListNotificationContactGroupMembers (id : string) : DB PolicyTables (list string) :=
  query (fun t => sort_by string_ltb (members (pt_member t) id)).

Definition CreateNotificationContactGroup (id name : string) (at_ : Time) : DB PolicyTables (string * GroupRow) :=
  statement (fun t =>
    let row := MkGroupRow name (timestamptz at_) (timestamptz at_) in
    if negb (not_blank name) then Err (ErrPg "23514")
    else if in_map (pt_group t) id then Err (ErrPg "23505")
    else Ok ((id, row), with_groups (<[id := row]> (pt_group t)) t)).

Definition UpdateNotificationContactGroup (id name : string) (at_ : Time) : DB PolicyTables (string * GroupRow) :=
  statement (fun t =>
    match pt_group t !! id with
    | None => Err ErrNoRows
    | Some old =>
        let row := MkGroupRow name (gr_CreatedAt old) (timestamptz at_) in
        if negb (not_blank name) then Err (ErrPg "23514") else Ok ((id, row), with_groups (<[id := row]> (pt_group t)) t)
    end).

Definition DeleteNotificationContactGroup (id : string) : DB PolicyTables Z :=
  statement (fun t =>
    if in_map (pt_group t) id then
      Ok (1, with_groups (delete id (pt_group t)) (with_members (clear_pairs id (pt_member t))
               (with_policy_groups (drop_targets id (pt_policy_group t)) t)))
    else Ok (0, t)).

Definition ClearNotificationContactGroupMembers (groupID : string) : DB PolicyTables unit :=
  exec (fun t => with_members (clear_pairs groupID (pt_member t)) t).

Definition AddNotificationContactGroupMember (groupID contactID : string) : DB PolicyTables unit :=
  statement (fun t =>
    l ← add_pair (in_map (pt_group t) groupID && in_map (pt_contact t) contactID) groupID contactID (pt_member t);
    Ok (tt, with_members l t)).

(** * Policies *)

Definition severities : list string := ["critical"; "warning"; "info"].

Definition policy_checked (p : PolicyRow) : bool :=
  negb (bool_decide (po_Identifier p = EmptyString)) && negb (bool_decide (po_Name p = EmptyString)) &&
  negb (bool_decide (SeverityFilter (po_Delivery p) = [])) &&
  bool_decide (Forall (fun s => s ∈ severities) (SeverityFilter (po_Delivery p))) &&
  (1 <=? RepeatInterval (po_Delivery p)) && (RepeatInterval (po_Delivery p) <=? 86400).

Definition GetNotificationPolicy (id : string) : DB PolicyTables (string * PolicyRow) :=
  statement (fun t => match pt_policy t !! id with Some row => Ok ((id, row), t) | None => Err ErrNoRows end).

(** [ORDER BY is_default DESC, name, id] *)
Definition policyRowLess (a b : string * PolicyRow) : bool :=
  let da := IsDefault (po_Delivery a.2) in
  let db := IsDefault (po_Delivery b.2) in
  (da && negb db) ||
  (eqb da db && (string_ltb (po_Name a.2) (po_Name b.2) || (bool_decide (po_Name a.2 = po_Name b.2) && string_ltb a.1 b.1))).

Definition ListNotificationPolicies : DB PolicyTables (list (string * PolicyRow)) :=
  query (fun t => sort_by policyRowLess (map_to_list (pt_policy t))).

Definition identifier_taken (t : PolicyTables) (identifier : string) : bool :=
  bool_decide (Exists (fun entry => po_Identifier entry.2 = identifier) (map_to_list (pt_policy t))).

Definition CreateNotificationPolicy (id identifier name : string) (severityFilter : list string) (onFire onRecovery : bool)
    (repeatInterval : Z) (templateID : option string) (at_ : Time) : DB PolicyTables (string * PolicyRow) :=
  statement (fun t =>
    let row := MkPolicyRow identifier name (MkNotificationPolicy false severityFilter onFire onRecovery repeatInterval) templateID
                 (timestamptz at_) (timestamptz at_) in
    if negb (policy_checked row) then Err (ErrPg "23514")
    else if in_map (pt_policy t) id || identifier_taken t identifier then Err (ErrPg "23505")
    else Ok ((id, row), with_policy_rows (<[id := row]> (pt_policy t)) t)).

Definition UpdateNotificationPolicy (id name : string) (severityFilter : list string) (onFire onRecovery : bool)
    (repeatInterval : Z) (templateID : option string) (at_ : Time) : DB PolicyTables (string * PolicyRow) :=
  statement (fun t =>
    match pt_policy t !! id with
    | None => Err ErrNoRows
    | Some old =>
        let row := MkPolicyRow (po_Identifier old) name
                     (MkNotificationPolicy (IsDefault (po_Delivery old)) severityFilter onFire onRecovery repeatInterval) templateID
                     (po_CreatedAt old) (timestamptz at_) in
        if negb (policy_checked row) then Err (ErrPg "23514")
        else Ok ((id, row), with_policy_rows (<[id := row]> (pt_policy t)) t)
    end).

(** [WHERE id = $1 AND NOT is_default]; alert rules restrict the deletion, the
    associations go with the policy. *)
Definition DeleteNotificationPolicy (id : string) : DB PolicyTables Z :=
  statement (fun t =>
    match pt_policy t !! id with
    | None => Ok (0, t)
    | Some row =>
        if IsDefault (po_Delivery row) then Ok (0, t)
        else if bool_decide (id ∈ pt_rule_policy t) then Err (ErrPg "23503")
        else
          Ok (1, with_policy_rows (delete id (pt_policy t)) (with_policy_contacts (clear_pairs id (pt_policy_contact t))
                   (with_policy_groups (clear_pairs id (pt_policy_group t))
                      (with_channels (filter (fun c => pc_PolicyID c <> id) (pt_channel t)) t))))
    end).

Definition ClearNotificationPolicyContacts (policyID : string) : DB PolicyTables unit :=
  exec (fun t => with_policy_contacts (clear_pairs policyID (pt_policy_contact t)) t).

Definition ClearNotificationPolicyContactGroups (policyID : string) : DB PolicyTables unit :=
  exec (fun t => with_policy_groups (clear_pairs policyID (pt_policy_group t)) t).

Definition ClearNotificationPolicyChannels (policyID : string) : DB PolicyTables unit :=
  exec (fun t => with_channels (filter (fun c => pc_PolicyID c <> policyID) (pt_channel t)) t).

Definition AddNotificationPolicyContact (policyID contactID : string) : DB PolicyTables unit :=
  statement (fun t =>
    l ← add_pair (in_map (pt_policy t) policyID && in_map (pt_contact t) contactID) policyID contactID (pt_policy_contact t);
    Ok (tt, with_policy_contacts l t)).

Definition AddNotificationPolicyContactGroup (policyID groupID : string) : DB PolicyTables unit :=
  statement (fun t =>
    l ← add_pair (in_map (pt_policy t) policyID && in_map (pt_group t) groupID) policyID groupID (pt_policy_group t);
    Ok (tt, with_policy_groups l t)).

(** The CHECK on a channel: SMTP has no target, a webhook has one. *)
Definition channel_checked (c : NotificationPolicyChannel) : bool :=
  (bool_decide (pc_Channel c = "SMTP") && bool_decide (pc_ChannelTargetID c = None)) ||
  (bool_decide (pc_Channel c = "WEBHOOK") && bool_decide (is_Some (pc_ChannelTargetID c))).

#[export] Instance NotificationPolicyChannel_eq_dec : EqDecision NotificationPolicyChannel.
Proof. solve_decision. Defined.

(** The unique indexes make a policy's channels distinct. *)
Definition AddNotificationPolicyChannel (policyID channel : string) (targetID : option string) : DB PolicyTables unit :=
  let row := MkNotificationPolicyChannel policyID channel targetID in
  statement (fun t =>
    if negb (channel_checked row) then Err (ErrPg "23514")
    else if bool_decide (row ∈ pt_channel t) then Err (ErrPg "23505")
    else if in_map (pt_policy t) policyID && match targetID with Some id => in_map (pt_webhook t) id | None => true end
    then Ok (tt, with_channels (pt_channel t ++ [row]) t)
    else Err (ErrPg "23503")).

(** [ORDER BY channel, channel_target_id]; an absent target sorts last. *)
Definition channelRowLess (a b : string * option string) : bool :=
  string_ltb a.1 b.1 ||
  (bool_decide (a.1 = b.1) && match a.2, b.2 with Some x, Some y => string_ltb x y | Some _, None => true | None, _ => false end).

Definition ListNotificationPolicyChannels (policyID : string) : DB PolicyTables (list (string * option string)) :=
  query (fun t => sort_by channelRowLess
    ((fun c => (pc_Channel c, pc_ChannelTargetID c)) <$> filter (fun c => pc_PolicyID c = policyID) (pt_channel t))).

Definition ListNotificationPolicyContacts (policyID : string) : DB PolicyTables (list string) :=
  query (fun t => sort_by string_ltb (members (pt_policy_contact t) policyID)).

Definition ListNotificationPolicyContactGroups (policyID : string) : DB PolicyTables (list string) :=
  query (fun t => sort_by string_ltb (members (pt_policy_group t) policyID)).

(** * Webhook targets *)

Definition GetWebhookTarget (id : string) : DB PolicyTables (bool * string) :=
  statement (fun t => match pt_webhook t !! id with Some row => Ok (row, t) | None => Err ErrNoRows end).

(** The deletion takes the channels of the target with it. *)
Definition DeleteWebhookTarget (id : string) : DB PolicyTables Z :=
  statement (fun t =>
    if in_map (pt_webhook t) id then
      Ok (1, with_webhooks (delete id (pt_webhook t)) (with_channels (filter (fun c => pc_ChannelTargetID c <> Some id) (pt_channel t)) t))
    else Ok (0, t)).
