(* ===== verification/PolicyAdmin.v ===== *)
(** The handlers of notification contacts, contact groups and policies
    ([internal/httpapi/notification_policies.go]). *)

From S2P Require Import Prelude Db Text Responses Notify PolicyQueries.

Definition maximumNotificationRepeatIntervalSeconds : Z := 86400.

(** * Requests *)

Record NotificationContactInput : Type := MkContactInput {
  ci_Name : string;
  ci_Email : string;
  ci_ExternalId : option string;
}.

Record NotificationContactGroupInput : Type := MkGroupInput {
  gi_Name : string;
  gi_ContactIds : list string;
}.

(** [api.NotificationPolicyChannel] *)
Record APIPolicyChannel : Type := MkAPIChannel {
  pch_Channel : string;
  pch_TargetId : option string;
}.

Record NotificationPolicyInput : Type := MkPolicyInput {
  pi_Name : string;
  pi_ContactIds : list string;
  pi_ContactGroupIds : list string;
  pi_Channels : list APIPolicyChannel;
  pi_SeverityFilter : list string;
  pi_NotifyOnFire : bool;
  pi_NotifyOnRecovery : bool;
  pi_RepeatInterval : Z;
  pi_TemplateId : option string;
}.

Record notificationContactInputValues : Type := MkContactValues {
  cv_name : string;
  cv_email : string;
  cv_externalID : option string;
}.

Record notificationContactGroupInputValues : Type := MkGroupValues {
  gv_name : string;
  gv_contactIDs : list string;
}.

Record notificationPolicyInputValues : Type := MkPolicyValues {
  pv_name : string;
  pv_contactIDs : list string;
  pv_contactGroupIDs : list string;
  pv_channels : list APIPolicyChannel;
  pv_severityFilter : list string;
  pv_notifyOnFire : bool;
  pv_notifyOnRecovery : bool;
  pv_repeatInterval : Z;
  pv_templateID : option string;
}.

(** * Validation *)

(** The ids, when none is there twice. *)
Definition uniqueDatabaseUUIDs (ids : list string) : option (list string) := if has_duplicate ids then None else Some ids.

(** An optional text: absent, or trimmed and not blank; [None] rejects it. *)
Definition optional_text (value : option string) : option (option string) :=
  match value with
  | None => Some None
  | Some s => let s := TrimSpace s in if bool_decide (s = EmptyString) then None else Some (Some s)
  end.

Definition notificationPolicySeverityFilter (l : list string) : option (list string) :=
  if bool_decide (l = []) || has_duplicate l || negb (forallb (fun s => bool_decide (s ∈ severities)) l) then None else Some l.

Definition validNotificationPolicyChannel (channel : APIPolicyChannel) : bool :=
  if bool_decide (pch_Channel channel = "SMTP") then bool_decide (pch_TargetId channel = None)
  else if bool_decide (pch_Channel channel = "WEBHOOK") then bool_decide (is_Some (pch_TargetId channel))
  else false.

Definition policy_channel_key (channel : APIPolicyChannel) : string :=
  pch_Channel channel +:+ match pch_TargetId channel with Some id => ":" +:+ id | None => EmptyString end.

Definition validNotificationPolicyChannels (channels : list APIPolicyChannel) : bool :=
  negb (bool_decide (channels = [])) && forallb validNotificationPolicyChannel channels &&
  negb (has_duplicate (policy_channel_key <$> channels)).

Section Handlers.
(** [mail.ParseAddress], as the address of a text it accepts. *)
Context (ParseAddress : string -> option string).
(** [handler.notificationRepeatMinimum] *)
Context (repeatMinimum : Duration).

Definition validEmail (value : string) : bool := bool_decide (ParseAddress value = Some value).

Definition notificationContactValues (input : option NotificationContactInput) : option notificationContactInputValues :=
  input ← input;
  let name := TrimSpace (ci_Name input) in
  let email := TrimSpace (ci_Email input) in
  if bool_decide (name = EmptyString) || negb (validEmail email) then None
  else externalID ← optional_text (ci_ExternalId input); Some (MkContactValues name email externalID).

Definition notificationContactGroupValues (input : option NotificationContactGroupInput) : option notificationContactGroupInputValues :=
  input ← input;
  let name := TrimSpace (gi_Name input) in
  contactIDs ← uniqueDatabaseUUIDs (gi_ContactIds input);
  if bool_decide (name = EmptyString) then None else Some (MkGroupValues name contactIDs).

Definition minimumRepeatIntervalSeconds : Z := Z.quot repeatMinimum Second.

Definition notificationPolicyValues (input : option NotificationPolicyInput) : option notificationPolicyInputValues :=
  input ← input;
  if (pi_RepeatInterval input <? minimumRepeatIntervalSeconds) || (maximumNotificationRepeatIntervalSeconds <? pi_RepeatInterval input)
  then None
  else
    let name := TrimSpace (pi_Name input) in
    contactIDs ← uniqueDatabaseUUIDs (pi_ContactIds input);
    if bool_decide (name = EmptyString) then None
    else
      contactGroupIDs ← uniqueDatabaseUUIDs (pi_ContactGroupIds input);
      severityFilter ← notificationPolicySeverityFilter (pi_SeverityFilter input);
      if negb (validNotificationPolicyChannels (pi_Channels input)) then None
      else
        templateID ← optional_text (pi_TemplateId input);
        Some (MkPolicyValues name contactIDs contactGroupIDs (pi_Channels input) severityFilter (pi_NotifyOnFire input)
                (pi_NotifyOnRecovery input) (int32 (pi_RepeatInterval input)) templateID).

(** * References *)

Definition errNotificationReferenceNotFound : error := ErrNew "notification reference not found".

(** [if errors.Is(err, pgx.ErrNoRows) { return errNotificationReferenceNotFound }] *)
Definition reference {A} (m : DB PolicyTables A) : DB PolicyTables unit :=
  r ← attempt m;
  match r with
  | Ok _ => mret tt
  | Err e => fail (if is_no_rows e then errNotificationReferenceNotFound else e)
  end.

Definition notificationContactsExist (contactIDs : list string) : DB PolicyTables unit :=
  for_each (fun contactID => reference (GetNotificationContact contactID)) contactIDs.

Definition notificationPolicyReferencesExist (values : notificationPolicyInputValues) : DB PolicyTables unit :=
  notificationContactsExist (pv_contactIDs values) ;;
  for_each (fun groupID => reference (GetNotificationContactGroup groupID)) (pv_contactGroupIDs values) ;;
  for_each (fun channel =>
    if negb (bool_decide (pch_Channel channel = "WEBHOOK")) then mret tt
    else reference (GetWebhookTarget (default EmptyString (pch_TargetId channel)))) (pv_channels values).

Definition replaceNotificationContactGroupMembers (groupID : string) (contactIDs : list string) : DB PolicyTables unit :=
  ClearNotificationContactGroupMembers groupID ;;
  for_each (AddNotificationContactGroupMember groupID) contactIDs.

Definition replaceNotificationPolicyAssociations (policyID : string) (values : notificationPolicyInputValues) : DB PolicyTables unit :=
  ClearNotificationPolicyContacts policyID ;;
  ClearNotificationPolicyContactGroups policyID ;;
  ClearNotificationPolicyChannels policyID ;;
  for_each (AddNotificationPolicyContact policyID) (pv_contactIDs values) ;;
  for_each (AddNotificationPolicyContactGroup policyID) (pv_contactGroupIDs values) ;;
  for_each (fun channel => AddNotificationPolicyChannel policyID (pch_Channel channel) (pch_TargetId channel)) (pv_channels values).

(** * Responses *)

Record APIContact : Type := MkAPIContact {
  act_Id : string;
  act_Name : string;
  act_Email : string;
  act_ExternalId : option string;
  act_CreatedAt : Time;
  act_UpdatedAt : Time;
}.

Record APIGroup : Type := MkAPIGroup {
  agr_Id : string;
  agr_Name : string;
  agr_ContactIds : list string;
  agr_CreatedAt : Time;
  agr_UpdatedAt : Time;
}.

Record APIPolicy : Type := MkAPIPolicy {
  apo_Id : string;
  apo_Name : string;
  apo_IsDefault : bool;
  apo_ContactIds : list string;
  apo_ContactGroupIds : list string;
  apo_Channels : list APIPolicyChannel;
  apo_SeverityFilter : list string;
  apo_NotifyOnFire : bool;
  apo_NotifyOnRecovery : bool;
  apo_RepeatInterval : Z;
  apo_TemplateId : option string;
  apo_CreatedAt : Time;
  apo_UpdatedAt : Time;
}.

Definition toAPINotificationContact (entry : string * ContactRow) : APIContact :=
  let '(id, row) := entry in
  MkAPIContact id (co_Name row) (co_Email row) (co_ExternalID row) (co_CreatedAt row) (co_UpdatedAt row).

Definition toAPINotificationContactGroup (entry : string * GroupRow) : DB PolicyTables APIGroup :=
  let '(id, row) := entry in
  contactIDs ← ListNotificationContactGroupMembers id;
  mret (MkAPIGroup id (gr_Name row) contactIDs (gr_CreatedAt row) (gr_UpdatedAt row)).

Definition toAPINotificationPolicy (entry : string * PolicyRow) : DB PolicyTables APIPolicy :=
  let '(id, row) := entry in
  contactIDs ← ListNotificationPolicyContacts id;
  groupIDs ← ListNotificationPolicyContactGroups id;
  channelRows ← ListNotificationPolicyChannels id;
  let d := po_Delivery row in
  mret (MkAPIPolicy id (po_Name row) (IsDefault d) contactIDs groupIDs ((fun c => MkAPIChannel c.1 c.2) <$> channelRows)
          (SeverityFilter d) (NotifyOnFire d) (NotifyOnRecovery d) (RepeatInterval d) (po_TemplateID row)
          (po_CreatedAt row) (po_UpdatedAt row)).

(** * Contacts *)

Definition invalidContact : APIError := errorBody "VALIDATION_FAILED" "valid contact name and email are required".

Definition ListNotificationContacts : DB PolicyTables (response (list APIContact)) :=
  rows ← PolicyQueries.ListNotificationContacts; mret (R200 (toAPINotificationContact <$> rows)).

Definition CreateNotificationContact (now : Time) (newID : string) (body : option NotificationContactInput) : DB PolicyTables (response APIContact) :=
  match notificationContactValues body with
  | None => mret (R400 invalidContact)
  | Some values =>
      row ← PolicyQueries.CreateNotificationContact newID (cv_name values) (cv_email values) (cv_externalID values) now;
      mret (R201 (toAPINotificationContact row))
  end.

Definition UpdateNotificationContact (now : Time) (id : string) (body : option NotificationContactInput) : DB PolicyTables (response APIContact) :=
  match notificationContactValues body with
  | None => mret (R400 invalidContact)
  | Some values =>
      or_404 "notification contact not found"
        (PolicyQueries.UpdateNotificationContact id (cv_name values) (cv_email values) (cv_externalID values) now)
        (fun row => mret (R200 (toAPINotificationContact row)))
  end.

(** [deleted == 0] is a 404. *)
Definition deleted_response {A} (message : string) (deleted : Z) : response A :=
  if deleted =? 0 then R404 (errorBody "NOT_FOUND" message) else R204.

Definition DeleteNotificationContact (id : string) : DB PolicyTables (response unit) :=
  deleted ← PolicyQueries.DeleteNotificationContact id; mret (deleted_response "notification contact not found" deleted).

(** * Groups *)

Definition invalidGroup : APIError := errorBody "VALIDATION_FAILED" "valid group name and unique contacts are required".
Definition unknownContact : APIError := errorBody "VALIDATION_FAILED" "contact_ids contains an unknown contact".

Definition ListNotificationContactGroups : DB PolicyTables (response (list APIGroup)) :=
  rows ← PolicyQueries.ListNotificationContactGroups;
  items ← collect_rows toAPINotificationContactGroup rows;
  mret (R200 items).

Definition CreateNotificationContactGroup (now : Time) (newID : string) (body : option NotificationContactGroupInput)
    : DB PolicyTables (response APIGroup) :=
  match notificationContactGroupValues body with
  | None => mret (R400 invalidGroup)
  | Some values =>
      r ← attempt (InTx (
        notificationContactsExist (gv_contactIDs values) ;;
        row ← PolicyQueries.CreateNotificationContactGroup newID (gv_name values) now;
        replaceNotificationContactGroupMembers newID (gv_contactIDs values) ;;
        mret row));
      match r with
      | Ok row => item ← toAPINotificationContactGroup row; mret (R201 item)
      | Err e => if bool_decide (e = errNotificationReferenceNotFound) then mret (R400 unknownContact) else fail e
      end
  end.

Definition UpdateNotificationContactGroup (now : Time) (id : string) (body : option NotificationContactGroupInput)
    : DB PolicyTables (response APIGroup) :=
  match notificationContactGroupValues body with
  | None => mret (R400 invalidGroup)
  | Some values =>
      r ← attempt (InTx (
        notificationContactsExist (gv_contactIDs values) ;;
        row ← PolicyQueries.UpdateNotificationContactGroup id (gv_name values) now;
        replaceNotificationContactGroupMembers id (gv_contactIDs values) ;;
        mret row));
      match r with
      | Ok row => item ← toAPINotificationContactGroup row; mret (R200 item)
      | Err e =>
          if is_no_rows e then mret (R404 (errorBody "NOT_FOUND" "notification contact group not found"))
          else if bool_decide (e = errNotificationReferenceNotFound) then mret (R400 unknownContact) else fail e
      end
  end.

Definition DeleteNotificationContactGroup (id : string) : DB PolicyTables (response unit) :=
  deleted ← PolicyQueries.DeleteNotificationContactGroup id; mret (deleted_response "notification contact group not found" deleted).

(** * Policies *)

Definition GetNotificationPolicySettings : response Z := R200 minimumRepeatIntervalSeconds.

Definition invalidPolicy : APIError :=
  errorBody "VALIDATION_FAILED" "valid policy recipients, channels, severity filter, and repeat interval are required".
Definition unknownReference : APIError :=
  errorBody "VALIDATION_FAILED" "policy contains an unknown contact, group, or Webhook target".

Definition ListNotificationPolicies : DB PolicyTables (response (list APIPolicy)) :=
  rows ← PolicyQueries.ListNotificationPolicies;
  items ← collect_rows toAPINotificationPolicy rows;
  mret (R200 items).

Definition create_policy_tx (now : Time) (newID : string) (values : notificationPolicyInputValues) : DB PolicyTables (string * PolicyRow) :=
  notificationPolicyReferencesExist values ;;
  row ← PolicyQueries.CreateNotificationPolicy newID newID (pv_name values) (pv_severityFilter values) (pv_notifyOnFire values)
          (pv_notifyOnRecovery values) (pv_repeatInterval values) (pv_templateID values) now;
  replaceNotificationPolicyAssociations newID values ;;
  mret row.

Definition CreateNotificationPolicy (now : Time) (newID : string) (body : option NotificationPolicyInput) : DB PolicyTables (response APIPolicy) :=
  match notificationPolicyValues body with
  | None => mret (R400 invalidPolicy)
  | Some values =>
      r ← attempt (InTx (create_policy_tx now newID values));
      match r with
      | Ok row => item ← toAPINotificationPolicy row; mret (R201 item)
      | Err e => if bool_decide (e = errNotificationReferenceNotFound) then mret (R400 unknownReference) else fail e
      end
  end.

Definition update_policy_tx (now : Time) (id : string) (values : notificationPolicyInputValues) : DB PolicyTables (string * PolicyRow) :=
  notificationPolicyReferencesExist values ;;
  row ← PolicyQueries.UpdateNotificationPolicy id (pv_name values) (pv_severityFilter values) (pv_notifyOnFire values)
          (pv_notifyOnRecovery values) (pv_repeatInterval values) (pv_templateID values) now;
  replaceNotificationPolicyAssociations id values ;;
  mret row.

Definition UpdateNotificationPolicy (now : Time) (id : string) (body : option NotificationPolicyInput) : DB PolicyTables (response APIPolicy) :=
  match notificationPolicyValues body with
  | None => mret (R400 invalidPolicy)
  | Some values =>
      r ← attempt (InTx (update_policy_tx now id values));
      match r with
      | Ok row => item ← toAPINotificationPolicy row; mret (R200 item)
      | Err e =>
          if is_no_rows e then mret (R404 (errorBody "NOT_FOUND" "notification policy not found"))
          else if bool_decide (e = errNotificationReferenceNotFound) then mret (R400 unknownReference) else fail e
      end
  end.

Definition DeleteNotificationPolicy (id : string) : DB PolicyTables (response unit) :=
  or_404 "notification policy not found" (GetNotificationPolicy id) (fun policy =>
    if IsDefault (po_Delivery policy.2)
    then mret (R409 (errorBody "CONFLICT" "the default notification policy cannot be deleted"))
    else
      deleted ← PolicyQueries.DeleteNotificationPolicy id;
      mret (deleted_response "notification policy not found" deleted)).

End Handlers.
