(* ===== verification/PolicyAdminInv.v ===== *)
(** What the administration of notification contacts, groups and policies promises:
    the invariant of its tables, what an accepted policy means for the dispatcher, and
    the bounds of the repeat interval. *)

From S2P Require Import Prelude Db Text Responses Notify PolicyQueries PolicyAdmin.

(** * The invariant *)

(** The rows of an association table: each once, between rows that exist. *)
Definition pairs_ok {A B} (left : gmap string A) (right : gmap string B) (l : list (string * string)) : Prop :=
  NoDup l /\ forall key x, (key, x) ∈ l -> is_Some (left !! key) /\ is_Some (right !! x).

Definition channels_ok (policies : gmap string PolicyRow) (webhooks : gmap string (bool * string)) (l : list NotificationPolicyChannel) : Prop :=
  NoDup l /\ forall c, c ∈ l -> channel_checked c = true /\ is_Some (policies !! pc_PolicyID c) /\
    forall id, pc_ChannelTargetID c = Some id -> is_Some (webhooks !! id).

(** [default] is the id of the default policy. *)
Record policies_inv (default : string) (t : PolicyTables) : Prop := MkPoliciesInv {
  inv_default : exists row, pt_policy t !! default = Some row /\ IsDefault (po_Delivery row) = true;
  inv_only_default : forall id row, pt_policy t !! id = Some row -> IsDefault (po_Delivery row) = true -> id = default;
  inv_policy : forall id row, pt_policy t !! id = Some row -> policy_checked row = true;
  inv_contact : forall id row, pt_contact t !! id = Some row -> contact_checked row = true;
  inv_group : forall id row, pt_group t !! id = Some row -> not_blank (gr_Name row) = true;
  inv_member : pairs_ok (pt_group t) (pt_contact t) (pt_member t);
  inv_policy_contact : pairs_ok (pt_policy t) (pt_contact t) (pt_policy_contact t);
  inv_policy_group : pairs_ok (pt_policy t) (pt_group t) (pt_policy_group t);
  inv_channel : channels_ok (pt_policy t) (pt_webhook t) (pt_channel t);
  inv_rules : forall id, id ∈ pt_rule_policy t -> is_Some (pt_policy t !! id);
}.

(** ** Association tables *)

Lemma pairs_ok_filter {A B} (left : gmap string A) (right : gmap string B) l (P : string * string -> Prop) `{!forall x, Decision (P x)} :
  pairs_ok left right l -> pairs_ok left right (filter P l).
Proof. intros [Hnd Hr]. split; [by apply NoDup_filter|]. intros key x [_ Hin]%list_elem_of_filter. auto. Qed.

Lemma pairs_ok_insert_left {A B} (left : gmap string A) (right : gmap string B) l id a :
  pairs_ok left right l -> pairs_ok (<[id := a]> left) right l.
Proof.
  intros [Hnd H]. split; [done|]. intros key x Hin. destruct (H key x Hin) as [H1 H2]. split; [|done].
  destruct (decide (key = id)) as [->|]; [rewrite lookup_insert_eq; eauto|by rewrite lookup_insert_ne].
Qed.

Lemma pairs_ok_insert_right {A B} (left : gmap string A) (right : gmap string B) l id b :
  pairs_ok left right l -> pairs_ok left (<[id := b]> right) l.
Proof.
  intros [Hnd H]. split; [done|]. intros key x Hin. destruct (H key x Hin) as [H1 H2]. split; [done|].
  destruct (decide (x = id)) as [->|]; [rewrite lookup_insert_eq; eauto|by rewrite lookup_insert_ne].
Qed.

Lemma pairs_ok_delete_left {A B} (left : gmap string A) (right : gmap string B) l id :
  pairs_ok left right l -> pairs_ok (delete id left) right (clear_pairs id l).
Proof.
  intros H. destruct (pairs_ok_filter _ _ _ (fun entry => entry.1 <> id) H) as [Hnd Hr]. split; [done|].
  intros key x Hin. destruct (Hr key x Hin) as [H1 H2]. apply list_elem_of_filter in Hin as [Hne _]. by rewrite lookup_delete_ne.
Qed.

Lemma pairs_ok_delete_right {A B} (left : gmap string A) (right : gmap string B) l id :
  pairs_ok left right l -> pairs_ok left (delete id right) (drop_targets id l).
Proof.
  intros H. destruct (pairs_ok_filter _ _ _ (fun entry => entry.2 <> id) H) as [Hnd Hr]. split; [done|].
  intros key x Hin. destruct (Hr key x Hin) as [H1 H2]. apply list_elem_of_filter in Hin as [Hne _]. by rewrite lookup_delete_ne.
Qed.

Lemma in_map_spec {A} (m : gmap string A) id : in_map m id = true <-> is_Some (m !! id).
Proof. apply bool_decide_eq_true. Qed.

Lemma pairs_ok_add {A B} (left : gmap string A) (right : gmap string B) l l' key x :
  pairs_ok left right l -> add_pair (in_map left key && in_map right x) key x l = Ok l' -> pairs_ok left right l'.
Proof.
  intros [Hnd H]. unfold add_pair. case_bool_decide as Hin; [done|].
  destruct (in_map left key && in_map right x) eqn:Hk; [|done]. intros [= <-].
  apply andb_true_iff in Hk as [Hk1%in_map_spec Hk2%in_map_spec]. split.
  - apply NoDup_app. split_and!; [done| |apply NoDup_singleton]. intros y Hy ->%list_elem_of_singleton. done.
  - intros k y [?|[= -> ->]%list_elem_of_singleton]%elem_of_app; auto.
Qed.

Lemma channels_ok_filter policies webhooks l (P : NotificationPolicyChannel -> Prop) `{!forall x, Decision (P x)} :
  channels_ok policies webhooks l -> channels_ok policies webhooks (filter P l).
Proof. intros [Hnd Hr]. split; [by apply NoDup_filter|]. intros c [_ Hin]%list_elem_of_filter. auto. Qed.

Lemma channels_ok_policies policies policies' webhooks l :
  channels_ok policies webhooks l -> (forall c, c ∈ l -> is_Some (policies !! pc_PolicyID c) -> is_Some (policies' !! pc_PolicyID c)) ->
  channels_ok policies' webhooks l.
Proof. intros [Hnd H] Hp. split; [done|]. intros c Hc. destruct (H c Hc) as (H1 & H2 & H3). auto. Qed.

Lemma is_Some_insert {A} (m : gmap string A) id a key : is_Some (m !! key) -> is_Some (<[id := a]> m !! key).
Proof. intros H. destruct (decide (key = id)) as [->|]; [rewrite lookup_insert_eq; eauto|by rewrite lookup_insert_ne]. Qed.

(** ** Statements *)

Class KeepsPolicies {A} (m : DB PolicyTables A) : Prop :=
  keeps_policies : forall default, triple (policies_inv default) m (fun _ => policies_inv default) (policies_inv default).

#[export] Instance ret_policies {A} (a : A) : KeepsPolicies (mret a : DB PolicyTables A).
Proof. intros d. by apply triple_ret. Qed.
#[export] Instance fail_policies {A} (e : error) : KeepsPolicies (fail e : DB PolicyTables A).
Proof. intros d. by apply triple_fail. Qed.
#[export] Instance bind_policies {A B} (m : DB PolicyTables A) (k : A -> DB PolicyTables B) :
  KeepsPolicies m -> (forall a, KeepsPolicies (k a)) -> KeepsPolicies (m ≫= k).
Proof. intros Hm Hk d. eapply triple_bind; [apply Hm|]. intros a. apply Hk. Qed.
#[export] Instance attempt_policies {A} (m : DB PolicyTables A) : KeepsPolicies m -> KeepsPolicies (attempt m).
Proof. intros Hm d. eapply triple_attempt; [apply Hm|]. auto. Qed.
#[export] Instance InTx_policies {A} (m : DB PolicyTables A) : KeepsPolicies m -> KeepsPolicies (InTx m).
Proof. intros Hm d. apply triple_InTx; [|done]. eapply triple_weaken; [apply Hm|done..]. Qed.
#[export] Instance for_each_policies {I} (f : I -> DB PolicyTables unit) items :
  (forall i, KeepsPolicies (f i)) -> KeepsPolicies (for_each f items).
Proof. intros Hf d. apply triple_for_each. intros i _. apply Hf. Qed.
#[export] Instance reads_policies {A} (m : DB PolicyTables A) : Keeps (fun t => t) m -> KeepsPolicies m.
Proof.
  intros Hm d fs t Ht. specialize (Hm fs t). unfold tables_after in Hm.
  by destruct (m fs t) as [[[a|e] t'] fs']; simpl in *; subst.
Qed.

#[export] Hint Extern 1 (KeepsPolicies (if ?b then _ else _)) => destruct b : typeclass_instances.
#[export] Hint Extern 1 (KeepsPolicies (match ?o with _ => _ end)) => destruct o : typeclass_instances.

Lemma statement_policies {A} (effect : PolicyTables -> result (A * PolicyTables)) :
  (forall d t a t', policies_inv d t -> effect t = Ok (a, t') -> policies_inv d t') -> KeepsPolicies (statement effect).
Proof. intros H d. apply triple_statement; [done|]. intros t a t' Ht Heff. split; eauto. Qed.

#[export] Instance create_contact_policies id name email ext at_ : KeepsPolicies (PolicyQueries.CreateNotificationContact id name email ext at_).
Proof.
  apply statement_policies. intros d t a t' [] Heff. cbv zeta in Heff. destruct (contact_checked _) eqn:Hc; [|done]. simpl in Heff.
  destruct (in_map _ _); [done|]. injection Heff as <- <-. split; simpl; auto using pairs_ok_insert_right.
  intros id' row. rewrite lookup_insert_Some. intros [[_ <-]|[_ H]]; eauto.
Qed.

#[export] Instance update_contact_policies id name email ext at_ : KeepsPolicies (PolicyQueries.UpdateNotificationContact id name email ext at_).
Proof.
  apply statement_policies. intros d t a t' [] Heff. destruct (pt_contact t !! id) as [old|]; [|done]. cbv zeta in Heff.
  destruct (contact_checked _) eqn:Hc; [|done]. injection Heff as <- <-. split; simpl; auto using pairs_ok_insert_right.
  intros id' row. rewrite lookup_insert_Some. intros [[_ <-]|[_ H]]; eauto.
Qed.

#[export] Instance delete_contact_policies id : KeepsPolicies (PolicyQueries.DeleteNotificationContact id).
Proof.
  apply statement_policies. intros d t a t' [] Heff. destruct (in_map _ _); injection Heff as <- <-; [|by split].
  split; simpl; auto using pairs_ok_delete_right. intros id' row [_ H]%lookup_delete_Some. eauto.
Qed.

#[export] Instance create_group_policies id name at_ : KeepsPolicies (PolicyQueries.CreateNotificationContactGroup id name at_).
Proof.
  apply statement_policies. intros d t a t' [] Heff. cbv zeta in Heff. destruct (not_blank name) eqn:Hc; [|done]. simpl in Heff.
  destruct (in_map _ _); [done|]. injection Heff as <- <-. split; simpl; auto using pairs_ok_insert_right, pairs_ok_insert_left.
  intros id' row. rewrite lookup_insert_Some. intros [[_ <-]|[_ H]]; eauto.
Qed.

#[export] Instance update_group_policies id name at_ : KeepsPolicies (PolicyQueries.UpdateNotificationContactGroup id name at_).
Proof.
  apply statement_policies. intros d t a t' [] Heff. destruct (pt_group t !! id) as [old|]; [|done]. cbv zeta in Heff.
  destruct (not_blank name) eqn:Hc; [|done]. injection Heff as <- <-. split; simpl; auto using pairs_ok_insert_right, pairs_ok_insert_left.
  intros id' row. rewrite lookup_insert_Some. intros [[_ <-]|[_ H]]; eauto.
Qed.

#[export] Instance delete_group_policies id : KeepsPolicies (PolicyQueries.DeleteNotificationContactGroup id).
Proof.
  apply statement_policies. intros d t a t' [] Heff. destruct (in_map _ _); injection Heff as <- <-; [|by split].
  split; simpl; auto using pairs_ok_delete_right, pairs_ok_delete_left. intros id' row [_ H]%lookup_delete_Some. eauto.
Qed.

#[export] Instance clear_members_policies id : KeepsPolicies (ClearNotificationContactGroupMembers id).
Proof. apply statement_policies. intros d t a t' [] [= <- <-]. split; simpl; auto. by apply pairs_ok_filter. Qed.

#[export] Instance add_member_policies id x : KeepsPolicies (AddNotificationContactGroupMember id x).
Proof.
  apply statement_policies. intros d t a t' [] Heff. destruct (add_pair _ _ _ _) as [l|] eqn:Hl; [|done]. injection Heff as <- <-.
  split; simpl; auto. by eapply pairs_ok_add.
Qed.

(** Writing a policy's row that stays, or stays not, the default. *)
Lemma write_policy d t id row :
  policies_inv d t -> policy_checked row = true ->
  (IsDefault (po_Delivery row) = true <-> exists old, pt_policy t !! id = Some old /\ IsDefault (po_Delivery old) = true) ->
  policies_inv d (with_policy_rows (<[id := row]> (pt_policy t)) t).
Proof.
  intros [(drow & Hd & Hdd) Hod Hpol Hcon Hgr Hmem Hpc Hpg Hch Hru] Hc Hdef.
  split; simpl; auto using pairs_ok_insert_left, is_Some_insert.
  - destruct (decide (id = d)) as [->|Hne]; [|exists drow; by rewrite lookup_insert_ne].
    exists row. rewrite lookup_insert_eq. split; [done|]. apply Hdef. eauto.
  - intros id' row'. rewrite lookup_insert_Some. intros [[<- <-]|[_ H]]; [|by apply Hod].
    intros (old & Ho & Hod')%Hdef. by eapply Hod.
  - intros id' row'. rewrite lookup_insert_Some. intros [[_ <-]|[_ H]]; eauto.
  - eapply channels_ok_policies; [done|]. intros c _. apply is_Some_insert.
Qed.

#[export] Instance create_policy_policies id ident name sev f r n tpl at_ : KeepsPolicies (PolicyQueries.CreateNotificationPolicy id ident name sev f r n tpl at_).
Proof.
  apply statement_policies. intros d t a t' Hinv Heff. cbv zeta in Heff. destruct (policy_checked _) eqn:Hc; [|done]. simpl in Heff.
  destruct (in_map (pt_policy t) id) eqn:Hid; [done|]. simpl in Heff. destruct (identifier_taken _ _); [done|]. injection Heff as <- <-.
  apply write_policy; [done..|]. simpl. split; [done|]. intros (old & Ho & _). apply not_true_iff_false in Hid. destruct Hid.
  apply in_map_spec. eauto.
Qed.

#[export] Instance update_policy_policies id name sev f r n tpl at_ : KeepsPolicies (PolicyQueries.UpdateNotificationPolicy id name sev f r n tpl at_).
Proof.
  apply statement_policies. intros d t a t' Hinv Heff. destruct (pt_policy t !! id) as [old|] eqn:Hid; [|done]. cbv zeta in Heff.
  destruct (policy_checked _) eqn:Hc; [|done]. injection Heff as <- <-. apply write_policy; [done..|]. simpl. rewrite Hid. naive_solver.
Qed.

#[export] Instance delete_policy_policies id : KeepsPolicies (PolicyQueries.DeleteNotificationPolicy id).
Proof.
  apply statement_policies. intros d t a t' [(drow & Hd & Hdd) Hod Hpol Hcon Hgr Hmem Hpc Hpg Hch Hru] Heff.
  assert (policies_inv d t) as Hinv by (split; eauto).
  destruct (pt_policy t !! id) as [row|] eqn:Hid; [|by injection Heff as <- <-].
  destruct (IsDefault (po_Delivery row)) eqn:Hdef; [by injection Heff as <- <-|]. case_bool_decide as Hrule; [done|]. injection Heff as <- <-.
  assert (id <> d) as Hne by congruence. split; simpl; auto using pairs_ok_delete_left.
  - exists drow. by rewrite lookup_delete_ne.
  - intros id' row' [_ H]%lookup_delete_Some. eauto.
  - intros id' row' [_ H]%lookup_delete_Some. eauto.
  - apply (channels_ok_policies (pt_policy t)); [by apply channels_ok_filter|]. intros c [Hc _]%list_elem_of_filter. by rewrite lookup_delete_ne.
  - intros id' H'. rewrite lookup_delete_ne; [auto|]. congruence.
Qed.

#[export] Instance clear_policy_contacts_policies id : KeepsPolicies (ClearNotificationPolicyContacts id).
Proof. apply statement_policies. intros d t a t' [] [= <- <-]. split; simpl; auto. by apply pairs_ok_filter. Qed.
#[export] Instance clear_policy_groups_policies id : KeepsPolicies (ClearNotificationPolicyContactGroups id).
Proof. apply statement_policies. intros d t a t' [] [= <- <-]. split; simpl; auto. by apply pairs_ok_filter. Qed.
#[export] Instance clear_channels_policies id : KeepsPolicies (ClearNotificationPolicyChannels id).
Proof. apply statement_policies. intros d t a t' [] [= <- <-]. split; simpl; auto. by apply channels_ok_filter. Qed.

#[export] Instance add_policy_contact_policies id x : KeepsPolicies (AddNotificationPolicyContact id x).
Proof.
  apply statement_policies. intros d t a t' [] Heff. destruct (add_pair _ _ _ _) as [l|] eqn:Hl; [|done]. injection Heff as <- <-.
  split; simpl; auto. by eapply pairs_ok_add.
Qed.
#[export] Instance add_policy_group_policies id x : KeepsPolicies (AddNotificationPolicyContactGroup id x).
Proof.
  apply statement_policies. intros d t a t' [] Heff. destruct (add_pair _ _ _ _) as [l|] eqn:Hl; [|done]. injection Heff as <- <-.
  split; simpl; auto. by eapply pairs_ok_add.
Qed.

#[export] Instance add_channel_policies id ch target : KeepsPolicies (AddNotificationPolicyChannel id ch target).
Proof.
  apply statement_policies. intros d t a t' [? ? ? ? ? ? ? ? [Hnd Hall] ?] Heff. destruct (channel_checked _) eqn:Hc; [|done]. simpl in Heff.
  case_bool_decide as Hin; [done|]. destruct (_ && _) eqn:Hk; [|done]. injection Heff as <- <-.
  apply andb_true_iff in Hk as [Hk1%in_map_spec Hk2]. split; simpl; auto. split.
  - apply NoDup_app. split_and!; [done| |apply NoDup_singleton]. intros y Hy ->%list_elem_of_singleton. done.
  - intros c [?| ->%list_elem_of_singleton]%elem_of_app; [auto|]. split_and!; [done|done|]. simpl. intros i ->. by apply in_map_spec.
Qed.

#[export] Instance delete_webhook_policies id : KeepsPolicies (DeleteWebhookTarget id).
Proof.
  apply statement_policies. intros d t a t' [] Heff. destruct (in_map _ _); injection Heff as <- <-; [|by split].
  split; simpl; auto. destruct inv_channel0 as [Hnd Hall]. split; [by apply NoDup_filter|].
  intros c [Hne Hin]%list_elem_of_filter. destruct (Hall c Hin) as (H1 & H2 & H3). split_and!; [done..|].
  intros i Hi. rewrite lookup_delete_ne by congruence. auto.
Qed.

(** ** Handlers *)

Ltac selects := apply statement_keeps; intros t a t' Ha; case_match; congruence.

#[export] Instance get_contact_reads id : Keeps (fun t => t) (GetNotificationContact id).
Proof. selects. Qed.
#[export] Instance get_group_reads id : Keeps (fun t => t) (GetNotificationContactGroup id).
Proof. selects. Qed.
#[export] Instance get_policy_reads id : Keeps (fun t => t) (GetNotificationPolicy id).
Proof. selects. Qed.
#[export] Instance get_webhook_reads id : Keeps (fun t => t) (GetWebhookTarget id).
Proof. selects. Qed.

#[export] Instance reference_reads {A} (m : DB PolicyTables A) : Keeps (fun t => t) m -> Keeps (fun t => t) (reference m).
Proof. intros Hm. unfold reference. apply _. Qed.
#[export] Instance contacts_exist_reads ids : Keeps (fun t => t) (notificationContactsExist ids).
Proof. apply _. Qed.
#[export] Instance references_exist_reads values : Keeps (fun t => t) (notificationPolicyReferencesExist values).
Proof. unfold notificationPolicyReferencesExist. apply _. Qed.
#[export] Instance api_group_reads entry : Keeps (fun t => t) (toAPINotificationContactGroup entry).
Proof. destruct entry. apply _. Qed.
#[export] Instance api_policy_reads entry : Keeps (fun t => t) (toAPINotificationPolicy entry).
Proof. destruct entry. apply _. Qed.
#[export] Instance api_group_propagates entry : Propagates (toAPINotificationContactGroup entry).
Proof. destruct entry. apply _. Qed.
#[export] Instance api_policy_propagates entry : Propagates (toAPINotificationPolicy entry).
Proof. destruct entry. apply _. Qed.
#[export] Instance or_404_policies {A B} message (m : DB PolicyTables A) (k : A -> DB PolicyTables (response B)) :
  KeepsPolicies m -> (forall a, KeepsPolicies (k a)) -> KeepsPolicies (or_404 message m k).
Proof. intros Hm Hk. unfold or_404. apply _. Qed.

(** The requests, with the ids they draw. *)
Inductive policy_call : Type :=
  | CallCreateContact (newID : string) (body : option NotificationContactInput)
  | CallUpdateContact (id : string) (body : option NotificationContactInput)
  | CallDeleteContact (id : string)
  | CallCreateGroup (newID : string) (body : option NotificationContactGroupInput)
  | CallUpdateGroup (id : string) (body : option NotificationContactGroupInput)
  | CallDeleteGroup (id : string)
  | CallCreatePolicy (newID : string) (body : option NotificationPolicyInput)
  | CallUpdatePolicy (id : string) (body : option NotificationPolicyInput)
  | CallDeletePolicy (id : string)
  | CallDeleteWebhook (id : string).

Section Calls.
Context (ParseAddress : string -> option string) (repeatMinimum : Duration).

Definition run_policy_call (now : Time) (c : policy_call) : DB PolicyTables unit :=
  match c with
  | CallCreateContact newID body => CreateNotificationContact ParseAddress now newID body ;; mret tt
  | CallUpdateContact id body => UpdateNotificationContact ParseAddress now id body ;; mret tt
  | CallDeleteContact id => DeleteNotificationContact id ;; mret tt
  | CallCreateGroup newID body => CreateNotificationContactGroup now newID body ;; mret tt
  | CallUpdateGroup id body => UpdateNotificationContactGroup now id body ;; mret tt
  | CallDeleteGroup id => DeleteNotificationContactGroup id ;; mret tt
  | CallCreatePolicy newID body => CreateNotificationPolicy repeatMinimum now newID body ;; mret tt
  | CallUpdatePolicy id body => UpdateNotificationPolicy repeatMinimum now id body ;; mret tt
  | CallDeletePolicy id => DeleteNotificationPolicy id ;; mret tt
  | CallDeleteWebhook id => DeleteWebhookTarget id ;; mret tt
  end.

Inductive policies_reached (t0 : PolicyTables) : PolicyTables -> Prop :=
  | policies_start : policies_reached t0 t0
  | policies_call now c fs t : policies_reached t0 t -> policies_reached t0 (tables_after (run_policy_call now c) fs t).

Lemma run_policy_call_policies now c : KeepsPolicies (run_policy_call now c).
Proof.
  destruct c; simpl; apply bind_policies; try (intros; apply _);
    unfold CreateNotificationContact, UpdateNotificationContact, DeleteNotificationContact, CreateNotificationContactGroup,
      UpdateNotificationContactGroup, DeleteNotificationContactGroup, CreateNotificationPolicy, UpdateNotificationPolicy,
      DeleteNotificationPolicy, create_policy_tx, update_policy_tx, replaceNotificationContactGroupMembers,
      replaceNotificationPolicyAssociations; apply _.
Qed.
End Calls.

(** The default policy as the dispatcher finds it. *)
Lemma view_default_policy d t n : policies_inv d t -> default_policy (policy_view t n) = Some d.
Proof.
  intros [(row & Hd & Hdd) Honly _ _ _ _ _ _ _ _]. unfold default_policy. cbn [n_policy policy_view].
  assert (forall e, e ∈ filter (fun p : string * NotificationPolicy => IsDefault p.2 = true) (map_to_list (po_Delivery <$> pt_policy t)) -> e.1 = d) as Hall.
  { intros [id p] [Hp (row' & <- & Hr)%elem_of_map_to_list%lookup_fmap_Some]%list_elem_of_filter. by eapply Honly. }
  destruct (filter _ _) as [|[id p] l] eqn:E.
  - exfalso. apply (not_elem_of_nil (d, po_Delivery row)). rewrite <-E.
    apply list_elem_of_filter. split; [done|]. apply elem_of_map_to_list. by rewrite lookup_fmap, Hd.
  - simpl. f_equal. apply (Hall (id, p)). left.
Qed.

(** C35. Whatever the requests about contacts, groups, policies and webhook targets and
    whatever faults the database has under them: there is exactly one default policy
    and it stays the same one, so the dispatcher always finds a policy for an alert
    whose rule names none; a policy that a rule names is never deleted; every policy
    keeps a severity filter of known severities and a repeat interval of 1 to 86400
    seconds; and no association of a policy, group, contact or channel is there twice
    or refers to a row that does not exist. *)
Theorem policies_stay_consistent (ParseAddress : string -> option string) (repeatMinimum : Duration) (default : string)
    (t0 t : PolicyTables) :
  policies_inv default t0 -> policies_reached ParseAddress repeatMinimum t0 t ->
  policies_inv default t /\ forall n, default_policy (policy_view t n) = Some default.
Proof.
  intros H0 H. cut (policies_inv default t); [intros Hi; split; [done|]; intros n; by apply view_default_policy|].
  induction H as [|now c fs t H IH]; [done|]. apply triple_tables; [|done]. apply run_policy_call_policies.
Qed.

(** * The repeat interval *)

(** The values of an accepted request. *)
Record accepted_values (repeatMinimum : Duration) (input : NotificationPolicyInput) (values : notificationPolicyInputValues) : Prop := MkAccepted {
  acc_interval : pv_repeatInterval values = pi_RepeatInterval input;
  acc_bounds : repeatMinimum / Second <= pi_RepeatInterval input <= 86400;
  acc_name : pv_name values = TrimSpace (pi_Name input) /\ pv_name values <> EmptyString;
  acc_contacts : pv_contactIDs values = pi_ContactIds input /\ NoDup (pi_ContactIds input);
  acc_groups : pv_contactGroupIDs values = pi_ContactGroupIds input /\ NoDup (pi_ContactGroupIds input);
  acc_channels : pv_channels values = pi_Channels input /\ pi_Channels input <> [] /\ NoDup (policy_channel_key <$> pi_Channels input);
  acc_severities : pv_severityFilter values = pi_SeverityFilter input /\ pi_SeverityFilter input <> [] /\ NoDup (pi_SeverityFilter input) /\
    Forall (fun s => s ∈ severities) (pi_SeverityFilter input);
  acc_events : pv_notifyOnFire values = pi_NotifyOnFire input /\ pv_notifyOnRecovery values = pi_NotifyOnRecovery input;
}.

Lemma policy_values repeatMinimum input values :
  Second <= repeatMinimum -> notificationPolicyValues repeatMinimum (Some input) = Some values -> accepted_values repeatMinimum input values.
Proof.
  intros Hmin. unfold notificationPolicyValues, minimumRepeatIntervalSeconds, maximumNotificationRepeatIntervalSeconds. simpl.
  rewrite Z.quot_div_nonneg by (unfold Second in *; lia).
  destruct (Z.ltb_spec (pi_RepeatInterval input) (repeatMinimum / Second)); [done|].
  destruct (Z.ltb_spec 86400 (pi_RepeatInterval input)); [done|]. simpl.
  assert (1 <= repeatMinimum / Second) as H1 by (apply Z.div_le_lower_bound; unfold Second in *; lia).
  unfold uniqueDatabaseUUIDs, notificationPolicySeverityFilter.
  destruct (has_duplicate (pi_ContactIds input)) eqn:Hc; [done|]. simpl. case_bool_decide as Hn; [done|].
  destruct (has_duplicate (pi_ContactGroupIds input)) eqn:Hg; [done|]. simpl.
  destruct (bool_decide_reflect (pi_SeverityFilter input = [])) as [|Hs]; [done|].
  destruct (has_duplicate (pi_SeverityFilter input)) eqn:Hsd; [done|].
  destruct (forallb _ (pi_SeverityFilter input)) eqn:Hsa; [|done]. simpl.
  destruct (validNotificationPolicyChannels (pi_Channels input)) eqn:Hch; [|done]. simpl.
  destruct (optional_text (pi_TemplateId input)) as [tpl|]; [|done]. simpl. intros [= <-]. simpl.
  unfold validNotificationPolicyChannels in Hch. apply andb_true_iff in Hch as [[Hch1 _]%andb_true_iff Hch3].
  apply negb_true_iff, bool_decide_eq_false in Hch1. apply negb_true_iff, has_duplicate_NoDup in Hch3.
  apply has_duplicate_NoDup in Hc, Hg, Hsd.
  assert (in_int32 (pi_RepeatInterval input)) as H32 by (unfold in_int32; lia).
  split; simpl; rewrite ?int32_id by done; [done|lia|done|done|done|done| |done]. split_and!; [done..|].
  apply Forall_forall. intros s Hin. apply (bool_decide_eq_true_1 _). by apply (proj1 (forallb_forall _ _) Hsa), list_elem_of_In.
Qed.

(** A policy request is accepted only with a repeat interval between the
    configured minimum and a day, a name, at least one channel and one severity, and
    nothing twice; what is then stored is the interval requested, which the 32 bits
    of the column hold, and which the table accepts whenever the minimum is at least a
    second. *)
Theorem accepted_interval_is_stored (repeatMinimum : Duration) (input : NotificationPolicyInput) (values : notificationPolicyInputValues) :
  Second <= repeatMinimum -> notificationPolicyValues repeatMinimum (Some input) = Some values ->
  pv_repeatInterval values = pi_RepeatInterval input /\
  repeatMinimum / Second <= pi_RepeatInterval input <= 86400 /\ 1 <= pi_RepeatInterval input /\ in_int32 (pi_RepeatInterval input) /\
  pv_name values <> EmptyString /\ pv_channels values = pi_Channels input /\ pi_Channels input <> [] /\
  NoDup (policy_channel_key <$> pi_Channels input) /\
  pv_severityFilter values = pi_SeverityFilter input /\ pi_SeverityFilter input <> [] /\ NoDup (pi_SeverityFilter input) /\
  Forall (fun s => s ∈ severities) (pi_SeverityFilter input) /\
  NoDup (pv_contactIDs values) /\ NoDup (pv_contactGroupIDs values).
Proof.
  intros Hmin [Hi Hb [_ Hn] [-> Hc] [-> Hg] (-> & Hch & Hkey) (-> & Hs & Hnd & Hall) _]%policy_values; [|done].
  assert (1 <= repeatMinimum / Second) as H1 by (apply Z.div_le_lower_bound; unfold Second in *; lia).
  split_and!; try done || lia. unfold in_int32. lia.
Qed.

(** * What a saved policy sends *)

Definition channel_rows (id : string) (channels : list APIPolicyChannel) : list NotificationPolicyChannel :=
  (fun c => MkNotificationPolicyChannel id (pch_Channel c) (pch_TargetId c)) <$> channels.

(** The tables once the associations of policy [id] are replaced. *)
Definition associated (id : string) (values : notificationPolicyInputValues) (t : PolicyTables) : PolicyTables :=
  with_channels (filter (fun c => pc_PolicyID c <> id) (pt_channel t) ++ channel_rows id (pv_channels values))
    (with_policy_groups (clear_pairs id (pt_policy_group t) ++ ((fun g => (id, g)) <$> pv_contactGroupIDs values))
       (with_policy_contacts (clear_pairs id (pt_policy_contact t) ++ ((fun c => (id, c)) <$> pv_contactIDs values)) t)).

(** A statement from one state of the tables. *)
Lemma step_at {A B} (effect : PolicyTables -> result (A * PolicyTables)) (k : A -> DB PolicyTables B) t1 Q :
  (forall a t2, effect t1 = Ok (a, t2) -> triple (fun t => t = t2) (k a) Q (fun _ => True)) ->
  triple (fun t => t = t1) (statement effect ≫= k) Q (fun _ => True).
Proof.
  intros H. apply (triple_bind _ _ _ (fun a t => effect t1 = Ok (a, t))).
  { apply triple_statement; [done|]. intros t a t' -> Heff. auto. }
  intros a. apply triple_at. intros t2 Ht2. by apply H.
Qed.

(** A loop of additions appends its rows. *)
Lemma adds_all {I} (put : list I -> PolicyTables -> PolicyTables) (f : I -> DB PolicyTables unit) items t1 :
  (forall done i, triple (fun t => t = put done t1) (f i) (fun _ t => t = put (done ++ [i]) t1) (fun _ => True)) -> put [] t1 = t1 ->
  triple (fun t => t = t1) (for_each f items) (fun _ t => t = put items t1) (fun _ => True).
Proof.
  intros Hf H0. eapply triple_weaken; [apply (triple_for_each_prefix (fun done t => t = put done t1)), Hf|intros t ->; done|done|done].
Qed.

Lemma add_pair_Ok known key x l l' : add_pair known key x l = Ok l' -> l' = l ++ [(key, x)].
Proof. unfold add_pair. case_bool_decide; [done|]. destruct known; congruence. Qed.

Lemma replace_associates id values t1 :
  triple (fun t => t = t1) (replaceNotificationPolicyAssociations id values) (fun _ t => t = associated id values t1) (fun _ => True).
Proof.
  unfold replaceNotificationPolicyAssociations.
  apply step_at. intros [] t2 [= <-]. apply step_at. intros [] t3 [= <-]. apply step_at. intros [] t4 [= <-].
  eapply triple_bind; [apply (adds_all (fun done t => with_policy_contacts (pt_policy_contact t ++ ((fun c => (id, c)) <$> done)) t));
    [|simpl; by rewrite app_nil_r]|].
  { intros done i. apply triple_statement; [done|]. intros t [] t' -> Heff. simpl in Heff.
    destruct (add_pair _ _ _ _) as [l|] eqn:Hl; [|done]. injection Heff as <-. apply add_pair_Ok in Hl as ->. by rewrite fmap_app, app_assoc. }
  intros []. eapply triple_bind; [apply (adds_all (fun done t => with_policy_groups (pt_policy_group t ++ ((fun c => (id, c)) <$> done)) t));
    [|simpl; by rewrite app_nil_r]|].
  { intros done i. apply triple_statement; [done|]. intros t [] t' -> Heff. simpl in Heff.
    destruct (add_pair _ _ _ _) as [l|] eqn:Hl; [|done]. injection Heff as <-. apply add_pair_Ok in Hl as ->. by rewrite fmap_app, app_assoc. }
  intros []. apply (adds_all (fun done t => with_channels (pt_channel t ++ channel_rows id done) t));
    [|unfold channel_rows; simpl; by rewrite app_nil_r].
  intros done i. apply triple_statement; [done|]. intros t [] t' -> Heff. simpl in Heff. destruct (channel_checked _); [|done]. simpl in Heff.
  case_bool_decide; [done|]. destruct (_ && _); [|done]. injection Heff as <-. unfold channel_rows. by rewrite fmap_app, app_assoc.
Qed.

(** ** The dispatcher's view of the associations *)

Lemma members_pairs (id : string) (xs : list string) key : members ((fun x => (id, x)) <$> xs) key = if decide (id = key) then xs else [].
Proof.
  unfold members. induction xs as [|x xs IH]; [by destruct (decide (id = key))|]. rewrite fmap_cons.
  destruct (decide (id = key)) as [H|H].
  - rewrite filter_cons_True by done. rewrite fmap_cons. by rewrite IH.
  - rewrite filter_cons_False by done. done.
Qed.

Lemma members_replaced l id xs key :
  members (clear_pairs id l ++ ((fun x => (id, x)) <$> xs)) key = if decide (id = key) then xs else members l key.
Proof.
  unfold clear_pairs. rewrite members_app, members_pairs. case_decide as H; [subst; by rewrite members_cleared|].
  by rewrite members_other, app_nil_r by done.
Qed.

(** The channels of one policy. *)
Definition channels_of (l : list NotificationPolicyChannel) (id : string) : list NotificationPolicyChannel :=
  filter (fun c => pc_PolicyID c = id) l.

Lemma channels_replaced l id channels key :
  channels_of (filter (fun c => pc_PolicyID c <> id) l ++ channel_rows id channels) key =
  if decide (id = key) then channel_rows id channels else channels_of l key.
Proof.
  unfold channels_of, channel_rows. rewrite filter_app, list_filter_filter. case_decide as H.
  - subst. rewrite filter_none, app_nil_l by naive_solver. apply filter_all. by intros c (? & -> & _)%list_elem_of_fmap.
  - rewrite (filter_none _ (_ <$> channels)), app_nil_r.
    + apply list_filter_iff. naive_solver.
    + intros c (? & -> & _)%list_elem_of_fmap. simpl. congruence.
Qed.

(** [destinations] depends on the policy's own channels and associations only. *)
Definition destinations_of (n : NotifyTables) (channels : list NotificationPolicyChannel) (contacts groups : list string)
    : list (string * option string * string) :=
  let smtp := bool_decide (Exists (fun c => pc_Channel c = "SMTP") channels) in
  let emails := if smtp then
      remove_dups (omap (fun contact => n_contact_email n !! contact) (contacts ++ (groups ≫= members (n_group_member n)))) else [] in
  (match n_smtp n with
   | Some (true, recipient) =>
       (fun target => ("SMTP", None, target)) <$> (if bool_decide (emails = []) then (if smtp then [recipient] else []) else emails)
   | _ => []
   end) ++
  omap (fun c => if bool_decide (pc_Channel c = "WEBHOOK") then
      id ← pc_ChannelTargetID c; '(enabled, url) ← n_webhook n !! id; if (enabled : bool) then Some ("WEBHOOK", Some id, url) else None
    else None) channels.

Lemma omap_filter {A B} (P : A -> Prop) `{!forall x, Decision (P x)} (f : A -> option B) (l : list A) :
  omap (fun x => if bool_decide (P x) then f x else None) l = omap f (filter P l).
Proof.
  induction l as [|x l IH]; [done|]. csimpl. destruct (decide (P x)) as [Hx|Hx].
  - rewrite bool_decide_true, filter_cons_True by done. csimpl. destruct (f x); by rewrite IH.
  - rewrite bool_decide_false, filter_cons_False by done. done.
Qed.

Lemma destinations_split n id :
  destinations n id = destinations_of n (channels_of (n_policy_channel n) id) (members (n_policy_contact n) id) (members (n_policy_contact_group n) id).
Proof.
  unfold destinations, destinations_of, smtp_recipients.
  assert (has_channel n id "SMTP" = bool_decide (Exists (fun c => pc_Channel c = "SMTP") (channels_of (n_policy_channel n) id))) as ->.
  { unfold has_channel, channels_of. apply bool_decide_ext. rewrite !Exists_exists. setoid_rewrite list_elem_of_filter. naive_solver. }
  f_equal. unfold channels_of. rewrite <-omap_filter. apply list_omap_ext, Forall_Forall2_diag, Forall_true. intros c.
  rewrite bool_decide_and. by destruct (bool_decide (pc_PolicyID c = id)), (bool_decide (pc_Channel c = "WEBHOOK")).
Qed.

(** ** Requests that save a policy *)

Definition delivery_of (isDefault : bool) (values : notificationPolicyInputValues) : NotificationPolicy :=
  MkNotificationPolicy isDefault (pv_severityFilter values) (pv_notifyOnFire values) (pv_notifyOnRecovery values) (pv_repeatInterval values).

(** What is saved of a request. *)
Definition policy_saved (id : string) (values : notificationPolicyInputValues) (t1 : PolicyTables) (r : string * PolicyRow) (t : PolicyTables) : Prop :=
  exists row isDefault, r = (id, row) /\ po_Delivery row = delivery_of isDefault values /\
    t = associated id values (with_policy_rows (<[id := row]> (pt_policy t1)) t1).

Lemma references_then {B} values (k : unit -> DB PolicyTables B) t1 Q :
  triple (fun t => t = t1) (k tt) Q (fun _ => True) ->
  triple (fun t => t = t1) (notificationPolicyReferencesExist values ≫= k) Q (fun _ => True).
Proof.
  intros H. apply (triple_bind _ _ _ (fun _ t => t = t1)); [|intros []; exact H]. intros fs t ->.
  pose proof (keeps fs t1 (f := fun t => t) (m := notificationPolicyReferencesExist values)) as Hk. unfold tables_after in Hk.
  by destruct (notificationPolicyReferencesExist values fs t1) as [[[a|e] t'] fs'].
Qed.

Lemma create_tx_saved now id values t1 :
  triple (fun t => t = t1) (create_policy_tx now id values) (policy_saved id values t1) (fun _ => True).
Proof.
  apply references_then. apply step_at. intros [id' row] t2. cbv zeta. destruct (negb _); [done|]. destruct (_ || _); [done|].
  intros [= <- <- <-]. eapply triple_bind; [apply replace_associates|]. intros []. apply triple_ret. intros t ->. by do 2 eexists.
Qed.

Lemma update_tx_saved now id values t1 :
  triple (fun t => t = t1) (update_policy_tx now id values) (policy_saved id values t1) (fun _ => True).
Proof.
  apply references_then. apply step_at. intros [id' row] t2. destruct (pt_policy t1 !! id) as [old|]; [|done]. cbv zeta.
  destruct (negb _); [done|]. intros [= <- <- <-]. eapply triple_bind; [apply replace_associates|]. intros []. apply triple_ret.
  intros t ->. by do 2 eexists.
Qed.

(** The policy of a request as it is answered. *)
Definition answered (id : string) (input : NotificationPolicyInput) (item : APIPolicy) : Prop :=
  apo_Id item = id /\ apo_ContactIds item ≡ₚ pi_ContactIds input /\ apo_ContactGroupIds item ≡ₚ pi_ContactGroupIds input /\
  apo_Channels item ≡ₚ pi_Channels input /\ apo_SeverityFilter item = pi_SeverityFilter input /\
  apo_NotifyOnFire item = pi_NotifyOnFire input /\ apo_NotifyOnRecovery item = pi_NotifyOnRecovery input /\
  apo_RepeatInterval item = pi_RepeatInterval input.

Lemma policy_answer id row t fs item t' fs' :
  toAPINotificationPolicy (id, row) fs t = (Ok item, t', fs') ->
  let d := po_Delivery row in
  apo_Id item = id /\ apo_ContactIds item ≡ₚ members (pt_policy_contact t) id /\ apo_ContactGroupIds item ≡ₚ members (pt_policy_group t) id /\
  apo_Channels item ≡ₚ (fun c => MkAPIChannel (pc_Channel c) (pc_ChannelTargetID c)) <$> channels_of (pt_channel t) id /\
  apo_SeverityFilter item = SeverityFilter d /\ apo_NotifyOnFire item = NotifyOnFire d /\
  apo_NotifyOnRecovery item = NotifyOnRecovery d /\ apo_RepeatInterval item = RepeatInterval d.
Proof.
  intros H%(propagates (m := toAPINotificationPolicy (id, row))). unfold toAPINotificationPolicy, mbind, DB_bind, mret, DB_ret in H. simpl in H.
  injection H as <-. simpl. rewrite !sort_by_perm, <-list_fmap_compose. done.
Qed.


(** An answered request has saved its values. *)
Lemma answered_saved repeatMinimum now id input fs fs' t t' item :
  CreateNotificationPolicy repeatMinimum now id (Some input) fs t = (Ok (R201 item), t', fs') \/
  UpdateNotificationPolicy repeatMinimum now id (Some input) fs t = (Ok (R200 item), t', fs') ->
  exists values r fs1 fs2, notificationPolicyValues repeatMinimum (Some input) = Some values /\ policy_saved id values t r t' /\
    toAPINotificationPolicy r fs1 t' = (Ok item, t', fs2).
Proof.
  assert (forall B (f : APIPolicy -> response B) r fs1 t1 x fs2, (item ← toAPINotificationPolicy r; mret (f item)) fs1 t1 = (Ok x, t1, fs2) ->
    exists item', x = f item' /\ toAPINotificationPolicy r fs1 t1 = (Ok item', t1, fs2)) as Hret.
  { intros B f r fs1 t1 x fs2. unfold mbind, DB_bind, mret, DB_ret.
    destruct (toAPINotificationPolicy r fs1 t1) as [[[item'|e] t2] fs3]; [|done]. intros [= <- -> ->]. eauto. }
  unfold CreateNotificationPolicy, UpdateNotificationPolicy. destruct (notificationPolicyValues _ _) as [values|] eqn:Hv.
  2: { unfold mret, DB_ret. intros [?|?]; congruence. }
  intros [H|H].
  - destruct (attempt_tx _ _ _ _ _ _ _ _ H (create_tx_saved now id values t)) as (r & fs1 & Hs & Hk); [intros a; apply _| |].
    + intros e fs1 t1 t2 fs2. case_bool_decide; unfold mret, DB_ret, fail; congruence.
    + apply Hret in Hk as (item' & [= <-] & Hk). eauto 10.
  - destruct (attempt_tx _ _ _ _ _ _ _ _ H (update_tx_saved now id values t)) as (r & fs1 & Hs & Hk); [intros a; apply _| |].
    + intros e fs1 t1 t2 fs2. destruct (is_no_rows e); [|case_bool_decide]; unfold mret, DB_ret, fail; congruence.
    + apply Hret in Hk as (item' & [= <-] & Hk). eauto 10.
Qed.

(** The channels and associations of each policy once those of one are replaced. *)
Lemma associated_views id values t key :
  let t' := associated id values t in
  channels_of (pt_channel t') key = (if decide (id = key) then channel_rows id (pv_channels values) else channels_of (pt_channel t) key) /\
  members (pt_policy_contact t') key = (if decide (id = key) then pv_contactIDs values else members (pt_policy_contact t) key) /\
  members (pt_policy_group t') key = (if decide (id = key) then pv_contactGroupIDs values else members (pt_policy_group t) key).
Proof. split_and!; [apply channels_replaced|apply members_replaced..]. Qed.

Lemma api_channels id channels :
  (fun c => MkAPIChannel (pc_Channel c) (pc_ChannelTargetID c)) <$> channel_rows id channels = channels.
Proof. unfold channel_rows. rewrite <-list_fmap_compose. rewrite <-(list_fmap_id channels) at 2. apply list_fmap_ext. by intros ? [] ?. Qed.

(** C13. A policy that is accepted and answered says what will be sent, and nothing else
    changes: the answer carries the request's contacts, groups, channels, severities,
    events and interval, each as given (lists in another order); the policy the
    dispatcher finds under the id filters and repeats as requested; its destinations
    are computed from exactly the requested channels, contacts and groups; and the
    destinations of every other policy are what they were. *)
Theorem saved_policy_is_the_request (repeatMinimum : Duration) (now : Time) (id : string) (input : NotificationPolicyInput)
    (fs fs' : list fate) (t t' : PolicyTables) (n : NotifyTables) (item : APIPolicy) :
  Second <= repeatMinimum ->
  CreateNotificationPolicy repeatMinimum now id (Some input) fs t = (Ok (R201 item), t', fs') \/
  UpdateNotificationPolicy repeatMinimum now id (Some input) fs t = (Ok (R200 item), t', fs') ->
  answered id input item /\
  (exists isDefault, n_policy (policy_view t' n) !! id =
     Some (MkNotificationPolicy isDefault (pi_SeverityFilter input) (pi_NotifyOnFire input) (pi_NotifyOnRecovery input) (pi_RepeatInterval input))) /\
  destinations (policy_view t' n) id =
    destinations_of (policy_view t' n) (channel_rows id (pi_Channels input)) (pi_ContactIds input) (pi_ContactGroupIds input) /\
  (forall other, other <> id -> destinations (policy_view t' n) other = destinations (policy_view t n) other).
Proof.
  intros Hmin (values & r & fs1 & fs2 & Hv & (row & isDefault & -> & Hrow & ->) & Hitem)%answered_saved.
  apply policy_values in Hv as [Hi _ _ [Hc _] [Hg _] (Hch & _) (Hs & _) [Hf Hr]]; [|done].
  set (t1 := with_policy_rows (<[id := row]> (pt_policy t)) t) in *.
  destruct (associated_views id values t1 id) as (H1 & H2 & H3). rewrite !decide_True in H1 by done. rewrite !decide_True in H2 by done. rewrite !decide_True in H3 by done.
  split; [|split; [|split]].
  - apply policy_answer in Hitem. rewrite H1, H2, H3, api_channels, Hrow in Hitem. unfold answered. rewrite <-Hi, <-Hc, <-Hg, <-Hch, <-Hs, <-Hf, <-Hr.
    exact Hitem.
  - exists isDefault. simpl. rewrite lookup_fmap, lookup_insert_eq. simpl. rewrite Hrow. unfold delivery_of. congruence.
  - rewrite destinations_split. cbn [n_policy_channel n_policy_contact n_policy_contact_group policy_view]. by rewrite H1, H2, H3, Hch, Hc, Hg.
  - intros other Hne. destruct (associated_views id values t1 other) as (H1' & H2' & H3'). rewrite !decide_False in H1' by done.
    rewrite !decide_False in H2' by done. rewrite !decide_False in H3' by done.
    rewrite !destinations_split. cbn [n_policy_channel n_policy_contact n_policy_contact_group policy_view]. by rewrite H1', H2', H3'.
Qed.

(** * A run *)

Module PolicyDemo.
Definition policy (isDefault : bool) : PolicyRow :=
  MkPolicyRow "default" "default" (MkNotificationPolicy isDefault ["critical"; "warning"; "info"] true true 3600) None 0 0.
Definition start : PolicyTables :=
  MkPolicyTables {["c1" := MkContactRow "ops" "ops@example.com" None 0 0]} ∅ [] {["p0" := policy true]} [] []
    [MkNotificationPolicyChannel "p0" "SMTP" None] {["w1" := (true, "https://hook.example.com")]} {["p0"]}.
Definition notify : NotifyTables :=
  MkNotifyTables ∅ [] ∅ ∅ ∅ [] [] [] [] ∅ (Some (true, "fallback@example.com")) ∅ [] [] ∅ [] ∅ [].
Definition input : NotificationPolicyInput :=
  MkPolicyInput "night shift" ["c1"] [] [MkAPIChannel "SMTP" None; MkAPIChannel "WEBHOOK" (Some "w1")] ["critical"] true false 1800 None.
Definition created : PolicyTables := tables_after (run_policy_call Some (15 * Minute) 0 (CallCreatePolicy "p1" (Some input))) [] start.
Definition hook_only : NotificationPolicyInput :=
  MkPolicyInput "hook" [] [] [MkAPIChannel "WEBHOOK" (Some "w1")] ["critical"] true false 1800 None.
Definition silenced : PolicyTables :=
  tables_after (run_policy_call Some (15 * Minute) 0 (CallDeleteWebhook "w1")) []
    (tables_after (run_policy_call Some (15 * Minute) 0 (CallUpdatePolicy "p1" (Some hook_only))) [] created).
End PolicyDemo.

Example policy_sends :
  destinations (policy_view PolicyDemo.created PolicyDemo.notify) "p1" =
    [("SMTP", None, "ops@example.com"); ("WEBHOOK", Some "w1", "https://hook.example.com")].
Proof. reflexivity. Qed.

(** A request needs a channel, but the deletion of a webhook target can take the last
    one of a policy away: the policy stays and sends nothing. *)
Example deleting_a_target_silences_a_policy :
  is_Some (pt_policy PolicyDemo.silenced !! "p1") /\ destinations (policy_view PolicyDemo.silenced PolicyDemo.notify) "p1" = [].
Proof. split; [by eexists|reflexivity]. Qed.

Lemma demo_start_inv : policies_inv "p0" PolicyDemo.start.
Proof.
  split; simpl.
  - eexists. by rewrite lookup_singleton_eq.
  - intros id row [<- _]%lookup_singleton_Some. done.
  - by intros id row [_ <-]%lookup_singleton_Some.
  - by intros id row [_ <-]%lookup_singleton_Some.
  - intros id row. by rewrite lookup_empty.
  - split; [constructor|]. intros key x []%elem_of_nil.
  - split; [constructor|]. intros key x []%elem_of_nil.
  - split; [constructor|]. intros key x []%elem_of_nil.
  - split; [apply NoDup_singleton|]. intros c ->%list_elem_of_singleton. simpl. rewrite lookup_singleton_eq. split_and!; [done|by eexists|done].
  - intros id ->%elem_of_singleton. rewrite lookup_singleton_eq. by eexists.
Qed.

Lemma policies_stay_consistent_witness :
  policies_inv "p0" PolicyDemo.created /\ forall n, default_policy (policy_view PolicyDemo.created n) = Some "p0".
Proof.
  apply (policies_stay_consistent Some (15 * Minute) "p0" PolicyDemo.start); [apply demo_start_inv|].
  apply policies_call, policies_start.
Defined.

Lemma accepted_interval_is_stored_witness :
  exists values, notificationPolicyValues (15 * Minute) (Some PolicyDemo.input) = Some values /\ pv_repeatInterval values = 1800.
Proof.
  eexists. split; [reflexivity|].
  apply (accepted_interval_is_stored (15 * Minute) PolicyDemo.input); [unfold Minute, Second; lia|reflexivity].
Defined.

Lemma saved_policy_is_the_request_witness :
  match CreateNotificationPolicy (15 * Minute) 0 "p1" (Some PolicyDemo.input) [] PolicyDemo.start with
  | (Ok (R201 item), _, _) => answered "p1" PolicyDemo.input item
  | _ => False
  end.
Proof.
  assert (match (CreateNotificationPolicy (15 * Minute) 0 "p1" (Some PolicyDemo.input) [] PolicyDemo.start).1.1 with
          | Ok (R201 _) => True | _ => False end) as H by (vm_compute; exact I).
  destruct (CreateNotificationPolicy _ _ _ _ _ _) as [[[[| item | | | | |]|] t'] fs'] eqn:E; try (exact H || contradiction H).
  refine (proj1 (saved_policy_is_the_request (15 * Minute) 0 "p1" PolicyDemo.input [] fs' PolicyDemo.start t' PolicyDemo.notify item _ (or_introl E))).
  unfold Minute, Second. lia.
Defined.
