(* ===== verification/DispositionQueries.v ===== *)
(** The dispositions of alerts in the database: rows and statements
    ([internal/alerting/queries.sql.go]). *)

From S2P Require Import Prelude Db Text AlertState AlertEvaluation Notify Evaluator.

(** * Tables *)

Record dispositionFields : Type := MkDispositionFields {
  df_note : option string;
  df_ignoreReasonCode : option string;
  df_ignoreReasonDetail : option string;
}.

#[export] Instance dispositionFields_eq_dec : EqDecision dispositionFields.
Proof. solve_decision. Defined.

Definition no_fields : dispositionFields := MkDispositionFields None None None.

(** The columns of [alert_instance] beside [disposition]. *)
Record DispositionSummary : Type := MkDispositionSummary {
  ds_By : option string;
  ds_At : option Time;
  ds_Fields : dispositionFields;
}.

Definition no_summary : DispositionSummary := MkDispositionSummary None None no_fields.

(** A row of [alert_event] of kind ACKED or IGNORED with its additional columns, which
    are NULL in the other rows. *)
Record DispositionEventRow : Type := MkDispositionEventRow {
  de_Event : AlertEvent;
  de_ActorID : string;
  de_ActedAt : Time;
  de_From : string;
  de_To : string;
  de_Fields : dispositionFields;
}.

(** [dt_event] has the rows in the order of their ids; [dt_user] are the ids of
    [app_user]; an alert that is not in [dt_summary] has NULL columns. *)
Record DispositionTables : Type := MkDispositionTables {
  dt_eval : EvalTables;
  dt_summary : gmap string DispositionSummary;
  dt_event : list DispositionEventRow;
  dt_user : gset string;
}.

Definition with_eval (e : EvalTables) (t : DispositionTables) : DispositionTables :=
  MkDispositionTables e (dt_summary t) (dt_event t) (dt_user t).

Definition dt_alert (t : DispositionTables) : gmap string AlertInstance := n_alert (e_notify (dt_eval t)).

Definition summary_of (t : DispositionTables) (id : string) : DispositionSummary := default no_summary (dt_summary t !! id).

(** * Statements *)

Definition ignore_reasons : list string := ["KNOWN_ISSUE"; "FALSE_POSITIVE"; "DUPLICATE"; "IMPACT_ACCEPTABLE"; "OTHER"].

(** [alert_instance_disposition_summary_check] and the part of
    [alert_event_disposition_check] about the kind, with the check of the code. *)
Definition fields_checked (disposition : string) (f : dispositionFields) : bool :=
  match df_ignoreReasonCode f with Some code => bool_decide (code ∈ ignore_reasons) | None => true end &&
  ((bool_decide (disposition = "ACKED") && absent (df_ignoreReasonCode f) && absent (df_ignoreReasonDetail f)) ||
   (bool_decide (disposition = "IGNORED") && absent (df_note f) &&
    match df_ignoreReasonCode f with
    | None => false
    | Some code =>
        negb (bool_decide (code = "OTHER")) || match df_ignoreReasonDetail f with Some detail => not_blank detail | None => false end
    end)).

Definition summary_checked (disposition : string) (s : DispositionSummary) : bool :=
  (bool_decide (disposition = "NONE") && bool_decide (ds_Fields s = no_fields) && absent (ds_By s) && absent (ds_At s)) ||
  (fields_checked disposition (ds_Fields s) && negb (absent (ds_By s)) && negb (absent (ds_At s))).

(** [FOR SHARE] and [FOR UPDATE] read the same. *)
Definition GetAlertDispositionForRead (id : string) : DB DispositionTables (AlertInstance * DispositionSummary) :=
  statement (fun t => match dt_alert t !! id with Some a => Ok ((a, summary_of t id), t) | None => Err ErrNoRows end).

Definition GetAlertDispositionForUpdate (id : string) : DB DispositionTables (AlertInstance * DispositionSummary) :=
  GetAlertDispositionForRead id.

Definition set_disposition (disposition : string) (a : AlertInstance) : AlertInstance :=
  MkAlertInstance (ai_InstanceID a) (ai_MetricID a) (ai_Status a) (ai_BreachCount a) (ai_RecoveryCount a) (ai_NoDataCount a)
    (ai_StateBeforeNoData a) (ai_Unavailability a) (ai_UpdatedAt a) (ai_ID a) (ai_RuleID a) (ai_RuleVersion a) (ai_Severity a)
    (ai_CurrentValue a) (ai_RuleSnapshot a) (ai_MetricDimensionKey a) (ai_FirstTriggeredAt a) (ai_FirstRuleVersion a)
    (ai_FirstRuleSnapshot a) (ai_RecoveredAt a) disposition (ai_InMaintenance a) (ai_MaintenanceWindowID a).

Definition UpdateAlertDisposition (id disposition : string) (by_ : string) (at_ : Time) (fields : dispositionFields)
    : DB DispositionTables (AlertInstance * DispositionSummary) :=
  statement (fun t =>
    match dt_alert t !! id with
    | None => Err ErrNoRows
    | Some a =>
        let s := MkDispositionSummary (Some by_) (Some (timestamptz at_)) fields in
        if negb (bool_decide (disposition ∈ ["NONE"; "ACKED"; "IGNORED"]) && summary_checked disposition s) then Err (ErrPg "23514")
        else if negb (bool_decide (by_ ∈ dt_user t)) then Err (ErrPg "23503")
        else
          let a' := set_disposition disposition a in
          Ok ((a', s), MkDispositionTables (alter_notify (alter_alert <[id := a']>) (dt_eval t)) (<[id := s]> (dt_summary t))
                         (dt_event t) (dt_user t))
    end).

(** The row references the alert's rule, which the alert references as well. *)
Definition CreateAlertDispositionEvent (row : DispositionEventRow) : DB DispositionTables unit :=
  statement (fun t =>
    let e := de_Event row in
    if negb ((0 <? ev_RuleVersion e) && bool_decide (ev_FromState e <> NoState) && bool_decide (ev_ToState e <> NoState) &&
             bool_decide (de_From row ∈ ["NONE"; "ACKED"; "IGNORED"]) && bool_decide (de_To row = ev_Kind e) &&
             fields_checked (ev_Kind e) (de_Fields row))
    then Err (ErrPg "23514")
    else if bool_decide (dt_alert t !! ev_AlertInstanceID e = None) || negb (bool_decide (de_ActorID row ∈ dt_user t))
    then Err (ErrPg "23503")
    else Ok (tt, MkDispositionTables (alter_notify (alter_event (fun events => events ++ [e])) (dt_eval t)) (dt_summary t)
                   (dt_event t ++ [MkDispositionEventRow e (de_ActorID row) (timestamptz (de_ActedAt row)) (de_From row) (de_To row) (de_Fields row)])
                   (dt_user t))).

(** [ORDER BY acted_at, id] over rows in the order of their ids. *)
Definition ListAlertDispositionEvents (id : string) : DB DispositionTables (list DispositionEventRow) :=
  query (fun t => sort_by (fun a b => de_ActedAt a <? de_ActedAt b)
                    (filter (fun row => ev_AlertInstanceID (de_Event row) = id) (dt_event t))).
