(* ===== verification/Dispositions.v ===== *)
(** Acknowledging and ignoring alerts ([internal/httpapi/alert_dispositions.go]). *)

From S2P Require Import Prelude Db Text Responses AlertState AlertEvaluation Notify Evaluator DispositionQueries.

(** * Requests *)

Record AlertDispositionInput : Type := MkDispositionInput {
  di_Disposition : string;
  di_IgnoreReasonCode : option string;
  di_IgnoreReasonDetail : option string;
  di_Note : option string;
}.

Record AlertDispositionEvent : Type := MkAPIDispositionEvent {
  ade_Kind : string;
  ade_FromDisposition : string;
  ade_ToDisposition : string;
  ade_ActorId : string;
  ade_Note : option string;
  ade_IgnoreReasonCode : option string;
  ade_IgnoreReasonDetail : option string;
  ade_RuleVersion : Z;
  ade_CurrentValue : option float64;
  ade_RuleSnapshot : jsonb;
  ade_EvaluatedAt : Time;
  ade_ActedAt : Time;
}.

Record AlertDispositionDetail : Type := MkDispositionDetail {
  add_AlertInstanceId : string;
  add_Disposition : string;
  add_DispositionBy : option string;
  add_DispositionAt : option Time;
  add_Note : option string;
  add_IgnoreReasonCode : option string;
  add_IgnoreReasonDetail : option string;
  add_StopsRepeatNotifications : bool;
  add_ExcludedFromHealthRollup : bool;
  add_History : list AlertDispositionEvent;
}.

Definition errRecoveredAlertDisposition : error := ErrNew "recovered alert instances cannot be disposed".

Definition trimmedText (value : option string) : option string :=
  match value with
  | None => None
  | Some s => let trimmed := TrimSpace s in if bool_decide (trimmed = EmptyString) then None else Some trimmed
  end.

Definition validIgnoreReason (reason : string) : bool := bool_decide (reason ∈ ignore_reasons).

Definition validateDisposition (input : AlertDispositionInput) : dispositionFields * list fieldError :=
  let fields := MkDispositionFields (trimmedText (di_Note input)) (di_IgnoreReasonCode input) (trimmedText (di_IgnoreReasonDetail input)) in
  (fields,
   if bool_decide (di_Disposition input = "ACKED") then
     if bool_decide (is_Some (di_IgnoreReasonCode input)) then [MkFieldError "ignore_reason_code" "must be omitted when acknowledging"]
     else if bool_decide (is_Some (di_IgnoreReasonDetail input)) then [MkFieldError "ignore_reason_detail" "must be omitted when acknowledging"]
     else []
   else if bool_decide (di_Disposition input = "IGNORED") then
     if bool_decide (is_Some (di_Note input)) then [MkFieldError "note" "must be omitted when ignoring"]
     else
       match di_IgnoreReasonCode input with
       | None => [MkFieldError "ignore_reason_code" "is required when ignoring"]
       | Some code =>
           if negb (validIgnoreReason code) then [MkFieldError "ignore_reason_code" "is not supported"]
           else if bool_decide (code = "OTHER") && absent (df_ignoreReasonDetail fields)
           then [MkFieldError "ignore_reason_detail" "is required for OTHER"]
           else []
       end
   else [MkFieldError "disposition" "must be ACKED or IGNORED"]).

Definition dispositionValidationError (fieldErrors : list fieldError) : APIError :=
  validationErrorBody "alert disposition validation failed" fieldErrors.

Definition api_event (row : DispositionEventRow) : AlertDispositionEvent :=
  let e := de_Event row in
  let f := de_Fields row in
  MkAPIDispositionEvent (ev_Kind e) (de_From row) (de_To row) (de_ActorID row) (df_note f) (df_ignoreReasonCode f)
    (df_ignoreReasonDetail f) (ev_RuleVersion e) (ev_CurrentValue e) (ev_RuleSnapshot e) (ev_EvaluatedAt e) (de_ActedAt row).

(** The snapshot of a rule is a JSON object, which always decodes. *)
Definition loadAlertDispositionDetail (id : string) (row : AlertInstance * DispositionSummary) : DB DispositionTables AlertDispositionDetail :=
  let '(a, s) := row in
  events ← ListAlertDispositionEvents id;
  mret (MkDispositionDetail id (ai_Disposition a) (ds_By s) (ds_At s) (df_note (ds_Fields s)) (df_ignoreReasonCode (ds_Fields s))
          (df_ignoreReasonDetail (ds_Fields s)) (bool_decide (ai_Disposition a = "ACKED"))
          (bool_decide (ai_Disposition a = "IGNORED")) (api_event <$> events)).

Definition GetAlertDisposition (id : string) : DB DispositionTables (response AlertDispositionDetail) :=
  or_404 "alert instance not found"
    (InTx (alertInstance ← GetAlertDispositionForRead id; loadAlertDispositionDetail id alertInstance))
    (fun detail => mret (R200 detail)).

Definition disposition_event (id : string) (current : AlertInstance) (disposition actorID : string) (actedAt : Time)
    (fields : dispositionFields) : DispositionEventRow :=
  MkDispositionEventRow
    (MkAlertEvent id (ai_RuleID current) (ai_RuleVersion current) disposition (ai_Status current) (ai_Status current)
       (ai_CurrentValue current) (ai_Unavailability current) (ai_RuleSnapshot current) (ai_UpdatedAt current) None false None)
    actorID actedAt (ai_Disposition current) disposition fields.

(** The transaction of [UpdateAlertDisposition]. *)
Definition dispose_tx (now : Time) (actorID id disposition : string) (fields : dispositionFields)
    : DB DispositionTables AlertDispositionDetail :=
  '(current, _) ← GetAlertDispositionForUpdate id;
  if bool_decide (ai_Status current = RECOVERED) then fail errRecoveredAlertDisposition
  else
    updated ← DispositionQueries.UpdateAlertDisposition id disposition actorID now fields;
    CreateAlertDispositionEvent (disposition_event id current disposition actorID now fields) ;;
    loadAlertDispositionDetail id updated.

Definition UpdateAlertDisposition (now : Time) (actorID id : string) (body : option AlertDispositionInput)
    : DB DispositionTables (response AlertDispositionDetail) :=
  match body with
  | None => mret (R400 (dispositionValidationError [MkFieldError "body" "is required"]))
  | Some input =>
      let '(fields, fieldErrors) := validateDisposition input in
      if bool_decide (fieldErrors <> []) then mret (R400 (dispositionValidationError fieldErrors))
      else
        detail ← attempt (InTx (dispose_tx now actorID id (di_Disposition input) fields));
        match detail with
        | Ok detail => mret (R200 detail)
        | Err e =>
            if is_no_rows e then mret (R404 (errorBody "NOT_FOUND" "alert instance not found"))
            else if bool_decide (e = errRecoveredAlertDisposition)
            then mret (R409 (errorBody "CONFLICT" "recovered alert instances cannot be disposed"))
            else fail e
        end
  end.
