(* ===== verification/DispositionsInv.v ===== *)
(** What becomes of the dispositions of alerts while requests, the evaluator and the
    repeat scheduler work on the same tables. *)

From S2P Require Import Prelude Db Text Responses AlertState AlertEvaluation Notify Evaluator EvaluatorInv DispositionQueries Dispositions.

(** * The evaluator leaves dispositions alone *)

(** Alerts stay with their disposition, recovered ones entirely, and new ones have
    none. *)
Record disposed (t t' : EvalTables) : Prop := MkDisposed {
  disposed_old : forall id a, n_alert (e_notify t) !! id = Some a ->
    exists a', n_alert (e_notify t') !! id = Some a' /\ ai_Disposition a' = ai_Disposition a /\
      (ai_Status a = RECOVERED -> core a' = core a);
  disposed_new : forall id a', n_alert (e_notify t') !! id = Some a' -> n_alert (e_notify t) !! id = None ->
    ai_Disposition a' = "NONE";
}.

Lemma core_disposition a b : core a = core b -> ai_Disposition a = ai_Disposition b.
Proof. destruct a, b. unfold core. simpl. by intros [=]. Qed.

#[export] Instance disposed_preorder : PreOrder disposed.
Proof.
  split.
  - intros t. split; [eauto|]. intros id a H1 H2. congruence.
  - intros x y z [Ho1 Hn1] [Ho2 Hn2]. split.
    + intros id a Ha. destruct (Ho1 id a Ha) as (b & Hb & Hd & Hr). destruct (Ho2 id b Hb) as (c & Hc & Hd' & Hr').
      exists c. split_and!; [done|congruence|]. intros H. specialize (Hr H).
      rewrite Hr' by (apply core_eq in Hr; destruct Hr as (_ & _ & -> & _); done). done.
    + intros id c Hc Hx. destruct (n_alert (e_notify y) !! id) as [b|] eqn:Hb; [|by eapply Hn2].
      destruct (Ho2 id b Hb) as (c' & Hc' & Hd & _). assert (c' = c) as -> by congruence. rewrite Hd. by eapply Hn1.
Qed.

Lemma same_alerts_disposed t t' : same_alerts t t' -> disposed t t'.
Proof.
  intros Hs. split.
  - intros id a Ha. specialize (Hs id). rewrite Ha in Hs. simpl in Hs. apply fmap_Some in Hs as (b & Hb & Hc).
    exists b. split_and!; [done|by apply core_disposition|done].
  - intros id a Ha Hn. destruct (same_alerts_lookup t t' id a Hs Ha) as (b & Hb & _). congruence.
Qed.

Lemma saved_disposed t t' key version now next fires id : saved t t' key version now next fires id -> disposed t t'.
Proof.
  intros [_ (a1 & Ha1 & _) Hothers Hknown _ Hd]. specialize (Hd a1 Ha1). split.
  - intros j a Ha. destruct (decide (j = id)) as [->|Hne].
    + exists a1. rewrite Ha in Hd. split_and!; [done|done|]. by destruct (Hknown a Ha).
    + exists a. by rewrite Hothers.
  - intros j a Ha Hn. destruct (decide (j = id)) as [->|Hne].
    + assert (a = a1) as -> by congruence. by rewrite Hn in Hd.
    + rewrite Hothers in Ha by done. congruence.
Qed.

Lemma moved_disposed t t' key version now next : moved t t' key version now next -> disposed t t'.
Proof.
  intros (t1 & fires & id & Hs & Hk & _). etrans; [by eapply saved_disposed|by apply same_alerts_disposed].
Qed.

(** Events of dispositions, which only the requests insert. *)
Definition disposition_kinds : list string := ["ACKED"; "IGNORED"].
Definition disposition_rows (t : EvalTables) : list AlertEvent := filter (fun e => ev_Kind e ∈ disposition_kinds) (n_event (e_notify t)).

Definition pass_inv (t0 t : EvalTables) : Prop := alerts_inv t /\ disposed t0 t.

Lemma evaluateRule_disposed read_sessions sprint limit scheduled now t0 :
  triple (pass_inv t0) (evaluateRule read_sessions sprint limit scheduled now) (fun _ => pass_inv t0) (fun _ => True).
Proof.
  apply triple_at. intros t [Hi Hd]. eapply triple_weaken; [by apply evaluateRule_evaluated|done| |done].
  intros [] t' (target & _ & Hev).
  assert (pass_inv t0 (only_marked scheduled now t)) as Hmarked.
  { split; [by eapply alerts_inv_same; [..|exact Hi]|]. etrans; [exact Hd|]. by apply same_alerts_disposed. }
  unfold evaluated in Hev. destruct (structurallyNotApplicable _ _ _ _); [by subst|].
  destruct Hev as (result & _ & [[_ ->]|Hm]); [done|]. split.
  - by destruct Hm as (t1 & fires & id & _ & _ & ?).
  - etrans; [exact Hd|by eapply moved_disposed].
Qed.

Lemma RunOnce_disposed read_sessions sprint limit now t0 :
  triple (pass_inv t0) (RunOnce read_sessions sprint limit now) (fun _ => pass_inv t0) (pass_inv t0).
Proof.
  unfold RunOnce. eapply triple_bind; [by apply triple_wrap, (triple_query _ _ (fun _ => pass_inv t0))|].
  intros targets. apply triple_for_each. intros [instanceID group] _. simpl. apply triple_InTx; [|done]. eapply triple_bind.
  - apply (triple_statement _ _ (fun _ => pass_inv t0)); [done|]. intros t paused t' Hi He.
    destruct (e_instance t !! instanceID), (e_config t !! instanceID); try done. by injection He as <- <-.
  - intros paused. destruct paused; [by apply triple_ret|]. apply triple_for_each_either. intros target _. apply evaluateRule_disposed.
Qed.

Lemma in_notify_rows {A} (m : DB NotifyTables A) :
  Keeps (fun n => filter (fun e => ev_Kind e ∈ disposition_kinds) (n_event n)) m -> Keeps disposition_rows (in_notify m).
Proof.
  intros Hm fs t. specialize (Hm fs (e_notify t)). unfold tables_after, in_notify, focus in *.
  by destruct (m fs (e_notify t)) as [[x n'] fs1].
Qed.

Lemma write_alert_rows id row t i t' : write_alert id row t = Ok (i, t') -> disposition_rows t' = disposition_rows t.
Proof. by intros [-> ->]%write_alert_Ok. Qed.

Lemma update_unresolved_rows id f t x t' : update_unresolved id f t = Ok (x, t') -> disposition_rows t' = disposition_rows t.
Proof.
  unfold update_unresolved. intros H. destruct (id ≫= _) as [a|]; [|by simplify_eq].
  destruct (bool_decide _); [by simplify_eq|]. destruct (write_alert _ _ _) as [[w tw]|] eqn:E; [|done].
  simplify_eq/=. by eapply write_alert_rows.
Qed.

#[export] Instance SaveAlertSnapshot_rows p : Keeps disposition_rows (SaveAlertSnapshot p).
Proof.
  apply statement_keeps. intros t a t' H. destruct (unresolved_alert _ _); by apply write_alert_rows in H.
Qed.

#[export] Instance RecoverAlertSnapshot_rows id p at_ : Keeps disposition_rows (RecoverAlertSnapshot id p at_).
Proof.
  apply statement_keeps. intros t a t' H. destruct (bool_decide _); [done|].
  destruct (update_unresolved _ _ _) as [[x tx]|] eqn:E; [|done]. apply update_unresolved_rows in E.
  destruct x; [|done]. injection H as <- <-. exact E.
Qed.

#[export] Instance ResetIgnoredMissingAlert_rows target next at_ m w :
  Keeps disposition_rows (ResetIgnoredMissingAlert target next at_ m w).
Proof.
  apply statement_keeps. intros t a t' H. destruct (update_unresolved _ _ _) as [[x tx]|] eqn:E; [|done].
  apply update_unresolved_rows in E. injection H as <- <-. exact E.
Qed.

#[export] Instance CreateTriggerSnapshot_rows row : Keeps disposition_rows (CreateTriggerSnapshot row).
Proof. other_tables. Qed.
#[export] Instance CreateTriggerSnapshotSession_rows id s : Keeps disposition_rows (CreateTriggerSnapshotSession id s).
Proof. other_tables. Qed.
#[export] Instance CreatePerformanceEvent_rows id kind at_ : Keeps disposition_rows (CreatePerformanceEvent id kind at_).
Proof. other_tables. Qed.
#[export] Instance MarkAlertRuleEvaluated_rows r i d at_ : Keeps disposition_rows (MarkAlertRuleEvaluated r i d at_).
Proof. other_tables. Qed.
#[export] Instance GetEvaluationTarget_rows r i d : Keeps disposition_rows (GetEvaluationTarget r i d).
Proof. other_tables. Qed.
#[export] Instance read_paused_rows id : Keeps disposition_rows (read_paused id).
Proof. other_tables. Qed.
#[export] Instance reads_rows {A} (m : DB EvalTables A) : Keeps (fun t => t) m -> Keeps disposition_rows m | 10.
Proof. intros Hm fs t. by rewrite (Hm fs t). Qed.

Lemma other_kind (events : list AlertEvent) e :
  ev_Kind e ∉ disposition_kinds ->
  filter (fun e => ev_Kind e ∈ disposition_kinds) (events ++ [e]) = filter (fun e => ev_Kind e ∈ disposition_kinds) events.
Proof. intros He. rewrite filter_app, filter_cons_False by done. apply app_nil_r. Qed.

#[export] Instance CreateAlertEvent_rows alertID ruleID version kind from to value unavailable snapshot at_ sid m w :
  Keeps disposition_rows (CreateAlertEvent (MkAlertEvent alertID ruleID version (string_of_kind kind) from to value unavailable snapshot at_ sid m w)).
Proof.
  apply statement_keeps. intros t [] t' H. repeat case_match; simplify_eq; apply other_kind; destruct kind; simpl; set_solver.
Qed.

#[export] Instance Enqueue_rows alertID event template payload at_ :
  Keeps disposition_rows (in_notify (EnqueueAlertNotifications alertID event template payload at_)).
Proof.
  apply in_notify_rows, statement_keeps. intros n ids n' H. destruct (selected_policy _ _ _) as [policy|]; [|by simplify_eq].
  injection H as H. assert (forall ds acc, n_event (foldl (insert_delivery alertID event template payload (timestamptz at_)) acc ds).2 = n_event acc.2) as Hr.
  { intros ds. induction ds as [|[[c id] dest] ds IH]; intros [ids0 n0]; [done|]. simpl. by rewrite IH. }
  specialize (Hr (destinations n policy) ([], n)). rewrite H in Hr. simpl in *. by rewrite Hr.
Qed.

#[export] Instance DeletePending_rows id : Keeps disposition_rows (in_notify (DeletePendingNotification id)).
Proof. apply in_notify_rows. unfold DeletePendingNotification, exec. other_tables. Qed.

#[export] Instance RecordSuppressed_rows alertID window at_ :
  Keeps disposition_rows (in_notify (RecordMaintenanceSuppressed alertID window at_)).
Proof.
  apply in_notify_rows. unfold RecordMaintenanceSuppressed, mark_suppressed, exec. apply statement_keeps.
  intros n [] n' [= <-]. destruct (n_alert n !! alertID); [|done]. apply other_kind. simpl. set_solver.
Qed.

#[export] Instance RunOnce_rows read_sessions sprint limit now : Keeps disposition_rows (RunOnce read_sessions sprint limit now).
Proof.
  unfold RunOnce, evaluateInstance, evaluateRule, apply_step, emit_event, announce, captureAndPersistTriggerSnapshot, save_alert. apply _.
Qed.

(** * Requests *)

Definition history (t : DispositionTables) (id : string) : list DispositionEventRow :=
  filter (fun row => ev_AlertInstanceID (de_Event row) = id) (dt_event t).

(** The tables after a disposition of the alert [a]. *)
Definition disposition_row (now : Time) (actorID id disposition : string) (fields : dispositionFields) (a : AlertInstance)
    : DispositionEventRow :=
  disposition_event id a disposition actorID (timestamptz now) fields.

Definition dispose (now : Time) (actorID id disposition : string) (fields : dispositionFields) (a : AlertInstance)
    (t : DispositionTables) : DispositionTables :=
  let row := disposition_row now actorID id disposition fields a in
  MkDispositionTables
    (alter_notify (alter_event (fun events => events ++ [de_Event row]))
       (alter_notify (alter_alert <[id := set_disposition disposition a]>) (dt_eval t)))
    (<[id := MkDispositionSummary (Some actorID) (Some (timestamptz now)) fields]> (dt_summary t)) (dt_event t ++ [row]) (dt_user t).

Definition detail_of (t : DispositionTables) (id : string) (a : AlertInstance) : AlertDispositionDetail :=
  let s := summary_of t id in
  MkDispositionDetail id (ai_Disposition a) (ds_By s) (ds_At s) (df_note (ds_Fields s)) (df_ignoreReasonCode (ds_Fields s))
    (df_ignoreReasonDetail (ds_Fields s)) (bool_decide (ai_Disposition a = "ACKED")) (bool_decide (ai_Disposition a = "IGNORED"))
    (api_event <$> sort_by (fun x y => de_ActedAt x <? de_ActedAt y) (history t id)).

(** The errors of the driver are none of the handler's own. *)
Definition driver_fault (f : fate) : Prop :=
  match f with Runs => True | Fails e => fault_error e <> errRecoveredAlertDisposition | LostAck e => fault_error e <> errRecoveredAlertDisposition end.

(** What a statement answers, and the two errors the handler tells apart, are those of
    the server. *)
Definition told_apart (e : error) : Prop := is_no_rows e = true \/ e = errRecoveredAlertDisposition.

Lemma statement_driver {A} (effect : DispositionTables -> result (A * DispositionTables)) fs t :
  Forall driver_fault fs ->
  let '(r, t', fs') := statement effect fs t in
  Forall driver_fault fs' /\ match r with Ok a => effect t = Ok (a, t') | Err e => told_apart e -> effect t = Err e end.
Proof.
  intros Hfs. unfold statement.
  assert (driver_fault (next_fate fs).1 /\ Forall driver_fault (next_fate fs).2) as [Hf Hrest] by (destruct Hfs; simpl; auto).
  destruct (next_fate fs) as [[|[e He]|[e He]] fs1]; simpl in *;
    try destruct (effect t) as [[a t1]|e1] eqn:E; simpl; (split; [done|]); try done; intros [H|H]; congruence.
Qed.

(** Whether the tables accept a disposition. *)
Definition accepted (t : DispositionTables) (actorID disposition : string) (fields : dispositionFields) (a : AlertInstance) : Prop :=
  fields_checked disposition fields = true /\ actorID ∈ dt_user t /\ 0 < ai_RuleVersion a /\ ai_Status a <> NoState /\
  ai_Disposition a ∈ ["NONE"; "ACKED"; "IGNORED"].

Lemma checked_known disposition fields : fields_checked disposition fields = true -> disposition = "ACKED" \/ disposition = "IGNORED".
Proof. unfold fields_checked. intros [_ H]%andb_prop. apply orb_prop in H as [H|H]; repeat apply andb_prop in H as [H _]; apply bool_decide_eq_true in H; auto. Qed.

Lemma update_effect now actorID disposition fields :
  let s := MkDispositionSummary (Some actorID) (Some (timestamptz now)) fields in
  bool_decide (disposition ∈ ["NONE"; "ACKED"; "IGNORED"]) && summary_checked disposition s = fields_checked disposition fields.
Proof.
  intros s. unfold summary_checked, s. simpl. rewrite !andb_true_r, !andb_false_r. simpl.
  destruct (fields_checked disposition fields) eqn:E; [|by rewrite andb_false_r].
  rewrite andb_true_r. apply bool_decide_eq_true. apply checked_known in E. set_solver.
Qed.

(** Runs the next statement of a goal, and discards the cases in which the server
    raised an error. *)
Ltac run_statement Hfs Hfs' Heff :=
  match goal with |- context [statement ?effect ?fs ?t] =>
    let H := fresh in
    pose proof (statement_driver effect fs t Hfs) as H;
    destruct (statement effect fs t) as [[[?r|?e] ?t1] ?fs1]; destruct H as [Hfs' Heff]
  end.

Ltac refuted Heff :=
  let H := fresh in simpl; split; intros H; [specialize (Heff (or_introl H))|specialize (Heff (or_intror H))];
  repeat case_match; simplify_eq.

(** The transaction: what it leaves when it succeeds, and when it reports the errors
    that are told apart. *)
Definition disposition_done (now : Time) (actorID id disposition : string) (fields : dispositionFields) (t t' : DispositionTables)
    (d : AlertDispositionDetail) : Prop :=
  exists a, dt_alert t !! id = Some a /\ ai_Status a <> RECOVERED /\ accepted t actorID disposition fields a /\
    t' = dispose now actorID id disposition fields a t /\ d = detail_of t' id (set_disposition disposition a).

Lemma dispose_tx_cases now actorID id disposition fields fs t :
  Forall driver_fault fs ->
  match dispose_tx now actorID id disposition fields fs t with
  | (Ok d, t', fs') => Forall driver_fault fs' /\ disposition_done now actorID id disposition fields t t' d
  | (Err e, _, _) => (is_no_rows e = true -> dt_alert t !! id = None) /\
                  (e = errRecoveredAlertDisposition -> exists a, dt_alert t !! id = Some a /\ ai_Status a = RECOVERED)
  end.
Proof.
  intros Hfs. unfold dispose_tx, GetAlertDispositionForUpdate, GetAlertDispositionForRead. unfold mbind, DB_bind.
  run_statement Hfs Hfs1 Hget; [|by refuted Hget].
  destruct (dt_alert t !! id) as [a|] eqn:Ha; [|done]. injection Hget as <- <-. simpl. case_bool_decide as Hrec; simpl; [split; [done|eauto]|].
  unfold DispositionQueries.UpdateAlertDisposition, CreateAlertDispositionEvent, loadAlertDispositionDetail, ListAlertDispositionEvents, query.
  unfold mbind, DB_bind. run_statement Hfs1 Hfs2 Hupdate; [|refuted Hupdate].
  rewrite Ha, update_effect in Hupdate. destruct (fields_checked disposition fields) eqn:Hc; [|done].
  case_bool_decide as Hu; [|done]. injection Hupdate as <- <-. simpl.
  run_statement Hfs2 Hfs3 Hcreate; [|refuted Hcreate].
  destruct (negb _) eqn:Hchecks in Hcreate; [done|]. apply negb_false_iff in Hchecks.
  rewrite !andb_true_iff, !bool_decide_eq_true, Z.ltb_lt in Hchecks. destruct Hchecks as [[[[[Hv Hs] _] Hfrom] _] _].
  destruct (_ || _) in Hcreate; [done|]. injection Hcreate as <- <-.
  run_statement Hfs3 Hfs4 Hlist; [|refuted Hlist]. injection Hlist as <- <-. simpl.
  split; [done|]. exists a. split_and!; [done..|by split_and!|done|].
  unfold detail_of, summary_of. simpl. by rewrite lookup_insert_eq.
Qed.

Lemma dispose_plain now actorID id disposition fields a t :
  dt_alert t !! id = Some a -> ai_Status a <> RECOVERED -> accepted t actorID disposition fields a ->
  exists d, dispose_tx now actorID id disposition fields [] t = (Ok d, dispose now actorID id disposition fields a t, []).
Proof.
  intros Ha Hrec (Hc & Hu & Hver & Hst & Hfrom).
  cut (match dispose_tx now actorID id disposition fields [] t with
       | (Ok _, t', fs') => t' = dispose now actorID id disposition fields a t /\ fs' = []
       | _ => False end).
  { destruct (dispose_tx _ _ _ _ _ _ _) as [[[d|e] t'] fs']; [|done]. intros [-> ->]. by exists d. }
  unfold dispose_tx, GetAlertDispositionForUpdate, GetAlertDispositionForRead.
  unfold mbind, DB_bind. unfold statement at 1. simpl next_fate. cbv beta iota. rewrite Ha, bool_decide_false by done.
  unfold DispositionQueries.UpdateAlertDisposition. unfold statement at 1. simpl next_fate. cbv beta iota zeta.
  rewrite Ha, update_effect, Hc, bool_decide_true by done. simpl negb. cbv beta iota.
  unfold CreateAlertDispositionEvent. unfold statement at 1. simpl next_fate. cbv beta iota zeta. simpl. rewrite Hc.
  rewrite !bool_decide_true by done. rewrite (proj2 (Z.ltb_lt _ _) Hver). simpl.
  rewrite (bool_decide_true (actorID ∈ _)) by done.
  rewrite bool_decide_false; [by split|]. unfold dt_alert. simpl. by rewrite lookup_insert_eq.
Qed.

Lemma dispose_cases now actorID id disposition fields fs t :
  Forall driver_fault fs ->
  match (InTx (dispose_tx now actorID id disposition fields) fs t).1 with
  | (Ok d, t') => disposition_done now actorID id disposition fields t t' d
  | (Err e, t') =>
      (is_no_rows e = true -> dt_alert t !! id = None /\ t' = t) /\
      (e = errRecoveredAlertDisposition -> (exists a, dt_alert t !! id = Some a /\ ai_Status a = RECOVERED) /\ t' = t) /\
      (t' = t \/ exists d, disposition_done now actorID id disposition fields t t' d)
  end.
Proof.
  intros Hfs. unfold InTx.
  assert (driver_fault (next_fate fs).1 /\ Forall driver_fault (next_fate fs).2) as [Hf Hrest] by (destruct Hfs; simpl; auto).
  destruct (next_fate fs) as [[|[e He]|[e He]] fs1]; simpl in *; [|split_and!; auto; congruence..].
  pose proof (dispose_tx_cases now actorID id disposition fields fs1 t Hrest) as H.
  destruct (dispose_tx _ _ _ _ _ fs1 t) as [[[d|e] t1] fs2]; simpl in *; [|naive_solver]. destruct H as [Hf2 H].
  assert (driver_fault (next_fate fs2).1) as Hf3 by (destruct Hf2; simpl; auto).
  destruct (next_fate fs2) as [[|[e He]|[e He]] fs3]; simpl in *; [done|split_and!; auto; congruence|].
  split_and!; [congruence..|eauto].
Qed.

(** What a request must say. *)
Definition valid_request (input : AlertDispositionInput) : Prop :=
  (di_Disposition input = "ACKED" /\ di_IgnoreReasonCode input = None /\ di_IgnoreReasonDetail input = None) \/
  (di_Disposition input = "IGNORED" /\ di_Note input = None /\
   exists code, di_IgnoreReasonCode input = Some code /\ code ∈ ignore_reasons /\
     (code = "OTHER" -> exists detail, di_IgnoreReasonDetail input = Some detail /\ TrimSpace detail <> EmptyString)).

Lemma trimmedText_Some value s : trimmedText value = Some s <-> exists v, value = Some v /\ s = TrimSpace v /\ s <> EmptyString.
Proof.
  unfold trimmedText. destruct value as [v|]; [case_bool_decide|]; split; intros H'; naive_solver.
Qed.

Lemma trimmedText_absent value : absent (trimmedText value) = false <-> exists v, value = Some v /\ TrimSpace v <> EmptyString.
Proof.
  destruct (trimmedText value) as [s|] eqn:E; simpl.
  - apply trimmedText_Some in E as (v & -> & -> & Hv). split; eauto.
  - split; [done|]. intros (v & -> & Hv). unfold trimmedText in E. by rewrite bool_decide_false in E.
Qed.

Lemma validate_spec input : (validateDisposition input).2 = [] <-> valid_request input.
Proof.
  unfold validateDisposition, valid_request, validIgnoreReason. simpl.
  destruct (decide (di_Disposition input = "ACKED")) as [Ha|Ha].
  { rewrite bool_decide_true by done. destruct (di_IgnoreReasonCode input) as [code|], (di_IgnoreReasonDetail input); simpl;
      (split; [try done; auto|]); intros [(_ & H1 & H2)|(H & _)]; try done; congruence. }
  rewrite (bool_decide_false (_ = "ACKED")) by done.
  destruct (decide (di_Disposition input = "IGNORED")) as [Hi|Hi].
  2:{ rewrite bool_decide_false by done. split; [done|naive_solver]. }
  rewrite bool_decide_true by done. destruct (di_Note input); simpl; [split; naive_solver|].
  destruct (di_IgnoreReasonCode input) as [code|]; [|split; naive_solver].
  case_bool_decide as Hc; simpl; [|split; naive_solver]. case_bool_decide as Ho; simpl.
  - destruct (absent _) eqn:Ed; simpl; [split; [done|]|].
    + intros [(? & _)|(_ & _ & c & [= <-] & _ & Hd)]; [done|]. apply Hd, trimmedText_absent in Ho. congruence.
    + apply trimmedText_absent in Ed. split; [|done]. right. split_and!; eauto.
  - split; [|done]. right. split_and!; [done..|]. exists code. done.
Qed.

Lemma validate_checked input : valid_request input -> fields_checked (di_Disposition input) (validateDisposition input).1 = true.
Proof.
  unfold fields_checked, validateDisposition. simpl. intros [(-> & Hc & Hd)|(-> & Hn & code & Hc & Hin & Hother)].
  - by rewrite Hc, Hd.
  - rewrite Hc, Hn. rewrite bool_decide_true by done. simpl. case_bool_decide as Ho; simpl; [|done].
    destruct (Hother Ho) as (detail & -> & Hd). unfold trimmedText. rewrite bool_decide_false by done.
    by apply TrimSpace_not_blank.
Qed.

(** What a request that is answered leaves behind. *)
Definition requested (now : Time) (actorID id : string) (input : AlertDispositionInput) (t t' : DispositionTables)
    (d : AlertDispositionDetail) : Prop :=
  valid_request input /\ disposition_done now actorID id (di_Disposition input) (validateDisposition input).1 t t' d.

(** C38. Every answer to a request that acknowledges or ignores an alert is the right one,
    whatever faults the database has: it is refused as invalid exactly when it is not a
    valid request, as unknown only when there is no such alert and as a conflict only
    when the alert has recovered, and then nothing changed; when it is accepted the
    alert has the disposition with the actor, the time and the trimmed texts, one event
    that describes it was added, the answer shows both, and nothing else changed; an
    error leaves everything done or nothing. Without faults a known user's valid request
    about an alert that has not recovered is accepted. *)
Theorem disposition_requests_answered (now : Time) (actorID id : string) (body : option AlertDispositionInput) (fs : list fate)
    (t : DispositionTables) :
  Forall driver_fault fs ->
  match (UpdateAlertDisposition now actorID id body fs t).1 with
  | (Ok (R400 _), t') => t' = t /\ forall input, body = Some input -> ~ valid_request input
  | (Ok (R404 _), t') => t' = t /\ dt_alert t !! id = None
  | (Ok (R409 _), t') => t' = t /\ exists a, dt_alert t !! id = Some a /\ ai_Status a = RECOVERED
  | (Ok (R200 d), t') => exists input, body = Some input /\ requested now actorID id input t t' d
  | (Ok _, _) => False
  | (Err _, t') => t' = t \/ exists input d, body = Some input /\ requested now actorID id input t t' d
  end /\
  (forall input a, body = Some input -> valid_request input -> dt_alert t !! id = Some a -> ai_Status a <> RECOVERED ->
     accepted t actorID (di_Disposition input) (validateDisposition input).1 a ->
     exists d t', UpdateAlertDisposition now actorID id body [] t = (Ok (R200 d), t', [])).
Proof.
  intros Hfs. split.
  - destruct body as [input|]; [|done]. unfold UpdateAlertDisposition.
    pose proof (validate_spec input) as Hv. unfold requested. destruct (validateDisposition input) as [fields errors] eqn:E.
    assert (fields = (validateDisposition input).1) as -> by (by rewrite E). clear E. simpl in *.
    destruct errors as [|err errors].
    2:{ rewrite bool_decide_true by done. split; [done|]. intros i [= <-] Hi. by apply Hv in Hi. }
    rewrite bool_decide_false by auto. assert (valid_request input) as Hvalid by by apply Hv.
    pose proof (dispose_cases now actorID id (di_Disposition input) (validateDisposition input).1 fs t Hfs) as H. simpl in H.
    unfold mbind, DB_bind, attempt. destruct (InTx _ fs t) as [[[d|e] t'] fs']; simpl in *; [by exists input|].
    destruct H as (Hn & Hr & Hor). destruct (is_no_rows e); simpl; [by destruct (Hn eq_refl)|].
    case_bool_decide as He; simpl; [by destruct (Hr He)|]. destruct Hor as [->|[d Hd]]; [by left|]. right. by exists input, d.
  - intros input a -> Hv Ha Hrec (Hc & Hu & Hver & Hst & Hfrom). unfold UpdateAlertDisposition.
    apply validate_spec in Hv. destruct (validateDisposition input) as [fields errors]. simpl in *. subst errors.
    rewrite bool_decide_false by auto.
    destruct (dispose_plain now actorID id (di_Disposition input) fields a t Ha Hrec) as [d Hd]; [by split_and!|].
    exists d, (dispose now actorID id (di_Disposition input) fields a t). unfold mbind at 1, DB_bind at 1, attempt, InTx.
    simpl next_fate. cbv beta iota. by rewrite Hd.
Qed.

(** * The history of an alert *)

Fixpoint chained (from : string) (rows : list DispositionEventRow) (to : string) : Prop :=
  match rows with
  | [] => from = to
  | row :: rest => de_From row = from /\ chained (de_To row) rest to
  end.

Lemma chained_snoc from rows row to : chained from (rows ++ [row]) to <-> chained from rows (de_From row) /\ de_To row = to.
Proof. revert from. induction rows as [|r rows IH]; intros from; simpl; [naive_solver|]. rewrite IH. tauto. Qed.

(** A row of the history: a disposition of an alert that had not recovered, by a known
    user, with the texts it needs. *)
Definition row_ok (t : DispositionTables) (row : DispositionEventRow) : Prop :=
  let e := de_Event row in
  is_Some (dt_alert t !! ev_AlertInstanceID e) /\ ev_Kind e = de_To row /\ fields_checked (de_To row) (de_Fields row) = true /\
  de_ActorID row ∈ dt_user t /\ ev_FromState e = ev_ToState e /\ ev_FromState e <> RECOVERED.

Record dispositions_inv (t : DispositionTables) : Prop := MkDispositionsInv {
  inv_alerts : alerts_inv (dt_eval t);
  inv_chain : forall id a, dt_alert t !! id = Some a -> chained "NONE" (history t id) (ai_Disposition a);
  inv_rows : Forall (row_ok t) (dt_event t);
  inv_summary : forall id, summary_of t id =
    match last (history t id) with
    | Some row => MkDispositionSummary (Some (de_ActorID row)) (Some (de_ActedAt row)) (de_Fields row)
    | None => no_summary
    end;
  inv_events : disposition_rows (dt_eval t) = de_Event <$> dt_event t;
}.

(** The history only grows, and not that of a recovered alert, which stays as it is
    but for its maintenance columns. *)
Record preserved (t t' : DispositionTables) : Prop := MkPreserved {
  preserved_prefix : forall id, history t id `prefix_of` history t' id;
  preserved_recovered : forall id a, dt_alert t !! id = Some a -> ai_Status a = RECOVERED ->
    (exists a', dt_alert t' !! id = Some a' /\ core a' = core a) /\ history t' id = history t id /\ summary_of t' id = summary_of t id;
}.

#[export] Instance preserved_preorder : PreOrder preserved.
Proof.
  split.
  - intros t. split; eauto.
  - intros x y z [Hp1 Hr1] [Hp2 Hr2]. split; [intros id; etrans; [apply Hp1|apply Hp2]|]. intros id a Ha Hs.
    destruct (Hr1 id a Ha Hs) as ((b & Hb & Hc) & Hh & Hsum).
    destruct (Hr2 id b Hb) as ((c & Hcl & Hcc) & Hh' & Hsum'); [by apply core_eq in Hc as (_ & _ & -> & _)|].
    split_and!; [|congruence..]. exists c. split; [done|congruence].
Qed.

Lemma history_dispose now actorID id disposition fields a t j :
  history (dispose now actorID id disposition fields a t) j =
  history t j ++ (if decide (j = id) then [disposition_row now actorID id disposition fields a] else []).
Proof.
  unfold history. simpl. rewrite filter_app. f_equal. rewrite filter_cons. simpl.
  repeat case_decide; try done; congruence.
Qed.

Lemma row_ok_mono t t' row : row_ok t row ->
  (forall id, is_Some (dt_alert t !! id) -> is_Some (dt_alert t' !! id)) -> dt_user t ⊆ dt_user t' -> row_ok t' row.
Proof. intros (Ha & Hk & Hf & Hu & Hs & Hr) Halerts Husers. split_and!; auto. Qed.

Lemma set_disposition_alerts_inv id disposition a t :
  alerts_inv t -> n_alert (e_notify t) !! id = Some a ->
  alerts_inv (alter_notify (alter_alert <[id := set_disposition disposition a]>) t).
Proof.
  intros Hi Ha. destruct (alerts_keyed _ Hi _ _ Ha) as [Hid Hin]. apply write_alert_inv; [done|done|done|..].
  - exact (alerts_shaped _ Hi _ _ Ha).
  - intros Hs. exact (alerts_fired _ Hi _ _ Ha Hs).
  - intros Hs j b Hb Hbs Hk. by eapply (alerts_unique _ Hi); [exact Hb|exact Ha|..].
  - intros old Hold. by assert (old = a) as -> by congruence.
Qed.

Lemma dispose_inv now actorID id disposition fields a t :
  dispositions_inv t -> dt_alert t !! id = Some a -> ai_Status a <> RECOVERED -> accepted t actorID disposition fields a ->
  let t' := dispose now actorID id disposition fields a t in dispositions_inv t' /\ preserved t t'.
Proof.
  intros [Hi Hc Hr Hs He] Ha Hrec (Hf & Hu & _) t'.
  assert (dt_alert t' = <[id := set_disposition disposition a]> (dt_alert t)) as Halert by done.
  assert (forall j, is_Some (dt_alert t !! j) -> is_Some (dt_alert t' !! j)) as Hmono.
  { intros j Hj. rewrite Halert, lookup_insert. case_decide; [by eexists|done]. }
  split; split.
  - eapply alerts_inv_same; [..|exact (set_disposition_alerts_inv id disposition a _ Hi Ha)]; done.
  - intros j b. rewrite Halert. unfold t'. rewrite history_dispose, lookup_insert_Some. intros [[<- <-]|[Hne Hb]].
    + rewrite decide_True by done. apply chained_snoc. split; [by apply Hc|done].
    + rewrite decide_False, app_nil_r by done. by apply Hc.
  - apply Forall_app. split; [eapply Forall_impl; [exact Hr|]; intros row Hrow; by eapply row_ok_mono|].
    constructor; [|done]. split_and!; try done. simpl. rewrite Halert, lookup_insert_eq. by eexists.
  - intros j. unfold summary_of, t'. rewrite history_dispose. simpl. rewrite lookup_insert.
    destruct (decide (id = j)) as [->|Hne]; [rewrite decide_True, last_snoc by done; done|].
    rewrite decide_False, app_nil_r by done. apply Hs.
  - unfold disposition_rows in *. simpl. rewrite filter_app, He, fmap_app, filter_cons_True; [done|].
    simpl. apply checked_known in Hf as [-> | ->]; set_solver.
  - intros j. unfold t'. rewrite history_dispose. by apply prefix_app_r.
  - intros j b Hb Hbs. assert (j <> id) as Hne by congruence. rewrite Halert, lookup_insert_ne by done.
    unfold summary_of, t'. rewrite history_dispose, decide_False, app_nil_r by done. simpl. rewrite lookup_insert_ne by done. eauto.
Qed.

Lemma request_inv now actorID id body fs t :
  Forall driver_fault fs -> dispositions_inv t ->
  let t' := tables_after (UpdateAlertDisposition now actorID id body) fs t in dispositions_inv t' /\ preserved t t'.
Proof.
  intros Hfs Hi. unfold tables_after, UpdateAlertDisposition.
  destruct body as [input|]; [|done]. destruct (validateDisposition input) as [fields errors]. case_bool_decide as Hnone; [done|].
  pose proof (dispose_cases now actorID id (di_Disposition input) fields fs t Hfs) as H.
  assert (forall t' d, disposition_done now actorID id (di_Disposition input) fields t t' d -> dispositions_inv t' /\ preserved t t') as Hdone.
  { intros t' d (a & Ha & Hrec & Hacc & -> & _). by apply dispose_inv. }
  unfold mbind, DB_bind, attempt. destruct (InTx _ fs t) as [[[d|e] t'] fs']; simpl in *; [by eapply Hdone|].
  assert (dispositions_inv t' /\ preserved t t') as Ht' by (destruct H as (_ & _ & [->|[d Hd]]); [done|by eapply Hdone]).
  destruct (is_no_rows e); simpl; [done|]. by case_bool_decide.
Qed.

Lemma pass_keeps_inv read_sessions sprint limit now fs t :
  dispositions_inv t ->
  let t' := with_eval (tables_after (RunOnce read_sessions sprint limit now) fs (dt_eval t)) t in dispositions_inv t' /\ preserved t t'.
Proof.
  intros [Hi Hc Hr Hs He] t'.
  assert (pass_inv (dt_eval t) (dt_eval t')) as [Hi' [Hold Hnew]].
  { apply (triple_tables (pass_inv (dt_eval t))); [apply RunOnce_disposed|by split]. }
  assert (forall j, is_Some (dt_alert t !! j) -> is_Some (dt_alert t' !! j)) as Hmono.
  { intros j [a Ha]. destruct (Hold j a Ha) as (a' & Ha' & _). by exists a'. }
  split; split.
  - done.
  - intros id a Ha. destruct (dt_alert t !! id) as [b|] eqn:Hb.
    + destruct (Hold id b Hb) as (a' & Ha' & Hd & _). unfold dt_alert in Ha. assert (a' = a) as -> by congruence.
      rewrite Hd. by apply Hc.
    + rewrite (Hnew id a Ha Hb). destruct (history t' id) as [|row rows] eqn:Eh; [done|].
      assert (row ∈ history t' id) as [Hid Hin]%list_elem_of_filter by (rewrite Eh; left).
      rewrite Forall_forall in Hr. destruct (Hr row Hin) as ([x Hx] & _). congruence.
  - eapply Forall_impl; [exact Hr|]. intros row Hrow. by eapply row_ok_mono.
  - exact Hs.
  - unfold t'. simpl. rewrite keeps. exact He.
  - done.
  - intros id a Ha Hrec. split_and!; [|done..]. destruct (Hold id a Ha) as (a' & Ha' & _ & Hcore). eauto.
Qed.

(** Requests, passes of the evaluator and new users, in any order. *)
Inductive dispositions_reached (t0 : DispositionTables) : DispositionTables -> Prop :=
  | reached_start : dispositions_reached t0 t0
  | reached_update t now actorID id body fs :
      dispositions_reached t0 t -> Forall driver_fault fs ->
      dispositions_reached t0 (tables_after (UpdateAlertDisposition now actorID id body) fs t)
  | reached_get t id fs : dispositions_reached t0 t -> dispositions_reached t0 (tables_after (GetAlertDisposition id) fs t)
  | reached_pass t read_sessions sprint limit now fs :
      dispositions_reached t0 t ->
      dispositions_reached t0 (with_eval (tables_after (RunOnce read_sessions sprint limit now) fs (dt_eval t)) t)
  | reached_user t id :
      dispositions_reached t0 t ->
      dispositions_reached t0 (MkDispositionTables (dt_eval t) (dt_summary t) (dt_event t) ({[id]} ∪ dt_user t)).

#[export] Instance get_disposition_reads id : Keeps (fun t => t) (GetAlertDisposition id).
Proof.
  unfold GetAlertDisposition, or_404. assert (Keeps (fun t => t) (GetAlertDispositionForRead id)).
  { apply statement_keeps. intros t a t' H. case_match; by simplify_eq. }
  assert (forall row, Keeps (fun t => t) (loadAlertDispositionDetail id row)) by (intros [a s]; apply _). apply _.
Qed.

(** C14. Whatever requests, evaluator passes and faults come in any order, the history
    of an alert accounts for its disposition: in the order they were recorded, its
    events lead from no disposition step by step to the one it has, the alert's actor,
    time and texts are those of the last one, every event was made by a known user
    with the texts its kind needs while the alert had not recovered, and the event
    table holds no other events of that kind. The history only grows, and the
    disposition and the history of a recovered alert never change again; the evaluator
    never changes a disposition. *)
Theorem disposition_history_accounts (t0 t : DispositionTables) :
  dispositions_inv t0 -> dispositions_reached t0 t -> dispositions_inv t /\ preserved t0 t.
Proof.
  intros H0 H. induction H as [|t now actorID id body fs H [IHi IHp] Hfs|t id fs H [IHi IHp]|t read_sessions sprint limit now fs H [IHi IHp]|t id H [IHi IHp]].
  - done.
  - destruct (request_inv now actorID id body fs t Hfs IHi) as [Hi Hp]. split; [done|by etrans].
  - rewrite (keeps (f := fun t => t)). done.
  - destruct (pass_keeps_inv read_sessions sprint limit now fs t IHi) as [Hi Hp]. split; [done|by etrans].
  - split; [|etrans; [exact IHp|by split; [intros j|intros j b; eauto]]].
    destruct IHi as [Hi Hc Hr Hs He]. split; try done.
    eapply Forall_impl; [exact Hr|]. intros row Hrow. eapply row_ok_mono; [done..|]. simpl. set_solver.
Qed.

(** * Witnesses *)

Module DispositionDemo.
Definition start : DispositionTables := MkDispositionTables EvalDemo.start ∅ [] {["u1"]}.
(** The alert fires, is acknowledged and then ignored. *)
Definition firing : DispositionTables :=
  with_eval (tables_after (RunOnce EvalDemo.sessions (fun _ => "95") 20 (10 * Second)) [] (dt_eval start)) start.
Definition alert : string := default EmptyString (head (map_to_list (dt_alert firing)).*1).
Definition acknowledge : AlertDispositionInput := MkDispositionInput "ACKED" None None (Some "  on it ").
Definition ignore : AlertDispositionInput := MkDispositionInput "IGNORED" (Some "OTHER") (Some "planned") None.
Definition acknowledged : DispositionTables :=
  tables_after (UpdateAlertDisposition (20 * Second) "u1" alert (Some acknowledge)) [] firing.
Definition ignored : DispositionTables :=
  tables_after (UpdateAlertDisposition (30 * Second) "u1" alert (Some ignore)) [] acknowledged.

Lemma start_dispositions_inv : dispositions_inv start.
Proof. split; [exact EvalDemo.start_inv|by intros id a H|constructor|done|done]. Qed.

Example history_of_the_demo :
  (fun row => (de_From row, de_To row, df_note (de_Fields row))) <$> history ignored alert =
  [("NONE", "ACKED", Some "on it"); ("ACKED", "IGNORED", None)].
Proof. vm_compute. reflexivity. Qed.
End DispositionDemo.

Lemma disposition_history_accounts_witness :
  dispositions_inv DispositionDemo.ignored /\ preserved DispositionDemo.start DispositionDemo.ignored.
Proof.
  apply disposition_history_accounts; [exact DispositionDemo.start_dispositions_inv|].
  apply reached_update; [|constructor]. apply reached_update; [|constructor]. apply reached_pass, reached_start.
Defined.

Lemma disposition_requests_answered_witness :
  exists d t', UpdateAlertDisposition (20 * Second) "u1" DispositionDemo.alert (Some DispositionDemo.acknowledge) []
    DispositionDemo.firing = (Ok (R200 d), t', []).
Proof.
  destruct (dt_alert DispositionDemo.firing !! DispositionDemo.alert) as [a|] eqn:Ha; [|vm_compute in Ha; discriminate].
  destruct (disposition_requests_answered (20 * Second) "u1" DispositionDemo.alert (Some DispositionDemo.acknowledge) []
    DispositionDemo.firing) as [_ H]; [constructor|].
  assert (ai_Status a = FIRING /\ ai_RuleVersion a = 1 /\ ai_Disposition a = "NONE") as (Hs & Hv & Hd)
    by (vm_compute in Ha; injection Ha as <-; repeat split).
  apply (H _ a eq_refl); [left; repeat split|exact Ha|congruence|].
  split; [reflexivity|]. split; [vm_compute; set_solver|]. rewrite Hs, Hv, Hd. split; [lia|]. split; [discriminate|left].
Defined.
