(* ===== verification/InstanceList.v ===== *)
(** The list of instances, filtered, sorted and paged ([internal/httpapi/instance_list.go]),
    and the overview of the fleet that is computed from the same instances
    ([internal/httpapi/fleet_overview.go]). *)

From S2P Require Import Prelude Text AlertState AlertHealth ControlPlane.

(** * Instances *)

Record CollectionPauseStatus : Type := MkPauseStatus {
  ps_Paused : bool;
  ps_UpdatedBy : option string;
  ps_UpdatedAt : option Time;
  ps_Reason : option string;
}.

(** [api.Instance]; [inst_Status] is [Health.Status], and so on. *)
Record APIInstance : Type := MkAPIInstance {
  inst_Id : string;
  inst_Name : string;
  inst_Engine : string;
  inst_Host : string;
  inst_Port : Z;
  inst_Status : HealthStatus;
  inst_Counts : HealthAlertCounts;
  inst_Flags : HealthFlags;
  inst_AgentStatus : string;
  inst_DataFreshnessSeconds : option Z;
  inst_Attribution : option HealthAttribution;
  inst_Database : string;
  inst_Username : string;
  inst_AgentVersion : option string;
  inst_AgentMetricsEnabled : bool;
  inst_AlertStatus : State;
  inst_LastCollectedAt : option Time;
  inst_CollectionPause : CollectionPauseStatus;
}.

Definition string_of_status (s : HealthStatus) : string :=
  match s with
  | HealthCritical => "CRITICAL"
  | HealthWarning => "WARNING"
  | HealthUnknown => "UNKNOWN"
  | HealthHealthy => "HEALTHY"
  | HealthPaused => "PAUSED"
  end.

Definition healthRank (s : HealthStatus) : Z :=
  match s with
  | HealthCritical => 5
  | HealthWarning => 4
  | HealthUnknown => 3
  | HealthHealthy => 2
  | HealthPaused => 1
  end.

Definition staleDataAfterSeconds : Z := 600.

Definition instanceDataIsStale (item : APIInstance) : bool :=
  match inst_Status item with
  | HealthPaused => false
  | _ => match inst_DataFreshnessSeconds item with None => true | Some seconds => staleDataAfterSeconds <? seconds end
  end.

Definition InstanceFlagStaleData : string := "STALE_DATA".
Definition InstanceFlagAgentOffline : string := "AGENT_OFFLINE".
Definition InstanceFlagMaintenance : string := "MAINTENANCE".

Definition instanceHasFlag (item : APIInstance) (flag : string) : bool :=
  let flags := inst_Flags item in
  if bool_decide (flag = "NO_DATA") then flag_NoData flags
  else if bool_decide (flag = InstanceFlagMaintenance) then flag_InMaintenance flags
  else if bool_decide (flag = "RECENTLY_RECOVERED") then flag_RecentlyRecovered flags
  else if bool_decide (flag = "IGNORED") then 0 <? flag_Ignored flags
  else if bool_decide (flag = "CONFIGURATION_MISSING") then 0 <? flag_ConfigurationMissing flags
  else if bool_decide (flag = InstanceFlagStaleData) then instanceDataIsStale item
  else if bool_decide (flag = InstanceFlagAgentOffline) then bool_decide (inst_AgentStatus item = AgentStatusOffline)
  else false.

Definition instanceHasSeverity (item : APIInstance) (severity : string) : bool :=
  let counts := inst_Counts item in
  if bool_decide (severity = "critical") then 0 <? count_Critical counts
  else if bool_decide (severity = "warning") then 0 <? count_Warning counts
  else if bool_decide (severity = "info") then 0 <? count_Info counts
  else false.

(** * The query *)

Definition defaultInstancePage : Z := 1.
Definition defaultInstancePageSize : Z := 50.
Definition maxInstancePageSize : Z := 500.

(** The parameters of the request; every one is optional. *)
Record ListInstancesParams : Type := MkListInstancesParams {
  par_Page : option Z;
  par_PageSize : option Z;
  par_Q : option string;
  par_Engine : option (list string);
  par_Status : option (list string);
  par_Flags : option (list string);
  par_Severity : option (list string);
  par_Sort : option string;
}.

Record instanceListQuery : Type := MkInstanceListQuery {
  q_page : Z;
  q_pageSize : Z;
  q_search : string;
  q_engines : list string;
  q_statuses : list string;
  q_flags : list string;
  q_severities : list string;
  q_sort : string;
}.

Section List.
(** [strings.ToLower] *)
Context (ToLower : string -> string).

Definition newInstanceListQuery (params : ListInstancesParams) : instanceListQuery :=
  MkInstanceListQuery
    (match par_Page params with Some page => if 0 <? page then page else defaultInstancePage | None => defaultInstancePage end)
    (match par_PageSize params with
     | Some size => if 0 <? size then (if maxInstancePageSize <? size then maxInstancePageSize else size) else defaultInstancePageSize
     | None => defaultInstancePageSize end)
    (match par_Q params with Some search => ToLower (TrimSpace search) | None => EmptyString end)
    (default [] (par_Engine params)) (default [] (par_Status params)) (default [] (par_Flags params))
    (default [] (par_Severity params))
    (match par_Sort params with Some order => if bool_decide (order = EmptyString) then "health" else order | None => "health" end).

Definition instanceMatchesSearch (item : APIInstance) (search : string) : bool :=
  let address := inst_Host item +:+ ":" +:+ Itoa (inst_Port item) in
  Contains (ToLower (inst_Name item)) search || Contains (ToLower address) search.

(** A group of alternatives that is empty does not restrict. *)
Definition one_of (alternatives : list string) (matches : string -> bool) : bool :=
  bool_decide (alternatives = []) || existsb matches alternatives.

Definition instanceMatches (item : APIInstance) (query : instanceListQuery) : bool :=
  if negb (bool_decide (q_search query = EmptyString)) && negb (instanceMatchesSearch item (q_search query)) then false
  else if negb (one_of (q_engines query) (fun engine => bool_decide (engine = inst_Engine item))) then false
  else if negb (one_of (q_statuses query) (fun status => bool_decide (status = string_of_status (inst_Status item)))) then false
  else if negb (forallb (instanceHasFlag item) (q_flags query)) then false
  else one_of (q_severities query) (instanceHasSeverity item).

(** * Order *)

Definition instanceStableOrder (first second : APIInstance) : bool :=
  if negb (bool_decide (inst_Name first = inst_Name second)) then string_ltb (inst_Name first) (inst_Name second)
  else string_ltb (inst_Id first) (inst_Id second).

(** [int(^uint(0) >> 1)] for an instance that was never collected. *)
Definition instanceStaleness (item : APIInstance) : Z := default (2 ^ 63 - 1) (inst_DataFreshnessSeconds item).

Definition instanceLess (order : string) (first second : APIInstance) : bool :=
  if bool_decide (order = "name") then
    if negb (bool_decide (inst_Name first = inst_Name second)) then string_ltb (inst_Name first) (inst_Name second)
    else instanceStableOrder first second
  else if bool_decide (order = "-name") then
    if negb (bool_decide (inst_Name first = inst_Name second)) then string_ltb (inst_Name second) (inst_Name first)
    else instanceStableOrder first second
  else if bool_decide (order = "stalest") then
    if negb (instanceStaleness first =? instanceStaleness second) then instanceStaleness second <? instanceStaleness first
    else instanceStableOrder first second
  else
    if negb (healthRank (inst_Status first) =? healthRank (inst_Status second))
    then healthRank (inst_Status second) <? healthRank (inst_Status first)
    else instanceStableOrder first second.

Definition sortInstances (instances : list APIInstance) (order : string) : list APIInstance := sort_by (instanceLess order) instances.

(** * A page *)

(** [None] is the run-time panic of [matched[start:end]] with a negative [start]: the
    product of two [int] wraps. *)
Definition selectInstances (instances : list APIInstance) (query : instanceListQuery) : option (list APIInstance * Z) :=
  let matched := sortInstances (filter (fun item => instanceMatches item query = true) instances) (q_sort query) in
  let total := Z.of_nat (length matched) in
  let start := int64 ((q_page query - 1) * q_pageSize query) in
  if total <=? start then Some ([], total)
  else
    let last := int64 (start + q_pageSize query) in
    let last := if total <? last then total else last in
    if (start <? 0) || (last <? start) then None
    else Some (take (Z.to_nat (last - start)) (drop (Z.to_nat start) matched), total).
End List.

(** * The overview *)

Definition attentionLimit : nat := 10.

Definition needsAttention (item : APIInstance) : bool :=
  match inst_Status item with
  | HealthCritical | HealthWarning | HealthUnknown => true
  | HealthHealthy | HealthPaused => false
  end.

Definition attentionLess (first second : APIInstance) : bool :=
  let rank i := healthRank (inst_Status i) in
  let critical i := count_Critical (inst_Counts i) in
  let warning i := count_Warning (inst_Counts i) in
  let info i := count_Info (inst_Counts i) in
  if negb (rank first =? rank second) then rank second <? rank first
  else if negb (critical first =? critical second) then critical second <? critical first
  else if negb (warning first =? warning second) then warning second <? warning first
  else if negb (info first =? info second) then info second <? info first
  else instanceStableOrder first second.

Definition sortByAttention (instances : list APIInstance) : list APIInstance := sort_by attentionLess instances.

Definition instancesNeedingAttention (instances : list APIInstance) : list APIInstance :=
  take attentionLimit (sortByAttention (filter (fun item => needsAttention item = true) instances)).

(** [api.FleetHealthCounts] and [api.FleetCollectionHealth]. *)
Record FleetHealthCounts : Type := MkFleetHealthCounts {
  fleet_Critical : Z;
  fleet_Warning : Z;
  fleet_Unknown : Z;
  fleet_Healthy : Z;
  fleet_Paused : Z;
}.

Record FleetCollectionHealth : Type := MkFleetCollectionHealth {
  fleet_StaleData : Z;
  fleet_AgentOffline : Z;
  fleet_CollectionPaused : Z;
}.

(** [api.FleetOverview] but for the storage and the statements, which are read
    elsewhere. *)
Record FleetOverview : Type := MkFleetOverview {
  fleet_Total : Z;
  fleet_Attention : list APIInstance;
  fleet_Health : FleetHealthCounts;
  fleet_Collection : FleetCollectionHealth;
}.

Definition count_health (counts : FleetHealthCounts) (item : APIInstance) : FleetHealthCounts :=
  let '(MkFleetHealthCounts critical warning unknown healthy paused) := counts in
  match inst_Status item with
  | HealthCritical => MkFleetHealthCounts (incr critical) warning unknown healthy paused
  | HealthWarning => MkFleetHealthCounts critical (incr warning) unknown healthy paused
  | HealthUnknown => MkFleetHealthCounts critical warning (incr unknown) healthy paused
  | HealthHealthy => MkFleetHealthCounts critical warning unknown (incr healthy) paused
  | HealthPaused => MkFleetHealthCounts critical warning unknown healthy (incr paused)
  end.

Definition count_collection (counts : FleetCollectionHealth) (item : APIInstance) : FleetCollectionHealth :=
  let '(MkFleetCollectionHealth stale offline paused) := counts in
  MkFleetCollectionHealth
    (if instanceHasFlag item InstanceFlagStaleData then incr stale else stale)
    (if instanceHasFlag item InstanceFlagAgentOffline then incr offline else offline)
    (match inst_Status item with HealthPaused => incr paused | _ => paused end).

Definition summarizeFleet (instances : list APIInstance) : FleetOverview :=
  let '(health, collection) :=
    foldl (fun '(health, collection) item => (count_health health item, count_collection collection item))
      (MkFleetHealthCounts 0 0 0 0 0, MkFleetCollectionHealth 0 0 0) instances in
  MkFleetOverview (Z.of_nat (length instances)) (instancesNeedingAttention instances) health collection.

(** * Orders *)

(** A [less] function that sorts, and tells instances with distinct ids apart. *)
Record good_order (less : APIInstance -> APIInstance -> bool) : Prop := MkGoodOrder {
  good_trans : forall x y z, less x y = true -> less y z = true -> less x z = true;
  good_irrefl : forall x, less x x = false;
  good_total : forall x y z, less y x = false -> less z y = false -> less z x = false;
  good_ids : forall x y, less x y = false -> less y x = false -> inst_Id x = inst_Id y;
}.

(** Comparing a key first, and by [rest] where it is the same. *)
Lemma by_key {B} (key : APIInstance -> B) (eqb ltb : B -> B -> bool) rest :
  (forall a b, eqb a b = true <-> a = b) -> (forall a b c, ltb a b = true -> ltb b c = true -> ltb a c = true) ->
  (forall a, ltb a a = false) -> (forall a b, a <> b -> ltb a b = false -> ltb b a = true) -> good_order rest ->
  good_order (fun x y => if negb (eqb (key x) (key y)) then ltb (key x) (key y) else rest x y).
Proof.
  intros Heq Htrans Hirr Htotal [Ht Hi Htot Hids].
  assert (forall a b, ltb a b = true -> a <> b) as Hne by (intros a b H ->; by rewrite Hirr in H).
  assert (forall a b, eqb a b = false <-> a <> b) as Heqf by (intros a b; rewrite <-not_true_iff_false, Heq; done).
  assert (forall a b, ltb a b = true -> ltb b a = false) as Hasym.
  { intros a b H. apply not_true_iff_false. intros H'. by destruct (Hne a a (Htrans _ _ _ H H')). }
  split.
  - intros x y z. destruct (eqb (key x) (key y)) eqn:E1, (eqb (key y) (key z)) eqn:E2; simpl;
      rewrite ?Heq, ?Heqf in *; intros H1 H2.
    + rewrite E1, E2, (proj2 (Heq _ _) eq_refl). simpl. eauto.
    + rewrite E1, (proj2 (Heqf _ _) E2). done.
    + rewrite <-E2, (proj2 (Heqf _ _) E1). done.
    + pose proof (Htrans _ _ _ H1 H2) as H. rewrite (proj2 (Heqf _ _) (Hne _ _ H)). done.
  - intros x. rewrite (proj2 (Heq _ _) eq_refl). simpl. apply Hi.
  - intros x y z. destruct (eqb (key y) (key x)) eqn:E1, (eqb (key z) (key y)) eqn:E2; simpl;
      rewrite ?Heq, ?Heqf in *; intros H1 H2.
    + rewrite E2, E1, (proj2 (Heq _ _) eq_refl). simpl. eauto.
    + rewrite <-E1, (proj2 (Heqf _ _) E2). done.
    + rewrite E2, (proj2 (Heqf _ _) E1). done.
    + assert (ltb (key x) (key z) = true) as H by eauto.
      assert (key z <> key x) as Hzx by (intros Ez; by apply (Hne _ _ H)). rewrite (proj2 (Heqf _ _) Hzx). simpl. auto.
  - intros x y. destruct (eqb (key x) (key y)) eqn:E; simpl; rewrite ?Heq, ?Heqf in *.
    + rewrite E, (proj2 (Heq _ _) eq_refl). simpl. apply Hids.
    + rewrite (proj2 (Heqf _ _) (not_eq_sym E)). simpl. intros H1 H2. rewrite (Htotal _ _ E H1) in H2. done.
Qed.

Lemma by_ids : good_order (fun x y => string_ltb (inst_Id x) (inst_Id y)).
Proof.
  split.
  - intros x y z. apply string_ltb_trans.
  - intros x. apply string_ltb_irrefl.
  - intros x y z H1 H2. apply not_true_iff_false. intros H3. destruct (decide (inst_Id x = inst_Id y)) as [E|E].
    { rewrite <-E in H2. congruence. }
    destruct (string_ltb (inst_Id x) (inst_Id y)) eqn:H4; [rewrite (string_ltb_trans _ _ _ H3 H4) in H2; done|].
    by apply E, string_ltb_total.
  - intros x y H1 H2. by apply string_ltb_total.
Qed.

Lemma string_ltb_other (a b : string) : a <> b -> string_ltb a b = false -> string_ltb b a = true.
Proof. intros Hne H. destruct (string_ltb b a) eqn:E; [done|]. by destruct Hne; apply string_ltb_total. Qed.

(** By a name in either direction. *)
Lemma by_name (ltb : string -> string -> bool) rest :
  (forall a b, ltb a b = string_ltb a b) \/ (forall a b, ltb a b = string_ltb b a) -> good_order rest ->
  good_order (fun x y => if negb (bool_decide (inst_Name x = inst_Name y)) then ltb (inst_Name x) (inst_Name y) else rest x y).
Proof.
  intros Hl Hr. pose (eqb (a b : string) := bool_decide (a = b)).
  apply (by_key inst_Name eqb ltb); [intros a b; apply bool_decide_eq_true|..|done];
    destruct Hl as [Hl|Hl]; intros *; rewrite !Hl;
    eauto using string_ltb_trans, string_ltb_irrefl, string_ltb_other.
Qed.

Lemma stable_order : good_order instanceStableOrder.
Proof.
  apply (by_name string_ltb); [by left|apply by_ids].
Qed.

Lemma descending (key : APIInstance -> Z) rest :
  good_order rest -> good_order (fun x y => if negb (key x =? key y) then key y <? key x else rest x y).
Proof.
  intros H. apply (by_key key Z.eqb (fun a b => b <? a)); [apply Z.eqb_eq|..|done];
    intros; rewrite ?Z.ltb_lt, ?Z.ltb_ge in *; lia.
Qed.

Lemma instanceLess_good order : good_order (instanceLess order).
Proof.
  unfold instanceLess. destruct (bool_decide (order = "name")).
  { apply (by_name string_ltb); [by left|apply stable_order]. }
  destruct (bool_decide (order = "-name")).
  { apply (by_name (fun a b => string_ltb b a)); [by right|apply stable_order]. }
  destruct (bool_decide (order = "stalest")); [apply descending, stable_order|].
  apply (descending (fun i => healthRank (inst_Status i))), stable_order.
Qed.

Lemma attentionLess_good : good_order attentionLess.
Proof. do 4 apply (descending _ _). apply stable_order. Qed.

Lemma good_in_order less l : good_order less -> in_order less (sort_by less l).
Proof. intros [Ht Hi Htot _]. by apply sort_by_in_order. Qed.

(** The order of a sorted list does not depend on the order in which instances with
    distinct ids were read. *)
Lemma good_unique less l l' :
  good_order less -> NoDup (inst_Id <$> l) -> l ≡ₚ l' -> sort_by less l = sort_by less l'.
Proof.
  intros Hg Hnd Hp. apply (in_order_unique less); [|by apply good_in_order..|by rewrite !sort_by_perm].
  intros x y Hx Hy H1 H2. pose proof (good_ids _ Hg x y H1 H2) as Hid. rewrite elem_of_sort_by in Hx, Hy.
  apply list_elem_of_lookup in Hx as [i Hi], Hy as [j Hj].
  assert (i = j) as ->; [|congruence].
  eapply NoDup_lookup; [exact Hnd|rewrite list_lookup_fmap, Hi; simpl; by rewrite Hid|by rewrite list_lookup_fmap, Hj].
Qed.

(** * Pages *)

Section Pages.
Context (ToLower : string -> string).

(** All that match, in order. *)
Definition matching (instances : list APIInstance) (query : instanceListQuery) : list APIInstance :=
  sortInstances (filter (fun item => instanceMatches ToLower item query = true) instances) (q_sort query).

Definition at_page (page : Z) (query : instanceListQuery) : instanceListQuery :=
  MkInstanceListQuery page (q_pageSize query) (q_search query) (q_engines query) (q_statuses query) (q_flags query)
    (q_severities query) (q_sort query).

Lemma newInstanceListQuery_bounds params :
  1 <= q_page (newInstanceListQuery ToLower params) /\ 1 <= q_pageSize (newInstanceListQuery ToLower params) <= 500.
Proof.
  unfold newInstanceListQuery, defaultInstancePage, defaultInstancePageSize, maxInstancePageSize. simpl.
  split; repeat case_match; bool_to_prop; rewrite ?Z.ltb_lt, ?Z.ltb_ge in *; lia.
Qed.

Lemma length_matching instances query : (length (matching instances query) <= length instances)%nat.
Proof. unfold matching, sortInstances. rewrite length_sort_by. apply length_filter. Qed.

Lemma take_drop_past {A} (n k : nat) (l : list A) : (length l <= k)%nat -> take n (drop k l) = [].
Proof. intros H. rewrite drop_ge by done. by rewrite take_nil. Qed.

Lemma selectInstances_page instances query :
  Z.of_nat (length instances) < 2 ^ 62 -> 1 <= q_page query -> 1 <= q_pageSize query <= 500 ->
  (q_page query - 1) * q_pageSize query < 2 ^ 63 ->
  selectInstances ToLower instances query =
  Some (take (Z.to_nat (q_pageSize query)) (drop (Z.to_nat ((q_page query - 1) * q_pageSize query)) (matching instances query)),
        Z.of_nat (length (matching instances query))).
Proof.
  intros Hl Hp Hs Hover. unfold selectInstances. fold (matching instances query).
  pose proof (length_matching instances query) as Hm. set (l := matching instances query) in *.
  set (start := (q_page query - 1) * q_pageSize query) in *. assert (0 <= start) by nia.
  rewrite (int64_id start) by (unfold in_int64; lia). destruct (Z.leb_spec (Z.of_nat (length l)) start).
  { rewrite take_drop_past by lia. done. }
  rewrite (int64_id (start + _)) by (unfold in_int64; lia).
  destruct (Z.ltb_spec (Z.of_nat (length l)) (start + q_pageSize query)).
  - replace ((start <? 0) || _) with false by (symmetry; apply orb_false_iff; split; apply Z.ltb_ge; lia).
    f_equal. f_equal. rewrite !take_ge; [done|rewrite length_drop; lia..].
  - replace ((start <? 0) || _) with false by (symmetry; apply orb_false_iff; split; apply Z.ltb_ge; lia).
    f_equal. f_equal. f_equal. lia.
Qed.

(** What is on a page, by the place in the list. *)
Lemma elem_of_page {A} (l : list A) (size page : Z) x :
  1 <= size -> 1 <= page ->
  x ∈ take (Z.to_nat size) (drop (Z.to_nat ((page - 1) * size)) l) <->
  exists i, l !! i = Some x /\ page = Z.of_nat i / size + 1.
Proof.
  intros Hs Hp. rewrite list_elem_of_lookup. setoid_rewrite lookup_take_Some. setoid_rewrite lookup_drop. split.
  - intros (i & Hi & Hlt). eexists. split; [exact Hi|]. assert (0 <= (page - 1) * size) by nia.
    replace (Z.of_nat (Z.to_nat ((page - 1) * size) + i)) with (Z.of_nat i + (page - 1) * size) by lia.
    rewrite Z.div_add by lia. rewrite (Z.div_small (Z.of_nat i)) by lia. lia.
  - intros (i & Hi & ->). exists (i - Z.to_nat (Z.of_nat i / size * size))%nat.
    pose proof (Z.div_mod (Z.of_nat i) size ltac:(lia)). pose proof (Z.mod_pos_bound (Z.of_nat i) size ltac:(lia)).
    assert (0 <= Z.of_nat i / size) by (apply Z.div_pos; lia).
    replace (Z.of_nat i / size + 1 - 1) with (Z.of_nat i / size) by lia. split; [|lia].
    rewrite <-Hi. f_equal. nia.
Qed.
End Pages.

(** C19. Paging through the list shows every instance that matches exactly once: with
    any parameters there is one list of the matching instances, in the requested order
    and whatever order they were read in, of which page [p] is exactly the stretch of
    [size] elements from [(p - 1) * size] on, in order, and the total its length; an
    instance that matches is on one page and no other, one that does not is on none, and
    a page beyond the end is empty with the same total. Identifiers are unique, and the
    page numbers are those whose offset fits 64 bits ([far_page_panics] has one that does
    not). *)
Theorem pages_partition_the_list (ToLower : string -> string) (params : ListInstancesParams) (instances : list APIInstance) :
  NoDup (inst_Id <$> instances) -> Z.of_nat (length instances) < 2 ^ 62 ->
  let query := newInstanceListQuery ToLower params in
  let size := q_pageSize query in
  let all := matching ToLower instances query in
  let total := Z.of_nat (length all) in
  in_order (instanceLess (q_sort query)) all /\
  (forall read page, read ≡ₚ instances -> 1 <= page -> (page - 1) * size < 2 ^ 63 ->
     exists items, selectInstances ToLower read (at_page page query) = Some (items, total) /\
       items = take (Z.to_nat size) (drop (Z.to_nat ((page - 1) * size)) all) /\
       (forall item, item ∈ items <-> exists i, all !! i = Some item /\ page = Z.of_nat i / size + 1) /\
       (total <= (page - 1) * size -> items = [])) /\
  (forall item, item ∈ instances -> instanceMatches ToLower item query = true ->
     exists i, all !! i = Some item /\ forall j, all !! j = Some item -> j = i) /\
  (forall item, item ∈ all -> item ∈ instances /\ instanceMatches ToLower item query = true).
Proof.
  intros Hnd Hl query size all total. destruct (newInstanceListQuery_bounds ToLower params) as [_ Hs]. fold query size in Hs.
  assert (NoDup (inst_Id <$> filter (fun item => instanceMatches ToLower item query = true) instances)) as Hnd'.
  { eapply sublist_NoDup; [exact Hnd|apply fmap_sublist, sublist_filter]. }
  assert (forall item, item ∈ all <-> instanceMatches ToLower item query = true /\ item ∈ instances) as Hall.
  { intros item. unfold all, matching, sortInstances. by rewrite elem_of_sort_by, list_elem_of_filter. }
  split; [apply good_in_order, instanceLess_good|]. split_and!.
  - intros read page Hr Hp Hover.
    assert (matching ToLower read (at_page page query) = all) as Hm.
    { unfold all, matching, sortInstances. change (q_sort (at_page page query)) with (q_sort query).
      symmetry. apply good_unique; [apply instanceLess_good|done|]. by rewrite Hr. }
    eexists. split; [rewrite selectInstances_page, Hm; try done; by rewrite Hr|]. change (q_page (at_page page query)) with page. change (q_pageSize (at_page page query)) with size. split_and!.
    + reflexivity.
    + intros item. apply elem_of_page; lia.
    + intros Hend. apply take_drop_past. unfold total in Hend. lia.
  - intros item Hi Hm. assert (item ∈ all) as [i Hil]%list_elem_of_lookup by by apply Hall.
    exists i. split; [done|]. intros j Hj. eapply NoDup_lookup; [|exact Hj|exact Hil].
    unfold all, matching, sortInstances. rewrite sort_by_perm. by eapply NoDup_fmap_1.
  - intros item H. by apply Hall in H as [? ?].
Qed.

(** A page far beyond the end stops the request with a panic instead. *)
Example far_page_panics :
  selectInstances (fun s => s) [] (newInstanceListQuery (fun s => s)
    (MkListInstancesParams (Some (2 ^ 62)) (Some 4) None None None None None None)) = None.
Proof. reflexivity. Qed.

(** * The overview *)

Definition with_status (s : HealthStatus) : ListInstancesParams :=
  MkListInstancesParams None None None None (Some [string_of_status s]) None None None.
Definition with_flag (flag : string) : ListInstancesParams :=
  MkListInstancesParams None None None None None (Some [flag]) None None.

Lemma status_matches ToLower s item :
  instanceMatches ToLower item (newInstanceListQuery ToLower (with_status s)) = bool_decide (string_of_status s = string_of_status (inst_Status item)).
Proof.
  unfold instanceMatches, with_status, newInstanceListQuery, one_of. simpl. rewrite orb_false_r. by case_bool_decide.
Qed.

Lemma flag_matches ToLower flag item :
  instanceMatches ToLower item (newInstanceListQuery ToLower (with_flag flag)) = instanceHasFlag item flag.
Proof. unfold instanceMatches, with_flag, newInstanceListQuery, one_of. simpl. rewrite andb_true_r. by destruct (instanceHasFlag item flag). Qed.

Definition count_status (s : HealthStatus) (counts : FleetHealthCounts) : Z :=
  match s with
  | HealthCritical => fleet_Critical counts
  | HealthWarning => fleet_Warning counts
  | HealthUnknown => fleet_Unknown counts
  | HealthHealthy => fleet_Healthy counts
  | HealthPaused => fleet_Paused counts
  end.

Definition counted (P : APIInstance -> bool) (instances : list APIInstance) : Z := Z.of_nat (length (filter (fun i => P i = true) instances)).

Lemma counted_snoc P instances item : counted P (instances ++ [item]) = counted P instances + (if P item then 1 else 0).
Proof.
  unfold counted. rewrite filter_app, length_app, filter_cons. destruct (P item); simpl; lia.
Qed.

Lemma counted_bound P instances : 0 <= counted P instances <= Z.of_nat (length instances).
Proof. unfold counted. pose proof (length_filter (fun i => P i = true) instances). lia. Qed.

(** The total of the first page counts what matches. *)
Lemma first_page_total ToLower instances params P :
  Z.of_nat (length instances) < 2 ^ 62 -> par_Page params = None ->
  (forall item, instanceMatches ToLower item (newInstanceListQuery ToLower params) = P item) ->
  exists items, selectInstances ToLower instances (newInstanceListQuery ToLower params) = Some (items, counted P instances).
Proof.
  intros Hl Hp Hm. set (query := newInstanceListQuery ToLower params) in *.
  destruct (newInstanceListQuery_bounds ToLower params) as [Hpage Hs]. fold query in Hpage, Hs.
  assert (q_page query = 1) as H1 by (unfold query, newInstanceListQuery; simpl; by rewrite Hp).
  eexists. rewrite selectInstances_page by (rewrite ?H1; lia). unfold matching, sortInstances, counted. rewrite length_sort_by.
  do 3 f_equal. apply f_equal, filter_ext_elem. intros item _. by rewrite Hm.
Qed.

(** What the loop has counted. *)
Record counted_so_far (instances : list APIInstance) (health : FleetHealthCounts) (collection : FleetCollectionHealth) : Prop := MkCountedSoFar {
  so_far_status : forall s, count_status s health = counted (fun i => bool_decide (string_of_status s = string_of_status (inst_Status i))) instances;
  so_far_stale : fleet_StaleData collection = counted (fun i => instanceHasFlag i InstanceFlagStaleData) instances;
  so_far_offline : fleet_AgentOffline collection = counted (fun i => instanceHasFlag i InstanceFlagAgentOffline) instances;
  so_far_paused : fleet_CollectionPaused collection = fleet_Paused health;
}.

Lemma summarize_counts instances :
  Z.of_nat (length instances) < 2 ^ 62 -> counted_so_far instances (fleet_Health (summarizeFleet instances)) (fleet_Collection (summarizeFleet instances)).
Proof.
  unfold summarizeFleet. induction instances as [|item instances IH] using rev_ind; intros Hl; [split; try done; by intros []|].
  rewrite length_app in Hl. simpl in Hl. specialize (IH ltac:(lia)). rewrite foldl_app. simpl.
  destruct (foldl _ _ instances) as [[critical warning unknown healthy paused] [stale offline cpaused]]. simpl in IH.
  destruct IH as [Hst Hs Ho Hp].
  assert (forall P n, n = counted P instances -> incr n = n + 1) as Hincr.
  { intros P n ->. apply incr_id. pose proof (counted_bound P instances). unfold in_int64. lia. }
  split.
  - intros s. pose proof (Hst s) as H. rewrite counted_snoc, <-H. pose proof (Hincr _ _ H) as Hi.
    simpl. destruct (inst_Status item), s; simpl in *; lia.
  - rewrite counted_snoc, <-Hs. simpl in *. destruct (instanceHasFlag item InstanceFlagStaleData); simpl; [by rewrite (Hincr _ _ Hs)|lia].
  - rewrite counted_snoc, <-Ho. simpl in *. destruct (instanceHasFlag item InstanceFlagAgentOffline); simpl; [by rewrite (Hincr _ _ Ho)|lia].
  - simpl in *. subst cpaused. by destruct (inst_Status item).
Qed.

(** Every instance has one status. *)
Lemma all_counted instances :
  counted (fun i => bool_decide (string_of_status HealthCritical = string_of_status (inst_Status i))) instances +
  counted (fun i => bool_decide (string_of_status HealthWarning = string_of_status (inst_Status i))) instances +
  counted (fun i => bool_decide (string_of_status HealthUnknown = string_of_status (inst_Status i))) instances +
  counted (fun i => bool_decide (string_of_status HealthHealthy = string_of_status (inst_Status i))) instances +
  counted (fun i => bool_decide (string_of_status HealthPaused = string_of_status (inst_Status i))) instances = Z.of_nat (length instances).
Proof.
  induction instances as [|item instances IH] using rev_ind; [done|]. rewrite !counted_snoc, length_app.
  simpl in IH |- *. destruct (inst_Status item); simpl; lia.
Qed.

Lemma in_order_app {A} (less : A -> A -> bool) l1 l2 x y : in_order less (l1 ++ l2) -> x ∈ l1 -> y ∈ l2 -> less y x = false.
Proof.
  unfold in_order. induction l1 as [|z l1 IH]; intros Hs Hx Hy; [by apply elem_of_nil in Hx|].
  inversion Hs as [|? ? Hl Hz]; subst. rewrite Forall_forall in Hz.
  apply elem_of_cons in Hx as [->|Hx]; [apply Hz, elem_of_app; by right|by apply IH].
Qed.

Lemma in_order_take {A} (less : A -> A -> bool) n l : in_order less l -> in_order less (take n l).
Proof.
  unfold in_order. intros Hs. revert n. induction Hs as [|x l Hl IH Hx]; intros [|n]; simpl; constructor; [apply IH|].
  by apply Forall_take.
Qed.

(** The numbers of the fleet overview are those of the list: each health count is
    the total the list answers when filtered by that status, the counts of stale data
    and offline agents those when filtered by that flag, and the health counts sum up to
    the fleet. The instances that need attention are at most ten, each of them
    critical, warning or unknown and in order; one that is missing is not more urgent
    than any of the ten. *)
Theorem overview_matches_the_list (ToLower : string -> string) (instances : list APIInstance) :
  Z.of_nat (length instances) < 2 ^ 62 ->
  let overview := summarizeFleet instances in
  let total params n := exists items, selectInstances ToLower instances (newInstanceListQuery ToLower params) = Some (items, n) in
  (forall s, total (with_status s) (count_status s (fleet_Health overview))) /\
  total (with_flag InstanceFlagStaleData) (fleet_StaleData (fleet_Collection overview)) /\
  total (with_flag InstanceFlagAgentOffline) (fleet_AgentOffline (fleet_Collection overview)) /\
  fleet_CollectionPaused (fleet_Collection overview) = fleet_Paused (fleet_Health overview) /\
  (let h := fleet_Health overview in
   fleet_Critical h + fleet_Warning h + fleet_Unknown h + fleet_Healthy h + fleet_Paused h = fleet_Total overview) /\
  (length (fleet_Attention overview) <= 10)%nat /\ in_order attentionLess (fleet_Attention overview) /\
  (forall item, item ∈ fleet_Attention overview -> item ∈ instances /\ needsAttention item = true) /\
  (forall item, item ∈ instances -> needsAttention item = true -> item ∉ fleet_Attention overview ->
     length (fleet_Attention overview) = 10%nat /\
     forall listed, listed ∈ fleet_Attention overview -> attentionLess item listed = false).
Proof.
  intros Hl overview total. destruct (summarize_counts instances Hl) as [Hst Hs Ho Hp]. fold overview in Hst, Hs, Ho, Hp.
  assert (fleet_Total overview = Z.of_nat (length instances) /\ fleet_Attention overview = instancesNeedingAttention instances) as [Ht Ha].
  { unfold overview, summarizeFleet. by destruct (foldl _ _ _). }
  split_and!.
  - intros s. rewrite Hst. apply first_page_total; [done..|]. apply status_matches.
  - rewrite Hs. apply first_page_total; [done..|]. apply flag_matches.
  - rewrite Ho. apply first_page_total; [done..|]. apply flag_matches.
  - done.
  - cbv zeta. pose proof (Hst HealthCritical) as H1. pose proof (Hst HealthWarning) as H2. pose proof (Hst HealthUnknown) as H3.
    pose proof (Hst HealthHealthy) as H4. pose proof (Hst HealthPaused) as H5. unfold count_status in H1, H2, H3, H4, H5.
    rewrite H1, H2, H3, H4, H5, Ht. apply all_counted.
  - rewrite Ha. unfold instancesNeedingAttention. rewrite length_take. unfold attentionLimit. lia.
  - rewrite Ha. apply in_order_take, good_in_order, attentionLess_good.
  - rewrite Ha. intros item Hi. unfold instancesNeedingAttention in Hi. apply (subseteq_take _ _ _), elem_of_sort_by, list_elem_of_filter in Hi.
    tauto.
  - rewrite Ha. unfold instancesNeedingAttention. set (l := sortByAttention _). intros item Hi Hn Hout.
    assert (item ∈ l) as Hin by (unfold l, sortByAttention; by rewrite elem_of_sort_by, list_elem_of_filter).
    rewrite <-(take_drop attentionLimit l) in Hin. apply elem_of_app in Hin as [Hin|Hin]; [done|].
    split.
    + rewrite length_take. apply list_elem_of_lookup in Hin as [i Hlk]. rewrite lookup_drop in Hlk.
      apply lookup_lt_Some in Hlk. unfold attentionLimit in *. lia.
    + intros listed Hlisted. assert (in_order attentionLess l) as Hord by (apply good_in_order, attentionLess_good).
      rewrite <-(take_drop attentionLimit l) in Hord. by eapply in_order_app.
Qed.

(** * Witnesses *)

Module FleetDemo.
Definition instance (id name : string) (status : HealthStatus) (freshness : option Z) : APIInstance :=
  MkAPIInstance id name "POSTGRESQL" "10.0.0.1" 5432 status (MkHealthAlertCounts 0 0 0) (MkHealthFlags false false false 0 0) "online" freshness
    None "postgres" "monitor" None true OK None (MkPauseStatus false None None None).
Definition fleet : list APIInstance :=
  [instance "3" "b" HealthCritical (Some 30); instance "1" "c" HealthHealthy (Some 5); instance "2" "a" HealthCritical None].
Definition by_two : ListInstancesParams := MkListInstancesParams None (Some 2) None None None None None None.
End FleetDemo.

Lemma pages_partition_the_list_witness :
  exists items, selectInstances (fun s => s) (rev FleetDemo.fleet) (at_page 2 (newInstanceListQuery (fun s => s) FleetDemo.by_two)) = Some (items, 3) /\
    (inst_Id <$> items) = ["1"].
Proof.
  destruct (pages_partition_the_list (fun s => s) FleetDemo.by_two FleetDemo.fleet) as (_ & H & _).
  - apply (bool_decide_unpack _). vm_compute. exact I.
  - vm_compute. reflexivity.
  - destruct (H (rev FleetDemo.fleet) 2) as (items & Hs & _); [symmetry; apply Permutation_rev|lia|vm_compute; reflexivity|].
    exists items. split; [exact Hs|]. vm_compute in Hs. injection Hs as <-. reflexivity.
Defined.

Lemma overview_matches_the_list_witness :
  (inst_Id <$> fleet_Attention (summarizeFleet FleetDemo.fleet)) = ["2"; "3"] /\
  exists items, selectInstances (fun s => s) FleetDemo.fleet (newInstanceListQuery (fun s => s) (with_flag InstanceFlagStaleData)) = Some (items, 1).
Proof.
  split; [vm_compute; reflexivity|].
  destruct (overview_matches_the_list (fun s => s) FleetDemo.fleet) as (_ & [items H] & _); [vm_compute; reflexivity|].
  exists items. exact H.
Defined.
