(* ===== verification/InstanceQueries.v ===== *)
(** The statements on monitored instances, their configuration and what is attached to
    them ([internal/instance/queries.sql.go], and of [internal/alerting] and
    [internal/httpapi] those that work on the alerts and the pause of an instance), with
    the constraints of the migrations that created the tables. *)

From S2P Require Import Prelude Db Text AlertState AlertHealth Dictionary Capability Notify Evaluator AuthQueries Credentials.

(** * Tables *)

(** The columns of [instance] that no other component reads. *)
Record InstanceColumns : Type := MkInstanceColumns {
  ic_Host : string;
  ic_Port : Z;
  ic_DatabaseName : option string;
  ic_Username : string;
  ic_CredentialVersion : Z;
  ic_AgentTokenIssuedAt : option Time;
  ic_AgentFirstRegisteredAt : option Time;
  ic_AgentVersion : option string;
  ic_CreatedAt : Time;
  ic_CreatedBy : option string;
  ic_CredentialUpdatedBy : option string;
  ic_CredentialUpdatedAt : option Time;
}.

(** Who changed the pause of an instance last, when and why. *)
Record PauseColumns : Type := MkPauseColumns {
  pc_UpdatedBy : option string;
  pc_UpdatedAt : option Time;
  pc_Reason : option string;
}.

(** The tables of the evaluator, of authentication and of the key ring hold the columns
    of [instance] and [instance_collection_config] these components read; [it_row] and
    [it_pause] hold the others. [it_capability] is the stored snapshot as what its JSON
    text decodes to, [it_removed] the column [removed_at] of [instance_identity], and
    [it_acted] the alert events with an actor, in the order of their ids. *)
Record InstanceTables : Type := MkInstanceTables {
  it_eval : EvalTables;
  it_auth : AuthTables;
  it_world : World;
  it_row : gmap string InstanceColumns;
  it_pause : gmap string PauseColumns;
  it_capability : gmap string (Time * result CapabilityStates);
  it_removed : gmap string Time;
  it_acted : list (AlertEvent * string);
}.

Definition with_eval (e : EvalTables) (t : InstanceTables) : InstanceTables :=
  MkInstanceTables e (it_auth t) (it_world t) (it_row t) (it_pause t) (it_capability t) (it_removed t) (it_acted t).
Definition with_auth (a : AuthTables) (t : InstanceTables) : InstanceTables :=
  MkInstanceTables (it_eval t) a (it_world t) (it_row t) (it_pause t) (it_capability t) (it_removed t) (it_acted t).
Definition with_world (w : World) (t : InstanceTables) : InstanceTables :=
  MkInstanceTables (it_eval t) (it_auth t) w (it_row t) (it_pause t) (it_capability t) (it_removed t) (it_acted t).
Definition with_rows (m : gmap string InstanceColumns) (t : InstanceTables) : InstanceTables :=
  MkInstanceTables (it_eval t) (it_auth t) (it_world t) m (it_pause t) (it_capability t) (it_removed t) (it_acted t).
Definition with_pause (m : gmap string PauseColumns) (t : InstanceTables) : InstanceTables :=
  MkInstanceTables (it_eval t) (it_auth t) (it_world t) (it_row t) m (it_capability t) (it_removed t) (it_acted t).
Definition with_capability (m : gmap string (Time * result CapabilityStates)) (t : InstanceTables) : InstanceTables :=
  MkInstanceTables (it_eval t) (it_auth t) (it_world t) (it_row t) (it_pause t) m (it_removed t) (it_acted t).
Definition with_removed (m : gmap string Time) (t : InstanceTables) : InstanceTables :=
  MkInstanceTables (it_eval t) (it_auth t) (it_world t) (it_row t) (it_pause t) (it_capability t) m (it_acted t).
Definition with_acted (l : list (AlertEvent * string)) (t : InstanceTables) : InstanceTables :=
  MkInstanceTables (it_eval t) (it_auth t) (it_world t) (it_row t) (it_pause t) (it_capability t) (it_removed t) l.

(** The evaluator, authentication and the key ring on these tables. *)
Definition in_eval {A} (m : DB EvalTables A) : DB InstanceTables A := focus it_eval with_eval m.
Definition in_auth {A} (m : DB AuthTables A) : DB InstanceTables A := focus it_auth with_auth m.
Definition in_world {A} (m : DB World A) : DB InstanceTables A := focus it_world with_world m.

Definition set_instances (m : gmap string EvalInstance) (t : EvalTables) : EvalTables :=
  MkEvalTables (e_notify t) m (e_config t) (e_source t) (e_rule_version t) (e_catalog t) (e_scope t) (e_evaluated t) (e_series t)
    (e_sample t) (e_trigger_snapshot t) (e_trigger_session t) (e_performance_event t).
Definition set_configs (m : gmap string EvalConfig) (t : EvalTables) : EvalTables :=
  MkEvalTables (e_notify t) (e_instance t) m (e_source t) (e_rule_version t) (e_catalog t) (e_scope t) (e_evaluated t) (e_series t)
    (e_sample t) (e_trigger_snapshot t) (e_trigger_session t) (e_performance_event t).
Definition set_agents (m : gmap string AgentCredential) (t : AuthTables) : AuthTables :=
  MkAuthTables (au_user t) (au_session t) (au_event t) m (au_health t).
Definition set_identity (m : gmap string string) (t : NotifyTables) : NotifyTables :=
  MkNotifyTables (n_alert t) (n_event t) (n_rule t) m (n_policy t) (n_policy_channel t) (n_policy_contact t) (n_policy_contact_group t)
    (n_group_member t) (n_contact_email t) (n_smtp t) (n_webhook t) (n_window t) (n_window_instance t) (n_delivery t)
    (n_attempt t) (n_issued t) (n_outbox t).

(** What [ON DELETE CASCADE] takes along with an instance: its configuration, source
    states, scopes, evaluation states and places in maintenance windows. *)
Definition cascade (id : string) (t : EvalTables) : EvalTables :=
  let n := e_notify t in
  MkEvalTables
    (MkNotifyTables (n_alert n) (n_event n) (n_rule n) (n_identity n) (n_policy n) (n_policy_channel n) (n_policy_contact n)
       (n_policy_contact_group n) (n_group_member n) (n_contact_email n) (n_smtp n) (n_webhook n) (n_window n)
       (filter (fun p => p.2 <> id) (n_window_instance n)) (n_delivery n) (n_attempt n) (n_issued n) (n_outbox n))
    (delete id (e_instance t)) (delete id (e_config t)) (filter (fun p => p.1.1 <> id) (e_source t)) (e_rule_version t)
    (e_catalog t) (filter (fun p => p.2 <> id) (e_scope t)) (filter (fun p => p.1.1.2 <> id) (e_evaluated t)) (e_series t)
    (e_sample t) (e_trigger_snapshot t) (e_trigger_session t) (e_performance_event t).

(** * Rows *)

(** A row of [instance]; [ir_Password] is the ciphertext with the version of its key. *)
Record InstanceRow : Type := MkInstanceRow {
  ir_Name : string;
  ir_Engine : string;
  ir_AgentExpected : bool;
  ir_AgentTokenHash : option string;
  ir_AgentTokenRevokedAt : option Time;
  ir_Password : string * Z;
  ir_Columns : InstanceColumns;
}.

Definition instance_row (t : InstanceTables) (id : string) : option InstanceRow :=
  inst ← e_instance (it_eval t) !! id;
  agent ← au_agent (it_auth t) !! id;
  password ← w_instance (it_world t) !! id;
  columns ← it_row t !! id;
  Some (MkInstanceRow (inst_Name inst) (inst_Engine inst) (inst_AgentExpected inst) (ac_TokenHash agent) (ac_RevokedAt agent)
    password columns).

Definition put_instance (id : string) (row : InstanceRow) (t : InstanceTables) : InstanceTables :=
  MkInstanceTables
    (set_instances (<[id := MkEvalInstance (ir_Name row) (ir_Engine row) (ir_AgentExpected row)]> (e_instance (it_eval t))) (it_eval t))
    (set_agents (<[id := MkAgentCredential (ir_AgentExpected row) (ir_AgentTokenHash row) (ir_AgentTokenRevokedAt row)]>
       (au_agent (it_auth t))) (it_auth t))
    (Credentials.set_instance (<[id := ir_Password row]> (w_instance (it_world t))) (it_world t))
    (<[id := ir_Columns row]> (it_row t)) (it_pause t) (it_capability t) (it_removed t) (it_acted t).

(** A row of [instance_collection_config]. *)
Record ConfigRow : Type := MkConfigRow {
  cr_Paused : bool;
  cr_AgentMetricsEnabled : bool;
  cr_Pause : PauseColumns;
}.

Definition config_row (t : InstanceTables) (id : string) : option ConfigRow :=
  config ← e_config (it_eval t) !! id;
  pause ← it_pause t !! id;
  Some (MkConfigRow (config_Paused config) (config_AgentMetricsEnabled config) pause).

Definition put_config (id : string) (row : ConfigRow) (t : InstanceTables) : InstanceTables :=
  with_pause (<[id := cr_Pause row]> (it_pause t))
    (with_eval (set_configs (<[id := MkEvalConfig (cr_Paused row) (cr_AgentMetricsEnabled row)]> (e_config (it_eval t))) (it_eval t)) t).

Definition identity (t : InstanceTables) : gmap string string := n_identity (e_notify (it_eval t)).

Definition put_identity (id name : string) (t : InstanceTables) : InstanceTables :=
  with_eval (alter_notify (set_identity (<[id := name]> (identity t))) (it_eval t)) t.

Definition alerts (t : InstanceTables) : gmap string AlertInstance := n_alert (e_notify (it_eval t)).

(** * Constraints *)

(** The checks of migrations 1, 7 and 26. *)
Definition connection_checked (row : InstanceRow) : bool :=
  let c := ir_Columns row in
  bool_decide (ir_Engine row = "POSTGRESQL") && (1 <=? ic_Port c) && (ic_Port c <=? 65535) &&
  (negb (bool_decide (ir_Engine row = "POSTGRESQL")) || negb (absent (ic_DatabaseName c))) &&
  (0 <? (ir_Password row).2) && (0 <? ic_CredentialVersion c) &&
  eqb (absent (ic_CredentialUpdatedBy c)) (absent (ic_CredentialUpdatedAt c)).

(** The checks of migration 12. *)
Definition agent_checked (row : InstanceRow) : bool :=
  let c := ir_Columns row in
  match ir_AgentTokenHash row with Some hash => bool_decide (String.length hash = 32%nat) | None => true end &&
  (absent (ic_AgentFirstRegisteredAt c) && negb (ir_AgentExpected row) && absent (ir_AgentTokenHash row) &&
     absent (ic_AgentTokenIssuedAt c) && absent (ir_AgentTokenRevokedAt row) ||
   negb (absent (ic_AgentFirstRegisteredAt c))) &&
  (ir_AgentExpected row || absent (ir_AgentTokenHash row)) &&
  (negb (ir_AgentExpected row) || negb (absent (ir_AgentTokenHash row)) || negb (absent (ir_AgentTokenRevokedAt row))) &&
  (absent (ir_AgentTokenHash row) ||
   ir_AgentExpected row && negb (absent (ic_AgentTokenIssuedAt c)) && absent (ir_AgentTokenRevokedAt row)).

(** [instance_agent_token_hash_unique_idx] *)
Definition hash_taken (t : InstanceTables) (id : string) (hash : option string) : bool :=
  match hash with
  | None => false
  | Some _ => bool_decide (Exists (fun entry => entry.1 <> id /\ ac_TokenHash entry.2 = hash) (map_to_list (au_agent (it_auth t))))
  end.

Definition unknown_user (t : InstanceTables) (user : option string) : bool :=
  match user with None => false | Some user => bool_decide (au_user (it_auth t) !! user = None) end.

(** The row as it is about to be stored. *)
Definition store_instance (id : string) (row : InstanceRow) (t : InstanceTables) : result InstanceTables :=
  if 2 ^ 63 <=? ic_CredentialVersion (ir_Columns row) then Err (ErrPg "22003")
  else if negb (connection_checked row && agent_checked row) then Err (ErrPg "23514")
  else if hash_taken t id (ir_AgentTokenHash row) then Err (ErrPg "23505")
  else if unknown_user t (ic_CreatedBy (ir_Columns row)) || unknown_user t (ic_CredentialUpdatedBy (ir_Columns row))
  then Err (ErrPg "23503")
  else Ok (put_instance id row t).

(** [UPDATE instance SET ... WHERE id = $1 AND ... RETURNING ...] *)
Definition update_instance (id : string) (where_ : InstanceRow -> bool) (set_ : InstanceRow -> InstanceRow) (t : InstanceTables)
    : result (InstanceRow * InstanceTables) :=
  match instance_row t id with
  | None => Err ErrNoRows
  | Some row =>
      if where_ row then t' ← store_instance id (set_ row) t; Ok (set_ row, t') else Err ErrNoRows
  end.

(** * Instances *)

(** A row of which only the columns of [CreateInstance] are given. *)
Definition new_instance (name engine host : string) (port : Z) (database : option string) (username ciphertext : string)
    (keyVersion : Z) (createdBy : string) (serverNow : Time) : InstanceRow :=
  MkInstanceRow name engine false None None (ciphertext, keyVersion)
    (MkInstanceColumns host port database username 1 None None None serverNow (Some createdBy) None None).

Definition new_config : ConfigRow := MkConfigRow false true (MkPauseColumns None None None).

Definition CreateInstance (id name engine host : string) (port : Z) (database : option string) (username ciphertext : string)
    (keyVersion : Z) (createdBy : string) (serverNow : Time) : DB InstanceTables (string * InstanceRow) :=
  statement (fun t =>
    let row := new_instance name engine host port database username ciphertext keyVersion createdBy serverNow in
    if bool_decide (name = EmptyString) then Err (ErrPg "23514")
    else if bool_decide (is_Some (identity t !! id)) then Err (ErrPg "23505")
    else t' ← store_instance id row (put_identity id name t); Ok ((id, row), put_config id new_config t')).

Definition LockInstanceForRemoval (id : string) : DB InstanceTables string :=
  statement (fun t => match instance_row t id with Some _ => Ok (id, t) | None => Err ErrNoRows end).

Definition remove_row (id : string) (t : InstanceTables) : InstanceTables :=
  MkInstanceTables (cascade id (it_eval t)) (set_agents (delete id (au_agent (it_auth t))) (it_auth t))
    (Credentials.set_instance (delete id (w_instance (it_world t))) (it_world t))
    (delete id (it_row t)) (delete id (it_pause t)) (delete id (it_capability t)) (it_removed t) (it_acted t).

Definition DeleteInstance (id : string) (removedAt : Time) : DB InstanceTables unit :=
  exec (fun t =>
    match instance_row t id with
    | None => t
    | Some row =>
        put_identity id (ir_Name row) (with_removed (<[id := timestamptz removedAt]> (it_removed t)) (remove_row id t))
    end).

Definition GetInstanceForUpdate (id : string) : DB InstanceTables InstanceRow :=
  statement (fun t => match instance_row t id with Some row => Ok (row, t) | None => Err ErrNoRows end).

Definition set_credential (username ciphertext : string) (keyVersion : Z) (by_ : string) (at_ : Time) (row : InstanceRow) : InstanceRow :=
  let c := ir_Columns row in
  MkInstanceRow (ir_Name row) (ir_Engine row) (ir_AgentExpected row) (ir_AgentTokenHash row) (ir_AgentTokenRevokedAt row)
    (ciphertext, keyVersion)
    (MkInstanceColumns (ic_Host c) (ic_Port c) (ic_DatabaseName c) username (ic_CredentialVersion c + 1) (ic_AgentTokenIssuedAt c)
       (ic_AgentFirstRegisteredAt c) (ic_AgentVersion c) (ic_CreatedAt c) (ic_CreatedBy c) (Some by_) (Some (timestamptz at_))).

Definition UpdateInstanceCredential (id username ciphertext : string) (keyVersion : Z) (by_ : string) (at_ : Time)
    : DB InstanceTables string :=
  statement (fun t =>
    '(row, t') ← update_instance id (fun _ => true) (set_credential username ciphertext keyVersion by_ at_) t;
    Ok (ic_Username (ir_Columns row), t')).

(** The target the monitored server is reached under. *)
Definition same_target (host : string) (port : Z) (database : option string) (row : InstanceRow) : bool :=
  let c := ir_Columns row in
  bool_decide (ic_Host c = host) && (ic_Port c =? port) && bool_decide (ic_DatabaseName c = database).

Definition set_metadata (name host : string) (port : Z) (database : option string) (row : InstanceRow) : InstanceRow :=
  let c := ir_Columns row in
  MkInstanceRow name (ir_Engine row) (ir_AgentExpected row) (ir_AgentTokenHash row) (ir_AgentTokenRevokedAt row) (ir_Password row)
    (MkInstanceColumns host port database (ic_Username c)
       (ic_CredentialVersion c + (if same_target host port database row then 0 else 1)) (ic_AgentTokenIssuedAt c)
       (ic_AgentFirstRegisteredAt c) (ic_AgentVersion c) (ic_CreatedAt c) (ic_CreatedBy c) (ic_CredentialUpdatedBy c)
       (ic_CredentialUpdatedAt c)).

(** The name is written to [instance_identity] too. *)
Definition UpdateInstanceMetadata (id name host : string) (port : Z) (database : option string)
    : DB InstanceTables (string * InstanceRow) :=
  statement (fun t =>
    match identity t !! id with
    | None => Err ErrNoRows
    | Some _ =>
        if bool_decide (name = EmptyString) then Err (ErrPg "23514")
        else
          '(row, t') ← update_instance id (fun _ => true) (set_metadata name host port database) (put_identity id name t);
          Ok ((id, row), t')
    end).

(** The row of [GetInstance] and [ListInstances]. *)
Record InstanceDetail : Type := MkInstanceDetail {
  idt_ID : string;
  idt_Row : InstanceRow;
  idt_Config : ConfigRow;
  idt_CollectorLastSuccessAt : option Time;
  idt_AgentLastReportAt : option Time;
  idt_AgentLastErrorCode : option string;
  idt_Capability : option (Time * result CapabilityStates);
}.

Definition instance_detail (t : InstanceTables) (id : string) : option InstanceDetail :=
  row ← instance_row t id;
  config ← config_row t id;
  let server := e_source (it_eval t) !! (id, "SERVER_DIRECT") in
  let agent := e_source (it_eval t) !! (id, "AGENT") in
  Some (MkInstanceDetail id row config (server ≫= src_LastSuccessAt) (agent ≫= src_LastReportAt) (agent ≫= src_LastErrorCode)
    (it_capability t !! id)).

Definition GetInstance (id : string) : DB InstanceTables InstanceDetail :=
  statement (fun t => match instance_detail t id with Some detail => Ok (detail, t) | None => Err ErrNoRows end).

(** [ORDER BY name, id] *)
Definition detailLess (a b : InstanceDetail) : bool :=
  if negb (bool_decide (ir_Name (idt_Row a) = ir_Name (idt_Row b))) then string_ltb (ir_Name (idt_Row a)) (ir_Name (idt_Row b))
  else string_ltb (idt_ID a) (idt_ID b).

Definition ListInstances : DB InstanceTables (list InstanceDetail) :=
  query (fun t => sort_by detailLess (omap (instance_detail t) ((map_to_list (it_row t)).*1))).

(** * Agents *)

(** What changes with the token of an agent. *)
Definition set_agent (expected : bool) (hash : option string) (issuedAt revokedAt firstRegisteredAt : option Time) (row : InstanceRow)
    : InstanceRow :=
  let c := ir_Columns row in
  MkInstanceRow (ir_Name row) (ir_Engine row) expected hash revokedAt (ir_Password row)
    (MkInstanceColumns (ic_Host c) (ic_Port c) (ic_DatabaseName c) (ic_Username c) (ic_CredentialVersion c) issuedAt firstRegisteredAt
       (ic_AgentVersion c) (ic_CreatedAt c) (ic_CreatedBy c) (ic_CredentialUpdatedBy c) (ic_CredentialUpdatedAt c)).

Definition RegisterAgent (id hash : string) (issuedAt : Time) : DB InstanceTables InstanceRow :=
  statement (update_instance id (fun row => negb (ir_AgentExpected row) && absent (ir_AgentTokenHash row))
    (fun row => set_agent true (Some hash) (Some (timestamptz issuedAt)) None
       (Some (default (timestamptz issuedAt) (ic_AgentFirstRegisteredAt (ir_Columns row)))) row)).

Definition active_token (row : InstanceRow) : bool :=
  ir_AgentExpected row && negb (absent (ir_AgentTokenHash row)) && absent (ir_AgentTokenRevokedAt row).

Definition RotateAgentToken (id hash : string) (issuedAt : Time) : DB InstanceTables InstanceRow :=
  statement (update_instance id active_token
    (fun row => set_agent (ir_AgentExpected row) (Some hash) (Some (timestamptz issuedAt)) None
       (ic_AgentFirstRegisteredAt (ir_Columns row)) row)).

Definition RevokeAgentToken (id : string) (revokedAt : Time) : DB InstanceTables InstanceRow :=
  statement (update_instance id active_token
    (fun row => set_agent (ir_AgentExpected row) None (ic_AgentTokenIssuedAt (ir_Columns row)) (Some (timestamptz revokedAt))
       (ic_AgentFirstRegisteredAt (ir_Columns row)) row)).

Definition DisableAgent (id : string) : DB InstanceTables InstanceRow :=
  statement (update_instance id ir_AgentExpected
    (fun row => set_agent false None (ic_AgentTokenIssuedAt (ir_Columns row)) (ir_AgentTokenRevokedAt row)
       (ic_AgentFirstRegisteredAt (ir_Columns row)) row)).

Definition GetAgentRegistration (id : string) : DB InstanceTables (InstanceRow * option Time) :=
  statement (fun t =>
    match instance_row t id with
    | Some row => Ok ((row, e_source (it_eval t) !! (id, "AGENT") ≫= src_LastReportAt), t)
    | None => Err ErrNoRows
    end).

(** * Alerts of an instance *)

Definition unresolved_of (t : InstanceTables) (id : string) : list (string * AlertInstance) :=
  filter (fun entry => ai_InstanceID entry.2 = id /\ ai_Status entry.2 <> RECOVERED) (map_to_list (alerts t)).

(** The event of a user's action on an alert. *)
Definition action_event (kind : string) (to_state : AlertInstance -> State) (at_ : Time) (entry : string * AlertInstance) : AlertEvent :=
  let '(id, a) := entry in
  MkAlertEvent id (ai_RuleID a) (ai_RuleVersion a) kind (ai_Status a) (to_state a) (ai_CurrentValue a) (ai_Unavailability a)
    (ai_RuleSnapshot a) (timestamptz at_) None false None.

Definition insert_actions (events : list AlertEvent) (actor : string) (t : InstanceTables) : result InstanceTables :=
  if negb (bool_decide (events = [])) && unknown_user t (Some actor) then Err (ErrPg "23503")
  else Ok (with_acted (it_acted t ++ ((fun e => (e, actor)) <$> events))
             (with_eval (alter_notify (alter_event (fun l => l ++ events)) (it_eval t)) t)).

Definition closed_alert (at_ : Time) (a : AlertInstance) : AlertInstance :=
  MkAlertInstance (ai_InstanceID a) (ai_MetricID a) RECOVERED (ai_BreachCount a) (ai_RecoveryCount a) (ai_NoDataCount a) None None
    (timestamptz at_) (ai_ID a) (ai_RuleID a) (ai_RuleVersion a) (ai_Severity a) (ai_CurrentValue a) (ai_RuleSnapshot a)
    (ai_MetricDimensionKey a) (ai_FirstTriggeredAt a) (ai_FirstRuleVersion a) (ai_FirstRuleSnapshot a) (Some (timestamptz at_))
    (ai_Disposition a) (ai_InMaintenance a) (ai_MaintenanceWindowID a).

Definition close_alerts (id : string) (at_ : Time) (m : gmap string AlertInstance) : gmap string AlertInstance :=
  (fun a => if bool_decide (ai_InstanceID a = id /\ ai_Status a <> RECOVERED) then closed_alert at_ a else a) <$> m.

Definition CloseAlertsForInstanceRemoval (id : string) (at_ : Time) (actor : string) : DB InstanceTables unit :=
  statement (fun t =>
    t' ← insert_actions (action_event "INSTANCE_REMOVED" (fun _ => RECOVERED) at_ <$> unresolved_of t id) actor t;
    Ok (tt, with_eval (alter_notify (alter_alert (close_alerts id at_)) (it_eval t')) t')).

Record ListInstanceHealthAlertsRow : Type := MkHealthAlertRow {
  har_InstanceID : string;
  har_Status : State;
  har_Severity : string;
  har_CurrentValue : option float64;
  har_FirstTriggeredAt : Time;
  har_RecoveredAt : option Time;
  har_Disposition : string;
  har_RuleName : string;
}.

(** [ORDER BY alert.instance_id, first_triggered_at, alert.id], on rows with their ids. *)
Definition healthRowLess (a b : string * ListInstanceHealthAlertsRow) : bool :=
  if negb (bool_decide (har_InstanceID a.2 = har_InstanceID b.2)) then string_ltb (har_InstanceID a.2) (har_InstanceID b.2)
  else if negb (har_FirstTriggeredAt a.2 =? har_FirstTriggeredAt b.2) then har_FirstTriggeredAt a.2 <? har_FirstTriggeredAt b.2
  else string_ltb a.1 b.1.

Definition health_row (t : InstanceTables) (recoveredAt : Time) (entry : string * AlertInstance) : option (string * ListInstanceHealthAlertsRow) :=
  let '(id, a) := entry in
  rule ← n_rule (e_notify (it_eval t)) !! ai_RuleID a;
  if negb (bool_decide (ai_Status a = RECOVERED)) ||
     match ai_RecoveredAt a with Some at_ => timestamptz recoveredAt <=? at_ | None => false end
  then Some (id, MkHealthAlertRow (ai_InstanceID a) (ai_Status a) (ai_Severity a) (ai_CurrentValue a)
                   (default (ai_UpdatedAt a) (ai_FirstTriggeredAt a)) (ai_RecoveredAt a) (ai_Disposition a) (rule_Name rule))
  else None.

Definition ListInstanceHealthAlerts (recoveredAt : Time) : DB InstanceTables (list ListInstanceHealthAlertsRow) :=
  query (fun t => (sort_by healthRowLess (omap (health_row t recoveredAt) (map_to_list (alerts t)))).*2).

(** * The pause *)

Definition GetCollectionPause (id : string) : DB InstanceTables ConfigRow :=
  statement (fun t => match config_row t id with Some row => Ok (row, t) | None => Err ErrNoRows end).

Definition SetCollectionPause (id : string) (paused : bool) (by_ : string) (at_ : Time) (reason : option string)
    : DB InstanceTables ConfigRow :=
  statement (fun t =>
    match config_row t id with
    | None => Err ErrNoRows
    | Some row =>
        if eqb (cr_Paused row) paused then Err ErrNoRows
        else if unknown_user t (Some by_) then Err (ErrPg "23503")
        else
          let row' := MkConfigRow paused (cr_AgentMetricsEnabled row) (MkPauseColumns (Some by_) (Some (timestamptz at_)) reason) in
          Ok (row', put_config id row' t)
    end).

Definition CreateCollectionPauseEvents (id kind : string) (at_ : Time) (actor : string) : DB InstanceTables unit :=
  statement (fun t => t' ← insert_actions (action_event kind ai_Status at_ <$> unresolved_of t id) actor t; Ok (tt, t')).
