(* ===== verification/InstanceHealth.v ===== *)
(** What the API says of an instance's health ([internal/httpapi/instance_health.go] and
    the readers of [handler.go]): the alerts are read for all instances at once, rolled
    up with the pause, the capabilities and the maintenance window, and served by the
    list, the overview and the detail of an instance. *)

From S2P Require Import Prelude Db Text Responses AlertState AlertHealth Dictionary Capability ControlPlane Notify Evaluator AuthQueries Credentials InstanceList InstanceQueries.

(** * Projection *)

Record instanceHealthProjection : Type := MkProjection {
  proj_rollup : HealthRollup;
  proj_alertStatus : State;
  proj_agentStatus : string;
  proj_lastCollectedAt : option Time;
  proj_dataFreshnessSeconds : option Z;
}.

Record instanceHealthProjectionInput : Type := MkProjectionInput {
  hpi_instanceID : string;
  hpi_paused : bool;
  hpi_collectorLastSuccessAt : option Time;
  hpi_agentExpected : bool;
  hpi_agentLastReportAt : option Time;
  hpi_agentLastErrorCode : option string;
  hpi_capability : option (Time * result CapabilityStates);
  hpi_alerts : list ListInstanceHealthAlertsRow;
  hpi_inMaintenance : bool;
  hpi_now : Time;
}.

Definition configurationMissingCount (capability : option (Time * result CapabilityStates)) (now : Time) : result Z :=
  match capability with
  | None => Ok 0
  | Some (_, Err e) => Err e
  | Some (observedAt, Ok states) =>
      let states := ProjectCapabilitySnapshot states observedAt now in
      Ok (foldl (fun count capability =>
        if bool_decide (capability_Class capability = CapabilityClassFixable) &&
           bool_decide (state_of states (capability_ID capability) = CapabilityMissing)
        then incr count else count) 0 Capabilities)
  end.

(** [alerting.Severity(text)] *)
Definition severity_of (text : string) : Severity :=
  if bool_decide (text = "critical") then SeverityCritical
  else if bool_decide (text = "warning") then SeverityWarning
  else if bool_decide (text = "info") then SeverityInfo
  else SeverityOther text.

Definition health_alert (row : ListInstanceHealthAlertsRow) : HealthAlert :=
  MkHealthAlert (har_RuleName row) (severity_of (har_Severity row)) (har_Status row) (har_FirstTriggeredAt row) (har_CurrentValue row)
    (har_RecoveredAt row) (bool_decide (har_Disposition row = "IGNORED")) HealthAlertIncluded.

Definition toHealthAlerts (rows : list ListInstanceHealthAlertsRow) : list HealthAlert := health_alert <$> rows.

Definition alertStateRank (state : State) : Z :=
  match state with
  | FIRING => 5
  | NO_DATA => 4
  | PENDING => 3
  | RECOVERED => 2
  | _ => 1
  end.

Definition legacyAlertStatus (rows : list ListInstanceHealthAlertsRow) : State :=
  (foldl (fun '(status, statusRank) row =>
     let rowRank := alertStateRank (har_Status row) in
     if statusRank <? rowRank then (har_Status row, rowRank) else (status, statusRank)) (OK, alertStateRank OK) rows).1.

Definition controlPlaneTime (value : option Time) : Time := default ZeroTime value.
Definition controlPlaneText (value : option string) : string := default EmptyString value.

Definition projectInstanceHealth (input : instanceHealthProjectionInput) : result instanceHealthProjection :=
  configurationMissing ← configurationMissingCount (hpi_capability input) (hpi_now input);
  let rollup := RollupInstanceHealth (MkHealthRollupInput (hpi_paused input)
    (negb (absent (hpi_collectorLastSuccessAt input))) (hpi_inMaintenance input) configurationMissing (hpi_now input)
    (toHealthAlerts (hpi_alerts input))) in
  let agentStatus := AgentStatusAt {|
    AgentExpected := hpi_agentExpected input;
    AgentMetricsEnabled := false;
    CollectorLastSuccessAt := ZeroTime;
    CollectorLastErrorCode := EmptyString;
    AgentLastReportAt := controlPlaneTime (hpi_agentLastReportAt input);
    AgentLastErrorCode := controlPlaneText (hpi_agentLastErrorCode input) |} (hpi_now input) in
  Ok (MkProjection rollup (legacyAlertStatus (hpi_alerts input)) agentStatus (hpi_collectorLastSuccessAt input)
    ((fun collectedAt => Z.max 0 (Z.quot (TimeSub (hpi_now input) collectedAt) Second)) <$> hpi_collectorLastSuccessAt input)).

(** * Reading *)

(** [alertsByInstance[instanceID]] of the map the loop builds. *)
Definition alertsByInstance (rows : list ListInstanceHealthAlertsRow) (instanceID : string) : list ListInstanceHealthAlertsRow :=
  filter (fun row => har_InstanceID row = instanceID) rows.

Definition loadInstanceHealthAlerts (now : Time) : DB InstanceTables (string -> list ListInstanceHealthAlertsRow) :=
  rows ← ListInstanceHealthAlerts (TimeAdd now (- RecentRecoveryWindow));
  mret (alertsByInstance rows).

(** The facts of a row; alerts, maintenance and time come from the reader. *)
Definition projection_input (detail : InstanceDetail) (alerts : list ListInstanceHealthAlertsRow) (inMaintenance : bool) (now : Time)
    : instanceHealthProjectionInput :=
  MkProjectionInput (idt_ID detail) (cr_Paused (idt_Config detail)) (idt_CollectorLastSuccessAt detail)
    (ir_AgentExpected (idt_Row detail)) (idt_AgentLastReportAt detail) (idt_AgentLastErrorCode detail) (idt_Capability detail)
    alerts inMaintenance now.

Definition loadInstanceHealthProjection (now : Time) (detail : InstanceDetail) : DB InstanceTables instanceHealthProjection :=
  alerts ← loadInstanceHealthAlerts now;
  '(_, inMaintenance) ← in_eval (in_notify (FindActiveMaintenanceWindow (idt_ID detail) now));
  lift_result (projectInstanceHealth (projection_input detail (alerts (idt_ID detail)) inMaintenance now)).

Definition toAPICollectionPauseStatus (row : ConfigRow) : CollectionPauseStatus :=
  MkPauseStatus (cr_Paused row) (pc_UpdatedBy (cr_Pause row)) (pc_UpdatedAt (cr_Pause row)) (pc_Reason (cr_Pause row)).

Definition toAPIInstance (id : string) (row : InstanceRow) (agentMetricsEnabled : bool) (pause : CollectionPauseStatus)
    (projection : instanceHealthProjection) : APIInstance :=
  let c := ir_Columns row in
  let health := proj_rollup projection in
  MkAPIInstance id (ir_Name row) (ir_Engine row) (ic_Host c) (ic_Port c) (roll_Status health) (roll_Counts health) (roll_Flags health)
    (proj_agentStatus projection) (proj_dataFreshnessSeconds projection) (roll_Attribution health)
    (default EmptyString (ic_DatabaseName c)) (ic_Username c) (ic_AgentVersion c) agentMetricsEnabled (proj_alertStatus projection)
    (proj_lastCollectedAt projection) pause.

Definition api_instance (detail : InstanceDetail) (projection : instanceHealthProjection) : APIInstance :=
  toAPIInstance (idt_ID detail) (idt_Row detail) (cr_AgentMetricsEnabled (idt_Config detail))
    (toAPICollectionPauseStatus (idt_Config detail)) projection.

(** * Handlers *)

(** One row of [listInstancesWithHealth]: [inMaintenance] keeps its zero value. *)
Definition listed_instance (now : Time) (alerts : string -> list ListInstanceHealthAlertsRow) (detail : InstanceDetail)
    : result APIInstance :=
  projection ← projectInstanceHealth (projection_input detail (alerts (idt_ID detail)) false now);
  Ok (api_instance detail projection).

Definition listInstancesWithHealth (now : Time) : DB InstanceTables (list APIInstance) :=
  rows ← InstanceQueries.ListInstances;
  alerts ← loadInstanceHealthAlerts now;
  collect_rows (fun detail => lift_result (listed_instance now alerts detail)) rows.

(** A request that panics is answered by the server's recovery with an error. *)
Definition ListInstances (ToLower : string -> string) (now : Time) (params : ListInstancesParams)
    : DB InstanceTables (response (list APIInstance * Z)) :=
  instances ← listInstancesWithHealth now;
  match selectInstances ToLower instances (newInstanceListQuery ToLower params) with
  | Some page => mret (R200 page)
  | None => fail (ErrNew "runtime error: slice bounds out of range")
  end.

Definition GetInstance (now : Time) (id : string) : DB InstanceTables (response APIInstance) :=
  detail ← InstanceQueries.GetInstance id;
  projection ← loadInstanceHealthProjection now detail;
  mret (R200 (api_instance detail projection)).
