(* ===== verification/InstanceAdmin.v ===== *)
(** The administration of monitored instances: their creation, edit, credential and
    removal, the registration of their agents ([internal/httpapi/handler.go]), the test of
    a connection ([onboarding.go]) and the pause of collection ([collection_pause.go]). *)

From S2P Require Import Prelude Db Text Responses AlertState AlertHealth Dictionary Notify Evaluator AuthQueries Credentials InstanceList InstanceQueries InstanceHealth.

(** * The bootstrap database *)

Definition DefaultBootstrapDatabase (engine : Engine) : string :=
  if bool_decide (engine = EnginePostgreSQL) then "postgres" else EmptyString.

Definition ResolveBootstrapDatabase (engine : Engine) (requested : string) : string :=
  let trimmed := TrimSpace requested in
  if negb (bool_decide (trimmed = EmptyString)) then trimmed else DefaultBootstrapDatabase engine.

Definition BootstrapDatabaseColumn (database : string) : option string :=
  if bool_decide (database = EmptyString) then None else Some database.

(** * Connecting to the monitored server *)

Definition minimumTargetServerVersionNum : Z := 130000.

Record targetConnectionInput : Type := MkTargetConnection {
  tc_host : string;
  tc_port : Z;
  tc_database : string;
  tc_username : string;
  tc_password : string;
}.

(** [&targetValidationError{...}]; its message is determined by its code. *)
Definition targetValidationError (code : string) : error := ErrCode code.

Definition AUTHFAILED : string := "AUTH_FAILED".
Definition NETWORKUNREACHABLE : string := "NETWORK_UNREACHABLE".
Definition ONBOARDINGVERSIONUNSUPPORTED : string := "VERSION_UNSUPPORTED".

Definition validation_message (code : string) : option string :=
  if bool_decide (code = AUTHFAILED) then Some "目标 PostgreSQL 认证失败"
  else if bool_decide (code = NETWORKUNREACHABLE) then Some "无法连接目标 PostgreSQL"
  else if bool_decide (code = ONBOARDINGVERSIONUNSUPPORTED) then Some "目标 PostgreSQL 版本低于 13"
  else None.

Definition targetVersionSupported (serverVersionNum : Z) : bool := minimumTargetServerVersionNum <=? serverVersionNum.

Definition classifyTargetConnectionError (err : error) : error :=
  match pg_error err with
  | Some code => targetValidationError (if HasPrefix code "28" then AUTHFAILED else NETWORKUNREACHABLE)
  | None => targetValidationError NETWORKUNREACHABLE
  end.

(** [errors.As(err, &validationError)] *)
Fixpoint targetValidationResponseBody (err : error) : option APIError :=
  match err with
  | ErrCode code => message ← validation_message code; Some (errorBody code message)
  | Errorf _ inner => targetValidationResponseBody inner
  | _ => None
  end.

Definition uint16 (z : Z) : Z := z mod 2 ^ 16.

(** * Registrations *)

Record AgentInstallation : Type := MkInstallation {
  install_CaFingerprintSha256 : string;
  install_InstallerPath : string;
  install_AuthenticationPath : string;
  install_FileMode : string;
  install_RestartCommand : string;
}.

Record AgentRegistration : Type := MkRegistration {
  reg_AgentExpected : bool;
  reg_State : string;
  reg_IssuedAt : option Time;
  reg_RevokedAt : option Time;
  reg_FirstRegisteredAt : option Time;
  reg_AgentVersion : option string;
  reg_LastReportedAt : option Time;
  reg_Installation : AgentInstallation;
}.

Definition registration_state (expected : bool) (revokedAt firstRegisteredAt : option Time) : string :=
  if negb (absent firstRegisteredAt) && negb expected then "DISABLED"
  else if expected && negb (absent revokedAt) then "REVOKED"
  else if expected then "EXPECTED_ONLINE"
  else "NEVER_REGISTERED".

Definition agentRegistration (caFingerprint : string) (row : InstanceRow) (lastReportedAt : option Time) : AgentRegistration :=
  let c := ir_Columns row in
  MkRegistration (ir_AgentExpected row)
    (registration_state (ir_AgentExpected row) (ir_AgentTokenRevokedAt row) (ic_AgentFirstRegisteredAt c))
    (ic_AgentTokenIssuedAt c) (ir_AgentTokenRevokedAt row) (ic_AgentFirstRegisteredAt c) (ic_AgentVersion c) lastReportedAt
    (MkInstallation caFingerprint "/api/agent/install/install.sh" "/etc/dbs-monitor-agent/token" "0600"
       "systemctl restart dbs-monitor-agent.service").

(** [if errors.Is(err, pgx.ErrNoRows) { return 409 }; if err != nil { return err }] *)
Definition or_409 {T A B} (message : string) (m : DB T A) (k : A -> DB T (response B)) : DB T (response B) :=
  r ← attempt m;
  match r with
  | Ok a => k a
  | Err e => if is_no_rows e then mret (R409 (errorBody "CONFLICT" message)) else fail e
  end.

(** [if responseBody, ok := targetValidationResponseBody(err); ok { return 400 }; return err] *)
Definition or_400 {T A B} (m : DB T A) (k : A -> DB T (response B)) : DB T (response B) :=
  r ← attempt m;
  match r with
  | Ok a => k a
  | Err e => match targetValidationResponseBody e with Some body => mret (R400 body) | None => fail e end
  end.

(** * Requests *)

Record InstanceCreateInput : Type := MkInstanceCreate {
  create_Name : string;
  create_Engine : option string;
  create_Host : string;
  create_Port : Z;
  create_Database : string;
  create_Username : string;
  create_Password : string;
}.

Record InstanceMetadataInput : Type := MkInstanceMetadata {
  meta_Name : string;
  meta_Host : string;
  meta_Port : Z;
  meta_Database : string;
}.

Section Handlers.
Context `{Crypto}.
(** [sha256.Sum256]; what the monitored server answers when it is dialled and asked for
    its version; the fingerprint of the platform's certificate authority. *)
Context (Sum256 : string -> string).
Context (Dial : targetConnectionInput -> result unit) (ServerVersionNum : targetConnectionInput -> result Z).
Context (caFingerprint : string).
(** [handler.keyring], the clock and the user of the session. *)
Context (keyring : CredentialKeyring) (now : Time) (actorID : string).

Definition validateTargetConnection (input : targetConnectionInput) : result unit :=
  let config := MkTargetConnection (tc_host input) (uint16 (tc_port input)) (tc_database input) (tc_username input) (tc_password input) in
  match Dial config with
  | Err e => Err (classifyTargetConnectionError e)
  | Ok _ =>
      match ServerVersionNum config with
      | Err e => Err (classifyTargetConnectionError e)
      | Ok serverVersionNum =>
          if targetVersionSupported serverVersionNum then Ok tt else Err (targetValidationError ONBOARDINGVERSIONUNSUPPORTED)
      end
  end.

(** The health of an instance that was created just now. *)
Definition new_projection : instanceHealthProjection :=
  MkProjection (MkHealthRollup HealthUnknown None (MkHealthAlertCounts 0 0 0) (MkHealthFlags false false false 0 0)) OK
    "not_installed" None None.

(** [id] is [uuid.New()], [serverNow] the clock of the database. *)
Definition CreateInstance (id : string) (serverNow : Time) (body : option InstanceCreateInput) : DB InstanceTables (response APIInstance) :=
  match body with
  | None => fail (ErrNew "instance body is required")
  | Some body =>
      let engine := default EnginePostgreSQL (create_Engine body) in
      if negb (ValidForInstance engine) then mret (R400 (errorBody "VALIDATION_FAILED" "不支持的数据库引擎"))
      else
        let bootstrapDatabase := ResolveBootstrapDatabase engine (create_Database body) in
        or_400 (lift_result (validateTargetConnection (MkTargetConnection (create_Host body) (create_Port body) bootstrapDatabase
                  (create_Username body) (create_Password body)))) (fun _ =>
          '(ciphertext, keyVersion) ← in_world (EncryptPassword keyring id (create_Password body));
          '(id, row) ← InstanceQueries.CreateInstance id (create_Name body) engine (create_Host body) (int32 (create_Port body))
            (BootstrapDatabaseColumn bootstrapDatabase) (create_Username body) ciphertext keyVersion actorID serverNow;
          mret (R201 (toAPIInstance id row true (MkPauseStatus false None None None) new_projection)))
  end.

Definition target_changed (stored : InstanceRow) (body : InstanceMetadataInput) (bootstrapDatabase : string) : bool :=
  let c := ir_Columns stored in
  negb (bool_decide (ic_Host c = meta_Host body)) || negb (ic_Port c =? int32 (meta_Port body)) ||
  negb (bool_decide (default EmptyString (ic_DatabaseName c) = bootstrapDatabase)).

(** The transaction of [UpdateInstance]. *)
Definition update_tx (id : string) (body : InstanceMetadataInput) : DB InstanceTables (string * InstanceRow) :=
  storedInstance ← GetInstanceForUpdate id;
  let bootstrapDatabase := ResolveBootstrapDatabase (ir_Engine storedInstance) (meta_Database body) in
  (if target_changed storedInstance body bootstrapDatabase then
     password ← in_world (DecryptPassword keyring id (ir_Password storedInstance).1 (ir_Password storedInstance).2);
     lift_result (validateTargetConnection (MkTargetConnection (meta_Host body) (meta_Port body) bootstrapDatabase
       (ic_Username (ir_Columns storedInstance)) password))
   else mret tt) ;;
  UpdateInstanceMetadata id (meta_Name body) (meta_Host body) (int32 (meta_Port body)) (BootstrapDatabaseColumn bootstrapDatabase).

Definition UpdateInstance (id : string) (body : option InstanceMetadataInput) : DB InstanceTables (response APIInstance) :=
  match body with
  | None => fail (ErrNew "instance body is required")
  | Some body =>
      or_400 (InTx (update_tx id body)) (fun updatedInstance =>
        detail ← InstanceQueries.GetInstance updatedInstance.1;
        projection ← loadInstanceHealthProjection now detail;
        mret (R200 (api_instance detail projection)))
  end.

(** The transaction of [UpdateInstanceCredential]. *)
Definition credential_tx (id username password : string) : DB InstanceTables string :=
  storedInstance ← GetInstanceForUpdate id;
  let c := ir_Columns storedInstance in
  lift_result (validateTargetConnection (MkTargetConnection (ic_Host c) (ic_Port c) (default EmptyString (ic_DatabaseName c))
    username password)) ;;
  '(ciphertext, keyVersion) ← in_world (EncryptPassword keyring id password);
  updatedUsername ← InstanceQueries.UpdateInstanceCredential id username ciphertext keyVersion actorID now;
  in_auth (RecordEvent (MkEvent "INSTANCE_CREDENTIAL_UPDATED" now (Some actorID) EmptyString (Some id))) ;;
  mret updatedUsername.

(** [body] is the user name and the password. *)
Definition UpdateInstanceCredential (id : string) (body : option (string * string)) : DB InstanceTables (response string) :=
  match body with
  | None => fail (ErrNew "instance credential body is required")
  | Some (username, password) =>
      or_400 (InTx (credential_tx id username password)) (fun updatedUsername => mret (R200 updatedUsername))
  end.

(** The transaction of [DeleteInstance]. *)
Definition removal_tx (id : string) : DB InstanceTables unit :=
  LockInstanceForRemoval id ;;
  CloseAlertsForInstanceRemoval id now actorID ;;
  in_auth (RecordEvent (MkEvent "INSTANCE_REMOVED" now (Some actorID) EmptyString (Some id))) ;;
  InstanceQueries.DeleteInstance id now.

Definition DeleteInstance (id : string) : DB InstanceTables (response unit) :=
  r ← attempt (InTx (removal_tx id));
  match r with
  | Ok _ => mret R204
  | Err e => if is_no_rows e then mret R204 else fail e
  end.

(** ** Agents *)

(** [token] is what [newAgentToken] draws. *)
Definition GetAgentRegistration (id : string) : DB InstanceTables (response AgentRegistration) :=
  '(row, lastReportedAt) ← InstanceQueries.GetAgentRegistration id;
  mret (R200 (agentRegistration caFingerprint row lastReportedAt)).

Definition RegisterAgent (id : string) (token : result string) : DB InstanceTables (response (string * AgentRegistration)) :=
  token ← lift_result token;
  or_409 "Agent is already registered or cannot be re-enabled" (InstanceQueries.RegisterAgent id (Sum256 token) now)
    (fun row => mret (R200 (token, agentRegistration caFingerprint row None))).

Definition RotateAgentToken (id : string) (token : result string) : DB InstanceTables (response (string * AgentRegistration)) :=
  token ← lift_result token;
  or_409 "Agent has no active token to rotate" (InstanceQueries.RotateAgentToken id (Sum256 token) now)
    (fun row => mret (R200 (token, agentRegistration caFingerprint row None))).

Definition RevokeAgentToken (id : string) : DB InstanceTables (response AgentRegistration) :=
  or_409 "Agent has no active token to revoke" (InstanceQueries.RevokeAgentToken id now)
    (fun row => mret (R200 (agentRegistration caFingerprint row None))).

Definition DisableAgent (id : string) : DB InstanceTables (response AgentRegistration) :=
  or_409 "Agent is not currently expected online" (InstanceQueries.DisableAgent id)
    (fun row => mret (R200 (agentRegistration caFingerprint row None))).

(** ** The pause *)

Definition GetCollectionPause (id : string) : DB InstanceTables (response CollectionPauseStatus) :=
  row ← InstanceQueries.GetCollectionPause id; mret (R200 (toAPICollectionPauseStatus row)).

(** The transaction of [UpdateCollectionPause]. *)
Definition pause_tx (id : string) (paused : bool) (reason : option string) : DB InstanceTables CollectionPauseStatus :=
  updated ← attempt (SetCollectionPause id paused actorID now reason);
  match updated with
  | Err e =>
      if is_no_rows e then current ← InstanceQueries.GetCollectionPause id; mret (toAPICollectionPauseStatus current)
      else fail e
  | Ok row =>
      CreateCollectionPauseEvents id (if (paused : bool) then "FROZEN" else "UNFROZEN") now actorID ;;
      mret (toAPICollectionPauseStatus row)
  end.

(** [body] is the pause and its reason. *)
Definition UpdateCollectionPause (id : string) (body : option (bool * option string)) : DB InstanceTables (response CollectionPauseStatus) :=
  match body with
  | None => fail (ErrNew "collection pause body is required")
  | Some (paused, reason) => status ← InTx (pause_tx id paused reason); mret (R200 status)
  end.

End Handlers.
