(* ===== verification/InstanceAdminInv.v ===== *)
(** What the administration of instances promises while the evaluator, the rotation of
    keys, agents and the collector work on the same tables. *)

From S2P Require Import Prelude Db Text Responses AlertState AlertEvaluation AlertHealth Dictionary Capability TriggerSnapshot Notify Evaluator EvaluatorInv AuthQueries Auth AuthInv UsersInv Credentials CredentialsInv InstanceList InstanceQueries InstanceHealth InstanceAdmin.

(** * The evaluator leaves removed and paused instances alone *)

Definition idle (i : string) (t : EvalTables) : Prop :=
  match e_instance t !! i, e_config t !! i with Some _, Some config => config_Paused config = true | _, _ => True end.

Definition of_instance (i : string) (o : option AlertInstance) : option AlertInstance :=
  a ← o; if bool_decide (ai_InstanceID a = i) then Some (core a) else None.

(** The alerts of an instance are the same but for their maintenance columns. *)
Definition spared (i : string) (t t' : EvalTables) : Prop :=
  forall id, of_instance i (n_alert (e_notify t') !! id) = of_instance i (n_alert (e_notify t) !! id).

#[export] Instance spared_preorder i : PreOrder (spared i).
Proof. split; [by intros t id|]. intros x y z Hxy Hyz id. by rewrite (Hyz id). Qed.

Lemma core_instance a b : core a = core b -> ai_InstanceID a = ai_InstanceID b.
Proof. intros (_ & [= _ ?] & _)%core_eq. done. Qed.

Lemma same_alerts_spared i t t' : same_alerts t t' -> spared i t t'.
Proof.
  intros Hs id. specialize (Hs id). unfold of_instance.
  destruct (n_alert (e_notify t') !! id) as [a|], (n_alert (e_notify t) !! id) as [b|]; try done. 
  assert (core a = core b) as Hc by (simpl in Hs; congruence). simpl. by rewrite (core_instance a b Hc), Hc.
Qed.

Lemma moved_spared i t t' r j d version now next : i <> j -> moved t t' (r, j, d) version now next -> spared i t t'.
Proof.
  intros Hne (t1 & fires & id & [_ (a & Ha & _ & Hk & _) Hothers Hknown _ _] & Hs & _).
  etrans; [|by apply same_alerts_spared]. intros x. destruct (decide (x = id)) as [->|Hx]; [|by rewrite Hothers].
  assert (forall b, alert_key b = (r, j, d) -> of_instance i (Some b) = None) as Hno.
  { intros b [= _ E _]. simpl. rewrite E. by rewrite bool_decide_false. }
  rewrite Ha, Hno by done. destruct (n_alert (e_notify t) !! id) as [b|] eqn:Hb; [|done]. symmetry. by apply Hno, Hknown.
Qed.

(** A triple with what the code keeps. *)
Lemma triple_with_kept {T A B} (f : T -> B) c P (m : DB T A) Q E :
  Keeps f m -> triple P m Q E ->
  triple (fun t => P t /\ f t = c) m (fun a t => Q a t /\ f t = c) (fun t => E t /\ f t = c).
Proof.
  intros Hk Hm fs t [Ht Hf]. specialize (Hm fs t Ht). specialize (Hk fs t). unfold tables_after in Hk.
  destruct (m fs t) as [[[a|e] t'] fs']; simpl in *; by rewrite Hk.
Qed.

Section Pass.
Context (read_sessions : GetEvaluationTargetRow -> list TriggerSession + string) (sprint : float64 -> string) (limit : Z) (now : Time).
Context (i : string) (t0 : EvalTables).
Hypothesis idle0 : idle i t0.

Let unharmed (t : EvalTables) : Prop := alerts_inv t /\ spared i t0 t.
Let P (t : EvalTables) : Prop := unharmed t /\ configuration t = configuration t0.

Lemma evaluateRule_spares scheduled :
  lt_InstanceID scheduled <> i ->
  triple unharmed (evaluateRule read_sessions sprint limit scheduled now) (fun _ => unharmed) (fun _ => True).
Proof using.
  clear idle0. intros Hne. apply triple_at. intros t [Hi Hs]. eapply triple_weaken; [by apply evaluateRule_evaluated|done| |done].
  intros [] t' (target & _ & Hev). assert (unharmed (only_marked scheduled now t)) as Hmarked.
  { split; [by eapply alerts_inv_same; [..|exact Hi]|]. etrans; [exact Hs|]. by apply same_alerts_spared. }
  unfold evaluated in Hev. destruct (structurallyNotApplicable _ _ _ _); [by subst|].
  destruct Hev as (result & _ & [[_ ->]|Hm]); [done|]. split; [by destruct Hm as (t1 & fires & id & _ & _ & ?)|].
  etrans; [exact Hs|]. by eapply moved_spared.
Qed.

Lemma evaluateInstance_spares instanceID targets :
  Forall (fun target => lt_InstanceID target = instanceID) targets ->
  triple P (evaluateInstance read_sessions sprint limit instanceID targets now) (fun _ => P) P.
Proof using idle0.
  intros Hall. apply triple_InTx; [|done].
  apply (triple_bind _ _ _ (fun paused t => P t /\ (paused = false -> instanceID <> i))).
  - apply triple_statement; [done|]. intros t paused t' HP He.
    destruct (e_instance t !! instanceID) as [inst|] eqn:Einst, (e_config t !! instanceID) as [c|] eqn:Ec; try done. injection He as <- <-.
    split; [|done]. split; [done|]. intros Hp ->. destruct HP as [_ [= _ _ E1 E2 _ _ _]]. unfold idle in idle0.
    rewrite <-E1, <-E2, Einst, Ec in idle0. congruence.
  - intros [|]; [by apply triple_ret; intros t [? _]|]. apply triple_at. intros t [HP Hne]. specialize (Hne eq_refl).
    apply (triple_weaken _ P _ _ (fun _ => P) _ (fun _ => True)); [|by intros t1 ->|done..].
    apply triple_for_each_either. intros target Hin. rewrite Forall_forall in Hall. specialize (Hall _ Hin).
    eapply triple_weaken; [apply (triple_with_kept configuration (configuration t0) unharmed _ (fun _ => unharmed) (fun _ => True)); [apply _|]|done..].
    apply evaluateRule_spares. congruence.
Qed.

Lemma group_targets_instance targets : Forall (fun group => Forall (fun target => lt_InstanceID target = group.1) group.2) (group_targets targets).
Proof using.
  clear. induction targets as [|target targets IH]; simpl; [constructor|].
  destruct (group_targets targets) as [|[j group] groups]; [repeat constructor|]. apply Forall_cons in IH as [Hg IH].
  case_bool_decide; repeat constructor; auto.
Qed.

Lemma RunOnce_spares :
  triple P (RunOnce read_sessions sprint limit now) (fun _ => P) P.
Proof using idle0.
  unfold RunOnce. eapply triple_bind; [by apply triple_wrap, (triple_query _ _ (fun _ => P))|].
  intros targets. apply triple_for_each. intros group Hin. apply evaluateInstance_spares.
  pose proof (group_targets_instance targets) as Hg. rewrite Forall_forall in Hg. by apply Hg.
Qed.
End Pass.

Lemma pass_spares read_sessions sprint limit now i fs t :
  alerts_inv t -> idle i t -> spared i t (tables_after (RunOnce read_sessions sprint limit now) fs t).
Proof.
  intros Hi Hid. eapply (triple_tables _ _ fs _ (RunOnce_spares read_sessions sprint limit now i t Hid)). split; [|done]. by split.
Qed.

(** * Rows *)

Lemma instance_row_put id row t j : instance_row (put_instance id row t) j = if decide (j = id) then Some row else instance_row t j.
Proof.
  unfold instance_row, put_instance. simpl. destruct (decide (j = id)) as [->|Hne].
  - rewrite !lookup_insert_eq. simpl. by destruct row.
  - by rewrite !lookup_insert_ne.
Qed.

Lemma instance_row_Some t id row :
  instance_row t id = Some row ->
  e_instance (it_eval t) !! id = Some (MkEvalInstance (ir_Name row) (ir_Engine row) (ir_AgentExpected row)) /\
  (exists expected, au_agent (it_auth t) !! id = Some (MkAgentCredential expected (ir_AgentTokenHash row) (ir_AgentTokenRevokedAt row))) /\
  w_instance (it_world t) !! id = Some (ir_Password row) /\ it_row t !! id = Some (ir_Columns row).
Proof.
  unfold instance_row. destruct (e_instance (it_eval t) !! id) as [inst|]; [|done]. simpl.
  destruct (au_agent (it_auth t) !! id) as [agent|]; [|done]. simpl. destruct (w_instance (it_world t) !! id) as [p|]; [|done]. simpl.
  destruct (it_row t !! id) as [c|]; [|done]. simpl. intros [= <-]. simpl. destruct inst, agent. simpl. eauto.
Qed.

Lemma store_instance_Ok id row t t' :
  store_instance id row t = Ok t' ->
  t' = put_instance id row t /\ agent_checked row = true /\ hash_taken t id (ir_AgentTokenHash row) = false /\
  ic_CredentialVersion (ir_Columns row) < 2 ^ 63.
Proof.
  unfold store_instance. destruct (Z.leb_spec (2 ^ 63) (ic_CredentialVersion (ir_Columns row))); [done|].
  destruct (connection_checked row), (agent_checked row); try done. simpl. destruct (hash_taken _ _ _); [done|]. simpl.
  destruct (unknown_user _ _ || _); [done|]. intros [= <-]. done.
Qed.

Lemma hash_taken_false t id h :
  hash_taken t id (Some h) = false -> forall j a, j <> id -> au_agent (it_auth t) !! j = Some a -> ac_TokenHash a <> Some h.
Proof.
  unfold hash_taken. rewrite bool_decide_eq_false. intros Hn j a Hj Ha Hh. apply Hn, Exists_exists. exists (j, a).
  split; [by apply elem_of_map_to_list|done].
Qed.

(** * The invariant *)

(** The tables that share the columns of an instance have the same instances and agree,
    rows satisfy the checks of their agent and carry the name of their identity, tokens are unique, a
    removed instance has an identity and no row, every alert belongs to an identity and
    an unresolved one to an instance that is there. *)
Record tables_inv (t : InstanceTables) : Prop := MkTablesInv {
  inv_instance : (dom (e_instance (it_eval t)) : gset string) = dom (it_row t);
  inv_agent : (dom (au_agent (it_auth t)) : gset string) = dom (it_row t);
  inv_password : (dom (w_instance (it_world t)) : gset string) = dom (it_row t);
  inv_config : (dom (e_config (it_eval t)) : gset string) = dom (it_row t);
  inv_pause : (dom (it_pause t) : gset string) = dom (it_row t);
  inv_expected : forall id inst agent, e_instance (it_eval t) !! id = Some inst -> au_agent (it_auth t) !! id = Some agent ->
    inst_AgentExpected inst = ac_Expected agent;
  inv_named : forall id row, instance_row t id = Some row -> identity t !! id = Some (ir_Name row);
  inv_checked : forall id row, instance_row t id = Some row -> agent_checked row = true;
  inv_tokens : forall i j a b h, au_agent (it_auth t) !! i = Some a -> au_agent (it_auth t) !! j = Some b ->
    ac_TokenHash a = Some h -> ac_TokenHash b = Some h -> i = j;
  inv_removed : forall id at_, it_removed t !! id = Some at_ -> it_row t !! id = None /\ is_Some (identity t !! id);
  inv_alerts : alerts_inv (it_eval t);
  inv_owned : forall id a, alerts t !! id = Some a ->
    is_Some (identity t !! ai_InstanceID a) /\ (ai_Status a <> RECOVERED -> is_Some (it_row t !! ai_InstanceID a));
  inv_keyed : keyed (it_world t);
}.

Lemma row_there t id : tables_inv t -> is_Some (it_row t !! id) <-> is_Some (instance_row t id).
Proof.
  intros [H1 H2 H3 _ _ _ _ _ _ _ _ _ _]. unfold instance_row. split.
  - rewrite <-elem_of_dom. intros Hid.
    destruct (proj1 (elem_of_dom (e_instance (it_eval t)) id)) as [inst ->]; [by rewrite H1|].
    destruct (proj1 (elem_of_dom (au_agent (it_auth t)) id)) as [agent ->]; [by rewrite H2|].
    destruct (proj1 (elem_of_dom (w_instance (it_world t)) id)) as [p ->]; [by rewrite H3|].
    destruct (proj1 (elem_of_dom (it_row t) id) Hid) as [c ->]. simpl. eauto.
  - intros [row H]. apply instance_row_Some in H as (_ & _ & _ & ->). eauto.
Qed.

Lemma row_gone t id : tables_inv t -> it_row t !! id = None <-> instance_row t id = None.
Proof. intros Hi. rewrite !eq_None_not_Some. by rewrite (row_there t id Hi). Qed.

Lemma named_known t id : tables_inv t -> is_Some (it_row t !! id) -> is_Some (identity t !! id).
Proof. intros Hi [row Hr]%(row_there t id Hi). rewrite (inv_named t Hi id row Hr). eauto. Qed.

(** * Changes *)

Section Changes.
Context `{Crypto}.

(** What an [UPDATE instance] may do to a row. *)
Inductive edit (row : InstanceRow) : InstanceRow -> Prop :=
  | edit_credential username ciphertext keyVersion by_ at_ : edit row (set_credential username ciphertext keyVersion by_ at_ row)
  | edit_metadata name host port database : edit row (set_metadata name host port database row)
  | edit_agent expected hash issuedAt revokedAt firstRegisteredAt :
      edit row (set_agent expected hash issuedAt revokedAt firstRegisteredAt row).

(** What the statements of the handlers do to the tables. *)
Inductive change (t : InstanceTables) : InstanceTables -> Prop :=
  | change_drawn n : change t (with_world (set_drawn n (it_world t)) t)
  | change_auth a : au_agent a = au_agent (it_auth t) -> change t (with_auth a t)
  | change_create id row t' :
      identity t !! id = None -> ir_AgentTokenHash row = None ->
      store_instance id row (put_identity id (ir_Name row) t) = Ok t' -> change t (put_config id new_config t')
  | change_update id row row' t1 t' :
      instance_row t id = Some row -> edit row row' ->
      t1 = t /\ ir_Name row' = ir_Name row \/ t1 = put_identity id (ir_Name row') t ->
      store_instance id row' t1 = Ok t' -> change t t'
  | change_config id config config' : config_row t id = Some config -> change t (put_config id config' t)
  | change_actions events actor t' : insert_actions events actor t = Ok t' -> change t t'
  | change_close id at_ :
      is_Some (instance_row t id) -> change t (with_eval (alter_notify (alter_alert (close_alerts id at_)) (it_eval t)) t)
  | change_delete id row at_ :
      instance_row t id = Some row ->
      (forall x a, alerts t !! x = Some a -> ai_InstanceID a = id -> ai_Status a = RECOVERED) ->
      change t (put_identity id (ir_Name row) (with_removed (<[id := timestamptz at_]> (it_removed t)) (remove_row id t))).

Lemma insert_actions_Ok events actor t t' :
  insert_actions events actor t = Ok t' ->
  t' = with_acted (it_acted t ++ ((fun e => (e, actor)) <$> events)) (with_eval (alter_notify (alter_event (fun l => l ++ events)) (it_eval t)) t).
Proof. unfold insert_actions. destruct (_ && _); [done|]. by intros [= <-]. Qed.

(** A row written under a name of its own. *)
Lemma put_instance_inv t id row :
  tables_inv t -> (is_Some (identity t !! id) -> is_Some (it_row t !! id)) ->
  agent_checked row = true -> hash_taken t id (ir_AgentTokenHash row) = false ->
  forall config, tables_inv (put_config id config (put_instance id row (put_identity id (ir_Name row) t))).
Proof.
  intros [H1 H2 H3 H4 H5 He Hn Hc Ht Hr Ha Ho Hk] Hknown Hch Hfree config.
  split; simpl; rewrite ?dom_insert_L; try congruence.
  - intros j inst agent. rewrite !lookup_insert_Some. intros [[<- <-]|[Hj Hi]] [[Hj' <-]|[Hj' Hag]]; simpl; try done. by eapply He.
  - intros j r. change (instance_row _ j) with (instance_row (put_instance id row t) j). rewrite instance_row_put. unfold identity. simpl.
    destruct (decide (j = id)) as [->|]; [intros [= <-]; by rewrite lookup_insert_eq|]. rewrite lookup_insert_ne by done. apply Hn.
  - intros j r. change (instance_row _ j) with (instance_row (put_instance id row t) j). rewrite instance_row_put.
    destruct (decide (j = id)) as [->|]; [by intros [= <-]|apply Hc].
  - intros i j a b h. rewrite !lookup_insert_Some. intros [[<- <-]|[Hi Hia]] [[<- <-]|[Hj Hjb]] E1 E2; simpl in *; try done.
    + rewrite E1 in Hfree. by destruct (hash_taken_false t id h Hfree j b).
    + rewrite E2 in Hfree. by destruct (hash_taken_false t id h Hfree i a).
    + by eapply (Ht i j a b h).
  - intros j at_ Hj. destruct (Hr j at_ Hj) as [Hg Hid]. unfold identity. simpl. destruct (decide (j = id)) as [->|].
    + destruct (Hknown Hid). congruence.
    + by rewrite !lookup_insert_ne.
  - by eapply alerts_inv_same; [..|exact Ha].
  - intros x a Hx. destruct (Ho x a Hx) as [Hid Hrow]. unfold identity. simpl.
    destruct (decide (ai_InstanceID a = id)) as [->|]; [rewrite !lookup_insert_eq; eauto|]. rewrite !lookup_insert_ne by done. eauto.
  - exact Hk.
Qed.

Lemma put_config_same t id config : config_row t id = Some config -> put_config id config t = t.
Proof.
  unfold config_row. destruct (e_config (it_eval t) !! id) as [c|] eqn:Hc; [|done]. simpl.
  destruct (it_pause t !! id) as [pc|] eqn:Hp; [|done]. intros [= <-]. destruct t as [e a w r pm cap rem act], e, c. unfold put_config. simpl in *.
  unfold with_pause, with_eval, set_configs. simpl. by rewrite !insert_id.
Qed.

Lemma put_identity_same t id name : identity t !! id = Some name -> put_identity id name t = t.
Proof.
  unfold identity, put_identity. intros Hn. destruct t as [e a w r pm cap rem act], e as [n ? ? ? ? ? ? ? ? ? ? ? ?], n. simpl in *.
  unfold with_eval, alter_notify, set_identity, identity. simpl. by rewrite insert_id.
Qed.

Lemma config_there t id : tables_inv t -> is_Some (it_row t !! id) <-> is_Some (config_row t id).
Proof.
  intros [_ _ _ H4 H5 _ _ _ _ _ _ _ _]. unfold config_row. split.
  - rewrite <-elem_of_dom. intros Hid. destruct (proj1 (elem_of_dom (e_config (it_eval t)) id)) as [c ->]; [by rewrite H4|].
    destruct (proj1 (elem_of_dom (it_pause t) id)) as [p ->]; [by rewrite H5|]. simpl. eauto.
  - intros [c Hc]. destruct (e_config (it_eval t) !! id) eqn:E; [|done]. rewrite <-elem_of_dom, <-H4, elem_of_dom. eauto.
Qed.

(** Alerts closed in place. *)
Lemma close_alerts_lookup id at_ (m : gmap string AlertInstance) x a' :
  close_alerts id at_ m !! x = Some a' ->
  exists a, m !! x = Some a /\ (ai_InstanceID a = id /\ ai_Status a <> RECOVERED /\ a' = closed_alert at_ a \/
    (ai_InstanceID a = id -> ai_Status a = RECOVERED) /\ a' = a).
Proof.
  unfold close_alerts. rewrite lookup_fmap_Some. intros (a & <- & Ha). exists a. split; [done|].
  case_bool_decide as Hd; [left; naive_solver|right]. split; [|done]. intros Hi. destruct (decide (ai_Status a = RECOVERED)); [done|].
  by destruct Hd.
Qed.

Lemma close_alerts_inv id at_ e : alerts_inv e -> alerts_inv (alter_notify (alter_alert (close_alerts id at_)) e).
Proof.
  intros [Hk Hsh Hu Hf Hsf Hsu He].
  assert (forall x a, n_alert (e_notify e) !! x = Some a -> is_Some (ai_FirstTriggeredAt a) ->
    exists a', close_alerts id at_ (n_alert (e_notify e)) !! x = Some a' /\ is_Some (ai_FirstTriggeredAt a')) as Hfirst.
  { intros x a Ha Hfa. unfold close_alerts. rewrite lookup_fmap, Ha. simpl. case_bool_decide; eauto. }
  split; simpl; try done.
  - intros x a' (a & Ha & Hc)%close_alerts_lookup. destruct (Hk x a Ha). by destruct Hc as [(_ & _ & ->)|[_ ->]].
  - intros x a' (a & Ha & Hc)%close_alerts_lookup. destruct Hc as [(_ & _ & ->)|[_ ->]]; [by split_and!|by apply (Hsh x)].
  - intros i j a b (a0 & Ha & Hca)%close_alerts_lookup (b0 & Hb & Hcb)%close_alerts_lookup Sa Sb Hkey.
    destruct Hca as [(_ & _ & ->)|[_ ->]]; [done|]. destruct Hcb as [(_ & _ & ->)|[_ ->]]; [done|]. by eapply Hu.
  - intros x a' (a & Ha & Hc)%close_alerts_lookup Sa. destruct Hc as [(_ & _ & ->)|[_ ->]]; [done|by apply (Hf x)].
  - intros sid r Hr. destruct (Hsf sid r Hr) as (Hin & a & Ha & Hfa). split; [done|]. by apply (Hfirst _ a).
  - intros x ev Hev. destruct (He x ev Hev) as (a & Ha & Hfa). by apply (Hfirst _ a).
Qed.

(** The parts of the invariant that do not speak of alerts. *)
Lemma same_rows_inv t t' :
  tables_inv t -> (forall id, instance_row t' id = instance_row t id) -> identity t' = identity t -> it_row t' = it_row t ->
  dom (e_instance (it_eval t')) = (dom (e_instance (it_eval t)) : gset string) -> au_agent (it_auth t') = au_agent (it_auth t) ->
  dom (w_instance (it_world t')) = (dom (w_instance (it_world t)) : gset string) ->
  dom (e_config (it_eval t')) = (dom (e_config (it_eval t)) : gset string) -> dom (it_pause t') = (dom (it_pause t) : gset string) ->
  (forall id inst, e_instance (it_eval t') !! id = Some inst ->
     exists inst0, e_instance (it_eval t) !! id = Some inst0 /\ inst_AgentExpected inst = inst_AgentExpected inst0) ->
  it_removed t' = it_removed t -> keyed (it_world t') -> alerts_inv (it_eval t') ->
  (forall id a, alerts t' !! id = Some a ->
     is_Some (identity t !! ai_InstanceID a) /\ (ai_Status a <> RECOVERED -> is_Some (it_row t !! ai_InstanceID a))) ->
  tables_inv t'.
Proof.
  intros [H1 H2 H3 H4 H5 He Hn Hc Ht Hr Ha Ho Hk] Hrow Hid Hrows D1 Da D2 D3 D4 Hexp Hrem Hk' Ha' Ho'.
  split; rewrite ?Hrows, ?Hid, ?Da, ?Hrem; try congruence; try done.
  - intros id inst agent Hi Hag. destruct (Hexp id inst Hi) as (inst0 & Hi0 & ->). by eapply He.
  - intros id row. rewrite Hrow. apply Hn.
  - intros id row. rewrite Hrow. apply Hc.
Qed.

Lemma config_inv t id config config' : tables_inv t -> config_row t id = Some config -> tables_inv (put_config id config' t).
Proof.
  intros Hi Hc. assert (is_Some (it_row t !! id)) as Hrow by (apply (config_there t id Hi); eauto). pose proof Hi as [H1 H2 H3 H4 H5 He Hn Hck Ht Hr Ha Ho Hk].
  apply elem_of_dom in Hrow. eapply same_rows_inv; try done; simpl; rewrite ?dom_insert_L.
  - rewrite H4. set_solver.
  - rewrite H5. set_solver.
  - eauto.
  - by eapply alerts_inv_same; [..|exact Ha].
Qed.

Lemma delete_inv t id row at_ :
  tables_inv t -> instance_row t id = Some row ->
  (forall x a, alerts t !! x = Some a -> ai_InstanceID a = id -> ai_Status a = RECOVERED) ->
  tables_inv (put_identity id (ir_Name row) (with_removed (<[id := timestamptz at_]> (it_removed t)) (remove_row id t))).
Proof.
  intros [H1 H2 H3 H4 H5 He Hn Hc Ht Hr Ha Ho Hk] Hrow Hclosed.
  assert (forall j, instance_row (put_identity id (ir_Name row) (with_removed (<[id := timestamptz at_]> (it_removed t)) (remove_row id t))) j =
    if decide (j = id) then None else instance_row t j) as Hrows.
  { intros j. unfold instance_row. simpl. destruct (decide (j = id)) as [->|]; [by rewrite !lookup_delete_eq|]. by rewrite !lookup_delete_ne. }
  split; simpl; rewrite ?dom_delete_L; try congruence.
  - intros j inst agent. rewrite !lookup_delete_Some. intros [_ Hi] [_ Hag]. by eapply He.
  - intros j r. rewrite Hrows. unfold identity. simpl. destruct (decide (j = id)) as [->|]; [done|]. rewrite lookup_insert_ne by done. apply Hn.
  - intros j r. rewrite Hrows. destruct (decide (j = id)) as [->|]; [done|apply Hc].
  - intros i j a b h. rewrite !lookup_delete_Some. intros [_ Hi] [_ Hj]. by apply Ht.
  - intros j at'. unfold identity. simpl. destruct (decide (j = id)) as [->|]; [rewrite lookup_delete_eq, !lookup_insert_eq; eauto|].
    rewrite !lookup_insert_ne, lookup_delete_ne by done. apply Hr.
  - by eapply alerts_inv_same; [..|exact Ha].
  - intros x a Hx. destruct (Ho x a Hx) as [Hid Hown]. unfold identity. simpl. destruct (decide (ai_InstanceID a = id)) as [E|].
    + rewrite E, lookup_insert_eq. split; [eauto|]. intros Hs. destruct Hs. by apply (Hclosed x).
    + rewrite lookup_insert_ne, lookup_delete_ne by done. auto.
  - exact Hk.
Qed.

Lemma edit_target t id row : tables_inv t -> instance_row t id = Some row -> is_Some (it_row t !! id).
Proof. intros Hi Hr. apply (row_there t id Hi). eauto. Qed.

Lemma change_inv t t' : tables_inv t -> change t t' -> tables_inv t'.
Proof.
  intros Hi Hch. pose proof Hi as [H1 H2 H3 H4 H5 He Hn Hc Ht Hr Ha Ho Hk].
  destruct Hch as [n|a Hag|id row t' Hfree Hno Hs|id row row' t1 t' Hrow Hed Ht1 Hs|id config config' Hcfg|events actor t' Hact|id at_ Hrow|id row at_ Hrow Hclosed].
  - eapply same_rows_inv; try done; eauto.
  - eapply same_rows_inv; try done; eauto. intros id. unfold instance_row. simpl. by rewrite Hag.
  - apply store_instance_Ok in Hs as (-> & Hck & Hh & _). apply put_instance_inv; [done| |done..].
    rewrite Hfree. by intros [].
  - apply store_instance_Ok in Hs as (-> & Hck & Hh & _). pose proof (edit_target t id row Hi Hrow) as Hthere.
    destruct (proj1 (config_there t id Hi) Hthere) as [config Hcfg].
    assert (t1 = put_identity id (ir_Name row') t) as ->.
    { destruct Ht1 as [[-> ->]|]; [|done]. symmetry. by apply put_identity_same, Hn. }
    rewrite <-(put_config_same (put_instance id row' (put_identity id (ir_Name row') t)) id config) by done.
    by apply put_instance_inv.
  - by eapply config_inv.
  - apply insert_actions_Ok in Hact as ->. eapply same_rows_inv; try done; simpl; eauto. by eapply alerts_inv_same; [..|exact Ha].
  - eapply same_rows_inv; try done; simpl; eauto; [by apply close_alerts_inv|].
    intros x a' (a & Hx & Hcl)%close_alerts_lookup. destruct (Ho x a Hx). by destruct Hcl as [(_ & _ & ->)|[_ ->]].
  - by apply delete_inv.
Qed.

(** * What stays *)

Definition version_of (row : InstanceRow) : Z := ic_CredentialVersion (ir_Columns row).

(** The parameters of a connection, but for the password. *)
Definition connection_of (row : InstanceRow) : string * Z * option string * string :=
  let c := ir_Columns row in (ic_Host c, ic_Port c, ic_DatabaseName c, ic_Username c).

Definition password_of (t : InstanceTables) (id : string) : option string := plaintext (it_world t) (SlotInstance id).

Record onward (t t' : InstanceTables) : Prop := MkOnward {
  onward_known : forall id, is_Some (identity t !! id) -> is_Some (identity t' !! id);
  onward_gone : forall id, is_Some (identity t !! id) -> it_row t !! id = None ->
    it_row t' !! id = None /\ spared id (it_eval t) (it_eval t');
  onward_pinned : forall id row row', instance_row t id = Some row -> instance_row t' id = Some row' ->
    version_of row <= version_of row' /\
    (version_of row = version_of row' -> connection_of row = connection_of row' /\
       forall p, password_of t id = Some p -> password_of t' id = Some p);
  onward_acted : it_acted t `prefix_of` it_acted t';
}.

Lemma onward_refl t : onward t t.
Proof. split; try done. intros id row row' H1 H2. assert (row' = row) as -> by congruence. split; [lia|done]. Qed.

Lemma onward_trans t1 t2 t3 : tables_inv t1 -> tables_inv t2 -> onward t1 t2 -> onward t2 t3 -> onward t1 t3.
Proof.
  intros I1 I2 [K1 G1 P1 A1] [K2 G2 P2 A2]. split; [auto| |  |by etrans].
  - intros id Hid Hg. destruct (G1 id Hid Hg) as [Hg2 Hs1]. destruct (G2 id (K1 id Hid) Hg2) as [Hg3 Hs2]. split; [done|by etrans].
  - intros id row1 row3 H1 H3. destruct (instance_row t2 id) as [row2|] eqn:H2.
    + destruct (P1 id row1 row2 H1 H2) as [Hle1 Hp1], (P2 id row2 row3 H2 H3) as [Hle2 Hp2]. split; [lia|].
      intros E. destruct Hp1 as [Hc1 Hw1]; [lia|]. destruct Hp2 as [Hc2 Hw2]; [lia|]. split; [congruence|auto].
    + apply (row_gone t2 id I2) in H2. destruct (G2 id) as [Hg _]; [|done|].
      * apply K1. rewrite (inv_named t1 I1 id row1 H1). eauto.
      * apply instance_row_Some in H3 as (_ & _ & _ & H3). congruence.
Qed.

Lemma password_same t t' id :
  w_disk (it_world t') = w_disk (it_world t) -> w_instance (it_world t') !! id = w_instance (it_world t) !! id -> password_of t' id = password_of t id.
Proof.
  intros Hd Hw. unfold password_of, plaintext, stored. rewrite Hw. destruct (w_instance (it_world t) !! id) as [[c v]|]; [simpl|done].
  by rewrite (key_of_disk _ _ v Hd).
Qed.

(** Changes that touch neither rows nor identities. *)
Lemma same_onward t t' :
  tables_inv t -> (forall id, instance_row t' id = instance_row t id) -> identity t' = identity t -> it_row t' = it_row t ->
  w_disk (it_world t') = w_disk (it_world t) -> w_instance (it_world t') = w_instance (it_world t) ->
  it_acted t `prefix_of` it_acted t' ->
  (forall id, is_Some (identity t !! id) -> it_row t !! id = None -> spared id (it_eval t) (it_eval t')) -> onward t t'.
Proof.
  intros Hi Hr Hid Hrows Hd Hw Ha Hs. split; rewrite ?Hid, ?Hrows; auto.
  intros id row row'. rewrite Hr. intros H1 H2. assert (row' = row) as -> by congruence. split; [lia|]. intros _. split; [done|].
  intros p. by rewrite (password_same t t') by congruence.
Qed.

Lemma edit_pins row row' :
  edit row row' -> version_of row <= version_of row' /\
  (version_of row = version_of row' -> connection_of row = connection_of row' /\ ir_Password row' = ir_Password row).
Proof.
  destruct 1; unfold version_of, connection_of; simpl; [split; lia| |by split; [lia|]].
  destruct (same_target _ _ _ row) eqn:E; [|split; lia]. unfold same_target in E. 
  apply andb_true_iff in E as [[<-%bool_decide_eq_true <-%Z.eqb_eq]%andb_true_iff <-%bool_decide_eq_true]. by split; [lia|].
Qed.

(** A row written for an instance that is there or for a new one. *)
Lemma put_onward t id row' t1 :
  tables_inv t -> t1 = t \/ t1 = put_identity id (ir_Name row') t ->
  (identity t !! id = None \/ exists row, instance_row t id = Some row /\ edit row row') ->
  onward t (put_instance id row' t1).
Proof.
  intros Hi Ht1 Hcase.
  assert (it_eval t1 = it_eval t \/ it_eval t1 = alter_notify (set_identity (<[id := ir_Name row']> (identity t))) (it_eval t)) as Heval
    by (destruct Ht1 as [->| ->]; auto).
  assert (it_row t1 = it_row t /\ it_world t1 = it_world t /\ it_acted t1 = it_acted t /\ forall j, instance_row t1 j = instance_row t j) as
    (Erow & Eworld & Eact & Einst) by (by destruct Ht1 as [->| ->]).
  split.
  - intros j Hj. unfold identity. simpl. destruct Heval as [-> | ->]; simpl; [done|].
    destruct (decide (j = id)) as [->|]; [rewrite lookup_insert_eq; eauto|by rewrite lookup_insert_ne].
  - intros j Hj Hg. simpl. rewrite Erow. split.
    + rewrite lookup_insert_ne; [done|]. intros <-. destruct Hcase as [Hn|(row & Hr & _)]; [by rewrite Hn in Hj; destruct Hj|].
      apply instance_row_Some in Hr as (_ & _ & _ & Hr). congruence.
    + by destruct Heval as [-> | ->].
  - intros j row1 row2 H1. rewrite instance_row_put. destruct (decide (j = id)) as [->|Hne].
    + intros [= <-]. destruct Hcase as [Hn|(row & Hr & He)]; [rewrite (inv_named t Hi id row1 H1) in Hn; done|].
      assert (row1 = row) as -> by congruence. destruct (edit_pins row row' He) as [Hle Hp]. split; [done|].
      intros E. destruct (Hp E) as [Hc Hpw]. split; [done|]. intros p. rewrite (password_same t (put_instance id row' t1)); [done|simpl; by rewrite Eworld|].
      simpl. rewrite lookup_insert_eq, Hpw. apply instance_row_Some in Hr as (_ & _ & -> & _). done.
    + rewrite Einst. intros H2. assert (row2 = row1) as -> by congruence. split; [lia|]. intros _. split; [done|].
      intros p. rewrite (password_same t (put_instance id row' t1)); [done|simpl; by rewrite Eworld|]. simpl. by rewrite Eworld, lookup_insert_ne.
  - simpl. by rewrite Eact.
Qed.

Lemma change_onward t t' : tables_inv t -> change t t' -> onward t t'.
Proof.
  intros Hi Hch. pose proof Hi as [H1 H2 H3 H4 H5 He Hn Hc Ht Hr Ha Ho Hk].
  destruct Hch as [n|a Hag|id row t' Hfree Hno Hs|id row row' t1 t' Hrow Hed Ht1 Hs|id config config' Hcfg|events actor t' Hact|id at_ Hrow|id row at_ Hrow Hclosed].
  - by apply same_onward.
  - apply same_onward; try done. intros id. unfold instance_row. simpl. by rewrite Hag.
  - apply store_instance_Ok in Hs as (-> & _). destruct (put_onward t id row (put_identity id (ir_Name row) t) Hi) as [K G P A]; [auto..|].
    by split.
  - apply store_instance_Ok in Hs as (-> & _). apply put_onward; [done|naive_solver|eauto].
  - by apply same_onward.
  - apply insert_actions_Ok in Hact as ->. apply same_onward; try done. simpl. by eexists.
  - apply same_onward; try done. intros j Hj Hg x. simpl. unfold close_alerts. rewrite lookup_fmap.
    destruct (n_alert (e_notify (it_eval t)) !! x) as [a|]; [|done].
    unfold of_instance. simpl. destruct (decide (ai_InstanceID a = id /\ ai_Status a <> RECOVERED)) as [Hd|Hd];
      [rewrite (bool_decide_true (_ /\ _)) by done|by rewrite (bool_decide_false (_ /\ _))]. simpl. destruct Hd as [Hid _].
    rewrite bool_decide_false; [done|]. intros E. destruct Hrow as [row Hrow]. apply instance_row_Some in Hrow as (_ & _ & _ & Hrow). congruence.
  - split.
    + intros j Hj. unfold identity. simpl. destruct (decide (j = id)) as [->|]; [rewrite lookup_insert_eq; eauto|by rewrite lookup_insert_ne].
    + intros j Hj Hg. simpl. split; [|done]. by apply lookup_delete_None; right.
    + intros j row1 row2 Hr1 Hr2. assert (j <> id /\ row2 = row1) as [Hne ->].
      { apply instance_row_Some in Hr2 as Hx. destruct Hx as (_ & _ & _ & Hx). simpl in Hx. apply lookup_delete_Some in Hx as [Hne _].
        split; [done|]. unfold instance_row in Hr2. simpl in Hr2. rewrite !lookup_delete_ne in Hr2 by done. unfold instance_row in Hr1. congruence. }
      split; [lia|]. intros _. split; [done|]. intros p.
      rewrite (password_same t (put_identity id (ir_Name row) _)); [done..|]. simpl. by rewrite lookup_delete_ne.
    + done.
Qed.

(** * Code that changes the tables step by step *)

Definition forth (t0 t : InstanceTables) : Prop := tables_inv t /\ onward t0 t.

Lemma forth_onward t0 t t' : tables_inv t0 -> forth t0 t -> tables_inv t' -> onward t t' -> forth t0 t'.
Proof. intros I0 [It Ht] It' Ht'. split; [done|]. exact (onward_trans t0 t t' I0 It Ht Ht'). Qed.

Lemma forth_change t0 t t' : tables_inv t0 -> forth t0 t -> change t t' -> forth t0 t'.
Proof. intros I0 [It Ht] Hc. eapply forth_onward; [done|by split|by eapply change_inv|by apply change_onward]. Qed.

Lemma forth_refl t : tables_inv t -> forth t t.
Proof. intros Hi. split; [done|apply onward_refl]. Qed.

Class Steady {A} (m : DB InstanceTables A) : Prop :=
  steady : forall t0, tables_inv t0 -> triple (forth t0) m (fun _ => forth t0) (forth t0).

#[local] Instance ret_steady {A} (a : A) : Steady (mret a).
Proof. intros t0 _. by apply triple_ret. Qed.

#[local] Instance fail_steady {A} e : Steady (fail e : DB InstanceTables A).
Proof. intros t0 _. by apply triple_fail. Qed.

#[local] Instance bind_steady {A B} (m : DB InstanceTables A) (k : A -> DB InstanceTables B) : Steady m -> (forall a, Steady (k a)) -> Steady (m ≫= k).
Proof. intros Hm Hk t0 I0. eapply triple_bind; [by apply Hm|]. intros a. by apply Hk. Qed.

#[local] Instance attempt_steady {A} (m : DB InstanceTables A) : Steady m -> Steady (attempt m).
Proof. intros Hm t0 I0. by apply (triple_attempt _ _ (fun _ => forth t0) _ _ (Hm t0 I0)). Qed.

#[local] Instance tx_steady {A} (m : DB InstanceTables A) : Steady m -> Steady (InTx m).
Proof.
  intros Hm t0 I0. apply triple_InTx; [|done]. by eapply triple_weaken; [apply Hm|..].
Qed.

#[local] Instance reads_steady {A} (m : DB InstanceTables A) : Keeps (fun t => t) m -> Steady m | 10.
Proof.
  intros Hk t0 I0 fs t Ht. specialize (Hk fs t). unfold tables_after in Hk.
  by destruct (m fs t) as [[[a|e] t'] fs']; simpl in *; subst.
Qed.

(** One statement. *)
Lemma statement_steady {A} (effect : InstanceTables -> result (A * InstanceTables)) :
  (forall t a t', tables_inv t -> effect t = Ok (a, t') -> rtc change t t') -> Steady (statement effect).
Proof.
  intros He t0 I0. assert (forall t t', forth t0 t -> rtc change t t' -> forth t0 t') as Hrtc.
  { intros t t' Ht Hr. revert Ht. induction Hr as [|x y z Hxy _ IH]; [done|]. intros Hx. apply IH. by eapply forth_change. }
  apply triple_statement; [done|]. intros t a t' Ht Heff. assert (forth t0 t') as Hf; [|done].
  eapply Hrtc; [exact Ht|]. eapply He; [apply Ht|done].
Qed.

(** ** Statements *)

Lemma update_instance_Ok id where_ set_ t row' t' :
  update_instance id where_ set_ t = Ok (row', t') ->
  exists row, instance_row t id = Some row /\ where_ row = true /\ row' = set_ row /\ store_instance id row' t = Ok t'.
Proof.
  unfold update_instance. destruct (instance_row t id) as [row|]; [|done]. destruct (where_ row) eqn:Hw; [|done].
  destruct (store_instance id (set_ row) t) as [t1|] eqn:Hs; [|done]. intros [= <- <-]. exists row. by split_and!.
Qed.

Lemma update_steady {A} id where_ set_ (f : InstanceRow -> A) :
  (forall row, edit row (set_ row) /\ ir_Name (set_ row) = ir_Name row) ->
  Steady (statement (fun t => '(row, t') ← update_instance id where_ set_ t; Ok (f row, t'))).
Proof.
  intros Hed. apply statement_steady. intros t a t' Hi Heff.
  destruct (update_instance id where_ set_ t) as [[row' t1]|] eqn:Hu; [|done]. injection Heff as <- <-.
  apply update_instance_Ok in Hu as (row & Hr & _ & -> & Hs). apply rtc_once. destruct (Hed row). by eapply change_update; [..|left|exact Hs].
Qed.

Lemma update_returning_steady id where_ set_ :
  (forall row, edit row (set_ row) /\ ir_Name (set_ row) = ir_Name row) -> Steady (statement (update_instance id where_ set_)).
Proof.
  intros Hed t0 I0. pose proof (update_steady id where_ set_ (fun row => row) Hed t0 I0) as Hs. intros fs t Ht. specialize (Hs fs t Ht).
  unfold statement in *. destruct (next_fate fs) as [[|e|e] fs'], (update_instance id where_ set_ t) as [[row t']|]; simpl in *; done.
Qed.

#[local] Instance create_statement_steady id name engine host port database username ciphertext keyVersion createdBy serverNow :
  Steady (InstanceQueries.CreateInstance id name engine host port database username ciphertext keyVersion createdBy serverNow).
Proof.
  apply statement_steady. intros t a t' Hi Heff. cbv zeta in Heff. case_bool_decide; [done|]. case_bool_decide as Hid; [done|].
  apply eq_None_not_Some in Hid. destruct (store_instance _ _ _) as [t1|] eqn:Hs; [|done]. injection Heff as <- <-.
  apply rtc_once. by eapply change_create; [..|exact Hs].
Qed.

#[local] Instance metadata_statement_steady id name host port database : Steady (UpdateInstanceMetadata id name host port database).
Proof.
  apply statement_steady. intros t a t' Hi Heff. destruct (identity t !! id) as [old|]; [|done]. case_bool_decide; [done|].
  destruct (update_instance _ _ _ _) as [[row' t1]|] eqn:Hu; [|done]. injection Heff as <- <-.
  apply update_instance_Ok in Hu as (row & Hr & _ & -> & Hs). apply rtc_once. eapply change_update; [exact Hr|constructor|by right|exact Hs].
Qed.

#[local] Instance credential_statement_steady id username ciphertext keyVersion by_ at_ :
  Steady (InstanceQueries.UpdateInstanceCredential id username ciphertext keyVersion by_ at_).
Proof. apply update_steady. intros row. split; [constructor|done]. Qed.

#[local] Instance register_statement_steady id hash issuedAt : Steady (InstanceQueries.RegisterAgent id hash issuedAt).
Proof. apply update_returning_steady. intros row. split; [constructor|done]. Qed.

#[local] Instance rotate_statement_steady id hash issuedAt : Steady (InstanceQueries.RotateAgentToken id hash issuedAt).
Proof. apply update_returning_steady. intros row. split; [constructor|done]. Qed.

#[local] Instance revoke_statement_steady id revokedAt : Steady (InstanceQueries.RevokeAgentToken id revokedAt).
Proof. apply update_returning_steady. intros row. split; [constructor|done]. Qed.

#[local] Instance disable_statement_steady id : Steady (InstanceQueries.DisableAgent id).
Proof. apply update_returning_steady. intros row. split; [constructor|done]. Qed.

#[local] Instance pause_statement_steady id paused by_ at_ reason : Steady (SetCollectionPause id paused by_ at_ reason).
Proof.
  apply statement_steady. intros t a t' Hi Heff. destruct (config_row t id) as [config|] eqn:Hc; [|done]. destruct (eqb _ _); [done|].
  destruct (unknown_user _ _); [done|]. injection Heff as <- <-. apply rtc_once. by eapply change_config.
Qed.

#[local] Instance pause_events_steady id kind at_ actor : Steady (CreateCollectionPauseEvents id kind at_ actor).
Proof.
  apply statement_steady. intros t a t' Hi Heff. destruct (insert_actions _ _ _) as [t1|] eqn:Ha; [|done]. injection Heff as <- <-.
  apply rtc_once. by eapply change_actions.
Qed.

Lemma auth_steady {A} (m : DB AuthTables A) : Keeps au_agent m -> Steady (in_auth m).
Proof.
  intros Hk t0 I0. apply triple_focus. intros t Ht fs a ->. specialize (Hk fs (it_auth t)). unfold tables_after in Hk.
  destruct (m fs (it_auth t)) as [[[x|e] a'] fs']; simpl in *; eapply forth_change; eauto; by constructor.
Qed.

#[local] Instance record_steady e : Steady (in_auth (RecordEvent e)).
Proof.
  apply auth_steady. unfold RecordEvent. destruct (negb _); [apply _|]. destruct (eqb _ _); [apply _|]. destruct (IsZero _); [apply _|].
  apply statement_keeps. intros a [] a' Heff. cbv zeta in Heff. destruct (negb _); [done|].
  destruct (match evt_ActorID e with Some _ => _ | None => _ end); [done|]. by injection Heff as <-.
Qed.

#[local] Instance encrypt_drawn keyring p aad description : Keeps (set_drawn 0) (encrypt keyring p aad description).
Proof.
  unfold encrypt. destruct (keyring_fault keyring); [apply _|]. apply bind_keeps; [apply _|]. intros _. apply bind_keeps; [|apply _].
  apply wrap_keeps, statement_keeps. by intros w x w' [= <- <-].
Qed.

#[local] Instance encrypt_steady keyring id p : Steady (in_world (EncryptPassword keyring id p)).
Proof.
  intros t0 I0. apply triple_focus. intros t Ht fs w ->. pose proof (encrypt_drawn keyring p (credentialAAD id) "instance credential" fs (it_world t)) as Hk.
  unfold tables_after in Hk. unfold EncryptPassword. set (r := encrypt keyring p (credentialAAD id) "instance credential" fs (it_world t)) in *.
  assert (r.1.2 = set_drawn (w_drawn r.1.2) (it_world t)) as Hw.
  { destruct r.1.2, (it_world t). unfold set_drawn in *. simpl in *. by injection Hk as <- <- <- <- <-. }
  assert (forth t0 (with_world r.1.2 t)) as Hf by (rewrite Hw; eapply forth_change; eauto; constructor).
  clearbody r. by destruct r as [[[x|e] w'] fs'].
Qed.

#[local] Instance in_world_keeps {A} (m : DB World A) : Keeps (fun w => w) m -> Keeps (fun t => t) (in_world m).
Proof.
  intros Hk fs t. specialize (Hk fs (it_world t)). unfold tables_after, in_world, focus in *.
  destruct (m fs (it_world t)) as [[x w] fs']. simpl in *. subst. by destruct t.
Qed.

#[local] Instance in_notify_reads {A} (m : DB NotifyTables A) : Keeps (fun n => n) m -> Keeps (fun t => t) (in_eval (in_notify m)).
Proof.
  intros Hk fs t. specialize (Hk fs (e_notify (it_eval t))). unfold tables_after, in_eval, in_notify, focus in *.
  destruct (m fs (e_notify (it_eval t))) as [[x n] fs']. simpl in *. subst. destruct t as [e ? ? ? ? ? ? ?]. by destruct e.
Qed.

(** ** Handlers *)

#[local] Instance lift_result_keeps {T A B} (f : T -> B) (r : result A) : Keeps f (lift_result r : DB T A).
Proof. destruct r; apply _. Qed.

Ltac reads_only := apply statement_keeps; intros t x t' Heff; repeat case_match; by simplify_eq/=.

#[local] Instance GetInstanceForUpdate_keeps id : Keeps (fun t => t) (GetInstanceForUpdate id).
Proof. reads_only. Qed.
#[local] Instance LockInstanceForRemoval_keeps id : Keeps (fun t => t) (LockInstanceForRemoval id).
Proof. reads_only. Qed.
#[local] Instance GetInstance_row_keeps id : Keeps (fun t => t) (InstanceQueries.GetInstance id).
Proof. reads_only. Qed.
#[local] Instance GetCollectionPause_row_keeps id : Keeps (fun t => t) (InstanceQueries.GetCollectionPause id).
Proof. reads_only. Qed.

#[local] Instance FindActiveMaintenanceWindow_keeps id at_ : Keeps (fun n => n) (FindActiveMaintenanceWindow id at_).
Proof. unfold FindActiveMaintenanceWindow. apply _. Qed.

#[local] Instance projection_keeps now detail : Keeps (fun t => t) (loadInstanceHealthProjection now detail).
Proof.
  unfold loadInstanceHealthProjection, loadInstanceHealthAlerts. apply bind_keeps; [apply _|]. intros alerts.
  apply bind_keeps; [apply _|]. intros [window inMaintenance]. apply _.
Qed.

#[local] Instance or_400_steady {A B} (m : DB InstanceTables A) (k : A -> DB InstanceTables (response B)) :
  Steady m -> (forall a, Steady (k a)) -> Steady (or_400 m k).
Proof.
  intros Hm Hk. apply bind_steady; [apply _|]. intros [a|e]; [apply _|]. destruct (targetValidationResponseBody e); apply _.
Qed.

#[local] Instance or_409_steady {A B} message (m : DB InstanceTables A) (k : A -> DB InstanceTables (response B)) :
  Steady m -> (forall a, Steady (k a)) -> Steady (or_409 message m k).
Proof. intros Hm Hk. apply bind_steady; [apply _|]. intros [a|e]; [apply _|]. destruct (is_no_rows e); apply _. Qed.

Section Requests.
Context (Sum256 : string -> string) (Dial : targetConnectionInput -> result unit) (ServerVersionNum : targetConnectionInput -> result Z).
Context (caFingerprint : string) (keyring : CredentialKeyring) (now : Time) (actorID : string).

#[local] Instance create_steady id serverNow body : Steady (CreateInstance Dial ServerVersionNum keyring actorID id serverNow body).
Proof.
  unfold CreateInstance. destruct body as [body|]; [|apply _]. destruct (negb _); [apply _|].
  apply or_400_steady; [apply _|]. intros _. apply bind_steady; [apply _|]. intros [c v]. apply bind_steady; [apply _|]. intros [i row]. apply _.
Qed.

#[local] Instance update_tx_steady id body : Steady (update_tx Dial ServerVersionNum keyring id body).
Proof.
  unfold update_tx. apply bind_steady; [apply _|]. intros stored. apply bind_steady; [|intros _; apply _].
  destruct (target_changed _ _ _); [|apply _]. apply bind_steady; [apply reads_steady, in_world_keeps, decrypt_keeps|]. intros p. apply _.
Qed.

#[local] Instance update_instance_steady id body : Steady (UpdateInstance Dial ServerVersionNum keyring now id body).
Proof. unfold UpdateInstance. destruct body; apply _. Qed.

#[local] Instance credential_tx_steady id username password :
  Steady (credential_tx Dial ServerVersionNum keyring now actorID id username password).
Proof.
  unfold credential_tx. apply bind_steady; [apply _|]. intros stored. apply bind_steady; [apply _|]. intros _.
  apply bind_steady; [apply _|]. intros [c v]. apply _.
Qed.

#[local] Instance update_credential_steady id body : Steady (UpdateInstanceCredential Dial ServerVersionNum keyring now actorID id body).
Proof. unfold UpdateInstanceCredential. destruct body as [[u p]|]; apply _. Qed.

#[local] Instance register_steady id token : Steady (RegisterAgent Sum256 caFingerprint now id token).
Proof. unfold RegisterAgent. apply _. Qed.
#[local] Instance rotate_steady id token : Steady (RotateAgentToken Sum256 caFingerprint now id token).
Proof. unfold RotateAgentToken. apply _. Qed.
#[local] Instance revoke_steady id : Steady (RevokeAgentToken caFingerprint now id).
Proof. unfold RevokeAgentToken. apply _. Qed.
#[local] Instance disable_steady id : Steady (DisableAgent caFingerprint id).
Proof. unfold DisableAgent. apply _. Qed.

#[local] Instance pause_tx_steady id paused reason : Steady (pause_tx now actorID id paused reason).
Proof. unfold pause_tx. apply bind_steady; [apply _|]. intros [row|e]; [apply _|]. destruct (is_no_rows e); apply _. Qed.

#[local] Instance pause_steady id body : Steady (UpdateCollectionPause now actorID id body).
Proof. unfold UpdateCollectionPause. destruct body as [[paused reason]|]; apply _. Qed.

(** ** Errors *)

(** [pgx.ErrNoRows] is answered only where [P] holds of the tables. *)
Definition no_rows_where {A} (m : DB InstanceTables A) (P : InstanceTables -> Prop) : Prop :=
  forall fs t, match m fs t with (Err e, _, _) => is_no_rows e = true -> P t | _ => True end.

Lemma tx_no_rows {A} (m : DB InstanceTables A) P :
  no_rows_where m P -> forall fs t, match InTx m fs t with (Err e, t', _) => is_no_rows e = true -> P t /\ t' = t | _ => True end.
Proof.
  intros Hm fs t. unfold InTx. destruct (next_fate fs) as [[|f|f] fs1]; [|by rewrite (fault_real f)..].
  specialize (Hm fs1 t). destruct (m fs1 t) as [[[a|e] t1] fs2]; [|auto].
  destruct (next_fate fs2) as [[|f|f] fs3]; [done|by rewrite (fault_real f)..].
Qed.

Lemma statement_no_rows {A} (effect : InstanceTables -> result (A * InstanceTables)) (P : InstanceTables -> Prop) :
  (forall t e, effect t = Err e -> is_no_rows e = true -> P t) -> no_rows_where (statement effect) P.
Proof.
  intros He fs t. unfold statement. destruct (next_fate fs) as [[|f|f] fs1]; [|by rewrite (fault_real f)|];
    destruct (effect t) as [[a t']|e] eqn:E; eauto. by rewrite (fault_real f).
Qed.

Lemma bind_no_rows {A B} (m : DB InstanceTables A) (k : A -> DB InstanceTables B) P :
  no_rows_where m P -> (forall a, no_rows_where (k a) (fun _ => False)) -> no_rows_where (m ≫= k) P.
Proof.
  intros Hm Hk fs t. specialize (Hm fs t). unfold mbind, DB_bind. destruct (m fs t) as [[[a|e] t1] fs1]; [|done].
  specialize (Hk a fs1 t1). destruct (k a fs1 t1) as [[[b|e] t2] fs2]; [done|]. intros He. by destruct (Hk He).
Qed.

Lemma record_no_rows e : no_rows_where (in_auth (RecordEvent e)) (fun _ => False).
Proof.
  intros fs t. unfold in_auth, focus, RecordEvent. destruct (negb _); [done|]. destruct (eqb _ _); [done|]. destruct (IsZero _); [done|].
  unfold insert_event, statement. destruct (next_fate fs) as [[|f|f] fs1]; [|by rewrite (fault_real f)|];
    destruct (negb _); try done; destruct (match evt_ActorID e with Some _ => _ | None => _ end); try done; by rewrite (fault_real f).
Qed.

Lemma removal_no_rows id : no_rows_where (removal_tx now actorID id) (fun t => instance_row t id = None).
Proof.
  unfold removal_tx. apply bind_no_rows; [|intros _; apply bind_no_rows; [|intros _; apply bind_no_rows; [apply record_no_rows|intros _]]].
  - apply statement_no_rows. intros t e. by destruct (instance_row t id).
  - apply statement_no_rows. intros t e. unfold insert_actions. destruct (_ && _); [by intros [= <-]|done].
  - apply statement_no_rows. by intros t e.
Qed.

(** ** Removal *)

Definition removal_events (t : InstanceTables) (id : string) : list AlertEvent :=
  action_event "INSTANCE_REMOVED" (fun _ => RECOVERED) now <$> unresolved_of t id.

(** The row is gone, its unresolved alerts are closed, and the events say who did it. *)
Record removed (t : InstanceTables) (id : string) (t' : InstanceTables) : Prop := MkRemoved {
  removed_there : is_Some (instance_row t id);
  removed_forth : forth t t';
  removed_gone : it_row t' !! id = None;
  removed_at : it_removed t' !! id = Some (timestamptz now);
  removed_alerts : alerts t' = close_alerts id now (alerts t);
  removed_acted : it_acted t' = it_acted t ++ ((fun e => (e, actorID)) <$> removal_events t id);
  removed_event : au_event (it_auth t') =
    au_event (it_auth t) ++ [event_row (MkEvent "INSTANCE_REMOVED" now (Some actorID) EmptyString (Some id))];
}.

Lemma record_in_auth e t (Q : unit -> InstanceTables -> Prop) :
  Q tt (with_auth (with_events (au_event (it_auth t) ++ [event_row e]) (it_auth t)) t) ->
  triple (fun t1 => t1 = t) (in_auth (RecordEvent e)) Q (fun _ => True).
Proof. intros HQ. apply triple_focus. intros t1 ->. by apply last_event. Qed.

Lemma removal_tx_removes id t :
  tables_inv t -> triple (fun t1 => t1 = t) (removal_tx now actorID id) (fun _ => removed t id) (fun _ => True).
Proof.
  intros Hi. unfold removal_tx. apply step_statement. intros x t2 Heff.
  destruct (instance_row t id) as [row|] eqn:Hrow; [|done]. injection Heff as <- <-.
  apply step_statement. intros [] t2 Heff. fold (removal_events t id) in Heff.
  destruct (insert_actions _ _ _) as [t1|] eqn:Hact; [|done]. injection Heff as <-.
  assert (is_Some (instance_row t1 id)) as Hrow1 by (apply insert_actions_Ok in Hact as ->; eauto).
  pose proof (forth_change t _ _ Hi (forth_refl t Hi) (change_actions _ _ _ _ Hact)) as F1.
  pose proof (forth_change t _ _ Hi F1 (change_close t1 id now Hrow1)) as F2.
  eapply (triple_bind _ _ _ (fun _ t2 => t2 = _)); [by apply record_in_auth|]. intros []. apply triple_at. intros t2 ->.
  set (t3 := with_auth _ _). assert (forth t t3) as F3 by (eapply forth_change; [done|exact F2|by constructor]).
  apply insert_actions_Ok in Hact as E1. subst t1.
  apply triple_statement; [done|]. intros t4 [] t' -> Hdel. split; [|done].
  change (instance_row t3 id) with (instance_row t id) in Hdel. rewrite Hrow in Hdel. injection Hdel as <-. split; simpl; try done.
  - eapply forth_change; [done|exact F3|]. apply (change_delete t3 id row now); [exact Hrow|].
    intros y a Hy Ha. unfold alerts, t3 in Hy. simpl in Hy. apply close_alerts_lookup in Hy as (b & Hb & [(_ & _ & ->)|[Hd ->]]); auto.
  - by rewrite lookup_delete_eq.
  - by rewrite lookup_insert_eq.
Qed.

#[local] Instance delete_steady id : Steady (DeleteInstance now actorID id).
Proof.
  unfold DeleteInstance. apply bind_steady.
  - intros t0 I0. apply (triple_attempt _ _ (fun _ => forth t0) _ (forth t0)); [|done]. apply triple_InTx; [|done]. apply triple_at.
    intros t Ht. eapply triple_weaken; [by apply removal_tx_removes, Ht|done| |done]. intros [] t' Hr.
    destruct (removed_forth _ _ _ Hr) as [I' Ho]. by eapply forth_onward; [..|exact Ho].
  - intros [[]|e]; [apply _|]. destruct (is_no_rows e); apply _.
Qed.

(** The answer 204 means the instance is gone. *)
Lemma delete_answered id fs t t' fs' :
  tables_inv t -> DeleteInstance now actorID id fs t = (Ok R204, t', fs') ->
  removed t id t' \/ instance_row t id = None /\ t' = t.
Proof.
  intros Hi Hrun. unfold DeleteInstance, mbind, DB_bind, attempt in Hrun.
  pose proof (triple_InTx_either (fun t1 => t1 = t) (removal_tx now actorID id) _ (fun _ => True) (removal_tx_removes id t Hi)
    (fun _ _ => I) (fun _ _ _ => I) fs t eq_refl) as Hr.
  pose proof (tx_no_rows (removal_tx now actorID id) (fun t => instance_row t id = None) (removal_no_rows id) fs t) as Hno.
  destruct (InTx (removal_tx now actorID id) fs t) as [[[[]|e] t1] fs1]; [left; by injection Hrun as <- <-|right].
  destruct (is_no_rows e) eqn:He; [|done]. injection Hrun as <- <-. by apply Hno.
Qed.
End Requests.

(** * The other components *)

Lemma pass_forth read_sessions sprint limit now fs t :
  tables_inv t -> forth t (with_eval (tables_after (RunOnce read_sessions sprint limit now) fs (it_eval t)) t).
Proof.
  intros Hi. set (e' := tables_after _ _ _). pose proof Hi as [H1 H2 H3 H4 H5 He Hn Hc Ht Hr Ha Ho Hk].
  assert (configuration e' = configuration (it_eval t)) as Hcfg by apply (keeps fs (it_eval t) (f := configuration)).
  assert (forall i, idle i (it_eval t) -> spared i (it_eval t) e') as Hs by (intros i Hid; by apply pass_spares).
  assert (alerts_inv e') as Ha'.
  { apply (triple_tables _ (RunOnce read_sessions sprint limit now) fs (it_eval t)); [|done]. unfold RunOnce.
    eapply triple_bind; [by apply triple_wrap, (triple_query _ _ (fun _ => alerts_inv))|]. intros targets.
    apply triple_for_each. intros group _. apply evaluateInstance_inv. }
  clearbody e'. injection Hcfg as E1 E2 E3 E4 E5 E6 E7.
  assert (forall id, it_row t !! id = None -> idle id (it_eval t)) as Hidle.
  { intros id Hg. unfold idle. replace (e_instance (it_eval t) !! id) with (@None EvalInstance); [done|]. symmetry.
    apply not_elem_of_dom. rewrite H1. by apply not_elem_of_dom. }
  assert (forall id, instance_row (with_eval e' t) id = instance_row t id) as Hrows by (intros id; unfold instance_row; simpl; by rewrite E3).
  split; [eapply same_rows_inv|apply same_onward]; try done; simpl; rewrite ?E3, ?E4; eauto.
  intros id a Hid. destruct (it_row t !! ai_InstanceID a) as [c|] eqn:Hrow.
  - split; [|eauto]. apply (named_known t _ Hi). eauto.
  - specialize (Hs _ (Hidle _ Hrow) id). unfold alerts in Hid. simpl in Hid. unfold of_instance in Hs at 1. rewrite Hid in Hs. simpl in Hs.
    rewrite bool_decide_true in Hs by done. unfold of_instance in Hs.
    destruct (n_alert (e_notify (it_eval t)) !! id) as [b|] eqn:Hb; [|done]. simpl in Hs. case_bool_decide as Hbi; [|done].
    assert (core a = core b) as Hcore by congruence. destruct (Ho id b Hb) as [Hk1 Hk2]. rewrite Hbi in *. split; [done|].
    intros Hst. rewrite <-Hrow. apply Hk2. by apply core_eq in Hcore as (_ & _ & <- & _).
Qed.

Definition kept_rows (w : World) : gset string * gmap string string := (dom (w_instance w), wt_ID <$> w_webhook w).

#[local] Instance reads_rows {A} (m : DB World A) : Keeps (fun w => w) m -> Keeps kept_rows m | 10.
Proof. intros Hk fs w. by rewrite (Hk fs w). Qed.

#[local] Instance encrypt_rows keyring p aad description : Keeps kept_rows (encrypt keyring p aad description).
Proof.
  intros fs w. pose proof (encrypt_drawn keyring p aad description fs w) as Hk. destruct (tables_after _ _ _), w. unfold set_drawn in Hk.
  simpl in Hk. by injection Hk as <- <- <- <- <-.
Qed.

#[local] Instance exec_rows (f : World -> World) : (forall w, kept_rows (f w) = kept_rows w) -> Keeps kept_rows (exec f).
Proof. apply exec_keeps. Qed.

#[local] Instance update_instance_rows id c v : Keeps kept_rows (UpdateCredentialKeyVersion id c v).
Proof. apply exec_keeps. intros w. unfold kept_rows. simpl. by rewrite dom_alter_L. Qed.

#[local] Instance update_smtp_rows c v : Keeps kept_rows (UpdateSMTPChannelAuthKey c v).
Proof. by apply exec_keeps. Qed.

#[local] Instance update_webhook_rows id value header v : Keeps kept_rows (UpdateWebhookTargetSigningKey id value header v).
Proof.
  apply exec_keeps. intros w. unfold kept_rows. simpl. f_equal. apply map_eq. intros j. rewrite !lookup_fmap.
  destruct (decide (j = id)) as [->|]; [rewrite lookup_alter_eq; by destruct (w_webhook w !! id)|by rewrite lookup_alter_ne].
Qed.

#[local] Instance sum_each_rows {I} (f : I -> DB World Z) items total : (forall i, Keeps kept_rows (f i)) -> Keeps kept_rows (sum_each f items total).
Proof. intros Hf. revert total. induction items as [|i items IH]; intros total; simpl; [apply _|]. apply bind_keeps; [apply _|]. intros n. apply IH. Qed.

#[local] Instance OpenCredentialKeyring_reads : Keeps (fun w => w) (OpenCredentialKeyring true).
Proof. unfold OpenCredentialKeyring. apply _. Qed.

#[local] Instance create_file_rows name contents : Keeps kept_rows (create_file name contents).
Proof. reads_only. Qed.

#[local] Instance Remove_rows name : Keeps kept_rows (Remove name).
Proof. reads_only. Qed.

#[local] Instance draw_rows n : Keeps kept_rows (draw n).
Proof. reads_only. Qed.

#[local] Instance activate_rows version : Keeps kept_rows (activateCredentialKey version).
Proof. unfold activateCredentialKey, writeCurrentCredentialKeyVersion, rename_over, syncCredentialDirectory. apply _. Qed.

#[local] Instance generate_rows version : Keeps kept_rows (generateCredentialKey version).
Proof. unfold generateCredentialKey, generateEncodedCredentialKey, syncCredentialDirectory. apply _. Qed.

#[local] Instance prepare_rows : Keeps kept_rows PrepareCredentialKeyRotation.
Proof. unfold PrepareCredentialKeyRotation, CountCredentialsNotUsingKeyVersion. apply _. Qed.

#[local] Instance reencrypt_instance_rows keyring row : Keeps kept_rows (reencrypt_instance keyring row).
Proof.
  destruct row as [[id c] v]. unfold reencrypt_instance. destruct (_ =? _); [apply _|]. apply bind_keeps; [apply reads_rows, decrypt_keeps|].
  intros p. apply bind_keeps; [apply encrypt_rows|]. intros [c' v']. apply _.
Qed.

#[local] Instance reencrypt_smtp_rows keyring : Keeps kept_rows (reencryptSMTPChannel keyring).
Proof.
  unfold reencryptSMTPChannel. apply bind_keeps; [apply attempt_keeps; reads_only|]. intros [channel|e]; [|destruct (is_no_rows e); apply _].
  cbv zeta. destruct (_ =? _); [apply _|]. apply bind_keeps; [apply reads_rows, decrypt_keeps|].
  intros p. apply bind_keeps; [apply encrypt_rows|]. intros [c' v']. apply _.
Qed.

#[local] Instance reencrypt_webhook_rows keyring target : Keeps kept_rows (reencrypt_webhook keyring target).
Proof.
  unfold reencrypt_webhook. cbv zeta. destruct (_ =? _); [apply _|].
  do 2 (apply bind_keeps; [apply reads_rows, decrypt_keeps|intros ?]).
  apply bind_keeps; [apply encrypt_rows|]. intros [c v]. apply bind_keeps; [apply encrypt_rows|]. intros [c' v']. apply _.
Qed.

#[local] Instance rotate_rows : Keeps kept_rows rotateCredentialKeyring.
Proof.
  unfold rotateCredentialKeyring. apply bind_keeps; [apply _|]. intros [keyring need]. apply bind_keeps.
  - destruct need; [|apply _]. unfold ReencryptCredentials, reencryptWebhookTargets, ListCredentialsForKeyRotation, ListWebhookTargetsForKeyRotation. apply _.
  - intros n. apply bind_keeps; [|intros _; apply bind_keeps; [|apply _]].
    + apply wrap_keeps. unfold SyncSnapshot, loadChannelSnapshotFromDatabase, WriteSnapshot, ListWebhookTargets.
      apply bind_keeps; [apply bind_keeps; [apply attempt_keeps; reads_only|apply _]|apply _].
    + unfold RemoveUnreferencedKeys, verify_unreferenced, CountCredentialKeyReferences, remove_key, syncCredentialDirectory. apply _.
Qed.

Lemma rotation_forth fs t : tables_inv t -> forth t (with_world (tables_after rotateCredentialKeyring fs (it_world t)) t).
Proof.
  intros Hi. pose proof Hi as [H1 H2 H3 H4 H5 He Hn Hc Ht Hr Ha Ho Hk].
  pose proof (rotate_outcome (it_world t) Hk fs (it_world t) eq_refl) as Hout.
  pose proof (keeps fs (it_world t) (f := kept_rows) (m := rotateCredentialKeyring)) as Hrows. unfold tables_after in *.
  set (w' := (rotateCredentialKeyring fs (it_world t)).1.2) in *.
  assert (safe (it_world t) w') as Hsafe.
  { unfold w'. destruct (rotateCredentialKeyring fs (it_world t)) as [[[r|e] w] fs']; simpl in *; [|apply Hout].
    by apply synced_outcome in Hout as [? _]. }
  clear Hout. clearbody w'. injection Hrows as Hdom Hids.
  assert (keyed w') as Hk'.
  { intros id x Hx. assert ((wt_ID <$> w_webhook w') !! id = Some (wt_ID x)) as E by (by rewrite lookup_fmap, Hx).
    rewrite Hids, lookup_fmap in E. destruct (w_webhook (it_world t) !! id) as [y|] eqn:Hy; [|done]. simpl in E.
    injection E as <-. by apply Hk. }
  assert (forall id row, instance_row (with_world w' t) id = Some row ->
    exists row0, instance_row t id = Some row0 /\ ir_Name row = ir_Name row0 /\ ir_AgentExpected row = ir_AgentExpected row0 /\
      ir_AgentTokenHash row = ir_AgentTokenHash row0 /\ ir_AgentTokenRevokedAt row = ir_AgentTokenRevokedAt row0 /\
      ir_Columns row = ir_Columns row0) as Hback.
  { intros id row Hrow. unfold instance_row in *. simpl in Hrow. destruct (e_instance (it_eval t) !! id) as [inst|]; [|done]. simpl in *.
    destruct (au_agent (it_auth t) !! id) as [agent|]; [|done]. simpl in *.
    destruct (w_instance w' !! id) as [p|] eqn:Hp; [|done]. simpl in Hrow. destruct (it_row t !! id) as [c|]; [|done]. injection Hrow as <-.
    assert (id ∈ (dom (w_instance (it_world t)) : gset string)) as Hin by (rewrite <-Hdom; apply elem_of_dom; eauto).
    apply elem_of_dom in Hin as [p0 ->]. simpl. eauto 10. }
  split; [split|split]; try done; simpl.
  - congruence.
  - intros id row (row0 & Hrow0 & -> & _)%Hback. by apply Hn.
  - intros id row (row0 & Hrow0 & _ & E1 & E2 & E3 & E4)%Hback. specialize (Hc id row0 Hrow0). unfold agent_checked in *. by rewrite E1, E2, E3, E4.
  - intros id row row' Hrow Hrow'. destruct (Hback id row' Hrow') as (row0 & Hrow0 & _ & _ & _ & _ & Hcol).
    assert (row0 = row) as -> by congruence. unfold version_of, connection_of. rewrite Hcol. split; [lia|]. intros _. split; [done|].
    intros p. apply Hsafe.
Qed.

(** What agents and the collector write: source states, series, samples and capability
    snapshots, and the version an agent reports. *)
Definition set_version (version : option string) (c : InstanceColumns) : InstanceColumns :=
  MkInstanceColumns (ic_Host c) (ic_Port c) (ic_DatabaseName c) (ic_Username c) (ic_CredentialVersion c) (ic_AgentTokenIssuedAt c)
    (ic_AgentFirstRegisteredAt c) version (ic_CreatedAt c) (ic_CreatedBy c) (ic_CredentialUpdatedBy c) (ic_CredentialUpdatedAt c).

Definition observe (sources : gmap (string * string) SourceState) (series : list SeriesRow) (samples : list SampleRow)
    (capability : gmap string (Time * result CapabilityStates)) (id : string) (version : option string) (t : InstanceTables) : InstanceTables :=
  let e := it_eval t in
  MkInstanceTables
    (MkEvalTables (e_notify e) (e_instance e) (e_config e) sources (e_rule_version e) (e_catalog e) (e_scope e) (e_evaluated e) series
       samples (e_trigger_snapshot e) (e_trigger_session e) (e_performance_event e))
    (it_auth t) (it_world t) (alter (set_version version) id (it_row t)) (it_pause t) capability (it_removed t) (it_acted t).

Lemma observe_row sources series samples capability id version t j row :
  instance_row (observe sources series samples capability id version t) j = Some row ->
  exists row0, instance_row t j = Some row0 /\ ir_Name row = ir_Name row0 /\ (agent_checked row = agent_checked row0) /\
    version_of row = version_of row0 /\ connection_of row = connection_of row0.
Proof.
  unfold instance_row, observe. simpl. destruct (e_instance (it_eval t) !! j) as [inst|]; [|done]. simpl.
  destruct (au_agent (it_auth t) !! j) as [agent|]; [|done]. simpl. destruct (w_instance (it_world t) !! j) as [p|]; [|done]. simpl.
  destruct (decide (j = id)) as [->|]; [rewrite lookup_alter_eq|rewrite lookup_alter_ne by done];
    destruct (it_row t !! _) as [c|]; try done; simpl; intros [= <-]; eauto 10.
Qed.

Lemma observe_forth sources series samples capability id version t :
  tables_inv t -> forth t (observe sources series samples capability id version t).
Proof.
  intros [H1 H2 H3 H4 H5 He Hn Hc Ht Hr Ha Ho Hk]. split; split; simpl; rewrite ?dom_alter_L; try done.
  - intros j row (row0 & Hrow & -> & _)%observe_row. by apply Hn.
  - intros j row (row0 & Hrow & _ & -> & _)%observe_row. by apply (Hc j).
  - intros j at_ Hj. destruct (Hr j at_ Hj) as [Hg Hid]. split; [|done]. by rewrite lookup_alter_None.
  - by eapply alerts_inv_same; [..|exact Ha].
  - intros x a Hx. destruct (Ho x a Hx) as [Hid Hown]. split; [done|]. intros Hs. rewrite lookup_alter_is_Some. auto.
  - intros j Hj Hg. split; [|done]. by rewrite lookup_alter_None.
  - intros j row row' Hrow Hrow'. destruct (observe_row _ _ _ _ _ _ _ _ _ Hrow') as (row0 & Hrow0 & _ & _ & Ev & Ec).
    assert (row0 = row) as -> by congruence. rewrite Ev, Ec. split; [lia|done].
Qed.

(** * Steps of the platform *)

Context (Sum256 : string -> string) (caFingerprint : string).

(** A request to one of the handlers, under any faults; a pass of the evaluator; a
    rotation of the keys; what agents and the collector write; and requests about users
    and sessions. The parameters of a request are those of its moment. *)
Inductive platform_step (t : InstanceTables) : InstanceTables -> Prop :=
  | step_create Dial V keyring actorID id serverNow body fs :
      platform_step t (tables_after (CreateInstance Dial V keyring actorID id serverNow body) fs t)
  | step_update Dial V keyring now id body fs : platform_step t (tables_after (UpdateInstance Dial V keyring now id body) fs t)
  | step_credential Dial V keyring now actorID id body fs :
      platform_step t (tables_after (UpdateInstanceCredential Dial V keyring now actorID id body) fs t)
  | step_delete now actorID id fs : platform_step t (tables_after (DeleteInstance now actorID id) fs t)
  | step_register now id token fs : platform_step t (tables_after (RegisterAgent Sum256 caFingerprint now id token) fs t)
  | step_rotate_token now id token fs : platform_step t (tables_after (RotateAgentToken Sum256 caFingerprint now id token) fs t)
  | step_revoke now id fs : platform_step t (tables_after (RevokeAgentToken caFingerprint now id) fs t)
  | step_disable id fs : platform_step t (tables_after (DisableAgent caFingerprint id) fs t)
  | step_pause now actorID id body fs : platform_step t (tables_after (UpdateCollectionPause now actorID id body) fs t)
  | step_pass read_sessions sprint limit now fs : platform_step t (tables_after (in_eval (RunOnce read_sessions sprint limit now)) fs t)
  | step_rotate_keys fs : platform_step t (tables_after (in_world rotateCredentialKeyring) fs t)
  | step_observe sources series samples capability id version :
      platform_step t (observe sources series samples capability id version t)
  | step_users a : au_agent a = au_agent (it_auth t) -> platform_step t (with_auth a t).

Lemma steady_forth {A} (m : DB InstanceTables A) fs t : Steady m -> tables_inv t -> forth t (tables_after m fs t).
Proof. intros Hm Hi. apply (triple_tables (forth t) m fs t (Hm t Hi)). by apply forth_refl. Qed.

Lemma focus_after {T S A} (get : T -> S) (set : S -> T -> T) (m : DB S A) fs t :
  tables_after (focus get set m) fs t = set (tables_after m fs (get t)) t.
Proof. unfold tables_after, focus. by destruct (m fs (get t)) as [[r s] fs']. Qed.

Lemma platform_step_forth t t' : tables_inv t -> platform_step t t' -> forth t t'.
Proof.
  intros Hi Hs. destruct Hs; try (apply steady_forth; [|done]; first [apply create_steady|apply update_instance_steady
    |apply update_credential_steady|apply delete_steady|apply register_steady|apply rotate_steady|apply revoke_steady|apply disable_steady
    |apply pause_steady]).
  - unfold in_eval. rewrite focus_after. by apply pass_forth.
  - unfold in_world. rewrite focus_after. by apply rotation_forth.
  - by apply observe_forth.
  - eapply forth_change; [done|by apply forth_refl|by constructor].
Qed.

Lemma platform_steps_forth t t' : tables_inv t -> rtc platform_step t t' -> forth t t'.
Proof.
  intros Hi Hs. revert Hi. induction Hs as [t|t t1 t' H1 _ IH]; intros Hi; [by apply forth_refl|].
  pose proof (platform_step_forth t t1 Hi H1) as F1. destruct (IH (proj1 F1)) as [I' O']. by eapply forth_onward.
Qed.

(** * Agents *)

(** The middleware calls the operation of a report of instance [id] with this token. *)
Definition admitted (t : InstanceTables) (id token : string) : bool :=
  match plain (authenticate_agent Sum256 (MkRequest None (bearer +:+ token) None (Some id)) (fun _ => mret tt)) (it_auth t) with
  | (Ok (Passed _), _) => true
  | _ => false
  end.

Lemma prefix_app_string (s rest : string) : String.prefix s (s +:+ rest) = true.
Proof. induction s as [|c s IH]; simpl; [by destruct rest|]. destruct (Ascii.ascii_dec c c); [exact IH|done]. Qed.

Lemma bearerToken_bearer token : bearerToken (bearer +:+ token) = token.
Proof.
  destruct token as [|c rest]; [done|]. unfold bearerToken, TrimPrefix, HasPrefix. rewrite prefix_app_string, length_app_string.
  rewrite bool_decide_false by (cbn [String.length]; lia). cbn [negb orb]. rewrite Nat.add_comm, Nat.add_sub. apply substring_app_r.
Qed.

Lemma admitted_spec t id token :
  admitted t id token = negb (bool_decide (token = EmptyString)) && bool_decide (au_agent (it_auth t) !! id ≫= agent_hash = Some (Sum256 token)).
Proof.
  unfold admitted, authenticate_agent. cbn [rq_ReportInstance rq_Authorization]. rewrite bearerToken_bearer. unfold GetAgentTokenHash.
  unfold plain, mbind, DB_bind, attempt, statement, next_fate. simpl.
  generalize (option_bind AgentCredential string agent_hash (au_agent (it_auth t) !! id)). intros [h|]; simpl.
  - case_bool_decide as Ht; simpl; [done|]. destruct (decide (h = Sum256 token)) as [->|Hne].
    + by rewrite !bool_decide_true.
    + by rewrite !bool_decide_false by congruence.
  - by rewrite andb_comm.
Qed.

Lemma agent_after_put id row t j :
  au_agent (it_auth (put_instance id row t)) !! j =
  if decide (j = id) then Some (MkAgentCredential (ir_AgentExpected row) (ir_AgentTokenHash row) (ir_AgentTokenRevokedAt row))
  else au_agent (it_auth t) !! j.
Proof. simpl. destruct (decide (j = id)) as [->|]; [by rewrite lookup_insert_eq|by rewrite lookup_insert_ne]. Qed.

(** What the four requests about a token answer. *)
Lemma or_409_answer {B} message (effect : InstanceTables -> result (InstanceRow * InstanceTables)) (f : InstanceRow -> B) fs t r t' fs' :
  or_409 message (statement effect) (fun row => mret (R200 (f row))) fs t = (Ok r, t', fs') ->
  (exists row, effect t = Ok (row, t') /\ r = R200 (f row)) \/ (exists e, r = R409 e) /\ t' = t.
Proof.
  unfold or_409, mbind, DB_bind, attempt. pose proof (statement_cases effect fs t) as Hc.
  destruct (statement effect fs t) as [[[row|e] t1] fs1]; simpl in Hc.
  - unfold mret, DB_ret. intros [= <- <- <-]. eauto.
  - destruct (is_no_rows e); [|done]. unfold mret, DB_ret. intros [= <- <- <-]. destruct (Hc eq_refl) as [_ ->]. eauto.
Qed.

(** The tokens of other agents stay, and a token is never that of two instances. *)
Lemma put_admits id row t :
  tables_inv t -> hash_taken t id (ir_AgentTokenHash row) = false -> agent_checked row = true ->
  (forall x, admitted (put_instance id row t) id x = negb (bool_decide (x = EmptyString)) && bool_decide (ir_AgentTokenHash row = Some (Sum256 x))) /\
  (forall j x, j <> id -> admitted (put_instance id row t) j x = admitted t j x /\
     (ir_AgentTokenHash row = Some (Sum256 x) -> admitted t j x = false)).
Proof.
  intros Hi Hfree Hc. split.
  - intros x. rewrite admitted_spec, agent_after_put, decide_True by done. simpl. unfold agent_hash. simpl. f_equal.
    destruct (ir_AgentTokenHash row) as [h|] eqn:Hh; [|by destruct (_ && _)].
    unfold agent_checked in Hc. rewrite Hh in Hc. simpl in Hc. rewrite !andb_true_iff in Hc. destruct Hc as [_ [[He _] Hr]].
    destruct (ir_AgentTokenRevokedAt row); [done|]. by rewrite He.
  - intros j x Hne. rewrite !admitted_spec, agent_after_put, decide_False by done. split; [done|]. intros Hh.
    rewrite Hh in Hfree. apply andb_false_iff. right. apply bool_decide_eq_false. intros Hj.
    destruct (au_agent (it_auth t) !! j) as [a|] eqn:Ha; [|done]. simpl in Hj. apply (agent_hash_Some Sum256) in Hj as (_ & _ & Hj).
    by destruct (hash_taken_false t id _ Hfree j a).
Qed.

End Changes.
