(* ===== verification/InstanceSafety.v ===== *)
(** What a user who administers instances can rely on: a removed instance stays removed
    and its alerts closed, a stored connection is one that was tested, a token of an agent
    is good from its issue to its revocation, and a paused instance keeps its alerts. *)

From S2P Require Import Prelude Db Text Responses AlertState AlertHealth Dictionary Capability TriggerSnapshot Notify Evaluator EvaluatorInv AuthQueries Auth AuthInv UsersInv Credentials CredentialsInv InstanceList InstanceQueries InstanceHealth InstanceAdmin InstanceAdminInv.

Section Safety.
Context `{Crypto} (Sum256 : string -> string) (caFingerprint : string).

(** * Removal *)

Lemma gone_admits_none t id token : tables_inv t -> it_row t !! id = None -> admitted Sum256 t id token = false.
Proof.
  intros Hi Hg. rewrite admitted_spec. replace (au_agent (it_auth t) !! id) with (@None AgentCredential); [apply andb_false_r|].
  symmetry. apply not_elem_of_dom. rewrite (inv_agent t Hi). by apply not_elem_of_dom.
Qed.

Lemma gone_alerts_closed t id x a :
  tables_inv t -> it_row t !! id = None -> alerts t !! x = Some a -> ai_InstanceID a = id -> ai_Status a = RECOVERED.
Proof.
  intros Hi Hg Hx <-. destruct (decide (ai_Status a = RECOVERED)) as [|Hs]; [done|].
  destruct (inv_owned t Hi x a Hx) as [_ Hown]. destruct (Hown Hs). congruence.
Qed.

(** C9. When the removal of an instance that is there is answered, its unresolved alerts,
    and no others, have been closed at that moment with an event each that names who removed it.
    And whatever the platform does afterwards (any requests, evaluator passes, rotations of keys,
    reports and collections, under any faults), the instance never comes back, no agent is admitted
    in its name, all its alerts stay recovered and unchanged but for their maintenance columns, and the log of actions only grows. *)
Theorem removed_instances_stay_closed now actorID id fs t t1 fs' :
  tables_inv t -> is_Some (instance_row t id) ->
  DeleteInstance now actorID id fs t = (Ok R204, t1, fs') ->
  (forall x a, alerts t !! x = Some a ->
     alerts t1 !! x = Some (if bool_decide (ai_InstanceID a = id /\ ai_Status a <> RECOVERED) then closed_alert now a else a)) /\
  it_acted t1 = it_acted t ++ ((fun e => (e, actorID)) <$> (action_event "INSTANCE_REMOVED" (fun _ => RECOVERED) now <$> unresolved_of t id)) /\
  forall t2, rtc (platform_step Sum256 caFingerprint) t1 t2 ->
    instance_row t2 id = None /\ (forall token, admitted Sum256 t2 id token = false) /\
    (forall x a, alerts t2 !! x = Some a -> ai_InstanceID a = id -> ai_Status a = RECOVERED) /\
    spared id (it_eval t1) (it_eval t2) /\ it_acted t1 `prefix_of` it_acted t2.
Proof.
  intros Hi [row Hrow] Hrun. destruct (delete_answered _ _ _ _ _ _ _ Hi Hrun) as [Hr|[Hno _]]; [|congruence].
  destruct Hr as [_ [Hi1 [Hknown _ _ _]] Hgone _ Hal Hact _]. split_and!.
  - intros x a Hx. rewrite Hal. unfold close_alerts. by rewrite lookup_fmap, Hx.
  - exact Hact.
  - intros t2 [Hi2 Ho]%platform_steps_forth; [|done].
    assert (is_Some (identity t1 !! id)) as Hid1 by (apply Hknown; rewrite (inv_named t Hi id row Hrow); eauto).
    destruct (onward_gone _ _ Ho id Hid1 Hgone) as [Hgone2 Hspared].
    split_and!; [by apply (row_gone t2 id Hi2)|intros token; by apply gone_admits_none|intros x a; by apply gone_alerts_closed|done|].
    exact (onward_acted _ _ Ho).
Qed.

(** * Agents *)

(** From now on reports of [id] are admitted with a token of this digest only, and no
    other instance is touched. *)
Definition tokens_changed (t : InstanceTables) (id : string) (hash : option string) (t' : InstanceTables) : Prop :=
  (forall x, admitted Sum256 t' id x = negb (bool_decide (x = EmptyString)) && bool_decide (hash = Some (Sum256 x))) /\
  (forall j x, j <> id -> admitted Sum256 t' j x = admitted Sum256 t j x /\ (hash = Some (Sum256 x) -> admitted Sum256 t' j x = false)).

Lemma update_changes_tokens id where_ set_ t row' t' :
  tables_inv t -> update_instance id where_ set_ t = Ok (row', t') ->
  exists row, instance_row t id = Some row /\ where_ row = true /\ row' = set_ row /\ tokens_changed t id (ir_AgentTokenHash row') t'.
Proof.
  intros Hi (row & Hr & Hw & -> & Hs)%update_instance_Ok. apply store_instance_Ok in Hs as (-> & Hc & Hh & _).
  exists row. split_and!; [done..|]. destruct (put_admits Sum256 id (set_ row) t Hi Hh Hc) as [Ha Hb]. split; [done|].
  intros j x Hne. destruct (Hb j x Hne) as [Hj Hno]. split; [done|]. intros Hx. rewrite Hj. auto.
Qed.

Lemma token_answer {B} message id where_ set_ (f : InstanceRow -> B) fs t r t' fs' :
  tables_inv t ->
  or_409 message (statement (update_instance id where_ set_)) (fun row => mret (R200 (f row))) fs t = (Ok r, t', fs') ->
  (exists row, instance_row t id = Some row /\ where_ row = true /\ r = R200 (f (set_ row)) /\
     tokens_changed t id (ir_AgentTokenHash (set_ row)) t') \/ (exists e, r = R409 e) /\ t' = t.
Proof.
  intros Hi [(row' & Hu & ->)|Hno]%or_409_answer; [left|by right].
  apply update_changes_tokens in Hu as (row & Hr & Hw & -> & Ht); [|done]. eauto 10.
Qed.

(** C16. The four requests about an agent's token answer either a conflict, and nothing has
    changed, or the registration as it now is: after a registration or a rotation exactly the
    token that was answered is admitted for the instance (an old one no longer is) and for no other
    instance, after a revocation or a switch-off none is, and the tokens of every other instance are
    admitted as before. *)
Theorem agent_tokens_take_effect now id token fs t t' fs' :
  tables_inv t ->
  (forall r, RegisterAgent Sum256 caFingerprint now id (Ok token) fs t = (Ok r, t', fs') ->
     (exists reg, r = R200 (token, reg) /\ reg_State reg = "EXPECTED_ONLINE" /\ tokens_changed t id (Some (Sum256 token)) t' /\
        forall x, admitted Sum256 t id x = false) \/ (exists e, r = R409 e) /\ t' = t) /\
  (forall r, RotateAgentToken Sum256 caFingerprint now id (Ok token) fs t = (Ok r, t', fs') ->
     (exists reg, r = R200 (token, reg) /\ reg_State reg = "EXPECTED_ONLINE" /\ tokens_changed t id (Some (Sum256 token)) t') \/
     (exists e, r = R409 e) /\ t' = t) /\
  (forall r, RevokeAgentToken caFingerprint now id fs t = (Ok r, t', fs') ->
     (exists reg, r = R200 reg /\ reg_State reg = "REVOKED" /\ tokens_changed t id None t') \/ (exists e, r = R409 e) /\ t' = t) /\
  (forall r, DisableAgent caFingerprint id fs t = (Ok r, t', fs') ->
     (exists reg, r = R200 reg /\ reg_State reg = "DISABLED" /\ tokens_changed t id None t') \/ (exists e, r = R409 e) /\ t' = t).
Proof.
  intros Hi. split_and!.
  - intros r [(row & Hr & Hw & -> & Ht)|Hno]%token_answer; [left|by right|done]. eexists. split_and!; [done..|].
    intros x. apply andb_true_iff in Hw as [_ Hw]. apply instance_row_Some in Hr as (_ & [expected Ha] & _).
    rewrite admitted_spec, Ha. unfold agent_hash. simpl. destruct (ir_AgentTokenHash row); [done|].
    destruct (expected && _); apply andb_false_r.
  - intros r [(row & Hr & Hw & -> & Ht)|Hno]%token_answer; [left|by right|done]. eexists. split_and!; [done| |done].
    apply andb_true_iff in Hw as [[Hw _]%andb_true_iff _]. simpl. unfold registration_state. rewrite Hw. by rewrite andb_false_r.
  - intros r [(row & Hr & Hw & -> & Ht)|Hno]%token_answer; [left|by right|done]. eexists. split_and!; [done| |done].
    apply andb_true_iff in Hw as [[Hw _]%andb_true_iff _]. simpl. unfold registration_state. rewrite Hw. by rewrite andb_false_r.
  - intros r [(row & Hr & Hw & -> & Ht)|Hno]%token_answer; [left|by right|done]. eexists. split_and!; [done| |done].
    simpl. unfold registration_state. pose proof (inv_checked t Hi id row Hr) as Hc. unfold agent_checked in Hc. rewrite Hw in Hc.
    destruct (ic_AgentFirstRegisteredAt (ir_Columns row)); [done|]. simpl in Hc. by rewrite !andb_false_r in Hc.
Qed.

(** * The pause *)

Definition pause_events (now : Time) (paused : bool) (t : InstanceTables) (id : string) : list AlertEvent :=
  action_event (if paused then "FROZEN" else "UNFROZEN") ai_Status now <$> unresolved_of t id.

(** A request that asks for the pause there is changes nothing; another one stores who
    asked, when and why, with an event for each unresolved alert. *)
Definition pause_set (now : Time) (actorID : string) (t : InstanceTables) (id : string) (paused : bool) (reason : option string)
    (status : CollectionPauseStatus) (t' : InstanceTables) : Prop :=
  exists config, config_row t id = Some config /\
    (cr_Paused config = paused /\ t' = t /\ status = toAPICollectionPauseStatus config \/
     cr_Paused config <> paused /\ status = MkPauseStatus paused (Some actorID) (Some (timestamptz now)) reason /\
     alerts t' = alerts t /\ it_acted t' = it_acted t ++ ((fun e => (e, actorID)) <$> pause_events now paused t id) /\
     exists config', config_row t' id = Some config' /\ toAPICollectionPauseStatus config' = status).

Lemma config_row_put id config t : config_row (put_config id config t) id = Some config.
Proof. unfold config_row. simpl. rewrite !lookup_insert_eq. by destruct config. Qed.

Lemma pause_tx_sets now actorID id paused reason t :
  triple (fun t1 => t1 = t) (pause_tx now actorID id paused reason) (pause_set now actorID t id paused reason) (fun _ => True).
Proof.
  unfold pause_tx. eapply triple_bind; [eapply triple_weaken; [apply (triple_attempt_statement _ t)|done..]|]. intros [row|e].
  - apply triple_at. intros t1 Heff. destruct (config_row t id) as [config|] eqn:Hc; [|done].
    destruct (eqb (cr_Paused config) paused) eqn:Hp; [done|]. destruct (unknown_user _ _); [done|]. injection Heff as <- <-.
    apply step_statement. intros [] t2 Heff. apply triple_ret. intros t3 ->. exists config. split; [done|]. right.
    apply eqb_false_iff in Hp. destruct (insert_actions _ _ _) as [t4|] eqn:Ha; [|done]. injection Heff as <-.
    apply insert_actions_Ok in Ha as ->. split_and!; try done. eexists. split; [exact (config_row_put id _ t)|done].
  - destruct (is_no_rows e) eqn:He; [|by apply triple_fail]. apply triple_at. intros t1 [Heff ->]%(fun Hx => Hx eq_refl).
    apply step_statement. intros row t2 Hget. destruct (config_row t id) as [config|] eqn:Hc; [|done]. injection Hget as <- <-.
    apply triple_ret. intros t3 ->. exists config. split; [done|]. left. destruct (eqb (cr_Paused config) paused) eqn:Hp.
    + by apply eqb_prop in Hp.
    + destruct (unknown_user _ _); [|done]. by injection Heff as <-.
Qed.

(** C23. An answered request to pause or resume the collection of an instance either asked
    for what there was and changed nothing, or stored who asked, when and why, left every alert as it
    was and recorded an event FROZEN or UNFROZEN, by that user, for each unresolved alert of the instance and no other;
    and as long as the instance is paused a pass of the evaluator, under any faults, leaves its alerts as they are but for their maintenance columns. *)
Theorem pause_freezes_alerts now actorID id paused reason fs t r t' fs' :
  tables_inv t -> UpdateCollectionPause now actorID id (Some (paused, reason)) fs t = (Ok r, t', fs') ->
  exists status, r = R200 status /\ ps_Paused status = paused /\ pause_set now actorID t id paused reason status t' /\
    (paused = true -> forall read_sessions sprint limit at_ faults,
       spared id (it_eval t') (it_eval (tables_after (in_eval (RunOnce read_sessions sprint limit at_)) faults t'))).
Proof.
  intros Hi Hrun. pose proof (steady_forth _ fs t (pause_steady now actorID id (Some (paused, reason))) Hi) as [Hi' _].
  unfold tables_after in Hi'. rewrite Hrun in Hi'. simpl in Hi'.
  unfold UpdateCollectionPause, mbind, DB_bind in Hrun.
  pose proof (triple_InTx_either _ _ _ (fun _ => True) (pause_tx_sets now actorID id paused reason t) (fun _ _ => I) (fun _ _ _ => I) fs t eq_refl) as Hs.
  destruct (InTx _ fs t) as [[[status|e] t1] fs1]; [|done]. injection Hrun as <- <- <-. exists status. split; [done|].
  assert (exists config, config_row t1 id = Some config /\ toAPICollectionPauseStatus config = status /\ cr_Paused config = paused) as (config & Hc & Hst & Hp).
  { destruct Hs as (config & Hc & [(Hp & -> & ->)|(_ & -> & _ & _ & config' & Hc' & Hst)]); [eauto|]. exists config'. by inversion Hst. }
  split; [by subst status|]. split; [done|]. intros -> read_sessions sprint limit at_ faults.
  unfold in_eval. rewrite focus_after. apply pass_spares; [apply Hi'|]. unfold idle. unfold config_row in Hc.
  destruct (e_instance (it_eval t1) !! id); [|done]. destruct (e_config (it_eval t1) !! id) as [c|]; [|done].
  simpl in Hc. destruct (it_pause t1 !! id); [|done]. injection Hc as <-. done.
Qed.
(** * Connections *)

(** C20. While the platform works, the version of an instance's credential never goes back, and
    as long as it stays the same the target, the user name and the password (as far as it could be read) stay the
    same: a session opened under a version is a session to the stored target with the stored credential. *)
Theorem connections_follow_the_version t t' id row row' :
  tables_inv t -> rtc (platform_step Sum256 caFingerprint) t t' -> instance_row t id = Some row -> instance_row t' id = Some row' ->
  version_of row <= version_of row' /\
  (version_of row = version_of row' -> connection_of row = connection_of row' /\
     forall p, password_of t id = Some p -> password_of t' id = Some p).
Proof. intros Hi Hs. destruct (platform_steps_forth _ _ _ _ Hi Hs) as [_ Ho]. apply (onward_pinned _ _ Ho). Qed.

Section Tested.
Context (Dial : targetConnectionInput -> result unit) (ServerVersionNum : targetConnectionInput -> result Z).
Context (keyring : CredentialKeyring) (now : Time) (actorID : string).

(** The stored target answered under the stored user name and this password, and it is
    not too old. *)
Definition tested (row : InstanceRow) (password : string) : Prop :=
  let c := ir_Columns row in
  let config := MkTargetConnection (ic_Host c) (ic_Port c) (default EmptyString (ic_DatabaseName c)) (ic_Username c) password in
  Dial config = Ok tt /\ exists n, ServerVersionNum config = Ok n /\ minimumTargetServerVersionNum <= n.

Lemma uint16_int32 z : 1 <= int32 z <= 65535 -> uint16 z = int32 z.
Proof.
  intros Hz. assert (z = int32 z + ((z + 2 ^ 31) / 2 ^ 32 * 2 ^ 16) * 2 ^ 16) as E.
  { unfold int32. pose proof (Z.div_mod (z + 2 ^ 31) (2 ^ 32)). lia. }
  unfold uint16. rewrite E at 1. rewrite Z.mod_add, Z.mod_small by lia. done.
Qed.

Lemma store_instance_connection id row t t' :
  store_instance id row t = Ok t' -> 1 <= ic_Port (ir_Columns row) <= 65535 /\ is_Some (ic_DatabaseName (ir_Columns row)).
Proof.
  unfold store_instance. destruct (2 ^ 63 <=? _); [done|]. destruct (connection_checked row && _) eqn:Hc; [|done]. intros _.
  apply andb_true_iff in Hc as [Hc _]. unfold connection_checked in Hc. rewrite !andb_true_iff in Hc.
  destruct Hc as [[[[[[He Hlo] Hhi] Hdb] _] _] _]. rewrite He in Hdb. simpl in Hdb.
  destruct (ic_DatabaseName (ir_Columns row)); [|done]. apply Z.leb_le in Hlo, Hhi. eauto.
Qed.

Lemma validate_tests row password host port database :
  validateTargetConnection Dial ServerVersionNum (MkTargetConnection host port database (ic_Username (ir_Columns row)) password) = Ok tt ->
  ic_Host (ir_Columns row) = host -> ic_Port (ir_Columns row) = int32 port -> default EmptyString (ic_DatabaseName (ir_Columns row)) = database ->
  1 <= ic_Port (ir_Columns row) <= 65535 -> tested row password.
Proof.
  unfold validateTargetConnection. simpl. intros Hv <- Hp <- Hr. rewrite (uint16_int32 port), <-Hp in Hv by (by rewrite <-Hp). unfold tested.
  destruct (Dial _) as [[]|e]; [|done]. destruct (ServerVersionNum _) as [n|e]; [|done]. unfold targetVersionSupported in Hv.
  destruct (Z.leb_spec minimumTargetServerVersionNum n); [|done]. eauto.
Qed.

Lemma or_400_ends {A B} (m : DB InstanceTables A) (k : A -> DB InstanceTables (response B)) t (R : A -> InstanceTables -> Prop) (Q : response B -> InstanceTables -> Prop) :
  triple (fun t1 => t1 = t) m R (fun _ => True) -> (forall a, triple (R a) (k a) Q (fun _ => True)) -> (forall e t1, Q (R400 e) t1) ->
  triple (fun t1 => t1 = t) (or_400 m k) Q (fun _ => True).
Proof.
  intros Hm Hk Hq. eapply triple_bind; [eapply (triple_attempt _ _ (fun r t1 => match r with Ok a => R a t1 | Err _ => True end)); [exact Hm|done]|].
  intros [a|e]; [apply Hk|]. destruct (targetValidationResponseBody e); [by apply triple_ret|by apply triple_fail].
Qed.

Lemma triple_lift_result {A B} (r : result A) (k : A -> DB InstanceTables B) P Q :
  (forall a, r = Ok a -> triple P (k a) Q (fun _ => True)) -> triple P (lift_result r ≫= k) Q (fun _ => True).
Proof. destruct r as [a|e]; intros Hk; [exact (Hk a eq_refl)|]. by intros fs t Ht. Qed.

Lemma instance_reading {A} (m : DB InstanceTables A) (P : InstanceTables -> Prop) : Keeps (fun t => t) m -> triple P m (fun _ => P) (fun _ => True).
Proof.
  intros Hk fs t Ht. specialize (Hk fs t). unfold tables_after in Hk. destruct (m fs t) as [[[a|e] t1] fs1]; simpl in *; by subst.
Qed.

(** The password that was sealed last is the one that is read. *)
Lemma sealed_password t id row c v p :
  ring_ok keyring (it_world t) -> v = currentVersion keyring -> open_envelope (currentKey keyring) c (credentialAAD id) = Some p ->
  ir_Password row = (c, v) -> password_of (put_instance id row t) id = Some p.
Proof.
  intros Hr -> Ho Hp. unfold password_of, plaintext. simpl. rewrite lookup_insert_eq, Hp. simpl.
  change (key_of (it_world (put_instance id row t)) (currentVersion keyring)) with (key_of (it_world t) (currentVersion keyring)).
  rewrite Hr. exact Ho.
Qed.
(** The tables after a nonce was drawn. *)
Definition drawn (t : InstanceTables) : InstanceTables := with_world (set_drawn (S (w_drawn (it_world t))) (it_world t)) t.

Lemma step_encrypt {B} id p (k : string * Z -> DB InstanceTables B) t Q :
  (forall c, open_envelope (currentKey keyring) c (credentialAAD id) = Some p ->
     triple (fun t1 => t1 = drawn t) (k (c, currentVersion keyring)) Q (fun _ => True)) ->
  triple (fun t1 => t1 = t) (in_world (EncryptPassword keyring id p) ≫= k) Q (fun _ => True).
Proof.
  intros Hk. apply (triple_bind _ _ _ (fun r t1 => t1 = drawn t /\ r.2 = currentVersion keyring /\
    open_envelope (currentKey keyring) r.1 (credentialAAD id) = Some p)).
  - apply triple_focus. intros t1 ->. eapply triple_weaken; [apply (encrypt_seals keyring (it_world t))|done| |done]. by intros r w (-> & ? & ?).
  - intros [c v]. apply triple_at. simpl. intros t1 (-> & -> & Ho). by apply Hk.
Qed.

(** ** Creation *)

Definition created_with (t : InstanceTables) (id : string) (password : string) (t' : InstanceTables) : Prop :=
  exists row config, instance_row t id = None /\ instance_row t' id = Some row /\ version_of row = 1 /\ config_row t' id = Some config /\
    cr_Paused config = false /\ password_of t' id = Some password /\ tested row password.

Lemma create_tests id serverNow body t :
  tables_inv t -> ring_ok keyring (it_world t) ->
  triple (fun t1 => t1 = t) (CreateInstance Dial ServerVersionNum keyring actorID id serverNow (Some body))
    (fun r t' => match r with R201 _ => created_with t id (create_Password body) t' | _ => True end) (fun _ => True).
Proof.
  intros Hi Hr. unfold CreateInstance. destruct (negb _); [by apply triple_ret|]. set (database := ResolveBootstrapDatabase _ _).
  apply (or_400_ends _ _ t (fun _ t1 => t1 = t /\ validateTargetConnection Dial ServerVersionNum (MkTargetConnection (create_Host body)
    (create_Port body) database (create_Username body) (create_Password body)) = Ok tt)); [|intros []|done].
  { unfold lift_result. destruct (validateTargetConnection _ _ _) as [[]|e]; [apply triple_ret|apply triple_fail]; by intros t1 ->. }
  apply triple_at. intros t1 [-> Hv]. apply step_encrypt. intros c Hc. apply step_statement. intros [i row] t2 Heff. cbv zeta in Heff.
  case_bool_decide; [done|]. case_bool_decide as Hid; [done|]. change (identity (drawn t)) with (identity t) in Hid.
  destruct (store_instance _ _ _) as [t3|] eqn:Hs; [|done]. injection Heff as <- <- <-.
  apply triple_ret. intros t2 ->. destruct (store_instance_connection _ _ _ _ Hs) as [Hport [db Hdb]]. apply store_instance_Ok in Hs as (-> & _).
  eexists _, _. split_and!.
  - apply (row_gone t id Hi). apply eq_None_not_Some. intros Hrow. by apply Hid, named_known.
  - etrans; [exact (instance_row_put id _ (put_identity id (create_Name body) (drawn t)) id)|]. by rewrite decide_True.
  - done.
  - apply config_row_put.
  - done.
  - by apply (sealed_password (put_identity id (create_Name body) (drawn t)) id _ c (currentVersion keyring)).
  - eapply validate_tests; [exact Hv|done..| |exact Hport]. simpl in *. unfold BootstrapDatabaseColumn in *. case_bool_decide as E; [by rewrite E|done].
Qed.

(** ** New credentials *)

Definition credential_set (t : InstanceTables) (id username password : string) (t' : InstanceTables) : Prop :=
  exists row row', instance_row t id = Some row /\ instance_row t' id = Some row' /\ version_of row' = version_of row + 1 /\
    connection_of row' = ((connection_of row).1, username) /\ password_of t' id = Some password /\ tested row' password.

Lemma credential_tx_tests id username password t :
  ring_ok keyring (it_world t) ->
  triple (fun t1 => t1 = t) (credential_tx Dial ServerVersionNum keyring now actorID id username password)
    (fun _ => credential_set t id username password) (fun _ => True).
Proof.
  intros Hr. unfold credential_tx. apply step_statement. intros row t1 Heff. destruct (instance_row t id) as [r|] eqn:Hrow; [|done].
  injection Heff as <- <-. apply triple_lift_result. intros [] Hv. apply step_encrypt. intros c Hc. apply step_statement. intros u t2 Heff.
  destruct (update_instance _ _ _ _) as [[row' t3]|] eqn:Hu; [|done]. injection Heff as <- <-.
  apply update_instance_Ok in Hu as (row & Hrow1 & _ & -> & Hs). change (instance_row (drawn t) id) with (instance_row t id) in Hrow1.
  assert (row = r) as -> by congruence. destruct (store_instance_connection _ _ _ _ Hs) as [Hport _]. apply store_instance_Ok in Hs as (-> & _).
  set (row' := set_credential _ _ _ _ _ _) in *.
  apply (triple_bind _ _ _ (fun _ => credential_set t id username password)); [|intros _; by apply triple_ret].
  apply record_in_auth. exists r, row'. split_and!; [done| |done|done| |].
  - etrans; [exact (instance_row_put id row' (drawn t) id)|]. by rewrite decide_True.
  - by apply (sealed_password (drawn t) id row' c (currentVersion keyring)).
  - eapply validate_tests; [exact Hv|done| |done|exact Hport]. simpl. symmetry. apply int32_id. unfold in_int32. simpl in Hport. lia.
Qed.

(** ** Edits *)

Definition target_edited (t : InstanceTables) (id : string) (t' : InstanceTables) : Prop :=
  exists row row', instance_row t id = Some row /\ instance_row t' id = Some row' /\ password_of t' id = password_of t id /\
    (connection_of row' = connection_of row /\ version_of row' = version_of row \/
     version_of row' = version_of row + 1 /\ exists password, password_of t id = Some password /\ tested row' password).

(** The handler and the statement agree on when a target changes. *)
Lemma target_changed_spec row body database :
  is_Some (BootstrapDatabaseColumn database) ->
  target_changed row body database = negb (same_target (meta_Host body) (int32 (meta_Port body)) (BootstrapDatabaseColumn database) row).
Proof.
  unfold BootstrapDatabaseColumn. case_bool_decide as Hd; [by intros []|]. intros _. unfold target_changed, same_target. rewrite !negb_andb.
  f_equal. f_equal. apply bool_decide_ext. destruct (ic_DatabaseName (ir_Columns row)) as [db|]; simpl; [|by split; [intros <-|]].
  split; [by intros ->|by intros [= ->]].
Qed.

Lemma update_tx_tests id body t :
  ring_ok keyring (it_world t) ->
  triple (fun t1 => t1 = t) (update_tx Dial ServerVersionNum keyring id body) (fun _ => target_edited t id) (fun _ => True).
Proof.
  intros Hr. unfold update_tx. apply step_statement. intros row t1 Heff. destruct (instance_row t id) as [r|] eqn:Hrow; [|done].
  injection Heff as <- <-. set (database := ResolveBootstrapDatabase _ _).
  apply (triple_bind _ _ _ (fun _ t1 => t1 = t /\ (target_changed r body database = true -> exists password, password_of t id = Some password /\
    validateTargetConnection Dial ServerVersionNum (MkTargetConnection (meta_Host body) (meta_Port body) database (ic_Username (ir_Columns r)) password) = Ok tt))).
  - destruct (target_changed r body database); [|by apply triple_ret].
    apply (triple_bind _ _ _ (fun p t1 => t1 = t /\ password_of t id = Some p)).
    + apply triple_focus. intros t1 ->. eapply triple_weaken; [by apply decrypt_opens|done| |done]. intros p w (-> & key & Hk & Ho).
      split; [by destruct t|]. unfold password_of, plaintext. simpl. apply instance_row_Some in Hrow as (_ & _ & -> & _).
      destruct (ir_Password r) as [c v]. simpl in *. by rewrite Hk.
    + intros p. unfold lift_result. destruct (validateTargetConnection _ _ _) as [[]|e] eqn:Hv; [apply triple_ret|by apply triple_fail].
      intros t1 [-> Hp]. eauto.
  - intros []. apply triple_at. intros t1 [-> Hv]. apply triple_statement; [done|]. intros t1 [i row'] t2 -> Heff. split; [|done].
    destruct (identity t !! id); [|done]. case_bool_decide; [done|]. destruct (update_instance _ _ _ _) as [[row1 t3]|] eqn:Hu; [|done].
    injection Heff as <- <- <-. apply update_instance_Ok in Hu as (row & Hrow1 & _ & -> & Hs).
    change (instance_row (put_identity id (meta_Name body) t) id) with (instance_row t id) in Hrow1. assert (row = r) as -> by congruence.
    destruct (store_instance_connection _ _ _ _ Hs) as [Hport [db Hdb]]. apply store_instance_Ok in Hs as (-> & _).
    simpl in Hdb. rewrite target_changed_spec in Hv by (rewrite Hdb; eauto). set (row' := set_metadata _ _ _ _ r) in *. exists r, row'. split_and!.
    + done.
    + etrans; [exact (instance_row_put id row' (put_identity id (meta_Name body) t) id)|]. by rewrite decide_True.
    + apply password_same; [done|]. simpl. rewrite lookup_insert_eq. by apply instance_row_Some in Hrow as (_ & _ & -> & _).
    + unfold version_of, row'. simpl. destruct (same_target _ _ _ r) eqn:E; [left|right].
      * unfold same_target in E. apply andb_true_iff in E as [[<-%bool_decide_eq_true <-%Z.eqb_eq]%andb_true_iff <-%bool_decide_eq_true].
        split; [done|lia].
      * split; [done|]. destruct (Hv eq_refl) as (p & Hp & Hok). exists p. split; [done|].
        eapply validate_tests; [exact Hok|done|done| |exact Hport]. simpl. unfold BootstrapDatabaseColumn in *. by case_bool_decide.
Qed.

Lemma update_tests id body t :
  ring_ok keyring (it_world t) ->
  triple (fun t1 => t1 = t) (UpdateInstance Dial ServerVersionNum keyring now id (Some body))
    (fun r t' => match r with R200 _ => target_edited t id t' | _ => True end) (fun _ => True).
Proof.
  intros Hr. apply (or_400_ends _ _ t (fun _ => target_edited t id)); [|intros row|done].
  - apply triple_InTx_either; [by apply update_tx_tests|done..].
  - apply (triple_bind _ _ _ (fun _ => target_edited t id)); [apply instance_reading, GetInstance_row_keeps|]. intros detail.
    apply (triple_bind _ _ _ (fun _ => target_edited t id)); [apply instance_reading, projection_keeps|]. intros projection. by apply triple_ret.
Qed.

Lemma credential_tests id username password t :
  ring_ok keyring (it_world t) ->
  triple (fun t1 => t1 = t) (UpdateInstanceCredential Dial ServerVersionNum keyring now actorID id (Some (username, password)))
    (fun r t' => match r with R200 _ => credential_set t id username password t' | _ => True end) (fun _ => True).
Proof.
  intros Hr. apply (or_400_ends _ _ t (fun _ => credential_set t id username password)); [|intros u; by apply triple_ret|done].
  apply triple_InTx_either; [by apply credential_tx_tests|done..].
Qed.

(** C15. With an open key ring, what the handlers store as the connection of an instance is
    what they tested. An answered creation stores a new instance, not paused, in version one of its credential,
    an answered change of the credential the new user name and the next version; both store the password so that it
    can be read, and the stored target answered under it with a server that is not too old. An answered edit either
    leaves the target and the version, or it counts the version up and the new target answered under the stored password.
    The port that is stored is the one that was tried, although they are converted to different widths. *)
Theorem stored_connections_were_tested id serverNow create metadata username password fs t t' fs' :
  tables_inv t -> ring_ok keyring (it_world t) ->
  (forall api, CreateInstance Dial ServerVersionNum keyring actorID id serverNow (Some create) fs t = (Ok (R201 api), t', fs') ->
     created_with t id (create_Password create) t') /\
  (forall api, UpdateInstance Dial ServerVersionNum keyring now id (Some metadata) fs t = (Ok (R200 api), t', fs') -> target_edited t id t') /\
  (forall name, UpdateInstanceCredential Dial ServerVersionNum keyring now actorID id (Some (username, password)) fs t = (Ok (R200 name), t', fs') ->
     credential_set t id username password t').
Proof.
  intros Hi Hr. split_and!.
  - intros api Hrun. pose proof (create_tests id serverNow create t Hi Hr fs t eq_refl) as Hp. by rewrite Hrun in Hp.
  - intros api Hrun. pose proof (update_tests id metadata t Hr fs t eq_refl) as Hp. by rewrite Hrun in Hp.
  - intros name Hrun. pose proof (credential_tests id username password t Hr fs t eq_refl) as Hp. by rewrite Hrun in Hp.
Qed.

End Tested.
End Safety.

(** * Witnesses *)

Module PlatformDemo.
#[local] Existing Instance CredentialsDemo.crypto.

Definition Sum256 (s : string) : string := String.substring 0 32 (s +:+ "................................").
Definition Dial (c : targetConnectionInput) : result unit :=
  if bool_decide (tc_port c = 5432) && bool_decide (tc_password c <> "wrong") then Ok tt else Err (ErrPg "28P01").
Definition ServerVersionNum (c : targetConnectionInput) : result Z := Ok 160002.

(** A platform with one rule and one user that monitors nothing yet. *)
Definition base : InstanceTables :=
  MkInstanceTables
    (MkEvalTables
       (MkNotifyTables ∅ [] {["r1" := EvalDemo.rule]} ∅ ∅ [] [] [] [] ∅ None ∅ [] [] ∅ [] ∅ [])
       ∅ ∅ ∅ {[("r1", 1) := ∅]} Metrics [] ∅ [] [] ∅ [] ∅)
    UsersDemo.start CredentialsDemo.opened.1.2 ∅ ∅ ∅ ∅ [].

Definition input (port : Z) : InstanceCreateInput := MkInstanceCreate "db-1" None "db.example" port "  " "monitor" "secret".

Definition create (id : string) (port : Z) (t : InstanceTables) : InstanceTables :=
  tables_after (CreateInstance Dial ServerVersionNum CredentialsDemo.keyring "u1" id Second (Some (input port))) [] t.

Definition created : InstanceTables := create "i1" 5432 base.

(** The collector has seen 95 connections, and the rule fires. *)
Definition observed : InstanceTables :=
  observe {[("i1", "SERVER_DIRECT") := MkSourceState (Some (9 * Second)) None None]}
    [MkSeriesRow 1 "i1" "pg.connection.active" "postgres" "{}"] [MkSampleRow 1 (9 * Second) (f64_of_Z 95)] ∅ "i1" None created.

Definition pass (at_ : Time) (t : InstanceTables) : InstanceTables :=
  tables_after (in_eval (RunOnce EvalDemo.sessions (fun _ => "95") 20 at_)) [] t.

Definition firing : InstanceTables := pass (10 * Second) observed.

Definition registered : InstanceTables := tables_after (RegisterAgent Sum256 "ca" (11 * Second) "i1" (Ok "first")) [] firing.
Definition rotated : InstanceTables := tables_after (RotateAgentToken Sum256 "ca" (12 * Second) "i1" (Ok "second")) [] registered.
Definition paused : InstanceTables := tables_after (UpdateCollectionPause (13 * Second) "u1" "i1" (Some (true, Some "upgrade"))) [] rotated.
Definition removed : InstanceTables := tables_after (DeleteInstance (14 * Second) "u1" "i1") [] paused.

Lemma base_inv : tables_inv base.
Proof. by split. Qed.

Lemma base_created : rtc (platform_step Sum256 "ca") base created.
Proof. eapply rtc_l; [|apply rtc_refl]. apply step_create. Qed.

Lemma created_registered : rtc (platform_step Sum256 "ca") created registered.
Proof.
  eapply rtc_l; [apply step_observe|]. eapply rtc_l; [apply step_pass|].
  eapply rtc_l; [apply (step_register _ _ _ (11 * Second) "i1" (Ok "first") [])|apply rtc_refl].
Qed.

Lemma registered_rotated : rtc (platform_step Sum256 "ca") registered rotated.
Proof. eapply rtc_l; [apply (step_rotate_token _ _ _ (12 * Second) "i1" (Ok "second") [])|apply rtc_refl]. Qed.

Lemma rotated_paused : rtc (platform_step Sum256 "ca") rotated paused.
Proof. eapply rtc_l; [apply (step_pause _ _ _ (13 * Second) "u1" "i1" (Some (true, Some "upgrade")) [])|apply rtc_refl]. Qed.

Lemma created_inv : tables_inv created.
Proof. apply (platform_steps_forth _ _ _ _ base_inv base_created). Qed.

Lemma registered_inv : tables_inv registered.
Proof. apply (platform_steps_forth _ _ _ _ created_inv created_registered). Qed.

Lemma rotated_inv : tables_inv rotated.
Proof. apply (platform_steps_forth _ _ _ _ registered_inv registered_rotated). Qed.

Lemma paused_inv : tables_inv paused.
Proof. apply (platform_steps_forth _ _ _ _ rotated_inv rotated_paused). Qed.
End PlatformDemo.

#[local] Existing Instance CredentialsDemo.crypto.

(** A port of more than 32 bits is tried and stored as its low bits. *)
Example wrapped_port_accepted :
  (ic_Port ∘ ir_Columns) <$> instance_row (PlatformDemo.create "i1" 4294972728 PlatformDemo.base) "i1" = Some 5432.
Proof. vm_compute. reflexivity. Qed.

Lemma removed_instances_stay_closed_witness :
  ai_Status <$> (map_to_list (alerts PlatformDemo.paused)).*2 = [FIRING] /\
  ai_Status <$> (map_to_list (alerts PlatformDemo.removed)).*2 = [RECOVERED] /\
  instance_row (PlatformDemo.create "i1" 5432 PlatformDemo.removed) "i1" = None.
Proof.
  split; [vm_compute; reflexivity|]. split; [vm_compute; reflexivity|].
  apply (removed_instances_stay_closed PlatformDemo.Sum256 "ca" (14 * Second) "u1" "i1" [] PlatformDemo.paused PlatformDemo.removed []).
  - apply PlatformDemo.paused_inv.
  - vm_compute. eexists. reflexivity.
  - vm_compute. reflexivity.
  - eapply rtc_l; [|apply rtc_refl]. apply step_create.
Defined.

Lemma agent_tokens_take_effect_witness :
  admitted PlatformDemo.Sum256 PlatformDemo.registered "i1" "first" = true /\
  admitted PlatformDemo.Sum256 PlatformDemo.rotated "i1" "first" = false /\
  admitted PlatformDemo.Sum256 PlatformDemo.rotated "i1" "second" = true.
Proof.
  split; [vm_compute; reflexivity|].
  destruct (agent_tokens_take_effect PlatformDemo.Sum256 "ca" (12 * Second) "i1" "second" [] PlatformDemo.registered PlatformDemo.rotated [])
    as (_ & Hrotate & _).
  - apply PlatformDemo.registered_inv.
  - destruct (Hrotate (R200 ("second", agentRegistration "ca" (default (new_instance EmptyString EmptyString EmptyString 0 None EmptyString
        EmptyString 0 EmptyString 0) (instance_row PlatformDemo.rotated "i1")) None))) as [(reg & _ & _ & Ht & _)|[[e He] _]].
    + vm_compute. reflexivity.
    + rewrite !Ht. split; reflexivity.
    + discriminate.
Defined.

Lemma pause_freezes_alerts_witness :
  (fun entry => (ev_Kind entry.1, entry.2)) <$> it_acted PlatformDemo.paused = [("FROZEN", "u1")] /\
  spared "i1" (it_eval PlatformDemo.paused) (it_eval (PlatformDemo.pass (90 * Second) PlatformDemo.paused)).
Proof.
  split; [vm_compute; reflexivity|].
  destruct (pause_freezes_alerts (13 * Second) "u1" "i1" true (Some "upgrade") [] PlatformDemo.rotated
    (R200 (MkPauseStatus true (Some "u1") (Some (13 * Second)) (Some "upgrade"))) PlatformDemo.paused []) as (status & _ & _ & _ & Hfrozen).
  - apply PlatformDemo.rotated_inv.
  - vm_compute. reflexivity.
  - exact (Hfrozen eq_refl EvalDemo.sessions (fun _ => "95") 20 (90 * Second) []).
Defined.

Lemma connections_follow_the_version_witness :
  exists row row', instance_row PlatformDemo.created "i1" = Some row /\ instance_row PlatformDemo.paused "i1" = Some row' /\
    connection_of row = connection_of row' /\ password_of PlatformDemo.paused "i1" = Some "secret".
Proof.
  destruct (instance_row PlatformDemo.created "i1") as [row|] eqn:Hr; [|vm_compute in Hr; discriminate].
  destruct (instance_row PlatformDemo.paused "i1") as [row'|] eqn:Hr'; [|vm_compute in Hr'; discriminate].
  destruct (connections_follow_the_version PlatformDemo.Sum256 "ca" PlatformDemo.created PlatformDemo.paused "i1" row row') as [_ Hsame]; [..|exact Hr|exact Hr'|].
  - apply PlatformDemo.created_inv.
  - etrans; [apply PlatformDemo.created_registered|]. etrans; [apply PlatformDemo.registered_rotated|apply PlatformDemo.rotated_paused].
  - destruct Hsame as [Hc Hp]; [vm_compute in Hr, Hr'; injection Hr as <-; injection Hr' as <-; reflexivity|].
    exists row, row'. split_and!; [done..|]. apply Hp. vm_compute. reflexivity.
Defined.

Lemma stored_connections_were_tested_witness :
  created_with PlatformDemo.Dial PlatformDemo.ServerVersionNum PlatformDemo.base "i1" "secret" PlatformDemo.created.
Proof.
  destruct (stored_connections_were_tested PlatformDemo.Dial PlatformDemo.ServerVersionNum CredentialsDemo.keyring 0 "u1" "i1" Second
    (PlatformDemo.input 5432) (MkInstanceMetadata EmptyString EmptyString 0 EmptyString) EmptyString EmptyString [] PlatformDemo.base PlatformDemo.created [])
    as [Hc _].
  - apply PlatformDemo.base_inv.
  - vm_compute. reflexivity.
  - eapply Hc. vm_compute. reflexivity.
Defined.
