(* ===== verification/InstanceHealthInv.v ===== *)
(** The list of instances and the detail of one say the same of it, but for its
    maintenance window. *)

From S2P Require Import Prelude Db Text Responses AlertState AlertHealth Dictionary Capability ControlPlane Notify Evaluator EvaluatorInv AuthQueries Credentials InstanceList InstanceQueries InstanceHealth CredentialsInv InstanceAdmin InstanceAdminInv InstanceSafety.

(** * The flag of the window *)

Definition flag_window (b : bool) (f : HealthFlags) : HealthFlags :=
  MkHealthFlags (flag_NoData f) b (flag_RecentlyRecovered f) (flag_Ignored f) (flag_ConfigurationMissing f).

Definition loop_window (b : bool) (l : RollupLoop) : RollupLoop :=
  let '(MkRollupLoop counts flags attributed) := l in MkRollupLoop counts (flag_window b flags) attributed.

Definition rollup_window (b : bool) (r : HealthRollup) : HealthRollup :=
  MkHealthRollup (roll_Status r) (roll_Attribution r) (roll_Counts r) (flag_window b (roll_Flags r)).

(** An instance as it would be shown with or without a window in force. *)
Definition show_window (b : bool) (item : APIInstance) : APIInstance :=
  MkAPIInstance (inst_Id item) (inst_Name item) (inst_Engine item) (inst_Host item) (inst_Port item) (inst_Status item) (inst_Counts item)
    (flag_window b (inst_Flags item)) (inst_AgentStatus item) (inst_DataFreshnessSeconds item) (inst_Attribution item) (inst_Database item)
    (inst_Username item) (inst_AgentVersion item) (inst_AgentMetricsEnabled item) (inst_AlertStatus item) (inst_LastCollectedAt item)
    (inst_CollectionPause item).

Lemma rollup_alert_window b now l alert : rollup_alert now (loop_window b l) alert = loop_window b (rollup_alert now l alert).
Proof.
  destruct l as [counts [noData maintenance recovered ignored missing] attributed]. unfold rollup_alert. simpl.
  destruct (negb _); [done|]. destruct (bool_decide (ha_State alert = RECOVERED)); [by destruct (recoveredRecently _ _)|].
  destruct (_ && _); [done|]. by destruct (ha_Ignored alert).
Qed.

Lemma rollup_window_start b paused ever missing now alerts :
  RollupInstanceHealth (MkHealthRollupInput paused ever b missing now alerts) =
  rollup_window b (RollupInstanceHealth (MkHealthRollupInput paused ever false missing now alerts)) /\
  flag_InMaintenance (roll_Flags (RollupInstanceHealth (MkHealthRollupInput paused ever b missing now alerts))) = b.
Proof.
  assert (forall l, foldl (rollup_alert now) (loop_window b l) alerts = loop_window b (foldl (rollup_alert now) l alerts)) as Hl.
  { induction alerts as [|a alerts IH]; intros l; simpl; [done|]. by rewrite rollup_alert_window. }
  unfold RollupInstanceHealth. simpl.
  change (rollup_start (MkHealthRollupInput paused ever b missing now alerts)) with
    (loop_window b (rollup_start (MkHealthRollupInput paused ever false missing now alerts))).
  rewrite Hl. by destruct (foldl _ _ alerts) as [counts flags attributed].
Qed.

Definition projection_window (b : bool) (p : instanceHealthProjection) : instanceHealthProjection :=
  MkProjection (rollup_window b (proj_rollup p)) (proj_alertStatus p) (proj_agentStatus p) (proj_lastCollectedAt p) (proj_dataFreshnessSeconds p).

Lemma project_window detail rows b now :
  projectInstanceHealth (projection_input detail rows b now) =
    (p ← projectInstanceHealth (projection_input detail rows false now); Ok (projection_window b p)) /\
  forall p, projectInstanceHealth (projection_input detail rows b now) = Ok p -> flag_InMaintenance (roll_Flags (proj_rollup p)) = b.
Proof.
  unfold projectInstanceHealth. simpl. destruct (configurationMissingCount _ _) as [missing|e]; [simpl|done].
  destruct (rollup_window_start b (cr_Paused (idt_Config detail)) (negb (absent (idt_CollectorLastSuccessAt detail))) missing now (toHealthAlerts rows)) as [E1 E2].
  split; [by rewrite E1|]. by intros p [= <-].
Qed.

(** * One instance of the list *)

Lemma collect_rows_Forall2 {T A B} (f : A -> result B) rows fs (t : T) items t' fs' :
  collect_rows (fun row => lift_result (f row)) rows fs t = (Ok items, t', fs') -> Forall2 (fun row item => f row = Ok item) rows items /\ t' = t.
Proof.
  revert fs items. induction rows as [|row rows IH]; intros fs items; simpl.
  - intros [= <- <- <-]. by split.
  - unfold mbind, DB_bind, lift_result. destruct (f row) as [item|e] eqn:E; [|done]. simpl.
    destruct (collect_rows _ rows fs t) as [[[items'|e] t1] fs1] eqn:Ec; [|done]. intros [= <- <- <-].
    destruct (IH fs items' Ec) as [Hall ->]. split; [by constructor|done].
Qed.

(** The alerts both readers see. *)
Definition recent_alerts (t : InstanceTables) (now : Time) : list ListInstanceHealthAlertsRow :=
  (sort_by healthRowLess (omap (health_row t (TimeAdd now (- RecentRecoveryWindow))) (map_to_list (alerts t)))).*2.

Definition window_in_force (t : InstanceTables) (id : string) (now : Time) : bool :=
  bool_decide (is_Some (active_window id now (e_notify (it_eval t)))).

Definition listed_details (t : InstanceTables) : list InstanceDetail :=
  sort_by detailLess (omap (instance_detail t) ((map_to_list (it_row t)).*1)).

Lemma query_answers {T A} (f : T -> A) fs t a t' fs' : query f fs t = (Ok a, t', fs') -> a = f t /\ t' = t.
Proof. intros Hq. pose proof (statement_cases (fun t => Ok (f t, t)) fs t) as Hc. unfold query in Hq. rewrite Hq in Hc. by injection Hc as <- <-. Qed.

Lemma list_reads now fs t items t' fs' :
  listInstancesWithHealth now fs t = (Ok items, t', fs') ->
  Forall2 (fun detail item => listed_instance now (alertsByInstance (recent_alerts t now)) detail = Ok item) (listed_details t) items /\ t' = t.
Proof.
  unfold listInstancesWithHealth, mbind, DB_bind. destruct (InstanceQueries.ListInstances fs t) as [[[rows|e] t1] fs1] eqn:E1; [|done].
  apply query_answers in E1 as [-> ->]. unfold loadInstanceHealthAlerts, mbind, DB_bind.
  destruct (ListInstanceHealthAlerts _ fs1 t) as [[[alerts|e] t1] fs2] eqn:E2; [|done]. apply query_answers in E2 as [-> ->].
  apply collect_rows_Forall2.
Qed.

Lemma window_reads id now fs t w b t' fs' :
  in_eval (in_notify (FindActiveMaintenanceWindow id now)) fs t = (Ok (w, b), t', fs') -> t' = t /\ b = window_in_force t id now.
Proof.
  unfold in_eval, in_notify, focus, FindActiveMaintenanceWindow, mbind, DB_bind.
  destruct (query (ListMaintenanceWindowsForInstance id) fs (e_notify (it_eval t))) as [[[windows|e] n] fs1] eqn:E; [|done].
  apply query_answers in E as [-> ->]. change (ActiveMaintenanceWindow _ _ _) with (active_window id now (e_notify (it_eval t))). unfold window_in_force.
  destruct (active_window id now _); intros [= <- <- <- <-]; (split; [destruct t as [e ? ? ? ? ? ? ?]; by destruct e|]).
  - by rewrite bool_decide_true by eauto.
  - by rewrite bool_decide_false by (intros []; done).
Qed.

Lemma detail_found t id detail : instance_detail t id = Some detail -> idt_ID detail = id /\ is_Some (it_row t !! id).
Proof.
  unfold instance_detail, instance_row. destruct (e_instance (it_eval t) !! id); [|done]. simpl. destruct (au_agent (it_auth t) !! id); [|done]. simpl.
  destruct (w_instance (it_world t) !! id); [|done]. simpl. destruct (it_row t !! id); [|done]. simpl. destruct (config_row t id); [|done].
  intros [= <-]. eauto.
Qed.

Lemma detail_reads now id fs t r t' fs' :
  GetInstance now id fs t = (Ok r, t', fs') ->
  t' = t /\ exists detail p, instance_detail t id = Some detail /\ r = R200 (api_instance detail p) /\
    projectInstanceHealth (projection_input detail (alertsByInstance (recent_alerts t now) id) (window_in_force t id now) now) = Ok p.
Proof.
  unfold GetInstance, mbind, DB_bind. destruct (InstanceQueries.GetInstance id fs t) as [[[detail|e] t1] fs1] eqn:E1; [|done].
  pose proof (statement_cases (fun t => match instance_detail t id with Some detail => Ok (detail, t) | None => Err ErrNoRows end) fs t) as Hc.
  unfold InstanceQueries.GetInstance in E1. rewrite E1 in Hc. simpl in Hc. destruct (instance_detail t id) as [d|] eqn:Hd; [|done]. injection Hc as -> <-.
  destruct (detail_found t id detail Hd) as [Hid _]. unfold loadInstanceHealthProjection, loadInstanceHealthAlerts, mbind, DB_bind.
  destruct (ListInstanceHealthAlerts _ fs1 t) as [[[alerts|e] t1] fs2] eqn:E2; [|done]. apply query_answers in E2 as [-> ->]. simpl. rewrite Hid.
  destruct (in_eval _ fs2 t) as [[[[w b]|e] t1] fs3] eqn:E3; [|done]. apply window_reads in E3 as [-> ->].
  fold (recent_alerts t now). unfold lift_result. destruct (projectInstanceHealth _) as [p|e] eqn:Hp; [|done].
  intros [= <- <- <-]. eauto 10.
Qed.

(** An instance that is there is listed once. *)
Lemma listed_once t id detail :
  instance_detail t id = Some detail -> filter (fun d => idt_ID d = id) (listed_details t) = [detail].
Proof.
  intros Hd. apply Permutation_singleton_r. unfold listed_details. rewrite sort_by_perm.
  destruct (detail_found t id detail Hd) as [_ [c Hc]].
  assert (id ∈ (map_to_list (it_row t)).*1) as Hin by (apply list_elem_of_fmap; exists (id, c); split; [done|by apply elem_of_map_to_list]).
  pose proof (NoDup_fst_map_to_list (it_row t)) as Hnd. revert Hin Hnd. generalize ((map_to_list (it_row t)).*1). intros ids Hin Hnd.
  assert (forall l, id ∉ l -> filter (fun d => idt_ID d = id) (omap (instance_detail t) l) = []) as Hnone.
  { induction l as [|i l IH]; intros Hl; [done|]. apply not_elem_of_cons in Hl as [Hi Hl]. simpl. destruct (instance_detail t i) as [d|] eqn:E; [|auto].
    rewrite filter_cons, decide_False; [auto|]. destruct (detail_found t i d E). congruence. }
  induction Hnd as [|i l Hi Hnd IH]; [by apply not_elem_of_nil in Hin|]. simpl. apply elem_of_cons in Hin as [<-|Hin].
  - rewrite Hd, filter_cons, decide_True, Hnone; [done..|]. by destruct (detail_found t id detail Hd).
  - destruct (instance_detail t i) as [d|] eqn:E; [|auto]. rewrite filter_cons, decide_False; [auto|].
    destruct (detail_found t i d E) as [-> _]. by intros ->.
Qed.

Lemma listed_shows now alerts detail item :
  listed_instance now alerts detail = Ok item ->
  inst_Id item = idt_ID detail /\ flag_InMaintenance (inst_Flags item) = false /\
  exists p, projectInstanceHealth (projection_input detail (alerts (idt_ID detail)) false now) = Ok p /\ item = api_instance detail p.
Proof.
  unfold listed_instance. destruct (project_window detail (alerts (idt_ID detail)) false now) as [_ Hf].
  destruct (projectInstanceHealth _) as [p|e]; [|done]. intros [= <-]. split_and!; [done|by apply Hf|eauto].
Qed.

Lemma listed_filter now alerts id rows items :
  Forall2 (fun detail item => listed_instance now alerts detail = Ok item) rows items ->
  Forall2 (fun detail item => listed_instance now alerts detail = Ok item)
    (filter (fun d => idt_ID d = id) rows) (filter (fun x => inst_Id x = id) items).
Proof.
  induction 1 as [|d x rows items Hx _ IH]; [constructor|]. rewrite !filter_cons. destruct (listed_shows _ _ _ _ Hx) as [-> _].
  destruct (decide (idt_ID d = id)); [by constructor|done].
Qed.

Lemma show_window_off b detail p :
  flag_InMaintenance (roll_Flags (proj_rollup p)) = false -> show_window false (api_instance detail (projection_window b p)) = api_instance detail p.
Proof. destruct p as [[status attribution counts [f1 f2 f3 f4 f5]] ? ? ? ?]. simpl. by intros ->. Qed.

(** C24. The list of instances and the detail of an instance, read from the same tables at
    the same time, whatever reads before them failed, do not contradict each other: the instance is in the list exactly once,
    and its health, counts, attribution, flags, status of its agent and every other field are those of the
    detail, except that the detail says whether a maintenance window is in force and the list says
    of no instance that it is under maintenance, so that no instance has the flag by which the list can be filtered. *)
Theorem list_and_detail_agree now id t fs items t1 fs1 fs' item t2 fs2 :
  listInstancesWithHealth now fs t = (Ok items, t1, fs1) -> GetInstance now id fs' t = (Ok (R200 item), t2, fs2) ->
  t1 = t /\ t2 = t /\ filter (fun x => inst_Id x = id) items = [show_window false item] /\
  flag_InMaintenance (inst_Flags item) = window_in_force t id now /\
  Forall (fun x => instanceHasFlag x InstanceFlagMaintenance = false) items.
Proof.
  intros [Hall ->]%list_reads (-> & detail & p & Hd & [= ->] & Hp)%detail_reads. split_and!; [done..| | |].
  - destruct (project_window detail (alertsByInstance (recent_alerts t now) id) (window_in_force t id now) now) as [Hw _]. rewrite Hp in Hw.
    apply (listed_filter _ _ id) in Hall. rewrite (listed_once t id detail Hd) in Hall. apply Forall2_cons_inv_l in Hall as (x & rest & Hx & Hnil & ->).
    apply Forall2_nil_inv_l in Hnil as ->. destruct (listed_shows _ _ _ _ Hx) as (_ & Hf & p0 & Hp0 & ->).
    destruct (detail_found t id detail Hd) as [Hid _]. rewrite Hid in Hp0. rewrite Hp0 in Hw. injection Hw as ->. by rewrite show_window_off.
  - exact (proj2 (project_window detail _ (window_in_force t id now) now) p Hp).
  - apply Forall_forall. intros x Hx. apply list_elem_of_lookup in Hx as [i Hx]. destruct (Forall2_lookup_r _ _ _ _ _ Hall Hx) as (d & _ & Hl).
    by destruct (listed_shows _ _ _ _ Hl) as (_ & Hf & _).
Qed.

(** * Witness *)

Module HealthDemo.
(** The firing instance of the platform, in a maintenance window. *)
Definition tables : InstanceTables :=
  let t := PlatformDemo.firing in
  let n := e_notify (it_eval t) in
  with_eval (alter_notify (fun _ =>
    MkNotifyTables (n_alert n) (n_event n) (n_rule n) (n_identity n) (n_policy n) (n_policy_channel n) (n_policy_contact n)
      (n_policy_contact_group n) (n_group_member n) (n_contact_email n) (n_smtp n) (n_webhook n)
      [MkMaintenanceWindow "w1" (5 * Second) Hour None] [("w1", "i1")] (n_delivery n) (n_attempt n) (n_issued n) (n_outbox n)) (it_eval t)) t.

Definition listed : result (list APIInstance) * InstanceTables * list fate := listInstancesWithHealth (20 * Second) [] tables.
Definition detail : result (response APIInstance) * InstanceTables * list fate := InstanceHealth.GetInstance (20 * Second) "i1" [] tables.

Definition items : list APIInstance := Eval vm_compute in match listed.1.1 with Ok items => items | Err _ => [] end.
Definition item : APIInstance := Eval vm_compute in
  match detail.1.1 with
  | Ok (R200 item) => item
  | _ => toAPIInstance EmptyString (new_instance EmptyString EmptyString EmptyString 0 None EmptyString EmptyString 0 EmptyString 0) false
           (MkPauseStatus false None None None) new_projection
  end.
End HealthDemo.

Lemma list_and_detail_agree_witness :
  inst_Status HealthDemo.item = HealthCritical /\ flag_InMaintenance (inst_Flags HealthDemo.item) = true /\
  filter (fun x => inst_Id x = "i1") HealthDemo.items = [show_window false HealthDemo.item].
Proof.
  destruct (list_and_detail_agree (20 * Second) "i1" HealthDemo.tables [] HealthDemo.items HealthDemo.tables [] [] HealthDemo.item HealthDemo.tables [])
    as (_ & _ & Hf & _).
  - vm_compute. reflexivity.
  - vm_compute. reflexivity.
  - split; [reflexivity|]. split; [reflexivity|exact Hf].
Defined.
