(* ===== verification/ChannelQueries.v ===== *)
(** The statements on notification channels ([internal/notify/queries.sql.go]): the
    SMTP channel, the webhook targets, test notifications, and the lists of attempts and
    of failures, with the constraints of the migrations. *)

From S2P Require Import Prelude Db Text Notify Credentials.

(** * Tables *)

(** The key ring's tables hold the columns of [smtp_channel] and [webhook_target] but for
    their attribution ([ct_smtp_saved]: [updated_at], [updated_by]; [ct_webhook_saved]:
    [created_at], [updated_at], [updated_by]); the dispatcher's tables hold what it reads
    of them once more. *)
Record ChannelTables : Type := MkChannelTables {
  ct_world : World;
  ct_notify : NotifyTables;
  ct_smtp_saved : option (Time * option string);
  ct_webhook_saved : gmap string (Time * Time * option string);
  ct_user : gset string;
}.

Definition with_world (w : World) (t : ChannelTables) : ChannelTables :=
  MkChannelTables w (ct_notify t) (ct_smtp_saved t) (ct_webhook_saved t) (ct_user t).
Definition with_notify (n : NotifyTables) (t : ChannelTables) : ChannelTables :=
  MkChannelTables (ct_world t) n (ct_smtp_saved t) (ct_webhook_saved t) (ct_user t).

Definition in_world {A} (m : DB World A) : DB ChannelTables A := focus ct_world with_world m.
Definition in_notify {A} (m : DB NotifyTables A) : DB ChannelTables A := focus ct_notify with_notify m.

Definition set_channels (smtp : option (bool * string)) (webhook : gmap string (bool * string)) (channels : list NotificationPolicyChannel)
    (t : NotifyTables) : NotifyTables :=
  MkNotifyTables (n_alert t) (n_event t) (n_rule t) (n_identity t) (n_policy t) channels (n_policy_contact t) (n_policy_contact_group t)
    (n_group_member t) (n_contact_email t) smtp webhook (n_window t) (n_window_instance t) (n_delivery t) (n_attempt t) (n_issued t)
    (n_outbox t).

Definition put_smtp (row : SmtpChannel) (saved : Time * option string) (t : ChannelTables) : ChannelTables :=
  let n := ct_notify t in
  MkChannelTables (set_smtp (Some row) (ct_world t))
    (set_channels (Some (smtp_Enabled row, smtp_Recipient row)) (n_webhook n) (n_policy_channel n) n) (Some saved) (ct_webhook_saved t) (ct_user t).

Definition put_webhook (row : WebhookTarget) (saved : Time * Time * option string) (t : ChannelTables) : ChannelTables :=
  let n := ct_notify t in
  MkChannelTables (set_webhook (<[wt_ID row := row]> (w_webhook (ct_world t))) (ct_world t))
    (set_channels (n_smtp n) (<[wt_ID row := (wt_Enabled row, wt_Url row)]> (n_webhook n)) (n_policy_channel n) n)
    (ct_smtp_saved t) (<[wt_ID row := saved]> (ct_webhook_saved t)) (ct_user t).

(** [ON DELETE SET NULL] on the deliveries of a webhook target. *)
Definition forget_target (id : string) (d : NotificationDelivery) : NotificationDelivery :=
  if bool_decide (nd_ChannelTargetID d = Some id) then
    MkNotificationDelivery (nd_ID d) (nd_AlertInstanceID d) (nd_EventType d) (nd_Channel d) (nd_Target d) (nd_TemplateID d) (nd_Payload d)
      (nd_Status d) (nd_AttemptCount d) (nd_NextAttemptAt d) (nd_LockedUntil d) (nd_CreatedAt d) (nd_CompletedAt d) None
  else d.

(** [ON DELETE CASCADE] takes the places of the target in policies along. *)
Definition remove_webhook (id : string) (t : ChannelTables) : ChannelTables :=
  let n := ct_notify t in
  MkChannelTables (set_webhook (delete id (w_webhook (ct_world t))) (ct_world t))
    (alter_delivery (fmap (forget_target id))
       (set_channels (n_smtp n) (delete id (n_webhook n)) (filter (fun c => pc_ChannelTargetID c <> Some id) (n_policy_channel n)) n))
    (ct_smtp_saved t) (delete id (ct_webhook_saved t)) (ct_user t).

(** * Statements on channels *)

Definition unknown_user (t : ChannelTables) (user : option string) : bool :=
  match user with None => false | Some user => bool_decide (user ∉ ct_user t) end.

(** The checks of migration 20. *)
Definition smtp_checked (c : SmtpChannel) : bool :=
  not_blank (smtp_Host c) && (1 <=? smtp_Port c) && (smtp_Port c <=? 65535) && not_blank (smtp_FromAddress c) &&
  not_blank (smtp_Recipient c) && bool_decide (smtp_AuthType c ∈ ["NONE"; "PLAIN"; "LOGIN"]) &&
  bool_decide (smtp_TlsMode c ∈ ["STARTTLS"; "IMPLICIT"]) && eqb (absent (smtp_AuthCiphertext c)) (absent (smtp_AuthKeyVersion c)) &&
  if bool_decide (smtp_AuthType c = "NONE") then absent (smtp_Username c) && absent (smtp_AuthCiphertext c)
  else match smtp_Username c with Some username => not_blank username | None => false end && negb (absent (smtp_AuthCiphertext c)).

(** The checks of migration 21. *)
Definition webhook_checked (target : WebhookTarget) : bool := not_blank (wt_Name target) && not_blank (wt_Url target).

Definition GetSMTPChannel : DB ChannelTables (SmtpChannel * (Time * option string)) :=
  statement (fun t =>
    match w_smtp (ct_world t), ct_smtp_saved t with Some c, Some saved => Ok ((c, saved), t) | _, _ => Err ErrNoRows end).

Definition UpsertSMTPChannel (row : SmtpChannel) (updatedAt : Time) (updatedBy : option string)
    : DB ChannelTables (SmtpChannel * (Time * option string)) :=
  statement (fun t =>
    if negb (smtp_checked row) then Err (ErrPg "23514")
    else if unknown_user t updatedBy then Err (ErrPg "23503")
    else Ok ((row, (timestamptz updatedAt, updatedBy)), put_smtp row (timestamptz updatedAt, updatedBy) t)).

Definition webhook_row (t : ChannelTables) (id : string) : option (WebhookTarget * (Time * Time * option string)) :=
  row ← w_webhook (ct_world t) !! id; saved ← ct_webhook_saved t !! id; Some (row, saved).

(** [ORDER BY name, id] *)
Definition webhookLess (a b : WebhookTarget * (Time * Time * option string)) : bool :=
  string_ltb (wt_Name a.1) (wt_Name b.1) || (bool_decide (wt_Name a.1 = wt_Name b.1) && string_ltb (wt_ID a.1) (wt_ID b.1)).

Definition ListWebhookTargets : DB ChannelTables (list (WebhookTarget * (Time * Time * option string))) :=
  query (fun t => sort_by webhookLess (omap (webhook_row t) ((map_to_list (w_webhook (ct_world t))).*1))).

Definition GetWebhookTarget (id : string) : DB ChannelTables (WebhookTarget * (Time * Time * option string)) :=
  statement (fun t => match webhook_row t id with Some row => Ok (row, t) | None => Err ErrNoRows end).

Definition CreateWebhookTarget (row : WebhookTarget) (createdAt : Time) (updatedBy : option string)
    : DB ChannelTables (WebhookTarget * (Time * Time * option string)) :=
  let saved := (timestamptz createdAt, timestamptz createdAt, updatedBy) in
  statement (fun t =>
    if negb (webhook_checked row) then Err (ErrPg "23514")
    else if bool_decide (is_Some (w_webhook (ct_world t) !! wt_ID row)) then Err (ErrPg "23505")
    else if unknown_user t updatedBy then Err (ErrPg "23503")
    else Ok ((row, saved), put_webhook row saved t)).

Definition UpdateWebhookTarget (row : WebhookTarget) (updatedAt : Time) (updatedBy : option string)
    : DB ChannelTables (WebhookTarget * (Time * Time * option string)) :=
  statement (fun t =>
    match webhook_row t (wt_ID row) with
    | None => Err ErrNoRows
    | Some (_, (createdAt, _, _)) =>
        let saved := (createdAt, timestamptz updatedAt, updatedBy) in
        if negb (webhook_checked row) then Err (ErrPg "23514")
        else if unknown_user t updatedBy then Err (ErrPg "23503")
        else Ok ((row, saved), put_webhook row saved t)
    end).

Definition DeleteWebhookTarget (id : string) : DB ChannelTables Z :=
  statement (fun t => if bool_decide (is_Some (w_webhook (ct_world t) !! id)) then Ok (1, remove_webhook id t) else Ok (0, t)).

(** * Test notifications *)

(** The INSERT of one delivery with the text ['{}'] as its payload. *)
Definition insert_test (channel : string) (targetID : option string) (target template : string) (at_ : Time) (n : NotifyTables)
    : result (string * NotifyTables) :=
  let id := fresh (n_issued n) in
  if negb (not_blank target) then Err (ErrPg "23514")
  else Ok (id, alter_issued (fun issued => {[id]} ∪ issued)
         (alter_delivery <[id := MkNotificationDelivery id None EventTest channel target (Some template) ∅ DeliveryPending 0 at_ None at_ None
            targetID]> n)).

Definition EnqueueTestNotification (target : string) (nextAttemptAt : Time) : DB ChannelTables string :=
  statement (fun t =>
    '(id, n) ← insert_test "SMTP" None target "builtin.smtp.test.v1" (timestamptz nextAttemptAt) (ct_notify t);
    Ok (id, with_notify n t)).

Definition EnqueueTestWebhookNotification (id : string) (nextAttemptAt : Time) : DB ChannelTables string :=
  statement (fun t =>
    match w_webhook (ct_world t) !! id with
    | Some webhook =>
        if wt_Enabled webhook then
          '(delivery, n) ← insert_test "WEBHOOK" (Some id) (wt_Url webhook) "builtin.webhook.test.v1" (timestamptz nextAttemptAt) (ct_notify t);
          Ok (delivery, with_notify n t)
        else Err ErrNoRows
    | None => Err ErrNoRows
    end).

(** * Attempts of an alert *)

(** A delivery with an attempt of it, if there is one ([LEFT JOIN]). *)
Definition ListAlertNotificationAttemptsRow : Type := NotificationDelivery * option NotificationAttempt.

Definition attempts_of (n : NotifyTables) (d : NotificationDelivery) : list NotificationAttempt :=
  filter (fun a => na_NotificationID a = nd_ID d) (n_attempt n).

Definition with_attempts (n : NotifyTables) (d : NotificationDelivery) : list ListAlertNotificationAttemptsRow :=
  match attempts_of n d with [] => [(d, None)] | attempts => (fun a => (d, Some a)) <$> attempts end.

(** [ORDER BY created_at DESC, id, retry_count] *)
Definition attemptLess (a b : ListAlertNotificationAttemptsRow) : bool :=
  if negb (nd_CreatedAt a.1 =? nd_CreatedAt b.1) then nd_CreatedAt b.1 <? nd_CreatedAt a.1
  else if negb (bool_decide (nd_ID a.1 = nd_ID b.1)) then string_ltb (nd_ID a.1) (nd_ID b.1)
  else match a.2, b.2 with Some x, Some y => na_RetryCount x <? na_RetryCount y | _, _ => false end.

Definition ListAlertNotificationAttempts (alertID : string) : DB ChannelTables (list ListAlertNotificationAttemptsRow) :=
  query (fun t =>
    let n := ct_notify t in
    sort_by attemptLess
      (filter (fun d => nd_AlertInstanceID d = Some alertID) ((map_to_list (n_delivery n)).*2) ≫= with_attempts n)).

(** * Failures of channels *)

(** A row of [terminal_failures]. *)
Record TerminalFailure : Type := MkTerminalFailure {
  tf_ID : string;
  tf_Channel : string;
  tf_ChannelTargetID : option string;
  tf_Target : string;
  tf_FailedAt : Time;
  tf_FailureReason : option string;
  tf_RetryCount : Z;
}.

Definition completed_after (a b : NotificationDelivery) : bool :=
  match nd_CompletedAt a, nd_CompletedAt b with Some x, Some y => y <? x | _, _ => false end.

(** A delivery of the same channel and target that arrived after [d] failed. *)
Definition sent_since (n : NotifyTables) (d : NotificationDelivery) : bool :=
  bool_decide (Exists (fun sent => nd_Status sent = DeliverySent /\ nd_Channel sent = nd_Channel d /\
    nd_ChannelTargetID sent = nd_ChannelTargetID d /\ completed_after sent d = true)
    ((map_to_list (n_delivery n)).*2)).

Definition target_there (t : ChannelTables) (d : NotificationDelivery) : bool :=
  negb (bool_decide (nd_Channel d = "WEBHOOK")) ||
  match nd_ChannelTargetID d with Some id => bool_decide (is_Some (w_webhook (ct_world t) !! id)) | None => false end.

Definition failures_of (t : ChannelTables) (d : NotificationDelivery) : list TerminalFailure :=
  match nd_CompletedAt d with
  | Some failedAt =>
      if bool_decide (nd_Status d = DeliveryFailed) && target_there t d && negb (sent_since (ct_notify t) d) then
        (fun a => MkTerminalFailure (nd_ID d) (nd_Channel d) (nd_ChannelTargetID d) (nd_Target d) failedAt (na_FailureReason a) (nd_AttemptCount d - 1)) <$>
          filter (fun a => na_RetryCount a = nd_AttemptCount d - 1) (attempts_of (ct_notify t) d)
      else []
  | None => []
  end.

Definition terminal_failures (t : ChannelTables) : list TerminalFailure :=
  (map_to_list (n_delivery (ct_notify t))).*2 ≫= failures_of t.

Definition failure_key (f : TerminalFailure) : string * option string := (tf_Channel f, tf_ChannelTargetID f).

(** [ORDER BY channel, channel_target_id]: a null comes last. *)
Definition keyLess (a b : string * option string) : bool :=
  string_ltb a.1 b.1 ||
  (bool_decide (a.1 = b.1) &&
   match a.2, b.2 with Some x, Some y => string_ltb x y | Some _, None => true | None, _ => false end).

(** [ORDER BY failed_at DESC, id]; where a statement leaves equal times open, they come
    in the order of the ids. *)
Definition failureLess (a b : TerminalFailure) : bool :=
  if negb (tf_FailedAt a =? tf_FailedAt b) then tf_FailedAt b <? tf_FailedAt a else string_ltb (tf_ID a) (tf_ID b).

(** The failures of one channel, the latest first. *)
Definition failures_at (t : ChannelTables) (key : string * option string) : list TerminalFailure :=
  sort_by failureLess (filter (fun f => failure_key f = key) (terminal_failures t)).

Definition failing_keys (t : ChannelTables) : list (string * option string) :=
  sort_by keyLess (remove_dups (failure_key <$> terminal_failures t)).

Record ListActiveChannelFailureSummariesRow : Type := MkFailureSummaryRow {
  fs_Channel : string;
  fs_ChannelTargetID : option string;
  fs_Target : string;
  fs_RecentFailureCount : Z;
  fs_LastFailureReason : string;
  fs_LastFailedAt : Time;
}.

(** One group of [GROUP BY channel, channel_target_id]; a null reason cannot be scanned. *)
Definition failure_summary (t : ChannelTables) (key : string * option string) : result ListActiveChannelFailureSummariesRow :=
  let failures := failures_at t key in
  match failures with
  | [] => Err (ErrNew "empty group")
  | latest :: _ =>
      match tf_FailureReason latest with
      | Some reason => Ok (MkFailureSummaryRow key.1 key.2 (tf_Target latest) (Z.of_nat (length failures)) reason (tf_FailedAt latest))
      | None => Err (ErrNew "cannot scan NULL into *string")
      end
  end.

Definition ListActiveChannelFailureSummaries : DB ChannelTables (list ListActiveChannelFailureSummariesRow) :=
  statement (fun t => rows ← mapM (failure_summary t) (failing_keys t); Ok (rows, t)).

(** [failure_number <= 20] *)
Definition recent_failures : nat := 20.

Definition ListRecentActiveChannelFailures : DB ChannelTables (list TerminalFailure) :=
  query (fun t => failing_keys t ≫= (fun key => take recent_failures (failures_at t key))).
