(* ===== verification/Channels.v ===== *)
(** Notification channels: their administration ([internal/httpapi/notifications.go]), and
    the channels the server makes of them for the dispatcher and for its own failures
    ([cmd/monitor-server/notifications.go]). *)

From S2P Require Import Prelude Db Text Responses Notify PlatformHealth Credentials ChannelQueries.

(** * API types *)

Record SMTPChannelInput : Type := MkSMTPInput {
  smtp_in_AuthType : string;
  smtp_in_Enabled : bool;
  smtp_in_FromAddress : string;
  smtp_in_Host : string;
  smtp_in_Password : option string;
  smtp_in_Port : Z;
  smtp_in_Recipient : string;
  smtp_in_TlsMode : string;
  smtp_in_Username : option string;
}.

(** What is shown of a channel that is configured; its secrets are not. *)
Record SMTPChannelView : Type := MkSMTPView {
  sv_Enabled : bool;
  sv_Host : string;
  sv_Port : Z;
  sv_FromAddress : string;
  sv_Recipient : string;
  sv_AuthType : string;
  sv_AuthConfigured : bool;
  sv_TlsMode : string;
  sv_UpdatedAt : Time;
  sv_Username : option string;
}.

Record WebhookTargetInput : Type := MkWebhookInput {
  wi_Enabled : bool;
  wi_Name : string;
  wi_SignatureHeader : option string;
  wi_SigningValue : option string;
  wi_Url : string;
}.

(** [api.WebhookTarget] *)
Record WebhookTargetView : Type := MkWebhookView {
  wv_CreatedAt : Time;
  wv_Enabled : bool;
  wv_Id : string;
  wv_Name : string;
  wv_SigningConfigured : bool;
  wv_UpdatedAt : Time;
  wv_Url : string;
}.

(** [api.NotificationAttempt] *)
Record NotificationAttemptView : Type := MkAttemptView {
  nv_AttemptCount : Z;
  nv_AttemptedAt : option Time;
  nv_Channel : string;
  nv_CompletedAt : option Time;
  nv_CreatedAt : Time;
  nv_EventType : EventType;
  nv_FailureReason : option string;
  nv_Id : string;
  nv_Result : option bool;
  nv_RetryCount : option Z;
  nv_Status : DeliveryStatus;
  nv_Target : string;
  nv_TemplateId : option string;
}.

Record ChannelFailureRecord : Type := MkFailureRecord {
  cf_FailedAt : Time;
  cf_Reason : string;
  cf_RetryCount : Z;
  cf_Target : string;
}.

Record ChannelFailureSummary : Type := MkFailureSummary {
  cfs_Channel : string;
  cfs_LastFailedAt : Time;
  cfs_LastFailureReason : string;
  cfs_RecentFailureCount : Z;
  cfs_RecentFailures : list ChannelFailureRecord;
  cfs_Target : string;
  cfs_TargetId : option string;
}.

(** What [url.Parse] says of a text: scheme, host and whether there is a user. *)
Record ParsedURL : Type := MkParsedURL {
  url_Scheme : string;
  url_Host : string;
  url_User : bool;
}.

(** * Answers *)

Definition non_empty (s : string) : bool := negb (bool_decide (s = EmptyString)).

Definition toAPISMTPChannel (row : SmtpChannel) (updatedAt : Time) : SMTPChannelView :=
  MkSMTPView (smtp_Enabled row) (smtp_Host row) (smtp_Port row) (smtp_FromAddress row) (smtp_Recipient row) (smtp_AuthType row)
    (non_empty (default EmptyString (smtp_AuthCiphertext row))) (smtp_TlsMode row) updatedAt (smtp_Username row).

Definition toAPIWebhookTarget (row : WebhookTarget) (saved : Time * Time * option string) : WebhookTargetView :=
  MkWebhookView saved.1.1 (wt_Enabled row) (wt_ID row) (wt_Name row)
    (non_empty (wt_SigningValueCiphertext row) && non_empty (wt_SignatureHeaderCiphertext row)) saved.1.2 (wt_Url row).

Definition toAPINotificationAttempt (row : ListAlertNotificationAttemptsRow) : NotificationAttemptView :=
  let '(d, a) := row in
  MkAttemptView (nd_AttemptCount d) (na_AttemptedAt <$> a) (nd_Channel d) (nd_CompletedAt d) (nd_CreatedAt d) (nd_EventType d)
    (a ≫= na_FailureReason) (nd_ID d) (na_Sent <$> a) (na_RetryCount <$> a) (nd_Status d) (nd_Target d) (nd_TemplateID d).

Definition validation (message : string) : APIError := errorBody "VALIDATION_FAILED" message.

(** [errors.Is(err, notify.ErrLocalLargeWriteRejected)] *)
Fixpoint is_large_write_rejected (e : error) : bool :=
  bool_decide (e = ErrLocalLargeWriteRejected) || match e with Errorf _ inner => is_large_write_rejected inner | _ => false end.

Record webhookTargetValues : Type := MkWebhookValues {
  wvs_name : string;
  wvs_targetURL : string;
  wvs_signingValue : string;
  wvs_signatureHeader : string;
}.

Definition channelFailureKey (channel : string) (targetID : option string) : string :=
  match targetID with Some _ => WebhookChannelKey targetID | None => channel end.

Section Handlers.
Context `{Crypto}.
(** [mail.ParseAddress], as the address it finds, and [url.Parse]. *)
Context (ParseAddress : string -> option string) (ParseURL : string -> option ParsedURL).
(** [handler.keyring]; the store of the snapshot, where there is one, as whether it may
    write now; the clock and the user of the session. *)
Context (keyring : CredentialKeyring) (store : option bool) (now : Time) (actorID : string).

Definition validEmail (value : string) : bool := bool_decide (ParseAddress value = Some value).

Definition refreshNotificationSnapshot : DB ChannelTables unit :=
  match store with
  | None => mret tt
  | Some localWriteAllowed =>
      r ← attempt (in_world (SyncSnapshot localWriteAllowed));
      match r with
      | Ok _ => mret tt
      | Err e => if is_large_write_rejected e then mret tt else fail (Errorf "refresh notification channel snapshot" e)
      end
  end.

(** ** SMTP *)

(** [None] stands for a channel that is not configured. *)
Definition GetSMTPChannel : DB ChannelTables (response (option SMTPChannelView)) :=
  r ← attempt ChannelQueries.GetSMTPChannel;
  match r with
  | Ok (row, saved) => mret (R200 (Some (toAPISMTPChannel row saved.1)))
  | Err e => if is_no_rows e then mret (R200 None) else fail e
  end.

(** The user name, the sealed password and its key, or the answer 400. *)
Definition smtp_auth (input : SMTPChannelInput) : DB ChannelTables ((option string * option string * option Z) + APIError) :=
  if bool_decide (smtp_in_AuthType input = "NONE") then mret (inl (None, None, None))
  else
    let username := TrimSpace (default EmptyString (smtp_in_Username input)) in
    if bool_decide (username = EmptyString) then mret (inr (validation "username is required for SMTP authentication"))
    else if non_empty (default EmptyString (smtp_in_Password input)) then
      '(authCiphertext, version) ← in_world (EncryptSMTPPassword keyring (default EmptyString (smtp_in_Password input)));
      mret (inl (Some username, Some authCiphertext, Some version))
    else
      existing ← attempt ChannelQueries.GetSMTPChannel;
      match existing with
      | Ok (existingChannel, _) =>
          if absent (smtp_AuthKeyVersion existingChannel) || negb (non_empty (default EmptyString (smtp_AuthCiphertext existingChannel)))
          then mret (inr (validation "authentication value is required until it has been configured"))
          else mret (inl (Some username, smtp_AuthCiphertext existingChannel, smtp_AuthKeyVersion existingChannel))
      | Err _ => mret (inr (validation "authentication value is required until it has been configured"))
      end.

Definition UpdateSMTPChannel (input : option SMTPChannelInput) : DB ChannelTables (response SMTPChannelView) :=
  match input with
  | None => mret (R400 (validation "SMTP configuration is required"))
  | Some input =>
      let host := TrimSpace (smtp_in_Host input) in
      if negb (validEmail (smtp_in_FromAddress input)) || negb (validEmail (smtp_in_Recipient input)) || bool_decide (host = EmptyString) ||
         (smtp_in_Port input <? 1) || (65535 <? smtp_in_Port input)
      then mret (R400 (validation "host and valid email addresses are required"))
      else if negb (bool_decide (smtp_in_AuthType input ∈ ["NONE"; "PLAIN"; "LOGIN"]))
      then mret (R400 (validation "unsupported SMTP authentication type"))
      else if negb (bool_decide (smtp_in_TlsMode input ∈ ["STARTTLS"; "IMPLICIT"]))
      then mret (R400 (validation "unsupported SMTP transport security"))
      else
        auth ← smtp_auth input;
        match auth with
        | inr body => mret (R400 body)
        | inl (username, authCiphertext, authKeyVersion) =>
            '(row, saved) ← UpsertSMTPChannel
              (MkSmtpChannel (smtp_in_Enabled input) host (int32 (smtp_in_Port input)) (smtp_in_FromAddress input) (smtp_in_Recipient input)
                 (smtp_in_AuthType input) username authCiphertext authKeyVersion (smtp_in_TlsMode input)) now (Some actorID);
            refreshNotificationSnapshot ;;
            mret (R200 (toAPISMTPChannel row saved.1))
        end
  end.

Definition TestSMTPChannel (target : option string) : DB ChannelTables (response string) :=
  match target with
  | Some target =>
      if negb (validEmail target) then mret (R400 (validation "valid test target is required"))
      else
        channel ← attempt ChannelQueries.GetSMTPChannel;
        match channel with
        | Ok (channel, _) =>
            if smtp_Enabled channel then id ← EnqueueTestNotification target now; mret (R202 id)
            else mret (R400 (validation "SMTP channel is not enabled"))
        | Err _ => mret (R400 (validation "SMTP channel is not enabled"))
        end
  | None => mret (R400 (validation "valid test target is required"))
  end.

Definition ListAlertNotifications (id : string) : DB ChannelTables (response (list NotificationAttemptView)) :=
  rows ← ListAlertNotificationAttempts id; mret (R200 (toAPINotificationAttempt <$> rows)).

(** ** Webhooks *)

(** A text of the request, trimmed; [None] where it is there and empty. *)
Definition signing_text (value : option string) : option string :=
  match value with
  | None => Some EmptyString
  | Some value => let trimmed := TrimSpace value in if bool_decide (trimmed = EmptyString) then None else Some trimmed
  end.

(** [textproto.CanonicalMIMEHeaderKey] is empty for the empty text only. *)
Definition validWebhookInput (input : WebhookTargetInput) : option webhookTargetValues :=
  let name := TrimSpace (wi_Name input) in
  let targetURL := TrimSpace (wi_Url input) in
  parsed ← ParseURL targetURL;
  if negb (bool_decide (url_Scheme parsed ∈ ["http"; "https"])) || bool_decide (url_Host parsed = EmptyString) || url_User parsed ||
     bool_decide (name = EmptyString) then None
  else
    signingValue ← signing_text (wi_SigningValue input);
    signatureHeader ← signing_text (wi_SignatureHeader input);
    Some (MkWebhookValues name targetURL signingValue signatureHeader).

Definition ListWebhookTargets : DB ChannelTables (response (list WebhookTargetView)) :=
  rows ← ChannelQueries.ListWebhookTargets; mret (R200 ((fun row => toAPIWebhookTarget row.1 row.2) <$> rows)).

(** [id] is [uuid.New()]. *)
Definition CreateWebhookTarget (id : string) (input : option WebhookTargetInput) : DB ChannelTables (response WebhookTargetView) :=
  match input with
  | Some input =>
      if absent (wi_SigningValue input) || absent (wi_SignatureHeader input)
      then mret (R400 (validation "Webhook target and signing configuration are required"))
      else
        match validWebhookInput input with
        | None => mret (R400 (validation "valid name, HTTP(S) URL, and signing configuration are required"))
        | Some values =>
            '(signingValueCiphertext, signingKeyVersion) ← in_world (EncryptWebhookSigningValue keyring id (wvs_signingValue values));
            '(signatureHeaderCiphertext, _) ← in_world (EncryptWebhookSignatureHeader keyring id (wvs_signatureHeader values));
            '(row, saved) ← ChannelQueries.CreateWebhookTarget
              (MkWebhookTarget id (wvs_name values) (wi_Enabled input) (wvs_targetURL values) signingValueCiphertext signatureHeaderCiphertext
                 signingKeyVersion) now (Some actorID);
            refreshNotificationSnapshot ;;
            mret (R201 (toAPIWebhookTarget row saved))
        end
  | None => mret (R400 (validation "Webhook target and signing configuration are required"))
  end.

(** The envelopes to store and their key: those there are where the request names
    neither part, and otherwise both sealed anew. *)
Definition webhook_signing (id : string) (existing : WebhookTarget) (input : WebhookTargetInput) (values : webhookTargetValues)
    : DB ChannelTables (string * string * Z) :=
  if absent (wi_SigningValue input) && absent (wi_SignatureHeader input)
  then mret (wt_SigningValueCiphertext existing, wt_SignatureHeaderCiphertext existing, wt_SigningKeyVersion existing)
  else
    signingValue ← (if absent (wi_SigningValue input)
      then in_world (DecryptWebhookSigningValue keyring id (wt_SigningValueCiphertext existing) (wt_SigningKeyVersion existing))
      else mret (wvs_signingValue values));
    signatureHeader ← (if absent (wi_SignatureHeader input)
      then in_world (DecryptWebhookSignatureHeader keyring id (wt_SignatureHeaderCiphertext existing) (wt_SigningKeyVersion existing))
      else mret (wvs_signatureHeader values));
    '(signingValueCiphertext, signingKeyVersion) ← in_world (EncryptWebhookSigningValue keyring id signingValue);
    '(signatureHeaderCiphertext, _) ← in_world (EncryptWebhookSignatureHeader keyring id signatureHeader);
    mret (signingValueCiphertext, signatureHeaderCiphertext, signingKeyVersion).

Definition UpdateWebhookTarget (id : string) (input : option WebhookTargetInput) : DB ChannelTables (response WebhookTargetView) :=
  match input with
  | None => mret (R400 (validation "Webhook target is required"))
  | Some input =>
      match validWebhookInput input with
      | None => mret (R400 (validation "valid name, HTTP(S) URL, and signing configuration are required"))
      | Some values =>
          or_404 "Webhook target not found" (GetWebhookTarget id) (fun '(existing, _) =>
            '(signingValueCiphertext, signatureHeaderCiphertext, signingKeyVersion) ← webhook_signing id existing input values;
            '(row, saved) ← ChannelQueries.UpdateWebhookTarget
              (MkWebhookTarget (wt_ID existing) (wvs_name values) (wi_Enabled input) (wvs_targetURL values) signingValueCiphertext
                 signatureHeaderCiphertext signingKeyVersion) now (Some actorID);
            refreshNotificationSnapshot ;;
            mret (R200 (toAPIWebhookTarget row saved)))
      end
  end.

Definition DeleteWebhookTarget (id : string) : DB ChannelTables (response unit) :=
  deleted ← ChannelQueries.DeleteWebhookTarget id;
  if deleted =? 0 then mret (R404 (errorBody "NOT_FOUND" "Webhook target not found"))
  else refreshNotificationSnapshot ;; mret R204.

Definition TestWebhookTarget (id : string) : DB ChannelTables (response string) :=
  or_404 "Webhook target not found" (GetWebhookTarget id) (fun '(target, _) =>
    if wt_Enabled target then id ← EnqueueTestWebhookNotification id now; mret (R202 id)
    else mret (R400 (validation "Webhook target is not enabled"))).

(** ** Failures *)

Definition failure_record (row : TerminalFailure) : ChannelFailureRecord :=
  MkFailureRecord (tf_FailedAt row) (default EmptyString (tf_FailureReason row)) (tf_RetryCount row) (tf_Target row).

(** [byTarget[key]] of the map the loop builds. *)
Definition byTarget (records : list TerminalFailure) (key : string) : list ChannelFailureRecord :=
  failure_record <$> filter (fun row => channelFailureKey (tf_Channel row) (tf_ChannelTargetID row) = key) records.

Definition channel_failures (summaries : list ListActiveChannelFailureSummariesRow) (records : list TerminalFailure)
    : list ChannelFailureSummary :=
  (fun row =>
     MkFailureSummary (fs_Channel row) (fs_LastFailedAt row) (fs_LastFailureReason row) (fs_RecentFailureCount row)
       (byTarget records (channelFailureKey (fs_Channel row) (fs_ChannelTargetID row))) (fs_Target row) (fs_ChannelTargetID row)) <$> summaries.

(** The answer is whether there are failures, and the failing channels. *)
Definition GetChannelFailures : DB ChannelTables (response (bool * list ChannelFailureSummary)) :=
  summaries ← ListActiveChannelFailureSummaries;
  records ← ListRecentActiveChannelFailures;
  let channels := channel_failures summaries records in
  mret (R200 (negb (bool_decide (channels = [])), channels)).
End Handlers.

(** * The channels the server makes *)

Record SMTPConfig : Type := MkSMTPConfig {
  sc_Host : string;
  sc_Port : Z;
  sc_From : string;
  sc_Username : string;
  sc_Password : string;
  sc_TLSMode : string;
  sc_AuthType : string;
}.

Record WebhookConfig : Type := MkWebhookConfig {
  wc_URL : string;
  wc_SigningValue : string;
  wc_SignatureHeader : string;
}.

Inductive ChannelConfig : Type :=
  | ConfigSMTP (config : SMTPConfig)
  | ConfigWebhook (config : WebhookConfig).

Section Process.
Context `{Crypto}.
Context (keyring : CredentialKeyring).
(** [notify.NewSMTPChannel(config).Send] and [notify.NewWebhookChannel(config).Send]. *)
Context (Send : ChannelConfig -> Channel).

(** The SMTP channel of [drainNotifications], where its password can be read. *)
Definition smtp_config (row : SmtpChannel) : DB World (option SMTPConfig) :=
  let config username password :=
    MkSMTPConfig (smtp_Host row) (smtp_Port row) (smtp_FromAddress row) username password (smtp_TlsMode row) (smtp_AuthType row) in
  match smtp_AuthCiphertext row with
  | None => mret (Some (config EmptyString EmptyString))
  | Some ciphertext =>
      r ← attempt (DecryptSMTPPassword keyring ciphertext (default 0 (smtp_AuthKeyVersion row)));
      match r with
      | Ok password => mret (Some (config (default EmptyString (smtp_Username row)) password))
      | Err _ => mret None
      end
  end.

Definition webhook_config (target : WebhookTarget) : DB World (option WebhookConfig) :=
  signingValue ← attempt (DecryptWebhookSigningValue keyring (wt_ID target) (wt_SigningValueCiphertext target) (wt_SigningKeyVersion target));
  signatureHeader ← attempt (DecryptWebhookSignatureHeader keyring (wt_ID target) (wt_SignatureHeaderCiphertext target)
    (wt_SigningKeyVersion target));
  match signingValue, signatureHeader with
  | Ok signingValue, Ok signatureHeader => mret (Some (MkWebhookConfig (wt_Url target) signingValue signatureHeader))
  | _, _ => mret None
  end.

Fixpoint add_webhooks (targets : list WebhookTarget) (channels : gmap string ChannelConfig) : DB World (gmap string ChannelConfig) :=
  match targets with
  | [] => mret channels
  | target :: rest =>
      config ← webhook_config target;
      add_webhooks rest
        (match config with
         | Some config => <[WebhookChannelKey (Some (wt_ID target)) := ConfigWebhook config]> channels
         | None => channels
         end)
  end.

(** The channels of one run of [drainNotifications]; an error ends the run. *)
Definition notification_channels : DB World (gmap string ChannelConfig) :=
  r ← attempt Credentials.GetSMTPChannel;
  channels ← (match r with
    | Ok row =>
        if smtp_Enabled row then
          config ← smtp_config row;
          mret (match config with Some config => {[SMTPChannelKey := ConfigSMTP config]} | None => ∅ end)
        else mret ∅
    | Err e => if is_no_rows e then mret ∅ else fail e
    end);
  targets ← Credentials.ListWebhookTargets;
  add_webhooks targets channels.

(** The loop of [drainNotifications]: [later] are the readings of the clock after each
    delivery, and the loop is followed as far as they go. *)
Fixpoint dispatch_all (retryBackoffCap : Duration) (channels : gmap string Channel) (now : Time) (later : list Time) : DB NotifyTables unit :=
  processed ← attempt (DispatchOne retryBackoffCap now channels);
  match processed, later with
  | Ok true, now :: later => dispatch_all retryBackoffCap channels now later
  | _, _ => mret tt
  end.

(** An error is logged and ends the run. *)
Definition drainNotifications (float8_text : float64 -> string) (retryBackoffCap : Duration) (now : Time) (later : list Time)
    : DB ChannelTables unit :=
  configs ← attempt (in_world notification_channels);
  match configs with
  | Ok configs =>
      scheduled ← attempt (in_notify (EnqueueDueRepeats float8_text now));
      match scheduled with
      | Ok _ => in_notify (dispatch_all retryBackoffCap (Send <$> configs) now later)
      | Err _ => mret tt
      end
  | Err _ => mret tt
  end.

(** ** Failures of the platform *)

(** The world, and what has been handed to channels. *)
Record Outgoing : Type := MkOutgoing {
  out_world : World;
  out_sent : list (ChannelConfig * Message);
}.

Definition on_world {A} (m : DB World A) : DB Outgoing A := focus out_world (fun w o => MkOutgoing w (out_sent o)) m.

Definition hand_over (message : string) (config : ChannelConfig) (m : Message) : DB Outgoing unit := fun fs o =>
  (match Send config m with Some reason => Err (Errorf message (ErrNew reason)) | None => Ok tt end,
   MkOutgoing (out_world o) (out_sent o ++ [(config, m)]), fs).

Definition sendPlatformUnavailableSMTP (channel : SnapshotSMTPChannel) (message : Message) : DB Outgoing unit :=
  let username := default EmptyString (ss_Username channel) in
  password ← (if non_empty (default EmptyString (ss_AuthCiphertext channel)) then
      match ss_AuthKeyVersion channel with
      | None => fail (ErrNew "SMTP snapshot authentication key version is missing")
      | Some version =>
          wrap "decrypt SMTP snapshot authentication value"
            (on_world (DecryptSMTPPassword keyring (default EmptyString (ss_AuthCiphertext channel)) version))
      end
    else mret EmptyString);
  hand_over "send platform failure through SMTP"
    (ConfigSMTP (MkSMTPConfig (ss_Host channel) (ss_Port channel) (ss_From channel) username password (ss_TLSMode channel) (ss_AuthType channel)))
    (MkMessage (msg_EventType message) (ss_Recipient channel) (msg_Subject message) (msg_Body message)).

(** An id is stored as a text of a uuid, so that it can be parsed. *)
Definition sendPlatformUnavailableWebhook (target : SnapshotWebhookTarget) (message : Message) : DB Outgoing unit :=
  signingValue ← attempt (on_world (DecryptWebhookSigningValue keyring (sw_ID target) (sw_SigningValueCiphertext target) (sw_SigningKeyVersion target)));
  signatureHeader ← attempt (on_world (DecryptWebhookSignatureHeader keyring (sw_ID target) (sw_SignatureHeaderCiphertext target)
    (sw_SigningKeyVersion target)));
  match signingValue, signatureHeader with
  | Ok signingValue, Ok signatureHeader =>
      hand_over "send platform failure through Webhook" (ConfigWebhook (MkWebhookConfig (sw_URL target) signingValue signatureHeader)) message
  | _, _ => fail (ErrNew "decrypt Webhook snapshot signing configuration")
  end.

(** [errors.Join] of the errors of the channels, in order. *)
Definition try_send (m : DB Outgoing unit) : DB Outgoing (list error) :=
  r ← attempt m; mret (match r with Ok _ => [] | Err e => [e] end).

Fixpoint send_webhooks (targets : list SnapshotWebhookTarget) (message : Message) : DB Outgoing (list error) :=
  match targets with
  | [] => mret []
  | target :: rest =>
      first ← (if sw_Enabled target then try_send (sendPlatformUnavailableWebhook target message) else mret []);
      errs ← send_webhooks rest message;
      mret (first ++ errs)
  end.

(** [message] is the text about the failure. *)
Definition sendPlatformUnavailableNotification (message : Message) : DB Outgoing (list error) :=
  snapshot ← on_world LoadSnapshot;
  smtp ← (match cs_SMTP snapshot with
    | Some channel => if ss_Enabled channel then try_send (sendPlatformUnavailableSMTP channel message) else mret []
    | None => mret []
    end);
  webhooks ← send_webhooks (cs_Webhooks snapshot) message;
  mret (smtp ++ webhooks).
End Process.
