(* ===== verification/ChannelsInv.v ===== *)
(** What the administration of notification channels promises: what was saved is what
    the dispatcher and the notices of the platform's own failures use, and the view of
    failing channels is exact. *)

From S2P Require Import Prelude Db Text Responses Notify PlatformHealth Credentials CredentialsInv ChannelQueries Channels.

Section Configs.
Context `{Crypto}.

(** * Reading secrets on a server without faults *)

Lemma readCredentialKey_of w version code key :
  key_of w version = Some key -> readCredentialKey version code [] w = (Ok key, w, []).
Proof.
  unfold readCredentialKey, readCredentialFile, key_of, fault_on, Lstat, ReadFile, Geteuid. run_plain.
  destruct (version <=? 0); [done|]. destruct (disk_Files (w_disk w) !! _) as [f|] eqn:Ef; [|done]. simpl.
  destruct (file_Regular f); simpl; [|done]. case_bool_decide as Hp; [|done]. simpl.
  rewrite (bool_decide_false (file_Perm f <> 384)) by auto. simpl.
  destruct (credentialOwnerIsValid _ _); simpl; [|done]. rewrite Ef. simpl.
  destruct (parseCredentialLine _) as [line|]; simpl; [|done].
  destruct (b64_decode line) as [k|]; simpl; [|done]. case_bool_decide as Hl; [|done].
  intros [= ->]. by rewrite bool_decide_false by auto.
Qed.

Lemma key_of_length w version key : key_of w version = Some key -> String.length key = credentialKeySize.
Proof.
  unfold key_of. destruct (version <=? 0); [done|]. destruct (disk_Files (w_disk w) !! _) as [f|]; [|done]. simpl.
  destruct (_ && _); [|done]. destruct (parseCredentialLine _) as [line|]; [|done]. simpl. destruct (b64_decode line) as [k|]; [|done]. simpl.
  case_bool_decide; [|done]. by intros [= ->].
Qed.

(** The key ring is open, and every secret of a channel can be read with the keys on disk. *)
Record readable (keyring : CredentialKeyring) (w : World) : Prop := MkReadable {
  readable_open : keyring_fault keyring = None;
  readable_ring : ring_ok keyring w;
  readable_keyed : keyed w;
  readable_secret : forall s, (forall id, s <> SlotInstance id) -> is_Some (stored w s) -> is_Some (plaintext w s);
}.

Lemma decrypt_plain keyring w s envelope version p :
  keyring_fault keyring = None -> ring_ok keyring w -> stored w s = Some (envelope, version) -> plaintext w s = Some p ->
  decrypt keyring envelope version (aad_of s) [] w = (Ok p, w, []).
Proof.
  intros Hf Hr Hs Hp. unfold plaintext in Hp. rewrite Hs in Hp. simpl in Hp. destruct (key_of w version) as [key|] eqn:Hk; [|done]. simpl in Hp.
  pose proof (key_of_length w version key Hk) as Hl. unfold decrypt. rewrite Hf. unfold mbind at 1, DB_bind at 1.
  assert ((if bool_decide (version <> currentVersion keyring) then readCredentialKey version CredentialFaultUnknownKeyVersion
           else mret (currentKey keyring)) [] w = (Ok key, w, [])) as ->.
  { case_bool_decide as Hv; [by apply readCredentialKey_of|]. destruct (decide (version = currentVersion keyring)) as [->|]; [|done].
    unfold ring_ok in Hr. assert (key = currentKey keyring) as -> by congruence. done. }
  unfold mbind, DB_bind, credentialGCM. rewrite bool_decide_true by (unfold credentialKeySize in Hl; lia). simpl. by rewrite Hp.
Qed.

(** * The channels in use *)

Definition secret (w : World) (s : slot) : string := default EmptyString (plaintext w s).

Definition smtp_of (w : World) (row : SmtpChannel) : SMTPConfig :=
  MkSMTPConfig (smtp_Host row) (smtp_Port row) (smtp_FromAddress row)
    (match smtp_AuthCiphertext row with Some _ => default EmptyString (smtp_Username row) | None => EmptyString end)
    (secret w SlotSMTP) (smtp_TlsMode row) (smtp_AuthType row).

Definition webhook_of (w : World) (target : WebhookTarget) : WebhookConfig :=
  MkWebhookConfig (wt_Url target) (secret w (SlotSigningValue (wt_ID target))) (secret w (SlotSignatureHeader (wt_ID target))).

(** Ciphertext and version of the key come together ([smtp_checked]). *)
Definition auth_paired (w : World) : Prop :=
  forall row, w_smtp w = Some row -> absent (smtp_AuthCiphertext row) = absent (smtp_AuthKeyVersion row) /\
    (smtp_AuthCiphertext row = None -> smtp_Username row = None).

Lemma smtp_config_plain keyring w row :
  readable keyring w -> auth_paired w -> w_smtp w = Some row ->
  smtp_config keyring row [] w = (Ok (Some (smtp_of w row)), w, []).
Proof.
  intros [Hf Hr _ Hs] Hp Hrow. unfold smtp_config, smtp_of, secret. destruct (Hp row Hrow) as [Hpair _].
  destruct (smtp_AuthCiphertext row) as [c|] eqn:Hc; [|].
  - destruct (smtp_AuthKeyVersion row) as [v|] eqn:Hv; [|done].
    assert (stored w SlotSMTP = Some (c, v)) as Hst by (simpl; rewrite Hrow; simpl; rewrite Hv; simpl; by rewrite Hc).
    destruct (Hs SlotSMTP) as [p Hpt]; [done|by rewrite Hst|]. unfold mbind, DB_bind, attempt, DecryptSMTPPassword. simpl default.
    change smtpCredentialAAD with (aad_of SlotSMTP). rewrite (decrypt_plain keyring w SlotSMTP c v p) by done. by rewrite Hpt.
  - destruct (smtp_AuthKeyVersion row) as [v|] eqn:Hv; [done|]. unfold plaintext. simpl. rewrite Hrow. simpl. by rewrite Hv.
Qed.

Lemma webhook_config_plain keyring w id target :
  readable keyring w -> w_webhook w !! id = Some target ->
  webhook_config keyring target [] w = (Ok (Some (webhook_of w target)), w, []).
Proof.
  intros [Hf Hr Hk Hs] Ht. pose proof (Hk id target Ht) as Hid. unfold webhook_config, webhook_of, secret. rewrite Hid.
  destruct (Hs (SlotSigningValue id)) as [p Hp]; [done|by simpl; rewrite Ht|].
  destruct (Hs (SlotSignatureHeader id)) as [q Hq]; [done|by simpl; rewrite Ht|].
  unfold mbind, DB_bind, attempt, DecryptWebhookSigningValue, DecryptWebhookSignatureHeader.
  change (webhookCredentialAAD id webhookSigningValuePurpose) with (aad_of (SlotSigningValue id)).
  change (webhookCredentialAAD id webhookSignatureHeaderPurpose) with (aad_of (SlotSignatureHeader id)).
  rewrite (decrypt_plain keyring w (SlotSigningValue id) _ _ p) by (done || by simpl; rewrite Ht).
  rewrite (decrypt_plain keyring w (SlotSignatureHeader id) _ _ q) by (done || by simpl; rewrite Ht). by rewrite Hp, Hq.
Qed.

Definition sorted_webhooks (w : World) : list WebhookTarget :=
  sort_by (fun a b => string_ltb (wt_Name a) (wt_Name b) || (bool_decide (wt_Name a = wt_Name b) && string_ltb (wt_ID a) (wt_ID b)))
    ((map_to_list (w_webhook w)).*2).

Lemma elem_of_sorted_webhooks w target : keyed w -> target ∈ sorted_webhooks w <-> w_webhook w !! wt_ID target = Some target.
Proof.
  intros Hk. unfold sorted_webhooks. rewrite elem_of_sort_by, list_elem_of_fmap. split.
  - intros ([id t] & -> & Hin). apply elem_of_map_to_list in Hin. simpl. by rewrite (Hk id t Hin).
  - intros Ht. exists (wt_ID target, target). split; [done|]. by apply elem_of_map_to_list.
Qed.

(** The ids are uuids in their standard text: without its dashes it is still the id's own. *)
Definition uuids (w : World) : Prop :=
  forall i j, is_Some (w_webhook w !! i) -> is_Some (w_webhook w !! j) -> without_dashes i = without_dashes j -> i = j.

Definition webhook_channels (w : World) (targets : list WebhookTarget) (channels : gmap string ChannelConfig) : gmap string ChannelConfig :=
  foldl (fun m target => <[WebhookChannelKey (Some (wt_ID target)) := ConfigWebhook (webhook_of w target)]> m) channels targets.

Lemma add_webhooks_plain keyring w targets channels :
  readable keyring w -> (forall target, target ∈ targets -> w_webhook w !! wt_ID target = Some target) ->
  add_webhooks keyring targets channels [] w = (Ok (webhook_channels w targets channels), w, []).
Proof.
  intros Hr. revert channels. induction targets as [|target targets IH]; intros channels Hin; [done|]. simpl. unfold mbind, DB_bind.
  rewrite (webhook_config_plain keyring w (wt_ID target)) by (auto; apply Hin; by left). apply IH. intros t Ht. apply Hin. by right.
Qed.

Definition smtp_channels (w : World) : gmap string ChannelConfig :=
  match w_smtp w with
  | Some row => if smtp_Enabled row then {[SMTPChannelKey := ConfigSMTP (smtp_of w row)]} else ∅
  | None => ∅
  end.

Lemma notification_channels_plain keyring w :
  readable keyring w -> auth_paired w ->
  notification_channels keyring [] w = (Ok (webhook_channels w (sorted_webhooks w) (smtp_channels w)), w, []).
Proof.
  intros Hr Hp. unfold notification_channels. unfold mbind at 1, DB_bind at 1, attempt, Credentials.GetSMTPChannel, statement. simpl.
  unfold smtp_channels. destruct (w_smtp w) as [row|] eqn:Hrow.
  - unfold mbind at 1, DB_bind at 1. destruct (smtp_Enabled row).
    + unfold mbind at 1, DB_bind at 1. rewrite (smtp_config_plain keyring w row) by done. simpl.
      unfold mbind, DB_bind. simpl. apply add_webhooks_plain; [done|]. intros t Ht. by apply elem_of_sorted_webhooks; [apply Hr|].
    + simpl. unfold mbind, DB_bind. simpl. apply add_webhooks_plain; [done|]. intros t Ht. by apply elem_of_sorted_webhooks; [apply Hr|].
  - simpl. unfold mbind, DB_bind. simpl. apply add_webhooks_plain; [done|]. intros t Ht. by apply elem_of_sorted_webhooks; [apply Hr|].
Qed.

Lemma webhook_key_smtp id : WebhookChannelKey id <> SMTPChannelKey.
Proof. by destruct id. Qed.

Lemma webhook_key_inj i j : WebhookChannelKey (Some i) = WebhookChannelKey (Some j) -> without_dashes i = without_dashes j.
Proof. unfold WebhookChannelKey. by intros [= E]. Qed.

Lemma webhook_channels_cons w target targets channels :
  webhook_channels w (target :: targets) channels =
  webhook_channels w targets (<[WebhookChannelKey (Some (wt_ID target)) := ConfigWebhook (webhook_of w target)]> channels).
Proof. done. Qed.

Lemma webhook_channels_smtp w targets channels : webhook_channels w targets channels !! SMTPChannelKey = channels !! SMTPChannelKey.
Proof.
  revert channels. induction targets as [|target targets IH]; intros channels; [done|]. rewrite webhook_channels_cons, IH.
  by apply lookup_insert_ne, webhook_key_smtp.
Qed.

Lemma webhook_channels_other w targets channels id :
  (forall target, target ∈ targets -> without_dashes (wt_ID target) <> without_dashes id) ->
  webhook_channels w targets channels !! WebhookChannelKey (Some id) = channels !! WebhookChannelKey (Some id).
Proof.
  revert channels. induction targets as [|target targets IH]; intros channels Hne; [done|].
  rewrite webhook_channels_cons, IH by (intros t Ht; apply Hne; by right). apply lookup_insert_ne. intros E%webhook_key_inj. by apply (Hne target); [left|].
Qed.

Lemma webhook_channels_lookup w id :
  keyed w -> uuids w -> is_Some (w_webhook w !! id) ->
  webhook_channels w (sorted_webhooks w) (smtp_channels w) !! WebhookChannelKey (Some id) =
  (fun target => ConfigWebhook (webhook_of w target)) <$> w_webhook w !! id.
Proof.
  intros Hk Hu [target Ht]. rewrite Ht. simpl. pose proof (Hk id target Ht) as Hid.
  assert (target ∈ sorted_webhooks w) as Hin by (apply elem_of_sorted_webhooks; [done|congruence]).
  assert (forall t, t ∈ sorted_webhooks w -> without_dashes (wt_ID t) = without_dashes id -> t = target) as Huniq.
  { intros t Hin' E. apply elem_of_sorted_webhooks in Hin'; [|done]. assert (wt_ID t = id) as E' by (apply Hu; eauto). congruence. }
  generalize (smtp_channels w). revert Hin Huniq. generalize (sorted_webhooks w). intros targets. induction targets as [|t targets IH]; intros Hin Huniq channels;
    [by apply elem_of_nil in Hin|]. rewrite webhook_channels_cons.
  destruct (decide (Exists (fun t => without_dashes (wt_ID t) = without_dashes id) targets)) as [Hrest|Hrest]; rewrite Exists_exists in Hrest.
  - destruct Hrest as (t' & Hin' & E). apply IH; [|intros t'' Ht''; apply Huniq; by right]. by rewrite <-(Huniq t') by (done || by right).
  - apply elem_of_cons in Hin as [<-|Hin]; [|destruct Hrest; exists target; by rewrite Hid].
    rewrite webhook_channels_other; [by rewrite Hid, lookup_insert_eq|]. intros t' Hin' E. apply Hrest. eauto.
Qed.

(** * Notices of the platform's own failures *)

(** The snapshot of the channels as the tables have them. *)
Definition snapshot_of (w : World) : ChannelSnapshot :=
  MkChannelSnapshot ChannelSnapshotFormatVersion (snapshot_smtp <$> w_smtp w) (snapshot_webhook <$> sorted_webhooks w).

Section Notices.
Context (keyring : CredentialKeyring) (Send : ChannelConfig -> Channel).

Definition smtp_text : string := "send platform failure through SMTP".
Definition webhook_text : string := "send platform failure through Webhook".

(** The errors of some messages handed over, in order. *)
Definition send_errors (text : string) (sends : list (ChannelConfig * Message)) : list error :=
  omap (fun '(config, m) => (fun reason => Errorf text (ErrNew reason)) <$> Send config m) sends.

Lemma hand_over_plain text config m w sent :
  try_send (hand_over Send text config m) [] (MkOutgoing w sent) = (Ok (send_errors text [(config, m)]), MkOutgoing w (sent ++ [(config, m)]), []).
Proof. unfold try_send, mbind, DB_bind, attempt, hand_over, send_errors. simpl. by destruct (Send config m). Qed.

Definition smtp_notice (w : World) (m : Message) : list (ChannelConfig * Message) :=
  match w_smtp w with
  | Some row =>
      if smtp_Enabled row
      then [(ConfigSMTP (smtp_of w row), MkMessage (msg_EventType m) (smtp_Recipient row) (msg_Subject m) (msg_Body m))] else []
  | None => []
  end.

Definition webhook_notices (w : World) (m : Message) (targets : list WebhookTarget) : list (ChannelConfig * Message) :=
  (fun target => (ConfigWebhook (webhook_of w target), m)) <$> filter (fun target => wt_Enabled target = true) targets.

Lemma on_world_plain {A} (m : DB World A) w sent a :
  m [] w = (Ok a, w, []) -> on_world m [] (MkOutgoing w sent) = (Ok a, MkOutgoing w sent, []).
Proof. unfold on_world, focus. simpl. by intros ->. Qed.

Lemma smtp_notice_plain w row m sent :
  readable keyring w -> auth_paired w -> w_smtp w = Some row ->
  try_send (sendPlatformUnavailableSMTP keyring Send (snapshot_smtp row) m) [] (MkOutgoing w sent) =
  try_send (hand_over Send smtp_text (ConfigSMTP (smtp_of w row))
    (MkMessage (msg_EventType m) (smtp_Recipient row) (msg_Subject m) (msg_Body m))) [] (MkOutgoing w sent).
Proof.
  intros [Hf Hr _ Hs] Hp Hrow. unfold sendPlatformUnavailableSMTP, smtp_of, secret. destruct (Hp row Hrow) as [Hpair Hnone]. simpl.
  destruct (smtp_AuthCiphertext row) as [c|] eqn:Hc; simpl.
  - destruct (smtp_AuthKeyVersion row) as [v|] eqn:Hv; [|done].
    assert (stored w SlotSMTP = Some (c, v)) as Hst by (simpl; rewrite Hrow; simpl; rewrite Hv; simpl; by rewrite Hc).
    destruct (Hs SlotSMTP) as [p Hpt]; [done|by rewrite Hst|].
    assert (non_empty c = true) as ->.
    { unfold plaintext in Hpt. rewrite Hst in Hpt. simpl in Hpt. destruct (key_of w v); [|done]. by destruct c. }
    unfold try_send, mbind, DB_bind, attempt, wrap, DecryptSMTPPassword. change smtpCredentialAAD with (aad_of SlotSMTP).
    rewrite (on_world_plain _ w sent p) by (by apply decrypt_plain). by rewrite Hpt.
  - destruct (smtp_AuthKeyVersion row) as [v|] eqn:Hv; [done|]. rewrite (Hnone eq_refl). unfold plaintext. simpl. rewrite Hrow. simpl. by rewrite Hv.
Qed.

Lemma smtp_part w m :
  readable keyring w -> auth_paired w ->
  match cs_SMTP (snapshot_of w) with
  | Some channel => if ss_Enabled channel then try_send (sendPlatformUnavailableSMTP keyring Send channel m) else mret []
  | None => mret []
  end [] (MkOutgoing w []) = (Ok (send_errors smtp_text (smtp_notice w m)), MkOutgoing w (smtp_notice w m), []).
Proof.
  intros Hr Hp. unfold smtp_notice, snapshot_of. cbn [cs_SMTP]. destruct (w_smtp w) as [row|] eqn:Hrow; [|done].
  change (snapshot_smtp <$> Some row) with (Some (snapshot_smtp row)). cbv iota. change (ss_Enabled (snapshot_smtp row)) with (smtp_Enabled row).
  destruct (smtp_Enabled row); [|done]. by rewrite smtp_notice_plain, hand_over_plain.
Qed.

Lemma webhook_notice_plain w target m sent :
  readable keyring w -> w_webhook w !! wt_ID target = Some target ->
  try_send (sendPlatformUnavailableWebhook keyring Send (snapshot_webhook target) m) [] (MkOutgoing w sent) =
  try_send (hand_over Send webhook_text (ConfigWebhook (webhook_of w target)) m) [] (MkOutgoing w sent).
Proof.
  intros [Hf Hr Hk Hs] Ht. unfold sendPlatformUnavailableWebhook, webhook_of, secret. simpl. set (id := wt_ID target) in *.
  destruct (Hs (SlotSigningValue id)) as [p Hp]; [done|by simpl; rewrite Ht|].
  destruct (Hs (SlotSignatureHeader id)) as [q Hq]; [done|by simpl; rewrite Ht|].
  unfold try_send, mbind, DB_bind, attempt, DecryptWebhookSigningValue, DecryptWebhookSignatureHeader.
  change (webhookCredentialAAD id webhookSigningValuePurpose) with (aad_of (SlotSigningValue id)).
  change (webhookCredentialAAD id webhookSignatureHeaderPurpose) with (aad_of (SlotSignatureHeader id)).
  rewrite (on_world_plain _ w sent p) by (apply decrypt_plain; (done || by simpl; rewrite Ht)).
  rewrite (on_world_plain _ w sent q) by (apply decrypt_plain; (done || by simpl; rewrite Ht)). by rewrite Hp, Hq.
Qed.

Lemma send_webhooks_plain w targets m sent :
  readable keyring w -> (forall target, target ∈ targets -> w_webhook w !! wt_ID target = Some target) ->
  send_webhooks keyring Send (snapshot_webhook <$> targets) m [] (MkOutgoing w sent) =
  (Ok (send_errors webhook_text (webhook_notices w m targets)), MkOutgoing w (sent ++ webhook_notices w m targets), []).
Proof.
  intros Hr. revert sent. induction targets as [|target targets IH]; intros sent Hin; [by rewrite app_nil_r|].
  assert (forall sent, send_webhooks keyring Send (snapshot_webhook <$> targets) m [] (MkOutgoing w sent) =
    (Ok (send_errors webhook_text (webhook_notices w m targets)), MkOutgoing w (sent ++ webhook_notices w m targets), [])) as IH'.
  { intros sent'. apply IH. intros t Ht. apply Hin. by right. }
  simpl. unfold mbind at 1, DB_bind at 1. unfold webhook_notices. rewrite filter_cons. fold (webhook_notices w m targets).
  destruct (wt_Enabled target) eqn:He; simpl.
  - rewrite webhook_notice_plain by (done || by apply Hin; left). rewrite hand_over_plain. unfold mbind, DB_bind. rewrite IH'. simpl.
    rewrite <-app_assoc. unfold send_errors. simpl. by destruct (Send _ _).
  - unfold mbind, DB_bind. by rewrite IH'.
Qed.

(** C18. On a server without faults a notice of the platform's own failure, made from an up-to-date
    snapshot alone, goes to exactly the enabled channels: to the recipient of the SMTP channel first and then to the
    webhooks by name; each of them is configured as the dispatcher would configure it from the database,
    with every secret decrypted; a channel that fails does not keep the others from being tried, and exactly its errors are reported. *)
Theorem failure_notices_use_the_saved_channels (w : World) (m : Message) :
  readable keyring w -> auth_paired w -> uuids w -> w_snapshot w = Some (snapshot_of w) ->
  let webhooks := webhook_notices w m (sorted_webhooks w) in
  sendPlatformUnavailableNotification keyring Send m [] (MkOutgoing w []) =
    (Ok (send_errors smtp_text (smtp_notice w m) ++ send_errors webhook_text webhooks), MkOutgoing w (smtp_notice w m ++ webhooks), []) /\
  exists channels, notification_channels keyring [] w = (Ok channels, w, []) /\
    (forall row, w_smtp w = Some row ->
       channels !! SMTPChannelKey = if smtp_Enabled row then Some (ConfigSMTP (smtp_of w row)) else None) /\
    (forall id target, w_webhook w !! id = Some target -> channels !! WebhookChannelKey (Some id) = Some (ConfigWebhook (webhook_of w target))).
Proof.
  intros Hr Hp Hu Hsnap webhooks. split.
  - assert (forall sent, send_webhooks keyring Send (snapshot_webhook <$> sorted_webhooks w) m [] (MkOutgoing w sent) =
      (Ok (send_errors webhook_text webhooks), MkOutgoing w (sent ++ webhooks), [])) as Hwh.
    { intros sent. apply send_webhooks_plain; [done|]. intros t Ht. by apply elem_of_sorted_webhooks; [apply Hr|]. }
    unfold sendPlatformUnavailableNotification. unfold mbind at 1, DB_bind at 1.
    rewrite (on_world_plain _ w [] (snapshot_of w)) by (unfold LoadSnapshot, mbind, DB_bind, wrap, statement; simpl; by rewrite Hsnap).
    unfold mbind at 1, DB_bind at 1. rewrite smtp_part by done. unfold mbind, DB_bind. simpl. by rewrite Hwh.
  - eexists. split; [by apply notification_channels_plain|]. split.
    + intros row Hrow. rewrite webhook_channels_smtp. unfold smtp_channels. rewrite Hrow. by destruct (smtp_Enabled row).
    + intros id target Ht. rewrite webhook_channels_lookup by (eauto; apply Hr). by rewrite Ht.
Qed.
End Notices.
End Configs.

Module ChannelsDemo.
#[export] Instance crypto : Crypto := CredentialsDemo.crypto.

Definition parse_address (s : string) : option string := if String.prefix "@" s || negb (not_blank s) then None else Some s.
Definition parse_url (s : string) : option ParsedURL :=
  if String.prefix "https://" s then Some (MkParsedURL "https" (String.substring 8 (String.length s) s) false) else None.

(** A webhook that refuses what it is sent. *)
Definition Send (config : ChannelConfig) (m : Message) : option string :=
  match config with ConfigSMTP _ => None | ConfigWebhook _ => Some "refused" end.

Definition no_tables : NotifyTables := MkNotifyTables ∅ [] ∅ ∅ ∅ [] [] [] [] ∅ None ∅ [] [] ∅ [] ∅ [].

(** No channel yet, under the keys of the opened ring. *)
Definition start : ChannelTables := MkChannelTables CredentialsDemo.opened.1.2 no_tables None ∅ {["u1"]}.

Definition smtp_request : SMTPChannelInput :=
  MkSMTPInput "PLAIN" true "monitor@example.org" " mail.example.org" (Some "secret") 587 "dba@example.org" "STARTTLS" (Some "monitor").
Definition webhook_request : WebhookTargetInput :=
  MkWebhookInput true "chat" (Some "X-Signature") (Some "signed") "https://chat.example.org/hook".

Definition keyring : CredentialKeyring := Eval vm_compute in CredentialsDemo.keyring.

Definition with_smtp : ChannelTables := Eval vm_compute in
  (Channels.UpdateSMTPChannel parse_address keyring (Some true) 1000 "u1" (Some smtp_request) [] start).1.2.
Definition both : ChannelTables := Eval vm_compute in
  (Channels.CreateWebhookTarget parse_url keyring (Some true) 1000 "u1" "w-1" (Some webhook_request) [] with_smtp).1.2.

Definition world : World := ct_world both.

(** The row of the webhook, and what the secrets of the slots are. *)
Definition webhook_row : WebhookTarget := default (MkWebhookTarget "" "" false "" "" "" 0) (w_webhook world !! "w-1").

Definition notice : Message := MkMessage EventTest EmptyString "platform failure" "the disk is full".

Lemma world_webhooks : w_webhook world = {["w-1" := webhook_row]}.
Proof. vm_compute. reflexivity. Qed.

Lemma world_webhook id target : w_webhook world !! id = Some target -> id = "w-1" /\ target = webhook_row.
Proof. rewrite world_webhooks, lookup_singleton_Some. by intros [-> ->]. Qed.

Lemma world_readable : readable keyring world.
Proof.
  split; [vm_compute; reflexivity|vm_compute; reflexivity|by intros id target [-> ->]%world_webhook|].
  intros [id| |id|id] Hs Hst; [by destruct (Hs id)|eexists; vm_compute; reflexivity|..];
    (destruct (decide (id = "w-1")) as [->|Hne]; [eexists; vm_compute; reflexivity|]);
    unfold stored in Hst; rewrite world_webhooks, lookup_singleton_ne in Hst by congruence; by destruct Hst.
Qed.

Definition auth_checked (row : SmtpChannel) : bool :=
  eqb (absent (smtp_AuthCiphertext row)) (absent (smtp_AuthKeyVersion row)) && negb (absent (smtp_AuthCiphertext row)).

Lemma world_paired : auth_paired world.
Proof.
  assert (from_option auth_checked true (w_smtp world) = true) as E by (vm_compute; reflexivity).
  intros row Hrow. rewrite Hrow in E. apply andb_prop in E as [Ep%eqb_prop Ea]. split; [done|]. intros Hnone. by rewrite Hnone in Ea.
Qed.

Lemma world_uuids : uuids world.
Proof. by intros i j [t [-> _]%world_webhook] [u [-> _]%world_webhook] _. Qed.
End ChannelsDemo.

Lemma failure_notices_use_the_saved_channels_witness :
  sendPlatformUnavailableNotification (H := ChannelsDemo.crypto) ChannelsDemo.keyring ChannelsDemo.Send ChannelsDemo.notice []
    (MkOutgoing ChannelsDemo.world []) =
  (Ok [Errorf "send platform failure through Webhook" (ErrNew "refused")],
   MkOutgoing ChannelsDemo.world
     [(ConfigSMTP (MkSMTPConfig "mail.example.org" 587 "monitor@example.org" "monitor" "secret" "STARTTLS" "PLAIN"),
       MkMessage EventTest "dba@example.org" "platform failure" "the disk is full");
      (ConfigWebhook (MkWebhookConfig "https://chat.example.org/hook" "signed" "X-Signature"), ChannelsDemo.notice)], []).
Proof.
  destruct (failure_notices_use_the_saved_channels (H := ChannelsDemo.crypto) ChannelsDemo.keyring ChannelsDemo.Send ChannelsDemo.world
    ChannelsDemo.notice ChannelsDemo.world_readable ChannelsDemo.world_paired ChannelsDemo.world_uuids) as [Hsent _].
  - vm_compute. reflexivity.
  - rewrite Hsent. vm_compute. reflexivity.
Defined.
