(* ===== verification/ChannelsSaved.v ===== *)
(** The administration of notification channels against a book of channels: what an
    answered request has done, what a refused one leaves as it was, and what an error
    leaves open, whatever fails on the way. *)

From S2P Require Import Prelude Db Text Responses Notify PlatformHealth Credentials CredentialsInv ChannelQueries Channels ChannelsInv.

(** * Requests *)

Inductive change : Type :=
  | SaveSMTP (input : option SMTPChannelInput)
  | AddWebhook (id : string) (input : option WebhookTargetInput)
  | ChangeWebhook (id : string) (input : option WebhookTargetInput)
  | RemoveWebhook (id : string).

Definition without_body {A} (r : response A) : response unit :=
  match r with
  | R200 _ => R200 tt | R201 _ => R201 tt | R202 _ => R202 tt | R204 => R204
  | R400 e => R400 e | R404 e => R404 e | R409 e => R409 e
  end.

Definition carried_out {A} (r : response A) : bool :=
  match r with R200 _ | R201 _ | R202 _ | R204 => true | _ => false end.

(** * The book *)

(** The channels in plain text: enabled and recipient of the SMTP channel, enabled and
    name of the webhooks by id, with what they are configured with. *)
Record Book : Type := MkBook {
  book_smtp : option (bool * string * SMTPConfig);
  book_webhook : gmap string (bool * string * WebhookConfig);
}.

(** What a request for SMTP sets; a password that is not given stays. *)
Definition asked_smtp (input : SMTPChannelInput) (old : option (bool * string * SMTPConfig)) : bool * string * SMTPConfig :=
  let none := bool_decide (smtp_in_AuthType input = "NONE") in
  let given := default EmptyString (smtp_in_Password input) in
  (smtp_in_Enabled input, smtp_in_Recipient input,
   MkSMTPConfig (TrimSpace (smtp_in_Host input)) (smtp_in_Port input) (smtp_in_FromAddress input)
     (if none then EmptyString else TrimSpace (default EmptyString (smtp_in_Username input)))
     (if none then EmptyString else if non_empty given then given else from_option (fun c => sc_Password c.2) EmptyString old)
     (smtp_in_TlsMode input) (smtp_in_AuthType input)).

(** What a request for a webhook sets; a part of the signing that is not given stays. *)
Definition asked_webhook (input : WebhookTargetInput) (old : WebhookConfig) : bool * string * WebhookConfig :=
  (wi_Enabled input, TrimSpace (wi_Name input),
   MkWebhookConfig (TrimSpace (wi_Url input))
     (from_option TrimSpace (wc_SigningValue old) (wi_SigningValue input))
     (from_option TrimSpace (wc_SignatureHeader old) (wi_SignatureHeader input))).

Definition no_webhook : WebhookConfig := MkWebhookConfig EmptyString EmptyString EmptyString.

Definition enter (c : change) (b : Book) : Book :=
  match c with
  | SaveSMTP (Some input) => MkBook (Some (asked_smtp input (book_smtp b))) (book_webhook b)
  | AddWebhook id (Some input) => MkBook (book_smtp b) (<[id := asked_webhook input no_webhook]> (book_webhook b))
  | ChangeWebhook id (Some input) => MkBook (book_smtp b) (alter (fun old => asked_webhook input old.2) id (book_webhook b))
  | RemoveWebhook id => MkBook (book_smtp b) (delete id (book_webhook b))
  | _ => b
  end.

Section Saved.
Context `{Crypto}.
Context (ParseAddress : string -> option string) (ParseURL : string -> option ParsedURL).
Context (keyring : CredentialKeyring) (store : option bool) (now : Time) (actorID : string).

Definition administer (c : change) : DB ChannelTables (response unit) :=
  match c with
  | SaveSMTP input => r ← UpdateSMTPChannel ParseAddress keyring store now actorID input; mret (without_body r)
  | AddWebhook id input => r ← CreateWebhookTarget ParseURL keyring store now actorID id input; mret (without_body r)
  | ChangeWebhook id input => r ← UpdateWebhookTarget ParseURL keyring store now actorID id input; mret (without_body r)
  | RemoveWebhook id => DeleteWebhookTarget store id
  end.

Definition book_of (w : World) : Book :=
  MkBook ((fun row => (smtp_Enabled row, smtp_Recipient row, smtp_of w row)) <$> w_smtp w)
    ((fun target => (wt_Enabled target, wt_Name target, webhook_of w target)) <$> w_webhook w).

(** The tables agree on the channels, every secret can be read, and nothing refers to a
    webhook that is not there. *)
Record consistent (t : ChannelTables) : Prop := MkConsistent {
  con_readable : readable keyring (ct_world t);
  con_paired : auth_paired (ct_world t);
  con_smtp : n_smtp (ct_notify t) = (fun row => (smtp_Enabled row, smtp_Recipient row)) <$> w_smtp (ct_world t);
  con_webhook : n_webhook (ct_notify t) = (fun target => (wt_Enabled target, wt_Url target)) <$> w_webhook (ct_world t);
  con_smtp_saved : absent (ct_smtp_saved t) = absent (w_smtp (ct_world t));
  con_webhook_saved : dom (ct_webhook_saved t) = dom (w_webhook (ct_world t));
  con_policies : forall c id, c ∈ n_policy_channel (ct_notify t) -> pc_ChannelTargetID c = Some id -> is_Some (w_webhook (ct_world t) !! id);
  con_deliveries : forall k d id, n_delivery (ct_notify t) !! k = Some d -> nd_ChannelTargetID d = Some id ->
    is_Some (w_webhook (ct_world t) !! id);
}.

(** * What draws and snapshots do not touch *)

Definition core (t : ChannelTables) : ChannelTables := with_world (set_snapshot None (set_drawn 0 (ct_world t))) t.

Lemma consistent_core t : consistent (core t) <-> consistent t.
Proof. split; intros [[? ? ? Hs] ? ? ? ? ? ? ?]; (split; [split; try assumption; intros s; by specialize (Hs s); destruct s|assumption..]). Qed.

Lemma book_core t : book_of (ct_world (core t)) = book_of (ct_world t).
Proof. reflexivity. Qed.

Lemma core_consistent t t' : core t' = core t -> consistent t -> consistent t'.
Proof. intros E Hc. apply consistent_core. rewrite E. by apply consistent_core. Qed.

Lemma core_book t t' : core t' = core t -> book_of (ct_world t') = book_of (ct_world t).
Proof. intros E. by rewrite <-book_core, E. Qed.

(** * Rows that are saved *)

(** An envelope opens to a text, with the key on disk for its version. *)
Definition opens (w : World) (s : slot) (envelope : string) (version : Z) (p : string) : Prop :=
  exists key, key_of w version = Some key /\ open_envelope key envelope (aad_of s) = Some p.

Lemma opens_plaintext w w' s envelope version p :
  opens w s envelope version p -> w_disk w' = w_disk w -> stored w' s = Some (envelope, version) -> plaintext w' s = Some p.
Proof.
  intros (key & Hk & Ho) Hd Hs. unfold plaintext. rewrite Hs. simpl. rewrite (key_of_disk w w') by done. by rewrite Hk.
Qed.

Lemma stored_opens w s envelope version :
  readable keyring w -> (forall id, s <> SlotInstance id) -> stored w s = Some (envelope, version) -> opens w s envelope version (secret w s).
Proof.
  intros Hr Hs Hst. destruct (readable_secret _ _ Hr s Hs) as [p Hp]; [by rewrite Hst|]. unfold secret. rewrite Hp. simpl.
  unfold plaintext in Hp. rewrite Hst in Hp. simpl in Hp. destruct (key_of w version) as [key|] eqn:Hk; [|done]. by exists key.
Qed.

(** The authentication of a row: none, or an envelope that opens to the password. *)
Definition auth_is (w : World) (row : SmtpChannel) (username password : string) : Prop :=
  match smtp_AuthCiphertext row, smtp_AuthKeyVersion row with
  | None, None => smtp_Username row = None /\ username = EmptyString /\ password = EmptyString
  | Some envelope, Some version => smtp_Username row = Some username /\ opens w SlotSMTP envelope version password
  | _, _ => False
  end.

Lemma put_smtp_saves t row saved username password :
  consistent t -> auth_is (ct_world t) row username password ->
  let t' := put_smtp row saved t in
  consistent t' /\
  book_of (ct_world t') =
    MkBook (Some (smtp_Enabled row, smtp_Recipient row,
        MkSMTPConfig (smtp_Host row) (smtp_Port row) (smtp_FromAddress row) username password (smtp_TlsMode row) (smtp_AuthType row)))
      (book_webhook (book_of (ct_world t))).
Proof.
  intros [Hr Hp Hs Hw Hss Hws Hpol Hdel] Ha t'. unfold auth_is in Ha.
  assert (forall s, s <> SlotSMTP -> plaintext (ct_world t') s = plaintext (ct_world t) s) as Hother by (intros [| | |] Hne; done).
  assert (if smtp_AuthKeyVersion row is Some _ then plaintext (ct_world t') SlotSMTP = Some password else
    plaintext (ct_world t') SlotSMTP = None /\ password = EmptyString) as Hpw.
  { destruct (smtp_AuthCiphertext row) as [envelope|] eqn:Ec, (smtp_AuthKeyVersion row) as [version|] eqn:Ev; [|done..|].
    - destruct Ha as [_ Ho]. apply (opens_plaintext (ct_world t) _ _ envelope version); [done..|]. simpl. by rewrite Ev, Ec.
    - destruct Ha as (_ & _ & ->). split; [|done]. unfold plaintext. simpl. by rewrite Ev. }
  split; [|].
  - split; [| |done..].
    + destruct Hr as [Hf Hr Hk Hsec]. split; [done..|]. intros s Hni Hst. destruct (decide (s = SlotSMTP)) as [->|Hne].
      * simpl in Hst. destruct (smtp_AuthKeyVersion row); [by rewrite Hpw|by destruct Hst].
      * rewrite Hother by done. apply Hsec; [done|]. by destruct s.
    + intros row' [= <-]. destruct (smtp_AuthCiphertext row), (smtp_AuthKeyVersion row); try done. by destruct Ha as [-> _].
  - transitivity (MkBook (Some (smtp_Enabled row, smtp_Recipient row, smtp_of (ct_world t') row)) (book_webhook (book_of (ct_world t)))); [done|].
    do 3 f_equal. unfold smtp_of, secret. f_equal.
    + destruct (smtp_AuthCiphertext row), (smtp_AuthKeyVersion row); [by destruct Ha as [-> _]|done|done|by destruct Ha as (_ & -> & _)].
    + destruct (smtp_AuthKeyVersion row); [by rewrite Hpw|by destruct Hpw as [-> ->]].
Qed.

(** The webhooks of the book, row by row. *)
Lemma book_webhook_lookup w id :
  book_webhook (book_of w) !! id = (fun target => (wt_Enabled target, wt_Name target, webhook_of w target)) <$> w_webhook w !! id.
Proof. apply lookup_fmap. Qed.

Lemma put_webhook_saves t row saved signingValue signatureHeader :
  consistent t ->
  opens (ct_world t) (SlotSigningValue (wt_ID row)) (wt_SigningValueCiphertext row) (wt_SigningKeyVersion row) signingValue ->
  opens (ct_world t) (SlotSignatureHeader (wt_ID row)) (wt_SignatureHeaderCiphertext row) (wt_SigningKeyVersion row) signatureHeader ->
  let t' := put_webhook row saved t in
  consistent t' /\
  book_of (ct_world t') =
    MkBook (book_smtp (book_of (ct_world t)))
      (<[wt_ID row := (wt_Enabled row, wt_Name row, MkWebhookConfig (wt_Url row) signingValue signatureHeader)]>
        (book_webhook (book_of (ct_world t)))).
Proof.
  intros [Hr Hp Hs Hw Hss Hws Hpol Hdel] Hv Hh t'. destruct Hr as [Hf Hr Hk Hsec].
  assert (w_webhook (ct_world t') = <[wt_ID row := row]> (w_webhook (ct_world t))) as Ew by done.
  assert (forall id target, w_webhook (ct_world t') !! id = Some target ->
    id = wt_ID row /\ target = row \/ id <> wt_ID row /\ w_webhook (ct_world t) !! id = Some target) as Hrows.
  { intros id target Ht. rewrite Ew, lookup_insert_Some in Ht. destruct Ht as [[<- <-]|[Hne Ht]]; auto. }
  assert (w_webhook (ct_world t') !! wt_ID row = Some row) as Hrow by (by rewrite Ew, lookup_insert_eq).
  assert (plaintext (ct_world t') (SlotSigningValue (wt_ID row)) = Some signingValue) as Hv'
    by (eapply opens_plaintext; [exact Hv|done|]; unfold stored; by rewrite Hrow).
  assert (plaintext (ct_world t') (SlotSignatureHeader (wt_ID row)) = Some signatureHeader) as Hh'
    by (eapply opens_plaintext; [exact Hh|done|]; unfold stored; by rewrite Hrow).
  assert (forall s, s <> SlotSigningValue (wt_ID row) -> s <> SlotSignatureHeader (wt_ID row) ->
    stored (ct_world t') s = stored (ct_world t) s /\ plaintext (ct_world t') s = plaintext (ct_world t) s) as Hother.
  { intros s H1 H2. assert (stored (ct_world t') s = stored (ct_world t) s) as E by (destruct s as [| |id|id]; try done; unfold stored; by rewrite Ew, lookup_insert_ne by congruence).
    split; [done|]. unfold plaintext. by rewrite E. }
  assert (forall id, is_Some (w_webhook (ct_world t) !! id) -> is_Some (w_webhook (ct_world t') !! id)) as Hmono
    by (intros id Hid; rewrite Ew; apply lookup_insert_is_Some'; by right).
  split; [split|].
  - split; [done..| |].
    + intros id target [[-> ->]|[_ Ht]]%Hrows; [done|by apply Hk].
    + intros s Hni Hst. destruct (decide (s = SlotSigningValue (wt_ID row))) as [->|H1]; [by rewrite Hv'|].
      destruct (decide (s = SlotSignatureHeader (wt_ID row))) as [->|H2]; [by rewrite Hh'|].
      destruct (Hother s H1 H2) as [E1 ->]. apply Hsec; [done|]. by rewrite <-E1.
  - done.
  - done.
  - simpl. by rewrite fmap_insert, Hw.
  - done.
  - simpl. rewrite !dom_insert_L. by rewrite Hws.
  - intros c id Hc Hid. apply Hmono. by eapply Hpol.
  - intros k d id Hd Hid. apply Hmono. by eapply Hdel.
  - assert (book_smtp (book_of (ct_world t')) = book_smtp (book_of (ct_world t))) as <- by done.
    transitivity (MkBook (book_smtp (book_of (ct_world t'))) (book_webhook (book_of (ct_world t')))); [done|]. f_equal.
    apply map_eq. intros id. rewrite book_webhook_lookup. destruct (decide (id = wt_ID row)) as [->|Hne].
    + rewrite Hrow, lookup_insert_eq. cbn [fmap option_fmap option_map]. unfold webhook_of, secret. by rewrite Hv', Hh'.
    + rewrite lookup_insert_ne by done. rewrite book_webhook_lookup. rewrite Ew, lookup_insert_ne by done.
      destruct (w_webhook (ct_world t) !! id) as [target|] eqn:Ht; [|done]. cbn [fmap option_fmap option_map]. do 2 f_equal. unfold webhook_of, secret.
      assert (wt_ID target = id) as -> by (by apply Hk). f_equal; f_equal; apply Hother; congruence.
Qed.

Lemma remove_webhook_saves t id :
  consistent t ->
  let t' := remove_webhook id t in
  consistent t' /\ book_of (ct_world t') = enter (RemoveWebhook id) (book_of (ct_world t)).
Proof.
  intros [Hr Hp Hs Hw Hss Hws Hpol Hdel] t'. destruct Hr as [Hf Hr Hk Hsec].
  assert (w_webhook (ct_world t') = delete id (w_webhook (ct_world t))) as Ew by done.
  assert (forall s e, stored (ct_world t') s = Some e -> stored (ct_world t) s = Some e /\ plaintext (ct_world t') s = plaintext (ct_world t) s) as Hsame.
  { intros s e Hst. assert (stored (ct_world t) s = Some e) as E.
    { destruct s as [| |j|j]; try done; simpl in *; (destruct (decide (j = id)) as [->|];
        [by rewrite lookup_delete_eq in Hst|by rewrite lookup_delete_ne in Hst]). }
    split; [done|]. unfold plaintext. by rewrite E, Hst. }
  assert (forall j, j <> id -> is_Some (w_webhook (ct_world t) !! j) -> is_Some (w_webhook (ct_world t') !! j)) as Hmono.
  { intros j Hj Hin. simpl. by rewrite lookup_delete_ne. }
  split; [split|].
  - split; [done..| |].
    + intros j target Ht. rewrite Ew, lookup_delete_Some in Ht. destruct Ht as [_ Ht]. by apply Hk.
    + intros s Hni [e He]. destruct (Hsame s e He) as [E ->]. apply Hsec; [done|]. by rewrite E.
  - done.
  - done.
  - simpl. by rewrite fmap_delete, Hw.
  - done.
  - simpl. rewrite !dom_delete_L. by rewrite Hws.
  - intros c j Hc Hid. simpl in Hc. apply list_elem_of_filter in Hc as [Hne Hc]. apply Hmono; [congruence|]. by eapply Hpol.
  - intros k d j Hd Hid. simpl in Hd. rewrite lookup_fmap in Hd. destruct (n_delivery (ct_notify t) !! k) as [d0|] eqn:Ed; [|done].
    simpl in Hd. injection Hd as <-. unfold forget_target in Hid. case_bool_decide as Hc; [done|]. apply Hmono; [congruence|]. by eapply Hdel.
  - transitivity (MkBook (book_smtp (book_of (ct_world t))) (book_webhook (book_of (ct_world t')))); [done|]. unfold enter. f_equal.
    apply map_eq. intros j. rewrite book_webhook_lookup. destruct (decide (j = id)) as [->|Hne].
    + by rewrite Ew, !lookup_delete_eq.
    + rewrite lookup_delete_ne by done. rewrite book_webhook_lookup. rewrite Ew, lookup_delete_ne by done.
      destruct (w_webhook (ct_world t) !! j) as [target|] eqn:Ht; [|done]. cbn [fmap option_fmap option_map]. do 2 f_equal. unfold webhook_of, secret.
      assert (wt_ID target = j) as -> by (by apply Hk). f_equal; f_equal; eapply Hsame; unfold stored; by rewrite Ew, lookup_delete_ne, Ht by done.
Qed.

(** * Steps of the handlers *)

Definition world_core (w : World) : World := set_snapshot None (set_drawn 0 w).

Lemma reads_keeps {T A B} (f : T -> B) (m : DB T A) : Keeps (fun t => t) m -> Keeps f m.
Proof. intros Hm fs t. by rewrite (Hm fs t). Qed.

#[local] Instance draw_core n : Keeps world_core (draw n).
Proof. apply statement_keeps. by intros w a w' [= <- <-]. Qed.

#[local] Instance encrypt_core p aad d : Keeps world_core (encrypt keyring p aad d).
Proof. unfold encrypt. apply _. Qed.

#[local] Instance decrypt_core envelope version aad : Keeps world_core (decrypt keyring envelope version aad).
Proof. apply reads_keeps, _. Qed.

#[local] Instance io_step_core : Keeps world_core io_step.
Proof. apply reads_keeps, _. Qed.

#[local] Instance smtp_read_core : Keeps world_core Credentials.GetSMTPChannel.
Proof. apply statement_keeps. intros w a w' E. by case_match; simplify_eq. Qed.

#[local] Instance SyncSnapshot_core b : Keeps world_core (SyncSnapshot b).
Proof. unfold SyncSnapshot, loadChannelSnapshotFromDatabase, Credentials.ListWebhookTargets, WriteSnapshot. apply _. Qed.

#[local] Instance in_world_core {A} (m : DB World A) : Keeps world_core m -> Keeps core (in_world m).
Proof.
  intros Hm fs t. specialize (Hm fs (ct_world t)). unfold tables_after, in_world, focus in *.
  destruct (m fs (ct_world t)) as [[r w'] fs']. simpl in *. unfold core. simpl. unfold world_core in Hm. by rewrite Hm.
Qed.

#[local] Instance refresh_core : Keeps core (refreshNotificationSnapshot store).
Proof. unfold refreshNotificationSnapshot. apply _. Qed.

Lemma core_disk t t' : core t' = core t -> w_disk (ct_world t') = w_disk (ct_world t).
Proof. intros E. change (w_disk (ct_world (core t')) = w_disk (ct_world (core t))). by rewrite E. Qed.

Lemma core_webhook t t' : core t' = core t -> webhook_row t' = webhook_row t.
Proof. intros E. change (webhook_row (core t') = webhook_row (core t)). by rewrite E. Qed.

(** A step that keeps the core, from any tables with the core of [t0]. *)
Lemma triple_core {A} (m : DB ChannelTables A) (Q : A -> Prop) t0 `{!Keeps core m} :
  (forall t, core t = core t0 -> triple (fun t1 => t1 = t) m (fun a _ => Q a) (fun _ => True)) ->
  triple (fun t => core t = core t0) m (fun a t => core t = core t0 /\ Q a) (fun t => core t = core t0).
Proof.
  intros Hm fs t Ht. specialize (Hm t Ht fs t eq_refl). pose proof (keeps fs t (f := core) (m := m)) as Hk. unfold tables_after in Hk.
  destruct (m fs t) as [[[a|e] t'] fs']; simpl in *; [split|]; congruence.
Qed.

Lemma encrypt_opens s p d t0 :
  ring_ok keyring (ct_world t0) ->
  triple (fun t => core t = core t0) (in_world (encrypt keyring p (aad_of s) d))
    (fun r t => core t = core t0 /\ r.2 = currentVersion keyring /\ opens (ct_world t0) s r.1 r.2 p) (fun t => core t = core t0).
Proof.
  intros Hr. apply triple_core; [apply _|]. intros t Ht. apply triple_focus. intros ? ->.
  eapply triple_weaken; [apply (encrypt_seals keyring (ct_world t))|done| |done]. intros [envelope version] w' (_ & Hv & Ho). simpl in *.
  subst version. split; [done|]. by exists (currentKey keyring).
Qed.

Lemma decrypt_secret s envelope version t0 :
  readable keyring (ct_world t0) -> stored (ct_world t0) s = Some (envelope, version) ->
  triple (fun t => core t = core t0) (in_world (decrypt keyring envelope version (aad_of s)))
    (fun p t => core t = core t0 /\ p = secret (ct_world t0) s) (fun t => core t = core t0).
Proof.
  intros Hr Hs. apply triple_core; [apply _|]. intros t Ht. apply triple_focus. intros ? ->.
  assert (forall version, key_of (ct_world t) version = key_of (ct_world t0) version) as Hkey by (intros v; by apply key_of_disk, core_disk).
  eapply triple_weaken; [apply (decrypt_opens keyring (ct_world t))|done| |done].
  - unfold ring_ok. rewrite Hkey. apply Hr.
  - intros p w' (_ & key & Hk & Ho). unfold secret, plaintext. rewrite Hs. simpl. rewrite <-Hkey, Hk. simpl. by rewrite Ho.
Qed.

(** * The handlers *)

Definition carried (c : change) (t0 t : ChannelTables) : Prop := consistent t /\ book_of (ct_world t) = enter c (book_of (ct_world t0)).

Definition answered (c : change) (t0 : ChannelTables) (r : response unit) (t : ChannelTables) : Prop :=
  if carried_out r then carried c t0 t else t = t0.

Definition left_open (c : change) (t0 t : ChannelTables) : Prop :=
  consistent t /\ (book_of (ct_world t) = book_of (ct_world t0) \/ book_of (ct_world t) = enter c (book_of (ct_world t0))).

Lemma core_left_open c t0 t : consistent t0 -> core t = core t0 -> left_open c t0 t.
Proof. intros Hc E. split; [by eapply core_consistent|]. left. by apply core_book. Qed.

Lemma carried_left_open c t0 t : carried c t0 t -> left_open c t0 t.
Proof. intros [Hc Hb]. split; [done|]. by right. Qed.

Lemma refresh_carried c t0 : triple (carried c t0) (refreshNotificationSnapshot store) (fun _ => carried c t0) (left_open c t0).
Proof.
  intros fs t [Hct Hb]. pose proof (keeps fs t (f := core) (m := refreshNotificationSnapshot store)) as Hkeep. unfold tables_after in Hkeep.
  assert (carried c t0 (refreshNotificationSnapshot store fs t).1.2) as Hdone.
  { split; [by eapply core_consistent|]. rewrite <-Hb. by apply core_book. }
  destruct (refreshNotificationSnapshot store fs t) as [[[u|e] t'] fs']; [done|by apply carried_left_open].
Qed.

(** The statement that saves, the refresh of the snapshot, and the answer. *)
Lemma save_then_refresh {A B} c t0 (effect : ChannelTables -> result (A * ChannelTables)) (k : A -> DB ChannelTables (response B)) :
  consistent t0 ->
  (forall a, exists r, carried_out (without_body r) = true /\ k a = (refreshNotificationSnapshot store ;; mret r)) ->
  (forall t a t', core t = core t0 -> effect t = Ok (a, t') -> carried c t0 t') ->
  triple (fun t => core t = core t0) (statement effect ≫= k) (fun r => answered c t0 (without_body r)) (left_open c t0).
Proof.
  intros Hc Hk Heff. apply (triple_bind _ _ _ (fun _ => carried c t0)).
  - apply triple_statement; [intros t; by apply core_left_open|]. intros t a t' Ht E. specialize (Heff t a t' Ht E).
    split; [done|by apply carried_left_open].
  - intros a. destruct (Hk a) as (r & Hr & ->). apply (triple_bind _ _ _ (fun _ => carried c t0)).
    + apply refresh_carried.
    + intros _. apply triple_ret. intros t Ht. unfold answered. by rewrite Hr.
Qed.

Lemma opens_core t t' s envelope version p : core t' = core t -> opens (ct_world t) s envelope version p -> opens (ct_world t') s envelope version p.
Proof. intros E (key & Hk & Ho). exists key. split; [|done]. rewrite <-Hk. by apply key_of_disk, core_disk. Qed.

Lemma auth_is_core t t' row username password :
  core t' = core t -> auth_is (ct_world t) row username password -> auth_is (ct_world t') row username password.
Proof.
  intros E. unfold auth_is. destruct (smtp_AuthCiphertext row), (smtp_AuthKeyVersion row); try done.
  intros [? Ho]. split; [done|]. by eapply opens_core.
Qed.

Definition smtp_asked (t0 : ChannelTables) (input : SMTPChannelInput) : SMTPConfig :=
  (asked_smtp input (book_smtp (book_of (ct_world t0)))).2.

#[local] Instance channel_read_keeps : Keeps (fun t => t) ChannelQueries.GetSMTPChannel.
Proof. apply statement_keeps. intros t a t' E. by repeat case_match; simplify_eq. Qed.

#[local] Instance webhook_read_keeps id : Keeps (fun t => t) (ChannelQueries.GetWebhookTarget id).
Proof. apply statement_keeps. intros t a t' E. by repeat case_match; simplify_eq. Qed.

#[local] Instance channel_read_propagates : Propagates ChannelQueries.GetSMTPChannel.
Proof. apply statement_propagates. Qed.

#[local] Instance webhook_read_propagates id : Propagates (ChannelQueries.GetWebhookTarget id).
Proof. apply statement_propagates. Qed.

(** A read of which the error is looked at. *)
Lemma attempt_read {A} t0 (m : DB ChannelTables A) E `{!Propagates m, !Keeps (fun t => t) m} :
  triple (fun t => t = t0) (attempt m) (fun r t => t = t0 /\ match r with Ok a => m [] t0 = (Ok a, t0, []) | Err _ => True end) E.
Proof. eapply triple_attempt; [eapply triple_weaken; [apply (triple_reads m t0)|done..]|done]. Qed.

(** What [smtp_auth] answers: nothing has changed, or the parts of a row. *)
Definition authenticated (t0 : ChannelTables) (input : SMTPChannelInput) (r : (option string * option string * option Z) + APIError)
    (t : ChannelTables) : Prop :=
  match r with
  | inr _ => t = t0
  | inl (username, ciphertext, version) => core t = core t0 /\
      forall row, smtp_Username row = username -> smtp_AuthCiphertext row = ciphertext -> smtp_AuthKeyVersion row = version ->
        auth_is (ct_world t0) row (sc_Username (smtp_asked t0 input)) (sc_Password (smtp_asked t0 input))
  end.

Lemma smtp_auth_authenticated t0 input :
  consistent t0 -> triple (fun t => t = t0) (smtp_auth keyring input) (authenticated t0 input) (left_open (SaveSMTP (Some input)) t0).
Proof.
  intros Hc. unfold smtp_auth, authenticated, smtp_asked, asked_smtp, auth_is. case_bool_decide as Hauth; simpl.
  { apply triple_ret. intros t ->. split; [done|]. by intros row -> -> ->. }
  case_bool_decide as Huser; [by apply triple_ret|]. destruct (non_empty (default EmptyString (smtp_in_Password input))) eqn:Hpw.
  - eapply triple_bind.
    { eapply triple_weaken; [apply (encrypt_opens SlotSMTP _ _ t0), Hc|by intros t ->|done|intros t; by apply core_left_open]. }
    intros [envelope version]. apply triple_ret. intros t (Ht & _ & Ho). split; [done|]. by intros row -> -> ->.
  - eapply triple_bind; [apply attempt_read; apply _|].
    intros [[existing saved]|e]; simpl; [|by apply triple_ret; intros t [-> _]].
    destruct (smtp_AuthKeyVersion existing) as [version|] eqn:Hv; simpl; [|by apply triple_ret; intros t [-> _]].
    destruct (smtp_AuthCiphertext existing) as [envelope|] eqn:He; simpl; [|by apply triple_ret; intros t [-> _]].
    destruct (negb (non_empty envelope)); [by apply triple_ret; intros t [-> _]|].
    apply triple_ret. intros t [-> Hread]. split; [done|]. intros row -> -> ->. split; [done|].
    assert (w_smtp (ct_world t0) = Some existing) as Hrow by (clear -Hread; unfold ChannelQueries.GetSMTPChannel, statement in Hread; simpl in Hread;
      destruct (w_smtp (ct_world t0)), (ct_smtp_saved t0); by simplify_eq/=).
    rewrite Hrow. apply stored_opens; [apply Hc|done|]. simpl. rewrite Hrow. simpl. rewrite Hv. simpl. by rewrite He.
Qed.

Lemma UpdateSMTPChannel_answered t0 input :
  consistent t0 ->
  triple (fun t => t = t0) (UpdateSMTPChannel ParseAddress keyring store now actorID input)
    (fun r => answered (SaveSMTP input) t0 (without_body r)) (left_open (SaveSMTP input) t0).
Proof.
  intros Hc. destruct input as [input|]; [|by apply triple_ret]. unfold UpdateSMTPChannel.
  destruct (_ || (65535 <? _)) eqn:Hport; [by apply triple_ret|]. do 2 (destruct (negb (bool_decide (_ ∈ _))); [by apply triple_ret|]).
  assert (int32 (smtp_in_Port input) = smtp_in_Port input) as -> by (rewrite !orb_false_iff in Hport; apply int32_id; unfold in_int32; lia).
  eapply triple_bind; [by apply smtp_auth_authenticated|].
  intros [[[username ciphertext] version]|body]; [|apply triple_ret; intros t Ht; exact Ht].
  apply triple_at. intros t1 [Hcore Hauth].
  eapply triple_weaken; [eapply (save_then_refresh (SaveSMTP (Some input)) t0); [done|..]|by intros t ->|done|done].
  - intros [row saved]. eexists. by split; [|reflexivity].
  - intros t [row saved] t' Ht E. destruct (negb (smtp_checked _)); [done|]. destruct (unknown_user _ _); [done|].
    injection E as <- <- <-.
    match goal with |- carried _ _ (put_smtp ?row ?saved t) =>
      destruct (put_smtp_saves t row saved (sc_Username (smtp_asked t0 input)) (sc_Password (smtp_asked t0 input))) as [Hct Hb] end;
      [by eapply core_consistent|by apply (auth_is_core t0), Hauth|].
    split; [exact Hct|]. rewrite Hb, (core_book t0 t) by done. reflexivity.
Qed.

Lemma signing_text_asked value signed old :
  signing_text value = Some signed -> (if absent value then old else signed) = from_option TrimSpace old value.
Proof. destruct value as [value|]; [|done]. simpl. by case_bool_decide; [|intros [= <-]]. Qed.

Lemma validWebhookInput_asked input values old oldHeader :
  validWebhookInput ParseURL input = Some values ->
  wvs_name values = TrimSpace (wi_Name input) /\ wvs_targetURL values = TrimSpace (wi_Url input) /\
  (if absent (wi_SigningValue input) then old else wvs_signingValue values) = from_option TrimSpace old (wi_SigningValue input) /\
  (if absent (wi_SignatureHeader input) then oldHeader else wvs_signatureHeader values) = from_option TrimSpace oldHeader (wi_SignatureHeader input).
Proof.
  unfold validWebhookInput. destruct (ParseURL _) as [parsed|]; [|done]. simpl. destruct (_ || bool_decide (TrimSpace (wi_Name input) = EmptyString)); [done|].
  destruct (signing_text (wi_SigningValue input)) as [v|] eqn:Ev; [|done]. simpl.
  destruct (signing_text (wi_SignatureHeader input)) as [h|] eqn:Eh; [|done]. simpl. intros [= <-]. simpl.
  split_and!; [done|done|by apply signing_text_asked..].
Qed.

(** Saving the row of a webhook of which both envelopes are known to open. *)
Lemma put_webhook_carried c t0 t row saved v h :
  consistent t0 -> core t = core t0 ->
  opens (ct_world t0) (SlotSigningValue (wt_ID row)) (wt_SigningValueCiphertext row) (wt_SigningKeyVersion row) v ->
  opens (ct_world t0) (SlotSignatureHeader (wt_ID row)) (wt_SignatureHeaderCiphertext row) (wt_SigningKeyVersion row) h ->
  enter c (book_of (ct_world t0)) =
    MkBook (book_smtp (book_of (ct_world t0)))
      (<[wt_ID row := (wt_Enabled row, wt_Name row, MkWebhookConfig (wt_Url row) v h)]> (book_webhook (book_of (ct_world t0)))) ->
  carried c t0 (put_webhook row saved t).
Proof.
  intros Hc Ht Hv Hh Henter.
  destruct (put_webhook_saves t row saved v h) as [Hct Hb]; [by eapply core_consistent|by eapply opens_core..|].
  split; [exact Hct|]. by rewrite Hb, (core_book t0 t), Henter by done.
Qed.

Lemma CreateWebhookTarget_answered t0 id input :
  consistent t0 ->
  triple (fun t => t = t0) (CreateWebhookTarget ParseURL keyring store now actorID id input)
    (fun r => answered (AddWebhook id input) t0 (without_body r)) (left_open (AddWebhook id input) t0).
Proof.
  intros Hc. destruct input as [input|]; [|by apply triple_ret]. unfold CreateWebhookTarget.
  destruct (_ || absent (wi_SignatureHeader input)) eqn:Habs; [by apply triple_ret|].
  destruct (validWebhookInput ParseURL input) as [values|] eqn:Evalues; [|by apply triple_ret].
  eapply triple_bind.
  { eapply triple_weaken; [apply (encrypt_opens (SlotSigningValue id) (wvs_signingValue values) _ t0), Hc|by intros t ->|done|intros t; by apply core_left_open]. }
  intros [value version]. apply triple_at. intros t1 (Ht1 & Hversion & Hv). eapply triple_bind.
  { eapply triple_weaken; [apply (encrypt_opens (SlotSignatureHeader id) (wvs_signatureHeader values) _ t0), Hc|by intros t ->|done|intros t; by apply core_left_open]. }
  intros [header version']. apply triple_at. intros t2 (Ht2 & Hversion' & Hh). simpl in *. subst version version'.
  eapply triple_weaken; [eapply (save_then_refresh (AddWebhook id (Some input)) t0); [done|..]|by intros t ->|done|done].
  { intros [row saved]. eexists. by split; [|reflexivity]. }
  intros t [row saved] t' Ht E. destruct (negb (webhook_checked _)); [done|]. case_bool_decide; [done|]. destruct (unknown_user _ _); [done|].
  injection E as <- <- <-. eapply put_webhook_carried; [done|done|exact Hv|exact Hh|].
  destruct (validWebhookInput_asked input values EmptyString EmptyString Evalues) as (Hname & Hurl & Hvalue & Hheader).
  apply orb_false_iff in Habs as [Ha1 Ha2]. rewrite Ha1 in Hvalue. rewrite Ha2 in Hheader. simpl. unfold asked_webhook. simpl.
  by rewrite Hname, Hurl, <-Hvalue, <-Hheader.
Qed.

Lemma webhook_signing_signed t0 id existing input values :
  consistent t0 -> w_webhook (ct_world t0) !! id = Some existing -> validWebhookInput ParseURL input = Some values ->
  let w := ct_world t0 in
  triple (fun t => core t = core t0) (webhook_signing keyring id existing input values)
    (fun r t => core t = core t0 /\
       opens w (SlotSigningValue id) r.1.1 r.2 (from_option TrimSpace (secret w (SlotSigningValue id)) (wi_SigningValue input)) /\
       opens w (SlotSignatureHeader id) r.1.2 r.2 (from_option TrimSpace (secret w (SlotSignatureHeader id)) (wi_SignatureHeader input)))
    (fun t => core t = core t0).
Proof.
  intros Hc Hrow Evalues w. unfold webhook_signing.
  destruct (validWebhookInput_asked input values (secret w (SlotSigningValue id)) (secret w (SlotSignatureHeader id)) Evalues)
    as (_ & _ & <- & <-).
  assert (stored w (SlotSigningValue id) = Some (wt_SigningValueCiphertext existing, wt_SigningKeyVersion existing)) as Hsv
    by (simpl; unfold w; by rewrite Hrow).
  assert (stored w (SlotSignatureHeader id) = Some (wt_SignatureHeaderCiphertext existing, wt_SigningKeyVersion existing)) as Hsh
    by (simpl; unfold w; by rewrite Hrow).
  destruct (absent (wi_SigningValue input) && absent (wi_SignatureHeader input)) eqn:Hboth.
  { apply andb_prop in Hboth as [-> ->]. apply triple_ret. intros t Ht.
    split_and!; [done|by apply stored_opens; [apply Hc|..]|by apply stored_opens; [apply Hc|..]]. }
  apply (triple_bind _ _ _ (fun v t => core t = core t0 /\
    v = if absent (wi_SigningValue input) then secret w (SlotSigningValue id) else wvs_signingValue values)).
  { destruct (absent (wi_SigningValue input)); [apply (decrypt_secret (SlotSigningValue id) _ _ t0); [apply Hc|exact Hsv]|by apply triple_ret]. }
  intros v. apply triple_at. intros t1 [Ht1 ->]. apply (triple_bind _ _ _ (fun h t => core t = core t0 /\
    h = if absent (wi_SignatureHeader input) then secret w (SlotSignatureHeader id) else wvs_signatureHeader values)).
  { destruct (absent (wi_SignatureHeader input)); [|by apply triple_ret; intros t ->].
    eapply triple_weaken; [apply (decrypt_secret (SlotSignatureHeader id) _ _ t0); [apply Hc|exact Hsh]|by intros t ->|done|done]. }
  intros h. apply triple_at. intros t2 [Ht2 ->]. eapply triple_bind.
  { eapply triple_weaken; [apply (encrypt_opens (SlotSigningValue id) _ _ t0), Hc|by intros t ->|done|done]. }
  intros [value version]. apply triple_at. intros t3 (Ht3 & Hversion & Hv). eapply triple_bind.
  { eapply triple_weaken; [apply (encrypt_opens (SlotSignatureHeader id) _ _ t0), Hc|by intros t ->|done|done]. }
  intros [header version']. apply triple_ret. intros t (Ht & Hversion' & Hh). simpl in *. subst version version'. done.
Qed.

Lemma UpdateWebhookTarget_answered t0 id input :
  consistent t0 ->
  triple (fun t => t = t0) (UpdateWebhookTarget ParseURL keyring store now actorID id input)
    (fun r => answered (ChangeWebhook id input) t0 (without_body r)) (left_open (ChangeWebhook id input) t0).
Proof.
  intros Hc. destruct input as [input|]; [|by apply triple_ret]. unfold UpdateWebhookTarget.
  destruct (validWebhookInput ParseURL input) as [values|] eqn:Evalues; [|by apply triple_ret]. unfold or_404.
  eapply triple_bind; [apply attempt_read; apply _|]. intros [[existing saved]|e].
  2:{ destruct (is_no_rows e); [by apply triple_ret; intros t [-> _]|apply triple_fail; intros t [-> _]; by apply core_left_open]. }
  apply triple_at. intros t1 [-> Hread].
  assert (w_webhook (ct_world t0) !! id = Some existing) as Hrow.
  { clear -Hread. unfold GetWebhookTarget, statement, webhook_row in Hread. simpl in Hread.
    destruct (w_webhook (ct_world t0) !! id); simpl in Hread; [|done]. destruct (ct_webhook_saved t0 !! id); by simplify_eq/=. }
  pose proof (readable_keyed _ _ (con_readable _ Hc) id existing Hrow) as Hid.
  eapply triple_bind.
  { eapply triple_weaken; [by apply (webhook_signing_signed t0 id existing input values)|by intros t ->|done|intros t; by apply core_left_open]. }
  intros [[value header] version]. apply triple_at. intros t1 (Ht1 & Hv & Hh). simpl in Hv, Hh. rewrite Hid.
  eapply triple_weaken; [eapply (save_then_refresh (ChangeWebhook id (Some input)) t0); [done|..]|by intros t ->|done|done].
  { intros [row saved']. eexists. by split; [|reflexivity]. }
  intros t [row saved'] t' Ht E. destruct (webhook_row t _) as [[existing' [[createdAt ?] ?]]|]; [|done].
  destruct (negb (webhook_checked _)); [done|]. destruct (unknown_user _ _); [done|]. injection E as <- <- <-.
  eapply put_webhook_carried; [done|done|exact Hv|exact Hh|].
  destruct (validWebhookInput_asked input values EmptyString EmptyString Evalues) as (Hname & Hurl & _).
  unfold enter. f_equal. apply map_eq. intros j. destruct (decide (j = id)) as [->|Hne].
  - rewrite lookup_alter_eq, book_webhook_lookup, Hrow. simpl wt_ID. rewrite lookup_insert_eq. simpl. unfold asked_webhook. simpl.
    by rewrite Hname, Hurl, Hid.
  - rewrite lookup_alter_ne by done. simpl wt_ID. by rewrite lookup_insert_ne.
Qed.

Lemma DeleteWebhookTarget_answered t0 id :
  consistent t0 ->
  triple (fun t => t = t0) (DeleteWebhookTarget store id) (fun r => answered (RemoveWebhook id) t0 (without_body r)) (left_open (RemoveWebhook id) t0).
Proof.
  intros Hc. unfold DeleteWebhookTarget.
  apply (triple_bind _ _ _ (fun n t => if n =? 0 then t = t0 else carried (RemoveWebhook id) t0 t)).
  - apply triple_statement; [intros t ->; by apply core_left_open|]. intros t n t' ->. case_bool_decide as Hin; intros [= <- <-]; simpl.
    + destruct (remove_webhook_saves t0 id Hc) as [Hct Hb]. split; [done|]. by apply carried_left_open.
    + split; [done|]. by apply core_left_open.
  - intros n. destruct (n =? 0); [by apply triple_ret|]. apply (triple_bind _ _ _ (fun _ => carried (RemoveWebhook id) t0)); [|by intros _; apply triple_ret].
    by apply refresh_carried.
Qed.

Lemma administer_answered c t0 : consistent t0 -> triple (fun t => t = t0) (administer c) (answered c t0) (left_open c t0).
Proof.
  intros Hc. destruct c as [input|id input|id input|id]; simpl.
  - eapply triple_bind; [by apply UpdateSMTPChannel_answered|]. intros r. by apply triple_ret.
  - eapply triple_bind; [by apply CreateWebhookTarget_answered|]. intros r. by apply triple_ret.
  - eapply triple_bind; [by apply UpdateWebhookTarget_answered|]. intros r. by apply triple_ret.
  - eapply triple_weaken; [by apply DeleteWebhookTarget_answered|done| |done]. intros r t. unfold answered. by destruct r.
Qed.

(** C17. Whatever fails on the way, a request to save, change or remove a notification
    channel ends as the book of channels says: answered with success, the channels in plain text are those of before with exactly what
    was asked entered, secrets that were not given included; refused, nothing has changed; failed, one of the two.
    The tables stay consistent: secrets stay readable, and no policy or delivery refers to a webhook that is gone. *)
Theorem administration_keeps_the_channel_book (c : change) (fs : list fate) (t : ChannelTables) :
  consistent t ->
  let '(r, t', _) := administer c fs t in
  consistent t' /\
  match r with
  | Ok answer => if carried_out answer then book_of (ct_world t') = enter c (book_of (ct_world t)) else t' = t
  | Err _ => book_of (ct_world t') = book_of (ct_world t) \/ book_of (ct_world t') = enter c (book_of (ct_world t))
  end.
Proof.
  intros Hc. pose proof (administer_answered c t Hc fs t eq_refl) as H'. destruct (administer c fs t) as [[[answer|e] t'] fs']; simpl in H'.
  - unfold answered in H'. destruct (carried_out answer); [done|]. by subst.
  - exact H'.
Qed.

(** * On a server without faults *)

Lemma encrypt_plain p aad d w :
  keyring_fault keyring = None -> ring_ok keyring w -> exists envelope, encrypt keyring p aad d [] w = (Ok (envelope, currentVersion keyring), set_drawn (S (w_drawn w)) w, []).
Proof.
  intros Hf Hr. pose proof (key_of_length w _ _ Hr) as Hl. unfold encrypt. rewrite Hf. unfold mbind, DB_bind, credentialGCM.
  rewrite bool_decide_true by (unfold credentialKeySize in Hl; lia). simpl. by eexists.
Qed.

Lemma in_world_plain {A} (m : DB World A) t a w' : m [] (ct_world t) = (Ok a, w', []) -> in_world m [] t = (Ok a, with_world w' t, []).
Proof. intros E. unfold in_world, focus. by rewrite E. Qed.

Lemma in_encrypt_plain p aad d t0 t :
  consistent t0 -> core t = core t0 ->
  exists envelope t', in_world (encrypt keyring p aad d) [] t = (Ok (envelope, currentVersion keyring), t', []) /\ core t' = core t0 /\ w_snapshot (ct_world t') = w_snapshot (ct_world t).
Proof.
  intros Hc Ht. destruct (core_consistent _ _ Ht Hc) as [[Hf Hr _ _] _ _ _ _ _ _ _]. destruct (encrypt_plain p aad d (ct_world t) Hf Hr) as [envelope E].
  exists envelope. eexists. split; [by apply in_world_plain|]. by rewrite <-Ht.
Qed.

Lemma refresh_plain t :
  refreshNotificationSnapshot store [] t =
  (Ok tt, match store with
          | Some true => with_world (set_snapshot (Some (snapshot_of (ct_world t))) (ct_world t)) t
          | _ => t
          end, []).
Proof.
  unfold refreshNotificationSnapshot. destruct store as [[]|]; [| |done].
  - unfold mbind, DB_bind, attempt, in_world, focus, SyncSnapshot, loadChannelSnapshotFromDatabase, Credentials.GetSMTPChannel. run_plain.
    unfold snapshot_of. by destruct (w_smtp (ct_world t)).
  - unfold mbind, DB_bind, attempt, in_world, focus, SyncSnapshot, loadChannelSnapshotFromDatabase, Credentials.GetSMTPChannel. run_plain.
    destruct (w_smtp (ct_world t)); simpl; by destruct t as [[] ? ? ? ?].
Qed.

Definition refreshed (t : ChannelTables) : ChannelTables :=
  match store with
  | Some true => with_world (set_snapshot (Some (snapshot_of (ct_world t))) (ct_world t)) t
  | _ => t
  end.

(** The file with the snapshot after a request that was carried out: up to date where there is
    a store that may write, and as it was otherwise. *)
Definition snapshot_after (t t' : ChannelTables) : Prop :=
  w_snapshot (ct_world t') = if bool_decide (store = Some true) then Some (snapshot_of (ct_world t')) else w_snapshot (ct_world t).

Lemma refreshed_snapshot t0 t : w_snapshot (ct_world t) = w_snapshot (ct_world t0) -> snapshot_after t0 (refreshed t).
Proof. intros E. unfold snapshot_after, refreshed. by destruct store as [[]|]. Qed.

(** A handler that is carried out. *)
Definition served {B} (m : DB ChannelTables (response B)) (t0 : ChannelTables) : Prop :=
  exists r t', m [] t0 = (Ok r, t', []) /\ carried_out (without_body r) = true /\ snapshot_after t0 t'.

Lemma finish_served {A B} t0 t1 (effect : ChannelTables -> result (A * ChannelTables)) (k : A -> DB ChannelTables (response B)) a t2 m :
  m [] t0 = (statement effect ≫= k) [] t1 -> effect t1 = Ok (a, t2) -> w_snapshot (ct_world t2) = w_snapshot (ct_world t0) ->
  (exists r, carried_out (without_body r) = true /\ k a = (refreshNotificationSnapshot store ;; mret r)) -> served m t0.
Proof.
  intros Hm E Hsn (r & Hr & Hk). exists r, (refreshed t2). split; [|split; [done|by apply refreshed_snapshot]].
  rewrite Hm. unfold mbind, DB_bind, statement. simpl. rewrite E, Hk. unfold mbind, DB_bind. by rewrite refresh_plain.
Qed.

(** The part on authentication of a request for SMTP. *)
Definition valid_auth (t : ChannelTables) (input : SMTPChannelInput) : Prop :=
  smtp_in_AuthType input = "NONE" \/
  TrimSpace (default EmptyString (smtp_in_Username input)) <> EmptyString /\
  (non_empty (default EmptyString (smtp_in_Password input)) = true \/ exists row, w_smtp (ct_world t) = Some row /\ is_Some (smtp_AuthCiphertext row)).

Lemma smtp_auth_plain t0 input :
  consistent t0 -> valid_auth t0 input ->
  exists username ciphertext version t1, smtp_auth keyring input [] t0 = (Ok (inl (username, ciphertext, version)), t1, []) /\
    core t1 = core t0 /\ w_snapshot (ct_world t1) = w_snapshot (ct_world t0) /\
    if bool_decide (smtp_in_AuthType input = "NONE") then (username, ciphertext, version) = (None, None, None)
    else username = Some (TrimSpace (default EmptyString (smtp_in_Username input))) /\ is_Some ciphertext /\ is_Some version /\
      TrimSpace (default EmptyString (smtp_in_Username input)) <> EmptyString.
Proof.
  intros Hc Hv. unfold smtp_auth. case_bool_decide as Hauth; [by exists None, None, None, t0|].
  destruct Hv as [?|[Huser Hpw]]; [done|]. rewrite bool_decide_false by done. destruct (non_empty (default EmptyString (smtp_in_Password input))) eqn:Hgiven.
  - destruct (in_encrypt_plain (default EmptyString (smtp_in_Password input)) smtpCredentialAAD "SMTP credential" t0 t0 Hc eq_refl) as (envelope & t1 & E & Ht1 & Hsn).
    do 4 eexists. split; [|split_and!; [exact Ht1|exact Hsn|done|by eexists|by eexists|done]]. unfold mbind, DB_bind, EncryptSMTPPassword. by rewrite E.
  - destruct Hpw as [?|(row & Hrow & [envelope He])]; [done|]. destruct (con_paired _ Hc row Hrow) as [Hpair _]. rewrite He in Hpair.
    destruct (smtp_AuthKeyVersion row) as [version|] eqn:Hversion; [|done].
    pose proof (con_smtp_saved _ Hc) as Hsaved. rewrite Hrow in Hsaved. destruct (ct_smtp_saved t0) as [saved|] eqn:Hs; [|done].
    assert (non_empty envelope = true) as Hne.
    { destruct (stored_opens (ct_world t0) SlotSMTP envelope version) as (key & _ & Ho); [apply Hc|done|simpl; rewrite Hrow; simpl; by rewrite Hversion, He|].
      by destruct envelope. }
    exists (Some (TrimSpace (default EmptyString (smtp_in_Username input)))), (Some envelope), (Some version), t0. split; [|split_and!; [done|done|done|by eexists|by eexists|done]].
    unfold mbind, DB_bind, attempt, ChannelQueries.GetSMTPChannel, statement. simpl. rewrite Hrow, Hs. simpl. rewrite Hversion, He. simpl. by rewrite Hne.
Qed.

(** What [net/mail] and [net/url] are relied on for: the empty text is neither an address nor
    has it a host, and an address is not blank. *)
Definition parsers_ok : Prop :=
  (forall s, ParseAddress s = Some s -> not_blank s = true) /\ (forall u, ParseURL EmptyString = Some u -> url_Host u = EmptyString).

(** The requests that are carried out. *)
Definition valid (t : ChannelTables) (c : change) : Prop :=
  match c with
  | SaveSMTP (Some input) =>
      validEmail ParseAddress (smtp_in_FromAddress input) = true /\ validEmail ParseAddress (smtp_in_Recipient input) = true /\
      TrimSpace (smtp_in_Host input) <> EmptyString /\ 1 <= smtp_in_Port input <= 65535 /\
      smtp_in_AuthType input ∈ ["NONE"; "PLAIN"; "LOGIN"] /\ smtp_in_TlsMode input ∈ ["STARTTLS"; "IMPLICIT"] /\ valid_auth t input
  | AddWebhook id (Some input) =>
      is_Some (validWebhookInput ParseURL input) /\ is_Some (wi_SigningValue input) /\ is_Some (wi_SignatureHeader input) /\
      w_webhook (ct_world t) !! id = None
  | ChangeWebhook id (Some input) => is_Some (validWebhookInput ParseURL input) /\ is_Some (w_webhook (ct_world t) !! id)
  | RemoveWebhook id => is_Some (w_webhook (ct_world t) !! id)
  | _ => False
  end.

Lemma core_user t t' : core t' = core t -> ct_user t' = ct_user t.
Proof. intros E. change (ct_user (core t') = ct_user (core t)). by rewrite E. Qed.

Lemma known_user t t0 : core t = core t0 -> actorID ∈ ct_user t0 -> unknown_user t (Some actorID) = false.
Proof. intros E Hin. simpl. rewrite (core_user _ _ E). apply bool_decide_false. intros Hn. by apply Hn. Qed.

Lemma UpdateSMTPChannel_served t0 input :
  parsers_ok -> consistent t0 -> actorID ∈ ct_user t0 -> valid t0 (SaveSMTP (Some input)) ->
  served (UpdateSMTPChannel ParseAddress keyring store now actorID (Some input)) t0.
Proof.
  intros [Haddr _] Hc Hactor (Hfrom & Hrecipient & Hhost & Hport & Hauthtype & Htls & Hauth).
  destruct (smtp_auth_plain t0 input Hc Hauth) as (username & ciphertext & version & t1 & E & Ht1 & Hsn & Hshape).
  assert (forall s, validEmail ParseAddress s = true -> not_blank s = true) as Haddr' by (intros s Hs%bool_decide_eq_true; by apply Haddr).
  unfold UpdateSMTPChannel, UpsertSMTPChannel.
  eapply (finish_served t0 t1 _ _ _ _ _); [| | |].
  - assert (negb (validEmail ParseAddress (smtp_in_FromAddress input)) || negb (validEmail ParseAddress (smtp_in_Recipient input)) ||
      bool_decide (TrimSpace (smtp_in_Host input) = EmptyString) || (smtp_in_Port input <? 1) || (65535 <? smtp_in_Port input) = false) as ->
      by (rewrite Hfrom, Hrecipient, bool_decide_false by done; apply orb_false_iff; lia).
    rewrite !bool_decide_true by done. change (negb true) with false. cbv iota. unfold mbind at 1, DB_bind at 1. rewrite E. reflexivity.
  - cbv beta. rewrite (known_user t1 t0) by done.
    assert (smtp_checked (MkSmtpChannel (smtp_in_Enabled input) (TrimSpace (smtp_in_Host input)) (int32 (smtp_in_Port input)) (smtp_in_FromAddress input)
      (smtp_in_Recipient input) (smtp_in_AuthType input) username ciphertext version (smtp_in_TlsMode input)) = true) as ->.
    { unfold smtp_checked. simpl. rewrite int32_id by (unfold in_int32; lia). rewrite TrimSpace_not_blank, !Haddr' by done.
      rewrite !bool_decide_true by done. assert ((1 <=? smtp_in_Port input) = true) as -> by lia. assert ((smtp_in_Port input <=? 65535) = true) as -> by lia.
      simpl. case_bool_decide; [by simplify_eq|]. destruct Hshape as (-> & [? ->] & [? ->] & Huser). simpl. by rewrite TrimSpace_not_blank. }
    reflexivity.
  - exact Hsn.
  - eexists. by split; [|reflexivity].
Qed.

Lemma validWebhookInput_checked input values id enabled v h version :
  parsers_ok -> validWebhookInput ParseURL input = Some values ->
  webhook_checked (MkWebhookTarget id (wvs_name values) enabled (wvs_targetURL values) v h version) = true.
Proof.
  intros [_ Hurl] Hvalues. unfold webhook_checked. simpl. unfold validWebhookInput in Hvalues.
  destruct (ParseURL (TrimSpace (wi_Url input))) as [parsed|] eqn:Eu; [|done]. simpl in Hvalues.
  destruct (_ || bool_decide (TrimSpace (wi_Name input) = EmptyString)) eqn:Hbad; [done|]. rewrite !orb_false_iff in Hbad.
  destruct Hbad as [[[_ Hhost%bool_decide_eq_false] _] Hname%bool_decide_eq_false].
  destruct (signing_text (wi_SigningValue input)); [|done]. simpl in Hvalues. destruct (signing_text (wi_SignatureHeader input)); [|done].
  injection Hvalues as <-. simpl. rewrite (TrimSpace_not_blank (wi_Name input)) by done. apply TrimSpace_not_blank. intros Eempty. rewrite Eempty in Eu. by apply Hhost, Hurl.
Qed.

Lemma CreateWebhookTarget_served t0 id input :
  parsers_ok -> consistent t0 -> actorID ∈ ct_user t0 -> valid t0 (AddWebhook id (Some input)) ->
  served (CreateWebhookTarget ParseURL keyring store now actorID id (Some input)) t0.
Proof.
  intros Hparse Hc Hactor ([values Hvalues] & [v Hv] & [h Hh] & Hfree).
  destruct (in_encrypt_plain (wvs_signingValue values) (webhookCredentialAAD id webhookSigningValuePurpose) "Webhook signing value" t0 t0 Hc eq_refl)
    as (value & t1 & E1 & Ht1 & Hsn1).
  destruct (in_encrypt_plain (wvs_signatureHeader values) (webhookCredentialAAD id webhookSignatureHeaderPurpose) "Webhook signature header" t0 t1 Hc Ht1)
    as (header & t2 & E2 & Ht2 & Hsn2).
  unfold CreateWebhookTarget, ChannelQueries.CreateWebhookTarget. rewrite Hv, Hh, Hvalues. simpl orb. cbv iota.
  eapply (finish_served t0 t2 _ _ _ _ _); [| | |].
  - unfold EncryptWebhookSigningValue, EncryptWebhookSignatureHeader. unfold mbind at 1, DB_bind at 1. rewrite E1.
    unfold mbind at 1, DB_bind at 1. rewrite E2. reflexivity.
  - cbv beta. rewrite (validWebhookInput_checked input) by done. rewrite (known_user t2 t0) by done. simpl wt_ID.
    assert (w_webhook (ct_world t2) !! id = None) as ->.
    { rewrite <-Hfree. change (w_webhook (ct_world (core t2)) !! id = w_webhook (ct_world (core t0)) !! id). by rewrite Ht2. }
    reflexivity.
  - simpl. congruence.
  - eexists. by split; [|reflexivity].
Qed.

Lemma core_stored t t' s : core t' = core t -> stored (ct_world t') s = stored (ct_world t) s.
Proof.
  intros E. assert (forall t, stored (ct_world (core t)) s = stored (ct_world t) s) as Hsame by (intros u; by destruct s).
  by rewrite <-Hsame, E, Hsame.
Qed.

Lemma in_decrypt_plain s envelope version t0 t :
  consistent t0 -> core t = core t0 -> (forall id, s <> SlotInstance id) -> stored (ct_world t0) s = Some (envelope, version) ->
  exists p t', in_world (decrypt keyring envelope version (aad_of s)) [] t = (Ok p, t', []) /\ core t' = core t0 /\
    w_snapshot (ct_world t') = w_snapshot (ct_world t).
Proof.
  intros Hc Ht Hs Hst. pose proof (core_consistent _ _ Ht Hc) as Hct. pose proof (con_readable _ Hct) as Hr.
  rewrite <-(core_stored _ _ s Ht) in Hst. destruct (readable_secret _ _ Hr s Hs) as [p Hp]; [by rewrite Hst|].
  exists p. eexists. split; [|split; [|]].
  - apply in_world_plain. apply decrypt_plain; [apply Hr|apply Hr|exact Hst|exact Hp].
  - by rewrite <-Ht.
  - done.
Qed.

Lemma webhook_signing_plain t0 id existing input values :
  consistent t0 -> w_webhook (ct_world t0) !! id = Some existing ->
  exists r t1, webhook_signing keyring id existing input values [] t0 = (Ok r, t1, []) /\ core t1 = core t0 /\
    w_snapshot (ct_world t1) = w_snapshot (ct_world t0).
Proof.
  intros Hc Hrow. unfold webhook_signing. destruct (_ && _); [by do 2 eexists|].
  assert (exists v t1, (if absent (wi_SigningValue input) then in_world (DecryptWebhookSigningValue keyring id (wt_SigningValueCiphertext existing) (wt_SigningKeyVersion existing))
    else mret (wvs_signingValue values)) [] t0 = (Ok v, t1, []) /\ core t1 = core t0 /\ w_snapshot (ct_world t1) = w_snapshot (ct_world t0))
    as (v & t1 & E1 & Ht1 & Hsn1).
  { destruct (absent (wi_SigningValue input)); [|by do 2 eexists]. apply (in_decrypt_plain (SlotSigningValue id) _ _ t0 t0); [done..|]. simpl. by rewrite Hrow. }
  assert (exists h t2, (if absent (wi_SignatureHeader input) then in_world (DecryptWebhookSignatureHeader keyring id (wt_SignatureHeaderCiphertext existing) (wt_SigningKeyVersion existing))
    else mret (wvs_signatureHeader values)) [] t1 = (Ok h, t2, []) /\ core t2 = core t0 /\ w_snapshot (ct_world t2) = w_snapshot (ct_world t1))
    as (h & t2 & E2 & Ht2 & Hsn2).
  { destruct (absent (wi_SignatureHeader input)); [|by do 2 eexists]. apply (in_decrypt_plain (SlotSignatureHeader id) _ _ t0 t1); [done..|]. simpl. by rewrite Hrow. }
  destruct (in_encrypt_plain v (webhookCredentialAAD id webhookSigningValuePurpose) "Webhook signing value" t0 t2 Hc Ht2) as (value & t3 & E3 & Ht3 & Hsn3).
  destruct (in_encrypt_plain h (webhookCredentialAAD id webhookSignatureHeaderPurpose) "Webhook signature header" t0 t3 Hc Ht3)
    as (header & t4 & E4 & Ht4 & Hsn4).
  do 2 eexists. split; [|split; [exact Ht4|congruence]]. unfold mbind, DB_bind. rewrite E1, E2.
  unfold EncryptWebhookSigningValue, EncryptWebhookSignatureHeader. by rewrite E3, E4.
Qed.

Lemma webhook_row_there t id target : consistent t -> w_webhook (ct_world t) !! id = Some target -> exists saved, webhook_row t id = Some (target, saved).
Proof.
  intros Hc Ht. assert (is_Some (ct_webhook_saved t !! id)) as [saved Hs].
  { apply elem_of_dom. rewrite (con_webhook_saved _ Hc). apply elem_of_dom. eauto. }
  exists saved. unfold webhook_row. by rewrite Ht, Hs.
Qed.

Lemma UpdateWebhookTarget_served t0 id input :
  parsers_ok -> consistent t0 -> actorID ∈ ct_user t0 -> valid t0 (ChangeWebhook id (Some input)) ->
  served (UpdateWebhookTarget ParseURL keyring store now actorID id (Some input)) t0.
Proof.
  intros Hparse Hc Hactor ([values Hvalues] & [existing Hrow]).
  destruct (webhook_signing_plain t0 id existing input values Hc Hrow) as ([[value header] version] & t1 & E & Ht1 & Hsn).
  destruct (webhook_row_there t0 id existing Hc Hrow) as [[[createdAt updatedAt] updatedBy] Hread]. pose proof (readable_keyed _ _ (con_readable _ Hc) id existing Hrow) as Hid.
  unfold UpdateWebhookTarget, ChannelQueries.UpdateWebhookTarget. rewrite Hvalues.
  eapply (finish_served t0 t1 _ _ _ _ _); [| | |].
  - unfold or_404, GetWebhookTarget. unfold mbind at 1, DB_bind at 1. unfold attempt, statement at 1. simpl next_fate. cbv beta iota zeta. rewrite Hread.
    cbv beta iota. unfold mbind at 1, DB_bind at 1. rewrite E. reflexivity.
  - cbv beta. rewrite (validWebhookInput_checked input) by done. rewrite (known_user t1 t0) by done. simpl wt_ID. rewrite (core_webhook _ _ Ht1), Hid, Hread.
    reflexivity.
  - exact Hsn.
  - eexists. by split; [|reflexivity].
Qed.

Lemma DeleteWebhookTarget_served t0 id : valid t0 (RemoveWebhook id) -> served (DeleteWebhookTarget store id) t0.
Proof.
  intros Hv. exists R204, (refreshed (remove_webhook id t0)). split; [|split; [done|by apply refreshed_snapshot]].
  unfold DeleteWebhookTarget, ChannelQueries.DeleteWebhookTarget, mbind, DB_bind, statement. simpl. rewrite bool_decide_true by done. simpl.
  by rewrite refresh_plain.
Qed.

(** * Only valid requests are carried out *)

Lemma triple_same_core {A} (m : DB ChannelTables A) t0 E `{!Keeps core m} :
  (forall t, E t) -> triple (fun t => core t = core t0) m (fun _ t => core t = core t0) E.
Proof.
  intros HE fs t Ht. pose proof (keeps fs t (f := core) (m := m)) as Hk. unfold tables_after in Hk.
  destruct (m fs t) as [[[a|e] t'] fs']; simpl in *; [congruence|done].
Qed.

Lemma triple_true {A} (P : ChannelTables -> Prop) (m : DB ChannelTables A) (Q : A -> ChannelTables -> Prop) :
  (forall a t, Q a t) -> triple P m Q (fun _ => True).
Proof. intros HQ fs t _. destruct (m fs t) as [[[a|e] t'] fs']; [apply HQ|done]. Qed.

Lemma triple_pre {A} (P P' : ChannelTables -> Prop) (m : DB ChannelTables A) Q E : triple P' m Q E -> (forall t, P t -> P' t) -> triple P m Q E.
Proof. intros Hm HP fs t Ht. by apply Hm, HP. Qed.

Lemma smtp_auth_valid t0 input :
  triple (fun t => t = t0) (smtp_auth keyring input) (fun r _ => match r with inl _ => valid_auth t0 input | inr _ => True end) (fun _ => True).
Proof.
  unfold smtp_auth, valid_auth. case_bool_decide as Hauth; [apply triple_ret; by left|].
  case_bool_decide as Huser; [by apply triple_ret|]. destruct (non_empty _) eqn:Hpw.
  { apply triple_true. intros [r|] t; [|done]. right. auto. }
  eapply triple_bind; [apply attempt_read; apply _|]. intros [[existing saved]|e]; simpl; [|by apply triple_ret].
  destruct (smtp_AuthKeyVersion existing); simpl; [|by apply triple_ret]. destruct (smtp_AuthCiphertext existing) as [envelope|] eqn:He; simpl; [|by apply triple_ret].
  destruct (negb _); [by apply triple_ret|]. apply triple_ret. intros t [-> Hread]. right. split; [done|]. right. exists existing.
  rewrite He. split; [|done]. clear -Hread. unfold ChannelQueries.GetSMTPChannel, statement in Hread. simpl in Hread.
  destruct (w_smtp (ct_world t0)), (ct_smtp_saved t0); by simplify_eq/=.
Qed.

Lemma UpdateSMTPChannel_valid t0 input :
  triple (fun t => t = t0) (UpdateSMTPChannel ParseAddress keyring store now actorID input)
    (fun r _ => carried_out r = true -> valid t0 (SaveSMTP input)) (fun _ => True).
Proof.
  destruct input as [input|]; [|by apply triple_ret]. unfold UpdateSMTPChannel.
  destruct (_ || (65535 <? _)) eqn:Hport; [by apply triple_ret|]. rewrite !orb_false_iff, !negb_false_iff, bool_decide_eq_false in Hport.
  destruct Hport as ((((Hfrom & Hrecipient) & Hhost) & Hlow) & Hhigh).
  destruct (bool_decide (smtp_in_AuthType input ∈ _)) eqn:Ha; [|by apply triple_ret].
  destruct (bool_decide (smtp_in_TlsMode input ∈ _)) eqn:Ht; [|by apply triple_ret]. apply bool_decide_eq_true in Ha, Ht.
  eapply triple_bind; [apply smtp_auth_valid|]. intros [[[username ciphertext] version]|body]; [|by apply triple_ret].
  apply triple_at. intros t1 Hauth. apply triple_true. intros r t _. simpl. split_and!; (done || lia).
Qed.

Lemma CreateWebhookTarget_valid t0 id input :
  triple (fun t => t = t0) (CreateWebhookTarget ParseURL keyring store now actorID id input)
    (fun r _ => carried_out r = true -> valid t0 (AddWebhook id input)) (fun _ => True).
Proof.
  destruct input as [input|]; [|by apply triple_ret]. unfold CreateWebhookTarget. simpl valid.
  destruct (wi_SigningValue input) as [v|]; [|by apply triple_ret]. destruct (wi_SignatureHeader input) as [h|]; [|by apply triple_ret]. simpl orb. cbv iota.
  destruct (validWebhookInput ParseURL input) as [values|]; [|by apply triple_ret].
  apply (triple_pre _ (fun t => core t = core t0)); [|by intros t ->].
  eapply triple_bind; [by apply (triple_same_core _ t0 (fun _ => True))|]. intros [value version].
  eapply triple_bind; [by apply (triple_same_core _ t0 (fun _ => True))|]. intros [header version'].
  apply triple_at. intros t2 Ht2. apply step_statement. intros [row saved] t3 E. apply triple_true. intros r t _.
  split_and!; [done..|]. cbv beta in E. destruct (negb _); [done|]. case_bool_decide as Hfree; [done|]. simpl in Hfree.
  apply eq_None_not_Some. intros Hin. apply Hfree. change (is_Some (w_webhook (ct_world (core t2)) !! id)). by rewrite Ht2.
Qed.

Lemma UpdateWebhookTarget_valid t0 id input :
  triple (fun t => t = t0) (UpdateWebhookTarget ParseURL keyring store now actorID id input)
    (fun r _ => carried_out r = true -> valid t0 (ChangeWebhook id input)) (fun _ => True).
Proof.
  destruct input as [input|]; [|by apply triple_ret]. unfold UpdateWebhookTarget, or_404. simpl valid.
  destruct (validWebhookInput ParseURL input) as [values|]; [|by apply triple_ret].
  eapply triple_bind; [apply attempt_read; apply _|]. intros [[existing saved]|e]; [|by destruct (is_no_rows e); [apply triple_ret|apply triple_fail]].
  apply triple_at. intros t1 [-> Hread]. apply triple_true. intros r t _. split; [done|].
  unfold GetWebhookTarget, statement, webhook_row in Hread. simpl in Hread. destruct (w_webhook (ct_world t0) !! id); [done|]. by simpl in Hread.
Qed.

Lemma administer_valid c t0 : triple (fun t => t = t0) (administer c) (fun r _ => carried_out r = true -> valid t0 c) (fun _ => True).
Proof.
  destruct c as [input|id input|id input|id]; simpl administer.
  - eapply triple_bind; [apply UpdateSMTPChannel_valid|]. intros [] ; by apply triple_ret.
  - eapply triple_bind; [apply CreateWebhookTarget_valid|]. intros []; by apply triple_ret.
  - eapply triple_bind; [apply UpdateWebhookTarget_valid|]. intros []; by apply triple_ret.
  - unfold DeleteWebhookTarget, ChannelQueries.DeleteWebhookTarget. apply step_statement. intros n t1. case_bool_decide as Hin; intros [= <- <-].
    + by apply triple_true.
    + by apply triple_ret.
Qed.

(** On a server without faults exactly the valid requests on channels are
    carried out, and then the channels are those asked for, and the snapshot the server keeps for when its
    database is gone is up to date with them wherever it may be written. *)
Theorem valid_channel_changes_are_carried_out (c : change) (t : ChannelTables) :
  parsers_ok -> consistent t -> actorID ∈ ct_user t ->
  valid t c <->
  exists answer t', administer c [] t = (Ok answer, t', []) /\ carried_out answer = true /\
    book_of (ct_world t') = enter c (book_of (ct_world t)) /\ snapshot_after t t'.
Proof.
  intros Hparse Hc Hactor. split.
  - intros Hv. assert (served (administer c) t) as (answer & t' & E & Hr & Hsn).
    { assert (forall B (m : DB ChannelTables (response B)), served m t -> served (r ← m; mret (without_body r)) t) as Hbody.
      { intros B m (r & t' & E & Hr & Hsn). exists (without_body r), t'. unfold mbind, DB_bind. rewrite E. by destruct r. }
      destruct c as [[input|]|id [input|]|id [input|]|id]; try done; simpl.
      - by apply Hbody, UpdateSMTPChannel_served.
      - by apply Hbody, CreateWebhookTarget_served.
      - by apply Hbody, UpdateWebhookTarget_served.
      - by apply DeleteWebhookTarget_served. }
    exists answer, t'. pose proof (administer_answered c t Hc [] t eq_refl) as Ha. rewrite E in Ha. simpl in Ha. unfold answered in Ha.
    assert (carried_out answer = true) as Hr' by (by destruct answer). rewrite Hr' in Ha. destruct Ha as [_ Hb]. done.
  - intros (answer & t' & E & Hr & _). pose proof (administer_valid c t [] t eq_refl) as Hv. rewrite E in Hv. by apply Hv.
Qed.
End Saved.

Module SavedDemo.
Import ChannelsDemo.

(** The webhook under a new name, with its signing as it was, and with a new signing value. *)
Definition rename : change := ChangeWebhook "w-1" (Some (MkWebhookInput false "operations" None None "https://chat.example.org/hook")).
Definition resign : change := ChangeWebhook "w-1" (Some (MkWebhookInput true "chat" None (Some " fresh ") "https://chat.example.org/hook")).

Definition lost : fault := MkFault (ErrNew "connection reset") eq_refl.

(** The name is saved, but the acknowledgement of the statement is lost. *)
Definition renamed := administer parse_address parse_url keyring (Some true) 2000 "u1" rename [Runs; LostAck lost] both.
Definition resigned := administer parse_address parse_url keyring (Some true) 2000 "u1" resign [] both.

Lemma both_consistent : consistent keyring both.
Proof.
  split; [apply world_readable|apply world_paired|vm_compute; reflexivity..| |].
  - intros c id Hc. assert (n_policy_channel (ct_notify both) = []) as E by (vm_compute; reflexivity). rewrite E in Hc. by apply elem_of_nil in Hc.
  - intros k d id Hd. assert (n_delivery (ct_notify both) = ∅) as E by (vm_compute; reflexivity). by rewrite E, lookup_empty in Hd.
Qed.

Lemma demo_parsers : parsers_ok parse_address parse_url.
Proof.
  split; [|done]. intros s. unfold parse_address. destruct (String.prefix "@" s); [done|]. simpl. by destruct (not_blank s).
Qed.
End SavedDemo.

Lemma administration_keeps_the_channel_book_witness :
  SavedDemo.renamed.1.1 = Err (ErrNew "connection reset") /\
  consistent (H := ChannelsDemo.crypto) ChannelsDemo.keyring SavedDemo.renamed.1.2 /\
  book_webhook (book_of (H := ChannelsDemo.crypto) (ct_world SavedDemo.renamed.1.2)) =
    {["w-1" := (false, "operations", MkWebhookConfig "https://chat.example.org/hook" "signed" "X-Signature")]}.
Proof.
  pose proof (administration_keeps_the_channel_book (H := ChannelsDemo.crypto) ChannelsDemo.parse_address ChannelsDemo.parse_url
    ChannelsDemo.keyring (Some true) 2000 "u1" SavedDemo.rename [Runs; LostAck SavedDemo.lost] ChannelsDemo.both SavedDemo.both_consistent) as Hbook.
  split; [vm_compute; reflexivity|]. split; [|vm_compute; reflexivity].
  unfold SavedDemo.renamed. destruct (administer _ _ _ _ _ _ _ _ _) as [[r t'] fs']. apply Hbook.
Defined.

Lemma valid_channel_changes_are_carried_out_witness :
  exists answer t', SavedDemo.resigned = (Ok answer, t', []) /\ carried_out answer = true /\
    snapshot_after (Some true) ChannelsDemo.both t' /\
    book_webhook (book_of (H := ChannelsDemo.crypto) (ct_world t')) =
      {["w-1" := (true, "chat", MkWebhookConfig "https://chat.example.org/hook" "fresh" "X-Signature")]}.
Proof.
  destruct (proj1 (valid_channel_changes_are_carried_out (H := ChannelsDemo.crypto) ChannelsDemo.parse_address ChannelsDemo.parse_url
    ChannelsDemo.keyring (Some true) 2000 "u1" SavedDemo.resign ChannelsDemo.both SavedDemo.demo_parsers SavedDemo.both_consistent
    ltac:(vm_compute; reflexivity))) as (answer & t' & E & Hr & Hb & Hsn).
  - split; eexists; vm_compute; reflexivity.
  - exists answer, t'. split; [exact E|]. split; [exact Hr|]. split; [exact Hsn|]. rewrite Hb. vm_compute. reflexivity.
Defined.
