(* ===== verification/FailuresInv.v ===== *)
(** What the view of failing channels shows ([GetChannelFailures]): exactly the channels
    that have failed since their last delivery, each with its own failures. *)

From S2P Require Import Prelude Db Text Responses Notify Credentials CredentialsInv ChannelQueries Channels ChannelsInv.

(** * Sorting and grouping *)

Lemma failureLess_in_order l : in_order failureLess (sort_by failureLess l).
Proof.
  apply sort_by_in_order; unfold failureLess.
  - intros x y z. destruct (Z.eqb_spec (tf_FailedAt x) (tf_FailedAt y)), (Z.eqb_spec (tf_FailedAt y) (tf_FailedAt z)),
      (Z.eqb_spec (tf_FailedAt x) (tf_FailedAt z)); simpl; rewrite ?Z.ltb_lt; try lia. apply string_ltb_trans.
  - intros x. rewrite Z.eqb_refl. simpl. apply string_ltb_irrefl.
  - intros x y z. destruct (Z.eqb_spec (tf_FailedAt y) (tf_FailedAt x)), (Z.eqb_spec (tf_FailedAt z) (tf_FailedAt y)),
      (Z.eqb_spec (tf_FailedAt z) (tf_FailedAt x)); simpl; rewrite ?Z.ltb_ge; try lia. apply string_ltb_neg_trans.
Qed.

Lemma StronglySorted_weaker {A} (R S : A -> A -> Prop) l : StronglySorted R l -> (forall x y, R x y -> S x y) -> StronglySorted S l.
Proof. intros Hl HRS. induction Hl as [|x l Hl IH Hx]; constructor; [done|]. eapply Forall_impl; eauto. Qed.

(** The rows of one group among those of all groups. *)
Lemma filter_groups {K A} (P : A -> Prop) `{!forall x, Decision (P x)} (g : K -> list A) keys key :
  NoDup keys -> key ∈ keys -> (forall x, x ∈ g key -> P x) -> (forall k x, k ∈ keys -> k <> key -> x ∈ g k -> ~ P x) ->
  filter P (keys ≫= g) = g key.
Proof.
  intros Hnd Hin Hown Hother. induction Hnd as [|k keys Hk Hnd IH]; [by apply elem_of_nil in Hin|]. simpl. rewrite filter_app.
  apply elem_of_cons in Hin as [->|Hin].
  - rewrite filter_all by done. rewrite filter_none; [by rewrite app_nil_r|]. intros x (k' & Hx & Hk')%list_elem_of_bind.
    apply (Hother k'); [by right| |done]. congruence.
  - rewrite (filter_none P (g k)) by (intros x; apply Hother; [left|congruence]). apply IH; [done|].
    intros k' x Hk'. apply Hother. by right.
Qed.

(** * Failures *)

(** A delivery that has failed for good, with its last attempt: its channel is still there, and nothing has
    arrived there since. *)
Definition still_failing (t : ChannelTables) (f : TerminalFailure) : Prop :=
  exists k d a failedAt,
    n_delivery (ct_notify t) !! k = Some d /\ nd_Status d = DeliveryFailed /\ nd_CompletedAt d = Some failedAt /\
    a ∈ n_attempt (ct_notify t) /\ na_NotificationID a = nd_ID d /\ na_RetryCount a = nd_AttemptCount d - 1 /\
    (nd_Channel d = "WEBHOOK" -> exists id, nd_ChannelTargetID d = Some id /\ is_Some (w_webhook (ct_world t) !! id)) /\
    (forall k' sent sentAt, n_delivery (ct_notify t) !! k' = Some sent -> nd_Status sent = DeliverySent ->
       nd_Channel sent = nd_Channel d -> nd_ChannelTargetID sent = nd_ChannelTargetID d -> nd_CompletedAt sent = Some sentAt -> sentAt <= failedAt) /\
    f = MkTerminalFailure (nd_ID d) (nd_Channel d) (nd_ChannelTargetID d) (nd_Target d) failedAt (na_FailureReason a) (nd_AttemptCount d - 1).

Lemma elem_of_rows {V} (m : gmap string V) (v : V) : v ∈ (map_to_list m).*2 <-> exists k, m !! k = Some v.
Proof.
  rewrite list_elem_of_fmap. split.
  - intros ([k v'] & -> & Hin). exists k. by apply elem_of_map_to_list in Hin.
  - intros [k Hk]. exists (k, v). split; [done|]. by apply elem_of_map_to_list.
Qed.

Lemma target_there_spec t d :
  target_there t d = true <-> (nd_Channel d = "WEBHOOK" -> exists id, nd_ChannelTargetID d = Some id /\ is_Some (w_webhook (ct_world t) !! id)).
Proof.
  unfold target_there. destruct (decide (nd_Channel d = "WEBHOOK")) as [Hw|Hw].
  - rewrite (bool_decide_true _ Hw). simpl. destruct (nd_ChannelTargetID d) as [id|]; [rewrite bool_decide_eq_true|]; naive_solver.
  - rewrite (bool_decide_false _ Hw). simpl. tauto.
Qed.

Lemma sent_since_spec n d failedAt :
  nd_CompletedAt d = Some failedAt ->
  sent_since n d = false <->
  forall k sent sentAt, n_delivery n !! k = Some sent -> nd_Status sent = DeliverySent -> nd_Channel sent = nd_Channel d ->
    nd_ChannelTargetID sent = nd_ChannelTargetID d -> nd_CompletedAt sent = Some sentAt -> sentAt <= failedAt.
Proof.
  intros Hd. unfold sent_since. rewrite bool_decide_eq_false, Exists_exists. unfold completed_after. rewrite Hd. split.
  - intros Hno k sent sentAt Hk Hs Hc Ht Hat. destruct (Z.le_gt_cases sentAt failedAt) as [|Hlt]; [done|]. destruct Hno. exists sent.
    split; [apply elem_of_rows; eauto|]. split_and!; [done..|]. rewrite Hat. lia.
  - intros Hall (sent & [k Hk]%elem_of_rows & Hs & Hc & Ht & Hlate). destruct (nd_CompletedAt sent) as [sentAt|] eqn:Hat; [|done].
    specialize (Hall k sent sentAt Hk Hs Hc Ht Hat). lia.
Qed.

Lemma elem_of_terminal_failures t f : f ∈ terminal_failures t <-> still_failing t f.
Proof.
  unfold terminal_failures, still_failing. rewrite list_elem_of_bind. split.
  - intros (d & Hf & [k Hk]%elem_of_rows). unfold failures_of in Hf. destruct (nd_CompletedAt d) as [failedAt|] eqn:Hd; [|by apply elem_of_nil in Hf].
    destruct (_ && _) eqn:Hcond; [|by apply elem_of_nil in Hf]. rewrite !andb_true_iff, bool_decide_eq_true, negb_true_iff in Hcond.
    destruct Hcond as [[Hs Ht] Hsent]. apply list_elem_of_fmap in Hf as (a & -> & Ha). unfold attempts_of in Ha.
    rewrite !list_elem_of_filter in Ha. destruct Ha as (Hr & Hid & Ha). rewrite target_there_spec in Ht.
    rewrite (sent_since_spec _ _ _ Hd) in Hsent. by exists k, d, a, failedAt.
  - intros (k & d & a & failedAt & Hk & Hs & Hd & Ha & Hid & Hr & Ht & Hsent & ->). exists d. split; [|apply elem_of_rows; eauto].
    unfold failures_of. rewrite Hd. rewrite <-target_there_spec in Ht. rewrite <-(sent_since_spec _ _ _ Hd) in Hsent.
    rewrite (bool_decide_true _ Hs), Ht, Hsent. simpl. apply list_elem_of_fmap. exists a. split; [done|]. unfold attempts_of.
    by rewrite !list_elem_of_filter.
Qed.

(** The answer as the two statements give it. *)
Lemma mapM_failures {A B} (f : A -> result B) l rows : mapM f l = Ok rows -> Forall2 (fun a b => f a = Ok b) l rows.
Proof.
  revert rows. induction l as [|a l IH]; intros rows; simpl; [intros [= <-]; constructor|].
  destruct (f a) as [b|e] eqn:Eb; [|done]. simpl. destruct (mapM f l) as [bs|e]; [|done]. simpl. intros [= <-]. constructor; auto.
Qed.

Definition key_of_summary (c : ChannelFailureSummary) : string * option string := (cfs_Channel c, cfs_TargetId c).

(** The channels of deliveries: SMTP has no target, and webhooks that are there are uuids. *)
Record channels_named (t : ChannelTables) : Prop := MkChannelsNamed {
  named_uuids : uuids (ct_world t);
  named_channel : forall k d, n_delivery (ct_notify t) !! k = Some d ->
    nd_Channel d = SMTPChannelKey /\ nd_ChannelTargetID d = None \/ nd_Channel d = "WEBHOOK";
}.

Lemma elem_of_failing_keys t key : key ∈ failing_keys t <-> exists f, still_failing t f /\ failure_key f = key.
Proof.
  unfold failing_keys. rewrite elem_of_sort_by, elem_of_remove_dups, list_elem_of_fmap. setoid_rewrite elem_of_terminal_failures. naive_solver.
Qed.

Lemma elem_of_failures_at t key f : f ∈ failures_at t key <-> still_failing t f /\ failure_key f = key.
Proof. unfold failures_at. rewrite elem_of_sort_by, list_elem_of_filter, elem_of_terminal_failures. tauto. Qed.

Lemma failure_channel t f :
  channels_named t -> still_failing t f ->
  failure_key f = (SMTPChannelKey, None) \/ exists id, failure_key f = ("WEBHOOK", Some id) /\ is_Some (w_webhook (ct_world t) !! id).
Proof.
  intros [_ Hn] (k & d & a & failedAt & Hk & _ & _ & _ & _ & _ & Ht & _ & ->). unfold failure_key. simpl.
  destruct (Hn k d Hk) as [[-> ->]|Hw]; [by left|]. right. destruct (Ht Hw) as (id & -> & Hid). rewrite Hw. eauto.
Qed.

(** The text that groups the records keeps the channels apart. *)
Lemma channelFailureKey_inj t f g :
  channels_named t -> still_failing t f -> still_failing t g ->
  channelFailureKey (tf_Channel f) (tf_ChannelTargetID f) = channelFailureKey (tf_Channel g) (tf_ChannelTargetID g) -> failure_key f = failure_key g.
Proof.
  intros Hn Hf Hg. destruct (failure_channel t f Hn Hf) as [Ef|(i & Ef & Hi)], (failure_channel t g Hn Hg) as [Eg|(j & Eg & Hj)];
    rewrite Ef, Eg; unfold failure_key in Ef, Eg; injection Ef as -> ->; injection Eg as -> ->; simpl; intros E; [done| | |].
  - symmetry in E. by apply webhook_key_smtp in E.
  - by apply webhook_key_smtp in E.
  - apply webhook_key_inj in E. by rewrite (named_uuids _ Hn i j Hi Hj E).
Qed.

Lemma byTarget_recent t key :
  channels_named t -> key ∈ failing_keys t ->
  byTarget (failing_keys t ≫= fun key => take recent_failures (failures_at t key)) (channelFailureKey key.1 key.2) =
  failure_record <$> take recent_failures (failures_at t key).
Proof.
  intros Hn Hin. unfold byTarget. f_equal.
  assert (forall k f, f ∈ take recent_failures (failures_at t k) -> still_failing t f /\ failure_key f = k) as Hrow
    by (intros k f Hf; apply elem_of_failures_at; by eapply subseteq_take).
  apply (filter_groups _ (fun key => take recent_failures (failures_at t key))); [| |intros f Hf|intros k f Hk Hne Hf E].
  - unfold failing_keys. rewrite sort_by_perm. apply NoDup_remove_dups.
  - done.
  - by destruct (Hrow key f Hf) as [_ <-].
  - destruct (Hrow k f Hf) as [Hsf Ef]. apply elem_of_failing_keys in Hin as (g & Hg & <-). destruct Hne. rewrite <-Ef.
    by apply (channelFailureKey_inj t).
Qed.

(** What is shown of one channel: [latest] and [older] are all its failures. *)
Definition shows_channel (t : ChannelTables) (c : ChannelFailureSummary) : Prop :=
  exists latest older, let all := latest :: older in
    all ≡ₚ filter (fun f => failure_key f = key_of_summary c) (terminal_failures t) /\
    StronglySorted (fun f g => tf_FailedAt g <= tf_FailedAt f) all /\
    cfs_RecentFailureCount c = Z.of_nat (length all) /\ cfs_RecentFailures c = failure_record <$> take 20 all /\
    cfs_Target c = tf_Target latest /\ cfs_LastFailedAt c = tf_FailedAt latest /\ Some (cfs_LastFailureReason c) = tf_FailureReason latest.

Lemma GetChannelFailures_Ok fs t r t' fs' :
  GetChannelFailures fs t = (Ok r, t', fs') ->
  t' = t /\ exists rows, Forall2 (fun key row => failure_summary t key = Ok row) (failing_keys t) rows /\
    let channels := channel_failures rows (failing_keys t ≫= fun key => take recent_failures (failures_at t key)) in
    r = R200 (negb (bool_decide (channels = [])), channels).
Proof.
  intros E. apply (propagates (m := GetChannelFailures)) in E. unfold GetChannelFailures, ListActiveChannelFailureSummaries, ListRecentActiveChannelFailures in E.
  unfold mbind at 1, DB_bind at 1, statement at 1 in E. simpl next_fate in E. cbv iota beta zeta in E.
  destruct (mapM (failure_summary t) (failing_keys t)) as [rows|e] eqn:Erows; [|done]. simpl in E. unfold mbind, DB_bind in E. simpl in E.
  injection E as <- <-. split; [done|]. exists rows. split; [by apply mapM_failures|done].
Qed.

Lemma failure_summary_key t key row : failure_summary t key = Ok row -> (fs_Channel row, fs_ChannelTargetID row) = key.
Proof. unfold failure_summary. cbv zeta. destruct (failures_at t key) as [|f l]; [done|]. destruct (tf_FailureReason f); [|done]. intros [= <-]. by destruct key. Qed.

Lemma channel_failures_keys rows records :
  key_of_summary <$> channel_failures rows records = (fun row => (fs_Channel row, fs_ChannelTargetID row)) <$> rows.
Proof. unfold channel_failures. by rewrite <-list_fmap_compose. Qed.

Lemma summary_shows t key row :
  channels_named t -> key ∈ failing_keys t -> failure_summary t key = Ok row ->
  shows_channel t (MkFailureSummary (fs_Channel row) (fs_LastFailedAt row) (fs_LastFailureReason row) (fs_RecentFailureCount row)
    (byTarget (failing_keys t ≫= fun key => take recent_failures (failures_at t key)) (channelFailureKey (fs_Channel row) (fs_ChannelTargetID row)))
    (fs_Target row) (fs_ChannelTargetID row)).
Proof.
  intros Hn Hin Hrow. pose proof (failure_summary_key t key row Hrow) as Hkey. unfold shows_channel, key_of_summary. simpl. rewrite Hkey.
  assert (channelFailureKey (fs_Channel row) (fs_ChannelTargetID row) = channelFailureKey key.1 key.2) as -> by (by rewrite <-Hkey).
  rewrite (byTarget_recent t key) by done. unfold failure_summary in Hrow. cbv zeta in Hrow. unfold recent_failures.
  assert (failures_at t key ≡ₚ filter (fun f => failure_key f = key) (terminal_failures t)) as Hperm by apply sort_by_perm.
  pose proof (failureLess_in_order (filter (fun f => failure_key f = key) (terminal_failures t))) as Hsorted. fold (failures_at t key) in Hsorted.
  destruct (failures_at t key) as [|latest older]; [done|]. destruct (tf_FailureReason latest) as [reason|] eqn:Hreason; [|done]. injection Hrow as <-.
  exists latest, older. split_and!; [exact Hperm| |done|done|done|done|done]. apply (StronglySorted_weaker _ _ _ Hsorted). intros f g. unfold failureLess. simpl.
  destruct (Z.eqb_spec (tf_FailedAt g) (tf_FailedAt f)); simpl; rewrite ?Z.ltb_ge; lia.
Qed.

(** C25. The view of failing channels shows each channel once, and exactly the channels with a delivery that
    failed for good and after which nothing arrived there, as long as they are configured; each with the number of its failures, the last one, and
    its own latest twenty, the most recent first. *)
Theorem channel_failures_exact (fs fs' : list fate) (t t' : ChannelTables) (r : response (bool * list ChannelFailureSummary)) :
  channels_named t -> GetChannelFailures fs t = (Ok r, t', fs') ->
  t' = t /\ (forall f, f ∈ terminal_failures t <-> still_failing t f) /\
  exists any channels, r = R200 (any, channels) /\ (any = true <-> exists f, still_failing t f) /\
    NoDup (key_of_summary <$> channels) /\
    (forall key, key ∈ key_of_summary <$> channels <-> exists f, still_failing t f /\ failure_key f = key) /\
    Forall (shows_channel t) channels.
Proof.
  intros Hn E. destruct (GetChannelFailures_Ok _ _ _ _ _ E) as (-> & rows & Hrows & ->). split; [done|]. split; [intros f; apply elem_of_terminal_failures|].
  set (channels := channel_failures _ _). assert (key_of_summary <$> channels = failing_keys t) as Hkeys.
  { unfold channels. rewrite channel_failures_keys. clear -Hrows. induction Hrows as [|key row keys rows Hrow Hrows IH]; [done|]. simpl.
    f_equal; [by apply (failure_summary_key t)|exact IH]. }
  exists (negb (bool_decide (channels = []))), channels. rewrite Hkeys. split_and!; [done| | | |].
  - rewrite negb_true_iff, bool_decide_eq_false. split.
    + intros Hne. destruct channels as [|c rest]; [done|]. assert (key_of_summary c ∈ failing_keys t) as (f & Hf & _)%elem_of_failing_keys by (rewrite <-Hkeys; left).
      eauto.
    + intros [f Hf] Hnil. assert (failure_key f ∈ failing_keys t) as Hin by (apply elem_of_failing_keys; eauto).
      rewrite <-Hkeys, Hnil in Hin. by apply elem_of_nil in Hin.
  - unfold failing_keys. rewrite sort_by_perm. apply NoDup_remove_dups.
  - intros key. apply elem_of_failing_keys.
  - unfold channels, channel_failures. apply Forall_fmap, Forall_forall. intros row Hrow.
    apply list_elem_of_lookup in Hrow as [i Hi]. destruct (Forall2_lookup_r _ _ _ i row Hrows Hi) as (key & Hkey & Hsum).
    apply (summary_shows t key); [done| |done]. by eapply list_elem_of_lookup_2.
Qed.


Module FailuresDemo.
Definition delivery (id channel : string) (target : option string) (status : DeliveryStatus) (at_ : Time) : NotificationDelivery :=
  MkNotificationDelivery id None EventTest channel "dba@example.org" None ∅ status 1 0 None 0 (Some at_) target.
Definition attempt (id reason : string) : NotificationAttempt := MkNotificationAttempt id 0 false (Some reason) 0.

(** Mail failed twice; the webhook failed and then took a message. *)
Definition notify : NotifyTables :=
  MkNotifyTables ∅ [] ∅ ∅ ∅ [] [] [] [] ∅ None ∅ [] []
    (list_to_map [("d1", delivery "d1" "SMTP" None DeliveryFailed 100); ("d2", delivery "d2" "SMTP" None DeliveryFailed 300);
       ("d3", delivery "d3" "WEBHOOK" (Some "w-1") DeliveryFailed 100); ("d4", delivery "d4" "WEBHOOK" (Some "w-1") DeliverySent 200)])
    [attempt "d1" "timeout"; attempt "d2" "refused"; attempt "d3" "status 500"] ∅ [].
Definition tables : ChannelTables :=
  MkChannelTables (MkWorld ∅ None {["w-1" := MkWebhookTarget "w-1" "chat" true "https://chat.example.org/hook" "" "" 1]} (MkDisk None ∅ 0) None 0)
    notify None {["w-1" := (0, 0, None)]} ∅.

Definition view : response (bool * list ChannelFailureSummary) :=
  R200 (true, [MkFailureSummary "SMTP" 300 "refused" 2
    [MkFailureRecord 300 "refused" 0 "dba@example.org"; MkFailureRecord 100 "timeout" 0 "dba@example.org"] "dba@example.org" None]).
End FailuresDemo.

Lemma channel_failures_exact_witness :
  GetChannelFailures [] FailuresDemo.tables = (Ok FailuresDemo.view, FailuresDemo.tables, []) /\
  ~ exists f, still_failing FailuresDemo.tables f /\ failure_key f = ("WEBHOOK", Some "w-1").
Proof.
  assert (GetChannelFailures [] FailuresDemo.tables = (Ok FailuresDemo.view, FailuresDemo.tables, [])) as E by (vm_compute; reflexivity).
  split; [exact E|]. destruct (channel_failures_exact [] [] FailuresDemo.tables FailuresDemo.tables FailuresDemo.view) as
    (_ & _ & any & channels & Hview & _ & _ & Hkeys & _); [|exact E|].
  - split; [|].
    + intros i j [t Ht] [u Hu] _. simpl in Ht, Hu. apply lookup_singleton_Some in Ht as [<- _]. by apply lookup_singleton_Some in Hu as [<- _].
    + intros k d Hd. apply (map_Forall_lookup_1 (fun _ d => nd_Channel d = SMTPChannelKey /\ nd_ChannelTargetID d = None \/ nd_Channel d = "WEBHOOK")
        (n_delivery (ct_notify FailuresDemo.tables)) k d); [|exact Hd]. apply (bool_decide_unpack _). vm_compute. exact I.
  - rewrite <-Hkeys. injection Hview as <- <-. simpl. intros Hin%list_elem_of_singleton. discriminate.
Defined.
