(* ===== verification/MetricSeries.v ===== *)
(** Reading the samples of metrics over the HTTP API ([internal/httpapi/metric_series.go],
    [metric_step.go], [metric_database_dimension.go], and the reasons of
    [internal/httpapi/handler.go] why there are none). *)

From S2P Require Import Prelude Float64 Db Text Partitions Responses Dictionary Catalog MetricMath Capability ControlPlane Samples CollectState.

(** * Steps *)

(** A step of an answer: samples as they are, or the averages of buckets of so many
    microseconds. *)
Record metricStep : Type := MkMetricStep {
  step_name : string;
  step_bucket : Z;
  step_raw : bool;
}.

Definition bucket_step (name : string) (width : Duration) : metricStep := MkMetricStep name (width / Microsecond) false.

(** [span] of [chooseMetricStep]. *)
Definition auto_step (span : Duration) : string := if span <=? Hour then "15s" else if span <=? 6 * Hour then "1m" else "5m".

Definition chooseMetricStep (requested : string) (from to : Time) : result metricStep :=
  let span := TimeSub to from in
  if span <=? 0 then Err (ErrNew "from must be before to")
  else if 30 * 24 * Hour <? span then Err (ErrNew "time range must not exceed 30 days")
  else
    let requested := if bool_decide (requested = EmptyString) || bool_decide (requested = "auto") then auto_step span else requested in
    if bool_decide (requested = "raw") then
      if 6 * Hour <? span then Err (ErrNew "raw step requires a range of 6 hours or less") else Ok (MkMetricStep "raw" 0 true)
    else if bool_decide (requested = "15s") then Ok (bucket_step "15s" (15 * Second))
    else if bool_decide (requested = "1m") then Ok (bucket_step "1m" Minute)
    else if bool_decide (requested = "5m") then Ok (bucket_step "5m" (5 * Minute))
    else Err (ErrNew ("unsupported step " +:+ quoted requested)).

(** * Tables *)

(** The collection tables; [instance.agent_expected] with the column
    [agent_metrics_enabled] of the instance's configuration; [instance.engine]. *)
Record ReadTables : Type := MkReadTables {
  rt_collect : Tables;
  rt_agent : gmap string (bool * bool);
  rt_engine : gmap string Engine;
}.

(** [GetCollectionPause], of which only the flag is read. *)
Definition collection_paused (instanceID : string) : DB ReadTables bool :=
  statement (fun t => match t_paused (rt_collect t) !! instanceID with Some paused => Ok (paused, t) | None => Err ErrNoRows end).

Definition control_plane_row (t : ReadTables) (instanceID : string) : result ControlPlaneRow :=
  match rt_agent t !! instanceID, t_paused (rt_collect t) !! instanceID with
  | Some (expected, enabled), Some _ =>
      let server := t_collect_state (rt_collect t) !! (instanceID, "SERVER_DIRECT") in
      let agent := t_collect_state (rt_collect t) !! (instanceID, "AGENT") in
      Ok (MkControlPlaneRow expected enabled (server ≫= source_last_success_at) (server ≫= source_last_error_code)
        (agent ≫= source_last_report_at) (agent ≫= source_last_error_code))
  | _, _ => Err ErrNoRows
  end.

Definition control_plane_facts (instanceID : string) : DB ReadTables ControlPlaneFacts :=
  statement (fun t => match ReadControlPlaneFacts (control_plane_row t instanceID) with Ok facts => Ok (facts, t) | Err e => Err e end).

(** The row of a task, of which a query reads one or several columns. *)
Definition task_row (instanceID : string) (taskID : TaskID) : DB ReadTables TaskState :=
  statement (fun t => match t_task_state (rt_collect t) !! (instanceID, taskID) with Some row => Ok (row, t) | None => Err ErrNoRows end).

(** The row with [COALESCE(config.interval_seconds, $3)]. *)
Definition task_row_interval (instanceID : string) (taskID : TaskID) (interval : Z) : DB ReadTables (TaskState * Z) :=
  statement (fun t =>
    match t_task_state (rt_collect t) !! (instanceID, taskID) with
    | Some row => Ok ((row, default interval (t_task_config (rt_collect t) !! (instanceID, taskID))), t)
    | None => Err ErrNoRows
    end).

(** Stored states are the value their JSON stands for. *)
Definition capability_row (instanceID : string) : DB ReadTables (Time * CapabilityStates) :=
  statement (fun t => match t_capability (rt_collect t) !! instanceID with Some row => Ok (row, t) | None => Err ErrNoRows end).

Record SeriesForMetricRow : Type := MkSeriesForMetricRow {
  sfm_SeriesID : Z;
  sfm_DatabaseName : string;
  sfm_Labels : gmap string string;
}.

Definition series_row (instanceID : string) (metricID : MetricID) (entry : SeriesKey * (Z * Time)) : option SeriesForMetricRow :=
  let '((instance, m, database, labels), (id, _)) := entry in
  if bool_decide (instance = instanceID) && bool_decide (m = metricID) then Some (MkSeriesForMetricRow id database labels) else None.

(** [ORDER BY database_name, series_id] *)
Definition seriesLess (a b : SeriesForMetricRow) : bool :=
  string_ltb (sfm_DatabaseName a) (sfm_DatabaseName b) ||
  (bool_decide (sfm_DatabaseName a = sfm_DatabaseName b) && (sfm_SeriesID a <? sfm_SeriesID b)).

Definition SeriesForMetric (instanceID : string) (metricID : MetricID) : DB ReadTables (list SeriesForMetricRow) :=
  query (fun t => sort_by seriesLess (omap (series_row instanceID metricID) (map_to_list (t_series (rt_collect t))))).

Record metricPoint : Type := MkMetricPoint {
  mp_ts : Time;
  mp_value : float64;
}.

Definition pointLess (a b : metricPoint) : bool := mp_ts a <? mp_ts b.

(** The samples of a series with [ts >= $2 AND ts <= $3], by time. *)
Definition points_in_range (t : ReadTables) (seriesID : Z) (from to : Time) : list metricPoint :=
  sort_by pointLess
    ((fun row => MkMetricPoint (sample_ts row) (sample_value row)) <$>
      filter (fun row => sample_series_id row = seriesID /\ timestamptz from <= sample_ts row <= timestamptz to) (sample_rows (t_samples (rt_collect t)))).

Definition PointsInRange (seriesID : Z) (from to : Time) : DB ReadTables (list metricPoint) :=
  query (fun t => points_in_range t seriesID from to).

(** ['2000-01-01'::timestamptz]: the offset of a time zone is a multiple of every
    bucket, so that the zone of the session does not matter. *)
Definition bin_origin : Time := 946684800 * Second.

(** [date_bin] with a stride in microseconds. *)
Definition date_bin (bucket : Z) (ts : Time) : Time := bin_origin + (ts - bin_origin) / (bucket * Microsecond) * (bucket * Microsecond).

(** * Reasons *)

Definition AGENTOFFLINE : string := "AGENT_OFFLINE".
Definition COLLECTIONFAILED : string := "COLLECTION_FAILED".
Definition COLLECTIONPAUSED : string := "COLLECTION_PAUSED".
Definition COUNTERRESET : string := "COUNTER_RESET".
Definition DBUNREACHABLE : string := "DB_UNREACHABLE".
Definition FEATUREDISABLED : string := "FEATURE_DISABLED".
Definition NODATAINRANGE : string := "NO_DATA_IN_RANGE".
Definition NOSAMPLESYET : string := "NO_SAMPLES_YET".
Definition NOTAPPLICABLEENGINE : string := "NOT_APPLICABLE_ENGINE".
Definition NOTAPPLICABLEROLE : string := "NOT_APPLICABLE_ROLE".
Definition PERMISSIONDENIED : string := "PERMISSION_DENIED".
Definition STALE : string := "STALE".

(** * Answers *)

(** One element of [Series]: its labels, and its points as time and value. *)
Record APISeries : Type := MkAPISeries {
  as_Labels : gmap string string;
  as_Points : list (float64 * float64);
}.

Record MetricSeriesEntry : Type := MkEntry {
  mse_Metric : option string;
  mse_Series : list APISeries;
  mse_Slot : option string;
  mse_Unavailability : option string;
  mse_Unit : string;
}.

Record MetricSeriesResponse : Type := MkSeriesResponse {
  msr_From : Time;
  msr_Metrics : list MetricSeriesEntry;
  msr_Step : string;
  msr_To : Time;
}.

(** [api.InstanceMetricSeries] *)
Record InstanceMetricSeries : Type := MkInstanceSeries {
  ims_InstanceId : string;
  ims_Metrics : list MetricSeriesEntry;
}.

Record InstancesMetricSeriesResponse : Type := MkInstancesResponse {
  imr_From : Time;
  imr_Instances : list InstanceMetricSeries;
  imr_Step : string;
  imr_To : Time;
}.

Definition missing (metricID : MetricID) (reason : string) : MetricSeriesEntry :=
  MkEntry (Some metricID) [] None (Some reason) (UnitFor Metrics metricID).

Definition notApplicableSlotEntry (slot : SemanticSlot) : MetricSeriesEntry :=
  MkEntry None [] (Some slot) (Some NOTAPPLICABLEENGINE) EmptyString.

Definition agentMetricUnavailability (facts : ControlPlaneFacts) (agentStatus : string) : option string :=
  if negb (AgentExpected facts) then Some NOTAPPLICABLEROLE
  else if negb (AgentMetricsEnabled facts) then Some FEATUREDISABLED
  else if bool_decide (agentStatus = AgentStatusOffline) then Some AGENTOFFLINE
  else if bool_decide (agentStatus = AgentStatusPermissionDenied) then Some PERMISSIONDENIED
  else if bool_decide (agentStatus = AgentStatusError) then Some COLLECTIONFAILED
  else None.

Record fetchedSeries : Type := MkFetchedSeries {
  fs_databaseName : string;
  fs_labels : gmap string string;
  fs_points : list metricPoint;
}.

Record metricCollectionState : Type := MkCollectionState {
  mcs_failed : bool;
  mcs_stale : bool;
}.

(** [api.CapabilitySnapshotEntry] *)
Record CapabilitySnapshotEntry : Type := MkSnapshotEntry {
  cse_AffectedMetricCount : Z;
  cse_CapabilityId : CapabilityID;
  cse_Class : string;
  cse_FixHint : option string;
  cse_NaReason : option string;
  cse_ObservedAt : option Time;
  cse_Status : CapabilityStatus;
}.

Section Reading.
(** [avg(double precision)] of the values of a bucket, in the order of their times. *)
Context (avg : list float64 -> float64).

Definition BucketedPointsInRange (bucket : Z) (seriesID : Z) (from to : Time) : DB ReadTables (list metricPoint) :=
  query (fun t =>
    let points := points_in_range t seriesID from to in
    (fun bin => MkMetricPoint bin (avg (mp_value <$> filter (fun p => date_bin bucket (mp_ts p) = bin) points))) <$>
      sort_by Z.ltb (remove_dups ((fun p => date_bin bucket (mp_ts p)) <$> points))).

Definition readSeriesPoints (seriesID : Z) (step : metricStep) (from to : Time) : DB ReadTables (list metricPoint) :=
  if step_raw step then PointsInRange seriesID from to else BucketedPointsInRange (step_bucket step) seriesID from to.

Definition readMetricSeries (instanceID : string) (metricID : MetricID) (step : metricStep) (from to : Time)
    : DB ReadTables (list fetchedSeries) :=
  rows ← SeriesForMetric instanceID metricID;
  Responses.collect_rows (fun row =>
    points ← readSeriesPoints (sfm_SeriesID row) step from to;
    mret (MkFetchedSeries (sfm_DatabaseName row) (sfm_Labels row) points)) rows.

(** ** One series for the instance *)

Definition byTime (points : list metricPoint) : gmap Time float64 := foldl (fun m p => <[mp_ts p := mp_value p]> m) ∅ points.

Definition weights_of (series : list fetchedSeries) : gmap string (gmap Time float64) :=
  foldl (fun m item => <[fs_databaseName item := byTime (fs_points item)]> m) ∅ series.

(** [weights] is [None] where values are not weighted. *)
Definition weighted_point (weights : option (gmap string (gmap Time float64))) (database : string) (p : metricPoint) : option DatabasePoint :=
  match weights with
  | None => Some (MkDatabasePoint (mp_ts p) (mp_value p) (f64_of_Z 1))
  | Some weights => (fun weight => MkDatabasePoint (mp_ts p) (mp_value p) weight) <$> (weights !! database ≫= lookup (mp_ts p))
  end.

Definition aggregateSeriesToInstance (instanceID : string) (metricID : MetricID) (step : metricStep) (from to : Time)
    (series : list fetchedSeries) : DB ReadTables (list metricPoint) :=
  let aggregation := AggregationFor Metrics metricID in
  let converge weights :=
    (fun p => MkMetricPoint (ip_At p) (ip_Value p)) <$>
      AggregateSeriesToInstance aggregation
        ((fun item => MkDatabaseSeries (fs_databaseName item) (omap (weighted_point weights (fs_databaseName item)) (fs_points item))) <$> series) in
  if bool_decide (aggregation = AggregationWeightedAverage) then
    match WeightMetricFor Metrics metricID with
    | None => mret []
    | Some weightMetric => weightSeries ← readMetricSeries instanceID weightMetric step from to; mret (converge (Some (weights_of weightSeries)))
    end
  else mret (converge None).

(** ** State of the collection *)

(** [errors.Is(err, pgx.ErrNoRows)] with steps of its own. *)
Definition or_no_rows {A B} (none : DB ReadTables B) (m : DB ReadTables A) (k : A -> DB ReadTables B) : DB ReadTables B :=
  r ← attempt m;
  match r with Ok a => k a | Err e => if is_no_rows e then none else fail e end.

(** The clock is read once; the second reading of the code comes right after. *)
Definition currentCapabilitySnapshot (instanceID : string) (now : Time) : DB ReadTables (CapabilityStates * option Time) :=
  or_no_rows (mret (ProjectCapabilitySnapshot ∅ ZeroTime now, None)) (capability_row instanceID) (fun '(observedAt, states) =>
    mret (ProjectCapabilitySnapshot states observedAt now, Some observedAt)).

Definition text_pointer (text : string) : option string := if bool_decide (text = EmptyString) then None else Some text.

Definition snapshot_entry (states : CapabilityStates) (observedAt : option Time) (declaration : Capability) : CapabilitySnapshotEntry :=
  MkSnapshotEntry (CapabilityAffectedMetricCount (capability_ID declaration)) (capability_ID declaration) (capability_Class declaration)
    (text_pointer (capability_FixHint declaration)) (text_pointer (capability_NAReason declaration)) observedAt (state_of states (capability_ID declaration)).

Definition ListCapabilitySnapshot (now : Time) (id : string) : DB ReadTables (response (list CapabilitySnapshotEntry)) :=
  '(states, observedAt) ← currentCapabilitySnapshot id now;
  mret (R200 (snapshot_entry states observedAt <$> Capabilities)).

Definition metricCounterReset (instanceID : string) (metricID : MetricID) : DB ReadTables bool :=
  match TaskForMetric metricID with
  | None => mret false
  | Some task =>
      or_no_rows (mret false) (task_row instanceID (task_ID task)) (fun row =>
        mret (bool_decide (last_error_code row = Some errorCodeCounterReset)))
  end.

Definition readMetricCollectionState (instanceID : string) (metricID : MetricID) (completenessWatermark now requestedTo : Time)
    : DB ReadTables metricCollectionState :=
  match TaskForMetric metricID with
  | None => mret (MkCollectionState false false)
  | Some task =>
      or_no_rows (mret (MkCollectionState false false)) (task_row_interval instanceID (task_ID task) (int32 (Z.quot (task_Interval task) Second)))
        (fun '(row, intervalSeconds) =>
          let failed := match last_result row with
            | Some result => bool_decide (result ∈ [resultFailed; resultTimedOut; resultSkippedBackpressure; resultBackoff]) &&
                bool_decide (last_error_code row <> Some errorCodeCounterReset)
            | None => false end in
          let freshness := Z.quot (int64 (int64 (intervalSeconds * Second) * 5)) 2 in
          mret (MkCollectionState failed
            (negb (IsZero completenessWatermark) && (freshness <? TimeSub now completenessWatermark) &&
             negb (Before requestedTo (TimeAdd now (- freshness))))))
  end.

Definition pgProbe : TaskID := "pg.probe".

(** The checks on a metric collected from the monitored server: a reason, or whether a
    counter was reset and how its task is doing. [loaded] are the capability states if they have been read. *)
Definition server_state (instanceID : string) (metricID : MetricID) (facts : ControlPlaneFacts) (now to : Time) (loaded : option CapabilityStates)
    : DB ReadTables ((string + (bool * metricCollectionState)) * option CapabilityStates) :=
  let rest :=
    states ← (match loaded with Some states => mret states | None => r ← currentCapabilitySnapshot instanceID now; mret r.1 end);
    match MetricCapabilityBlockReason metricID states with
    | Some reason => mret (inl (string_of_block reason), Some states)
    | None =>
        counterReset ← metricCounterReset instanceID metricID;
        collectionState ← readMetricCollectionState instanceID metricID (CollectorLastSuccessAt facts) now to;
        mret (inr (counterReset, collectionState), Some states)
    end in
  match EngineFor Metrics metricID with
  | Some engine =>
      if bool_decide (engine = EngineAgnostic) then mret (inr (false, MkCollectionState false false), loaded)
      else
        or_no_rows rest (task_row instanceID pgProbe) (fun row =>
          if bool_decide (last_result row ∈ [Some resultFailed; Some resultTimedOut]) then mret (inl DBUNREACHABLE, loaded) else rest)
  | None => mret (inr (false, MkCollectionState false false), loaded)
  end.

Definition api_point (p : metricPoint) : float64 * float64 := (f64_of_Z (Unix (mp_ts p)), mp_value p).

(** One series of an entry; a series without points is left out. *)
Definition api_series (found : fetchedSeries) : option APISeries :=
  match fs_points found with
  | [] => None
  | points =>
      Some (MkAPISeries (if bool_decide (fs_databaseName found = EmptyString) then fs_labels found
                         else <[DimensionDatabase := fs_databaseName found]> (fs_labels found)) (api_point <$> points))
  end.

Definition reason_of (counterReset : bool) (state : metricCollectionState) (storedSeriesCount : nat) : string :=
  if counterReset then COUNTERRESET else if mcs_failed state then COLLECTIONFAILED else if mcs_stale state then STALE
  else if bool_decide (storedSeriesCount = 0%nat) then NOSAMPLESYET else NODATAINRANGE.

(** The entry of a metric that is not blocked. *)
Definition stored_entry (instanceID : string) (metricID : MetricID) (step : metricStep) (from to : Time) (byDatabaseDetail : bool)
    (counterReset : bool) (state : metricCollectionState) : DB ReadTables MetricSeriesEntry :=
  stored ← readMetricSeries instanceID metricID step from to;
  series ← (if bool_decide (LevelFor Metrics metricID = LevelDatabase) && negb byDatabaseDetail then
      aggregated ← aggregateSeriesToInstance instanceID metricID step from to stored;
      mret [MkFetchedSeries EmptyString ∅ aggregated]
    else mret stored);
  let shown := omap api_series series in
  mret (MkEntry (Some metricID) shown None
    (if bool_decide (shown = []) then Some (reason_of counterReset state (length stored)) else None) (UnitFor Metrics metricID)).

Definition control_plane_entry (metricID : MetricID) (facts : ControlPlaneFacts) (now from to : Time) : MetricSeriesEntry :=
  match ProjectControlPlaneMetric metricID facts now with
  | None => missing metricID (if bool_decide (CollectorLastErrorCode facts = EmptyString) then NOSAMPLESYET else COLLECTIONFAILED)
  | Some projected =>
      if Before (projection_ObservedAt projected) from || After (projection_ObservedAt projected) to then missing metricID NODATAINRANGE
      else
        MkEntry (Some metricID)
          [MkAPISeries (projection_Labels projected) [(f64_of_Z (Unix (projection_ObservedAt projected)), projection_Value projected)]]
          None None (UnitFor Metrics metricID)
  end.

(** One turn of the loop of [metricSeriesEntries], with the capability states it has read. *)
Definition metric_entry (instanceID : string) (paused : bool) (facts : ControlPlaneFacts) (now : Time) (step : metricStep) (from to : Time)
    (byDatabaseDetail : bool) (loaded : option CapabilityStates) (metricID : MetricID) : DB ReadTables (MetricSeriesEntry * option CapabilityStates) :=
  if paused then mret (missing metricID COLLECTIONPAUSED, loaded)
  else if bool_decide (ProducerFor Metrics metricID = ProducerControlPlane) then mret (control_plane_entry metricID facts now from to, loaded)
  else
    match (if bool_decide (ProducerFor Metrics metricID = ProducerAgent) then agentMetricUnavailability facts (AgentStatusAt facts now) else None) with
    | Some reason => mret (missing metricID reason, loaded)
    | None =>
        '(checked, loaded) ← server_state instanceID metricID facts now to loaded;
        match checked with
        | inl reason => mret (missing metricID reason, loaded)
        | inr (counterReset, state) =>
            entry ← stored_entry instanceID metricID step from to byDatabaseDetail counterReset state;
            mret (entry, loaded)
        end
    end.

Fixpoint entries_loop (entry : option CapabilityStates -> MetricID -> DB ReadTables (MetricSeriesEntry * option CapabilityStates))
    (loaded : option CapabilityStates) (metricIDs : list MetricID) : DB ReadTables (list MetricSeriesEntry) :=
  match metricIDs with
  | [] => mret []
  | metricID :: rest =>
      '(first, loaded) ← entry loaded metricID;
      entries ← entries_loop entry loaded rest;
      mret (first :: entries)
  end.

(** [now] is the reading of the clock. *)
Definition metricSeriesEntries (now : Time) (instanceID : string) (metricIDs : list MetricID) (step : metricStep) (from to : Time)
    (byDatabaseDetail : bool) : DB ReadTables (list MetricSeriesEntry) :=
  paused ← collection_paused instanceID;
  facts ← control_plane_facts instanceID;
  entries_loop (metric_entry instanceID paused facts now step from to byDatabaseDetail) None metricIDs.

(** * Handlers *)

(** [requestedStep], [byDatabase], [requestedMetrics] and [requestedSlots]: a parameter that
    is not given. *)
Definition requestedStep (step : option string) : string := default "auto" step.
Definition byDatabase (requested : option bool) : bool := default false requested.
Definition requestedMetrics (metrics : option (list MetricID)) : list MetricID := default [] metrics.
Definition requestedSlots (slots : option (list SemanticSlot)) : list SemanticSlot := default [] slots.

Definition step_error (e : error) : APIError :=
  errorBody "VALIDATION_FAILED" (match e with ErrNew message => message | _ => EmptyString end).

Definition GetMetricSeries (now : Time) (id : string) (metrics : list MetricID) (step : option string) (from to : Time) (requestedByDatabase : option bool)
    : DB ReadTables (response MetricSeriesResponse) :=
  match chooseMetricStep (requestedStep step) from to with
  | Err e => mret (R400 (step_error e))
  | Ok step =>
      entries ← metricSeriesEntries now id metrics step from to (byDatabase requestedByDatabase);
      mret (R200 (MkSeriesResponse from entries (step_name step) to))
  end.

Definition with_slot (slot : SemanticSlot) (entry : MetricSeriesEntry) : MetricSeriesEntry :=
  MkEntry (mse_Metric entry) (mse_Series entry) (Some slot) (mse_Unavailability entry) (mse_Unit entry).

Fixpoint slotSeriesEntries (now : Time) (instanceID : string) (engine : Engine) (slots : list SemanticSlot) (step : metricStep) (from to : Time)
    : DB ReadTables (list MetricSeriesEntry) :=
  match slots with
  | [] => mret []
  | slot :: rest =>
      first ← (match ResolveSlot Metrics slot engine with
        | inl resolved => entries ← metricSeriesEntries now instanceID [resolved] step from to false; mret (with_slot slot <$> entries)
        | inr ErrSlotNotApplicable => mret [notApplicableSlotEntry slot]
        | inr _ => fail (ErrNew "resolve semantic slot")
        end);
      entries ← slotSeriesEntries now instanceID engine rest step from to;
      mret (first ++ entries)
  end.

(** [ListInstanceEngines] *)
Definition instanceEngines (instanceIDs : list string) : DB ReadTables (gmap string Engine) :=
  query (fun t => filter (fun entry => entry.1 ∈ instanceIDs) (rt_engine t)).

Definition GetInstancesMetricSeries (now : Time) (instanceIDs : list string) (metrics : option (list MetricID)) (slots : option (list SemanticSlot))
    (step : option string) (from to : Time) : DB ReadTables (response InstancesMetricSeriesResponse) :=
  match chooseMetricStep (requestedStep step) from to with
  | Err e => mret (R400 (step_error e))
  | Ok step =>
      if bool_decide (requestedMetrics metrics = []) && bool_decide (requestedSlots slots = [])
      then mret (R400 (errorBody "VALIDATION_FAILED" "metric 与 slot 至少要给一个"))
      else
        engines ← instanceEngines instanceIDs;
        instances ← Responses.collect_rows (fun instanceID =>
          entries ← metricSeriesEntries now instanceID (requestedMetrics metrics) step from to false;
          slotEntries ← slotSeriesEntries now instanceID (default EmptyString (engines !! instanceID)) (requestedSlots slots) step from to;
          mret (MkInstanceSeries instanceID (entries ++ slotEntries))) instanceIDs;
        mret (R200 (MkInstancesResponse from instances (step_name step) to))
  end.
End Reading.
