(* ===== verification/MetricSeriesInv.v ===== *)
(** What reading the samples of metrics promises: a number or the reason why there is
    none, the same answer for one instance as for many, and points that are the stored
    samples. *)

From S2P Require Import Prelude Float64 Db Text Partitions Responses Dictionary Catalog MetricMath Capability ControlPlane Samples CollectState MetricSeries.

(** * Code that only reads *)

(** Code that changes nothing; whatever the faults, an answer is that of the server without
    faults, and so is an empty one. *)
Class Reads {A} (m : DB ReadTables A) : Prop :=
  reads : forall fs t,
    match m fs t with
    | (Ok a, t', _) => t' = t /\ m [] t = (Ok a, t, [])
    | (Err e, t', _) => t' = t /\ (is_no_rows e = true -> exists e', is_no_rows e' = true /\ m [] t = (Err e', t, []))
    end.

#[export] Instance ret_reads {A} (a : A) : Reads (mret a).
Proof. done. Qed.

#[export] Instance fail_reads {A} e : Reads (fail e : DB ReadTables A).
Proof. intros fs t. split; [done|]. intros He. by exists e. Qed.

Lemma statement_reads {A} (effect : ReadTables -> result (A * ReadTables)) :
  (forall t a t', effect t = Ok (a, t') -> t' = t) -> Reads (statement effect).
Proof.
  intros Heff fs t. pose proof (statement_cases effect fs t) as Hc. pose proof (statement_keeps (fun t => t) effect Heff fs t) as Hk. unfold tables_after in Hk.
  destruct (statement effect fs t) as [[[a|e] t'] fs']; simpl in *; subst t'; (split; [done|]).
  - unfold statement. simpl. by rewrite Hc.
  - intros He. destruct (Hc He) as [E _]. exists e. split; [done|]. unfold statement. simpl. by rewrite E.
Qed.

#[export] Instance query_reads {A} (f : ReadTables -> A) : Reads (query f).
Proof. apply statement_reads. by intros t a t' [= _ <-]. Qed.

#[export] Instance bind_reads {A B} (m : DB ReadTables A) (k : A -> DB ReadTables B) : Reads m -> (forall a, Reads (k a)) -> Reads (m ≫= k).
Proof.
  intros Hm Hk fs t. specialize (Hm fs t). unfold mbind, DB_bind. destruct (m fs t) as [[[a|e] t'] fs'].
  - destruct Hm as [-> E]. rewrite E. apply Hk.
  - destruct Hm as [-> E]. split; [done|]. intros He. destruct (E He) as (e' & He' & ->). by exists e'.
Qed.

#[export] Instance or_no_rows_reads {A B} none (m : DB ReadTables A) (k : A -> DB ReadTables B) :
  Reads none -> Reads m -> (forall a, Reads (k a)) -> Reads (or_no_rows none m k).
Proof.
  intros Hn Hm Hk fs t. specialize (Hm fs t). unfold or_no_rows, mbind, DB_bind, attempt. destruct (m fs t) as [[[a|e] t'] fs'].
  - destruct Hm as [-> E]. rewrite E. apply Hk.
  - destruct Hm as [-> E]. destruct (is_no_rows e) eqn:He; [|simpl; split; [done|congruence]]. destruct (E eq_refl) as (e' & He' & ->). rewrite He'. apply Hn.
Qed.

#[export] Hint Extern 0 (Reads _) => (progress intros) : typeclass_instances.
#[export] Hint Extern 1 (Reads (if ?b then _ else _)) => destruct b : typeclass_instances.
#[export] Hint Extern 1 (Reads (match ?o with _ => _ end)) => destruct o : typeclass_instances.
#[export] Hint Extern 2 (Reads (let '(_, _) := ?p in _)) => destruct p : typeclass_instances.

#[export] Instance collect_rows_reads {A B} (f : A -> DB ReadTables B) rows : (forall row, Reads (f row)) -> Reads (Responses.collect_rows f rows).
Proof. intros Hf. induction rows as [|row rows IH]; simpl; apply _. Qed.

Ltac one_row := apply statement_reads; intros ? ? ?; repeat case_match; by intros; simplify_eq.

#[export] Instance collection_paused_reads id : Reads (collection_paused id).
Proof. one_row. Qed.
#[export] Instance control_plane_facts_reads id : Reads (control_plane_facts id).
Proof. one_row. Qed.
#[export] Instance task_row_reads id task : Reads (task_row id task).
Proof. one_row. Qed.
#[export] Instance task_row_interval_reads id task interval : Reads (task_row_interval id task interval).
Proof. one_row. Qed.
#[export] Instance capability_row_reads id : Reads (capability_row id).
Proof. one_row. Qed.

Section Proofs.
Context (avg : list float64 -> float64).

#[export] Instance readMetricSeries_reads id m step from to : Reads (readMetricSeries avg id m step from to).
Proof. unfold readMetricSeries, SeriesForMetric, readSeriesPoints, PointsInRange, BucketedPointsInRange. apply _. Qed.

#[export] Instance aggregate_reads id m step from to series : Reads (aggregateSeriesToInstance avg id m step from to series).
Proof. unfold aggregateSeriesToInstance. apply _. Qed.

#[export] Instance stored_entry_reads id m step from to by_ reset state : Reads (stored_entry avg id m step from to by_ reset state).
Proof. unfold stored_entry. apply _. Qed.

#[export] Instance currentCapabilitySnapshot_reads id now : Reads (currentCapabilitySnapshot id now).
Proof. unfold currentCapabilitySnapshot. apply _. Qed.

#[export] Instance ListCapabilitySnapshot_reads now id : Reads (ListCapabilitySnapshot now id).
Proof. unfold ListCapabilitySnapshot. apply _. Qed.

#[export] Instance server_state_reads id m facts now to loaded : Reads (server_state id m facts now to loaded).
Proof. unfold server_state, metricCounterReset, readMetricCollectionState. cbv zeta. apply _. Qed.

#[export] Instance metric_entry_reads id paused facts now step from to by_ loaded m : Reads (metric_entry avg id paused facts now step from to by_ loaded m).
Proof. unfold metric_entry. apply _. Qed.

#[export] Instance entries_loop_reads entry loaded metrics : (forall loaded m, Reads (entry loaded m)) -> Reads (entries_loop entry loaded metrics).
Proof. intros He. revert loaded. induction metrics as [|m metrics IH]; intros loaded; simpl; apply _. Qed.

#[export] Instance metricSeriesEntries_reads now id metrics step from to by_ : Reads (metricSeriesEntries avg now id metrics step from to by_).
Proof. unfold metricSeriesEntries. apply _. Qed.

#[export] Instance slotSeriesEntries_reads now id engine slots step from to : Reads (slotSeriesEntries avg now id engine slots step from to).
Proof. induction slots as [|slot slots IH]; simpl; apply _. Qed.

#[export] Instance GetMetricSeries_reads now id metrics step from to by_ : Reads (GetMetricSeries avg now id metrics step from to by_).
Proof. unfold GetMetricSeries. apply _. Qed.

#[export] Instance GetInstancesMetricSeries_reads now ids metrics slots step from to : Reads (GetInstancesMetricSeries avg now ids metrics slots step from to).
Proof. unfold GetInstancesMetricSeries, instanceEngines. apply _. Qed.

Lemma reads_Ok {A} (m : DB ReadTables A) `{!Reads m} fs t a t' fs' : m fs t = (Ok a, t', fs') -> t' = t /\ m [] t = (Ok a, t, []).
Proof. intros E. pose proof (reads (m := m) fs t) as Hr. by rewrite E in Hr. Qed.

Lemma reads_bind {A B} (m : DB ReadTables A) (k : A -> DB ReadTables B) `{!Reads m} t b fs :
  (m ≫= k) [] t = (Ok b, t, fs) -> exists a, m [] t = (Ok a, t, []) /\ k a [] t = (Ok b, t, fs).
Proof.
  unfold mbind, DB_bind. pose proof (reads (m := m) [] t) as Hr. destruct (m [] t) as [[[a|e] t'] fs']; [|done].
  destruct Hr as [-> E]. injection E as ->. eauto.
Qed.

(** * A number or a reason *)

(** An entry has points in each of its series, or no series and a reason. *)
Definition explained (e : MetricSeriesEntry) : Prop :=
  (mse_Series e = [] <-> is_Some (mse_Unavailability e)) /\ Forall (fun s => as_Points s <> []) (mse_Series e).

(** The entry of a requested metric. *)
Definition entry_of (m : MetricID) (e : MetricSeriesEntry) : Prop := explained e /\ mse_Metric e = Some m /\ mse_Slot e = None.

(** The entry of a requested slot: of a metric, or of none where the engine has none. *)
Definition slot_entry (slot : SemanticSlot) (e : MetricSeriesEntry) : Prop :=
  explained e /\ mse_Slot e = Some slot /\ (mse_Metric e = None -> mse_Unavailability e = Some NOTAPPLICABLEENGINE).

Lemma missing_entry m reason : entry_of m (missing m reason).
Proof. split; [|done]. split; [|constructor]. split; [by eexists|done]. Qed.

Lemma control_plane_entry_of m facts now from to : entry_of m (control_plane_entry m facts now from to).
Proof.
  unfold control_plane_entry. destruct (ProjectControlPlaneMetric m facts now) as [p|]; [|apply missing_entry].
  destruct (_ || _); [apply missing_entry|]. split; [|done]. split; [|by repeat constructor]. simpl. split; [done|by intros []].
Qed.

Definition anything {A} : DB ReadTables A -> (A -> Prop) -> Prop := fun m Q => forall fs t a t' fs', m fs t = (Ok a, t', fs') -> Q a.

Lemma anything_bind {A B} (m : DB ReadTables A) (k : A -> DB ReadTables B) (R : A -> Prop) Q :
  anything m R -> (forall a, R a -> anything (k a) Q) -> anything (m ≫= k) Q.
Proof.
  intros Hm Hk fs t b t' fs'. unfold mbind, DB_bind. destruct (m fs t) as [[[a|e] t1] fs1] eqn:E; [|done]. apply Hk. by apply (Hm fs t a t1 fs1).
Qed.

Lemma anything_ret {A} (a : A) (Q : A -> Prop) : Q a -> anything (mret a) Q.
Proof. by intros Ha fs t a' t' fs' [= <- _ _]. Qed.

Lemma anything_any {A} (m : DB ReadTables A) : anything m (fun _ => True).
Proof. done. Qed.

Lemma stored_entry_of id m step from to by_ reset state : anything (stored_entry avg id m step from to by_ reset state) (entry_of m).
Proof.
  unfold stored_entry. eapply anything_bind; [apply anything_any|]. intros stored _. eapply anything_bind; [apply anything_any|]. intros series _.
  apply anything_ret. split; [|done]. split; simpl.
  - case_bool_decide as Hnil; split; (done || by intros []).
  - apply Forall_forall. intros s (found & _ & Hs)%list_elem_of_omap. unfold api_series in Hs. destruct (fs_points found); [done|]. by injection Hs as <-.
Qed.

Lemma metric_entry_of id paused facts now step from to by_ loaded m :
  anything (metric_entry avg id paused facts now step from to by_ loaded m) (fun r => entry_of m r.1).
Proof.
  unfold metric_entry. destruct paused; [apply anything_ret, missing_entry|].
  case_bool_decide; [apply anything_ret, control_plane_entry_of|]. destruct (if bool_decide _ then _ else _); [apply anything_ret, missing_entry|].
  eapply anything_bind; [apply anything_any|]. intros [[reason|[reset state]] loaded'] _; [apply anything_ret, missing_entry|].
  eapply anything_bind; [apply stored_entry_of|]. intros e He. by apply anything_ret.
Qed.

Lemma entries_loop_of entry loaded metrics :
  (forall loaded m, anything (entry loaded m) (fun r => entry_of m r.1)) -> anything (entries_loop entry loaded metrics) (Forall2 entry_of metrics).
Proof.
  intros He. revert loaded. induction metrics as [|m metrics IH]; intros loaded; simpl; [apply anything_ret; constructor|].
  eapply anything_bind; [apply He|]. intros [e loaded'] Hm. eapply anything_bind; [apply IH|]. intros es Hes. apply anything_ret. by constructor.
Qed.

Lemma metricSeriesEntries_of now id metrics step from to by_ :
  anything (metricSeriesEntries avg now id metrics step from to by_) (Forall2 entry_of metrics).
Proof.
  unfold metricSeriesEntries. eapply anything_bind; [apply anything_any|]. intros paused _. eapply anything_bind; [apply anything_any|]. intros facts _.
  apply entries_loop_of. intros loaded m. apply metric_entry_of.
Qed.

Lemma slotSeriesEntries_of now id engine slots step from to :
  anything (slotSeriesEntries avg now id engine slots step from to) (Forall2 slot_entry slots).
Proof.
  induction slots as [|slot slots IH]; simpl; [apply anything_ret; constructor|].
  apply (anything_bind _ _ (fun first => exists e, first = [e] /\ slot_entry slot e)).
  - destruct (ResolveSlot Metrics slot engine) as [resolved|[]]; try by intros fs t a t' fs'.
    + eapply anything_bind; [apply metricSeriesEntries_of|]. intros es Hes. apply anything_ret.
      apply Forall2_cons_inv_l in Hes as (e & es' & (He & Hm & _) & Hnil & ->). apply Forall2_nil_inv_l in Hnil as ->.
      exists (with_slot slot e). split; [done|]. split; [exact He|]. split; [done|]. simpl. by rewrite Hm.
    + apply anything_ret. eexists. split; [done|]. split; [|done]. split; [|constructor]. split; [by eexists|done].
  - intros first (e & -> & He). eapply anything_bind; [apply IH|]. intros es Hes. apply anything_ret. by constructor.
Qed.

Lemma collect_rows_of {A B} (f : A -> DB ReadTables B) rows (Q : A -> B -> Prop) :
  (forall row, anything (f row) (Q row)) -> anything (Responses.collect_rows f rows) (Forall2 Q rows).
Proof.
  intros Hf. induction rows as [|row rows IH]; simpl; [apply anything_ret; constructor|].
  eapply anything_bind; [apply Hf|]. intros b Hb. eapply anything_bind; [apply IH|]. intros bs Hbs. apply anything_ret. by constructor.
Qed.

(** C26. Reading metrics changes nothing, and every metric and every slot that is asked for is answered in its place, for each instance
    in the order of the request: with series that all have points, or with no series and a reason why. *)
Theorem a_number_or_a_reason (now : Time) (ids : list string) (metrics : list MetricID) (slots : list SemanticSlot)
    (step : option string) (from to : Time) (fs fs' : list fate) (t t' : ReadTables) (r : InstancesMetricSeriesResponse) :
  GetInstancesMetricSeries avg now ids (Some metrics) (Some slots) step from to fs t = (Ok (R200 r), t', fs') ->
  t' = t /\
  Forall2 (fun id item => ims_InstanceId item = id /\ exists named slotted, ims_Metrics item = named ++ slotted /\
    Forall2 entry_of metrics named /\ Forall2 slot_entry slots slotted) ids (imr_Instances r).
Proof.
  intros E. split; [by apply (reads_Ok _ _ _ _ _ _ E)|]. revert E. generalize fs t t' fs'. clear fs t t' fs'. unfold GetInstancesMetricSeries.
  destruct (chooseMetricStep _ from to) as [chosen|e]; [|done]. destruct (_ && _); [done|]. intros fs t t' fs' E.
  set (Q := fun (id : string) item => _). revert fs t t' fs' E.
  enough (anything (engines ← instanceEngines ids; instances ← Responses.collect_rows (fun id =>
      entries ← metricSeriesEntries avg now id (requestedMetrics (Some metrics)) chosen from to false;
      slotEntries ← slotSeriesEntries avg now id (default EmptyString (engines !! id)) (requestedSlots (Some slots)) chosen from to;
      mret (MkInstanceSeries id (entries ++ slotEntries))) ids; mret (R200 (MkInstancesResponse from instances (step_name chosen) to)))
    (fun answer => forall r, answer = R200 r -> Forall2 Q ids (imr_Instances r))) as Hall by (intros fs t t' fs' E; by apply (Hall fs t _ t' fs' E)).
  eapply anything_bind; [apply anything_any|]. intros engines _. eapply anything_bind; [apply (collect_rows_of _ _ Q)|].
  - intros id. eapply anything_bind; [apply metricSeriesEntries_of|]. intros named Hnamed. eapply anything_bind; [apply slotSeriesEntries_of|].
    intros slotted Hslotted. apply anything_ret. split; [done|]. by exists named, slotted.
  - intros instances Hi. apply anything_ret. by intros r' [= <-].
Qed.
End Proofs.

(** * The points of a series *)

(** The samples of a series in the range of a request, as the table has them. *)
Definition samples_of (t : ReadTables) (seriesID : Z) (from to : Time) : list metricPoint :=
  (fun row => MkMetricPoint (sample_ts row) (sample_value row)) <$>
    filter (fun row => sample_series_id row = seriesID /\ timestamptz from <= sample_ts row <= timestamptz to) (sample_rows (t_samples (rt_collect t))).

Lemma points_perm t id from to : points_in_range t id from to ≡ₚ samples_of t id from to.
Proof. apply sort_by_perm. Qed.

Lemma points_within t id from to p : p ∈ points_in_range t id from to -> timestamptz from <= mp_ts p <= timestamptz to.
Proof. rewrite points_perm. intros (row & -> & [[_ Hr] _]%list_elem_of_filter)%list_elem_of_fmap. exact Hr. Qed.

Lemma points_in_order t id from to : in_order pointLess (points_in_range t id from to).
Proof. apply sort_by_in_order; unfold pointLess; intros; rewrite ?Z.ltb_lt, ?Z.ltb_ge in *; lia. Qed.

(** The points by bucket are the points: each is in the bucket of its time and in no other. *)
Lemma bins_partition (f : metricPoint -> Time) (bins : list Time) (points : list metricPoint) :
  NoDup bins -> (forall p, p ∈ points -> f p ∈ bins) -> mjoin ((fun bin => filter (fun p => f p = bin) points) <$> bins) ≡ₚ points.
Proof.
  revert points. induction bins as [|bin bins IH]; intros points Hnd Hin.
  { destruct points as [|p points]; [done|]. by destruct (proj1 (elem_of_nil _) (Hin p (list_elem_of_here _ _))). }
  apply NoDup_cons in Hnd as [Hnot Hnd]. simpl.
  transitivity (filter (fun p => f p = bin) points ++ filter (fun p => f p <> bin) points); [|apply filter_app_complement].
  f_equiv. etransitivity; [|apply (IH (filter (fun p => f p <> bin) points) Hnd)].
  - apply reflexive_eq. f_equal. apply list_fmap_ext. intros k b Hb%list_elem_of_lookup_2. rewrite list_filter_filter. apply list_filter_iff. intros p.
    split; [|by intros []]. intros Hp. split; [done|]. congruence.
  - intros p [Hne Hp]%list_elem_of_filter. apply Hin in Hp. apply elem_of_cons in Hp as [?|?]; done.
Qed.

Lemma date_bin_width bucket ts : 0 < bucket -> date_bin bucket ts <= ts < date_bin bucket ts + bucket * Microsecond.
Proof. intros Hb. unfold date_bin, Microsecond. pose proof (Z.div_mod (ts - bin_origin) (bucket * 1000)). pose proof (Z.mod_pos_bound (ts - bin_origin) (bucket * 1000)). lia. Qed.

(** The buckets a range touches. *)
Lemma bins_count bucket (lo hi : Time) (bins : list Time) :
  0 < bucket -> NoDup bins -> (forall b, b ∈ bins -> exists ts, lo <= ts <= hi /\ b = date_bin bucket ts) -> lo <= hi ->
  Z.of_nat (length bins) <= (hi - bin_origin) / (bucket * Microsecond) - (lo - bin_origin) / (bucket * Microsecond) + 1.
Proof.
  intros Hb Hnd Hin Hle. set (w := bucket * Microsecond). set (k := fun ts => (ts - bin_origin) / w).
  assert (bins ⊆+ ((fun i => bin_origin + i * w) <$> seqZ (k lo) (k hi - k lo + 1))) as Hsub%submseteq_length.
  - apply NoDup_submseteq; [done|]. intros b Hbin. destruct (Hin b Hbin) as (ts & Hts & ->). apply list_elem_of_fmap. exists (k ts). split; [done|].
    apply elem_of_seqZ. assert (0 < w) by (unfold w, Microsecond; lia). pose proof (Z.div_le_mono (lo - bin_origin) (ts - bin_origin) w).
    pose proof (Z.div_le_mono (ts - bin_origin) (hi - bin_origin) w). unfold k. lia.
  - rewrite length_fmap, length_seqZ in Hsub. assert (k lo <= k hi) by (apply Z.div_le_mono; unfold w, Microsecond; lia). unfold k in *. lia.
Qed.

Definition bins_of (bucket : Z) (points : list metricPoint) : list Time := sort_by Z.ltb (remove_dups ((fun p => date_bin bucket (mp_ts p)) <$> points)).

Lemma bins_of_elem bucket points b : b ∈ bins_of bucket points <-> exists p, p ∈ points /\ b = date_bin bucket (mp_ts p).
Proof. unfold bins_of. rewrite elem_of_sort_by, elem_of_remove_dups, list_elem_of_fmap. naive_solver. Qed.

Lemma bins_of_NoDup bucket points : NoDup (bins_of bucket points).
Proof. unfold bins_of. rewrite sort_by_perm. apply NoDup_remove_dups. Qed.

Lemma in_order_strict (l : list Z) : in_order Z.ltb l -> NoDup l -> StronglySorted Z.lt l.
Proof.
  induction 1 as [|x l Hl IH Hx]; intros Hnd; constructor; apply NoDup_cons in Hnd as [Hnot Hnd]; [by apply IH|].
  rewrite Forall_forall in *. intros y Hy. specialize (Hx y Hy). apply Z.ltb_ge in Hx. destruct (decide (x = y)) as [->|]; [done|lia].
Qed.

Lemma bins_of_sorted bucket points : StronglySorted Z.lt (bins_of bucket points).
Proof. apply in_order_strict, bins_of_NoDup. apply sort_by_in_order; intros; rewrite ?Z.ltb_lt, ?Z.ltb_ge in *; lia. Qed.

(** The most points a series has with the automatic step: thirty days of five minutes,
    and one for the end. *)
Definition auto_limit : Z := 8641.

(** What [chooseMetricStep] accepts. *)
Lemma step_bounds requested from to step :
  chooseMetricStep requested from to = Ok step ->
  0 < to - from <= 30 * 24 * Hour /\
  (step_raw step = true -> to - from <= 6 * Hour) /\
  (step_raw step = false -> 0 < step_bucket step /\ ((requested = EmptyString \/ requested = "auto") ->
     exists n, to - from <= n * (step_bucket step * Microsecond) /\ n < auto_limit)).
Proof.
  unfold chooseMetricStep, auto_step. destruct (TimeSub to from <=? 0) eqn:H1; [done|]. destruct (30 * 24 * Hour <? TimeSub to from) eqn:H2; [done|].
  apply Z.leb_gt in H1. apply Z.ltb_ge in H2.
  assert (TimeSub to from = to - from) as Hx by (unfold TimeSub, Hour, Minute, Second in *; lia). rewrite Hx in *.
  intros Hs. split; [lia|]. split.
  - intros Hraw. repeat case_bool_decide; repeat case_match; simplify_eq/=; rewrite ?Z.ltb_ge, ?Z.leb_gt in *; (lia || done).
  - intros Hraw. split; [repeat case_bool_decide; repeat case_match; by simplify_eq/=|]. intros Hauto.
    assert (bool_decide (requested = EmptyString) || bool_decide (requested = "auto") = true) as E
      by (apply orb_true_iff; rewrite !bool_decide_eq_true; exact Hauto).
    rewrite E in Hs. unfold auto_limit, bucket_step in *. destruct (to - from <=? Hour) eqn:Eh; [|destruct (to - from <=? 6 * Hour) eqn:E6];
      rewrite ?Z.leb_le, ?Z.leb_gt in *; vm_compute in Hs; injection Hs as <-; simpl; unfold Hour, Minute, Second, Microsecond in *;
      [exists 240|exists 360|exists 8640]; lia.
Qed.

(** The buckets of a range that is no longer than [n] of them. *)
Lemma bins_limit bucket t id from to n :
  0 < bucket -> from <= to -> to - from <= n * (bucket * Microsecond) ->
  Z.of_nat (length (bins_of bucket (points_in_range t id from to))) <= n + 1.
Proof.
  intros Hb Hle Hn. pose proof (timestamptz_mono from to Hle) as Hmono.
  pose proof (bins_count bucket (timestamptz from) (timestamptz to) (bins_of bucket (points_in_range t id from to)) Hb (bins_of_NoDup _ _)) as Hc.
  assert (timestamptz to - timestamptz from <= n * (bucket * Microsecond)) as Hspan.
  { unfold timestamptz, Microsecond in *. pose proof (Z.div_mod from 1000). pose proof (Z.mod_pos_bound from 1000). pose proof (Z.div_mod to 1000).
    pose proof (Z.mod_pos_bound to 1000). assert (to / 1000 - from / 1000 < n * bucket + 1) by nia. lia. }
  set (w := bucket * Microsecond) in *. assert (0 < w) by (unfold w, Microsecond; lia).
  assert ((timestamptz to - bin_origin) / w <= (timestamptz from - bin_origin) / w + n) as Hd.
  { rewrite <-Z.div_add by lia. apply Z.div_le_mono; lia. }
  etransitivity; [apply Hc; [|done]|lia]. intros b (p & Hp & ->)%bins_of_elem. exists (mp_ts p). split; [|done]. exact (points_within _ _ _ _ _ Hp).
Qed.

(** A point of a bucket and the samples it stands for. *)
Definition averages (avg : list float64 -> float64) (bucket : Z) (p : metricPoint) (group : list metricPoint) : Prop :=
  group <> [] /\ mp_value p = avg (mp_value <$> group) /\ Forall (fun q => mp_ts p <= mp_ts q < mp_ts p + bucket * Microsecond) group.

Lemma sorted_times t id from to : StronglySorted Z.le (mp_ts <$> points_in_range t id from to).
Proof.
  induction (points_in_order t id from to) as [|p points Hs IH Hp]; simpl; constructor; [done|].
  apply Forall_fmap. eapply Forall_impl; [exact Hp|]. intros q Hq%Z.ltb_ge. exact Hq.
Qed.

Lemma bucket_groups avg bucket points : 0 < bucket ->
  Forall2 (averages avg bucket)
    ((fun bin => MkMetricPoint bin (avg (mp_value <$> filter (fun p => date_bin bucket (mp_ts p) = bin) points))) <$> bins_of bucket points)
    ((fun bin => filter (fun p => date_bin bucket (mp_ts p) = bin) points) <$> bins_of bucket points).
Proof.
  intros Hb. apply Forall2_fmap, Forall_Forall2_diag, Forall_forall. intros bin (p & Hp & ->)%bins_of_elem. split; [|split; [done|]].
  - intros Hnil. assert (p ∈ filter (fun q => date_bin bucket (mp_ts q) = date_bin bucket (mp_ts p)) points) as Hin by by apply list_elem_of_filter.
    rewrite Hnil in Hin. by apply elem_of_nil in Hin.
  - apply Forall_forall. intros q [Hq _]%list_elem_of_filter. cbn [mp_ts]. rewrite <-Hq. by apply date_bin_width.
Qed.

Lemma groups_join bucket points :
  mjoin ((fun bin => filter (fun p => date_bin bucket (mp_ts p) = bin) points) <$> bins_of bucket points) ≡ₚ points.
Proof. apply (bins_partition (fun p => date_bin bucket (mp_ts p))); [apply bins_of_NoDup|]. intros p Hp. apply bins_of_elem. eauto. Qed.

(** C22. The points of a series are its samples of the range: raw ones are the samples themselves, in the order of their times, for at
    most six hours; otherwise each point is the average of the samples of its bucket, every sample of the range is in exactly one,
    times increase strictly, and with the automatic step there are at most 8641. *)
Theorem points_account_for_the_samples (avg : list float64 -> float64) (requested : string) (from to : Time) (step : metricStep) (seriesID : Z)
    (fs fs' : list fate) (t t' : ReadTables) (points : list metricPoint) :
  chooseMetricStep requested from to = Ok step -> readSeriesPoints avg seriesID step from to fs t = (Ok points, t', fs') ->
  if step_raw step then
    to - from <= 6 * Hour /\ points ≡ₚ samples_of t seriesID from to /\ StronglySorted Z.le (mp_ts <$> points)
  else
    (exists groups, Forall2 (averages avg (step_bucket step)) points groups /\ mjoin groups ≡ₚ samples_of t seriesID from to) /\
    StronglySorted Z.lt (mp_ts <$> points) /\
    (requested = EmptyString \/ requested = "auto" -> Z.of_nat (length points) <= 8641).
Proof.
  intros (Hspan & Hraw & Hbucket)%step_bounds Hread. unfold readSeriesPoints in Hread. destruct (step_raw step).
  - apply reads_Ok in Hread as [-> Hread]; [|apply _]. injection Hread as <-. split; [by apply Hraw|]. split; [apply points_perm|].
    apply sorted_times.
  - apply reads_Ok in Hread as [-> Hread]; [|apply _]. injection Hread as <-. destruct Hbucket as [Hb Hauto]; [done|].
    fold (bins_of (step_bucket step) (points_in_range t seriesID from to)). split; [|split].
    + eexists. split; [apply bucket_groups|]; [done|]. rewrite <-points_perm. by apply groups_join.
    + rewrite <-list_fmap_compose. simpl. rewrite list_fmap_id. apply bins_of_sorted.
    + intros Ha. destruct (Hauto Ha) as (n & Hn & Hlim). rewrite length_fmap. etransitivity; [by apply (bins_limit _ _ _ _ _ n); [done|lia|]|].
      unfold auto_limit in Hlim. lia.
Qed.

(** * One instance and many *)

Lemma reads_ret {A} (a b : A) t t' fs : (mret a : DB ReadTables A) [] t = (Ok b, t', fs) -> b = a.
Proof. by intros [= <- _ _]. Qed.

Lemma Forall2_in {A B} (P : A -> B -> Prop) l k : Forall2 P l k -> Forall2 (fun x y => x ∈ l /\ P x y) l k.
Proof. intros H. induction H as [|x y l k Hxy _ IH]; constructor; [split; [left|done]|]. eapply Forall2_impl; [exact IH|]. intros a b [Ha Hab]. split; [by right|done]. Qed.

(** Rows read one after the other are read as each would be alone. *)
Lemma collect_rows_alone {A B} (f : A -> DB ReadTables B) `{!forall row, Reads (f row)} rows t bs :
  Responses.collect_rows f rows [] t = (Ok bs, t, []) -> Forall2 (fun row b => f row [] t = (Ok b, t, [])) rows bs.
Proof.
  revert bs. induction rows as [|row rows IH]; intros bs; simpl; intros E.
  - by apply reads_ret in E as ->.
  - apply reads_bind in E as (b & Hb & E); [|apply _]. apply reads_bind in E as (rest & Hrest & E); [|apply _]. apply reads_ret in E as ->. constructor; auto.
Qed.

Section Alone.
Context (avg : list float64 -> float64) (now : Time) (requested : option string) (from to : Time) (step : metricStep) (t : ReadTables).
Hypothesis Hstep : chooseMetricStep (requestedStep requested) from to = Ok step.

(** [GetMetricSeries] answers these entries. *)
Definition answers (id : string) (metrics : list MetricID) (entries : list MetricSeriesEntry) : Prop :=
  GetMetricSeries avg now id metrics requested from to None [] t = (Ok (R200 (MkSeriesResponse from entries (step_name step) to)), t, []).

(** The entry of a slot on an engine: that of its metric there, if it has one. *)
Definition slot_answer (id : string) (engine : Engine) (slot : SemanticSlot) (e : MetricSeriesEntry) : Prop :=
  match ResolveSlot Metrics slot engine with
  | inl m => exists e', answers id [m] [e'] /\ e = with_slot slot e'
  | inr _ => e = notApplicableSlotEntry slot
  end.

Lemma entries_answer id metrics entries :
  metricSeriesEntries avg now id metrics step from to false [] t = (Ok entries, t, []) -> answers id metrics entries.
Proof using Hstep. intros E. unfold answers, GetMetricSeries. rewrite Hstep. unfold mbind, DB_bind. simpl. unfold byDatabase. simpl. by rewrite E. Qed.

Lemma slots_answer id engine slots entries :
  slotSeriesEntries avg now id engine slots step from to [] t = (Ok entries, t, []) -> Forall2 (slot_answer id engine) slots entries.
Proof using Hstep.
  revert entries. induction slots as [|slot slots IH]; intros entries; simpl; intros E; [by apply reads_ret in E as ->|].
  apply reads_bind in E as (first & Hfirst & E); [|apply _]. apply reads_bind in E as (rest & Hrest & E); [|apply _]. apply reads_ret in E as ->.
  enough (exists e, first = [e] /\ slot_answer id engine slot e) as (e & -> & He) by (constructor; auto).
  unfold slot_answer. destruct (ResolveSlot Metrics slot engine) as [m|[]]; try done; [|by apply reads_ret in Hfirst as ->; eauto].
  apply reads_bind in Hfirst as (es & Hes & Hf); [|apply _]. apply reads_ret in Hf as ->.
  pose proof (metricSeriesEntries_of _ _ _ _ _ _ _ _ _ _ _ _ _ Hes) as (e & rest' & _ & ->%Forall2_nil_inv_l & ->)%Forall2_cons_inv_l.
  exists (with_slot slot e). split; [done|]. exists e. split; [by apply entries_answer|done].
Qed.
End Alone.

(** C21. What the batch endpoint answers for an instance is what the endpoint of one instance answers, metric by metric and in the same
    order; and for a slot, what that endpoint answers for the metric the slot stands for on the engine of the instance. *)
Theorem batch_agrees_with_single (avg : list float64 -> float64) (now : Time) (ids : list string) (metrics : list MetricID)
    (slots : list SemanticSlot) (requested : option string) (from to : Time) (fs fs' : list fate) (t t' : ReadTables) (r : InstancesMetricSeriesResponse) :
  GetInstancesMetricSeries avg now ids (Some metrics) (Some slots) requested from to fs t = (Ok (R200 r), t', fs') ->
  exists step, chooseMetricStep (requestedStep requested) from to = Ok step /\
  Forall2 (fun id item => ims_InstanceId item = id /\ exists named slotted, ims_Metrics item = named ++ slotted /\
    answers avg now requested from to step t id metrics named /\
    Forall2 (slot_answer avg now requested from to step t id (default EmptyString (rt_engine t !! id))) slots slotted) ids (imr_Instances r).
Proof.
  intros [-> E]%reads_Ok; [|apply _]. unfold GetInstancesMetricSeries in E. destruct (chooseMetricStep _ from to) as [step|e] eqn:Hstep; [|done].
  exists step. split; [done|]. destruct (_ && _); [done|]. apply reads_bind in E as (engines & Hengines & E); [|apply _].
  apply reads_bind in E as (instances & Hi & E); [|apply _]. apply reads_ret in E as [= ->]. apply collect_rows_alone in Hi; [|apply _]. simpl.
  injection Hengines as <-. assert (forall id, id ∈ ids -> default EmptyString (filter (fun entry => entry.1 ∈ ids) (rt_engine t) !! id) =
    default EmptyString (rt_engine t !! id)) as Hsame.
  { intros id Hid. f_equal. apply option_eq. intros engine. rewrite map_lookup_filter_Some. naive_solver. }
  eapply Forall2_impl; [exact (Forall2_in _ _ _ Hi)|]. intros id item [Hid Hrow]. simpl in Hrow. rewrite (Hsame id Hid) in Hrow.
  apply reads_bind in Hrow as (named & Hnamed & Hrow); [|apply _]. apply reads_bind in Hrow as (slotted & Hslotted & Hrow); [|apply _].
  apply reads_ret in Hrow as ->. split; [done|]. exists named, slotted. split; [done|]. split; [by apply entries_answer|by apply slots_answer].
Qed.

(** * A server to read *)

Module SeriesDemo.
Definition mean (values : list float64) : float64 := f64_div (foldl f64_add (f64_of_Z 0) values) (f64_of_Z (Z.of_nat (length values))).

(** Times in seconds after the start of the half-hour that is read. *)
Definition at_ (s : Z) : Time := 1000 * Hour + s * Second.

Definition samples : list SampleRow :=
  [MkSampleRow 1 (at_ 40) (f64_of_Z 8); MkSampleRow 1 (at_ 10) (f64_of_Z 3); MkSampleRow 1 (at_ 5) (f64_of_Z 5);
   MkSampleRow 2 (at_ 5) (f64_of_Z 70); MkSampleRow 1 (at_ 3600) (f64_of_Z 9)].

Definition probed : TaskState := MkTaskState (Some (at_ 40)) (Some (at_ 40)) (Some (at_ 41)) (Some (at_ 41)) (Some resultSuccess) 0 None None None.

Definition tables : ReadTables :=
  MkReadTables
    (MkTables ∅ {["i1" := false]} ∅ {[("i1", TaskProbe) := probed]} ∅ ∅ ∅
      {[("i1", MetricProbeLatencyMS, EmptyString, ∅) := (1, at_ 40); ("i1", MetricConnectionTotal, EmptyString, ∅) := (2, at_ 5)]}
      (MkSampleStore ∅ samples) ∅ ∅ ∅ ∅ ∅ ∅ ∅)
    {["i1" := (false, false)]} {["i1" := EnginePostgreSQL]}.

Definition batch := GetInstancesMetricSeries mean (at_ 100) ["i1"] (Some [MetricProbeLatencyMS; MetricHostCPUUsagePercent; MetricConnectionMax])
  (Some [SlotProbeLatency; SlotStorageUsage]) None (at_ 0) (at_ 1800) [] tables.

Definition answer_of {A} (none : A) (run : result (response A) * ReadTables * list fate) : A :=
  match run with (Ok (R200 r), _, _) => r | _ => none end.
Definition many : InstancesMetricSeriesResponse := answer_of (MkInstancesResponse 0 [] EmptyString 0) batch.
Definition bucketed : metricStep := bucket_step "15s" (15 * Second).
Definition points := readSeriesPoints mean 1 bucketed (at_ 0) (at_ 1800) [] tables.
Definition read : list metricPoint := match points with (Ok points, _, _) => points | _ => [] end.

Definition shown (e : MetricSeriesEntry) : list (list (float64 * float64)) * option string := (as_Points <$> mse_Series e, mse_Unavailability e).

(** Two samples of one bucket are averaged; the one outside the range is left out; the
    host metric of an instance without an agent and the metric without samples have
    their reasons. *)
Example batch_shown :
  map (fun item => map shown (ims_Metrics item)) (imr_Instances many) =
  [[([[(f64_of_Z 3600000, f64_of_Z 4); (f64_of_Z 3600030, f64_of_Z 8)]], None); ([], Some NOTAPPLICABLEROLE); ([], Some NOSAMPLESYET);
    ([[(f64_of_Z 3600000, f64_of_Z 4); (f64_of_Z 3600030, f64_of_Z 8)]], None); ([], Some NOTAPPLICABLEROLE)]].
Proof. vm_compute. reflexivity. Qed.
(** What was computed, without the tables it comes with. *)
Lemma answered {A} (none : A) (run : result (response A) * ReadTables * list fate) :
  match run with (Ok (R200 _), _, _) => true | _ => false end = true -> run = (Ok (R200 (answer_of none run)), run.1.2, run.2).
Proof. by destruct run as [[[[]|] ?] ?]. Qed.

Lemma was_read : points = (Ok read, points.1.2, points.2).
Proof. unfold read. assert (match points with (Ok _, _, _) => true | _ => false end = true) by (vm_compute; reflexivity). by destruct points as [[[]] ]. Qed.
End SeriesDemo.

(** Five entries for the instance of the demonstration. *)
Lemma a_number_or_a_reason_witness :
  Forall2 (fun id item => ims_InstanceId item = id /\ exists named slotted, ims_Metrics item = named ++ slotted /\
    Forall2 entry_of [MetricProbeLatencyMS; MetricHostCPUUsagePercent; MetricConnectionMax] named /\
    Forall2 slot_entry [SlotProbeLatency; SlotStorageUsage] slotted) ["i1"] (imr_Instances SeriesDemo.many).
Proof.
  apply (a_number_or_a_reason SeriesDemo.mean (SeriesDemo.at_ 100) ["i1"] _ _ None (SeriesDemo.at_ 0) (SeriesDemo.at_ 1800) [] SeriesDemo.batch.2 SeriesDemo.tables SeriesDemo.batch.1.2).
  apply SeriesDemo.answered. vm_compute. reflexivity.
Defined.

(** The points of the series of the demonstration stand for the three samples in range. *)
Lemma points_account_for_the_samples_witness :
  length SeriesDemo.read = 2%nat /\
  exists groups, Forall2 (averages SeriesDemo.mean (step_bucket SeriesDemo.bucketed)) SeriesDemo.read groups /\
    mjoin groups ≡ₚ samples_of SeriesDemo.tables 1 (SeriesDemo.at_ 0) (SeriesDemo.at_ 1800).
Proof.
  split; [vm_compute; reflexivity|].
  apply (points_account_for_the_samples SeriesDemo.mean "auto" (SeriesDemo.at_ 0) (SeriesDemo.at_ 1800) SeriesDemo.bucketed 1 [] SeriesDemo.points.2 SeriesDemo.tables SeriesDemo.points.1.2);
    [vm_compute; reflexivity|apply SeriesDemo.was_read].
Defined.

(** One of many, and alone. *)
Lemma batch_agrees_with_single_witness :
  length (imr_Instances SeriesDemo.many) = 1%nat /\
  exists step, chooseMetricStep (requestedStep None) (SeriesDemo.at_ 0) (SeriesDemo.at_ 1800) = Ok step /\
  Forall2 (fun id item => ims_InstanceId item = id /\ exists named slotted, ims_Metrics item = named ++ slotted /\
    answers SeriesDemo.mean (SeriesDemo.at_ 100) None (SeriesDemo.at_ 0) (SeriesDemo.at_ 1800) step SeriesDemo.tables id
      [MetricProbeLatencyMS; MetricHostCPUUsagePercent; MetricConnectionMax] named /\
    Forall2 (slot_answer SeriesDemo.mean (SeriesDemo.at_ 100) None (SeriesDemo.at_ 0) (SeriesDemo.at_ 1800) step SeriesDemo.tables id
      (default EmptyString (rt_engine SeriesDemo.tables !! id))) [SlotProbeLatency; SlotStorageUsage] slotted) ["i1"] (imr_Instances SeriesDemo.many).
Proof.
  split; [vm_compute; reflexivity|].
  apply (batch_agrees_with_single SeriesDemo.mean (SeriesDemo.at_ 100) ["i1"] _ _ None (SeriesDemo.at_ 0) (SeriesDemo.at_ 1800) [] SeriesDemo.batch.2 SeriesDemo.tables SeriesDemo.batch.1.2).
  apply SeriesDemo.answered. vm_compute. reflexivity.
Defined.
