(* ===== verification/CollectionTasks.v ===== *)
(** The collection tasks of an instance over the HTTP API: their states and their
    intervals ([internal/httpapi/handler.go]), on the tables the scheduler reads. *)

From S2P Require Import Prelude Db Text Dictionary Partitions Catalog CollectState Scheduler Responses.

(** * Statements *)

Definition on_task_config (f : gmap (string * TaskID) Z -> gmap (string * TaskID) Z) (t : Tables) : Tables :=
  MkTables t.(t_instance) t.(t_paused) (f (t.(t_task_config))) t.(t_task_state) t.(t_connection_state) t.(t_collect_state) t.(t_capability) t.(t_series) t.(t_samples) t.(t_long_query_snapshot) t.(t_long_query_sample) t.(t_session_snapshot) t.(t_session_entry) t.(t_query_snapshot) t.(t_query_entry) t.(t_query_text).

(** [SetTaskInterval]; the columns [updated_by] and [updated_at], which nothing reads, are
    left out. *)
Definition SetTaskInterval (instanceID : string) (taskID : TaskID) (intervalSeconds : Z) : DB Tables unit :=
  statement (fun t =>
    if bool_decide (taskID = EmptyString) || (intervalSeconds <? 5) then Err (ErrPg "23514")
    else
      match t_instance t !! instanceID with
      | None => Err (ErrPg "23503")
      | Some _ => Ok (tt, on_task_config <[(instanceID, taskID) := intervalSeconds]> t)
      end).

Record ListPersistedCollectionTaskStatesRow : Type := MkPersistedRow {
  persisted_TaskID : TaskID;
  persisted_State : TaskState;
  persisted_NextEligibleAt : option Time;
}.

(** The CASE of [next_eligible_at]: the later of the two times that there are. *)
Definition later_of (task connection : option Time) : option Time :=
  match task, connection with
  | None, _ => connection
  | _, None => task
  | Some a, Some b => Some (Z.max a b)
  end.

Definition persisted_row (t : Tables) (instanceID : string) (entry : (string * TaskID) * TaskState) : option ListPersistedCollectionTaskStatesRow :=
  let '((instance, taskID), state) := entry in
  if bool_decide (instance = instanceID)
  then Some (MkPersistedRow taskID state (later_of (next_eligible_at state) (t_connection_state t !! instanceID ≫= conn_next_eligible_at)))
  else None.

Definition ListPersistedCollectionTaskStates (instanceID : string) : DB Tables (list ListPersistedCollectionTaskStatesRow) :=
  query (fun t => sort_by (fun a b => string_ltb (persisted_TaskID a) (persisted_TaskID b))
                    (omap (persisted_row t instanceID) (map_to_list (t_task_state t)))).

(** * Handlers *)

(** [api.CollectionTaskState] *)
Record CollectionTaskState : Type := MkCollectionTaskState {
  cts_ConsecutiveFailures : Z;
  cts_IntervalSeconds : Z;
  cts_Kind : TaskKind;
  cts_LastDueAt : option Time;
  cts_LastErrorCode : option string;
  cts_LastErrorMessage : option string;
  cts_LastFinishedAt : option Time;
  cts_LastResult : option string;
  cts_LastStartedAt : option Time;
  cts_LastSuccessAt : option Time;
  cts_MetricIds : list MetricID;
  cts_NextEligibleAt : option Time;
  cts_RequiredCapabilities : list CapabilityID;
  cts_TaskId : TaskID;
}.

(** The state of one declared task: its row, if the task was ever due. *)
Definition task_state (persisted : gmap TaskID ListPersistedCollectionTaskStatesRow) (configured : gmap TaskID Z) (task : Task) : CollectionTaskState :=
  let row := persisted !! task_ID task in
  let state := default newTaskState (persisted_State <$> row) in
  MkCollectionTaskState (consecutive_failures state) (default (Z.quot (task_Interval task) Second) (configured !! task_ID task)) (task_Kind task)
    (last_due_at state) (last_error_code state) (last_error_message state) (last_finished_at state) (string_of_result <$> last_result state)
    (last_started_at state) (last_success_at state) (yield_Metric <$> task_Yields task) (row ≫= persisted_NextEligibleAt)
    (task_Requires task) (task_ID task).

Definition collectionTaskStates (instanceID : string) : DB Tables (list CollectionTaskState) :=
  persistedRows ← ListPersistedCollectionTaskStates instanceID;
  configuredRows ← ListTaskIntervals instanceID;
  let persisted := list_to_map ((fun row => (persisted_TaskID row, row)) <$> persistedRows) in
  mret (task_state persisted (list_to_map configuredRows) <$> Tasks).

Definition ListCollectionTaskStates (id : string) : DB Tables (response (list CollectionTaskState)) :=
  states ← collectionTaskStates id;
  mret (R200 states).

(** The error of [ValidateTaskInterval]. *)
Definition interval_error (id : TaskID) : string :=
  if hasTask id then "collection task " +:+ quoted id +:+ " interval must be at least 5s" else "unknown collection task " +:+ quoted id.

(** [time.Duration(request.Body.IntervalSeconds) * time.Second] *)
Definition requested_interval (seconds : Z) : Duration := int64 (seconds * Second).

(** The seconds of the body, a 64-bit integer, are cut to 32 bits for the column. *)
Definition UpdateCollectionTaskInterval (id : string) (taskID : TaskID) (body : option Z) : DB Tables (response CollectionTaskState) :=
  match body with
  | None => mret (R400 (errorBody "VALIDATION_FAILED" "collection task interval body is required"))
  | Some seconds =>
      if negb (ValidateTaskInterval taskID (requested_interval seconds)) then mret (R400 (errorBody "VALIDATION_FAILED" (interval_error taskID)))
      else
        SetTaskInterval id taskID (int32 seconds);;
        states ← collectionTaskStates id;
        match list_find (fun state => cts_TaskId state = taskID) states with
        | Some (_, state) => mret (R200 state)
        | None => mret (R400 (errorBody "VALIDATION_FAILED" "unknown collection task"))
        end
  end.

(** * The intervals the scheduler reads *)

Definition intervals_of (t : Tables) (id : string) : list (TaskID * Z) :=
  map (fun entry => (entry.1.2, entry.2)) (filter (fun entry => entry.1.1 = id) (map_to_list (t_task_config t))).

Lemma intervals_lookup t id taskID seconds : (taskID, seconds) ∈ intervals_of t id <-> t_task_config t !! (id, taskID) = Some seconds.
Proof.
  unfold intervals_of. rewrite <-elem_of_map_to_list. split.
  - intros ([[i task] s] & [= -> ->] & [Hi Hin]%list_elem_of_filter)%list_elem_of_fmap. simpl in *. by subst.
  - intros Hin. apply list_elem_of_fmap. exists ((id, taskID), seconds). split; [done|]. by apply list_elem_of_filter.
Qed.

(** A function of the keys and values of a table keeps its keys. *)
Lemma intervals_keys t id (f : Z -> Z) : NoDup ((map (fun row => (row.1, f row.2)) (intervals_of t id)).*1).
Proof.
  assert ((map (fun row => (row.1, f row.2)) (intervals_of t id)).*1 = (intervals_of t id).*1) as ->
    by (rewrite <-list_fmap_compose; by apply list_fmap_ext).
  apply NoDup_fmap_fst; [|].
  - intros task s1 s2 H1%intervals_lookup H2%intervals_lookup. congruence.
  - unfold intervals_of. apply NoDup_fmap_2_strong; [|apply NoDup_filter, NoDup_map_to_list].
    intros [[i1 a1] s1] [[i2 a2] s2] [Hi1 _]%list_elem_of_filter [Hi2 _]%list_elem_of_filter [= -> ->]. simpl in *. by subst.
Qed.

Lemma intervals_map_lookup t id (f : Z -> Z) taskID :
  (list_to_map (map (fun row => (row.1, f row.2)) (intervals_of t id)) : gmap TaskID Z) !! taskID = f <$> t_task_config t !! (id, taskID).
Proof.
  apply option_eq. intros s. rewrite <-elem_of_list_to_map by apply intervals_keys. rewrite list_elem_of_fmap, fmap_Some. split.
  - intros ([task s'] & [= -> ->] & Hin%intervals_lookup). eauto.
  - intros (s' & Hin%intervals_lookup & ->). by exists (taskID, s').
Qed.

(** The configured intervals, as the scheduler reads them and as the API shows them. *)
Lemma scheduler_intervals t id :
  exists intervals, taskIntervals id [] t = (Ok intervals, t, []) /\
    forall taskID, intervals !! taskID = (fun s => int64 (s * Second)) <$> t_task_config t !! (id, taskID).
Proof. eexists. split; [reflexivity|]. intros taskID. apply (intervals_map_lookup t id (fun s => int64 (s * Second))). Qed.

(** * Changing an interval *)

#[export] Instance collectionTaskStates_propagates id : Propagates (collectionTaskStates id).
Proof. unfold collectionTaskStates, ListPersistedCollectionTaskStates, ListTaskIntervals. apply _. Qed.

#[export] Instance collectionTaskStates_keeps id : Keeps (fun t => t) (collectionTaskStates id).
Proof. unfold collectionTaskStates, ListPersistedCollectionTaskStates, ListTaskIntervals. apply _. Qed.

(** The states shown: one for each declared task, in their order, with its interval. *)
Lemma states_shown t id states t' fs :
  collectionTaskStates id [] t = (Ok states, t', fs) ->
  Forall2 (fun task state => cts_TaskId state = task_ID task /\
    cts_IntervalSeconds state = default (Z.quot (task_Interval task) Second) (t_task_config t !! (id, task_ID task))) Tasks states.
Proof.
  intros E. assert (exists persisted, states = task_state persisted (list_to_map (intervals_of t id)) <$> Tasks) as [persisted ->]
    by (eexists; exact (eq_sym (f_equal (fun r => match r.1.1 with Ok s => s | Err _ => states end) E))).
  apply Forall2_fmap_r, Forall_Forall2_diag, Forall_forall. intros task _. simpl. split; [done|]. f_equal.
  rewrite <-(option_fmap_id (t_task_config t !! _)). rewrite <-(intervals_map_lookup t id (fun s => s)). f_equal. f_equal.
  change (fmap fst) with (map (@fst TaskID Z)). rewrite <-map_id at 1. apply map_ext. by intros [].
Qed.

Lemma hasTask_in taskID : hasTask taskID = true -> exists task, task ∈ Tasks /\ task_ID task = taskID.
Proof. intros (task & Hin & Ht%bool_decide_eq_true)%existsb_exists. exists task. split; [by apply list_elem_of_In|done]. Qed.

(** A task that exists is found among the states. *)
Lemma state_found t id taskID states t' fs :
  collectionTaskStates id [] t = (Ok states, t', fs) -> hasTask taskID = true ->
  exists i state, list_find (fun state => cts_TaskId state = taskID) states = Some (i, state).
Proof.
  intros Hs%states_shown (task & Hin & <-)%hasTask_in. apply list_elem_of_lookup_1 in Hin as [i Hi].
  destruct (Forall2_lookup_l _ _ _ _ _ Hs Hi) as (state & Hstate & Hid & _).
  destruct (list_find_elem_of (fun state => cts_TaskId state = task_ID task) states state) as [[j s] Hj]; [|done|eauto].
  by eapply list_elem_of_lookup_2.
Qed.

(** The tables after an interval was stored. *)
Definition with_interval (id : string) (taskID : TaskID) (seconds : Z) (t : Tables) : Tables := on_task_config <[(id, taskID) := seconds]> t.

(** What the handler may leave behind. *)
Definition stored_interval (id : string) (taskID : TaskID) (seconds : Z) (t t' : Tables) : Prop :=
  ValidateTaskInterval taskID (requested_interval seconds) = true /\ 5 <= int32 seconds /\ is_Some (t_instance t !! id) /\
  t' = with_interval id taskID (int32 seconds) t.

Lemma set_interval_triple id taskID seconds t :
  ValidateTaskInterval taskID (requested_interval seconds) = true ->
  triple (fun t1 => t1 = t) (SetTaskInterval id taskID (int32 seconds)) (fun _ => stored_interval id taskID seconds t)
    (fun t' => t' = t \/ stored_interval id taskID seconds t t').
Proof.
  intros Hv. apply triple_statement; [auto|]. intros t1 [] t' -> E. enough (stored_interval id taskID seconds t t') by auto.
  destruct (_ || _) eqn:Hcheck; [done|]. apply orb_false_iff in Hcheck as [_ Hge%Z.ltb_ge].
  destruct (t_instance t !! id) eqn:Hi; [|done]. injection E as <-. by repeat split.
Qed.

(** The answer to a change, and the tables it goes with. *)
Definition interval_answered (id : string) (taskID : TaskID) (seconds : Z) (t : Tables) (r : response CollectionTaskState) (t' : Tables) : Prop :=
  match r with
  | R200 state => stored_interval id taskID seconds t t' /\ cts_TaskId state = taskID /\
      exists i states, collectionTaskStates id [] t' = (Ok states, t', []) /\ states !! i = Some state
  | R400 _ => t' = t /\ ValidateTaskInterval taskID (requested_interval seconds) = false
  | _ => False
  end.

Lemma update_interval_triple id taskID seconds t :
  triple (fun t1 => t1 = t) (UpdateCollectionTaskInterval id taskID (Some seconds)) (interval_answered id taskID seconds t)
    (fun t' => t' = t \/ stored_interval id taskID seconds t t').
Proof.
  unfold UpdateCollectionTaskInterval. destruct (ValidateTaskInterval taskID (requested_interval seconds)) eqn:Hv;
    [|apply triple_ret; by intros t' ->].
  eapply triple_bind; [by apply set_interval_triple|]. intros []. apply triple_at. intros t' Hstored.
  eapply triple_bind; [eapply triple_weaken; [apply (triple_reads (collectionTaskStates id) t')|done|done|by intros t1 ->; right]|].
  intros states. apply triple_at. intros t1 [-> Hstates]. assert (hasTask taskID = true) as Hhas by (by apply andb_true_iff in Hv as [? _]).
  destruct (state_found _ _ _ _ _ _ Hstates Hhas) as (i & state & Hfind). rewrite Hfind. apply triple_ret. intros t2 ->.
  apply list_find_Some in Hfind as (Hi & Hid & _). split; [done|]. split; [done|]. eauto.
Qed.

(** C27. A change of the interval of a collection task leaves the tables as they were, or stores for that task and nothing else the seconds
    of the request cut to 32 bits: the requested ones if they are below 2^31, but five for a request of 2^32+5 seconds, which passes the
    validation. It is stored only for a declared task and an existing instance, and is at least five seconds. An answer 200 tells that it
    was stored and shows what was stored, and the scheduler then reads it for this task and the old intervals for all others; with an
    answer 400 nothing is stored. *)
Theorem interval_changes_reach_the_scheduler (id : string) (taskID : TaskID) (seconds : Z) (fs fs' : list fate) (t t' : Tables)
    (r : result (response CollectionTaskState)) :
  UpdateCollectionTaskInterval id taskID (Some seconds) fs t = (r, t', fs') ->
  (t' = t \/ stored_interval id taskID seconds t t') /\
  match r with
  | Ok (R200 state) =>
      stored_interval id taskID seconds t t' /\ cts_TaskId state = taskID /\ cts_IntervalSeconds state = int32 seconds /\
      (0 <= seconds < 2 ^ 31 -> cts_IntervalSeconds state = seconds) /\
      exists before, taskIntervals id [] t = (Ok before, t, []) /\
        taskIntervals id [] t' = (Ok (<[taskID := int64 (int32 seconds * Second)]> before), t', [])
  | Ok (R400 _) => t' = t /\ ValidateTaskInterval taskID (requested_interval seconds) = false
  | Ok _ => False
  | Err _ => True
  end.
Proof.
  intros E. pose proof (update_interval_triple id taskID seconds t fs t eq_refl) as H. rewrite E in H. destruct r as [[state| | | |e| |]|e]; try done.
  - destruct H as (Hs & Hid & i & states & Hstates & Hi). split; [by right|]. split; [done|]. split; [done|].
    destruct Hs as (_ & _ & _ & ->). apply states_shown in Hstates.
    destruct (Forall2_lookup_r _ _ _ _ _ Hstates Hi) as (task & _ & Htask & Hseconds).
    assert (cts_IntervalSeconds state = int32 seconds) as Hint.
    { rewrite Hseconds. assert (task_ID task = taskID) as -> by congruence. unfold with_interval. simpl. by rewrite lookup_insert_eq. }
    split; [done|]. split; [intros Hsmall; rewrite Hint; unfold int32; rewrite Z.mod_small; lia|].
    destruct (scheduler_intervals t id) as (before & Hb & Hlook). destruct (scheduler_intervals (with_interval id taskID (int32 seconds) t) id) as (after & Ha & Hlook').
    exists before. split; [done|]. rewrite Ha. do 3 f_equal. apply map_eq. intros other. rewrite Hlook'. unfold with_interval. simpl.
    destruct (decide (other = taskID)) as [->|Hne]; [by rewrite !lookup_insert_eq|]. rewrite !lookup_insert_ne by congruence. by rewrite Hlook.
  - destruct H as [-> Hv]. by split; [left|].
Qed.

Module IntervalDemo.
Definition tables : Tables :=
  MkTables {["i1" := MkTarget "i1" "db" 5432 None "monitor" [] 1 1]} {["i1" := false]} {[("i1", TaskProbe) := 30; ("i1", TaskStatDatabase) := 60]} ∅ ∅ ∅ ∅ ∅
    (MkSampleStore ∅ []) ∅ ∅ ∅ ∅ ∅ ∅ ∅.
Definition change (seconds : Z) := UpdateCollectionTaskInterval "i1" TaskProbe (Some seconds) [] tables.
Definition shown (seconds : Z) : option (response Z) :=
  match change seconds with
  | (Ok (R200 state), _, _) => Some (R200 (cts_IntervalSeconds state))
  | (Ok (R400 e), _, _) => Some (R400 e)
  | _ => None
  end.
Definition answer : CollectionTaskState := match change (2 ^ 32 + 5) with (Ok (R200 state), _, _) => state | _ => task_state ∅ ∅ capabilitySnapshotTask end.
Definition after : Tables := (change (2 ^ 32 + 5)).1.2.

(** Ten seconds are stored, four refused; of 2^32+5 seconds only five are left. *)
Example shown_intervals :
  shown 10 = Some (R200 10) /\ shown 4 = Some (R400 (errorBody "VALIDATION_FAILED" (interval_error TaskProbe))) /\ shown (2 ^ 32 + 5) = Some (R200 5).
Proof. vm_compute. auto. Qed.
End IntervalDemo.

(** A request for 2^32+5 seconds stores five. *)
Lemma interval_changes_reach_the_scheduler_witness :
  stored_interval "i1" TaskProbe (2 ^ 32 + 5) IntervalDemo.tables IntervalDemo.after /\
  t_task_config IntervalDemo.after !! ("i1", TaskProbe) = Some 5.
Proof.
  split; [|vm_compute; reflexivity].
  apply (interval_changes_reach_the_scheduler "i1" TaskProbe (2 ^ 32 + 5) [] [] IntervalDemo.tables IntervalDemo.after (Ok (R200 IntervalDemo.answer))).
  vm_compute. reflexivity.
Defined.
